(* ===== verification/_CoqProject ===== *)
-Q . S2P
Prelude.v
RustStr.v
Net.v
StrFacts.v
NetFacts.v
HostPolicy.v
BTree.v
Order.v
TunnelSocket.v
Isolation.v
IsolationProps.v
IsolationRender.v
HostAgent.v
HostAgentProps.v
WireGuard.v
WireGuardProps.v
Profiles.v
State.v
Domain.v
Float64.v
DomainProps.v
Control.v
Config.v
ConfigProps.v
ConfigDefaults.v
Nft.v
Host.v
HostProps.v
BridgeNft.v
Machine.v
StateErr.v
Routes.v
RoutesProps.v
Enforcement.v
EnforcementProps.v
ProfileManager.v
ProfileManagerProps.v
PortForward.v
Docker.v
DockerProps.v
Kubernetes.v
NatPmp.v
LeaseKeeper.v
LeaseKeeperProps.v
TunnelMonitor.v
TunnelMonitorProps.v
Probe.v
ProbeProps.v
Notifications.v
History.v
HistoryProps.v
HistoryPages.v
HistorySchema.v
HistoryData.v
HistoryQueue.v
NotificationManager.v
Telemetry.v
VpnServer.v
VpnServerProps.v
AdminAuth.v
DnsMetrics.v
Web.v
WebProps.v
Reconciler.v
ReconcilerProps.v
Supervision.v
SupervisionProps.v
Runtime.v
RuntimeProps.v
EgressyProbe.v
EgressyProbeProps.v
DnsMessage.v
DnsCache.v
LocalZone.v
DnsAdmission.v
DnsAdmissionProps.v
DnsHealth.v
DnsForward.v
DnsServe.v
DnsServeProps.v
