(* ===== verification/Prelude.v ===== *)
(** * Egressy: a verification library of the gateway

    Egressy is a VPN gateway for containers.  Containers and pods that are
    attached to one shared bridge are enrolled; the host routes what they send to
    the gateway, and the gateway forwards it through one WireGuard tunnel or not
    at all.  The Rust sources are under src/src, and this library models all of
    them that decides something: the code that is left out is listed at the end.
    Every Rust function is a Gallina function of the same name where Rocq allows
    it, executable whenever the function is; loops and tasks that interleave are
    step relations.

    ** The program's parts

    [main] loads and validates a configuration, and [run] sets the machine up
    (firewall, profile, tunnel, routes) and spawns the tasks: the reconciler,
    the tunnel monitor, the lease keeper, the probe monitor, the traffic sampler,
    the DNS service, the history supervisor and recorder, the notifications, the
    telemetry and VPN server monitors, and the HTTP interface.  The tasks share
    the gateway's state, the state publisher, the enforcement coordinator and the
    profile manager, each behind a mutex.  Two more binaries run elsewhere: the
    isolation agent on the host, and the probe inside the enrolled network.

    ** Files

    Foundations.
    - Prelude: the result monad, boolean reflection, sorting, saturating and
      checked integers, the hint databases [egressy] and [egressy_rw].
    - RustStr, StrFacts: Rust's [str] functions, and their facts.
    - Net, NetFacts: IP addresses with their parsers and printers; the interface
      of the ipnet crate ([IpNetCrate]) and a concrete instance ([CidrNet]).
    - BTree, Order: maps listed in key order, and the orders the code sorts by.
    - Float64: Rust's [f64].
    - StateErr: computations on a state that can fail and keep what they did.
    - Machine: processes, files and sleeps.  A computation answers to an
      arbitrary environment, and the list of what was done is part of its result,
      so a theorem can speak about every point of a run.
    - TunnelSocket (tunnel_socket.rs): the sockets towards the tunnel.

    Data of the gateway.
    - State (state.rs), Domain and DomainProps (domain.rs): the shared state, the
      canonical snapshot, its checks, aggregate and transitions.
    - Control (control.rs, recovery.rs): the state publisher; the retry delay.
    - Config, ConfigProps, ConfigDefaults (config.rs): loading, the environment,
      the validation in the order of its checks, and the defaults.

    Policy and enforcement.
    - HostPolicy (host_policy.rs): the document for the host, the ip and nft
      input rendered from it, and drift.
    - Isolation, IsolationProps, IsolationRender, BridgeNft (isolation.rs): the
      screening of candidates, the policy, the bridge ruleset and its meaning.
    - HostAgent, HostAgentProps (bin/egressy-isolation-agent.rs).
    - Nft, Host, HostProps (host.rs): the gateway's firewall and the meaning of
      its text.
    - Enforcement, EnforcementProps (enforcement.rs): DNAT rules, counters and
      the nft transactions.
    - Routes, RoutesProps (runtime.rs): the policy table, the tunnel interface.

    The tunnel.
    - WireGuard, WireGuardProps (wireguard.rs): profiles, parsing and rendering.
    - Profiles (profiles.rs): the store of encrypted revisions.
    - ProfileManager, ProfileManagerProps (profile_manager.rs): the transactions
      that replace the profile in use.
    - TunnelMonitor, TunnelMonitorProps (runtime.rs): health and recovery.
    - VpnServer, VpnServerProps (vpn_server.rs and runtime.rs): the endpoint.

    Clients.
    - PortForward, Docker, DockerProps (docker.rs), Kubernetes (kubernetes.rs):
      discovery, and who may hold a lease.
    - Reconciler, ReconcilerProps (runtime.rs): from the inventories to clients,
      names, firewall and isolation policy.
    - NatPmp (natpmp.rs), LeaseKeeper, LeaseKeeperProps (runtime.rs): leases.
    - Probe, ProbeProps (probe.rs); EgressyProbe, EgressyProbeProps
      (bin/egressy-probe.rs): the probe and what the gateway makes of it.

    DNS (dns.rs, dns_cache.rs, local_zone.rs).
    - DnsMessage: the interface of hickory-proto.
    - DnsCache, LocalZone, DnsForward: cache, local names, the retry ladder.
    - DnsAdmission, DnsAdmissionProps: permits, under every interleaving.
    - DnsHealth: the debounced verdict.  DnsMetrics: the counters as text.
    - DnsServe, DnsServeProps: listeners, workers and supervisor together.

    Records and interfaces.
    - History, HistoryProps, HistorySchema, HistoryData, HistoryPages,
      HistoryQueue (history.rs): the database, its migrations, accounting,
      queries, paging, and the queue to the writer thread.
    - Notifications, NotificationManager (notifications.rs).
    - Telemetry (telemetry.rs and runtime.rs).
    - AdminAuth, Web, WebProps (web.rs): sessions, handlers, readiness, metrics.
    - Supervision, SupervisionProps (runtime.rs): sampler, recorder, supervisor.
    - Runtime, RuntimeProps (runtime.rs, main.rs): start, end and commands.

    A file <X>Props holds the properties of the file <X>; where there is none,
    they are in the file itself, after its definitions.

    ** How state and operations correspond to the code

    A struct is a Record with the fields of the source under a short prefix, an
    enum an Inductive, a w-bit integer an [N] with the bound, the saturation or
    the wrap-around of each operation written out.  A [BTreeMap], [HashMap] or
    table is a [gmap]; where the iteration order of a hash map could matter it
    is a parameter or a theorem says that it does not.  An error is the message
    of the source; an operation that fails leaves what it had done ([StateErr],
    [Machine]).  A method that holds its mutex throughout is one step, and a run
    is any sequence of such steps; where the code lets go of the lock in the
    middle, the operation is several steps (reading the source of a profile,
    admission of a query, the sampler against the reconciler, the history's
    queue, the DNS workers).  SQL statements are the operations on tables they
    denote, each of which may also fail.

    Libraries and the world are classes or arguments: [IpNetCrate], [UrlCrate],
    [Hickory], [Reqwest], [StoreEnv] (cipher and JSON), [Sqlite], [Env] (what
    programs and files answer, given everything done before), [HostEnv],
    [KeeperEnv], [MonitorEnv], [NftProgram].  What a theorem relies on of them is
    a class of laws ([IpNetText], [HickoryLaws], [NftDocumented],
    [BridgeDocumented]) that states their documentation and that a concrete
    instance satisfies; every theorem with hypotheses has a closed witness.

    ** What the theorems show

    - Text means policy.  The gateway's firewall
      and the bridge ruleset are evaluated as nft
      reads them and give every packet and every frame the verdict of a short
      abstract policy.  Corollaries: enrolled traffic leaves by the tunnel only,
      and peers reach each other only by an allowance.
    - Policies are sound.  What is eligible has valid and distinct identities;
      pods can neither degrade the bridge nor open a Docker container.
    - Nothing leaks.  Nothing runs before the base firewall; at every point of
      every sequence of route operations and profile transactions, whatever
      fails, the tunnel's default route has the unreachable route behind it; a
      tunnel that is known to be down forwards nothing; DNAT goes to current,
      compliant clients only; a configuration file for wg-quick has owned lines
      only.
    - State is consistent.  Profile, resolver, store and published revision agree
      in every reachable state, forwards shown as active have leases, published
      state is the current state, and inventories are dropped when stale.
    - Evidence.  A port is shown as verified only when the endpoint said so about
      that port and lease; the two programs are composed for this.
    - Records.  Every byte a counter moved is in the buckets once; migrations
      converge from every version through every failure; rows stay well typed;
      pages hold every event once; the queue refines a sequential writer; queries
      sum to what is stored; a failed history is replaced.
    - DNS.  Every query has one worker or one outcome, permits are conserved,
      workers end, a cached answer is the last answer to that question, and the
      verdict follows the outcomes.
    - Errors, bounds and termination: requests, evictions and recoveries end
      within their limits, and what fails is reported.
    Where the proofs found that the code does something else than its comments
    or documents say, the behaviour of the code is what is modelled, and a lemma
    beside the definition shows it.

    ** Bounds and fuel

    A recursion that is not structural takes fuel, with a proof or a measure that
    it is enough: a rule has at most as many clauses as words ([Nft.run],
    [BridgeNft.run]); an eviction removes an entry at each turn
    ([Domain.push_transition], the number of entries); searching and splitting
    consume a character at each turn (the length of the text); a NAT-PMP request
    doubles its timeout from 250 ms and so makes four attempts (proved in NatPmp);
    the wait for the interface holds at most forty sleeps of 250 ms in its ten
    seconds ([ProfileManager.EVIDENCE_FUEL]); migrations go through the known
    versions.  Times are nanoseconds or milliseconds in [N]; the clock that a
    computation reads is an arbitrary function of how often it was asked.

    ** Not modelled

    - Derived code and codecs: the serde and clap derives, the DNS wire format,
      TLS and HTTP, the JSON of answers, the URL grammar, ciphers and hashes.
      They are the parameters above.
    - The OpenTelemetry pipelines (batching, encoding, export, shutdown): a
      telemetry export is its outcome.
    - The stream of server-sent events and the routing tables of axum: a handler
      is a function from its request to its answer.
    - Logging, file permissions and pragmas of the databases (calls whose failure
      is an answer of the environment), zeroization of secrets.
    - Time that passes: tickers, sleeps and time-outs are steps that may happen,
      or errors that an environment may answer.
    - Interleavings within what is taken as one step: a turn of a monitor's loop
      against the other tasks (except where it is said above to be several
      steps), and a connection served by a TCP worker.
    - The programs ip, nft, wg, wg-quick, ping and sysctl: their answers are
      arbitrary, and the meaning of a ruleset is what nft documents for the
      clauses that occur.
    - lib.rs, which re-exports two modules. *)

From Stdlib Require Export Ascii.
From Stdlib Require String.
From stdpp Require Export base gmap strings list fin_maps pretty sorting numbers.

Declare Scope egressy_scope.
Delimit Scope egressy_scope with egressy.
#[global] Open Scope egressy_scope.
#[global] Open Scope stdpp_scope.

#[export] Set Warnings "-clear-no-such-hyp,-level-tolerance,-notation-for-abbreviation".

Create HintDb egressy.
Create Rewrite HintDb egressy_rw.

(** ** Boolean tests *)

Lemma existsb_elem {A} (f : A -> bool) (l : list A) :
  existsb f l = true <-> exists x, x ∈ l /\ f x = true.
Proof. rewrite existsb_exists. by setoid_rewrite list_elem_of_In. Qed.

Lemma forallb_elem {A} (f : A -> bool) (l : list A) :
  forallb f l = true <-> forall x, x ∈ l -> f x = true.
Proof. rewrite forallb_forall. by setoid_rewrite list_elem_of_In. Qed.

Lemma bool_decide_true (P : Prop) `{Decision P} : bool_decide P = true <-> P.
Proof. apply bool_decide_eq_true. Qed.

Lemma elem_of_bfilter {A} (f : A -> bool) (l : list A) x :
  x ∈ List.filter f l <-> x ∈ l /\ f x = true.
Proof. by rewrite !list_elem_of_In, List.filter_In. Qed.

(** Turn boolean tests in the hypotheses into the propositions they decide. *)
Ltac simplify_bools :=
  repeat match goal with
  | H : bool_decide _ = true |- _ => apply bool_decide_eq_true in H
  | H : bool_decide _ = false |- _ => apply bool_decide_eq_false in H
  | H : _ && _ = true |- _ => apply andb_true_iff in H as [? ?]
  | H : _ || _ = false |- _ => apply orb_false_iff in H as [? ?]
  | H : negb _ = true |- _ => apply negb_true_iff in H
  | H : negb _ = false |- _ => apply negb_false_iff in H
  | H : (_ =? _)%nat = true |- _ => apply Nat.eqb_eq in H
  | H : (_ =? _)%nat = false |- _ => apply Nat.eqb_neq in H
  | H : (_ <=? _)%nat = true |- _ => apply Nat.leb_le in H
  | H : (_ <=? _)%nat = false |- _ => apply Nat.leb_gt in H
  | H : (_ <? _)%nat = true |- _ => apply Nat.ltb_lt in H
  | H : (_ <? _)%nat = false |- _ => apply Nat.ltb_ge in H
  | H : (_ =? _)%N = true |- _ => apply N.eqb_eq in H
  | H : (_ =? _)%N = false |- _ => apply N.eqb_neq in H
  | H : (_ <=? _)%N = true |- _ => apply N.leb_le in H
  | H : (_ <=? _)%N = false |- _ => apply N.leb_gt in H
  | H : (_ <? _)%N = true |- _ => apply N.ltb_lt in H
  | H : (_ <? _)%N = false |- _ => apply N.ltb_ge in H
  | H : String.eqb _ _ = true |- _ => apply String.eqb_eq in H
  | H : String.eqb _ _ = false |- _ => apply String.eqb_neq in H
  end.

(** Open every existential, conjunction and disjunction in the hypotheses. *)
Ltac decompose_all :=
  repeat match goal with
  | H : exists _, _ |- _ => destruct H
  | H : _ /\ _ |- _ => destruct H
  | H : _ \/ _ |- _ => destruct H
  end.

(** ** Fallible code: Rust's [Result], with the [?] operator as monadic bind. *)

Inductive Result (A E : Type) : Type :=
| Ok (value : A)
| Err (error : E).
Arguments Ok {A E} value.
Arguments Err {A E} error.

#[export] Instance Result_eq_dec `{EqDecision A, EqDecision E} : EqDecision (Result A E).
Proof. solve_decision. Defined.

#[export] Instance Ok_inj A E : Inj (=) (=) (@Ok A E).
Proof. by intros ?? [=]. Qed.
#[export] Instance Err_inj A E : Inj (=) (=) (@Err A E).
Proof. by intros ?? [=]. Qed.

Definition res_bind {A B E} (r : Result A E) (f : A -> Result B E) : Result B E :=
  match r with Ok a => f a | Err e => Err e end.

Notation "'let?' x := r 'in' k" := (res_bind r (fun x => k))
  (at level 10, x pattern, r at level 100, k at level 200) : egressy_scope.

Definition ok_or {A E} (o : option A) (e : E) : Result A E :=
  match o with Some a => Ok a | None => Err e end.

Definition res_ok {A E} (r : Result A E) : option A :=
  match r with Ok a => Some a | Err _ => None end.

Definition map_err {A E F} (f : E -> F) (r : Result A E) : Result A F :=
  match r with Ok a => Ok a | Err e => Err (f e) end.

(** [ensure c e] is the guard [if !c { return Err(e) }]. *)
Definition ensure {E} (c : bool) (e : E) : Result unit E :=
  if c then Ok tt else Err e.

Lemma res_bind_Ok {A B E} (r : Result A E) (f : A -> Result B E) b :
  res_bind r f = Ok b <-> exists a, r = Ok a /\ f a = Ok b.
Proof.
  destruct r; simpl.
  - split; [eauto|]. by intros (? & [= ->] & ?).
  - split; [done|]. by intros (? & ? & ?).
Qed.

Lemma ensure_Ok {E} c (e : E) u : ensure c e = Ok u <-> c = true.
Proof. destruct c, u; simpl; naive_solver. Qed.

Lemma ok_or_Ok {A E} (o : option A) (e : E) a : ok_or o e = Ok a <-> o = Some a.
Proof. destruct o; simpl; naive_solver. Qed.

#[export] Hint Rewrite @res_bind_Ok @ensure_Ok @ok_or_Ok : egressy_rw.

(** Open the successful computations in the hypotheses into their steps. *)
Ltac res_steps :=
  repeat match goal with
  | H : res_bind _ _ = Ok _ |- _ => apply res_bind_Ok in H as (? & ? & H)
  | H : ensure _ _ = Ok _ |- _ => apply ensure_Ok in H
  | H : ok_or _ _ = Ok _ |- _ => apply ok_or_Ok in H
  | H : @Ok ?A ?E ?x = Ok ?y |- _ => apply (inj (@Ok A E)) in H
  end; simplify_bools.

(** [iter().map(f).collect::<Result<Vec<_>, _>>()]: the first error wins. *)
Fixpoint mapM_res {A B E} (f : A -> Result B E) (l : list A) : Result (list B) E :=
  match l with
  | [] => Ok []
  | x :: l => let? y := f x in let? ys := mapM_res f l in Ok (y :: ys)
  end.

Lemma mapM_res_Ok {A B E} (f : A -> Result B E) l ys :
  mapM_res f l = Ok ys <-> Forall2 (fun x y => f x = Ok y) l ys.
Proof.
  revert ys; induction l as [|x l IH]; intros ys; simpl.
  - split; [intros [= <-]; constructor | by inversion 1].
  - rewrite res_bind_Ok. setoid_rewrite res_bind_Ok. split.
    + intros (y & Hy & zs & Hzs%IH & [= <-]). by constructor.
    + inversion 1 as [|? y ? zs Hy Hzs]; subst.
      exists y. split; [done|]. exists zs. by rewrite IH.
Qed.

(** [for x in l { step(&mut s, x)?; }] *)
Fixpoint foldM_res {A S E} (f : S -> A -> Result S E) (s : S) (l : list A) : Result S E :=
  match l with
  | [] => Ok s
  | x :: l => let? s' := f s x in foldM_res f s' l
  end.

Lemma foldM_res_ind {A S E} (P : S -> Prop) (f : S -> A -> Result S E) :
  (forall s x s', P s -> f s x = Ok s' -> P s') ->
  forall l s s', P s -> foldM_res f s l = Ok s' -> P s'.
Proof.
  intros Hstep l. induction l as [|x l IH]; intros s s' Hs; simpl.
  - by intros [= <-].
  - rewrite res_bind_Ok. intros (s1 & H1 & H2). eauto.
Qed.

Lemma foldM_res_ind_in {A S E} (P : S -> Prop) (f : S -> A -> Result S E) (l : list A) :
  (forall s x s', x ∈ l -> P s -> f s x = Ok s' -> P s') ->
  forall s s', P s -> foldM_res f s l = Ok s' -> P s'.
Proof.
  induction l as [|x l IH]; intros Hstep s s' Hs; simpl.
  - by intros [= <-].
  - rewrite res_bind_Ok. intros (s1 & H1 & H2).
    eapply IH; [|eapply Hstep; [by left|done|done]|done].
    intros ? ? ? ?. apply Hstep. by right.
Qed.

(** ** Machine integers: unsigned w-bit values are [N], with Rust's saturating
    and wrapping operators written out. *)

Definition u16_MAX : N := 65535.
Definition u32_MAX : N := 4294967295.
Definition u64_MAX : N := 18446744073709551615.
Definition usize_MAX : N := u64_MAX.
Definition i64_MAX : Z := 9223372036854775807.

Definition saturating_add (max a b : N) : N := N.min max (a + b).
Definition saturating_mul (max a b : N) : N := N.min max (a * b).
Definition saturating_sub (a b : N) : N := a - b.
Definition wrapping_add (bits a b : N) : N := (a + b) mod 2 ^ bits.
Definition wrapping_mul (bits a b : N) : N := (a * b) mod 2 ^ bits.

Lemma saturating_add_le_max max a b : (saturating_add max a b <= max)%N.
Proof. unfold saturating_add. lia. Qed.

Lemma saturating_add_exact max a b :
  (a + b <= max)%N -> saturating_add max a b = (a + b)%N.
Proof. unfold saturating_add. lia. Qed.

#[export] Hint Resolve saturating_add_le_max saturating_add_exact : egressy.

(** ** Time.  [Instant] and [Duration] are counts of nanoseconds. *)

Definition NANOS_PER_SEC : N := 1000000000.
Definition from_secs (s : N) : N := s * NANOS_PER_SEC.
Definition as_secs (d : N) : N := d / NANOS_PER_SEC.
Definition saturating_duration_since (now earlier : N) : N := saturating_sub now earlier.

Lemma as_secs_from_secs s : as_secs (from_secs s) = s.
Proof. unfold as_secs, from_secs. by rewrite N.div_mul. Qed.

(** ** Stable sorting, as [slice::sort] and [slice::sort_by]. *)

Section sort_by.
Context {A : Type} (leb : A -> A -> bool).

Fixpoint insert_sorted (x : A) (l : list A) : list A :=
  match l with
  | [] => [x]
  | y :: l' => if leb x y then x :: l else y :: insert_sorted x l'
  end.

Definition sort_by (l : list A) : list A := foldr insert_sorted [] l.

Lemma insert_sorted_perm x l : insert_sorted x l ≡ₚ x :: l.
Proof.
  induction l as [|y l IH]; simpl; [done|].
  destruct (leb x y); [done|]. rewrite IH. constructor.
Qed.

Lemma sort_by_perm l : sort_by l ≡ₚ l.
Proof.
  induction l as [|x l IH]; simpl; [done|].
  by rewrite insert_sorted_perm, IH.
Qed.

Lemma elem_of_sort_by x l : x ∈ sort_by l <-> x ∈ l.
Proof. by rewrite sort_by_perm. Qed.

Lemma length_sort_by l : length (sort_by l) = length l.
Proof. by rewrite sort_by_perm. Qed.

Hypothesis leb_total : forall x y, leb x y = true \/ leb y x = true.
Hypothesis leb_trans : forall x y z, leb x y = true -> leb y z = true -> leb x z = true.

Lemma insert_sorted_sorted x l :
  StronglySorted (fun a b => leb a b = true) l ->
  StronglySorted (fun a b => leb a b = true) (insert_sorted x l).
Proof.
  induction 1 as [|y l Hl IH Hy]; simpl; [repeat constructor|].
  destruct (leb x y) eqn:Hxy.
  - constructor; [by constructor|]. constructor; [done|].
    eapply Forall_impl; [|exact Hy]. simpl. eauto.
  - constructor; [done|]. rewrite insert_sorted_perm. constructor; [|done].
    destruct (leb_total x y); congruence.
Qed.

Lemma sort_by_sorted l : StronglySorted (fun a b => leb a b = true) (sort_by l).
Proof. induction l; simpl; [constructor | by apply insert_sorted_sorted]. Qed.
End sort_by.

(** [Vec::dedup]: consecutive equal elements collapse to one. *)
Fixpoint dedup `{EqDecision A} (l : list A) : list A :=
  match l with
  | [] => []
  | x :: l' =>
      match l' with
      | [] => [x]
      | y :: _ => if decide (x = y) then dedup l' else x :: dedup l'
      end
  end.

Lemma elem_of_dedup `{EqDecision A} (l : list A) x : x ∈ dedup l <-> x ∈ l.
Proof.
  induction l as [|y l IH]; [done|].
  destruct l as [|z l]; [done|].
  change (dedup (y :: z :: l)) with
    (if decide (y = z) then dedup (z :: l) else y :: dedup (z :: l)).
  case_decide; subst; rewrite ?elem_of_cons, ?IH, ?elem_of_cons; tauto.
Qed.
