(* ===== verification/RustStr.v ===== *)
(** Rust's [str], as the gateway uses it: a [string] is the list of the UTF-8
    bytes of the text, so [String.length] is [str::len] and a predicate that
    holds of ASCII characters only is a predicate on bytes.  Splitting,
    trimming, searching, number parsing and printing follow the standard
    library. *)

From S2P Require Import Prelude.

(** The characters a Rocq string literal writes awkwardly. *)
Definition DQ : string := String "034"%char EmptyString.
Definition NL : string := String "010"%char EmptyString.

(** ** ASCII classes *)

Definition in_range (lo hi : N) (c : ascii) : bool :=
  (lo <=? N_of_ascii c)%N && (N_of_ascii c <=? hi)%N.

Definition is_ascii_digit : ascii -> bool := in_range 48 57.
Definition is_ascii_uppercase : ascii -> bool := in_range 65 90.
Definition is_ascii_lowercase : ascii -> bool := in_range 97 122.
Definition is_ascii_alphabetic (c : ascii) : bool :=
  is_ascii_uppercase c || is_ascii_lowercase c.
Definition is_ascii_alphanumeric (c : ascii) : bool :=
  is_ascii_alphabetic c || is_ascii_digit c.
Definition is_ascii_hexdigit (c : ascii) : bool :=
  is_ascii_digit c || in_range 65 70 c || in_range 97 102 c.

Definition ascii_lower (c : ascii) : ascii :=
  if is_ascii_uppercase c then ascii_of_N (N_of_ascii c + 32) else c.
Definition ascii_upper (c : ascii) : ascii :=
  if is_ascii_lowercase c then ascii_of_N (N_of_ascii c - 32) else c.

Definition chars (s : string) : list ascii := String.list_ascii_of_string s.
Definition of_chars (l : list ascii) : string := String.string_of_list_ascii l.

Definition str_forallb (p : ascii -> bool) (s : string) : bool := forallb p (chars s).
Definition str_existsb (p : ascii -> bool) (s : string) : bool := existsb p (chars s).
Definition str_filter (p : ascii -> bool) (s : string) : string :=
  of_chars (List.filter p (chars s)).
Definition str_take (n : nat) (s : string) : string := of_chars (firstn n (chars s)).
Definition is_empty (s : string) : bool := String.eqb s "".

Fixpoint str_map (f : ascii -> ascii) (s : string) : string :=
  match s with
  | EmptyString => EmptyString
  | String c s' => String (f c) (str_map f s')
  end.

Definition to_ascii_lowercase : string -> string := str_map ascii_lower.
Definition to_ascii_uppercase : string -> string := str_map ascii_upper.
Definition eq_ignore_ascii_case (a b : string) : bool :=
  String.eqb (to_ascii_lowercase a) (to_ascii_lowercase b).

(** ** Prefixes, suffixes, substrings *)

Definition starts_with (s p : string) : bool := String.prefix p s.
Definition ends_with (s p : string) : bool := String.prefix (String.rev p) (String.rev s).

Fixpoint str_contains (s sub : string) : bool :=
  starts_with s sub ||
  match s with
  | EmptyString => false
  | String _ s' => str_contains s' sub
  end.

Definition contains_char (s : string) (c : ascii) : bool := str_existsb (Ascii.eqb c) s.

Definition drop_str (n : nat) (s : string) : string := of_chars (skipn n (chars s)).

Definition strip_prefix (s p : string) : option string :=
  if starts_with s p then Some (drop_str (String.length p) s) else None.

Definition strip_suffix (s p : string) : option string :=
  if ends_with s p then Some (str_take (String.length s - String.length p) s) else None.

(** ** Splitting *)

Fixpoint split_char (c : ascii) (s : string) : list string :=
  match s with
  | EmptyString => [EmptyString]
  | String a s' =>
      if Ascii.eqb a c then EmptyString :: split_char c s'
      else match split_char c s' with
           | [] => [String a EmptyString]
           | h :: t => String a h :: t
           end
  end.

Fixpoint split_once (c : ascii) (s : string) : option (string * string) :=
  match s with
  | EmptyString => None
  | String a s' =>
      if Ascii.eqb a c then Some (EmptyString, s')
      else match split_once c s' with
           | Some (l, r) => Some (String a l, r)
           | None => None
           end
  end.

Fixpoint rsplit_once (c : ascii) (s : string) : option (string * string) :=
  match s with
  | EmptyString => None
  | String a s' =>
      match rsplit_once c s' with
      | Some (l, r) => Some (String a l, r)
      | None => if Ascii.eqb a c then Some (EmptyString, s') else None
      end
  end.

(** [str::lines]: a line ends at ['\n'] or ["\r\n"]; the text after the last
    ['\n'] is a line unless it is empty. *)
Definition strip_cr (s : string) : string := default s (strip_suffix s (String "013"%char EmptyString)).

Fixpoint lines_of (pieces : list string) : list string :=
  match pieces with
  | [] => []
  | [last] => if is_empty last then [] else [last]
  | l :: rest => strip_cr l :: lines_of rest
  end.

Definition lines (s : string) : list string := lines_of (split_char "010" s).

(** ** Trimming: [str::trim] removes the characters with the Unicode
    [White_Space] property from both ends. *)

Definition ws1 (a : N) : bool := ((9 <=? a) && (a <=? 13) || (a =? 32))%N.
Definition ws2 (a b : N) : bool := ((a =? 194) && ((b =? 133) || (b =? 160)))%N.
Definition ws3 (a b c : N) : bool :=
  ((a =? 225) && (b =? 154) && (c =? 128)
   || (a =? 226) && (b =? 128)
      && ((128 <=? c) && (c <=? 138) || (c =? 168) || (c =? 169) || (c =? 175))
   || (a =? 226) && (b =? 129) && (c =? 159)
   || (a =? 227) && (b =? 128) && (c =? 128))%N.

Definition ws_prefix (s : string) : option string :=
  match s with
  | EmptyString => None
  | String a s1 =>
      if ws1 (N_of_ascii a) then Some s1 else
      match s1 with
      | EmptyString => None
      | String b s2 =>
          if ws2 (N_of_ascii a) (N_of_ascii b) then Some s2 else
          match s2 with
          | EmptyString => None
          | String c s3 =>
              if ws3 (N_of_ascii a) (N_of_ascii b) (N_of_ascii c) then Some s3 else None
          end
      end
  end.

(** The same on the reversed bytes. *)
Definition ws_suffix (s : string) : option string :=
  match s with
  | EmptyString => None
  | String a s1 =>
      if ws1 (N_of_ascii a) then Some s1 else
      match s1 with
      | EmptyString => None
      | String b s2 =>
          if ws2 (N_of_ascii b) (N_of_ascii a) then Some s2 else
          match s2 with
          | EmptyString => None
          | String c s3 =>
              if ws3 (N_of_ascii c) (N_of_ascii b) (N_of_ascii a) then Some s3 else None
          end
      end
  end.

Fixpoint strip_while (fuel : nat) (f : string -> option string) (s : string) : string :=
  match fuel with
  | O => s
  | S fuel => match f s with Some s' => strip_while fuel f s' | None => s end
  end.

Definition trim_start (s : string) : string := strip_while (String.length s) ws_prefix s.
Definition trim_end (s : string) : string :=
  String.rev (strip_while (String.length s) ws_suffix (String.rev s)).
Definition trim (s : string) : string := trim_end (trim_start s).

(** [str::split_whitespace]: the non-empty pieces between white space. *)
Fixpoint words_from (fuel : nat) (word s : string) : list string :=
  let flush := if is_empty word then [] else [word] in
  match fuel with
  | O => flush
  | S fuel =>
      match ws_prefix s with
      | Some rest => flush ++ words_from fuel "" rest
      | None =>
          match s with
          | EmptyString => flush
          | String c rest => words_from fuel (word +:+ String c "") rest
          end
      end
  end.

Definition split_whitespace (s : string) : list string := words_from (S (String.length s)) "" s.

(** [str::trim_start_matches(c)] and [str::trim_matches([c, ..])] *)
Definition strip_class (p : ascii -> bool) (s : string) : option string :=
  match s with
  | String a s' => if p a then Some s' else None
  | EmptyString => None
  end.
Definition trim_start_matches (p : ascii -> bool) (s : string) : string :=
  strip_while (String.length s) (strip_class p) s.
Definition trim_matches (p : ascii -> bool) (s : string) : string :=
  String.rev (trim_start_matches p (String.rev (trim_start_matches p s))).

Definition join (sep : string) (l : list string) : string := String.concat sep l.
Definition concat_str (l : list string) : string := String.concat "" l.

(** ** Numbers *)

Definition digit_val (c : ascii) : option N :=
  if is_ascii_digit c then Some (N_of_ascii c - 48)%N else None.

Definition hex_val (c : ascii) : option N :=
  if is_ascii_digit c then Some (N_of_ascii c - 48)%N
  else if in_range 97 102 c then Some (N_of_ascii c - 87)%N
  else if in_range 65 70 c then Some (N_of_ascii c - 55)%N
  else None.

Fixpoint parse_digits (max acc : N) (s : string) : option N :=
  match s with
  | EmptyString => Some acc
  | String c s' =>
      match digit_val c with
      | Some d =>
          let acc' := (acc * 10 + d)%N in
          if (acc' <=? max)%N then parse_digits max acc' s' else None
      | None => None
      end
  end.

(** [str::parse::<uN>()]: one leading ['+'] is accepted, overflow and any other
    character are errors. *)
Definition parse_uint (max : N) (s : string) : option N :=
  match s with
  | EmptyString => None
  | String c s' =>
      if Ascii.eqb c "+" then
        match s' with EmptyString => None | _ => parse_digits max 0 s' end
      else parse_digits max 0 s
  end.

Definition parse_u8 : string -> option N := parse_uint 255.
Definition parse_u16 : string -> option N := parse_uint u16_MAX.
Definition parse_u32 : string -> option N := parse_uint u32_MAX.
Definition parse_u64 : string -> option N := parse_uint u64_MAX.

Definition show_N (n : N) : string := pretty n.
Definition show_nat (n : nat) : string := pretty n.

Definition hex_digit (n : N) : ascii :=
  if (n <? 10)%N then ascii_of_N (48 + n) else ascii_of_N (87 + n).

(** [format!("{b:02x}")] of a byte. *)
Definition hex02 (n : N) : string :=
  String (hex_digit (n / 16)) (String (hex_digit (n mod 16)) EmptyString).

(** ** [str::from_utf8]: the well-formed sequences of the Unicode standard *)

Definition utf8_cont : ascii -> bool := in_range 128 191.

Fixpoint utf8_valid_bytes (fuel : nat) (s : list ascii) : bool :=
  match fuel, s with
  | _, [] => true
  | O, _ => false
  | S fuel, a :: s =>
      if in_range 0 127 a then utf8_valid_bytes fuel s
      else if in_range 194 223 a then
        match s with b :: s => utf8_cont b && utf8_valid_bytes fuel s | _ => false end
      else if in_range 224 239 a then
        match s with
        | b :: c :: s =>
            (if (N_of_ascii a =? 224)%N then in_range 160 191 b
             else if (N_of_ascii a =? 237)%N then in_range 128 159 b
             else utf8_cont b)
            && utf8_cont c && utf8_valid_bytes fuel s
        | _ => false
        end
      else if in_range 240 244 a then
        match s with
        | b :: c :: d :: s =>
            (if (N_of_ascii a =? 240)%N then in_range 144 191 b
             else if (N_of_ascii a =? 244)%N then in_range 128 143 b
             else utf8_cont b)
            && utf8_cont c && utf8_cont d && utf8_valid_bytes fuel s
        | _ => false
        end
      else false
  end.

Definition utf8_valid (s : string) : bool := utf8_valid_bytes (String.length s) (chars s).

(** [str::find(sub)], as the text before and after the first occurrence. *)
Fixpoint split_at_sub (sub s : string) : option (string * string) :=
  if starts_with s sub then Some ("", drop_str (String.length sub) s)
  else match s with
       | EmptyString => None
       | String c s' =>
           match split_at_sub sub s' with
           | Some (l, r) => Some (String c l, r)
           | None => None
           end
       end.

(** [replacen(from, to, 1)] *)
Definition replace_first (s from to : string) : string :=
  match split_at_sub from s with Some (l, r) => l +:+ to +:+ r | None => s end.

(** ** Lemmas on strings *)

Lemma str_app_nil_l s : "" +:+ s = s.
Proof. done. Qed.
Lemma str_app_cons c s t : String c s +:+ t = String c (s +:+ t).
Proof. done. Qed.
Lemma str_app_nil_r s : s +:+ "" = s.
Proof. induction s as [|c s IH]; [done|]. by rewrite str_app_cons, IH. Qed.
Lemma str_app_assoc s t u : (s +:+ t) +:+ u = s +:+ (t +:+ u).
Proof. induction s as [|c s IH]; [done|]. by rewrite !str_app_cons, IH. Qed.
#[export] Hint Rewrite str_app_nil_l str_app_nil_r str_app_assoc str_app_cons : egressy_rw.

Lemma chars_app s t : chars (s +:+ t) = chars s ++ chars t.
Proof. induction s as [|c s IH]; [done|]. exact (f_equal (cons c) IH). Qed.

Lemma str_length_app s t : String.length (s +:+ t) = (String.length s + String.length t)%nat.
Proof. induction s as [|c s IH]; [done|]. rewrite str_app_cons; cbn. by rewrite IH. Qed.

Lemma str_forallb_app p s t : str_forallb p (s +:+ t) = str_forallb p s && str_forallb p t.
Proof. unfold str_forallb. by rewrite chars_app, forallb_app. Qed.

Lemma str_forallb_cons p c s : str_forallb p (String c s) = p c && str_forallb p s.
Proof. done. Qed.

Lemma str_forallb_impl (p q : ascii -> bool) s :
  (forall c, p c = true -> q c = true) -> str_forallb p s = true -> str_forallb q s = true.
Proof. unfold str_forallb. rewrite !forallb_forall. eauto. Qed.

Lemma starts_with_app s t : starts_with (s +:+ t) s = true.
Proof.
  induction s as [|c s IH]; [by destruct t|].
  rewrite str_app_cons. unfold starts_with in *. cbn.
  by destruct (ascii_dec c c).
Qed.

Lemma starts_with_true s p : starts_with s p = true <-> exists t, s = p +:+ t.
Proof.
  unfold starts_with. split.
  - revert s; induction p as [|c p IH]; intros s Hs; [by exists s|].
    destruct s as [|a s]; [done|]. cbn in Hs.
    destruct (ascii_dec c a) as [->|]; [|done].
    destruct (IH _ Hs) as [t ->]. exists t. by rewrite str_app_cons.
  - intros [t ->]. apply starts_with_app.
Qed.

Lemma str_contains_true s sub :
  str_contains s sub = true <-> exists pre post, s = pre +:+ sub +:+ post.
Proof.
  split.
  - induction s as [|c s IH]; intros Hs; cbn [str_contains] in Hs; apply orb_true_iff in Hs.
    + destruct Hs as [Hs|?]; [|done]. apply starts_with_true in Hs as [t Ht].
      by exists "", t.
    + destruct Hs as [Hs|Hs].
      * apply starts_with_true in Hs as [t ->]. by exists "", t.
      * destruct (IH Hs) as (pre & post & ->). by exists (String c pre), post.
  - intros (pre & post & ->). induction pre as [|c pre IH].
    + rewrite str_app_nil_l.
      destruct (sub +:+ post) eqn:E; cbn [str_contains];
        rewrite <- E, starts_with_app; done.
    + rewrite str_app_cons. cbn [str_contains]. by rewrite IH, orb_true_r.
Qed.

(** [lacks c s]: the text [s] has no character [c]. *)
Definition lacks (c : ascii) (s : string) : bool :=
  str_forallb (fun a => negb (Ascii.eqb a c)) s.

Lemma lacks_app c s t : lacks c (s +:+ t) = lacks c s && lacks c t.
Proof. apply str_forallb_app. Qed.
#[export] Hint Rewrite lacks_app : egressy_rw.

Lemma lacks_cons c a s : lacks c (String a s) = true <-> a <> c /\ lacks c s = true.
Proof.
  unfold lacks. rewrite str_forallb_cons, andb_true_iff, negb_true_iff.
  by rewrite Ascii.eqb_neq.
Qed.

Lemma split_char_nonempty c s : exists h t, split_char c s = h :: t.
Proof.
  destruct s as [|a s]; cbn; [eauto|].
  destruct (Ascii.eqb a c); [eauto|]. destruct (split_char c s); eauto.
Qed.

Lemma split_char_lacks c s : lacks c s = true -> split_char c s = [s].
Proof.
  induction s as [|a s IH]; [done|]. rewrite lacks_cons. intros [Ha Hs].
  cbn. by rewrite (proj2 (Ascii.eqb_neq _ _) Ha), (IH Hs).
Qed.

Lemma split_char_app c s t :
  lacks c s = true -> split_char c (s +:+ String c t) = s :: split_char c t.
Proof.
  induction s as [|a s IH].
  - intros _. rewrite str_app_nil_l. cbn. by rewrite Ascii.eqb_refl.
  - rewrite lacks_cons. intros [Ha Hs]. rewrite str_app_cons. cbn.
    by rewrite (proj2 (Ascii.eqb_neq _ _) Ha), (IH Hs).
Qed.

Lemma split_char_join c l :
  l <> [] -> Forall (fun s => lacks c s = true) l ->
  split_char c (join (String c "") l) = l.
Proof.
  intros Hne Hl. induction Hl as [|s l Hs Hl IH]; [done|].
  destruct l as [|s' l]; [by apply split_char_lacks|].
  change (join (String c "") (s :: s' :: l)) with
    (s +:+ String c (join (String c "") (s' :: l))).
  by rewrite split_char_app, IH.
Qed.

(** A delimited piece that occurs in a text is one of the pieces it splits into. *)
Lemma split_char_delimited c pre m post :
  lacks c m = true ->
  m ∈ tail (split_char c (pre +:+ String c (m +:+ String c post))).
Proof.
  intros Hm. induction pre as [|a pre IH].
  - rewrite str_app_nil_l. cbn. rewrite Ascii.eqb_refl. cbn.
    rewrite split_char_app by done. set_solver.
  - rewrite str_app_cons. cbn.
    destruct (split_char_nonempty c (pre +:+ String c (m +:+ String c post))) as (h & t & E).
    rewrite E in *. destruct (Ascii.eqb a c); cbn in *; set_solver.
Qed.

Lemma split_once_app c s t : lacks c s = true -> split_once c (s +:+ String c t) = Some (s, t).
Proof.
  induction s as [|a s IH].
  - intros _. rewrite str_app_nil_l. cbn. by rewrite Ascii.eqb_refl.
  - rewrite lacks_cons. intros [Ha Hs]. rewrite str_app_cons. cbn.
    by rewrite (proj2 (Ascii.eqb_neq _ _) Ha), (IH Hs).
Qed.

Lemma split_once_Some c s l r :
  split_once c s = Some (l, r) <-> lacks c l = true /\ s = l +:+ String c r.
Proof.
  split.
  - revert l; induction s as [|a s IH]; intros l; cbn; [done|].
    destruct (Ascii.eqb a c) eqn:E.
    + apply Ascii.eqb_eq in E as ->. by intros [= <- <-].
    + apply Ascii.eqb_neq in E. destruct (split_once c s) as [[l' r']|]; [|done].
      intros [= <- <-]. destruct (IH l' eq_refl) as [Hl ->].
      by rewrite lacks_cons, str_app_cons.
  - intros [Hl ->]. by apply split_once_app.
Qed.

Lemma join_cons sep s l : l <> [] -> join sep (s :: l) = s +:+ sep +:+ join sep l.
Proof. by destruct l. Qed.

Lemma join_app sep l k :
  l <> [] -> k <> [] -> join sep (l ++ k) = join sep l +:+ sep +:+ join sep k.
Proof.
  intros Hl Hk. induction l as [|s l IH]; [done|].
  destruct l as [|s' l]; [by apply join_cons|].
  cbn [app]. rewrite join_cons by done. cbn [app] in IH. rewrite IH by done.
  rewrite (join_cons _ s) by done. by autorewrite with egressy_rw.
Qed.
