(* ===== verification/Net.v ===== *)
(** [std::net] addresses, and the interface of the [ipnet] crate.

    An [Ipv4Addr] is its 32-bit value and an [Ipv6Addr] its 128-bit value, so
    the derived orders of Rust are the orders on [N].  Parsing and printing
    follow [core::net::parser] and the [Display] implementations.  The networks
    of the [ipnet] crate are not code of the repository: [IpNetCrate] states
    what the gateway uses of them, and [CidrNet] is a concrete implementation
    on which the theorems are instantiated. *)

From S2P Require Import Prelude RustStr.

Notation Ipv4Addr := N (only parsing).
Notation Ipv6Addr := N (only parsing).

Inductive IpAddr : Type :=
| IpAddr_V4 (address : Ipv4Addr)
| IpAddr_V6 (address : Ipv6Addr).

#[export] Instance IpAddr_eq_dec : EqDecision IpAddr.
Proof. solve_decision. Defined.
#[export] Instance IpAddr_countable : Countable IpAddr.
Proof.
  refine (inj_countable'
    (fun a => match a with IpAddr_V4 n => inl n | IpAddr_V6 n => inr n end)
    (fun s => match s with inl n => IpAddr_V4 n | inr n => IpAddr_V6 n end) _).
  by intros [].
Defined.

Definition ip_is_ipv6 (a : IpAddr) : bool :=
  match a with IpAddr_V4 _ => false | IpAddr_V6 _ => true end.

Inductive SocketAddr : Type :=
| SocketAddr_V4 (ip : Ipv4Addr) (port : N)
| SocketAddr_V6 (ip : Ipv6Addr) (port scope_id : N).

#[export] Instance SocketAddr_eq_dec : EqDecision SocketAddr.
Proof. solve_decision. Defined.
#[export] Instance SocketAddr_countable : Countable SocketAddr.
Proof.
  refine (inj_countable'
    (fun a => match a with SocketAddr_V4 i p => inl (i, p) | SocketAddr_V6 i p s => inr (i, p, s) end)
    (fun s => match s with inl (i, p) => SocketAddr_V4 i p | inr (i, p, s) => SocketAddr_V6 i p s end) _).
  by intros [].
Defined.

Definition socket_ip (a : SocketAddr) : IpAddr :=
  match a with SocketAddr_V4 i _ => IpAddr_V4 i | SocketAddr_V6 i _ _ => IpAddr_V6 i end.
Definition socket_port (a : SocketAddr) : N :=
  match a with SocketAddr_V4 _ p => p | SocketAddr_V6 _ p _ => p end.

(** ** [core::net::parser] *)

Definition parser (A : Type) : Type := list ascii -> option (A * list ascii).

Definition given_char (c : ascii) : parser unit := fun s =>
  match s with
  | a :: s' => if Ascii.eqb a c then Some (tt, s') else None
  | [] => None
  end.

Fixpoint read_digits (digit : ascii -> option N) (radix : N) (budget : nat)
    (acc : N) (count : nat) (s : list ascii) : option (N * nat * list ascii) :=
  match s with
  | [] => Some (acc, count, [])
  | c :: s' =>
      match digit c with
      | None => Some (acc, count, s)
      | Some d =>
          match budget with
          | O => None
          | S budget => read_digits digit radix budget (acc * radix + d)%N (S count) s'
          end
      end
  end.

(** [read_number(radix, max_digits, allow_zero_prefix)] into an integer type of
    maximum [max]; without a digit limit the budget is the input's length. *)
Definition read_number (digit : ascii -> option N) (radix max : N)
    (max_digits : option nat) (allow_zero_prefix : bool) : parser N := fun s =>
  let has_leading_zero := match s with c :: _ => Ascii.eqb c "0" | [] => false end in
  match read_digits digit radix (default (length s) max_digits) 0 0 s with
  | None => None
  | Some (n, count, s') =>
      if (count =? 0)%nat then None
      else if negb allow_zero_prefix && has_leading_zero && (1 <? count)%nat then None
      else if (n <=? max)%N then Some (n, s') else None
  end.

Definition read_ipv4_addr : parser Ipv4Addr := fun s =>
  let octet := read_number digit_val 10 255 (Some 3) false in
  '(a, s) ← octet s; '(_, s) ← given_char "." s;
  '(b, s) ← octet s; '(_, s) ← given_char "." s;
  '(c, s) ← octet s; '(_, s) ← given_char "." s;
  '(d, s) ← octet s;
  Some ((((a * 256 + b) * 256 + c) * 256 + d)%N, s).

Definition read_separator {A} (i : nat) (p : parser A) : parser A := fun s =>
  if (i =? 0)%nat then p s else '(_, s) ← given_char ":" s; p s.

(** [read_groups(p, groups)] with [remaining] slots left, the first of index
    [i]: the groups read, and whether an embedded IPv4 address ended them. *)
Fixpoint read_groups (remaining i : nat) (s : list ascii) : list N * bool * list ascii :=
  match remaining with
  | O => ([], false, s)
  | S remaining =>
      let ipv4 :=
        if (0 <? remaining)%nat then read_separator i read_ipv4_addr s else None in
      match ipv4 with
      | Some (a, s') => ([a / 65536; a mod 65536]%N, true, s')
      | None =>
          match read_separator i (read_number hex_val 16 u16_MAX (Some 4) true) s with
          | Some (g, s') =>
              let '(gs, v4, s'') := read_groups remaining (S i) s' in (g :: gs, v4, s'')
          | None => ([], false, s)
          end
      end
  end.

Definition groups_value (gs : list N) : N := foldl (fun acc g => acc * 65536 + g)%N 0%N gs.

Definition read_ipv6_addr : parser Ipv6Addr := fun s =>
  let '(head, head_ipv4, s) := read_groups 8 0 s in
  if (length head =? 8)%nat then Some (groups_value head, s)
  else if head_ipv4 then None
  else
    '(_, s) ← given_char ":" s; '(_, s) ← given_char ":" s;
    let '(tail, _, s) := read_groups (8 - (length head + 1)) 0 s in
    Some (groups_value (head ++ replicate (8 - length head - length tail) 0%N ++ tail), s).

Definition read_port : parser N := fun s =>
  '(_, s) ← given_char ":" s; read_number digit_val 10 u16_MAX None true s.

Definition read_socket_addr_v4 : parser SocketAddr := fun s =>
  '(ip, s) ← read_ipv4_addr s; '(port, s) ← read_port s; Some (SocketAddr_V4 ip port, s).

Definition read_scope_id : parser N := fun s =>
  '(_, s) ← given_char "%" s; read_number digit_val 10 u32_MAX None true s.

Definition read_socket_addr_v6 : parser SocketAddr := fun s =>
  '(_, s) ← given_char "[" s;
  '(ip, s) ← read_ipv6_addr s;
  let '(scope, s) := default (0%N, s) (read_scope_id s) in
  '(_, s) ← given_char "]" s;
  '(port, s) ← read_port s;
  Some (SocketAddr_V6 ip port scope, s).

(** [parse_with]: the whole input must be consumed. *)
Definition parse_with {A} (p : parser A) (s : string) : option A :=
  match p (chars s) with Some (a, []) => Some a | _ => None end.

Definition parse_ipv4 (s : string) : option Ipv4Addr :=
  if (15 <? String.length s)%nat then None else parse_with read_ipv4_addr s.
Definition parse_ipv6 : string -> option Ipv6Addr := parse_with read_ipv6_addr.
Definition parse_ip (s : string) : option IpAddr :=
  match parse_with read_ipv4_addr s with
  | Some a => Some (IpAddr_V4 a)
  | None => IpAddr_V6 <$> parse_ipv6 s
  end.
Definition parse_socket (s : string) : option SocketAddr :=
  match parse_with read_socket_addr_v4 s with
  | Some a => Some a
  | None => parse_with read_socket_addr_v6 s
  end.

(** ** [Display] *)

Definition show_ipv4 (a : Ipv4Addr) : string :=
  join "." [show_N (a / 16777216); show_N (a / 65536 mod 256);
            show_N (a / 256 mod 256); show_N (a mod 256)].

(** [format!("{segment:x}")] *)
Definition show_hex16 (g : N) : string :=
  let d i := String (hex_digit (g / 16 ^ i mod 16)) EmptyString in
  if (g <? 16)%N then d 0%N
  else if (g <? 256)%N then d 1%N +:+ d 0%N
  else if (g <? 4096)%N then d 2%N +:+ d 1%N +:+ d 0%N
  else d 3%N +:+ d 2%N +:+ d 1%N +:+ d 0%N.

Definition ipv6_segments (a : Ipv6Addr) : list N :=
  (fun i => a / 65536 ^ N.of_nat (7 - i) mod 65536)%N <$> seq 0 8.

(** The longest run of zero segments, the first of equals: (start, length). *)
Fixpoint longest_zeroes (i : nat) (gs : list N) (longest current : nat * nat) : nat * nat :=
  match gs with
  | [] => longest
  | g :: gs =>
      if (g =? 0)%N then
        let start := if (current.2 =? 0)%nat then i else current.1 in
        let current := (start, S current.2) in
        let longest := if (longest.2 <? current.2)%nat then current else longest in
        longest_zeroes (S i) gs longest current
      else longest_zeroes (S i) gs longest (0, 0)%nat
  end.

Definition show_ipv6 (a : Ipv6Addr) : string :=
  if (a / 4294967296 =? 65535)%N then "::ffff:" +:+ show_ipv4 (a mod 4294967296)
  else
    let gs := ipv6_segments a in
    let '(start, len) := longest_zeroes 0 gs (0, 0)%nat (0, 0)%nat in
    let fmt l := join ":" (show_hex16 <$> l) in
    if (1 <? len)%nat
    then fmt (take start gs) +:+ "::" +:+ fmt (drop (start + len) gs)
    else fmt gs.

Definition show_ip (a : IpAddr) : string :=
  match a with IpAddr_V4 n => show_ipv4 n | IpAddr_V6 n => show_ipv6 n end.

Definition UNSPECIFIED : Ipv4Addr := 0%N.

(** ** The [ipnet] crate *)

Class IpNetCrate : Type := {
  Ipv4Net : Type;
  Ipv6Net : Type;
  Ipv4Net_eq_dec :: EqDecision Ipv4Net;
  Ipv6Net_eq_dec :: EqDecision Ipv6Net;
  ipv4net_parse : string -> option Ipv4Net;
  ipv4net_show : Ipv4Net -> string;
  ipv4net_contains : Ipv4Net -> Ipv4Addr -> bool;
  ipv4net_addr : Ipv4Net -> Ipv4Addr;
  ipv4net_network : Ipv4Net -> Ipv4Addr;
  ipv4net_broadcast : Ipv4Net -> Ipv4Addr;
  ipv4net_prefix_len : Ipv4Net -> N;
  (** [hosts().next()] *)
  ipv4net_first_host : Ipv4Net -> option Ipv4Addr;
  ipv6net_parse : string -> option Ipv6Net;
  ipv6net_show : Ipv6Net -> string;
  ipv6net_contains : Ipv6Net -> Ipv6Addr -> bool;
  ipv6net_network : Ipv6Net -> Ipv6Addr;
  ipv6net_prefix_len : Ipv6Net -> N;
  (** the enum [IpNet] of the two families *)
  IpNet : Type;
  IpNet_eq_dec :: EqDecision IpNet;
  ipnet_parse : string -> option IpNet;
  ipnet_show : IpNet -> string;
  (** the pattern [IpNet::V4(network)] *)
  ipnet_v4 : IpNet -> option Ipv4Net;
  (** [network.addr().is_ipv6()] *)
  ipnet_is_ipv6 : IpNet -> bool;
  ipnet_prefix_len : IpNet -> N;
}.

(** ** A concrete instance: an address and a prefix length. *)

Module CidrNet.
Record Cidr : Type := { cidr_addr : N; cidr_len : N }.

#[export] Instance Cidr_eq_dec : EqDecision Cidr.
Proof. solve_decision. Defined.

Section width.
Context (width : N) (read : string -> option N) (show : N -> string).

Definition parse (s : string) : option Cidr :=
  '(a, l) ← split_once "/" s;
  addr ← read a;
  len ← parse_u8 l;
  if (len <=? width)%N then Some {| cidr_addr := addr; cidr_len := len |} else None.
Definition render (c : Cidr) : string :=
  show c.(cidr_addr) +:+ "/" +:+ show_N c.(cidr_len).
Definition block (c : Cidr) : N := 2 ^ (width - c.(cidr_len)).
Definition network (c : Cidr) : N := c.(cidr_addr) / block c * block c.
Definition broadcast (c : Cidr) : N := network c + block c - 1.
Definition contains (c : Cidr) (a : N) : bool :=
  (network c <=? a)%N && (a <=? broadcast c)%N.
Definition first_host (c : Cidr) : option N :=
  Some (if (width - 1 <=? c.(cidr_len))%N then network c else network c + 1)%N.
End width.

Definition crate : IpNetCrate := {|
  Ipv4Net := Cidr; Ipv6Net := Cidr;
  ipv4net_parse := parse 32 parse_ipv4; ipv4net_show := render show_ipv4;
  ipv4net_contains := contains 32; ipv4net_addr := cidr_addr;
  ipv4net_network := network 32;
  ipv4net_broadcast := broadcast 32; ipv4net_prefix_len := cidr_len;
  ipv4net_first_host := first_host 32;
  ipv6net_parse := parse 128 parse_ipv6; ipv6net_show := render show_ipv6;
  ipv6net_contains := contains 128; ipv6net_network := network 128;
  ipv6net_prefix_len := cidr_len;
  IpNet := Cidr + Cidr;
  ipnet_parse s :=
    match parse 32 parse_ipv4 s with
    | Some n => Some (inl n)
    | None => inr <$> parse 128 parse_ipv6 s
    end;
  ipnet_show n :=
    match n with inl n => render show_ipv4 n | inr n => render show_ipv6 n end;
  ipnet_v4 n := match n with inl n => Some n | inr _ => None end;
  ipnet_is_ipv6 n := match n with inl _ => false | inr _ => true end;
  ipnet_prefix_len n := match n with inl n | inr n => cidr_len n end;
|}.
End CidrNet.
