(* ===== verification/StrFacts.v ===== *)
(** Facts about Rust's [str] functions that the components share: reversal,
    trimming, lines, and printing and parsing of numbers. *)

From S2P Require Import Prelude RustStr.

(** ** Reversal *)

Lemma chars_rev_app s t : chars (String.rev_app s t) = rev (chars s) ++ chars t.
Proof.
  revert t. induction s as [|c s IH]; intros t; [done|]. cbn. fold (chars (String.rev_app s (String c t))).
  rewrite IH. cbn. by rewrite <- app_assoc.
Qed.

Lemma chars_rev s : chars (String.rev s) = rev (chars s).
Proof. unfold String.rev. by rewrite chars_rev_app, app_nil_r. Qed.

Lemma chars_inj s t : chars s = chars t -> s = t.
Proof.
  intros H. rewrite <- (String.string_of_list_ascii_of_string s), <- (String.string_of_list_ascii_of_string t).
  f_equal. exact H.
Qed.

Lemma str_rev_involutive s : String.rev (String.rev s) = s.
Proof. apply chars_inj. by rewrite !chars_rev, rev_involutive. Qed.

Lemma str_rev_app s t : String.rev (s +:+ t) = String.rev t +:+ String.rev s.
Proof. apply chars_inj. by rewrite chars_app, !chars_rev, chars_app, rev_app_distr. Qed.

Lemma str_length_chars s : String.length s = length (chars s).
Proof. induction s as [|c s IH]; [done|]. cbn. by rewrite IH. Qed.

Lemma str_length_rev s : String.length (String.rev s) = String.length s.
Proof. by rewrite !str_length_chars, chars_rev, length_rev. Qed.

Lemma str_forallb_rev p s : str_forallb p (String.rev s) = str_forallb p s.
Proof.
  unfold str_forallb. rewrite chars_rev. apply eq_true_iff_eq. rewrite !forallb_forall.
  by setoid_rewrite <- in_rev.
Qed.

(** ** Trimming *)

Lemma ws_prefix_shorter s s' : ws_prefix s = Some s' -> exists x, s = x +:+ s' /\ x <> "".
Proof.
  unfold ws_prefix. destruct s as [|a s1]; [done|]. destruct (ws1 _).
  { intros [= ->]. by exists (String a ""). }
  destruct s1 as [|b s2]; [done|]. destruct (ws2 _ _).
  { intros [= ->]. by exists (String a (String b "")). }
  destruct s2 as [|c s3]; [done|]. destruct (ws3 _ _ _); [|done].
  intros [= ->]. by exists (String a (String b (String c ""))).
Qed.

Lemma ws_suffix_shorter s s' : ws_suffix s = Some s' -> exists x, s = x +:+ s' /\ x <> "".
Proof.
  unfold ws_suffix. destruct s as [|a s1]; [done|]. destruct (ws1 _).
  { intros [= ->]. by exists (String a ""). }
  destruct s1 as [|b s2]; [done|]. destruct (ws2 _ _).
  { intros [= ->]. by exists (String a (String b "")). }
  destruct s2 as [|c s3]; [done|]. destruct (ws3 _ _ _); [|done].
  intros [= ->]. by exists (String a (String b (String c ""))).
Qed.

Lemma strip_while_spec f n s :
  (forall s s', f s = Some s' -> exists x, s = x +:+ s' /\ x <> "") ->
  (String.length s <= n)%nat ->
  (exists x, s = x +:+ strip_while n f s) /\ f (strip_while n f s) = None.
Proof.
  intros Hf. revert s. induction n as [|n IH]; intros s Hs.
  - destruct s; [|cbn in Hs; lia]. split; [by exists ""|]. destruct (f "") as [s'|] eqn:E; [|done].
    by destruct (Hf _ _ E) as ([] & H & ?).
  - cbn. destruct (f s) as [s'|] eqn:E; [|split; [by exists ""|done]].
    destruct (Hf _ _ E) as (x & -> & Hx). destruct (IH s') as [(y & Hy) Hn].
    { rewrite str_length_app in Hs. destruct x; [done|]. cbn in Hs. lia. }
    split; [|done]. exists (x +:+ y). by rewrite str_app_assoc, <- Hy.
Qed.

Lemma strip_while_None n f s : f s = None -> strip_while n f s = s.
Proof. destruct n; cbn; [done|]. by intros ->. Qed.

(** No whitespace at either end. *)
Definition trimmed (s : string) : Prop := ws_prefix s = None /\ ws_suffix (String.rev s) = None.

Lemma trim_id s : trimmed s -> trim s = s.
Proof.
  intros [Hp Hs]. unfold trim, trim_start, trim_end. rewrite (strip_while_None _ _ s Hp).
  rewrite strip_while_None by done. apply str_rev_involutive.
Qed.

Lemma ws_prefix_app_None s t : ws_prefix (s +:+ t) = None -> ws_prefix s = None.
Proof.
  destruct s as [|a [|b [|c s]]]; rewrite ?str_app_cons; cbn -[ws1 ws2 ws3 N_of_ascii]; [done|..].
  all: destruct (ws1 _); [done|].
  - done.
  - destruct (ws2 _ _); done.
  - destruct (ws2 _ _); [done|]. by destruct (ws3 _ _ _).
Qed.

Lemma trim_spec s : (exists a b, s = a +:+ trim s +:+ b) /\ trimmed (trim s).
Proof.
  unfold trim, trim_end, trim_start.
  destruct (strip_while_spec ws_prefix (String.length s) s ws_prefix_shorter ltac:(done)) as [(a & Ha) Hp].
  set (u := strip_while _ _ s) in *.
  destruct (strip_while_spec ws_suffix (String.length u) (String.rev u) ws_suffix_shorter)
    as [(b & Hb) Hs]; [by rewrite str_length_rev|].
  set (v := strip_while _ _ (String.rev u)) in *.
  assert (u = String.rev v +:+ String.rev b) as Hu.
  { by rewrite <- str_rev_app, <- Hb, str_rev_involutive. }
  split; [exists a, (String.rev b); by rewrite <- Hu|].
  split; [|by rewrite str_rev_involutive].
  apply (ws_prefix_app_None _ (String.rev b)). by rewrite <- Hu.
Qed.

Lemma trim_trimmed s : trimmed (trim s).
Proof. apply trim_spec. Qed.

Lemma trim_trim s : trim (trim s) = trim s.
Proof. apply trim_id, trim_trimmed. Qed.

Lemma str_forallb_trim p s : str_forallb p s = true -> str_forallb p (trim s) = true.
Proof.
  destruct (trim_spec s) as [(a & b & H) _]. rewrite H at 1. rewrite !str_forallb_app.
  rewrite !andb_true_iff. tauto.
Qed.

Lemma lacks_trim c s : lacks c s = true -> lacks c (trim s) = true.
Proof. apply str_forallb_trim. Qed.

(** A leading blank goes. *)
Lemma trim_space s : trim (String " " s) = trim s.
Proof.
  unfold trim, trim_start. by f_equal.
Qed.

(** Visible ASCII characters are no whitespace. *)
Definition visible (c : ascii) : bool := in_range 33 126 c.

Lemma visible_not_ws1 c : visible c = true -> ws1 (N_of_ascii c) = false.
Proof. unfold visible, ws1, in_range. intros H. simplify_bools. apply not_true_iff_false. intros H'.
  apply orb_true_iff in H' as [H'|H']; simplify_bools; lia. Qed.

Lemma visible_ws_prefix c s : visible c = true -> ws_prefix (String c s) = None.
Proof.
  intros Hv. cbn. rewrite visible_not_ws1 by done. unfold visible, in_range in Hv. simplify_bools.
  destruct s as [|b s]; [done|]. unfold ws2. rewrite (proj2 (N.eqb_neq _ _)) by lia. cbn.
  destruct s as [|d s]; [done|]. unfold ws3.
  rewrite !(proj2 (N.eqb_neq (N_of_ascii c) _)) by lia. done.
Qed.

Lemma visible_ws_suffix c s : visible c = true -> ws_suffix (String c s) = None.
Proof.
  intros Hv. cbn. rewrite visible_not_ws1 by done. unfold visible, in_range in Hv. simplify_bools.
  destruct s as [|b s]; [done|]. unfold ws2.
  rewrite (proj2 (N.eqb_neq (N_of_ascii c) 133)), (proj2 (N.eqb_neq (N_of_ascii c) 160)) by lia.
  rewrite andb_false_r. destruct s as [|d s]; [done|]. unfold ws3.
  rewrite !(proj2 (N.eqb_neq (N_of_ascii c) _)) by lia.
  assert ((128 <=? N_of_ascii c)%N = false) as -> by (apply N.leb_gt; lia). cbn.
  by rewrite !andb_false_r.
Qed.

Lemma visible_trimmed s : str_forallb visible s = true -> trimmed s.
Proof.
  intros H. split.
  - destruct s as [|c s]; [done|]. apply andb_true_iff in H as [H _].
    by apply visible_ws_prefix.
  - rewrite <- str_forallb_rev in H. destruct (String.rev s) as [|c t]; [done|].
    apply andb_true_iff in H as [H _]. by apply visible_ws_suffix.
Qed.

Lemma str_forallb_lacks p c s :
  p c = false -> str_forallb p s = true -> lacks c s = true.
Proof.
  intros Hc. apply str_forallb_impl. intros a Ha. apply negb_true_iff, Ascii.eqb_neq. congruence.
Qed.

(** ** Pieces and lines *)

Lemma split_once_lacks d c s l r :
  split_once c s = Some (l, r) -> lacks d s = true -> lacks d l = true /\ lacks d r = true.
Proof.
  intros [_ ->]%split_once_Some. rewrite lacks_app, andb_true_iff, lacks_cons. tauto.
Qed.

Lemma split_char_pieces d c s x : x ∈ split_char c s -> lacks d s = true -> lacks d x = true.
Proof.
  revert x. induction s as [|a s IH]; intros x; cbn [split_char].
  - by intros ->%list_elem_of_singleton.
  - destruct (split_char_nonempty c s) as (h & t & E). rewrite E in *.
    rewrite lacks_cons. destruct (Ascii.eqb a c); rewrite !elem_of_cons.
    + intros [->|Hx] [Ha Hs]; [done|]. apply IH; [set_solver|done].
    + intros [->|Hx] [Ha Hs]; [apply lacks_cons; split; [done|]|]; apply IH; set_solver.
Qed.

Lemma split_char_pieces_lack c s x : x ∈ split_char c s -> lacks c x = true.
Proof.
  revert x. induction s as [|a s IH]; intros x; cbn [split_char].
  - by intros ->%list_elem_of_singleton.
  - destruct (split_char_nonempty c s) as (h & t & E). rewrite E in *.
    destruct (Ascii.eqb a c) eqn:Ha; rewrite !elem_of_cons.
    + intros [->|Hx]; [done|]. apply IH. set_solver.
    + apply Ascii.eqb_neq in Ha. intros [->|Hx]; [|apply IH; set_solver].
      apply lacks_cons. split; [done|]. apply IH. set_solver.
Qed.

Lemma str_take_prefix n s : exists t, s = str_take n s +:+ t.
Proof.
  exists (drop_str n s). apply chars_inj. rewrite chars_app. unfold str_take, drop_str, chars, of_chars.
  rewrite !String.list_ascii_of_string_of_list_ascii. symmetry. apply firstn_skipn.
Qed.

Lemma lacks_strip_cr c s : lacks c s = true -> lacks c (strip_cr s) = true.
Proof.
  unfold strip_cr, strip_suffix. case_match; [|done]. cbn.
  destruct (str_take_prefix (String.length s - 1) s) as [t Ht]. rewrite Ht at 1.
  rewrite lacks_app, andb_true_iff. tauto.
Qed.

Lemma lines_lack_NL s x : x ∈ lines s -> lacks "010" x = true.
Proof.
  unfold lines. assert (forall y, y ∈ split_char "010" s -> lacks "010" y = true) as H
    by apply split_char_pieces_lack.
  induction (split_char "010" s) as [|y [|z l] IH]; cbn; [set_solver| |].
  - case_match; [set_solver|]. intros ->%list_elem_of_singleton. apply H. set_solver.
  - cbn in IH. rewrite elem_of_cons. intros [->|Hx]; [apply lacks_strip_cr, H; set_solver|].
    apply IH; [|done]. set_solver.
Qed.

(** A line that the renderers write: no line feed in it, no carriage return at
    its end. *)
Definition line_ok (s : string) : Prop := lacks "010" s = true /\ strip_cr s = s.

Definition unlines (l : list string) : string := concat_str ((fun s => s +:+ NL) <$> l).

Lemma concat_str_cons x l : concat_str (x :: l) = x +:+ concat_str l.
Proof. destruct l; [cbn; by rewrite str_app_nil_r|done]. Qed.

Lemma concat_str_app l k : concat_str (l ++ k) = concat_str l +:+ concat_str k.
Proof.
  induction l as [|x l IH]; [done|]. cbn [app]. by rewrite !concat_str_cons, IH, str_app_assoc.
Qed.

Lemma unlines_cons s l : unlines (s :: l) = s +:+ NL +:+ unlines l.
Proof. unfold unlines. by rewrite fmap_cons, concat_str_cons, str_app_assoc. Qed.

Lemma unlines_app l k : unlines (l ++ k) = unlines l +:+ unlines k.
Proof. unfold unlines. by rewrite fmap_app, concat_str_app. Qed.

Lemma lines_unlines l : Forall line_ok l -> lines (unlines l) = l.
Proof.
  unfold lines. induction 1 as [|s l [Hs Hcr] Hl IH]; [done|].
  rewrite unlines_cons. unfold NL. rewrite str_app_cons, str_app_nil_l, split_char_app by done.
  destruct (split_char_nonempty "010" (unlines l)) as (h & t & E). rewrite E in *.
  change (lines_of (s :: h :: t)) with (strip_cr s :: lines_of (h :: t)). by rewrite IH, Hcr.
Qed.

Lemma starts_with_char c p s : starts_with (String c s) (String p "") = Ascii.eqb p c.
Proof.
  unfold starts_with. cbn. destruct (ascii_dec p c) as [->|H]; [rewrite Ascii.eqb_refl; by destruct s|].
  symmetry. by apply Ascii.eqb_neq.
Qed.

Lemma strip_cr_rev s : (match String.rev s with String c _ => Ascii.eqb "013" c | _ => false end) = false ->
  strip_cr s = s.
Proof.
  unfold strip_cr, strip_suffix, ends_with. change (String.rev (String "013" "")) with (String "013" "").
  destruct (String.rev s) as [|c t]; [done|]. fold (starts_with (String c t) (String "013" "")).
  rewrite starts_with_char. by intros ->.
Qed.

Lemma trimmed_strip_cr s : trimmed s -> strip_cr s = s.
Proof.
  intros [_ Hs]. apply strip_cr_rev. destruct (String.rev s) as [|c t]; [done|].
  destruct (Ascii.eqb_spec "013" c) as [<-|]; [done|done].
Qed.

(** ** Bytes in hexadecimal *)

Definition bytes256 : list N := N.of_nat <$> seq 0 256.

Lemma elem_of_bytes256 n : (n < 256)%N -> n ∈ bytes256.
Proof.
  intros Hn. unfold bytes256. apply list_elem_of_fmap. exists (N.to_nat n).
  rewrite N2Nat.id, elem_of_seq. split; [done|]. lia.
Qed.

Lemma hex02_digits n :
  (n < 256)%N -> str_forallb is_ascii_hexdigit (hex02 n) = true /\ String.length (hex02 n) = 2%nat.
Proof.
  intros Hn%elem_of_bytes256.
  assert (forallb (fun n => str_forallb is_ascii_hexdigit (hex02 n)
    && (String.length (hex02 n) =? 2)%nat) bytes256 = true) as Hall by (vm_compute; reflexivity).
  rewrite forallb_elem in Hall. specialize (Hall n Hn). by simplify_bools.
Qed.

Lemma hex_string_digits l :
  Forall (fun n => n < 256)%N l ->
  str_forallb is_ascii_hexdigit (concat_str (hex02 <$> l)) = true /\
  String.length (concat_str (hex02 <$> l)) = (2 * length l)%nat.
Proof.
  induction 1 as [|n l Hn Hl [IH1 IH2]]; [done|]. rewrite fmap_cons, concat_str_cons.
  destruct (hex02_digits n Hn) as [H1 H2].
  rewrite str_forallb_app, str_length_app, H1, IH1, IH2, H2. split; [done|]. cbn. lia.
Qed.

(** ** Numbers *)

Lemma pretty_N_char_digit n : (n < 10)%N -> digit_val (pretty_N_char n) = Some n.
Proof.
  intros Hn. assert (n ∈ N.of_nat <$> seq 0 10) as H.
  { apply list_elem_of_fmap. exists (N.to_nat n). rewrite N2Nat.id, elem_of_seq. split; [done|lia]. }
  assert (forallb (fun n => bool_decide (digit_val (pretty_N_char n) = Some n)) (N.of_nat <$> seq 0 10)
    = true) as Hall by (vm_compute; reflexivity).
  rewrite forallb_elem in Hall. specialize (Hall n H). by simplify_bools.
Qed.

Lemma parse_digits_pretty max x s :
  (0 < x)%N ->
  parse_digits max 0 (pretty_N_go x s) = if (x <=? max)%N then parse_digits max x s else None.
Proof.
  revert s. induction (N.lt_wf_0 x) as [x _ IH]. intros s Hx.
  rewrite pretty_N_go_step by done.
  assert (x mod 10 < 10)%N as Hd by (apply N.mod_lt; lia).
  pose proof (N.div_mod x 10 ltac:(lia)) as Hdm.
  destruct (decide (x < 10)%N) as [Hlt|Hge].
  - rewrite N.div_small by done. rewrite pretty_N_go_0. cbn [parse_digits].
    rewrite pretty_N_char_digit by done. rewrite N.mod_small by done. by rewrite N.add_0_l.
  - assert (0 < x / 10)%N by (apply N.div_str_pos; lia).
    rewrite IH by (try apply N.div_lt; lia). cbn [parse_digits].
    rewrite pretty_N_char_digit by done.
    replace (x / 10 * 10 + x mod 10)%N with x by lia.
    destruct (N.leb_spec (x / 10) max), (N.leb_spec x max); try done. exfalso. clear IH. generalize dependent (x `div` 10)%N. generalize (x `mod` 10)%N. intros. lia.
Qed.

Lemma digits_pretty x s :
  str_forallb is_ascii_digit s = true -> str_forallb is_ascii_digit (pretty_N_go x s) = true.
Proof.
  revert s. induction (N.lt_wf_0 x) as [x _ IH]. intros s Hs.
  destruct (decide (x = 0)%N) as [->|]; [by rewrite pretty_N_go_0|].
  rewrite pretty_N_go_step by lia. apply IH; [apply N.div_lt; lia|].
  rewrite str_forallb_cons, Hs, andb_true_r.
  assert (x mod 10 < 10)%N as Hd%pretty_N_char_digit by (apply N.mod_lt; lia).
  unfold digit_val in Hd. by destruct (is_ascii_digit _).
Qed.

Lemma show_N_digits n : str_forallb is_ascii_digit (show_N n) = true.
Proof.
  unfold show_N, pretty, pretty_N. case_decide; [done|]. by apply digits_pretty.
Qed.

Lemma pretty_N_go_empty x s : pretty_N_go x s = "" -> s = "".
Proof.
  revert s. induction (N.lt_wf_0 x) as [x _ IH]. intros s.
  destruct (decide (x = 0)%N) as [->|]; [by rewrite pretty_N_go_0|].
  rewrite pretty_N_go_step by lia. intros E. by apply IH in E; [|apply N.div_lt; lia].
Qed.

Lemma show_N_nonempty n : show_N n <> "".
Proof.
  unfold show_N, pretty, pretty_N. case_decide; [done|].
  rewrite pretty_N_go_step by lia. intros E. by apply pretty_N_go_empty in E.
Qed.

Lemma parse_uint_show max n : (n <= max)%N -> parse_uint max (show_N n) = Some n.
Proof.
  intros Hn. pose proof (show_N_digits n) as Hd. pose proof (show_N_nonempty n) as Hne.
  unfold parse_uint. destruct (show_N n) as [|c s] eqn:E; [done|].
  rewrite str_forallb_cons, andb_true_iff in Hd. destruct Hd as [Hc _].
  destruct (Ascii.eqb_spec c "+") as [->|_]; [done|]. rewrite <- E.
  unfold show_N, pretty, pretty_N. case_decide as H0; [subst; cbn; by destruct max|].
  rewrite parse_digits_pretty by lia. cbn. by rewrite (proj2 (N.leb_le _ _) Hn).
Qed.

Lemma parse_digits_bound max acc s n :
  (acc <= max)%N -> parse_digits max acc s = Some n -> (n <= max)%N.
Proof.
  revert acc. induction s as [|c s IH]; intros acc Ha; cbn; [by intros [= <-]|].
  destruct (digit_val c); [|done]. destruct (N.leb_spec (acc * 10 + n0) max); [|done]. eauto.
Qed.

Lemma parse_uint_bound max s n : parse_uint max s = Some n -> (n <= max)%N.
Proof.
  unfold parse_uint. destruct s as [|c s]; [done|]. destruct (Ascii.eqb c "+").
  - destruct s; [done|]. apply parse_digits_bound. lia.
  - apply parse_digits_bound. lia.
Qed.

Lemma digit_visible c : is_ascii_digit c = true -> visible c = true.
Proof.
  unfold is_ascii_digit, visible, in_range. intros H. simplify_bools. rewrite andb_true_iff, !N.leb_le. lia.
Qed.
#[export] Hint Resolve show_N_digits show_N_nonempty digit_visible trim_trimmed : egressy.

(** ** Suffixes of one character *)

Lemma ends_with_char c s :
  ends_with s (String c "") = true <-> exists t, s = t +:+ String c "".
Proof.
  unfold ends_with. change (String.rev (String c "")) with (String c "").
  rewrite (starts_with_true (String.rev s) (String c "")). split.
  - intros (t & Ht). exists (String.rev t). rewrite <- (str_rev_involutive s), Ht.
    by rewrite str_rev_app.
  - intros (t & ->). exists (String.rev t). by rewrite str_rev_app.
Qed.

Lemma str_take_app s t : str_take (String.length s) (s +:+ t) = s.
Proof.
  unfold str_take. rewrite chars_app, str_length_chars, take_app_length.
  apply String.string_of_list_ascii_of_string.
Qed.

Lemma strip_suffix_char c s : strip_suffix (s +:+ String c "") (String c "") = Some s.
Proof.
  unfold strip_suffix. rewrite (proj2 (ends_with_char c _)) by eauto.
  rewrite str_length_app. replace (_ - _)%nat with (String.length s) by (simpl; lia).
  by rewrite str_take_app.
Qed.

Lemma strip_suffix_lacks c s : lacks c s = true -> strip_suffix s (String c "") = None.
Proof.
  intros Hl. unfold strip_suffix. destruct (ends_with s (String c "")) eqn:E; [|done].
  apply ends_with_char in E as (t & ->). rewrite lacks_app in Hl. apply andb_true_iff in Hl as [_ Hl].
  unfold lacks, str_forallb in Hl. cbn in Hl. by rewrite Ascii.eqb_refl in Hl.
Qed.
