(* ===== verification/NetFacts.v ===== *)
(** Addresses as text: what [Display] writes, [FromStr] reads back; and the
    documented behaviour of the [ipnet] crate that the rendered rules rely on. *)

From S2P Require Import Prelude RustStr StrFacts Net.

(** ** Digits *)

(** The text is over, or goes on with something that is not a digit. *)
Definition stops (digit : ascii -> option N) (s : list ascii) : Prop :=
  match s with [] => True | c :: _ => digit c = None end.

Fixpoint digits_value (digit : ascii -> option N) (radix acc : N) (s : list ascii) : option N :=
  match s with
  | [] => Some acc
  | c :: s => d ← digit c; digits_value digit radix (acc * radix + d)%N s
  end.

Lemma read_digits_app digit radix budget acc n ds rest v :
  digits_value digit radix acc ds = Some v -> (length ds <= budget)%nat -> stops digit rest ->
  read_digits digit radix budget acc n (ds ++ rest) = Some (v, (n + length ds)%nat, rest).
Proof.
  revert budget acc n; induction ds as [|c ds IH]; intros budget acc n Hv Hlen Hstop; cbn in *.
  - injection Hv as ->. rewrite Nat.add_0_r.
    destruct budget, rest as [|c rest]; cbn in *; try done; by rewrite Hstop.
  - apply bind_Some in Hv as (d & Hd & Hv).
    destruct budget as [|budget]; [lia|]. cbn. rewrite Hd.
    rewrite (IH budget _ (S n) Hv) by (done || lia). f_equal. f_equal. f_equal. lia.
Qed.

Definition octet : parser N := read_number digit_val 10 255 (Some 3) false.

Definition octet_text_ok (n : N) : bool :=
  let s := chars (show_N n) in
  bool_decide (digits_value digit_val 10 0 s = Some n) && (length s <=? 3)%nat
  && negb (length s =? 0)%nat
  && negb (match s with c :: _ => Ascii.eqb c "0" | [] => false end && (1 <? length s)%nat).

Lemma octet_texts n : (n < 256)%N -> octet_text_ok n = true.
Proof.
  intros Hn%elem_of_bytes256. assert (forallb octet_text_ok bytes256 = true) as Hall
    by (vm_compute; reflexivity).
  rewrite forallb_elem in Hall. by apply Hall.
Qed.

Lemma octet_show n rest :
  (n < 256)%N -> stops digit_val rest -> octet (chars (show_N n) ++ rest) = Some (n, rest).
Proof.
  intros Hn Hstop. pose proof (octet_texts n Hn) as Hok. unfold octet_text_ok in Hok. cbn zeta in Hok.
  simplify_bools. unfold octet, read_number. cbn [default].
  erewrite read_digits_app by eassumption. cbn [Nat.add].
  destruct (chars (show_N n)) as [|c s] eqn:Hs; [done|]. cbn [app].
  replace (length (c :: s) =? 0)%nat with false by done.
  cbn [negb andb]. replace (Ascii.eqb c "0" && (1 <? length (c :: s))%nat) with false.
  by rewrite (proj2 (N.leb_le n 255)) by lia.
Qed.

Lemma octet_length n : (n < 256)%N -> (String.length (show_N n) <= 3)%nat.
Proof.
  intros Hn. pose proof (octet_texts n Hn) as Hok. unfold octet_text_ok in Hok. cbn zeta in Hok.
  simplify_bools. by rewrite str_length_chars.
Qed.

(** ** IPv4 *)

Definition octets (a : Ipv4Addr) : list N :=
  [a / 16777216; a / 65536 mod 256; a / 256 mod 256; a mod 256]%N.

Lemma octets_bound a : (a < 2 ^ 32)%N -> Forall (fun o => o < 256)%N (octets a).
Proof.
  intros Ha. unfold octets. repeat constructor; try (by apply N.mod_lt).
  apply N.Div0.div_lt_upper_bound. lia.
Qed.

Lemma octets_value a :
  (((a / 16777216 * 256 + a / 65536 mod 256) * 256 + a / 256 mod 256) * 256 + a mod 256 = a)%N.
Proof.
  pose proof (N.Div0.div_mod a 256). pose proof (N.Div0.div_mod (a / 256) 256).
  pose proof (N.Div0.div_mod (a / 65536) 256).
  rewrite !N.Div0.div_div in *. change (256 * 256)%N with 65536%N in *.
  change (65536 * 256)%N with 16777216%N in *. lia.
Qed.

Lemma parse_show_ipv4 a : (a < 2 ^ 32)%N -> parse_ipv4 (show_ipv4 a) = Some a.
Proof.
  intros Ha. pose proof (octets_bound a Ha) as Hb. unfold octets in Hb.
  inversion_clear Hb as [|? ? H1 Hb1]. inversion_clear Hb1 as [|? ? H2 Hb2].
  inversion_clear Hb2 as [|? ? H3 Hb3]. inversion_clear Hb3 as [|? ? H4 _].
  pose proof (octets_value a) as Hval. unfold parse_ipv4, show_ipv4.
  revert H1 H2 H3 H4 Hval. generalize (a / 16777216)%N, (a / 65536 mod 256)%N, (a / 256 mod 256)%N, (a mod 256)%N.
  intros o1 o2 o3 o4 H1 H2 H3 H4 Hval. cbn [join String.concat].
  assert (String.length (show_N o1 +:+ "." +:+ show_N o2 +:+ "." +:+ show_N o3 +:+ "." +:+ show_N o4) <= 15)%nat
    as Hlen.
  { pose proof (octet_length o1 H1). pose proof (octet_length o2 H2).
    pose proof (octet_length o3 H3). pose proof (octet_length o4 H4).
    rewrite !str_length_app. cbn [String.length]. lia. }
  rewrite (proj2 (Nat.ltb_ge _ _) Hlen). unfold parse_with, read_ipv4_addr. fold octet.
  rewrite !chars_app. change (chars ".") with ["."%char]. cbn [app].
  rewrite octet_show by done. cbn [mbind option_bind given_char]. rewrite Ascii.eqb_refl. cbn [mbind option_bind].
  rewrite octet_show by done. cbn [mbind option_bind given_char]. rewrite Ascii.eqb_refl. cbn [mbind option_bind].
  rewrite octet_show by done. cbn [mbind option_bind given_char]. rewrite Ascii.eqb_refl. cbn [mbind option_bind].
  rewrite <- (app_nil_r (chars (show_N o4))), octet_show by done. cbn [mbind option_bind].
  by rewrite Hval.
Qed.

Definition ip_char (c : ascii) : bool := is_ascii_hexdigit c || existsb (Ascii.eqb c) ["."; ":"]%char.

Lemma show_N_forallb p n :
  (forall c, is_ascii_digit c = true -> p c = true) -> str_forallb p (show_N n) = true.
Proof. intros Hp. eapply str_forallb_impl; [exact Hp|apply show_N_digits]. Qed.

Lemma show_ipv4_chars p a :
  (forall c, is_ascii_digit c = true -> p c = true) -> p "."%char = true ->
  str_forallb p (show_ipv4 a) = true.
Proof.
  intros Hp Hdot. unfold show_ipv4. cbn [join String.concat].
  rewrite !str_forallb_app, !(show_N_forallb p) by done.
  change (str_forallb p ".") with (p "."%char && true). by rewrite Hdot.
Qed.

(** Its four numbers can be read back. *)
Lemma show_ipv4_inj a b : show_ipv4 a = show_ipv4 b -> a = b.
Proof.
  intros Heq. apply (f_equal (split_char ".")) in Heq. unfold show_ipv4 in Heq.
  assert (Hlack : forall n, lacks "." (show_N n) = true).
  { intros n. by apply (str_forallb_lacks is_ascii_digit), show_N_digits. }
  rewrite !split_char_join in Heq by (done || by rewrite !list.Forall_cons).
  injection Heq as H1%(inj pretty) H2%(inj pretty) H3%(inj pretty) H4%(inj pretty).
  rewrite <- (octets_value a), <- (octets_value b). by rewrite H1, H2, H3, H4.
Qed.

Lemma show_ipv4_nonempty a : show_ipv4 a <> "".
Proof.
  unfold show_ipv4. cbn [join String.concat]. destruct (show_N _) eqn:E; [|done].
  by apply show_N_nonempty in E.
Qed.

Lemma show_hex16_chars g : str_forallb is_ascii_hexdigit (show_hex16 g) = true.
Proof.
  assert (forall n, is_ascii_hexdigit (hex_digit (n mod 16)%N) = true) as Hd.
  { intros n. assert ((n mod 16)%N ∈ bytes256) as Hn.
    { apply elem_of_bytes256. pose proof (N.mod_lt n 16 ltac:(done)). lia. }
    assert (forallb (fun d => implb (d <? 16)%N (is_ascii_hexdigit (hex_digit d))) bytes256 = true) as Hall
      by (vm_compute; reflexivity).
    rewrite forallb_elem in Hall. specialize (Hall _ Hn).
    by rewrite (proj2 (N.ltb_lt _ _) (N.mod_lt n 16 ltac:(done))) in Hall. }
  unfold show_hex16. repeat case_match; rewrite ?str_forallb_app; cbn [str_forallb chars]; unfold str_forallb;
    cbn [chars String.list_ascii_of_string forallb]; by rewrite !Hd.
Qed.

Lemma join_forallb p sep l :
  str_forallb p sep = true -> Forall (fun s => str_forallb p s = true) l ->
  str_forallb p (join sep l) = true.
Proof.
  intros Hsep. induction 1 as [|s l Hs Hl IH]; [done|].
  destruct l as [|s' l]; [done|]. rewrite join_cons by done.
  by rewrite !str_forallb_app, Hs, Hsep, IH.
Qed.

Lemma show_ipv6_chars p a :
  (forall c, is_ascii_hexdigit c = true -> p c = true) -> p ":"%char = true -> p "."%char = true ->
  str_forallb p (show_ipv6 a) = true.
Proof.
  intros Hp Hcolon Hdot. unfold show_ipv6.
  assert (forall c, is_ascii_digit c = true -> p c = true) as Hdig.
  { intros c Hc. apply Hp. unfold is_ascii_hexdigit. by rewrite Hc. }
  assert (str_forallb p "::" = true) as Hcc by (cbn; by rewrite Hcolon).
  assert (str_forallb p ":" = true) as Hc1 by (cbn; by rewrite Hcolon).
  assert (forall l, str_forallb p (join ":" (show_hex16 <$> l)) = true) as Hj.
  { intros l. apply join_forallb; [done|]. apply Forall_fmap, Forall_true. intros g.
    eapply str_forallb_impl; [exact Hp|apply show_hex16_chars]. }
  case_match.
  - rewrite str_forallb_app, show_ipv4_chars by done.
    assert (p "f"%char = true) as Hf by by apply Hp. cbn. by rewrite Hcolon, Hf.
  - destruct (longest_zeroes _ _ _ _) as [start len]. case_match; [|apply Hj].
    by rewrite !str_forallb_app, Hcc, !Hj.
Qed.

(** ** The [ipnet] crate, as documented: a network is displayed as an address,
    a slash and the length of the prefix, and is read from no text without a
    slash. *)
Class IpNetText `{IpNetCrate} : Prop := {
  ipv4net_show_text : forall n,
    ipv4net_show n = show_ipv4 (ipv4net_addr n) +:+ "/" +:+ show_N (ipv4net_prefix_len n);
  ipv6net_show_text : forall n,
    exists a, ipv6net_show n = show_ipv6 a +:+ "/" +:+ show_N (ipv6net_prefix_len n);
  ipv4net_parse_slash : forall s n, ipv4net_parse s = Some n -> lacks "/" s = false;
  ipv6net_parse_slash : forall s n, ipv6net_parse s = Some n -> lacks "/" s = false;
}.

Lemma cidr_parse_slash width read s c :
  CidrNet.parse width read s = Some c -> lacks "/" s = false.
Proof.
  unfold CidrNet.parse. destruct (split_once "/" s) as [[l r]|] eqn:Hs; [|done]. intros _.
  apply split_once_Some in Hs as [_ ->]. rewrite lacks_app.
  assert (lacks "/" (String "/" r) = false) as -> by done. apply andb_false_r.
Qed.

#[export] Instance cidr_text : @IpNetText CidrNet.crate.
Proof.
  split.
  - done.
  - intros n. by exists (CidrNet.cidr_addr n).
  - intros s n. exact (cidr_parse_slash 32 parse_ipv4 s n).
  - intros s n. exact (cidr_parse_slash 128 parse_ipv6 s n).
Qed.
