(* ===== verification/HostPolicy.v ===== *)
(** The host-side egress policy (src/src/host_policy.rs): the [HostPolicy]
    document, the [ip] and [nft] input rendered from it, and the comparison of
    an observed host with it. *)

From S2P Require Import Prelude RustStr Net.

Definition HOST_POLICY_TABLE : string := "egressy_host".
Definition RULE_PRIORITY : N := 100.
Definition SCHEMA_VERSION : N := 1.
Definition IPV6_SCHEMA_VERSION : N := 2.
Definition UNREACHABLE_METRIC : N := u32_MAX.
Definition IPV6_UNREACHABLE_METRIC : N := UNREACHABLE_METRIC.
Definition IPV6_KILL_SWITCH_COMMENT : string := "egressy-ipv6-kill-switch".

Record HostPolicyIpv6 : Type := {
  hp6_subnet : string;
  hp6_gateway_ip : string;
}.

Record HostPolicy : Type := {
  hp_schema_version : N;
  hp_generated_at_unix_ms : N;
  hp_subnet : string;
  hp_bridge : string;
  hp_gateway_ip : string;
  hp_route_table : N;
  hp_rule_priority : N;
  hp_ipv6 : option HostPolicyIpv6;
}.

#[export] Instance HostPolicyIpv6_eq_dec : EqDecision HostPolicyIpv6.
Proof. solve_decision. Defined.
#[export] Instance HostPolicy_eq_dec : EqDecision HostPolicy.
Proof. solve_decision. Defined.

Definition new (generated_at : N) (subnet bridge gateway_ip : string) (route_table : N)
    : HostPolicy :=
  {| hp_schema_version := SCHEMA_VERSION;
     hp_generated_at_unix_ms := generated_at;
     hp_subnet := subnet;
     hp_bridge := bridge;
     hp_gateway_ip := gateway_ip;
     hp_route_table := route_table;
     hp_rule_priority := RULE_PRIORITY;
     hp_ipv6 := None |}.

Definition with_ipv6 (p : HostPolicy) (subnet gateway_ip : string) : HostPolicy :=
  {| hp_schema_version := IPV6_SCHEMA_VERSION;
     hp_generated_at_unix_ms := p.(hp_generated_at_unix_ms);
     hp_subnet := p.(hp_subnet);
     hp_bridge := p.(hp_bridge);
     hp_gateway_ip := p.(hp_gateway_ip);
     hp_route_table := p.(hp_route_table);
     hp_rule_priority := p.(hp_rule_priority);
     hp_ipv6 := Some {| hp6_subnet := subnet; hp6_gateway_ip := gateway_ip |} |}.

(** ** Arguments of [ip] *)

Definition rule_add_args (p : HostPolicy) : list string :=
  ["rule"; "add"; "priority"; show_N p.(hp_rule_priority);
   "from"; p.(hp_subnet); "lookup"; show_N p.(hp_route_table)].

Definition route_replace_args (p : HostPolicy) : list (list string) :=
  [ ["route"; "replace"; "table"; show_N p.(hp_route_table);
     "unreachable"; "default"; "metric"; show_N UNREACHABLE_METRIC];
    ["route"; "replace"; "table"; show_N p.(hp_route_table);
     p.(hp_subnet); "dev"; p.(hp_bridge); "scope"; "link"];
    ["route"; "replace"; "table"; show_N p.(hp_route_table);
     "default"; "via"; p.(hp_gateway_ip); "dev"; p.(hp_bridge); "onlink"] ].

Definition ipv6_rule_add_args (p : HostPolicy) : option (list string) :=
  ipv6 ← p.(hp_ipv6);
  Some ["-6"; "rule"; "add"; "priority"; show_N p.(hp_rule_priority);
        "from"; ipv6.(hp6_subnet); "lookup"; show_N p.(hp_route_table)].

Definition ipv6_route_replace_args (p : HostPolicy) : list (list string) :=
  match p.(hp_ipv6) with
  | None => []
  | Some ipv6 =>
      let table := show_N p.(hp_route_table) in
      let route tail := ["-6"; "route"; "replace"; "table"; table] ++ tail in
      [ route ["unreachable"; "default"; "metric"; show_N IPV6_UNREACHABLE_METRIC];
        route [ipv6.(hp6_subnet); "dev"; p.(hp_bridge)];
        route ["default"; "via"; ipv6.(hp6_gateway_ip); "dev"; p.(hp_bridge); "onlink"] ]
  end.

(** ** The fail-closed nftables table *)

Definition ipv6_kill_switch_marker (p : HostPolicy) : string :=
  let scope := match p.(hp_ipv6) with None => "disabled" | Some ipv6 => ipv6.(hp6_subnet) end in
  IPV6_KILL_SWITCH_COMMENT +:+ ":" +:+ scope.

Definition quoted (s : string) : string := DQ +:+ s +:+ DQ.

Definition render_nft (p : HostPolicy) : string :=
  let bridge := quoted p.(hp_bridge) in
  let routed_source :=
    match p.(hp_ipv6) with
    | None => ""
    | Some ipv6 =>
        "    ip6 saddr " +:+ ipv6.(hp6_subnet) +:+ " oifname != " +:+ bridge
        +:+ " counter reject with icmpv6 type admin-prohibited" +:+ NL
    end in
  "table inet " +:+ HOST_POLICY_TABLE +:+ " {" +:+ NL
  +:+ "  chain forward {" +:+ NL
  +:+ "    type filter hook forward priority -5; policy accept;" +:+ NL
  +:+ "    ip saddr " +:+ p.(hp_subnet) +:+ " oifname != " +:+ bridge
  +:+ " counter reject with icmp type admin-prohibited" +:+ NL
  +:+ routed_source
  +:+ "    meta nfproto ipv6 iifname " +:+ bridge +:+ " oifname != " +:+ bridge
  +:+ " counter reject with icmpv6 type admin-prohibited comment "
  +:+ quoted (ipv6_kill_switch_marker p) +:+ NL
  +:+ "    meta nfproto ipv6 iifname != " +:+ bridge +:+ " oifname " +:+ bridge
  +:+ " counter drop" +:+ NL
  +:+ "  }" +:+ NL +:+ "}" +:+ NL.

Definition nft_table_is_current (p : HostPolicy) (listing : string) : bool :=
  str_contains listing (quoted (ipv6_kill_switch_marker p)).

(** ** Observed state *)

Record IpRuleEntry : Type := {
  rule_priority : option N;
  rule_src : option string;
  rule_srclen : option N;
  rule_table : option string;
}.

Record IpRouteEntry : Type := {
  route_dst : option string;
  route_dev : option string;
  route_gateway : option string;
  route_scope : option string;
  route_type : option string;
}.

Record HostPolicyDrift : Type := {
  rule_missing : bool;
  subnet_route_missing : bool;
  default_route_missing : bool;
  nft_table_missing : bool;
  nft_table_stale : bool;
  ipv6_rule_missing : bool;
  ipv6_routes_missing : bool;
}.

#[export] Instance HostPolicyDrift_eq_dec : EqDecision HostPolicyDrift.
Proof. solve_decision. Defined.

Definition drift_default : HostPolicyDrift :=
  {| rule_missing := false; subnet_route_missing := false; default_route_missing := false;
     nft_table_missing := false; nft_table_stale := false;
     ipv6_rule_missing := false; ipv6_routes_missing := false |}.

Definition is_clean (d : HostPolicyDrift) : bool := bool_decide (d = drift_default).

Definition missing (d : HostPolicyDrift) : list string :=
  let push (b : bool) (s : string) := if b then [s] else [] in
  push d.(rule_missing) "policy routing rule"
  ++ push d.(subnet_route_missing) "subnet route"
  ++ push d.(default_route_missing) "tunnel default route"
  ++ push d.(nft_table_missing) "fail-closed nftables table"
  ++ push d.(nft_table_stale) "current IPv6 kill switch"
  ++ push d.(ipv6_rule_missing) "IPv6 policy routing rule"
  ++ push d.(ipv6_routes_missing) "IPv6 policy routes".

Definition split_prefix (prefix : string) : option (string * N) :=
  '(address, length) ← split_once "/" prefix;
  len ← parse_u8 length;
  Some (address, len).

Definition same_ipv6 (observed : option string) (expected : string) : bool :=
  let parsed := observed ≫= parse_ipv6 in
  bool_decide (is_Some parsed) && bool_decide (parsed = parse_ipv6 expected).

Definition rule_present (rules : list IpRuleEntry) (p : HostPolicy) : bool :=
  match split_prefix p.(hp_subnet) with
  | None => false
  | Some (subnet_address, subnet_length) =>
      existsb (fun rule =>
        bool_decide (rule.(rule_priority) = Some p.(hp_rule_priority))
        && bool_decide (rule.(rule_src) = Some subnet_address)
        && bool_decide (rule.(rule_srclen) = Some subnet_length)
        && bool_decide (rule.(rule_table) = Some (show_N p.(hp_route_table)))) rules
  end.

Definition is_unreachable (route : IpRouteEntry) : bool :=
  bool_decide (route.(route_dst) = Some "default")
  && bool_decide (route.(route_type) = Some "unreachable").

Definition routes_present (routes : list IpRouteEntry) (p : HostPolicy) : bool * bool :=
  let subnet_route := existsb (fun route =>
    bool_decide (route.(route_dst) = Some p.(hp_subnet))
    && bool_decide (route.(route_dev) = Some p.(hp_bridge))) routes in
  let default_route := existsb (fun route =>
    bool_decide (route.(route_dst) = Some "default")
    && bool_decide (route.(route_dev) = Some p.(hp_bridge))
    && bool_decide (route.(route_gateway) = Some p.(hp_gateway_ip))) routes in
  let unreachable := existsb is_unreachable routes in
  (subnet_route, default_route && unreachable).

Definition detect_drift (rules : list IpRuleEntry) (routes : list IpRouteEntry)
    (nft_table_exists : bool) (p : HostPolicy) : HostPolicyDrift :=
  let '(subnet_route, default_route) := routes_present routes p in
  {| rule_missing := negb (rule_present rules p);
     subnet_route_missing := negb subnet_route;
     default_route_missing := negb default_route;
     nft_table_missing := negb nft_table_exists;
     nft_table_stale := false;
     ipv6_rule_missing := false;
     ipv6_routes_missing := false |}.

Definition ipv6_rule_present (rules : list IpRuleEntry) (p : HostPolicy)
    (ipv6 : HostPolicyIpv6) : bool :=
  match split_prefix ipv6.(hp6_subnet) with
  | None => false
  | Some (address, length) =>
      let table := show_N p.(hp_route_table) in
      existsb (fun rule =>
        bool_decide (rule.(rule_priority) = Some p.(hp_rule_priority))
        && same_ipv6 rule.(rule_src) address
        && bool_decide (rule.(rule_srclen) = Some length)
        && bool_decide (rule.(rule_table) = Some table)) rules
  end.

Definition ipv6_routes_present (routes : list IpRouteEntry) (p : HostPolicy)
    (ipv6 : HostPolicyIpv6) : bool :=
  let on_bridge route := bool_decide (route.(route_dev) = Some p.(hp_bridge)) in
  let subnet := existsb (fun route =>
    bool_decide (route.(route_dst) = Some ipv6.(hp6_subnet))) (List.filter on_bridge routes) in
  let default := existsb (fun route =>
    bool_decide (route.(route_dst) = Some "default")
    && match route.(route_gateway) with
       | None => false
       | Some gateway => same_ipv6 (Some gateway) ipv6.(hp6_gateway_ip)
       end) (List.filter on_bridge routes) in
  let unreachable := existsb is_unreachable routes in
  subnet && default && unreachable.

Definition detect_ipv6_drift (drift : HostPolicyDrift) (rules : list IpRuleEntry)
    (routes : list IpRouteEntry) (p : HostPolicy) : HostPolicyDrift :=
  match p.(hp_ipv6) with
  | None => drift
  | Some ipv6 =>
      {| rule_missing := drift.(rule_missing);
         subnet_route_missing := drift.(subnet_route_missing);
         default_route_missing := drift.(default_route_missing);
         nft_table_missing := drift.(nft_table_missing);
         nft_table_stale := drift.(nft_table_stale);
         ipv6_rule_missing := negb (ipv6_rule_present rules p ipv6);
         ipv6_routes_missing := negb (ipv6_routes_present routes p ipv6) |}
  end.

(** * Properties *)

Definition lacks_quote (s : string) : bool := lacks "034" s.

(** The text fields a policy puts between nftables quotes, or beside them,
    hold no quote; a bridge name has no colon (the configuration admits only
    letters, digits, [-], [_] and [.]). *)
Definition well_quoted (p : HostPolicy) : bool :=
  lacks_quote p.(hp_subnet) && lacks_quote p.(hp_bridge) && lacks ":" p.(hp_bridge)
  && match p.(hp_ipv6) with None => true | Some ipv6 => lacks_quote ipv6.(hp6_subnet) end.

(** The pieces of the rendered table between quotes: before the kill switch's
    marker, the marker, and after it. *)
Definition nft_head (p : HostPolicy) : list string :=
  let ipv4_line :=
    "table inet egressy_host {" +:+ NL +:+ "  chain forward {" +:+ NL
    +:+ "    type filter hook forward priority -5; policy accept;" +:+ NL
    +:+ "    ip saddr " +:+ p.(hp_subnet) +:+ " oifname != " in
  let ipv4_tail := " counter reject with icmp type admin-prohibited" +:+ NL in
  let kill := "    meta nfproto ipv6 iifname " in
  match p.(hp_ipv6) with
  | None => [ipv4_line; p.(hp_bridge); ipv4_tail +:+ kill]
  | Some ipv6 =>
      [ipv4_line; p.(hp_bridge);
       ipv4_tail +:+ "    ip6 saddr " +:+ ipv6.(hp6_subnet) +:+ " oifname != "; p.(hp_bridge);
       " counter reject with icmpv6 type admin-prohibited" +:+ NL +:+ kill]
  end
  ++ [p.(hp_bridge); " oifname != "; p.(hp_bridge);
      " counter reject with icmpv6 type admin-prohibited comment "].

Definition nft_foot (p : HostPolicy) : list string :=
  [NL +:+ "    meta nfproto ipv6 iifname != "; p.(hp_bridge); " oifname "; p.(hp_bridge);
   " counter drop" +:+ NL +:+ "  }" +:+ NL +:+ "}" +:+ NL].

Definition nft_pieces (p : HostPolicy) : list string :=
  nft_head p ++ ipv6_kill_switch_marker p :: nft_foot p.

Lemma render_nft_pieces p : render_nft p = join DQ (nft_pieces p).
Proof.
  unfold render_nft, nft_pieces, nft_head, nft_foot, join, quoted, HOST_POLICY_TABLE.
  destruct (hp_ipv6 p) as [ipv6|]; cbn [String.concat app];
    autorewrite with egressy_rw; reflexivity.
Qed.

Lemma marker_lacks_quote p :
  well_quoted p = true -> lacks_quote (ipv6_kill_switch_marker p) = true.
Proof.
  unfold well_quoted, ipv6_kill_switch_marker, lacks_quote, IPV6_KILL_SWITCH_COMMENT.
  rewrite !andb_true_iff. intros [_ H6]. rewrite !lacks_app.
  by destruct (hp_ipv6 p) as [ipv6|]; rewrite ?H6.
Qed.

Lemma nft_pieces_lack_quote p :
  well_quoted p = true -> Forall (fun s => lacks "034" s = true) (nft_pieces p).
Proof.
  intros Hp. pose proof (marker_lacks_quote p Hp) as Hm.
  unfold well_quoted, lacks_quote in *. rewrite !andb_true_iff in Hp.
  destruct Hp as [[[Hs Hb] _] H6]. unfold nft_pieces, nft_head, nft_foot.
  destruct (hp_ipv6 p) as [ipv6|]; cbn [app];
    repeat constructor; rewrite ?lacks_app, ?Hs, ?Hb, ?H6, ?Hm; done.
Qed.

Lemma bridge_not_marker p q :
  well_quoted q = true -> hp_bridge q <> ipv6_kill_switch_marker p.
Proof.
  unfold well_quoted. rewrite !andb_true_iff. intros [[_ Hc] _] Heq.
  rewrite Heq in Hc. unfold ipv6_kill_switch_marker in Hc.
  rewrite !lacks_app in Hc. by rewrite andb_false_r in Hc.
Qed.

Lemma marker_in_pieces p q :
  well_quoted q = true ->
  ipv6_kill_switch_marker p ∈ tail (nft_pieces q) ->
  ipv6_kill_switch_marker p = ipv6_kill_switch_marker q.
Proof.
  intros Hq. pose proof (bridge_not_marker p q Hq) as Hb.
  unfold nft_pieces, nft_head, nft_foot. destruct (hp_ipv6 q) as [ipv6|]; cbn [app tail];
    rewrite ?elem_of_cons, elem_of_nil; intros Hin;
    repeat (destruct Hin as [Hin|Hin]; [try by (discriminate || congruence)|]); done.
Qed.

(** the installed table is accepted as current exactly when it was rendered
    for the same IPv6 scope: a policy recognises its own kill switch, and a
    table left by another configuration (another routed IPv6 subnet, or IPv6
    routing on or off) is reported stale. *)
Theorem render_nft_current p q :
  well_quoted p = true -> well_quoted q = true ->
  nft_table_is_current p (render_nft q) = true <->
  ipv6_kill_switch_marker p = ipv6_kill_switch_marker q.
Proof.
  intros Hp Hq. unfold nft_table_is_current. rewrite str_contains_true. split.
  - intros (pre & post & Heq). apply marker_in_pieces; [done|].
    rewrite <- (split_char_join "034" (nft_pieces q)).
    + change (String "034" "") with DQ. rewrite <- render_nft_pieces, Heq.
      unfold quoted, DQ. autorewrite with egressy_rw.
      apply split_char_delimited, marker_lacks_quote, Hp.
    + unfold nft_pieces, nft_head, nft_foot. by destruct (hp_ipv6 q).
    + by apply nft_pieces_lack_quote.
  - intros ->. rewrite render_nft_pieces. unfold nft_pieces.
    rewrite join_app, join_cons by (unfold nft_head; by destruct (hp_ipv6 q)).
    exists (join DQ (nft_head q)), (join DQ (nft_foot q)). unfold quoted. by autorewrite with egressy_rw.
Qed.

Definition sample_policy : HostPolicy :=
  new 1700000000000 "172.30.0.0/24" "vpn-egress0" "172.30.0.2" 51820.

Lemma render_nft_current_witness :
  let p := sample_policy in
  let q := with_ipv6 sample_policy "fd00:30::/64" "fd00:30::2" in
  (nft_table_is_current p (render_nft q) = true <->
   ipv6_kill_switch_marker p = ipv6_kill_switch_marker q)
  /\ nft_table_is_current q (render_nft q) = true
  /\ nft_table_is_current p (render_nft q) = false.
Proof.
  split; [|split].
  - apply (render_nft_current sample_policy); reflexivity.
  - apply render_nft_current; reflexivity.
  - reflexivity.
Defined.

(** ** What a clean comparison means *)

(** The installed IPv4 state a policy requires. *)
Definition carries_ipv4 (p : HostPolicy) (rules : list IpRuleEntry)
    (routes : list IpRouteEntry) : Prop :=
  (exists address len r,
     split_prefix p.(hp_subnet) = Some (address, len) /\ r ∈ rules /\
     r.(rule_priority) = Some p.(hp_rule_priority) /\ r.(rule_src) = Some address /\
     r.(rule_srclen) = Some len /\ r.(rule_table) = Some (show_N p.(hp_route_table))) /\
  (exists r, r ∈ routes /\ r.(route_dst) = Some p.(hp_subnet) /\
     r.(route_dev) = Some p.(hp_bridge)) /\
  (exists r, r ∈ routes /\ r.(route_dst) = Some "default" /\
     r.(route_dev) = Some p.(hp_bridge) /\ r.(route_gateway) = Some p.(hp_gateway_ip)) /\
  (exists r, r ∈ routes /\ r.(route_dst) = Some "default" /\
     r.(route_type) = Some "unreachable").

(** The installed IPv6 state: addresses are compared as addresses, not as text. *)
Definition carries_ipv6 (p : HostPolicy) (ipv6 : HostPolicyIpv6)
    (rules : list IpRuleEntry) (routes : list IpRouteEntry) : Prop :=
  (exists address len r a,
     split_prefix ipv6.(hp6_subnet) = Some (address, len) /\ r ∈ rules /\
     r.(rule_priority) = Some p.(hp_rule_priority) /\ r.(rule_srclen) = Some len /\
     (r.(rule_src) ≫= parse_ipv6) = Some a /\ parse_ipv6 address = Some a /\
     r.(rule_table) = Some (show_N p.(hp_route_table))) /\
  (exists r, r ∈ routes /\ r.(route_dst) = Some ipv6.(hp6_subnet) /\
     r.(route_dev) = Some p.(hp_bridge)) /\
  (exists r a, r ∈ routes /\ r.(route_dst) = Some "default" /\
     r.(route_dev) = Some p.(hp_bridge) /\
     (r.(route_gateway) ≫= parse_ipv6) = Some a /\
     parse_ipv6 ipv6.(hp6_gateway_ip) = Some a) /\
  (exists r, r ∈ routes /\ r.(route_dst) = Some "default" /\
     r.(route_type) = Some "unreachable").

Lemma same_ipv6_true o e :
  same_ipv6 o e = true <-> exists a, o ≫= parse_ipv6 = Some a /\ parse_ipv6 e = Some a.
Proof.
  unfold same_ipv6. rewrite andb_true_iff, !bool_decide_true. split.
  - intros [[a Ha] He]. exists a. by rewrite <- He.
  - intros (a & -> & ->). eauto.
Qed.

Lemma rule_present_true rules p :
  rule_present rules p = true <->
  exists address len r,
     split_prefix p.(hp_subnet) = Some (address, len) /\ r ∈ rules /\
     r.(rule_priority) = Some p.(hp_rule_priority) /\ r.(rule_src) = Some address /\
     r.(rule_srclen) = Some len /\ r.(rule_table) = Some (show_N p.(hp_route_table)).
Proof.
  unfold rule_present. destruct (split_prefix _) as [[address len]|].
  - rewrite existsb_elem. split.
    + intros (r & Hr & Hc). rewrite !andb_true_iff, !bool_decide_true in Hc. naive_solver.
    + intros (? & ? & r & [= -> ->] & Hr & ?). exists r.
      rewrite !andb_true_iff, !bool_decide_true. naive_solver.
  - split; [done|]. naive_solver.
Qed.

Lemma routes_present_true routes p :
  routes_present routes p = (true, true) <->
  (exists r, r ∈ routes /\ r.(route_dst) = Some p.(hp_subnet) /\
     r.(route_dev) = Some p.(hp_bridge)) /\
  (exists r, r ∈ routes /\ r.(route_dst) = Some "default" /\
     r.(route_dev) = Some p.(hp_bridge) /\ r.(route_gateway) = Some p.(hp_gateway_ip)) /\
  (exists r, r ∈ routes /\ r.(route_dst) = Some "default" /\
     r.(route_type) = Some "unreachable").
Proof.
  unfold routes_present. rewrite pair_equal_spec, andb_true_iff, !existsb_elem.
  unfold is_unreachable. setoid_rewrite andb_true_iff. setoid_rewrite andb_true_iff.
  setoid_rewrite bool_decide_true. naive_solver.
Qed.

Lemma ipv6_rule_present_true rules p ipv6 :
  ipv6_rule_present rules p ipv6 = true <->
  exists address len r a,
     split_prefix ipv6.(hp6_subnet) = Some (address, len) /\ r ∈ rules /\
     r.(rule_priority) = Some p.(hp_rule_priority) /\ r.(rule_srclen) = Some len /\
     (r.(rule_src) ≫= parse_ipv6) = Some a /\ parse_ipv6 address = Some a /\
     r.(rule_table) = Some (show_N p.(hp_route_table)).
Proof.
  unfold ipv6_rule_present. destruct (split_prefix _) as [[address len]|].
  - rewrite existsb_elem. split.
    + intros (r & Hr & Hc). rewrite !andb_true_iff, same_ipv6_true, !bool_decide_true in Hc.
      naive_solver.
    + intros (? & ? & r & a & [= -> ->] & Hr & ?). exists r.
      rewrite !andb_true_iff, same_ipv6_true, !bool_decide_true. naive_solver.
  - split; [done|]. naive_solver.
Qed.

Lemma ipv6_routes_present_true routes p ipv6 :
  ipv6_routes_present routes p ipv6 = true <->
  (exists r, r ∈ routes /\ r.(route_dst) = Some ipv6.(hp6_subnet) /\
     r.(route_dev) = Some p.(hp_bridge)) /\
  (exists r a, r ∈ routes /\ r.(route_dst) = Some "default" /\
     r.(route_dev) = Some p.(hp_bridge) /\
     (r.(route_gateway) ≫= parse_ipv6) = Some a /\
     parse_ipv6 ipv6.(hp6_gateway_ip) = Some a) /\
  (exists r, r ∈ routes /\ r.(route_dst) = Some "default" /\
     r.(route_type) = Some "unreachable").
Proof.
  unfold ipv6_routes_present, is_unreachable.
  rewrite !andb_true_iff, !existsb_elem.
  setoid_rewrite list_elem_of_In. setoid_rewrite List.filter_In.
  setoid_rewrite andb_true_iff. setoid_rewrite bool_decide_true.
  split.
  - intros [[(r & ? & ?) (r' & ? & ? & Hg)] ?]. destruct (route_gateway r') as [g|] eqn:E; [|done].
    apply same_ipv6_true in Hg as (a & ? & ?).
    split; [naive_solver|]. split; [|naive_solver]. exists r', a. rewrite E. naive_solver.
  - intros ((r & ? & ?) & (r' & a & ? & ? & ? & Hg & ?) & ?).
    split; [split; [naive_solver|]|naive_solver]. exists r'.
    destruct (route_gateway r') as [g|]; [|done].
    split; [naive_solver|]. split; [done|]. apply same_ipv6_true. eauto.
Qed.

(** A rule whose table is printed by a name of rt_tables is never recognised:
    only the decimal table number is. *)
Lemma named_table_is_drift rules p :
  (forall r, r ∈ rules -> r.(rule_table) <> Some (show_N p.(hp_route_table))) ->
  rule_present rules p = false.
Proof.
  intros Hr. apply not_true_iff_false. rewrite rule_present_true.
  intros (? & ? & r & _ & Hin & _ & _ & _ & Ht). by apply (Hr r).
Qed.
