(* ===== verification/BTree.v ===== *)
(** [BTreeMap], [BTreeSet] and [HashMap] idioms.  A map is a [gmap]; where the
    code iterates a [BTreeMap] the entries are listed in key order, and the
    [entry(..).or_default()] updates have lemmas for what they accumulate. *)

From S2P Require Import Prelude RustStr.

(** [iter().enumerate()], counting from [n]. *)
Fixpoint enumerate_from {A} (n : nat) (l : list A) : list (nat * A) :=
  match l with
  | [] => []
  | x :: l => (n, x) :: enumerate_from (S n) l
  end.
Definition enumerate {A} (l : list A) : list (nat * A) := enumerate_from 0 l.

Lemma elem_of_enumerate_from {A} n (l : list A) i x :
  (i, x) ∈ enumerate_from n l <-> (n <= i)%nat /\ l !! (i - n)%nat = Some x.
Proof.
  revert n; induction l as [|y l IH]; intros n; cbn [enumerate_from].
  - rewrite elem_of_nil, lookup_nil. naive_solver.
  - rewrite elem_of_cons, IH. destruct (decide (i = n)) as [->|Hne].
    + rewrite Nat.sub_diag. cbn. split; [intros [[= ->]|[? ?]]; [done|lia] | intros [_ [= ->]]; by left].
    + split.
      * intros [[= ? ?]|[? Hl]]; [done|]. split; [lia|].
        by replace (i - n)%nat with (S (i - S n)) by lia.
      * intros [? Hl]. right. split; [lia|].
        by replace (i - n)%nat with (S (i - S n)) in Hl by lia.
Qed.

Lemma elem_of_enumerate {A} (l : list A) i x : (i, x) ∈ enumerate l <-> l !! i = Some x.
Proof.
  unfold enumerate. rewrite elem_of_enumerate_from, Nat.sub_0_r.
  split; [by intros [_ ?] | split; [lia|done]].
Qed.

Lemma enumerate_from_snd {A} n (l : list A) : (enumerate_from n l).*2 = l.
Proof. revert n; induction l as [|x l IH]; intros n; cbn; [done|]. by rewrite IH. Qed.

(** ** Iteration in key order *)

Section iteration.
Context `{Countable K} (leb : K -> K -> bool).

Definition btree_iter {V} (m : gmap K V) : list (K * V) :=
  sort_by (fun a b => leb a.1 b.1) (map_to_list m).
Definition btree_keys {V} (m : gmap K V) : list K := (btree_iter m).*1.
Definition btree_values {V} (m : gmap K V) : list V := (btree_iter m).*2.
Definition btree_set_iter (s : gset K) : list K := sort_by leb (elements s).

Lemma elem_of_btree_iter {V} (m : gmap K V) k v :
  (k, v) ∈ btree_iter m <-> m !! k = Some v.
Proof. unfold btree_iter. by rewrite elem_of_sort_by, elem_of_map_to_list. Qed.

Lemma elem_of_btree_values {V} (m : gmap K V) v :
  v ∈ btree_values m <-> exists k, m !! k = Some v.
Proof.
  unfold btree_values. rewrite list_elem_of_fmap. split.
  - intros ([k v'] & -> & Hk%elem_of_btree_iter). eauto.
  - intros [k Hk%elem_of_btree_iter]. by exists (k, v).
Qed.

Lemma elem_of_btree_set_iter s k : k ∈ btree_set_iter s <-> k ∈ s.
Proof. unfold btree_set_iter. by rewrite elem_of_sort_by, elem_of_elements. Qed.

Lemma length_btree_iter {V} (m : gmap K V) : length (btree_iter m) = size m.
Proof. unfold btree_iter. by rewrite length_sort_by, length_map_to_list. Qed.

Lemma NoDup_btree_keys {V} (m : gmap K V) : NoDup (btree_keys m).
Proof. unfold btree_keys, btree_iter. rewrite sort_by_perm. apply NoDup_fst_map_to_list. Qed.
End iteration.

(** ** [*map.entry(k).or_default() += 1] *)

Section claims.
Context `{Countable K}.

Definition entry_incr (m : gmap K nat) (k : K) : gmap K nat :=
  <[k := S (default 0%nat (m !! k))]> m.
Definition count_claims (l : list K) : gmap K nat := foldl entry_incr ∅ l.

Definition occurrences (k : K) (l : list K) : nat := length (filter (.= k) l).

Lemma occurrences_cons k x l :
  occurrences k (x :: l) = ((if decide (x = k) then 1 else 0) + occurrences k l)%nat.
Proof. unfold occurrences. rewrite filter_cons. by case_decide. Qed.

Lemma occurrences_app k l1 l2 :
  occurrences k (l1 ++ l2) = (occurrences k l1 + occurrences k l2)%nat.
Proof. unfold occurrences. by rewrite list.filter_app, length_app. Qed.

Lemma occurrences_perm k l1 l2 : l1 ≡ₚ l2 -> occurrences k l1 = occurrences k l2.
Proof. unfold occurrences. by intros ->. Qed.

Lemma occurrences_pos k l : (0 < occurrences k l)%nat <-> k ∈ l.
Proof.
  induction l as [|x l IH]; [split; [cbn; lia | by intros ?%elem_of_nil]|].
  rewrite occurrences_cons, elem_of_cons, <- IH. case_decide; intuition (subst; lia || done).
Qed.

Lemma occurrences_zero k l : occurrences k l = 0%nat <-> k ∉ l.
Proof. rewrite <- occurrences_pos. lia. Qed.

Lemma occurrences_NoDup k l : NoDup l -> (occurrences k l <= 1)%nat.
Proof.
  induction 1 as [|x l Hx Hl IH]; [cbn; lia|].
  rewrite occurrences_cons. case_decide; [subst|lia].
  apply occurrences_zero in Hx. lia.
Qed.

Lemma NoDup_occurrences l : (forall k, occurrences k l <= 1)%nat -> NoDup l.
Proof.
  induction l as [|x l IH]; intros Hl; constructor.
  - apply occurrences_zero. specialize (Hl x). rewrite occurrences_cons in Hl.
    case_decide; [lia|done].
  - apply IH. intros k. specialize (Hl k). rewrite occurrences_cons in Hl. lia.
Qed.

Definition positive_count (n : nat) : option nat := if (n =? 0)%nat then None else Some n.

Lemma count_claims_lookup l k :
  count_claims l !! k = positive_count (occurrences k l).
Proof.
  unfold count_claims.
  enough (forall m, foldl entry_incr m l !! k =
    positive_count (default 0%nat (m !! k) + occurrences k l)
    \/ (m !! k = Some 0%nat)) as Hm.
  { destruct (Hm ∅) as [->|Hm']; [|by rewrite lookup_empty in Hm']. by rewrite lookup_empty. }
  induction l as [|x l IH]; intros m; cbn [foldl].
  - destruct (m !! k) as [[|n]|] eqn:E; [by right|left..].
    + change (occurrences k []) with 0%nat. by rewrite Nat.add_0_r.
    + done.
  - rewrite occurrences_cons. destruct (IH (entry_incr m x)) as [->|Hm].
    + unfold entry_incr. rewrite lookup_insert. case_decide; subst; [|by left].
      destruct (m !! k) as [[|n]|]; [by right|left..]; cbn; do 2 f_equal; lia.
    + unfold entry_incr in Hm. rewrite lookup_insert in Hm. case_decide; [done|]. by right.
Qed.

Lemma count_claims_many l k n :
  count_claims l !! k = Some n -> n = occurrences k l.
Proof.
  rewrite count_claims_lookup. unfold positive_count.
  destruct (Nat.eqb_spec (occurrences k l) 0); congruence.
Qed.

Lemma count_claims_one l k : count_claims l !! k = Some 1%nat <-> occurrences k l = 1%nat.
Proof.
  rewrite count_claims_lookup. unfold positive_count.
  destruct (Nat.eqb_spec (occurrences k l) 0) as [->|]; [done|].
  split; congruence.
Qed.
End claims.

(** ** [map.entry(k).or_default().push(v)] and [.insert(v)] *)

Section groups.
Context `{Countable K}.

Definition entry_push {V} (m : gmap K (list V)) (kv : K * V) : gmap K (list V) :=
  <[kv.1 := default [] (m !! kv.1) ++ [kv.2]]> m.
Definition group_push {V} (l : list (K * V)) : gmap K (list V) := foldl entry_push ∅ l.
Definition values_at {V} (k : K) (l : list (K * V)) : list V :=
  (filter (fun kv => kv.1 = k) l).*2.

Lemma elem_of_values_at {V} k (l : list (K * V)) v : v ∈ values_at k l <-> (k, v) ∈ l.
Proof.
  unfold values_at. rewrite list_elem_of_fmap. setoid_rewrite list_elem_of_filter.
  split; [by intros ([??] & -> & <- & ?) | intros ?; by exists (k, v)].
Qed.

Lemma values_at_cons {V} k (kv : K * V) l :
  values_at k (kv :: l) = (if decide (kv.1 = k) then [kv.2] else []) ++ values_at k l.
Proof. unfold values_at. rewrite filter_cons. by case_decide. Qed.

Lemma group_push_default {V} (l : list (K * V)) k :
  default [] (group_push l !! k) = values_at k l.
Proof.
  unfold group_push.
  enough (forall m, default [] (foldl entry_push m l !! k)
                    = default [] (m !! k) ++ values_at k l) as ->
    by (by rewrite lookup_empty).
  induction l as [|[k' v] l IH]; intros m; cbn [foldl].
  - by rewrite app_nil_r.
  - rewrite IH, values_at_cons. unfold entry_push; cbn.
    rewrite lookup_insert. case_decide; subst; cbn; [by rewrite <- app_assoc | done].
Qed.

Lemma group_push_lookup {V} (l : list (K * V)) k vs :
  group_push l !! k = Some vs <-> vs = values_at k l /\ vs <> [].
Proof.
  assert (forall m, (forall vs, m !! k = Some vs -> vs <> []) ->
    forall vs, foldl entry_push m l !! k = Some vs -> vs <> []) as Hne.
  { induction l as [|[k' v] l IH]; intros m Hm; cbn [foldl]; [done|].
    apply IH. intros vs'. unfold entry_push; cbn. rewrite lookup_insert.
    case_decide; [|eauto]. intros [= <-]. by destruct (default [] _). }
  pose proof (group_push_default l k) as Hd. unfold group_push in *. split.
  - intros Hl. rewrite Hl in Hd. split; [done|].
    eapply (Hne ∅); [|exact Hl]. intros ?. by rewrite lookup_empty.
  - intros [-> Hv]. destruct (foldl entry_push ∅ l !! k); cbn in Hd; congruence.
Qed.

Definition entry_insert `{Countable V} (m : gmap K (gset V)) (kv : K * V) : gmap K (gset V) :=
  <[kv.1 := {[kv.2]} ∪ default ∅ (m !! kv.1)]> m.
Definition group_insert `{Countable V} (l : list (K * V)) : gmap K (gset V) :=
  foldl entry_insert ∅ l.

Lemma group_insert_default `{Countable V} (l : list (K * V)) k :
  default ∅ (group_insert l !! k) = list_to_set (values_at k l).
Proof.
  unfold group_insert.
  enough (forall m, default ∅ (foldl entry_insert m l !! k)
                    = default ∅ (m !! k) ∪ list_to_set (values_at k l)) as ->
    by (rewrite lookup_empty; cbn; set_solver).
  induction l as [|[k' v] l IH]; intros m; cbn [foldl].
  - cbn. set_solver.
  - rewrite IH, values_at_cons. unfold entry_insert; cbn.
    rewrite lookup_insert. case_decide; subst; cbn; [set_solver|done].
Qed.

Lemma group_insert_lookup `{Countable V} (l : list (K * V)) k s :
  group_insert l !! k = Some s -> s = list_to_set (values_at k l).
Proof. intros Hl. pose proof (group_insert_default l k) as Hd. by rewrite Hl in Hd. Qed.

Lemma group_insert_some `{Countable V} (l : list (K * V)) k v :
  (k, v) ∈ l -> group_insert l !! k = Some (list_to_set (values_at k l)).
Proof.
  intros Hv%elem_of_values_at. pose proof (group_insert_default l k) as Hd.
  destruct (group_insert l !! k); cbn in Hd; [congruence|].
  assert (v ∈ (∅ : gset V)) by (rewrite Hd; by apply elem_of_list_to_set). set_solver.
Qed.
End groups.

Lemma omap_cons_eq {A B} (f : A -> option B) x l :
  omap f (x :: l) = match f x with Some y => y :: omap f l | None => omap f l end.
Proof. done. Qed.

(** Grouping indexes by an optional key: a group's size is the key's count. *)
Lemma length_values_at_enumerate `{Countable K} {A} (f : A -> option K) k n (l : list A) :
  length (values_at k (omap (fun '(i, x) => (fun k => (k, i)) <$> f x) (enumerate_from n l)))
  = occurrences k (omap f l).
Proof.
  revert n; induction l as [|x l IH]; intros n; [done|].
  cbn [enumerate_from]. rewrite !omap_cons_eq.
  destruct (f x) as [k'|]; cbn [fmap option_fmap option_map]; [|apply IH].
  rewrite values_at_cons, occurrences_cons, length_app, IH. cbn [fst]. by case_decide.
Qed.

(** ** Sums over a map *)

Section sums.
Context `{Countable K} {V : Type}.

Definition map_sum (g : K -> V -> Z) (m : gmap K V) : Z := map_fold (fun k v acc => (g k v + acc)%Z) 0%Z m.
Definition list_sum {A} (g : A -> Z) (l : list A) : Z := foldr (fun x acc => (g x + acc)%Z) 0%Z l.

Lemma map_sum_empty g : map_sum g ∅ = 0%Z.
Proof. done. Qed.

Lemma map_sum_insert g k v m : m !! k = None -> map_sum g (<[k := v]> m) = (g k v + map_sum g m)%Z.
Proof. intros Hk. unfold map_sum. rewrite map_fold_insert_L; [done|intros; lia|done]. Qed.

Lemma map_sum_alter g k (h : option V -> V) m :
  map_sum g (partial_alter (fun old => Some (h old)) k m)
  = (map_sum g m + (g k (h (m !! k)) - default 0 (g k <$> m !! k)))%Z.
Proof.
  assert (partial_alter (fun old => Some (h old)) k m = <[k := h (m !! k)]> (delete k m)) as ->.
  { apply map_eq. intros i. destruct (decide (k = i)) as [<-|Hne].
    - by rewrite lookup_partial_alter_eq, lookup_insert_eq.
    - by rewrite lookup_partial_alter_ne, lookup_insert_ne, lookup_delete_ne by done. }
  rewrite map_sum_insert by apply lookup_delete_eq.
  destruct (m !! k) as [v|] eqn:Hk.
  - pose proof (map_sum_insert g k v (delete k m) (lookup_delete_eq _ _)) as Hold.
    rewrite insert_delete_id in Hold by done. cbn. lia.
  - rewrite delete_id by done. cbn. lia.
Qed.

Lemma map_sum_nonneg g m : (forall k v, m !! k = Some v -> 0 <= g k v)%Z -> (0 <= map_sum g m)%Z.
Proof.
  induction m as [|k v m Hk IH] using map_ind; intros Hg; [done|].
  rewrite map_sum_insert by done. specialize (Hg k v) as Hv. rewrite lookup_insert_eq in Hv. specialize (Hv eq_refl).
  enough (0 <= map_sum g m)%Z by lia. apply IH. intros i w Hi. apply Hg. rewrite lookup_insert_ne; congruence.
Qed.

Lemma map_sum_ge g m k v :
  (forall k v, m !! k = Some v -> 0 <= g k v)%Z -> m !! k = Some v -> (g k v <= map_sum g m)%Z.
Proof.
  intros Hg Hk. rewrite <- (insert_delete_id m k v Hk), map_sum_insert by apply lookup_delete_eq.
  enough (0 <= map_sum g (delete k m))%Z by lia.
  apply map_sum_nonneg. intros i w Hi. apply lookup_delete_Some in Hi as [_ Hi]. auto.
Qed.

Lemma map_sum_zero g m : (forall k v, m !! k = Some v -> g k v = 0%Z) -> map_sum g m = 0%Z.
Proof.
  induction m as [|k v m Hk IH] using map_ind; intros Hg; [done|].
  rewrite map_sum_insert by done. rewrite (Hg k v) by apply lookup_insert_eq.
  rewrite IH; [done|]. intros i w Hi. apply Hg. rewrite lookup_insert_ne; congruence.
Qed.

Lemma list_sum_cons {A} (g : A -> Z) x l : list_sum g (x :: l) = (g x + list_sum g l)%Z.
Proof. done. Qed.

Lemma list_sum_perm {A} (g : A -> Z) l k : l ≡ₚ k -> list_sum g l = list_sum g k.
Proof. induction 1; rewrite ?list_sum_cons; lia. Qed.

Lemma list_sum_app {A} (g : A -> Z) l k : list_sum g (l ++ k) = (list_sum g l + list_sum g k)%Z.
Proof. induction l as [|x l IH]; cbn [app]; rewrite ?list_sum_cons; [done|lia]. Qed.

Lemma list_sum_filter {A} (g : A -> Z) (f : A -> bool) l :
  list_sum g (List.filter f l) = list_sum (fun x => if f x then g x else 0%Z) l.
Proof. induction l as [|x l IH]; cbn [List.filter]; [done|]. destruct (f x) eqn:E; rewrite !list_sum_cons, ?E; lia. Qed.

Lemma list_sum_ext {A} (g h : A -> Z) l : (forall x, x ∈ l -> g x = h x) -> list_sum g l = list_sum h l.
Proof.
  induction l as [|x l IH]; intros Hgh; [done|]. rewrite !list_sum_cons, (Hgh x) by left. f_equal. apply IH.
  intros y Hy. apply Hgh. by right.
Qed.

Lemma list_sum_nonneg {A} (g : A -> Z) l : (forall x, x ∈ l -> 0 <= g x)%Z -> (0 <= list_sum g l)%Z.
Proof.
  induction l as [|x l IH]; intros Hg; [done|]. rewrite list_sum_cons.
  assert (0 <= g x)%Z by (apply Hg; left). enough (0 <= list_sum g l)%Z by lia.
  apply IH. intros y Hy. apply Hg. by right.
Qed.

Lemma btree_iter_sum leb g (m : gmap K V) : list_sum (fun e => g e.1 e.2) (btree_iter leb m) = map_sum g m.
Proof.
  unfold btree_iter. rewrite (list_sum_perm _ _ _ (sort_by_perm _ _)).
  unfold map_sum. rewrite map_fold_foldr. unfold list_sum. by induction (map_to_list m) as [|[k v] l IH]; cbn; [|rewrite IH].
Qed.
End sums.
