(* ===== verification/Order.v ===== *)
(** Orders by which the code sorts: a class of boolean total orders with the
    orders of Rust's [Ord] for numbers, texts, options and tuples, and the
    lemmas on sorted lists that need them. *)

From S2P Require Import Prelude RustStr.

Class TotalOrder {A} (leb : A -> A -> bool) : Prop := {
  leb_total : forall x y, leb x y = true \/ leb y x = true;
  leb_trans : forall x y z, leb x y = true -> leb y z = true -> leb x z = true;
  leb_antisym : forall x y, leb x y = true -> leb y x = true -> x = y;
}.

Lemma leb_refl {A} (leb : A -> A -> bool) `{!TotalOrder leb} x : leb x x = true.
Proof. by destruct (leb_total x x). Qed.

#[export] Instance N_order : TotalOrder N.leb.
Proof. split; intros *; rewrite ?N.leb_le; lia. Qed.
#[export] Instance Z_order : TotalOrder Z.leb.
Proof. split; intros *; rewrite ?Z.leb_le; lia. Qed.

(** [false < true] *)
Definition bool_leb (a b : bool) : bool := negb a || b.
#[export] Instance bool_order : TotalOrder bool_leb.
Proof. split; [intros [] []|intros [] [] []|intros [] []]; simpl; auto. Qed.

Lemma ascii_compare_spec a b :
  CompareSpec (a = b) (N_of_ascii a < N_of_ascii b)%N (N_of_ascii b < N_of_ascii a)%N
    (Ascii.compare a b).
Proof.
  unfold Ascii.compare. destruct (N.compare_spec (N_of_ascii a) (N_of_ascii b)) as [He| |];
    constructor; [|done|done].
  by rewrite <- (ascii_N_embedding a), <- (ascii_N_embedding b), He.
Qed.

Lemma string_leb_cons a s b t :
  String.leb (String a s) (String b t) =
  match Ascii.compare a b with Eq => String.leb s t | Lt => true | Gt => false end.
Proof. unfold String.leb. simpl. by destruct (Ascii.compare a b). Qed.

Lemma string_leb_trans s t u :
  String.leb s t = true -> String.leb t u = true -> String.leb s u = true.
Proof.
  revert t u; induction s as [|a s IH]; intros [|b t] [|c u]; try done.
  rewrite !string_leb_cons.
  destruct (ascii_compare_spec a b) as [->|H1|H1]; [| |by intros].
  - destruct (ascii_compare_spec b c); intros; [eauto|done|done].
  - destruct (ascii_compare_spec b c) as [->|H2|H2]; intros; try done;
      destruct (ascii_compare_spec a c) as [->|H3|H3]; try done; lia.
Qed.

#[export] Instance string_order : TotalOrder String.leb.
Proof.
  split; [apply String.leb_total | apply string_leb_trans | apply String.leb_antisym].
Qed.

(** Tuples compare by their first difference. *)
Definition lex_leb {A B} `{EqDecision A} (la : A -> A -> bool) (lb : B -> B -> bool) (x y : A * B)
    : bool :=
  if decide (x.1 = y.1) then lb x.2 y.2 else la x.1 y.1.

#[export] Instance lex_order {A B} `{EqDecision A} (la : A -> A -> bool) (lb : B -> B -> bool)
  `{!TotalOrder la, !TotalOrder lb} : TotalOrder (lex_leb la lb).
Proof.
  unfold lex_leb. split.
  - intros [a b] [a' b']. simpl. repeat case_decide; subst; try congruence; apply leb_total.
  - intros [a b] [a' b'] [a2 b2]. simpl. repeat case_decide; subst; try congruence; intros Hxy Hyz;
      try done.
    + by eapply leb_trans.
    + match goal with Hne : _ <> _ |- _ => destruct Hne; by apply (leb_antisym (leb:=la)) end.
    + by eapply leb_trans.
  - intros [a b] [a' b']. simpl. repeat case_decide; subst; try congruence; intros Hxy Hyx.
    + f_equal. by apply leb_antisym.
    + match goal with Hne : _ <> _ |- _ => destruct Hne; by apply (leb_antisym (leb:=la)) end.
Qed.

(** [None] comes first. *)
Definition option_leb {A} (la : A -> A -> bool) (x y : option A) : bool :=
  match x, y with None, _ => true | Some _, None => false | Some a, Some b => la a b end.

#[export] Instance option_order {A} (la : A -> A -> bool) `{!TotalOrder la} :
  TotalOrder (option_leb la).
Proof.
  split.
  - intros [a|] [b|]; simpl; auto. apply leb_total.
  - intros [a|] [b|] [c|]; simpl; try done. apply leb_trans.
  - intros [a|] [b|]; simpl; try done. intros Hxy Hyx. f_equal. by apply leb_antisym.
Qed.

(** [right.cmp(left)] *)
Definition reverse_leb {A} (la : A -> A -> bool) (x y : A) : bool := la y x.
#[export] Instance reverse_order {A} (la : A -> A -> bool) `{!TotalOrder la} :
  TotalOrder (reverse_leb la).
Proof.
  unfold reverse_leb. split; intros *; [apply leb_total| | ].
  - intros ? ?. by eapply leb_trans.
  - intros ? ?. by apply leb_antisym.
Qed.

#[export] Typeclasses Opaque bool_leb lex_leb option_leb reverse_leb.

(** ** Sorted lists *)

Section sorted.
Context {A} (leb : A -> A -> bool) `{!TotalOrder leb}.
Notation sorted := (StronglySorted (fun a b => leb a b = true)).

Lemma sort_by_StronglySorted l : sorted (sort_by leb l).
Proof. apply sort_by_sorted; [apply leb_total | apply leb_trans]. Qed.

Lemma sorted_perm_eq l k : sorted l -> sorted k -> l ≡ₚ k -> l = k.
Proof.
  intros Hl. revert k. induction Hl as [|x l Hl IH Hx]; intros k Hk Hp.
  - symmetry. by apply Permutation_nil.
  - destruct Hk as [|y k Hk Hy]; [by apply Permutation_nil_r in Hp|].
    assert (x = y) as ->.
    { apply leb_antisym.
      - assert (y ∈ x :: l) as [->|Hin]%elem_of_cons by (rewrite Hp; left); [by apply (leb_refl leb)|].
        rewrite list.Forall_forall in Hx. auto.
      - assert (x ∈ y :: k) as [->|Hin]%elem_of_cons by (rewrite <- Hp; left); [by apply (leb_refl leb)|].
        rewrite list.Forall_forall in Hy. auto. }
    f_equal. apply IH; [done|]. by apply Permutation_cons_inv in Hp.
Qed.

(** Sorting forgets the order it was given. *)
Lemma sort_by_perm_eq l k : l ≡ₚ k -> sort_by leb l = sort_by leb k.
Proof.
  intros Hp. apply sorted_perm_eq; [apply sort_by_StronglySorted..|]. by rewrite !sort_by_perm.
Qed.

(** What is before is not greater than what is after. *)
Lemma sorted_take_drop l n x y :
  sorted l -> x ∈ take n l -> y ∈ drop n l -> leb x y = true.
Proof.
  intros Hl. revert n. induction Hl as [|z l Hl IH Hz]; intros n.
  - rewrite take_nil. by intros ?%not_elem_of_nil.
  - destruct n as [|n]; simpl; [by intros ?%not_elem_of_nil|].
    intros [->|Hx]%elem_of_cons Hy; [|by eapply IH].
    rewrite list.Forall_forall in Hz. apply Hz. rewrite <- (take_drop n l), elem_of_app; by right.
Qed.
End sorted.
