(* ===== verification/TunnelSocket.v ===== *)
(** The sockets that the gateway opens towards the tunnel
    (src/src/tunnel_socket.rs): each is bound to the interface before it is
    connected, so that without the tunnel nothing is sent. *)

From S2P Require Import Prelude RustStr Net.

Inductive SocketCall : Type :=
  | NewSocket (v4 : bool)
  | BindLocal (local : SocketAddr)
  | BindDevice (interface : string)
  | ConnectTo (peer : SocketAddr).

#[export] Instance SocketCall_eq_dec : EqDecision SocketCall.
Proof. solve_decision. Defined.

(** How the system answers a call, after the calls so far on this socket. *)
Class SocketEnv : Type := call_result : list SocketCall -> SocketCall -> Result unit string.

Section sockets.
Context `{!SocketEnv}.

(** A socket under construction: the calls that succeeded. *)
Definition Sock : Type := list SocketCall -> list SocketCall * Result unit string.

Definition sys (c : SocketCall) : Sock := fun calls =>
  match call_result calls c with Ok _ => (calls ++ [c], Ok tt) | Err e => (calls, Err e) end.
Definition andthen (m k : Sock) : Sock := fun calls =>
  match m calls with (calls, Ok _) => k calls | (calls, Err e) => (calls, Err e) end.
Definition skip : Sock := fun calls => (calls, Ok tt).

Definition bind_if (interface : option string) : Sock :=
  match interface with Some interface => sys (BindDevice interface) | None => skip end.

Definition unspecified (peer : SocketAddr) : SocketAddr :=
  match peer with SocketAddr_V4 _ _ => SocketAddr_V4 0 0 | SocketAddr_V6 _ _ _ => SocketAddr_V6 0 0 0 end.

Definition is_v4 (peer : SocketAddr) : bool := match peer with SocketAddr_V4 _ _ => true | SocketAddr_V6 _ _ _ => false end.

Definition udp (peer : SocketAddr) (interface : option string) : Sock :=
  andthen (sys (BindLocal (unspecified peer))) (andthen (bind_if interface) (sys (ConnectTo peer))).

Definition tcp (peer : SocketAddr) (interface : option string) : Sock :=
  andthen (sys (NewSocket (is_v4 peer))) (andthen (bind_if interface) (sys (ConnectTo peer))).
End sockets.

Definition bound_before_connected (peer : SocketAddr) (interface : string) (outcome : list SocketCall * Result unit string) : Prop :=
  match outcome.2 with
  | Ok _ => exists first, outcome.1 = [first; BindDevice interface; ConnectTo peer] /\ first <> ConnectTo peer
  | Err _ => ConnectTo peer ∉ outcome.1
  end.

(** a socket towards the tunnel is bound to it.  Whatever the system answers, a
    UDP or TCP socket that an interface is given for is connected only after it
    was bound to this interface; where the binding fails, as it does without
    the interface, there is an error and no connection, hence no query that
    leaves another way. *)
Theorem tunnel_sockets_are_bound `{!SocketEnv} peer interface :
  bound_before_connected peer interface (udp peer (Some interface) [])
  /\ bound_before_connected peer interface (tcp peer (Some interface) []).
Proof.
  unfold udp, tcp, bind_if, andthen, sys, bound_before_connected. split.
  - destruct (call_result _ (BindLocal _)); [|apply not_elem_of_nil]. destruct (call_result _ (BindDevice _)); [|set_solver].
    destruct (call_result _ (ConnectTo _)); [|set_solver]. by eexists.
  - destruct (call_result _ (NewSocket _)); [|apply not_elem_of_nil]. destruct (call_result _ (BindDevice _)); [|set_solver].
    destruct (call_result _ (ConnectTo _)); [|set_solver]. by eexists.
Qed.
