(* ===== verification/Isolation.v ===== *)
(** Shared-bridge isolation (src/src/isolation.rs): screening of the discovered
    candidates, the policy document built from them, and the bridge ruleset
    rendered from the policy. *)

From S2P Require Import Prelude RustStr Net BTree.

Definition ISOLATION_ID_LABEL : string := "egressy.isolation-id".
Definition ISOLATION_ALLOW_LABEL : string := "egressy.isolation-allow".
Definition ISOLATION_ACCEPT_LABEL : string := "egressy.isolation-accept".

Inductive IsolationMode : Type := Disabled | Audit | Enforce.
Inductive IsolationProtocol : Type := Tcp | Udp.

#[export] Instance IsolationMode_eq_dec : EqDecision IsolationMode.
Proof. solve_decision. Defined.
#[export] Instance IsolationProtocol_eq_dec : EqDecision IsolationProtocol.
Proof. solve_decision. Defined.
#[export] Instance IsolationProtocol_countable : Countable IsolationProtocol.
Proof.
  refine (inj_countable' (fun p => match p with Tcp => false | Udp => true end)
    (fun b : bool => if b then Udp else Tcp) _).
  by intros [].
Defined.

Definition mode_from_str (value : string) : Result IsolationMode string :=
  if String.eqb value "disabled" then Ok Disabled
  else if String.eqb value "audit" then Ok Audit
  else if String.eqb value "enforce" then Ok Enforce
  else Err "isolation mode must be disabled, audit, or enforce".

Definition nft_name (p : IsolationProtocol) : string :=
  match p with Tcp => "tcp" | Udp => "udp" end.

Record IsolationAllowance : Type := {
  al_destination_id : string;
  al_destination_address : Ipv4Addr;
  al_port : N;
  al_protocol : IsolationProtocol;
}.

Record IsolationParticipant : Type := {
  pt_container_id : string;
  pt_name : string;
  pt_isolation_id : option string;
  pt_ipv4_address : Ipv4Addr;
  pt_allowances : list IsolationAllowance;
  pt_mac : option string;
}.

Record IsolationPolicy : Type := {
  ip_schema_version : N;
  ip_generated_at_unix_ms : N;
  ip_network : string;
  ip_bridge : string;
  ip_subnet : string;
  ip_eligible_for_enforcement : bool;
  ip_reason_code : string;
  ip_safe_message : string;
  ip_issues : list string;
  ip_participants : list IsolationParticipant;
  ip_ipv6_subnet : option string;
  ip_bound_range : option string;
  ip_gateway_address : option Ipv4Addr;
  ip_rejected : list string;
}.

Inductive CandidateSource : Type := Docker | Kubernetes.
#[export] Instance CandidateSource_eq_dec : EqDecision CandidateSource.
Proof. solve_decision. Defined.

Record IsolationCandidate : Type := {
  cd_container_id : string;
  cd_name : string;
  cd_ipv4_address : Ipv4Addr;
  cd_isolation_id : option string;
  cd_allow : option string;
  cd_mac : option string;
  cd_source : CandidateSource;
  cd_accept : option string;
}.

Record AllowSpec : Type := {
  as_destination_id : string;
  as_port : N;
  as_protocol : IsolationProtocol;
}.

(** ** Identities, MAC addresses and allow-lists *)

Definition identity_char (c : ascii) : bool :=
  is_ascii_lowercase c || is_ascii_digit c
  || Ascii.eqb c "-" || Ascii.eqb c "_" || Ascii.eqb c ".".

Definition valid_identity (value : string) : bool :=
  negb (is_empty value)
  && (String.length value <=? 64)%nat
  && match value with
     | String c _ => is_ascii_lowercase c || is_ascii_digit c
     | EmptyString => false
     end
  && str_forallb identity_char value.

Definition parse_octet (octet : string) : option N :=
  if (String.length octet =? 2)%nat && str_forallb is_ascii_hexdigit octet
  then match octet with
       | String a (String b EmptyString) =>
           x ← hex_val a; y ← hex_val b; Some (x * 16 + y)%N
       | _ => None
       end
  else None.

Definition show_mac (octets : list N) : string := join ":" (hex02 <$> octets).

Definition normalize_mac (raw : string) : option string :=
  octets ← mapM parse_octet (split_char ":" raw);
  if negb (length octets =? 6)%nat
     || (N.land (default 0%N (head octets)) 1 =? 1)%N
     || forallb (N.eqb 0) octets
  then None
  else Some (show_mac octets).

Definition parse_allow_entry (entry : string) : Result AllowSpec string :=
  let? (destination_id, service) :=
    ok_or (split_once ":" entry) ("invalid isolation allowance " +:+ entry) in
  let? (port, protocol) :=
    ok_or (split_once "/" service) ("invalid isolation allowance " +:+ entry) in
  let? _ := ensure (valid_identity destination_id)
    ("invalid isolation destination " +:+ destination_id) in
  let? port :=
    ok_or (p ← parse_u16 port; if (p =? 0)%N then None else Some p)
      ("invalid isolation port in " +:+ entry) in
  let? protocol :=
    if String.eqb protocol "tcp" then Ok Tcp
    else if String.eqb protocol "udp" then Ok Udp
    else Err ("invalid isolation protocol in " +:+ entry) in
  Ok {| as_destination_id := destination_id; as_port := port; as_protocol := protocol |}.

Definition parse_allow_list (raw : string) : Result (list AllowSpec) string :=
  if is_empty (trim raw) then Ok []
  else mapM_res parse_allow_entry (trim <$> split_char "," raw).

(** ** Screening Kubernetes candidates *)

Definition mac_of (c : IsolationCandidate) : option string := c.(cd_mac) ≫= normalize_mac.

(** The order [ipv4_address], then [container_id]. *)
Definition candidate_leb (l r : IsolationCandidate) : bool :=
  (l.(cd_ipv4_address) <? r.(cd_ipv4_address))%N
  || (l.(cd_ipv4_address) =? r.(cd_ipv4_address))%N
     && String.leb l.(cd_container_id) r.(cd_container_id).

Definition is_docker (c : IsolationCandidate) : bool :=
  match c.(cd_source) with Docker => true | Kubernetes => false end.

Definition docker_conflict (docker : list IsolationCandidate) (pod : IsolationCandidate)
    : option string :=
  let docker_addresses : gset N := list_to_set (cd_ipv4_address <$> docker) in
  let docker_macs : gset string := list_to_set (omap mac_of docker) in
  let docker_identities : gset string := list_to_set (omap cd_isolation_id docker) in
  let identity := pod.(cd_isolation_id) in
  if negb (match identity with Some i => valid_identity i | None => false end)
  then Some "has no valid egressy.isolation-id"
  else if bool_decide (pod.(cd_ipv4_address) ∈ docker_addresses)
  then Some "claims a Docker participant's address"
  else if match mac_of pod with Some m => bool_decide (m ∈ docker_macs) | None => false end
  then Some "claims a Docker participant's MAC"
  else if match identity with Some i => bool_decide (i ∈ docker_identities) | None => false end
  then Some "claims a Docker participant's isolation identity"
  else None.

Definition more_than_one (n : option nat) : bool := (1 <? default 0 n)%nat.

Definition pod_duplicated (remaining : list IsolationCandidate) (pod : IsolationCandidate) : bool :=
  let addresses := count_claims (cd_ipv4_address <$> remaining) in
  let macs := count_claims (omap mac_of remaining) in
  let identities := count_claims (omap cd_isolation_id remaining) in
  more_than_one (addresses !! pod.(cd_ipv4_address))
  || match mac_of pod with Some mac => more_than_one (macs !! mac) | None => false end
  || match pod.(cd_isolation_id) with
     | Some identity => more_than_one (identities !! identity)
     | None => false
     end.

Definition screen_kubernetes_candidates (candidates : list IsolationCandidate)
    : list IsolationCandidate * list string :=
  let docker := List.filter is_docker candidates in
  let pods := List.filter (fun c => negb (is_docker c)) candidates in
  if (length pods =? 0)%nat then (docker, [])
  else
    let rejected_by_docker := omap (fun pod =>
      match docker_conflict docker pod with
      | Some problem => Some ("pod " +:+ pod.(cd_name) +:+ " " +:+ problem)
      | None => None
      end) pods in
    let remaining := List.filter (fun pod =>
      match docker_conflict docker pod with Some _ => false | None => true end) pods in
    let rejected_duplicates := omap (fun pod =>
      if pod_duplicated remaining pod
      then Some ("pod " +:+ pod.(cd_name)
                 +:+ " shares an address, MAC or isolation identity with another pod")
      else None) remaining in
    let kept := docker ++ List.filter (fun pod => negb (pod_duplicated remaining pod)) remaining in
    (sort_by candidate_leb kept, rejected_by_docker ++ rejected_duplicates).

(** ** Building the policy *)

(** A candidate's identity, when it is valid. *)
Definition identity_of (c : IsolationCandidate) : option string :=
  value ← c.(cd_isolation_id); if valid_identity value then Some value else None.

(** Candidates by valid identity, and the issues of those without one. *)
Definition collect_identities (candidates : list IsolationCandidate)
    : gmap string (list nat) * list string :=
  (group_push (omap (fun '(index, c) =>
     (fun identity => (identity, index)) <$> identity_of c) (enumerate candidates)),
   omap (fun c =>
     match c.(cd_isolation_id) with
     | Some identity =>
         if valid_identity identity then None
         else Some (c.(cd_name) +:+ " has an invalid egressy.isolation-id")
     | None => Some (c.(cd_name) +:+ " is attached without egressy.isolation-id")
     end) candidates).

Definition duplicate_identity_issues (identities : gmap string (list nat)) : list string :=
  omap (fun '(identity, indexes) =>
    if (1 <? length indexes)%nat
    then Some ("isolation identity " +:+ identity +:+ " is duplicated")
    else None) (btree_iter String.leb identities).

Definition address_claims_of (candidates : list IsolationCandidate) : gmap N nat :=
  count_claims (cd_ipv4_address <$> candidates).

Definition mac_claims_of (candidates : list IsolationCandidate) : gmap string (gset N) :=
  group_insert (omap (fun c =>
    match mac_of c with Some mac => Some (mac, c.(cd_ipv4_address)) | None => None end) candidates).

Definition claim_issues (address_claims : gmap N nat) (mac_claims : gmap string (gset N))
    : list string :=
  omap (fun '(address, claims) =>
    if (1 <? claims)%nat
    then Some ("address " +:+ show_ipv4 address +:+ " is claimed by more than one participant")
    else None) (btree_iter N.leb address_claims)
  ++ omap (fun '(mac, addresses) =>
    if (1 <? size (addresses : gset N))%nat
    then Some ("MAC " +:+ mac +:+ " is claimed by more than one address")
    else None) (btree_iter String.leb mac_claims).

Definition unique_addresses_of (candidates : list IsolationCandidate)
    (identities : gmap string (list nat)) : gmap string N :=
  map_imap (fun _ indexes =>
    match indexes with
    | [index] => cd_ipv4_address <$> candidates !! index
    | _ => None
    end) identities.

(** [split(',').map(str::trim).filter(|entry| !entry.is_empty())] *)
Definition accept_entries (c : IsolationCandidate) : list string :=
  List.filter (fun entry => negb (is_empty entry))
    (trim <$> split_char "," (default "" c.(cd_accept))).

Definition uniquely_identified (unique_addresses : gmap string N) (c : IsolationCandidate) : bool :=
  match c.(cd_isolation_id) with
  | Some identity => bool_decide (is_Some (unique_addresses !! identity))
  | None => false
  end.

Definition accepts_of (unique_addresses : gmap string N) (candidates : list IsolationCandidate)
    : gmap string (gset string) :=
  foldl (fun accepts c =>
    match c.(cd_isolation_id) with
    | Some identity =>
        if uniquely_identified unique_addresses c
        then <[identity := list_to_set (List.filter valid_identity (accept_entries c))]> accepts
        else accepts
    | None => accepts
    end) ∅ candidates.

(** The malformed accept entries of the candidates of one source. *)
Definition accept_problems (source : CandidateSource) (unique_addresses : gmap string N)
    (candidates : list IsolationCandidate) : list string :=
  c ← List.filter (fun c => uniquely_identified unique_addresses c
                            && bool_decide (c.(cd_source) = source)) candidates;
  entry ← List.filter (fun entry => negb (valid_identity entry)) (accept_entries c);
  [c.(cd_name) +:+ ": invalid isolation accept entry " +:+ entry].

Section allowances.
Context (unique_addresses : gmap string N) (accepts : gmap string (gset string)).

(** What one allowance of a candidate becomes. *)
Inductive AllowOutcome : Type :=
| Unresolved (problem : string)
| NotAccepted (rejection : string)
| Allowed (allowance : string * N * N * IsolationProtocol).

Definition accepted_by_destination (c : IsolationCandidate) (destination_id : string) : bool :=
  match c.(cd_isolation_id) with
  | Some source =>
      match accepts !! destination_id with
      | Some accepted => bool_decide (source ∈ accepted)
      | None => false
      end
  | None => false
  end.

Definition allow_outcome (c : IsolationCandidate) (spec : AllowSpec) : AllowOutcome :=
  let destination := spec.(as_destination_id) in
  match unique_addresses !! destination with
  | None =>
      Unresolved (c.(cd_name) +:+ " allows unresolved isolation identity " +:+ destination)
  | Some address =>
      if negb (is_docker c) && negb (accepted_by_destination c destination)
      then NotAccepted (c.(cd_name) +:+ " allows " +:+ destination +:+ " but "
                        +:+ destination +:+ " does not accept it")
      else Allowed (destination, address, spec.(as_port), spec.(as_protocol))
  end.

Definition allow_outcomes (c : IsolationCandidate) : list AllowOutcome :=
  match c.(cd_allow) with
  | None => []
  | Some raw =>
      match parse_allow_list raw with
      | Ok specs => allow_outcome c <$> specs
      | Err error => [Unresolved (c.(cd_name) +:+ ": " +:+ error)]
      end
  end.
End allowances.

Definition outcome_problem (o : AllowOutcome) : option string :=
  match o with Unresolved p => Some p | _ => None end.
Definition outcome_rejection (o : AllowOutcome) : option string :=
  match o with NotAccepted r => Some r | _ => None end.
Definition outcome_allowance (o : AllowOutcome) : option (string * N * N * IsolationProtocol) :=
  match o with Allowed a => Some a | _ => None end.

(** The derived order of the tuples of the allowance [BTreeSet]. *)
Definition protocol_leb (a b : IsolationProtocol) : bool :=
  match a, b with Udp, Tcp => false | _, _ => true end.
Definition allowance_leb (x y : string * N * N * IsolationProtocol) : bool :=
  let '(d1, a1, p1, t1) := x in
  let '(d2, a2, p2, t2) := y in
  String.ltb d1 d2
  || String.eqb d1 d2
     && ((a1 <? a2)%N
         || (a1 =? a2)%N && ((p1 <? p2)%N || (p1 =? p2)%N && protocol_leb t1 t2)).

Definition participant_of (address_claims : gmap N nat) (mac_claims : gmap string (gset N))
    (unique_addresses : gmap string N) (accepts : gmap string (gset string))
    (c : IsolationCandidate) : IsolationParticipant :=
  let allowances : gset (string * N * N * IsolationProtocol) :=
    list_to_set (omap outcome_allowance (allow_outcomes unique_addresses accepts c)) in
  let mac :=
    mac ← mac_of c;
    if bool_decide (address_claims !! c.(cd_ipv4_address) = Some 1%nat)
       && match mac_claims !! mac with
          | Some addresses => (size (addresses : gset N) =? 1)%nat
          | None => false
          end
    then Some mac else None in
  {| pt_container_id := c.(cd_container_id);
     pt_name := c.(cd_name);
     pt_isolation_id := identity_of c;
     pt_ipv4_address := c.(cd_ipv4_address);
     pt_allowances :=
       (fun '(d, a, p, t) =>
          {| al_destination_id := d; al_destination_address := a;
             al_port := p; al_protocol := t |})
       <$> btree_set_iter allowance_leb allowances;
     pt_mac := mac |}.

Definition participant_leb (l r : IsolationParticipant) : bool :=
  (l.(pt_ipv4_address) <? r.(pt_ipv4_address))%N
  || (l.(pt_ipv4_address) =? r.(pt_ipv4_address))%N
     && String.leb l.(pt_container_id) r.(pt_container_id).

(** The allowance problems and rejections of the candidates of one source. *)
Definition allow_problems (source : CandidateSource) (unique_addresses : gmap string N)
    (accepts : gmap string (gset string)) (candidates : list IsolationCandidate) : list string :=
  c ← List.filter (fun c => bool_decide (c.(cd_source) = source)) candidates;
  omap outcome_problem (allow_outcomes unique_addresses accepts c).

Definition allow_rejections (unique_addresses : gmap string N)
    (accepts : gmap string (gset string)) (candidates : list IsolationCandidate) : list string :=
  c ← candidates; omap outcome_rejection (allow_outcomes unique_addresses accepts c).

(** The issues of a screened candidate list, in the order the code pushes them. *)
Definition policy_issues (candidates : list IsolationCandidate) : list string :=
  let '(identities, identity_issues) := collect_identities candidates in
  let unique_addresses := unique_addresses_of candidates identities in
  let accepts := accepts_of unique_addresses candidates in
  identity_issues
  ++ duplicate_identity_issues identities
  ++ claim_issues (address_claims_of candidates) (mac_claims_of candidates)
  ++ accept_problems Docker unique_addresses candidates
  ++ allow_problems Docker unique_addresses accepts candidates.

Definition policy_rejections (candidates : list IsolationCandidate) : list string :=
  let unique_addresses := unique_addresses_of candidates (collect_identities candidates).1 in
  let accepts := accepts_of unique_addresses candidates in
  accept_problems Kubernetes unique_addresses candidates
  ++ allow_rejections unique_addresses accepts candidates
  ++ allow_problems Kubernetes unique_addresses accepts candidates.

Definition policy_participants (candidates : list IsolationCandidate) : list IsolationParticipant :=
  let unique_addresses := unique_addresses_of candidates (collect_identities candidates).1 in
  let accepts := accepts_of unique_addresses candidates in
  sort_by participant_leb
    (participant_of (address_claims_of candidates) (mac_claims_of candidates)
       unique_addresses accepts <$> candidates).

Section policy.
Context `{!IpNetCrate}.

Definition build_policy (network bridge : string) (subnet : Ipv4Net)
    (candidates : list IsolationCandidate) (now : N) : IsolationPolicy :=
  let '(candidates, screened) := screen_kubernetes_candidates candidates in
  let participants := policy_participants candidates in
  let issues := dedup (sort_by String.leb (policy_issues candidates)) in
  let rejected := dedup (sort_by String.leb (screened ++ policy_rejections candidates)) in
  let eligible := negb (length participants =? 0)%nat && (length issues =? 0)%nat in
  {| ip_schema_version := 1;
     ip_generated_at_unix_ms := now;
     ip_network := network;
     ip_bridge := bridge;
     ip_subnet := ipv4net_show subnet;
     ip_eligible_for_enforcement := eligible;
     ip_reason_code :=
       if eligible then "isolation.policy_complete"
       else if (length participants =? 0)%nat then "isolation.no_participants"
       else "isolation.policy_incomplete";
     ip_safe_message :=
       if eligible then
         "Every current bridge participant has a unique valid isolation identity and resolved allow-list"
       else if (length participants =? 0)%nat then
         "No running IPv4 participants are attached to the enrolled bridge"
       else "The isolation policy is incomplete; enforce mode must degrade to audit";
     ip_issues := issues;
     ip_participants := participants;
     ip_ipv6_subnet := None;
     ip_bound_range := None;
     ip_gateway_address := None;
     ip_rejected := rejected |}.
End policy.

(** ** Rendering the bridge ruleset *)

Record CounterValue : Type := { cv_packets : N; cv_bytes : N }.
Definition counter_default : CounterValue := {| cv_packets := 0; cv_bytes := 0 |}.
#[export] Instance CounterValue_eq_dec : EqDecision CounterValue.
Proof. solve_decision. Defined.

Definition safe_counter_component (value : string) : string :=
  str_take 64 (str_filter is_ascii_alphanumeric value).

Definition pair_counter_name (source_id destination_id : string) : string :=
  "isop_" +:+ safe_counter_component source_id +:+ "_" +:+ safe_counter_component destination_id.

Definition verdict (mode : IsolationMode) : string :=
  match mode with Audit => "accept" | Enforce => "drop" | Disabled => "accept" end.

Definition effective_mode_of (eligible : bool) (requested : IsolationMode) : IsolationMode :=
  match requested with
  | Enforce => if eligible then Enforce else Audit
  | mode => mode
  end.

Definition counter_object (name : string) (value : CounterValue) : string :=
  "  counter " +:+ name +:+ " { packets " +:+ show_N value.(cv_packets)
  +:+ " bytes " +:+ show_N value.(cv_bytes) +:+ "; }" +:+ NL.

Definition counter_of (counters : gmap string CounterValue) (name : string) : CounterValue :=
  default counter_default (counters !! name).

(** The ordered pairs of participants with different addresses. *)
Definition participant_pairs (ps : list IsolationParticipant)
    : list (IsolationParticipant * IsolationParticipant) :=
  List.filter (fun '(s, d) => negb (s.(pt_ipv4_address) =? d.(pt_ipv4_address))%N)
    (s ← ps; d ← ps; [(s, d)]).

Definition pair_object (counters : gmap string CounterValue)
    (pair : IsolationParticipant * IsolationParticipant) : string :=
  let name := pair_counter_name pair.1.(pt_container_id) pair.2.(pt_container_id) in
  counter_object name (counter_of counters name).

Definition pair_rule (mode : IsolationMode)
    (pair : IsolationParticipant * IsolationParticipant) : string :=
  "    ip saddr " +:+ show_ipv4 pair.1.(pt_ipv4_address)
  +:+ " ip daddr " +:+ show_ipv4 pair.2.(pt_ipv4_address)
  +:+ " counter name " +:+ pair_counter_name pair.1.(pt_container_id) pair.2.(pt_container_id)
  +:+ " " +:+ verdict mode +:+ NL.

Definition allowance_rule (source : IsolationParticipant) (al : IsolationAllowance) : string :=
  "    ip saddr " +:+ show_ipv4 source.(pt_ipv4_address)
  +:+ " ip daddr " +:+ show_ipv4 al.(al_destination_address)
  +:+ " " +:+ nft_name al.(al_protocol) +:+ " dport " +:+ show_N al.(al_port)
  +:+ " accept" +:+ NL.

(** The rendered allowances are collected in a [BTreeSet]. *)
Definition allowance_rules (ps : list IsolationParticipant) : list string :=
  btree_set_iter String.leb
    (list_to_set (s ← ps; allowance_rule s <$> s.(pt_allowances)) : gset string).

Section render.
Context `{!IpNetCrate}.

Definition spoofed_drop (matches : string) : string :=
  "    " +:+ matches +:+ " counter name isolation_spoofed drop" +:+ NL.

Definition binding_rules (gateway : option Ipv4Addr) (p : IsolationParticipant) : option string :=
  mac ← p.(pt_mac) ≫= normalize_mac;
  let address := show_ipv4 p.(pt_ipv4_address) in
  Some (
    spoofed_drop ("ip saddr " +:+ address +:+ " ether saddr != " +:+ mac)
    +:+ spoofed_drop ("arp saddr ip " +:+ address +:+ " ether saddr != " +:+ mac)
    +:+ (if bool_decide (gateway = Some p.(pt_ipv4_address)) then ""
         else spoofed_drop ("ether saddr " +:+ mac +:+ " ip saddr != " +:+ address)
              +:+ spoofed_drop ("ether saddr " +:+ mac +:+ " arp saddr ip != { " +:+ address
                                +:+ ", 0.0.0.0 }"))).

(** The addresses bound to a MAC. *)
Definition bound_addresses (ps : list IsolationParticipant) : gset N :=
  list_to_set (omap (fun p =>
    match p.(pt_mac) ≫= normalize_mac with
    | Some _ => Some p.(pt_ipv4_address)
    | None => None
    end) ps).

Definition render_address_bindings (policy : IsolationPolicy) : string :=
  match policy.(ip_bound_range) ≫= ipv4net_parse with
  | None => ""
  | Some range =>
      let rules := concat_str (omap (binding_rules policy.(ip_gateway_address))
                                    policy.(ip_participants)) in
      let members := show_ipv4 <$>
        List.filter (ipv4net_contains range)
          (btree_set_iter N.leb (bound_addresses policy.(ip_participants))) in
      let r := ipv4net_show range in
      rules
      +:+ match members with
          | [] => spoofed_drop ("ip saddr " +:+ r) +:+ spoofed_drop ("arp saddr ip " +:+ r)
          | _ =>
              let m := join ", " members in
              spoofed_drop ("ip saddr " +:+ r +:+ " ip saddr != { " +:+ m +:+ " }")
              +:+ spoofed_drop ("arp saddr ip " +:+ r +:+ " arp saddr ip != { " +:+ m +:+ " }")
          end
  end.

(** [None] where the code panics: the subnets of a policy parse (they are
    printed from networks, or checked by the agent that fetched them). *)
Definition ipv6_rules_of (mode : IsolationMode) (policy : IsolationPolicy) : option string :=
  match policy.(ip_ipv6_subnet) with
  | None => Some ""
  | Some subnet =>
      subnet ← ipv6net_parse subnet;
      let s := ipv6net_show subnet in
      Some ("    icmpv6 type { nd-neighbor-solicit, nd-neighbor-advert, packet-too-big, destination-unreachable } accept" +:+ NL
            +:+ "    ip6 saddr { " +:+ s +:+ ", fe80::/10 } ip6 daddr { " +:+ s
            +:+ ", fe80::/10, ff00::/8 } counter name isolation_unresolved "
            +:+ verdict mode +:+ NL)
  end.

Definition render_bridge_policy (policy : IsolationPolicy) (requested_mode : IsolationMode)
    (counters : gmap string CounterValue) : option (IsolationMode * string) :=
  let effective_mode := effective_mode_of policy.(ip_eligible_for_enforcement) requested_mode in
  if bool_decide (effective_mode = Disabled) then Some (effective_mode, "")
  else
    subnet ← ipv4net_parse policy.(ip_subnet);
    bridge_gateway ← ipv4net_first_host subnet;
    let broadcast := ipv4net_broadcast subnet in
    let pairs := participant_pairs policy.(ip_participants) in
    let objects :=
      concat_str (pair_object counters <$> pairs)
      +:+ counter_object "isolation_unresolved" (counter_of counters "isolation_unresolved")
      +:+ match policy.(ip_bound_range) with
          | Some _ => counter_object "isolation_spoofed" (counter_of counters "isolation_spoofed")
          | None => ""
          end in
    let pair_rules := concat_str (pair_rule effective_mode <$> pairs) in
    let bindings := render_address_bindings policy in
    let allowances := concat_str (allowance_rules policy.(ip_participants)) in
    ipv6_rules ← ipv6_rules_of effective_mode policy;
    let s := ipv4net_show subnet in
    Some (effective_mode,
      "table bridge egressy_isolation {" +:+ NL +:+ objects
      +:+ "  chain forward {" +:+ NL
      +:+ "    type filter hook forward priority -10; policy accept;" +:+ NL
      +:+ bindings
      +:+ "    ct state established,related accept" +:+ NL
      +:+ "    ct status dnat accept" +:+ NL
      +:+ "    ip saddr " +:+ show_ipv4 bridge_gateway +:+ " ip daddr "
      +:+ show_ipv4 broadcast +:+ " accept" +:+ NL
      +:+ allowances +:+ pair_rules
      +:+ "    ip saddr " +:+ s +:+ " ip daddr " +:+ s
      +:+ " counter name isolation_unresolved " +:+ verdict effective_mode +:+ NL
      +:+ ipv6_rules +:+ "  }" +:+ NL +:+ "}" +:+ NL).
End render.
