(* ===== verification/IsolationProps.v ===== *)
(** Properties of the isolation policy: what the screening of Kubernetes
    candidates guarantees, what an eligible policy promises, and that a pod can
    neither degrade the bridge nor open a destination that did not accept it. *)

From S2P Require Import Prelude RustStr Net BTree Isolation.

(** ** Screening *)

Definition docker_of (cs : list IsolationCandidate) : list IsolationCandidate :=
  List.filter is_docker cs.
Definition pods_of (cs : list IsolationCandidate) : list IsolationCandidate :=
  List.filter (fun c => negb (is_docker c)) cs.
Definition remaining_pods (cs : list IsolationCandidate) : list IsolationCandidate :=
  List.filter (fun pod =>
    match docker_conflict (docker_of cs) pod with Some _ => false | None => true end) (pods_of cs).
Definition kept_pods (cs : list IsolationCandidate) : list IsolationCandidate :=
  List.filter (fun pod => negb (pod_duplicated (remaining_pods cs) pod)) (remaining_pods cs).
Definition screened (cs : list IsolationCandidate) : list IsolationCandidate :=
  (screen_kubernetes_candidates cs).1.

Lemma screened_perm cs : screened cs ≡ₚ docker_of cs ++ kept_pods cs.
Proof.
  unfold screened, screen_kubernetes_candidates, kept_pods, remaining_pods.
  fold (docker_of cs) (pods_of cs). destruct (pods_of cs) as [|p ps] eqn:E; cbn [length Nat.eqb fst].
  - cbn. by rewrite app_nil_r.
  - apply sort_by_perm.
Qed.

Lemma screened_docker_only cs : pods_of cs = [] -> screened cs = docker_of cs.
Proof.
  intros E. unfold screened, screen_kubernetes_candidates.
  fold (docker_of cs) (pods_of cs). by rewrite E.
Qed.

Lemma docker_of_idemp cs : docker_of (docker_of cs) = docker_of cs.
Proof.
  unfold docker_of. induction cs as [|c cs IH]; [done|]; cbn.
  destruct (is_docker c) eqn:E; cbn; [by rewrite E, IH|done].
Qed.

Lemma pods_of_docker_of cs : pods_of (docker_of cs) = [].
Proof.
  unfold docker_of, pods_of. induction cs as [|c cs IH]; [done|]; cbn.
  destruct (is_docker c) eqn:E; cbn; [by rewrite E, IH|done].
Qed.

Lemma screened_docker_of cs : screened (docker_of cs) = docker_of cs.
Proof. rewrite screened_docker_only; [apply docker_of_idemp | apply pods_of_docker_of]. Qed.

Lemma more_than_one_count `{Countable K} (l : list K) k :
  more_than_one (count_claims l !! k) = (1 <? occurrences k l)%nat.
Proof.
  rewrite count_claims_lookup. unfold more_than_one, positive_count.
  by destruct (Nat.eqb_spec (occurrences k l) 0) as [->|].
Qed.

Definition ip_key (c : IsolationCandidate) : option N := Some c.(cd_ipv4_address).

Lemma omap_ip_key (cs : list IsolationCandidate) : omap ip_key cs = cd_ipv4_address <$> cs.
Proof. induction cs as [|c cs IH]; [done|]. rewrite omap_cons_eq, IH. done. Qed.

Lemma pod_duplicated_false (R : list IsolationCandidate) c :
  pod_duplicated R c = false <->
  (occurrences c.(cd_ipv4_address) (omap ip_key R) <= 1)%nat /\
  (forall m, mac_of c = Some m -> occurrences m (omap mac_of R) <= 1)%nat /\
  (forall i, c.(cd_isolation_id) = Some i -> occurrences i (omap cd_isolation_id R) <= 1)%nat.
Proof.
  unfold pod_duplicated. rewrite !orb_false_iff, more_than_one_count, Nat.ltb_ge, omap_ip_key.
  destruct (mac_of c), (cd_isolation_id c); rewrite ?more_than_one_count, ?Nat.ltb_ge;
    naive_solver.
Qed.

Lemma docker_conflict_None (D : list IsolationCandidate) c :
  docker_conflict D c = None <->
  (exists i, c.(cd_isolation_id) = Some i /\ valid_identity i = true
             /\ i ∉ omap cd_isolation_id D) /\
  c.(cd_ipv4_address) ∉ omap ip_key D /\
  (forall m, mac_of c = Some m -> m ∉ omap mac_of D).
Proof.
  unfold docker_conflict. rewrite omap_ip_key.
  destruct (cd_isolation_id c) as [i|]; cbn [negb];
    [|by split; [|intros [(? & [=] & _) _]]].
  destruct (valid_identity i) eqn:Ev; cbn [negb];
    [|split; [done|]; intros [(? & [= <-] & ? & _) _]; congruence].
  repeat first [case_bool_decide as Hd | case_match]; simplify_bools;
    rewrite ?elem_of_list_to_set in *; split; try done;
    try (intros [(? & [= <-] & _ & ?) [? Hm]]; by try destruct (Hm _ eq_refl)).
  - intros _. split; [by exists i|]. split; [done|]. by intros ? [= <-].
  - intros _. split; [by exists i|]. by split.
Qed.

Lemma elem_of_kept_pods cs c :
  c ∈ kept_pods cs ->
  c ∈ cs /\ is_docker c = false /\ docker_conflict (docker_of cs) c = None /\
  pod_duplicated (remaining_pods cs) c = false.
Proof.
  unfold kept_pods, remaining_pods, pods_of. rewrite !elem_of_bfilter, !negb_true_iff.
  intros [[[??] ?] ?]. by destruct (docker_conflict _ c).
Qed.

Lemma elem_of_docker_of cs c : c ∈ docker_of cs <-> c ∈ cs /\ is_docker c = true.
Proof. apply elem_of_bfilter. Qed.

Lemma elem_of_screened cs c :
  c ∈ screened cs <-> (c ∈ cs /\ is_docker c = true) \/ c ∈ kept_pods cs.
Proof. by rewrite screened_perm, elem_of_app; unfold docker_of; rewrite elem_of_bfilter. Qed.

Lemma occurrences_omap_filter {A} `{Countable K} (f : A -> option K) (p : A -> bool) k (l : list A) :
  (occurrences k (omap f (List.filter p l)) <= occurrences k (omap f l))%nat.
Proof.
  induction l as [|x l IH]; [done|]. cbn [List.filter].
  destruct (p x); rewrite ?omap_cons_eq; destruct (f x); rewrite ?occurrences_cons; lia.
Qed.

(** A key [f] is separated when what the kept pods claim, no Docker candidate
    claims, and no two of them claim. *)
Definition separated `{Countable K} (f : IsolationCandidate -> option K)
    (D P : list IsolationCandidate) : Prop :=
  forall k, k ∈ omap f P -> k ∉ omap f D /\ (occurrences k (omap f P) <= 1)%nat.

Lemma separated_kept `{Countable K} (f : IsolationCandidate -> option K) cs :
  (forall c k, c ∈ kept_pods cs -> f c = Some k ->
     k ∉ omap f (docker_of cs) /\ (occurrences k (omap f (remaining_pods cs)) <= 1)%nat) ->
  separated f (docker_of cs) (kept_pods cs).
Proof.
  intros Hf k Hk. apply list_elem_of_omap in Hk as (c & Hc & Hk).
  destruct (Hf c k Hc Hk) as [Hd Hr]. split; [done|].
  pose proof (occurrences_omap_filter f
    (fun pod => negb (pod_duplicated (remaining_pods cs) pod)) k (remaining_pods cs)).
  fold (kept_pods cs) in *. lia.
Qed.

Lemma addresses_separated cs : separated ip_key (docker_of cs) (kept_pods cs).
Proof.
  apply separated_kept. intros c k (_ & _ & Hd & Hr)%elem_of_kept_pods [= <-].
  apply docker_conflict_None in Hd. apply pod_duplicated_false in Hr. naive_solver.
Qed.

Lemma macs_separated cs : separated mac_of (docker_of cs) (kept_pods cs).
Proof.
  apply separated_kept. intros c k (_ & _ & Hd & Hr)%elem_of_kept_pods Hk.
  apply docker_conflict_None in Hd. apply pod_duplicated_false in Hr. naive_solver.
Qed.

Lemma identities_separated cs : separated cd_isolation_id (docker_of cs) (kept_pods cs).
Proof.
  apply separated_kept. intros c k (_ & _ & Hd & Hr)%elem_of_kept_pods Hk.
  apply docker_conflict_None in Hd. apply pod_duplicated_false in Hr. naive_solver.
Qed.

Lemma occurrences_screened `{Countable K} (f : IsolationCandidate -> option K) cs k :
  occurrences k (omap f (screened cs))
  = (occurrences k (omap f (docker_of cs)) + occurrences k (omap f (kept_pods cs)))%nat.
Proof.
  rewrite <- occurrences_app, <- omap_app. apply occurrences_perm.
  by rewrite (screened_perm cs).
Qed.

Lemma separated_many `{Countable K} (f : IsolationCandidate -> option K) cs k :
  separated f (docker_of cs) (kept_pods cs) ->
  (1 < occurrences k (omap f (screened cs)))%nat ->
  k ∉ omap f (kept_pods cs) /\
  occurrences k (omap f (docker_of cs)) = occurrences k (omap f (screened cs)).
Proof.
  intros Hs Hk. rewrite occurrences_screened in *.
  assert (k ∉ omap f (kept_pods cs)) as Hn.
  { intros Hin. destruct (Hs k Hin) as [Hd%occurrences_zero Hp]. lia. }
  split; [done|]. apply occurrences_zero in Hn. lia.
Qed.

Lemma separated_one `{Countable K} (f : IsolationCandidate -> option K) cs k :
  separated f (docker_of cs) (kept_pods cs) ->
  k ∈ omap f (docker_of cs) ->
  occurrences k (omap f (screened cs)) = occurrences k (omap f (docker_of cs)).
Proof.
  intros Hs Hk. rewrite occurrences_screened.
  assert (k ∉ omap f (kept_pods cs)) as Hn%occurrences_zero; [|lia].
  intros Hin. by destruct (Hs k Hin).
Qed.

(** ** What the tables of the builder hold *)

Lemma identity_of_Some c i :
  identity_of c = Some i <-> c.(cd_isolation_id) = Some i /\ valid_identity i = true.
Proof.
  unfold identity_of. destruct (cd_isolation_id c) as [j|]; cbn; [|naive_solver].
  destruct (valid_identity j) eqn:E; split; try (intros [= <-]; done); intros [[= <-] ?]; congruence.
Qed.

Lemma occurrences_identity_of cs i :
  valid_identity i = true ->
  occurrences i (omap identity_of cs) = occurrences i (omap cd_isolation_id (cs : list _)).
Proof.
  intros Hi. induction cs as [|c cs IH]; [done|]. rewrite !omap_cons_eq.
  destruct (identity_of c) as [j|] eqn:E.
  - apply identity_of_Some in E as [-> _]. by rewrite !occurrences_cons, IH.
  - destruct (cd_isolation_id c) as [j|] eqn:Ej; [|done].
    rewrite occurrences_cons, decide_False, IH; [done|].
    intros ->. assert (identity_of c = Some i) by (by apply identity_of_Some). congruence.
Qed.

Lemma identities_lookup cs i vs :
  (collect_identities cs).1 !! i = Some vs ->
  length vs = occurrences i (omap identity_of cs) /\
  (forall n, n ∈ vs <-> exists c, cs !! n = Some c /\ identity_of c = Some i).
Proof.
  cbn. intros [-> _]%group_push_lookup. split.
  - apply (length_values_at_enumerate identity_of).
  - intros n. rewrite elem_of_values_at, list_elem_of_omap. split.
    + intros ([m c] & Hc%elem_of_enumerate & Hi).
      destruct (identity_of c) eqn:E; cbn in Hi; [|done]. injection Hi as -> ->. eauto.
    + intros (c & Hc & Hi). exists (n, c). rewrite elem_of_enumerate, Hi. done.
Qed.

Lemma identities_some cs i :
  (0 < occurrences i (omap identity_of cs))%nat ->
  exists vs, (collect_identities cs).1 !! i = Some vs.
Proof.
  intros Hi. cbn. eexists. apply group_push_lookup. split; [done|].
  pose proof (length_values_at_enumerate identity_of i 0 cs) as Hl.
  fold (enumerate cs) in Hl. intros Hn. rewrite Hn in Hl. cbn in Hl. lia.
Qed.

Definition unique_addresses (cs : list IsolationCandidate) : gmap string N :=
  unique_addresses_of cs (collect_identities cs).1.

Lemma unique_addresses_lookup cs i a :
  unique_addresses cs !! i = Some a <->
  occurrences i (omap identity_of cs) = 1%nat /\
  exists c, c ∈ cs /\ identity_of c = Some i /\ c.(cd_ipv4_address) = a.
Proof.
  unfold unique_addresses, unique_addresses_of. rewrite map_lookup_imap. split.
  - destruct ((collect_identities cs).1 !! i) as [vs|] eqn:E; cbn; [|done].
    apply identities_lookup in E as [Hlen Hvs].
    destruct vs as [|n [|]]; try done. intros Ha. split; [done|].
    destruct (proj1 (Hvs n)) as (c & Hc & Hi); [set_solver|].
    rewrite Hc in Ha. injection Ha as <-. exists c. split; [by eapply list_elem_of_lookup_2|done].
  - intros (Hone & c & Hc & Hi & <-).
    destruct (identities_some cs i ltac:(lia)) as [vs E]. rewrite E. cbn.
    apply identities_lookup in E as [Hlen Hvs].
    apply list_elem_of_lookup in Hc as [n Hc].
    assert (n ∈ vs) as Hn by (apply Hvs; eauto).
    destruct vs as [|m [|]]; cbn in Hlen; [lia| |lia].
    apply list_elem_of_singleton in Hn as ->. by rewrite Hc.
Qed.

Lemma unique_addresses_is_Some cs i :
  is_Some (unique_addresses cs !! i) <-> occurrences i (omap identity_of cs) = 1%nat.
Proof.
  split; [by intros [a [? _]%unique_addresses_lookup]|].
  intros Hone.
  assert (i ∈ omap identity_of cs) as (c & Hc & Hi)%list_elem_of_omap
    by (apply occurrences_pos; lia).
  exists c.(cd_ipv4_address). apply unique_addresses_lookup. eauto.
Qed.

Definition mac_pairs (cs : list IsolationCandidate) : list (string * N) :=
  omap (fun c =>
    match mac_of c with Some mac => Some (mac, c.(cd_ipv4_address)) | None => None end) cs.

Lemma elem_of_mac_pairs cs m a :
  (m, a) ∈ mac_pairs cs <-> exists c, c ∈ cs /\ mac_of c = Some m /\ c.(cd_ipv4_address) = a.
Proof.
  unfold mac_pairs. rewrite list_elem_of_omap.
  split; intros (c & Hc & Hm); exists c; destruct (mac_of c); naive_solver.
Qed.

(** The addresses claiming a MAC. *)
Definition mac_addresses (cs : list IsolationCandidate) (m : string) : gset N :=
  list_to_set (values_at m (mac_pairs cs)).

Lemma elem_of_mac_addresses cs m a :
  a ∈ mac_addresses cs m <-> exists c, c ∈ cs /\ mac_of c = Some m /\ c.(cd_ipv4_address) = a.
Proof. unfold mac_addresses. by rewrite elem_of_list_to_set, elem_of_values_at, elem_of_mac_pairs. Qed.

Lemma mac_claims_lookup cs m s : mac_claims_of cs !! m = Some s -> s = mac_addresses cs m.
Proof. apply group_insert_lookup. Qed.

Lemma mac_claims_some cs c m :
  c ∈ cs -> mac_of c = Some m -> mac_claims_of cs !! m = Some (mac_addresses cs m).
Proof.
  intros Hc Hm. unfold mac_claims_of. eapply (group_insert_some _ m c.(cd_ipv4_address)).
  apply elem_of_mac_pairs. eauto.
Qed.

Lemma address_claims_lookup cs a n :
  address_claims_of cs !! a = Some n -> n = occurrences a (omap ip_key cs).
Proof. intros Hn. rewrite omap_ip_key. by apply count_claims_many. Qed.

(** ** The issues of a policy, one constructor per [issues.push] *)

Inductive Issue (cs : list IsolationCandidate) : string -> Prop :=
| issue_invalid c i :
    c ∈ cs -> c.(cd_isolation_id) = Some i -> valid_identity i = false ->
    Issue cs (c.(cd_name) +:+ " has an invalid egressy.isolation-id")
| issue_missing c :
    c ∈ cs -> c.(cd_isolation_id) = None ->
    Issue cs (c.(cd_name) +:+ " is attached without egressy.isolation-id")
| issue_duplicate i :
    (1 < occurrences i (omap identity_of cs))%nat ->
    Issue cs ("isolation identity " +:+ i +:+ " is duplicated")
| issue_address a :
    (1 < occurrences a (omap ip_key cs))%nat ->
    Issue cs ("address " +:+ show_ipv4 a +:+ " is claimed by more than one participant")
| issue_mac m :
    (1 < size (mac_addresses cs m))%nat ->
    Issue cs ("MAC " +:+ m +:+ " is claimed by more than one address")
| issue_accept c i entry :
    c ∈ cs -> is_docker c = true -> identity_of c = Some i ->
    occurrences i (omap identity_of cs) = 1%nat ->
    entry ∈ accept_entries c -> valid_identity entry = false ->
    Issue cs (c.(cd_name) +:+ ": invalid isolation accept entry " +:+ entry)
| issue_allow_malformed c raw error :
    c ∈ cs -> is_docker c = true -> c.(cd_allow) = Some raw ->
    parse_allow_list raw = Err error ->
    Issue cs (c.(cd_name) +:+ ": " +:+ error)
| issue_allow_unresolved c raw specs spec :
    c ∈ cs -> is_docker c = true -> c.(cd_allow) = Some raw ->
    parse_allow_list raw = Ok specs -> spec ∈ specs ->
    occurrences spec.(as_destination_id) (omap identity_of cs) <> 1%nat ->
    Issue cs (c.(cd_name) +:+ " allows unresolved isolation identity "
              +:+ spec.(as_destination_id)).

Definition policy_accepts (cs : list IsolationCandidate) : gmap string (gset string) :=
  accepts_of (unique_addresses cs) cs.

Lemma policy_issues_eq cs :
  policy_issues cs =
  (collect_identities cs).2
  ++ duplicate_identity_issues (collect_identities cs).1
  ++ claim_issues (address_claims_of cs) (mac_claims_of cs)
  ++ accept_problems Docker (unique_addresses cs) cs
  ++ allow_problems Docker (unique_addresses cs) (policy_accepts cs) cs.
Proof. done. Qed.

Lemma identity_issues_iff cs s :
  s ∈ (collect_identities cs).2 <->
  exists c, c ∈ cs /\
    ((exists i, c.(cd_isolation_id) = Some i /\ valid_identity i = false /\
                s = c.(cd_name) +:+ " has an invalid egressy.isolation-id")
     \/ c.(cd_isolation_id) = None /\
        s = c.(cd_name) +:+ " is attached without egressy.isolation-id").
Proof.
  cbn. rewrite list_elem_of_omap. split; intros (c & Hc & Hs); exists c; (split; [done|]).
  - destruct (cd_isolation_id c) as [i|]; [|naive_solver].
    destruct (valid_identity i) eqn:E; naive_solver.
  - destruct (cd_isolation_id c) as [i|]; [|naive_solver].
    destruct (valid_identity i) eqn:E; naive_solver congruence.
Qed.

Lemma duplicate_issues_iff cs s :
  s ∈ duplicate_identity_issues (collect_identities cs).1 <->
  exists i, (1 < occurrences i (omap identity_of cs))%nat /\
            s = "isolation identity " +:+ i +:+ " is duplicated".
Proof.
  unfold duplicate_identity_issues. rewrite list_elem_of_omap. split.
  - intros ([i vs] & Hi%elem_of_btree_iter & Hs).
    apply identities_lookup in Hi as [Hlen _]. case_match eqn:E; simplify_bools; [|done].
    exists i. rewrite <- Hlen. naive_solver.
  - intros (i & Hi & ->). destruct (identities_some cs i ltac:(lia)) as [vs Hvs].
    exists (i, vs). rewrite elem_of_btree_iter. split; [done|].
    apply identities_lookup in Hvs as [-> _]. by rewrite (proj2 (Nat.ltb_lt _ _) Hi).
Qed.

Lemma claim_issues_iff cs s :
  s ∈ claim_issues (address_claims_of cs) (mac_claims_of cs) <->
  (exists a, (1 < occurrences a (omap ip_key cs))%nat /\
             s = "address " +:+ show_ipv4 a +:+ " is claimed by more than one participant")
  \/ (exists m, (1 < size (mac_addresses cs m))%nat /\
                s = "MAC " +:+ m +:+ " is claimed by more than one address").
Proof.
  unfold claim_issues. rewrite elem_of_app, !list_elem_of_omap. split.
  - intros [([a n] & Ha%elem_of_btree_iter & Hs)|([m A] & Hm%elem_of_btree_iter & Hs)].
    + apply address_claims_lookup in Ha as ->. case_match; simplify_bools; naive_solver.
    + apply mac_claims_lookup in Hm as ->. case_match; simplify_bools; naive_solver.
  - intros [(a & Ha & ->)|(m & Hm & ->)]; [left|right].
    + exists (a, occurrences a (omap ip_key cs)). rewrite elem_of_btree_iter.
      unfold address_claims_of. rewrite count_claims_lookup, <- omap_ip_key.
      unfold positive_count. destruct (Nat.eqb_spec (occurrences a (omap ip_key cs)) 0); [lia|].
      by rewrite (proj2 (Nat.ltb_lt _ _) Ha).
    + exists (m, mac_addresses cs m). rewrite elem_of_btree_iter.
      rewrite (proj2 (Nat.ltb_lt _ _) Hm). split; [|done].
      assert (exists a, a ∈ mac_addresses cs m) as [a (c & Hc & Hcm & _)%elem_of_mac_addresses].
      { apply set_choose_L. intros E. rewrite E, size_empty in Hm. lia. }
      by eapply mac_claims_some.
Qed.

Lemma uniquely_identified_iff cs c :
  uniquely_identified (unique_addresses cs) c = true <->
  exists i, identity_of c = Some i /\ occurrences i (omap identity_of cs) = 1%nat.
Proof.
  unfold uniquely_identified. destruct (cd_isolation_id c) as [i|] eqn:E.
  - rewrite bool_decide_true, unique_addresses_is_Some. split.
    + intros Hone. exists i. split; [|done].
      assert (i ∈ omap identity_of cs) as (d & _ & Hd)%list_elem_of_omap
        by (apply occurrences_pos; lia).
      apply identity_of_Some in Hd as [_ Hv]. by apply identity_of_Some.
    + intros (j & Hj & Hone). apply identity_of_Some in Hj as [Hj _]. congruence.
  - split; [done|]. intros (i & Hi & _). apply identity_of_Some in Hi as [Hi _]. congruence.
Qed.

Lemma is_docker_source c : is_docker c = bool_decide (c.(cd_source) = Docker).
Proof. unfold is_docker. by destruct (cd_source c). Qed.

#[local] Opaque accept_entries.

Lemma accept_problems_iff cs s :
  s ∈ accept_problems Docker (unique_addresses cs) cs <->
  exists c i entry, c ∈ cs /\ is_docker c = true /\ identity_of c = Some i /\
    occurrences i (omap identity_of cs) = 1%nat /\
    entry ∈ accept_entries c /\ valid_identity entry = false /\
    s = c.(cd_name) +:+ ": invalid isolation accept entry " +:+ entry.
Proof.
  unfold accept_problems. rewrite list_elem_of_bind.
  setoid_rewrite elem_of_bfilter. setoid_rewrite andb_true_iff.
  setoid_rewrite <- is_docker_source. setoid_rewrite uniquely_identified_iff.
  setoid_rewrite list_elem_of_bind. setoid_rewrite elem_of_bfilter.
  setoid_rewrite negb_true_iff. setoid_rewrite list_elem_of_singleton. split.
  - intros (c & (entry & -> & ? & ?) & ? & (i & ? & ?) & ?). exists c, i, entry. by split_and!.
  - intros (c & i & entry & ? & ? & ? & ? & ? & ? & ->). exists c.
    split; [by exists entry|]. split; [done|]. split; [by exists i|done].
Qed.

Lemma allow_problems_iff cs s :
  s ∈ allow_problems Docker (unique_addresses cs) (policy_accepts cs) cs <->
  exists c raw, c ∈ cs /\ is_docker c = true /\ c.(cd_allow) = Some raw /\
    ((exists error, parse_allow_list raw = Err error /\ s = c.(cd_name) +:+ ": " +:+ error)
     \/ (exists specs spec, parse_allow_list raw = Ok specs /\ spec ∈ specs /\
           occurrences spec.(as_destination_id) (omap identity_of cs) <> 1%nat /\
           s = c.(cd_name) +:+ " allows unresolved isolation identity "
               +:+ spec.(as_destination_id))).
Proof.
  unfold allow_problems. rewrite list_elem_of_bind. setoid_rewrite elem_of_bfilter.
  setoid_rewrite <- is_docker_source. setoid_rewrite list_elem_of_omap.
  assert (forall c spec p, is_docker c = true ->
    outcome_problem (allow_outcome (unique_addresses cs) (policy_accepts cs) c spec) = Some p <->
    occurrences spec.(as_destination_id) (omap identity_of cs) <> 1%nat /\
    p = c.(cd_name) +:+ " allows unresolved isolation identity "
        +:+ spec.(as_destination_id)) as Hout.
  { intros c spec p Hd. unfold allow_outcome. rewrite Hd. cbn [negb andb].
    pose proof (unique_addresses_is_Some cs spec.(as_destination_id)) as Hu.
    destruct (unique_addresses cs !! _); cbn.
    - split; [done|]. intros [Hn _]. by destruct Hn, Hu; eauto.
    - rewrite <- Hu. split; [intros [= <-]; split; [|done] | by intros [_ ->]].
      by intros [? [=]]. }
  unfold allow_outcomes. split.
  - intros (c & (o & Ho & Hp) & Hc & Hd). exists c.
    destruct (cd_allow c) as [raw|]; [|by apply elem_of_nil in Ho]. exists raw.
    destruct (parse_allow_list raw) as [specs|error] eqn:E.
    + apply list_elem_of_fmap in Ho as (spec & -> & Hspec).
      apply (Hout c spec s Hd) in Hp. naive_solver.
    + apply list_elem_of_singleton in Ho as ->. injection Hp as <-. naive_solver.
  - intros (c & raw & Hc & Hd & Hraw & Hs). exists c. rewrite Hraw.
    destruct Hs as [(error & -> & ->)|(specs & spec & -> & Hspec & Hs)].
    + split; [|done]. eexists. by rewrite list_elem_of_singleton.
    + split; [|done]. eexists. split; [by apply list_elem_of_fmap; eauto|]. by apply Hout.
Qed.

Lemma policy_issues_iff cs s : s ∈ policy_issues cs <-> Issue cs s.
Proof.
  rewrite policy_issues_eq, !elem_of_app, identity_issues_iff, duplicate_issues_iff,
    claim_issues_iff, accept_problems_iff, allow_problems_iff. split.
  - intros Hs. decompose_all; subst; eauto using Issue.
  - destruct 1.
    + naive_solver.
    + naive_solver.
    + right; left. eauto.
    + right; right; left. eauto.
    + right; right; left. eauto.
    + right; right; right; left. naive_solver.
    + do 4 right. eauto 10.
    + do 4 right. eauto 15.
Qed.

(** ** A pod cannot degrade the bridge *)

Lemma occurrences_identity_pos cs i :
  (0 < occurrences i (omap identity_of cs))%nat -> valid_identity i = true.
Proof.
  intros (c & _ & Hc)%occurrences_pos%list_elem_of_omap. by apply identity_of_Some in Hc as [_ ?].
Qed.

Lemma identity_separated_many cs i :
  (1 < occurrences i (omap identity_of (screened cs)))%nat ->
  (1 < occurrences i (omap identity_of (docker_of cs)))%nat.
Proof.
  intros Hi. pose proof (occurrences_identity_pos (screened cs) i ltac:(lia)) as Hv.
  rewrite occurrences_identity_of in * by done.
  apply (separated_many cd_isolation_id) in Hi as Hd; [|apply identities_separated]. lia.
Qed.

Lemma identity_separated_one cs i :
  (0 < occurrences i (omap identity_of (docker_of cs)))%nat ->
  occurrences i (omap identity_of (screened cs)) = occurrences i (omap identity_of (docker_of cs)).
Proof.
  intros Hi. pose proof (occurrences_identity_pos _ i Hi) as Hv.
  rewrite !occurrences_identity_of in * by done.
  apply (separated_one cd_isolation_id); [apply identities_separated|]. by apply occurrences_pos.
Qed.

Lemma size_list_to_set_le `{Countable A} (l : list A) :
  (size (list_to_set l : gset A) <= length l)%nat.
Proof.
  induction l as [|x l IH]; [done|]. cbn [list_to_set length].
  pose proof (size_union_alt {[x]} (list_to_set l : gset A)) as Hu.
  rewrite size_singleton in Hu.
  assert (size ((list_to_set l : gset A) ∖ {[x]}) <= size (list_to_set l : gset A))%nat
    by (apply subseteq_size; set_solver). lia.
Qed.

Lemma size_mac_addresses cs m :
  (size (mac_addresses cs m) <= occurrences m (omap mac_of cs))%nat.
Proof.
  unfold mac_addresses. etransitivity; [apply size_list_to_set_le|].
  unfold mac_pairs. induction cs as [|c cs IH]; [done|]. rewrite !omap_cons_eq.
  destruct (mac_of c); [|done]. rewrite values_at_cons, occurrences_cons, length_app.
  cbn [fst]. case_decide; cbn [length]; lia.
Qed.

Lemma mac_separated_many cs m :
  (1 < size (mac_addresses (screened cs) m))%nat ->
  mac_addresses (docker_of cs) m = mac_addresses (screened cs) m.
Proof.
  intros Hm. pose proof (size_mac_addresses (screened cs) m).
  destruct (separated_many mac_of cs m (macs_separated cs)) as [Hn _]; [lia|].
  apply set_eq. intros a. rewrite !elem_of_mac_addresses.
  setoid_rewrite elem_of_screened. setoid_rewrite elem_of_docker_of. split.
  - intros (c & Hc & Ha). exists c. tauto.
  - intros (c & [Hc|Hc] & Hcm & Ha); [by exists c|].
    destruct Hn. apply list_elem_of_omap. eauto.
Qed.

Lemma screened_not_pod cs c :
  c ∈ screened cs -> identity_of c = None -> c ∈ docker_of cs.
Proof.
  rewrite elem_of_screened. unfold docker_of. rewrite elem_of_bfilter. intros [?|Hc] Hi; [done|].
  apply elem_of_kept_pods in Hc as (_ & _ & Hc & _).
  apply docker_conflict_None in Hc as [(i & Hci & Hv & _) _].
  rewrite (proj2 (identity_of_Some c i)) in Hi; done.
Qed.

Lemma screened_docker cs c : c ∈ screened cs -> is_docker c = true -> c ∈ docker_of cs.
Proof.
  rewrite elem_of_screened. unfold docker_of. rewrite elem_of_bfilter. intros [?|Hc] Hd; [done|].
  apply elem_of_kept_pods in Hc as (_ & Hc & _). congruence.
Qed.
#[local] Hint Resolve screened_docker screened_not_pod : egressy.

Lemma identity_of_None c :
  identity_of c = None <->
  c.(cd_isolation_id) = None \/ exists i, c.(cd_isolation_id) = Some i /\ valid_identity i = false.
Proof.
  unfold identity_of. destruct (cd_isolation_id c) as [i|]; cbn; [|naive_solver].
  destruct (valid_identity i) eqn:E; naive_solver congruence.
Qed.

Lemma issue_screened cs s : Issue (screened cs) s -> Issue (docker_of cs) s.
Proof.
  destruct 1 as [c i Hc Hi Hv|c Hc Hi|i Hi|a Ha|m Hm|c i e Hc Hd Hi H1 He Hv
                |c raw e Hc Hd Hr He|c raw specs spec Hc Hd Hr Hp Hs Hn].
  - eapply issue_invalid; eauto. eapply screened_not_pod; [done|]. apply identity_of_None. eauto.
  - eapply issue_missing; eauto. eapply screened_not_pod; [done|]. apply identity_of_None. eauto.
  - by apply issue_duplicate, identity_separated_many.
  - apply issue_address.
    apply (separated_many ip_key) in Ha as Hd; [|apply addresses_separated]. lia.
  - apply issue_mac. by rewrite mac_separated_many.
  - assert (c ∈ docker_of cs) as Hcd by eauto with egressy.
    eapply issue_accept; eauto. rewrite <- identity_separated_one; [done|].
    apply occurrences_pos, list_elem_of_omap. eauto.
  - eapply issue_allow_malformed; eauto with egressy.
  - eapply issue_allow_unresolved; eauto with egressy. intros Hone. apply Hn.
    rewrite identity_separated_one; lia.
Qed.

(** ** Participants and their allowances *)

Lemma occurrences_one_inj {A} `{Countable K} (f : A -> option K) l c d k :
  (occurrences k (omap f l) <= 1)%nat ->
  c ∈ l -> d ∈ l -> f c = Some k -> f d = Some k -> c = d.
Proof.
  intros Hone Hc Hd Hfc Hfd. induction l as [|x l IH]; [by apply elem_of_nil in Hc|].
  assert (forall y, y ∈ l -> f y = Some k -> (0 < occurrences k (omap f l))%nat) as Hpos.
  { intros y Hy Hfy. apply occurrences_pos, list_elem_of_omap. eauto. }
  rewrite omap_cons_eq in Hone. apply elem_of_cons in Hc as [->|Hc], Hd as [->|Hd]; [done|..].
  - rewrite Hfc, occurrences_cons, decide_True in Hone by done. specialize (Hpos d Hd Hfd). lia.
  - rewrite Hfd, occurrences_cons, decide_True in Hone by done. specialize (Hpos c Hc Hfc). lia.
  - apply IH; [|done..]. destruct (f x); [rewrite occurrences_cons in Hone|]; lia.
Qed.

Definition participant (cs : list IsolationCandidate) (c : IsolationCandidate)
    : IsolationParticipant :=
  participant_of (address_claims_of cs) (mac_claims_of cs) (unique_addresses cs)
    (policy_accepts cs) c.

Lemma policy_participants_perm cs : policy_participants cs ≡ₚ participant cs <$> cs.
Proof. unfold policy_participants. apply sort_by_perm. Qed.

Lemma elem_of_policy_participants cs p :
  p ∈ policy_participants cs <-> exists c, c ∈ cs /\ p = participant cs c.
Proof. rewrite policy_participants_perm, list_elem_of_fmap. naive_solver. Qed.

Lemma fmap_all_Some {A B} (f : A -> option B) (l : list A) :
  (forall x, x ∈ l -> is_Some (f x)) -> f <$> l = Some <$> omap f l.
Proof.
  induction l as [|x l IH]; intros Hf; [done|].
  destruct (Hf x) as [y Hy]; [set_solver|]. rewrite omap_cons_eq, fmap_cons, Hy.
  rewrite IH; [done|]. intros z Hz. apply Hf. set_solver.
Qed.

(** Keys that never occur twice give a duplicate-free projection. *)
Lemma NoDup_fmap_omap {A} `{Countable K} (f : A -> option K) (l : list A) :
  (forall x, x ∈ l -> is_Some (f x)) ->
  (forall k, occurrences k (omap f l) <= 1)%nat -> NoDup (f <$> l).
Proof.
  intros Hf Hk. rewrite fmap_all_Some by done.
  apply NoDup_fmap_2; [apply _|]. by apply NoDup_occurrences.
Qed.

Definition accepted_entries (d : IsolationCandidate) : list string :=
  List.filter valid_identity (accept_entries d).

Lemma accepts_lookup (U : gmap string N) cs k s :
  accepts_of U cs !! k = Some s ->
  exists d, d ∈ cs /\ d.(cd_isolation_id) = Some k /\ s = list_to_set (accepted_entries d).
Proof.
  unfold accepts_of.
  enough (forall m : gmap string (gset string),
    foldl (fun accepts c =>
      match c.(cd_isolation_id) with
      | Some identity =>
          if uniquely_identified U c
          then <[identity := list_to_set (List.filter valid_identity (accept_entries c))]> accepts
          else accepts
      | None => accepts
      end) m cs !! k = Some s ->
    m !! k = Some s \/
    exists d, d ∈ cs /\ d.(cd_isolation_id) = Some k /\ s = list_to_set (accepted_entries d)) as Hm.
  { intros Hk. destruct (Hm ∅ Hk) as [Hm'|]; [by rewrite lookup_empty in Hm'|done]. }
  induction cs as [|c cs IH]; intros m Hk; cbn [foldl] in Hk; [by left|].
  apply IH in Hk as [Hk|(d & Hd & ?)]; [|right; exists d; set_solver].
  destruct (cd_isolation_id c) as [i|] eqn:Ei; [|by left].
  destruct (uniquely_identified U c); [|by left].
  rewrite lookup_insert in Hk. case_decide as Hik; [|by left].
  subst i. injection Hk as <-. right. exists c. set_solver.
Qed.

Lemma participant_allowance cs c al :
  al ∈ (participant cs c).(pt_allowances) ->
  exists d raw specs spec,
    d ∈ cs /\ identity_of d = Some al.(al_destination_id) /\
    d.(cd_ipv4_address) = al.(al_destination_address) /\
    occurrences al.(al_destination_id) (omap identity_of cs) = 1%nat /\
    c.(cd_allow) = Some raw /\ parse_allow_list raw = Ok specs /\ spec ∈ specs /\
    spec.(as_destination_id) = al.(al_destination_id) /\
    spec.(as_port) = al.(al_port) /\ spec.(as_protocol) = al.(al_protocol) /\
    (is_docker c = true \/
     accepted_by_destination (policy_accepts cs) c al.(al_destination_id) = true).
Proof.
  cbn [participant participant_of pt_allowances]. intros Hal.
  apply list_elem_of_fmap in Hal as ([[[i a] port] t] & -> & Hal). cbn.
  apply elem_of_btree_set_iter, elem_of_list_to_set, list_elem_of_omap in Hal as (o & Ho & Ha).
  unfold allow_outcomes in Ho.
  destruct (cd_allow c) as [raw|]; [|by apply elem_of_nil in Ho].
  destruct (parse_allow_list raw) as [specs|error] eqn:E;
    [|by apply list_elem_of_singleton in Ho as ->].
  apply list_elem_of_fmap in Ho as (spec & -> & Hspec). unfold allow_outcome in Ha.
  destruct (unique_addresses cs !! _) as [addr|] eqn:Eu; [|done].
  apply unique_addresses_lookup in Eu as (Hone & d & Hd & Hid & Haddr).
  destruct (negb (is_docker c) && _) eqn:Eacc; [done|]. injection Ha as <- <- <- <-.
  exists d, raw, specs, spec. split_and!; try done.
  apply andb_false_iff in Eacc. rewrite !negb_false_iff in Eacc. done.
Qed.

Lemma screened_subset cs c : c ∈ screened cs -> c ∈ cs.
Proof. rewrite elem_of_screened. intros [[? _]|[? _]%elem_of_kept_pods]; done. Qed.

Lemma participant_mac cs c m :
  (participant cs c).(pt_mac) = Some m ->
  mac_of c = Some m /\ occurrences c.(cd_ipv4_address) (omap ip_key cs) = 1%nat /\
  size (mac_addresses cs m) = 1%nat.
Proof.
  cbn [participant participant_of pt_mac]. intros Hm.
  destruct (mac_of c) as [m'|]; cbn in Hm; [|done].
  destruct (bool_decide _ && _) eqn:E; [|done]. injection Hm as <-. simplify_bools.
  split; [done|]. split.
  - rewrite omap_ip_key. by apply count_claims_one.
  - destruct (mac_claims_of cs !! m') as [s|] eqn:Es; [|done].
    apply mac_claims_lookup in Es as ->. by simplify_bools.
Qed.

Section policy_properties.
Context `{!IpNetCrate}.
Implicit Types (network bridge : string) (subnet : Ipv4Net) (now : N).

Lemma build_policy_issues network bridge subnet cs now s :
  s ∈ (build_policy network bridge subnet cs now).(ip_issues) <-> Issue (screened cs) s.
Proof.
  rewrite <- policy_issues_iff. unfold build_policy, screened.
  destruct (screen_kubernetes_candidates cs) as [kept rejected]. cbn [ip_issues fst].
  by rewrite elem_of_dedup, elem_of_sort_by.
Qed.

Lemma build_policy_participants network bridge subnet cs now :
  (build_policy network bridge subnet cs now).(ip_participants)
  = policy_participants (screened cs).
Proof.
  unfold build_policy, screened. by destruct (screen_kubernetes_candidates cs).
Qed.

Lemma length_policy_participants cs : length (policy_participants cs) = length cs.
Proof. unfold policy_participants. by rewrite length_sort_by, length_fmap. Qed.

Lemma build_policy_eligible network bridge subnet cs now :
  (build_policy network bridge subnet cs now).(ip_eligible_for_enforcement) = true <->
  screened cs <> [] /\ forall s, ~ Issue (screened cs) s.
Proof.
  pose proof (build_policy_issues network bridge subnet cs now) as Hi.
  setoid_rewrite <- Hi. revert Hi. unfold build_policy, screened.
  destruct (screen_kubernetes_candidates cs) as [kept rejected].
  cbn [ip_issues ip_eligible_for_enforcement fst]. intros _.
  rewrite andb_true_iff, negb_true_iff, Nat.eqb_neq, Nat.eqb_eq, length_policy_participants.
  set (issues := dedup _). split.
  - intros [Hk Hn]. split; [by destruct kept|].
    destruct issues; [|done]. by intros s ?%elem_of_nil.
  - intros [Hk Hn]. split; [by destruct kept|].
    destruct issues as [|s l]; [done|]. destruct (Hn s). set_solver.
Qed.

(** C1: pods cannot degrade the bridge.  Whatever Kubernetes candidates are
    discovered beside the Docker ones, they add no issue to the policy, and
    a policy that the Docker candidates alone make eligible for enforcement
    stays eligible. *)
Theorem pods_cannot_degrade_policy network bridge subnet cs now :
  let with_pods := build_policy network bridge subnet cs now in
  let docker_only := build_policy network bridge subnet (List.filter is_docker cs) now in
  (forall s, s ∈ with_pods.(ip_issues) -> s ∈ docker_only.(ip_issues)) /\
  (docker_only.(ip_eligible_for_enforcement) = true ->
   with_pods.(ip_eligible_for_enforcement) = true).
Proof.
  cbn zeta. fold (docker_of cs). split.
  - intros s. rewrite !build_policy_issues, screened_docker_of. apply issue_screened.
  - rewrite !build_policy_eligible, screened_docker_of. intros [Hd Hn].
    split; [|intros s Hs%issue_screened; by apply (Hn s)].
    intros E. pose proof (screened_perm cs) as Hp. rewrite E in Hp.
    apply Permutation_nil in Hp. by apply app_nil in Hp as [? _].
Qed.

(** C8: what an eligible policy promises, as its message says: every
    participant has a valid isolation identity, no two share an identity or
    an address, and every allowance names another participant by its
    identity and current address. *)
Theorem eligible_policy_sound network bridge subnet cs now
    (Helig : (build_policy network bridge subnet cs now).(ip_eligible_for_enforcement) = true) :
  let ps := (build_policy network bridge subnet cs now).(ip_participants) in
  ps <> [] /\
  (forall p, p ∈ ps -> exists i, p.(pt_isolation_id) = Some i /\ valid_identity i = true) /\
  NoDup (pt_isolation_id <$> ps) /\
  NoDup (pt_ipv4_address <$> ps) /\
  (forall p al, p ∈ ps -> al ∈ p.(pt_allowances) ->
     exists q, q ∈ ps /\ q.(pt_isolation_id) = Some al.(al_destination_id) /\
               q.(pt_ipv4_address) = al.(al_destination_address)).
Proof.
  apply build_policy_eligible in Helig as [Hne Hno]. cbn zeta.
  rewrite build_policy_participants. set (K := screened cs) in *.
  assert (forall c, c ∈ K -> exists i, identity_of c = Some i) as Hid.
  { intros c Hc. destruct (identity_of c) as [i|] eqn:E; [eauto|].
    apply identity_of_None in E as [E|(i & E & Hv)];
      [destruct (Hno _ (issue_missing K c Hc E)) | destruct (Hno _ (issue_invalid K c i Hc E Hv))]. }
  split_and!.
  - intros E. apply (f_equal length) in E. rewrite length_policy_participants in E. by destruct K.
  - intros p (c & Hc & ->)%elem_of_policy_participants.
    destruct (Hid c Hc) as [i Hi]. exists i. split; [done|]. by apply identity_of_Some in Hi as [_ ?].
  - rewrite policy_participants_perm, <- list_fmap_compose.
    change (pt_isolation_id ∘ participant K) with identity_of.
    apply NoDup_fmap_omap; [intros c Hc; destruct (Hid c Hc); eauto|].
    intros i. destruct (decide (1 < occurrences i (omap identity_of K))%nat) as [Hi|]; [|lia].
    destruct (Hno _ (issue_duplicate K i Hi)).
  - rewrite policy_participants_perm, <- list_fmap_compose.
    change (pt_ipv4_address ∘ participant K) with cd_ipv4_address.
    rewrite <- omap_ip_key. apply NoDup_occurrences.
    intros a. destruct (decide (1 < occurrences a (omap ip_key K))%nat) as [Ha|]; [|lia].
    destruct (Hno _ (issue_address K a Ha)).
  - intros p al (c & Hc & ->)%elem_of_policy_participants Hal.
    apply participant_allowance in Hal as (d & ? & ? & ? & Hd & Hi & Ha & _).
    exists (participant K d). split; [apply elem_of_policy_participants; eauto|done].
Qed.

(** C22: a pod reaches only who accepts it.  Every allowance of a participant
    that was discovered in Kubernetes names a destination candidate whose
    own accept list holds the pod's identity; an allowance the destination
    did not accept never becomes part of the policy. *)
Theorem pod_allowances_are_accepted network bridge subnet cs now p al
    (Hp : p ∈ (build_policy network bridge subnet cs now).(ip_participants))
    (Hal : al ∈ p.(pt_allowances)) :
  exists c, c ∈ cs /\ c.(cd_container_id) = p.(pt_container_id) /\
    c.(cd_ipv4_address) = p.(pt_ipv4_address) /\
    (c.(cd_source) = Kubernetes ->
     exists d source, d ∈ cs /\ c.(cd_isolation_id) = Some source /\
       d.(cd_isolation_id) = Some al.(al_destination_id) /\
       d.(cd_ipv4_address) = al.(al_destination_address) /\
       source ∈ accept_entries d).
Proof.
  rewrite build_policy_participants in Hp.
  apply elem_of_policy_participants in Hp as (c & Hc & ->).
  apply participant_allowance in Hal as (d & ? & ? & ? & Hd & Hi & Ha & Hone & _ & _ & _ & _ & _ & _ & Hacc).
  exists c. split; [by apply screened_subset|]. do 2 (split; [done|]). intros Hk.
  destruct Hacc as [Hacc|Hacc]; [unfold is_docker in Hacc; by rewrite Hk in Hacc|].
  unfold accepted_by_destination in Hacc.
  destruct (cd_isolation_id c) as [source|]; [|done].
  destruct (policy_accepts (screened cs) !! _) as [accepted|] eqn:E; [|done].
  apply bool_decide_eq_true in Hacc. apply accepts_lookup in E as (d' & Hd' & Hi' & ->).
  apply elem_of_list_to_set, elem_of_bfilter in Hacc as [Hacc _].
  assert (d' = d) as ->.
  { apply identity_of_Some in Hi as Hv. destruct Hv as [_ Hv].
    eapply (occurrences_one_inj identity_of (screened cs) d' d);
      [by rewrite Hone|done|done|by apply identity_of_Some|done]. }
  exists d, source. apply identity_of_Some in Hi as [? _]. split_and!; try done.
  by apply screened_subset.
Qed.

(** a MAC binding is unambiguous.  Two participants bound to one MAC are
    the same participant, and no other participant has a bound participant's
    address: an address or MAC that two candidates claim is bound to neither. *)
Theorem mac_bindings_unique network bridge subnet cs now p q m
    (Hp : p ∈ (build_policy network bridge subnet cs now).(ip_participants))
    (Hq : q ∈ (build_policy network bridge subnet cs now).(ip_participants))
    (Hm : p.(pt_mac) = Some m)
    (Hclash : q.(pt_mac) = Some m \/ q.(pt_ipv4_address) = p.(pt_ipv4_address)) :
  q = p.
Proof.
  rewrite build_policy_participants in Hp, Hq.
  apply elem_of_policy_participants in Hp as (c & Hc & ->), Hq as (d & Hd & ->).
  apply participant_mac in Hm as (Hcm & Haddr & Hsize).
  assert (d.(cd_ipv4_address) = c.(cd_ipv4_address)) as Heq.
  { destruct Hclash as [Hclash|]; [|done]. apply participant_mac in Hclash as (Hdm & _).
    apply size_1_elem_of in Hsize as [a Ha]. unfold_leibniz.
    assert (forall e, e ∈ screened cs -> mac_of e = Some m -> e.(cd_ipv4_address) = a) as He.
    { intros e ? ?. apply (elem_of_singleton (C := gset N)). rewrite <- Ha.
      apply elem_of_mac_addresses. eauto. }
    by rewrite (He c), (He d). }
  f_equal. eapply (occurrences_one_inj ip_key (screened cs) d c);
    [by rewrite Haddr|done|done|unfold ip_key; by f_equal|done].
Qed.
End policy_properties.

(** ** Concrete inputs *)

Section samples.
#[local] Existing Instance CidrNet.crate.

Definition sample_net : Ipv4Net := ({| CidrNet.cidr_addr := 2887647232; CidrNet.cidr_len := 24 |} : CidrNet.Cidr).

Definition sample_candidate (id name : string) (address : N) (identity : string)
    (allow mac : option string) (source : CandidateSource) (accept : option string) :=
  {| cd_container_id := id; cd_name := name; cd_ipv4_address := address;
     cd_isolation_id := Some identity; cd_allow := allow; cd_mac := mac;
     cd_source := source; cd_accept := accept |}.

(** A client that reaches a database, and a pod the database accepts. *)
Definition sample_candidates : list IsolationCandidate :=
  [sample_candidate "a" "web" 2887647242 "web" (Some "db:5432/tcp")
     (Some "02:00:00:00:00:01") Docker None;
   sample_candidate "b" "db" 2887647243 "db" None None Docker (Some "web, job");
   sample_candidate "k" "job" 2887647244 "job" (Some "db:5432/tcp, web:80/tcp")
     (Some "02:00:00:00:00:02") Kubernetes None].

Definition sample_policy : IsolationPolicy :=
  build_policy "net" "br" sample_net sample_candidates 0.

Definition sample_participant (index : nat) : IsolationParticipant :=
  default (participant_of ∅ ∅ ∅ ∅ (sample_candidate "" "" 0 "" None None Docker None))
    (sample_policy.(ip_participants) !! index).

Definition sample_allowance : IsolationAllowance :=
  {| al_destination_id := "db"; al_destination_address := 2887647243;
     al_port := 5432; al_protocol := Tcp |}.

Lemma eligible_policy_sound_witness :
  length sample_policy.(ip_participants) = 3%nat /\
  NoDup (pt_ipv4_address <$> sample_policy.(ip_participants)).
Proof.
  split; [vm_compute; reflexivity|].
  refine (proj1 (proj2 (proj2 (proj2
    (eligible_policy_sound "net" "br" sample_net sample_candidates 0 _))))).
  vm_compute; reflexivity.
Defined.

Lemma sample_participant_in index :
  (index < 3)%nat -> sample_participant index ∈ sample_policy.(ip_participants).
Proof.
  intros Hi. apply list_elem_of_lookup. exists index.
  do 3 (destruct index as [|index]; [vm_compute; reflexivity|]). lia.
Qed.

(** The pod's allowance that the database accepts is kept, the one the web
    client does not accept is not. *)
Lemma pod_allowances_are_accepted_witness :
  (sample_participant 2).(pt_allowances) = [sample_allowance] /\
  exists c, c ∈ sample_candidates /\
    c.(cd_container_id) = (sample_participant 2).(pt_container_id).
Proof.
  split; [vm_compute; reflexivity|].
  destruct (pod_allowances_are_accepted "net" "br" sample_net sample_candidates 0
    (sample_participant 2) sample_allowance (sample_participant_in 2 ltac:(lia)))
    as (c & Hc & Hid & _); [|by exists c].
  vm_compute. left.
Defined.

Lemma mac_bindings_unique_witness :
  (sample_participant 0).(pt_mac) = Some "02:00:00:00:00:01" /\
  sample_participant 0 = sample_participant 0.
Proof.
  split; [vm_compute; reflexivity|].
  apply (mac_bindings_unique "net" "br" sample_net sample_candidates 0
    _ _ "02:00:00:00:00:01" (sample_participant_in 0 ltac:(lia)) (sample_participant_in 0 ltac:(lia))).
  - vm_compute; reflexivity.
  - by right.
Defined.
End samples.
