(* ===== verification/IsolationRender.v ===== *)
(** Properties of what isolation.rs prints: canonical MAC addresses, and the
    order and verdicts of the rendered bridge ruleset. *)

From S2P Require Import Prelude RustStr StrFacts Net BTree Isolation.

(** ** MAC addresses *)

Definition mac_char (c : ascii) : bool :=
  is_ascii_digit c || in_range 97 102 c || Ascii.eqb c ":".

Lemma hex02_facts n :
  (n < 256)%N ->
  parse_octet (hex02 n) = Some n /\ lacks ":" (hex02 n) = true /\
  String.length (hex02 n) = 2%nat /\ str_forallb mac_char (hex02 n) = true.
Proof.
  intros Hn%elem_of_bytes256.
  assert (forallb (fun n =>
    bool_decide (parse_octet (hex02 n) = Some n) && lacks ":" (hex02 n)
    && (String.length (hex02 n) =? 2)%nat && str_forallb mac_char (hex02 n)) bytes256 = true)
    as Hall by (vm_compute; reflexivity).
  rewrite forallb_elem in Hall. specialize (Hall n Hn). by simplify_bools.
Qed.

Lemma hex_val_bound c n : hex_val c = Some n -> (n < 16)%N.
Proof.
  unfold hex_val, is_ascii_digit, in_range.
  repeat case_match; simplify_bools; intros; simplify_eq; lia.
Qed.

Lemma parse_octet_bound s n : parse_octet s = Some n -> (n < 256)%N.
Proof.
  unfold parse_octet. destruct (_ && _); [|done].
  destruct s as [|a [|b [|]]]; try done. intros H.
  apply bind_Some in H as (x & Hx%hex_val_bound & H).
  apply bind_Some in H as (y & Hy%hex_val_bound & [= <-]). lia.
Qed.

Lemma show_mac_split octets :
  octets <> [] -> Forall (fun n => n < 256)%N octets ->
  split_char ":" (show_mac octets) = hex02 <$> octets.
Proof.
  intros Hne Hb. apply split_char_join; [by destruct octets|].
  apply Forall_fmap. eapply Forall_impl; [|exact Hb]. intros n Hn. cbn. by apply hex02_facts.
Qed.

Lemma parse_show_octets octets :
  Forall (fun n => n < 256)%N octets -> mapM parse_octet (hex02 <$> octets) = Some octets.
Proof.
  intros Hb. apply mapM_Some. apply Forall2_fmap_l, Forall_Forall2_diag.
  eapply Forall_impl; [|exact Hb]. intros n Hn. by apply hex02_facts.
Qed.

Lemma normalize_mac_Some raw m :
  normalize_mac raw = Some m ->
  exists octets, m = show_mac octets /\ length octets = 6%nat /\
    Forall (fun n => n < 256)%N octets /\
    N.land (default 0%N (head octets)) 1 <> 1%N /\ forallb (N.eqb 0) octets = false.
Proof.
  unfold normalize_mac. intros H. apply bind_Some in H as (octets & Ho & H).
  destruct (_ || _) eqn:E; [done|]. injection H as <-. simplify_bools.
  exists octets. split_and!; try done.
  apply mapM_Some in Ho. clear -Ho. induction Ho; constructor; eauto using parse_octet_bound.
Qed.

(** a normalised MAC is canonical: normalising it again changes nothing,
    and it is seventeen characters of lower-case hex digits and colons, so
    nothing else of an annotation reaches the ruleset. *)
Theorem normalize_mac_canonical raw m (Hm : normalize_mac raw = Some m) :
  normalize_mac m = Some m /\ String.length m = 17%nat /\ str_forallb mac_char m = true.
Proof.
  apply normalize_mac_Some in Hm as (octets & -> & Hlen & Hb & Hu & Hz).
  assert (octets <> []) as Hne by (by destruct octets).
  split.
  - unfold normalize_mac. rewrite (show_mac_split octets Hne Hb).
    rewrite (parse_show_octets octets Hb). cbn [mbind option_bind].
    rewrite Hlen, Hz. cbn [negb Nat.eqb orb]. by rewrite (proj2 (N.eqb_neq _ _) Hu).
  - do 6 (destruct octets as [|? octets]; [done|]). destruct octets; [|done].
    decompose_Forall_hyps.
    unfold show_mac, join. cbn -[hex02 String.append String.length str_forallb].
    repeat match goal with
    | H : (?n < 256)%N |- _ => apply hex02_facts in H as (_ & _ & ? & ?)
    end.
    split; [done|]. rewrite !str_forallb_app.
    repeat match goal with H : str_forallb _ _ = _ |- _ => rewrite H; clear H end. done.
Qed.

Lemma normalize_mac_canonical_witness :
  normalize_mac "02:42:AC:1E:00:0A" = Some "02:42:ac:1e:00:0a" /\
  normalize_mac "02:42:ac:1e:00:0a" = Some "02:42:ac:1e:00:0a".
Proof.
  split; [reflexivity|].
  apply (normalize_mac_canonical "02:42:AC:1E:00:0A" "02:42:ac:1e:00:0a"). reflexivity.
Defined.

(** ** The ruleset *)

(** [x] occurs in [s], and [before x y s]: an [x] occurs before a [y]. *)
Definition occurs (x s : string) : Prop := exists a b, s = a +:+ x +:+ b.
Definition before (x y s : string) : Prop := exists a b c, s = a +:+ x +:+ b +:+ y +:+ c.

Lemma occurs_concat x l : x ∈ l -> occurs x (concat_str l).
Proof.
  induction 1 as [x l|x y l _ (a & b & IH)]; rewrite concat_str_cons.
  - by exists "", (concat_str l).
  - exists (y +:+ a), b. rewrite IH. by autorewrite with egressy_rw.
Qed.

Lemma occurs_app_l x s t : occurs x s -> occurs x (s +:+ t).
Proof. intros (a & b & ->). exists a, (b +:+ t). by autorewrite with egressy_rw. Qed.
Lemma occurs_app_r x s t : occurs x t -> occurs x (s +:+ t).
Proof. intros (a & b & ->). exists (s +:+ a), b. by autorewrite with egressy_rw. Qed.
Lemma before_app x y s t : occurs x s -> occurs y t -> before x y (s +:+ t).
Proof.
  intros (a & b & ->) (a' & b' & ->). exists a, (b +:+ a'), b'. by autorewrite with egressy_rw.
Qed.
Lemma before_app_l x y s t : before x y s -> before x y (s +:+ t).
Proof. intros (a & b & c & ->). exists a, b, (c +:+ t). by autorewrite with egressy_rw. Qed.
Lemma before_app_r x y s t : before x y t -> before x y (s +:+ t).
Proof. intros (a & b & c & ->). exists (s +:+ a), b, c. by autorewrite with egressy_rw. Qed.

Lemma elem_of_participant_pairs ps p q :
  (p, q) ∈ participant_pairs ps <->
  p ∈ ps /\ q ∈ ps /\ p.(pt_ipv4_address) <> q.(pt_ipv4_address).
Proof.
  unfold participant_pairs. rewrite elem_of_bfilter, negb_true_iff, N.eqb_neq, list_elem_of_bind.
  setoid_rewrite list_elem_of_bind. setoid_rewrite list_elem_of_singleton. naive_solver.
Qed.

Section render_properties.
Context `{!IpNetCrate}.

Lemma render_mode policy requested counters mode rules :
  render_bridge_policy policy requested counters = Some (mode, rules) ->
  mode = effective_mode_of policy.(ip_eligible_for_enforcement) requested.
Proof.
  unfold render_bridge_policy. case_bool_decide; [by intros [=]|]. intros Hr.
  repeat (apply bind_Some in Hr as (? & _ & Hr)). by injection Hr.
Qed.

(** the rendered ruleset enforces what the policy says.  It is enforcing
    only when enforcement was requested and the policy is eligible (an
    incomplete policy degrades to audit); a disabled mode renders nothing;
    otherwise every ordered pair of participants has its counted rule with
    the mode's verdict, and every allowance is accepted by a rule that comes
    before it. *)
Theorem rendered_policy_verdicts policy requested counters mode rules
    (Hr : render_bridge_policy policy requested counters = Some (mode, rules)) :
  (mode = Enforce <->
     requested = Enforce /\ policy.(ip_eligible_for_enforcement) = true) /\
  (mode = Disabled <-> requested = Disabled) /\
  (mode = Disabled -> rules = "") /\
  (mode <> Disabled -> forall p q,
     p ∈ policy.(ip_participants) -> q ∈ policy.(ip_participants) ->
     p.(pt_ipv4_address) <> q.(pt_ipv4_address) ->
     occurs (pair_rule mode (p, q)) rules /\
     (forall s al, s ∈ policy.(ip_participants) -> al ∈ s.(pt_allowances) ->
        before (allowance_rule s al) (pair_rule mode (p, q)) rules)).
Proof.
  unfold render_bridge_policy in Hr.
  set (eff := effective_mode_of _ requested) in Hr.
  assert (mode = eff) as ->.
  { by eapply render_mode. }
  assert ((eff = Enforce <-> requested = Enforce /\ ip_eligible_for_enforcement policy = true) /\
          (eff = Disabled <-> requested = Disabled)) as [Henf Hdis].
  { unfold eff. by destruct requested, (ip_eligible_for_enforcement policy); cbn; intuition. }
  split; [done|]. split; [done|]. case_bool_decide as Hd; [by injection Hr as <-|].
  split; [done|]. intros _ p q Hp Hq Hpq.
  apply bind_Some in Hr as (subnet & _ & Hr). apply bind_Some in Hr as (gw & _ & Hr).
  apply bind_Some in Hr as (v6 & _ & Hr). injection Hr as <-.
  assert (occurs (pair_rule eff (p, q))
    (concat_str (pair_rule eff <$> participant_pairs (ip_participants policy)))) as Hpair.
  { apply occurs_concat, list_elem_of_fmap. eexists. split; [done|].
    by apply elem_of_participant_pairs. }
  split.
  - repeat first [apply occurs_app_l; exact Hpair | apply occurs_app_r].
  - intros s al Hs Hal.
    assert (occurs (allowance_rule s al)
      (concat_str (allowance_rules (ip_participants policy)))) as Hallow.
    { apply occurs_concat. unfold allowance_rules. apply elem_of_btree_set_iter.
      apply elem_of_list_to_set, list_elem_of_bind. exists s. split; [|done].
      apply list_elem_of_fmap. eauto. }
    repeat first [apply before_app; [exact Hallow|apply occurs_app_l; exact Hpair]
                 | apply before_app_r].
Qed.
End render_properties.

Section render_sample.
#[local] Existing Instance CidrNet.crate.

Definition render_participant (id : string) (address : N) (allow : list IsolationAllowance) :=
  {| pt_container_id := id; pt_name := id; pt_isolation_id := Some id; pt_ipv4_address := address;
     pt_allowances := allow; pt_mac := None |}.

Definition render_sample : IsolationPolicy :=
  {| ip_schema_version := 1; ip_generated_at_unix_ms := 0; ip_network := "net"; ip_bridge := "br";
     ip_subnet := "172.30.0.0/24"; ip_eligible_for_enforcement := true;
     ip_reason_code := "isolation.policy_complete"; ip_safe_message := ""; ip_issues := [];
     ip_participants :=
       [render_participant "web" 2887647242
          [{| al_destination_id := "db"; al_destination_address := 2887647243;
              al_port := 5432; al_protocol := Tcp |}];
        render_participant "db" 2887647243 []];
     ip_ipv6_subnet := None; ip_bound_range := None; ip_gateway_address := None;
     ip_rejected := [] |}.

Lemma rendered_policy_verdicts_witness :
  exists rules, render_bridge_policy render_sample Enforce ∅ = Some (Enforce, rules) /\ rules <> "".
Proof.
  destruct (render_bridge_policy render_sample Enforce ∅) as [[mode rules]|] eqn:E;
    [|by vm_compute in E].
  destruct (rendered_policy_verdicts render_sample Enforce ∅ mode rules E) as ((_ & H) & _).
  assert (mode = Enforce) as -> by (apply H; split; reflexivity).
  exists rules. split; [reflexivity|]. intros ->. vm_compute in E. discriminate.
Defined.
End render_sample.
