(* ===== verification/HostAgent.v ===== *)
(** The host-side agent (src/src/bin/egressy-isolation-agent.rs): it fetches
    the gateway's two documents, checks them, and keeps the host's routing rule,
    routes and nftables tables equal to what they ask for.

    The host is the parameter [HostEnv]: what [ip] and [nft] print on a
    reading command, and what a writing command does to it.  The agent's code
    is a computation that threads the host and records the writing commands it
    ran, so its order of effects is an explicit list. *)

From S2P Require Import Prelude RustStr Net BTree HostPolicy Isolation.

(** ** The environment *)

(** A command that changes the host: [run_nft] with its script and [run_ip]
    with its arguments. *)
Inductive Command : Type :=
| RunNft (script : string)
| RunIp (args : list string).

#[export] Instance Command_eq_dec : EqDecision Command.
Proof. solve_decision. Defined.

(** A finished process: whether it succeeded, and its standard output. *)
Record Output : Type := { out_success : bool; out_stdout : string }.

(** The code outside the repository: processes (a reading command either fails
    to start or ends; a writing command succeeds or not), serde's decoding of
    the documents and of what [ip] and [nft] print, serde's printing. *)
Class HostEnv : Type := {
  World : Type;
  query : World -> list string -> option Output;
  exec : World -> Command -> World * bool;
  decode_rules : string -> option (list IpRuleEntry);
  decode_routes : string -> option (list IpRouteEntry);
  decode_counters : string -> option (list (string * CounterValue));
  decode_host_policy : string -> option HostPolicy;
  decode_isolation_policy : string -> option IsolationPolicy;
  encode_isolation_policy : IsolationPolicy -> string;
}.

Record Cli : Type := {
  cli_policy_url : string;
  cli_mode : IsolationMode;
  cli_interval_seconds : N;
  cli_stale_seconds : N;
  cli_manage_host_policy : bool;
  cli_host_policy_url : option string;
  cli_host_policy_cache : option string;
}.

(** A response that came back with a success status: its declared length and
    its body. *)
Record Response : Type := { content_length : option N; body : string }.

(** [client.get(url).send().await?.error_for_status()?] *)
Definition Fetched : Type := Result Response string.

(** ** URLs and validation *)

(** The [url] crate. *)
Class UrlCrate : Type := {
  Url : Type;
  url_parse : string -> option Url;
  url_scheme : Url -> string;
  url_host_str : Url -> option string;
  url_set_path : Url -> string -> Url;
  url_clear_query : Url -> Url;
  url_show : Url -> string;
}.

Definition HOST_POLICY_PATH : string := "/api/v2/host-policy".

Section urls.
Context `{!UrlCrate}.

Definition host_policy_url (cli : Cli) : Result string string :=
  match cli.(cli_host_policy_url) with
  | Some explicit => Ok explicit
  | None =>
      let? derived := ok_or (url_parse cli.(cli_policy_url)) "invalid isolation policy URL" in
      Ok (url_show (url_clear_query (url_set_path derived HOST_POLICY_PATH)))
  end.

Definition loopback_http (u : Url) : bool :=
  String.eqb (url_scheme u) "http"
  && bool_decide (url_host_str u = Some "127.0.0.1" \/ url_host_str u = Some "localhost").

Definition validate (cli : Cli) : Result unit string :=
  let? url := ok_or (url_parse cli.(cli_policy_url)) "invalid isolation policy URL" in
  let? _ := ensure (loopback_http url) "isolation policy URL must use host-loopback HTTP" in
  let? resolved := host_policy_url cli in
  let? parsed := ok_or (url_parse resolved) "invalid host policy URL" in
  let? _ := ensure (loopback_http parsed) "host policy URL must use host-loopback HTTP" in
  ensure (negb ((cli.(cli_interval_seconds) =? 0)%N
                || (cli.(cli_stale_seconds) <? cli.(cli_interval_seconds))%N))
    "isolation interval must be non-zero and shorter than its stale threshold".
End urls.

(** ** Escalation *)

Definition HOST_POLICY_ESCALATE_AFTER : N := 6.
Definition host_policy_failure_is_sustained (consecutive_failures : N) : bool :=
  (HOST_POLICY_ESCALATE_AFTER <=? consecutive_failures)%N.

(** ** Fetched documents *)

Definition policy_is_stale (policy : IsolationPolicy) (stale_seconds now_unix_ms : N) : bool :=
  let tolerance := saturating_mul u64_MAX stale_seconds 1000 in
  (tolerance <? saturating_sub now_unix_ms policy.(ip_generated_at_unix_ms))%N
  || (tolerance <? saturating_sub policy.(ip_generated_at_unix_ms) now_unix_ms)%N.

(** Both size checks of a response: the declared length and the body's. *)
Definition bounded_body (limit : N) (message : string) (r : Response) : Result string string :=
  let? _ := ensure (match r.(content_length) with
                    | Some length => (length <=? limit)%N
                    | None => true
                    end) message in
  let? _ := ensure (N.of_nat (String.length r.(body)) <=? limit)%N message in
  Ok r.(body).

Section documents.
Context `{!HostEnv, !IpNetCrate}.

Definition fetch_policy (response : Fetched) (cli : Cli) (now_unix_ms : N)
    : Result IsolationPolicy string :=
  let? response := response in
  let? body := bounded_body 1048576 "isolation policy response is too large" response in
  let? policy := ok_or (decode_isolation_policy body) "isolation policy is not valid JSON" in
  let? _ := ensure (policy.(ip_schema_version) =? 1)%N "unsupported isolation policy schema" in
  let? _ := ok_or (ipv4net_parse policy.(ip_subnet)) "invalid isolation policy subnet" in
  let? _ := match policy.(ip_ipv6_subnet) with
            | Some subnet =>
                let? _ := ok_or (ipv6net_parse subnet) "invalid isolation policy IPv6 subnet" in
                Ok tt
            | None => Ok tt
            end in
  let? _ := ensure (negb (policy_is_stale policy cli.(cli_stale_seconds) now_unix_ms))
    "isolation policy snapshot is stale" in
  Ok policy.

Definition without_timestamp (policy : IsolationPolicy) : IsolationPolicy :=
  {| ip_schema_version := policy.(ip_schema_version);
     ip_generated_at_unix_ms := 0;
     ip_network := policy.(ip_network);
     ip_bridge := policy.(ip_bridge);
     ip_subnet := policy.(ip_subnet);
     ip_eligible_for_enforcement := policy.(ip_eligible_for_enforcement);
     ip_reason_code := policy.(ip_reason_code);
     ip_safe_message := policy.(ip_safe_message);
     ip_issues := policy.(ip_issues);
     ip_participants := policy.(ip_participants);
     ip_ipv6_subnet := policy.(ip_ipv6_subnet);
     ip_bound_range := policy.(ip_bound_range);
     ip_gateway_address := policy.(ip_gateway_address);
     ip_rejected := policy.(ip_rejected) |}.

(** [format!("{effective_mode:?}")] *)
Definition show_mode (mode : IsolationMode) : string :=
  match mode with Disabled => "Disabled" | Audit => "Audit" | Enforce => "Enforce" end.

Definition policy_fingerprint (policy : IsolationPolicy) (effective_mode : IsolationMode) : string :=
  show_mode effective_mode +:+ ":" +:+ encode_isolation_policy (without_timestamp policy).

Definition parse_host_policy (body : string) : Result HostPolicy string :=
  let? policy := ok_or (decode_host_policy body) "host policy is not valid JSON" in
  let expected_schema :=
    if bool_decide (is_Some policy.(hp_ipv6)) then IPV6_SCHEMA_VERSION else SCHEMA_VERSION in
  let? _ := ensure (policy.(hp_schema_version) =? expected_schema)%N
    "unsupported host policy schema" in
  let? _ := match policy.(hp_ipv6) with
            | Some ipv6 =>
                let? _ := ok_or (ipv6net_parse ipv6.(hp6_subnet)) "invalid host policy IPv6 subnet" in
                let? _ := ok_or (parse_ipv6 ipv6.(hp6_gateway_ip))
                  "invalid host policy IPv6 gateway address" in
                Ok tt
            | None => Ok tt
            end in
  let? _ := ok_or (ipv4net_parse policy.(hp_subnet)) "invalid host policy subnet" in
  let? _ := ok_or (parse_ipv4 policy.(hp_gateway_ip)) "invalid host policy gateway address" in
  let? _ := ensure (negb (is_empty policy.(hp_bridge) || (policy.(hp_route_table) =? 0)%N))
    "host policy is missing its bridge or route table" in
  Ok policy.

Definition fetch_host_policy_bytes (response : Fetched) : Result (HostPolicy * string) string :=
  let? response := response in
  let? body := bounded_body 65536 "host policy response is too large" response in
  let? policy := parse_host_policy body in
  Ok (policy, body).
End documents.

(** ** Violation counters *)

Record ViolationChange : Type := {
  vc_source_id : string;
  vc_destination_id : string;
  vc_packets : N;
  vc_bytes : N;
}.

Definition participant_label (p : IsolationParticipant) : string :=
  default p.(pt_name) p.(pt_isolation_id).

Definition grown (current previous : gmap string CounterValue) (name : string) : bool :=
  let value := counter_of current name in
  let old := counter_of previous name in
  (old.(cv_packets) <? value.(cv_packets))%N || (old.(cv_bytes) <? value.(cv_bytes))%N.

Definition change_of (current : gmap string CounterValue) (source destination name : string)
    : ViolationChange :=
  {| vc_source_id := source; vc_destination_id := destination;
     vc_packets := (counter_of current name).(cv_packets);
     vc_bytes := (counter_of current name).(cv_bytes) |}.

Definition violation_changes (policy : IsolationPolicy)
    (current previous : gmap string CounterValue) : list ViolationChange :=
  (source ← policy.(ip_participants);
   destination ← policy.(ip_participants);
   if (source.(pt_ipv4_address) =? destination.(pt_ipv4_address))%N then []
   else
     let name := pair_counter_name source.(pt_container_id) destination.(pt_container_id) in
     if grown current previous name
     then [change_of current (participant_label source) (participant_label destination) name]
     else [])
  ++ omap (fun '(counter, label) =>
       if grown current previous counter then Some (change_of current label label counter) else None)
     [("isolation_unresolved", "unresolved"); ("isolation_spoofed", "spoofed")].

(** ** The cached host policy *)

(** The files the agent touches, and how a write of one of them goes wrong:
    the write fails leaving some content behind, or the rename fails. *)
Definition Files : Type := gmap string string.
Inductive StoreFault : Type := NoFault | WriteFails (partial : option string) | RenameFails.

Section cache.
Context `{!HostEnv, !IpNetCrate}.

(** [staging] is [path.with_extension("tmp")]. *)
Definition store_cached_policy (staging path contents : string) (fault : StoreFault) (fs : Files)
    : Files * Result unit string :=
  if bool_decide (fs !! path = Some contents) then (fs, Ok tt)
  else
    match fault with
    | WriteFails partial =>
        (match partial with Some p => <[staging := p]> fs | None => fs end, Err "write failed")
    | RenameFails => (<[staging := contents]> fs, Err "rename failed")
    | NoFault => (<[path := contents]> (delete staging (<[staging := contents]> fs)), Ok tt)
    end.

Definition load_cached_policy (fs : Files) (path : string) : option HostPolicy :=
  body ← fs !! path; res_ok (parse_host_policy body).

(** The policy to install, with the fetch error it was resolved despite. *)
Definition resolve_host_policy (fetched : Result (HostPolicy * string) string)
    (cache : option (string * string)) (fault : StoreFault) (fs : Files)
    : Files * Result (HostPolicy * option string) string :=
  match fetched with
  | Ok (policy, body) =>
      (match cache with
       | Some (staging, path) => (store_cached_policy staging path body fault fs).1
       | None => fs
       end, Ok (policy, None))
  | Err error =>
      (fs, match cache ≫= fun '(_, path) => load_cached_policy fs path with
           | None => Err error
           | Some policy => Ok (policy, Some error)
           end)
  end.
End cache.

(** ** Effects *)

Section effects.
Context `{!HostEnv}.

(** The host after the computation, the writing commands it ran (each with its
    success) in order, and its result. *)
Definition Agent (A : Type) : Type :=
  World -> World * list (Command * bool) * Result A string.

Definition agent_ret {A} (a : A) : Agent A := fun w => (w, [], Ok a).
Definition agent_bail {A} (e : string) : Agent A := fun w => (w, [], Err e).
Definition agent_bind {A B} (m : Agent A) (f : A -> Agent B) : Agent B := fun w =>
  match m w with
  | (w, t, Err e) => (w, t, Err e)
  | (w, t, Ok a) => let '(w, t', r) := f a w in (w, t ++ t', r)
  end.
Definition agent_reads {A} (f : World -> Result A string) : Agent A := fun w => (w, [], f w).

(** [run_nft(script).await] or [run_ip(args).await], without [?]. *)
Definition run (c : Command) : Agent bool := fun w =>
  let '(w, ok) := exec w c in (w, [(c, ok)], Ok ok).
End effects.

Notation "'do!' x := m 'in' k" := (agent_bind m (fun x => k))
  (at level 10, x pattern, m at level 100, k at level 200) : egressy_scope.

Section agent.
Context `{!HostEnv, !IpNetCrate}.

Definition run_nft (script : string) : Agent unit :=
  do! ok := run (RunNft script) in
  if ok then agent_ret tt else agent_bail "nft isolation transaction failed".

Definition run_ip (args : list string) : Agent unit :=
  do! ok := run (RunIp args) in
  if ok then agent_ret tt else agent_bail ("ip " +:+ join " " args +:+ " failed").

(** [let _ = run_ip(args).await;] *)
Definition run_ip_ignoring (args : list string) : Agent unit :=
  do! _ := run (RunIp args) in agent_ret tt.

Inductive IpFamily : Type := V4 | V6.
Definition flag (f : IpFamily) : string := match f with V4 => "-4" | V6 => "-6" end.

Definition observe_ip_rules (w : World) (family : IpFamily) : Result (list IpRuleEntry) string :=
  let? output := ok_or (query w ["ip"; "-j"; flag family; "rule"; "show"]) "ip did not start" in
  let? _ := ensure output.(out_success) "ip -j rule show failed" in
  ok_or (decode_rules output.(out_stdout)) "ip -j rule show is not valid JSON".

Definition observe_ip_routes (w : World) (family : IpFamily) (table : N)
    : Result (list IpRouteEntry) string :=
  let? output :=
    ok_or (query w ["ip"; "-j"; flag family; "route"; "show"; "table"; show_N table])
      "ip did not start" in
  if negb output.(out_success) || is_empty output.(out_stdout) then Ok []
  else ok_or (decode_routes output.(out_stdout)) "ip -j route show is not valid JSON".

Definition observe_host_table (w : World) : Result (option string) string :=
  let? output := ok_or (query w ["nft"; "list"; "table"; "inet"; HOST_POLICY_TABLE])
    "nft did not start" in
  Ok (if output.(out_success) then Some output.(out_stdout) else None).

Definition read_ip_rules (family : IpFamily) : Agent (list IpRuleEntry) :=
  agent_reads (fun w => observe_ip_rules w family).
Definition read_ip_routes (family : IpFamily) (table : N) : Agent (list IpRouteEntry) :=
  agent_reads (fun w => observe_ip_routes w family table).
Definition read_host_table : Agent (option string) := agent_reads observe_host_table.

Definition for_each {A} (l : list A) (f : A -> Agent unit) : Agent unit :=
  foldr (fun x rest => do! _ := f x in rest) (agent_ret tt) l.

Definition rule_del_args (priority : N) (subnet : string) (table : N) : list string :=
  ["rule"; "del"; "priority"; show_N priority; "from"; subnet; "lookup"; show_N table].

Definition when (b : bool) (m : Agent unit) : Agent unit := if b then m else agent_ret tt.

Definition apply_host_policy (policy : HostPolicy) (drift : HostPolicyDrift) : Agent unit :=
  do! _ :=
    if drift.(nft_table_missing) then run_nft (render_nft policy)
    else if drift.(nft_table_stale)
    then run_nft ("delete table inet " +:+ HOST_POLICY_TABLE +:+ NL +:+ render_nft policy)
    else agent_ret tt in
  do! _ := when drift.(rule_missing) (
    do! _ := run_ip_ignoring
      (rule_del_args policy.(hp_rule_priority) policy.(hp_subnet) policy.(hp_route_table)) in
    run_ip (rule_add_args policy)) in
  do! _ := when (drift.(subnet_route_missing) || drift.(default_route_missing))
    (for_each (route_replace_args policy) run_ip) in
  do! _ := when drift.(ipv6_routes_missing)
    (for_each (ipv6_route_replace_args policy) run_ip) in
  when drift.(ipv6_rule_missing) (
    do! _ := match policy.(hp_ipv6) with
             | Some ipv6 => run_ip_ignoring
                 ("-6" :: rule_del_args policy.(hp_rule_priority) ipv6.(hp6_subnet)
                            policy.(hp_route_table))
             | None => agent_ret tt
             end in
    match ipv6_rule_add_args policy with
    | Some args => run_ip args
    | None => agent_ret tt
    end).

Definition set_stale (drift : HostPolicyDrift) (stale : bool) : HostPolicyDrift :=
  {| rule_missing := drift.(rule_missing);
     subnet_route_missing := drift.(subnet_route_missing);
     default_route_missing := drift.(default_route_missing);
     nft_table_missing := drift.(nft_table_missing);
     nft_table_stale := stale;
     ipv6_rule_missing := drift.(ipv6_rule_missing);
     ipv6_routes_missing := drift.(ipv6_routes_missing) |}.

Definition reconcile_with (policy : HostPolicy) : Agent unit :=
  do! rules := read_ip_rules V4 in
  do! routes := read_ip_routes V4 policy.(hp_route_table) in
  do! listing := read_host_table in
  let drift := detect_drift rules routes (bool_decide (is_Some listing)) policy in
  let drift := set_stale drift
    (match listing with Some l => negb (nft_table_is_current policy l) | None => false end) in
  do! drift :=
    (if bool_decide (is_Some policy.(hp_ipv6)) then
       do! rules6 := read_ip_rules V6 in
       do! routes6 := read_ip_routes V6 policy.(hp_route_table) in
       agent_ret (detect_ipv6_drift drift rules6 routes6 policy)
     else agent_ret drift) in
  if is_clean drift then agent_ret tt else apply_host_policy policy drift.

Definition reconcile_host_policy (response : Fetched) (cache : option (string * string))
    (fault : StoreFault) (fs : Files) (w : World)
    : Files * (World * list (Command * bool) * Result unit string) :=
  let '(fs, resolved) := resolve_host_policy (fetch_host_policy_bytes response) cache fault fs in
  (fs, (do! (policy, failure) := agent_reads (fun _ => resolved) in
        do! _ := reconcile_with policy in
        match failure with
        | Some error => agent_bail ("host policy reconciled from the cache only: " +:+ error)
        | None => agent_ret tt
        end) w).

(** ** The bridge ruleset and the agent's loop *)

Definition table_exists : Agent bool := agent_reads (fun w =>
  let? output := ok_or (query w ["nft"; "list"; "table"; "bridge"; "egressy_isolation"])
    "nft did not start" in
  Ok output.(out_success)).

Definition DELETE_ISOLATION : string := "delete table bridge egressy_isolation" +:+ NL.

Definition apply_policy (mode : IsolationMode) (rules : string) : Agent unit :=
  do! exists_ := table_exists in
  if bool_decide (mode = Disabled) then
    if (exists_ : bool) then run_nft DELETE_ISOLATION else agent_ret tt
  else run_nft (if exists_ then DELETE_ISOLATION +:+ rules else rules).

Definition read_counters (w : World) : Result (gmap string CounterValue) string :=
  let? output := ok_or (query w ["nft"; "-j"; "list"; "table"; "bridge"; "egressy_isolation"])
    "nft did not start" in
  if negb output.(out_success) then Ok ∅
  else
    let? counters := ok_or (decode_counters output.(out_stdout)) "nft listing is not valid JSON" in
    Ok (foldl (fun m '(name, value) => <[name := value]> m) ∅ counters).

(** The variables of [main]'s loop. *)
Record LoopState : Type := {
  ls_last_policy_fingerprint : option string;
  ls_last_reported_counters : gmap string CounterValue;
  ls_host_policy_failures : N;
}.

Definition loop_start : LoopState :=
  {| ls_last_policy_fingerprint := None;
     ls_last_reported_counters := ∅;
     ls_host_policy_failures := 0 |}.

(** What the world answers during one tick. *)
Record TickInput : Type := {
  ti_host_policy : Fetched;
  ti_store_fault : StoreFault;
  ti_isolation_policy : Fetched;
  ti_now_unix_ms : N;
}.

(** The host-policy half of a tick: the run of failures, and whether this
    failure is reported as an error ([Some true]) or a warning. *)
Definition count_failure (failures : N) (r : Result unit string) : N * option bool :=
  match r with
  | Ok _ => (0, None)
  | Err _ =>
      let failures := saturating_add u32_MAX failures 1 in
      (failures, Some (host_policy_failure_is_sustained failures))
  end%N.

(** The isolation half of a tick.  [None] is a panic of the renderer, [Some]
    of an [Err] an error that ends the agent ([apply_policy(..).await?]). *)
Definition tick_isolation (cli : Cli) (i : TickInput) (s : LoopState) (w : World)
    : option (World * list (Command * bool) * Result (LoopState * list ViolationChange) string) :=
  if bool_decide (cli.(cli_mode) = Disabled) then
    Some ((do! _ := apply_policy Disabled "" in
           agent_ret ({| ls_last_policy_fingerprint := Some "Disabled:";
                         ls_last_reported_counters := s.(ls_last_reported_counters);
                         ls_host_policy_failures := s.(ls_host_policy_failures) |}, [])) w)
  else
    match fetch_policy i.(ti_isolation_policy) cli i.(ti_now_unix_ms) with
    | Err _ => Some (w, [], Ok (s, []))
    | Ok policy =>
        let counters := default ∅ (res_ok (read_counters w)) in
        let changes := violation_changes policy counters s.(ls_last_reported_counters) in
        match render_bridge_policy policy cli.(cli_mode) counters with
        | None => None
        | Some (effective_mode, rules) =>
            let fingerprint := policy_fingerprint policy effective_mode in
            let next :=
              {| ls_last_policy_fingerprint := Some fingerprint;
                 ls_last_reported_counters := counters;
                 ls_host_policy_failures := s.(ls_host_policy_failures) |} in
            if bool_decide (s.(ls_last_policy_fingerprint) = Some fingerprint)
            then Some (w, [], Ok (next, changes))
            else Some ((do! _ := apply_policy effective_mode rules in agent_ret (next, changes)) w)
        end
    end.

(** One tick of [main]'s loop: the host policy when the agent owns it, then the
    bridge isolation.  The last component says how a failure was logged. *)
Definition tick (cli : Cli) (cache : option (string * string)) (i : TickInput)
    (fs : Files) (s : LoopState) (w : World)
    : Files * option (World * list (Command * bool) * Result (LoopState * list ViolationChange) string)
      * option bool :=
  if cli.(cli_manage_host_policy) then
    let '(fs, (w, t, r)) := reconcile_host_policy i.(ti_host_policy) cache i.(ti_store_fault) fs w in
    let '(failures, logged) := count_failure s.(ls_host_policy_failures) r in
    let s := {| ls_last_policy_fingerprint := s.(ls_last_policy_fingerprint);
                ls_last_reported_counters := s.(ls_last_reported_counters);
                ls_host_policy_failures := failures |} in
    (fs, match tick_isolation cli i s w with
         | None => None
         | Some (w, t', r) => Some (w, t ++ t', r)
         end, logged)
  else (fs, tick_isolation cli i s w, None).
End agent.
