(* ===== verification/HostAgentProps.v ===== *)
(** Properties of the host-side agent: what a clean host is, the order and
    completeness of the commands that repair it, which policies are installed,
    and when the bridge ruleset is reapplied. *)

From S2P Require Import Prelude RustStr Net BTree HostPolicy Isolation IsolationRender HostAgent.

(** ** Repair as a sequence of steps *)

(** A step whose failure ends the repair, and one whose failure is ignored. *)
Inductive Step : Type := Must (c : Command) | Try (c : Command).
Definition step_command (s : Step) : Command := match s with Must c | Try c => c end.
Definition is_must (s : Step) : bool := match s with Must _ => true | Try _ => false end.

(** The repair of a drift, as a list: the kill switch, the IPv4 rule, the IPv4
    routes, the IPv6 routes, the IPv6 rule. *)
Definition plan (p : HostPolicy) (d : HostPolicyDrift) : list Step :=
  (if d.(nft_table_missing) then [Must (RunNft (render_nft p))]
   else if d.(nft_table_stale)
   then [Must (RunNft ("delete table inet " +:+ HOST_POLICY_TABLE +:+ NL +:+ render_nft p))]
   else [])
  ++ (if d.(rule_missing)
      then [Try (RunIp (rule_del_args p.(hp_rule_priority) p.(hp_subnet) p.(hp_route_table)));
            Must (RunIp (rule_add_args p))]
      else [])
  ++ (if d.(subnet_route_missing) || d.(default_route_missing)
      then Must ∘ RunIp <$> route_replace_args p else [])
  ++ (if d.(ipv6_routes_missing) then Must ∘ RunIp <$> ipv6_route_replace_args p else [])
  ++ (if d.(ipv6_rule_missing)
      then match p.(hp_ipv6) with
           | Some ipv6 =>
               [Try (RunIp ("-6" :: rule_del_args p.(hp_rule_priority) ipv6.(hp6_subnet)
                                      p.(hp_route_table)))]
           | None => []
           end
           ++ match ipv6_rule_add_args p with Some args => [Must (RunIp args)] | None => [] end
      else []).

Section repair.
Context `{!HostEnv}.

Definition run_step (s : Step) : Agent unit :=
  match s with
  | Must (RunNft script) => run_nft script
  | Must (RunIp args) => run_ip args
  | Try c => do! _ := run c in agent_ret tt
  end.

Definition run_steps (l : list Step) : Agent unit := for_each l run_step.

Lemma agent_bind_ret_l {A B} (a : A) (f : A -> Agent B) w : agent_bind (agent_ret a) f w = f a w.
Proof. unfold agent_bind, agent_ret. by destruct (f a w) as [[? ?] ?]. Qed.

Lemma agent_bind_assoc {A B C} (m : Agent A) (f : A -> Agent B) (g : B -> Agent C) w :
  agent_bind (agent_bind m f) g w = agent_bind m (fun a => agent_bind (f a) g) w.
Proof.
  unfold agent_bind. destruct (m w) as [[w1 t1] [a|e]]; [|done].
  destruct (f a w1) as [[w2 t2] [b|e]]; [|done].
  destruct (g b w2) as [[w3 t3] r]. by rewrite app_assoc.
Qed.

Lemma agent_bind_ext {A B} (m m' : Agent A) (f f' : A -> Agent B) w :
  (forall w, m w = m' w) -> (forall a w, f a w = f' a w) ->
  agent_bind m f w = agent_bind m' f' w.
Proof.
  intros Hm Hf. unfold agent_bind. rewrite Hm.
  destruct (m' w) as [[w1 t1] [a|e]]; [|done]. by rewrite Hf.
Qed.

Lemma agent_bind_unit_r (m : Agent unit) w :
  agent_bind m (fun _ => agent_ret tt) w = m w.
Proof.
  unfold agent_bind, agent_ret. destruct (m w) as [[w1 t1] [[]|e]]; [|done]. by rewrite app_nil_r.
Qed.

Lemma run_steps_app l l' w :
  run_steps (l ++ l') w = agent_bind (run_steps l) (fun _ => run_steps l') w.
Proof.
  revert w. induction l as [|s l IH]; intros w.
  - change (run_steps []) with (agent_ret tt). by rewrite agent_bind_ret_l.
  - unfold run_steps in *. cbn -[agent_bind]. rewrite agent_bind_assoc. by apply agent_bind_ext.
Qed.

Lemma run_steps_must_ip l w :
  run_steps (Must ∘ RunIp <$> l) w = for_each l run_ip w.
Proof.
  revert w. induction l as [|a l IH]; intros w; [done|].
  unfold run_steps in *. cbn -[agent_bind]. by apply agent_bind_ext.
Qed.

Lemma apply_host_policy_plan p d w : apply_host_policy p d w = run_steps (plan p d) w.
Proof.
  unfold apply_host_policy, plan. rewrite !run_steps_app.
  apply agent_bind_ext.
  { intros ?. destruct (nft_table_missing d), (nft_table_stale d);
      unfold run_steps; cbn -[agent_bind]; by rewrite ?agent_bind_unit_r. }
  intros _ w1. rewrite !run_steps_app. apply agent_bind_ext.
  { intros ?. destruct (rule_missing d); [|done]. unfold run_steps, when, run_ip_ignoring; cbn -[agent_bind].
    apply agent_bind_ext; [done|]. intros _ ?. by rewrite agent_bind_unit_r. }
  intros _ w2. rewrite !run_steps_app. apply agent_bind_ext.
  { intros ?. destruct (_ || _); [|done]. unfold when. by rewrite run_steps_must_ip. }
  intros _ w3. rewrite !run_steps_app. apply agent_bind_ext.
  { intros ?. destruct (ipv6_routes_missing d); [|done]. unfold when. by rewrite run_steps_must_ip. }
  intros _ w4. destruct (ipv6_rule_missing d); [|done]. unfold when. rewrite run_steps_app.
  apply agent_bind_ext.
  { intros ?. destruct (hp_ipv6 p); [|done]. unfold run_steps, run_ip_ignoring; cbn -[agent_bind].
    by rewrite agent_bind_unit_r. }
  intros _ ?. destruct (ipv6_rule_add_args p); [|done]. unfold run_steps; cbn -[agent_bind].
  by rewrite agent_bind_unit_r.
Qed.

Lemma run_steps_cons s l w :
  run_steps (s :: l) w = agent_bind (run_step s) (fun _ => run_steps l) w.
Proof. done. Qed.

(** What a run of steps records: a prefix of the steps, of which only the last
    may be a failed [Must]. *)
Lemma run_steps_spec l w w' t r :
  run_steps l w = (w', t, r) ->
  exists done_ rest,
    l = done_ ++ rest /\ fst <$> t = step_command <$> done_ /\
    match r with
    | Ok _ => rest = [] /\ forall i s, l !! i = Some s -> is_must s = true ->
                exists c, t !! i = Some (c, true)
    | Err _ => exists t0 c, t = t0 ++ [(c, false)] /\
                 (forall i s, done_ !! i = Some s -> is_must s = true -> (i < length t0)%nat ->
                    exists c, t0 !! i = Some (c, true)) /\
                 exists d s, done_ = d ++ [s] /\ is_must s = true
    end.
Proof.
  revert w w' t r. induction l as [|s l IH]; intros w w' t r.
  { intros [= <- <- <-]. exists [], []. split_and!; done. }
  assert (exists ok w1, run_step s w =
    (w1, [(step_command s, ok)], if is_must s && negb ok then Err match step_command s with
       | RunNft _ => "nft isolation transaction failed"
       | RunIp args => "ip " +:+ join " " args +:+ " failed" end else Ok tt)) as (ok & w1 & Hs).
  { destruct s as [[script|args]|c]; cbn; unfold run_nft, run_ip, run, agent_bind;
      destruct (exec w _) as [w1 ok]; exists ok, w1; by destruct ok. }
  rewrite run_steps_cons. unfold agent_bind. rewrite Hs.
  destruct (is_must s && negb ok) eqn:E.
  - intros [= <- <- <-]. simplify_bools. subst. exists [s], l. cbn. split_and!; try done.
    exists [], (step_command s). split_and!; [done| |by exists [], s]. cbn. lia.
  - destruct (run_steps l w1) as [[w2 t2] r2] eqn:Hl.
    intros [= <- <- <-]. destruct (IH _ _ _ _ Hl) as (d & rest & -> & Ht & Hr).
    exists (s :: d), rest. cbn. rewrite Ht. split_and!; [done|done|].
    assert (is_must s = true -> ok = true) as Hok by (by destruct (is_must s), ok).
    destruct r2 as [u|e].
    + destruct Hr as [-> Hr]. split; [done|]. intros [|i] s' Hi Hm; cbn in Hi |- *.
      * injection Hi as <-. rewrite Hok by done. eauto.
      * eauto.
    + destruct Hr as (t0 & c & -> & Hr & d' & s' & -> & Hm).
      exists ((step_command s, ok) :: t0), c. split_and!; [done| |].
      * intros [|i] s'' Hi Hm' Hlt; cbn in Hi, Hlt |- *.
        -- injection Hi as <-. rewrite Hok by done. eauto.
        -- eapply Hr; eauto. lia.
      * by exists (s :: d'), s'.
Qed.
End repair.

(** ** The repaired host *)

Section host.
Context `{!HostEnv, !IpNetCrate}.

(** The host carries the policy: its rule and routes, a current kill switch,
    and the IPv6 state where the policy routes IPv6. *)
Definition host_carries (p : HostPolicy) (w : World) : Prop :=
  exists rules routes listing,
    observe_ip_rules w V4 = Ok rules /\
    observe_ip_routes w V4 p.(hp_route_table) = Ok routes /\
    observe_host_table w = Ok (Some listing) /\
    carries_ipv4 p rules routes /\
    nft_table_is_current p listing = true /\
    match p.(hp_ipv6) with
    | None => True
    | Some ipv6 =>
        exists rules6 routes6,
          observe_ip_rules w V6 = Ok rules6 /\
          observe_ip_routes w V6 p.(hp_route_table) = Ok routes6 /\
          carries_ipv6 p ipv6 rules6 routes6
    end.

#[local] Opaque observe_ip_rules observe_ip_routes observe_host_table.

(** The drift the reconciliation computes from what it observes. *)
Definition observed_drift (p : HostPolicy) (w : World) : Result HostPolicyDrift string :=
  let? rules := observe_ip_rules w V4 in
  let? routes := observe_ip_routes w V4 p.(hp_route_table) in
  let? listing := observe_host_table w in
  let drift := set_stale (detect_drift rules routes (bool_decide (is_Some listing)) p)
    (match listing with Some l => negb (nft_table_is_current p l) | None => false end) in
  if bool_decide (is_Some p.(hp_ipv6)) then
    let? rules6 := observe_ip_rules w V6 in
    let? routes6 := observe_ip_routes w V6 p.(hp_route_table) in
    Ok (detect_ipv6_drift drift rules6 routes6 p)
  else Ok drift.

Lemma reconcile_with_drift p w :
  reconcile_with p w =
  match observed_drift p w with
  | Err e => (w, [], Err e)
  | Ok d => if is_clean d then (w, [], Ok tt) else run_steps (plan p d) w
  end.
Proof.
  unfold reconcile_with, observed_drift, read_ip_rules, read_ip_routes, read_host_table,
    agent_reads, agent_bind, agent_ret.
  destruct (observe_ip_rules w V4) as [rules|e]; [|done]. cbn -[is_clean plan].
  destruct (observe_ip_routes w V4 _) as [routes|e]; [|done]. cbn -[is_clean plan].
  destruct (observe_host_table w) as [listing|e]; [|done]. cbn -[is_clean plan].
  case_bool_decide.
  1: destruct (observe_ip_rules w V6) as [rules6|e]; [|done]; cbn -[is_clean plan].
  1: destruct (observe_ip_routes w V6 _) as [routes6|e]; [|done]; cbn -[is_clean plan].
  all: destruct (is_clean _); [done|]; rewrite apply_host_policy_plan.
  all: by destruct (run_steps _ w) as [[? ?] ?].
Qed.

Lemma is_clean_true d : is_clean d = true <-> d = drift_default.
Proof. apply bool_decide_eq_true. Qed.

Lemma detect_drift_clean rules routes listing p :
  set_stale (detect_drift rules routes (bool_decide (is_Some listing)) p)
    (match listing with Some l => negb (nft_table_is_current p l) | None => false end)
    = drift_default <->
  carries_ipv4 p rules routes /\
  exists l, listing = Some l /\ nft_table_is_current p l = true.
Proof.
  unfold detect_drift, carries_ipv4. rewrite <- rule_present_true, <- routes_present_true.
  destruct (routes_present routes p) as [subnet_route default_route].
  destruct (rule_present rules p), subnet_route, default_route, listing as [l|]; cbn;
    try destruct (nft_table_is_current p l) eqn:E; cbn;
    (split; [intros Hd; try discriminate Hd | intros Hd; decompose_all; try congruence]).
  all: first [done | by eauto 6].
Qed.

Lemma detect_ipv6_drift_clean d rules routes p :
  d.(ipv6_rule_missing) = false -> d.(ipv6_routes_missing) = false ->
  detect_ipv6_drift d rules routes p = drift_default <->
  d = drift_default /\
  match p.(hp_ipv6) with None => True | Some ipv6 => carries_ipv6 p ipv6 rules routes end.
Proof.
  intros H1 H2. unfold detect_ipv6_drift, carries_ipv6.
  destruct (hp_ipv6 p) as [ipv6|]; [|intuition].
  rewrite <- ipv6_rule_present_true, <- ipv6_routes_present_true.
  destruct d; cbn in *; subst.
  destruct (ipv6_rule_present rules p ipv6), (ipv6_routes_present routes p ipv6); cbn;
    (split; [intros Hd; try discriminate Hd; injection Hd as -> -> -> -> ->; done
            | intros (Hd & ? & ?); try discriminate; injection Hd as -> -> -> -> ->; done]).
Qed.

Lemma observed_drift_clean p w :
  observed_drift p w = Ok drift_default <-> host_carries p w.
Proof.
  unfold observed_drift, host_carries. rewrite res_bind_Ok.
  setoid_rewrite res_bind_Ok. setoid_rewrite res_bind_Ok.
  case_bool_decide as H6.
  - destruct H6 as [ipv6 E]. rewrite E. setoid_rewrite res_bind_Ok. setoid_rewrite res_bind_Ok.
    split.
    + intros (rules & ? & routes & ? & listing & ? & rules6 & ? & routes6 & ? & [= Hd]).
      apply detect_ipv6_drift_clean in Hd as [Hd H6]; [|by unfold detect_drift; destruct (routes_present _ _)..].
      apply detect_drift_clean in Hd as (? & l & -> & ?). rewrite E in H6.
      exists rules, routes, l. split_and!; try done. by exists rules6, routes6.
    + intros (rules & routes & listing & ? & ? & ? & ? & ? & rules6 & routes6 & ? & ? & ?).
      exists rules. split; [done|]. exists routes. split; [done|]. exists (Some listing). split; [done|].
      exists rules6. split; [done|]. exists routes6. split; [done|]. f_equal.
      apply detect_ipv6_drift_clean; [by unfold detect_drift; destruct (routes_present _ _)..|].
      rewrite E. split; [|done]. apply detect_drift_clean. eauto.
  - apply eq_None_not_Some in H6 as E. rewrite E. split.
    + intros (rules & ? & routes & ? & listing & ? & Hd%(inj Ok)).
      apply detect_drift_clean in Hd as (? & l & -> & ?).
      exists rules, routes, l. by split_and!.
    + intros (rules & routes & listing & ? & ? & ? & ? & ? & _).
      exists rules. split; [done|]. exists routes. split; [done|]. exists (Some listing). split; [done|].
      f_equal. apply detect_drift_clean. eauto.
Qed.

(** The IPv6 parts of an observed drift are set only when the policy routes IPv6. *)
Lemma observed_drift_ipv6 p w d :
  observed_drift p w = Ok d -> hp_ipv6 p = None ->
  d.(ipv6_rule_missing) = false /\ d.(ipv6_routes_missing) = false.
Proof.
  unfold observed_drift. intros Hd E. rewrite E in Hd. repeat setoid_rewrite res_bind_Ok in Hd.
  destruct Hd as (rules & ? & routes & ? & listing & ? & [= <-]).
  unfold detect_drift. by destruct (routes_present routes p).
Qed.

Lemma plan_nonempty p w d :
  observed_drift p w = Ok d -> is_clean d = false -> plan p d <> [].
Proof.
  intros Hd Hc Hp. pose proof (observed_drift_ipv6 p w d Hd) as H6.
  unfold plan in Hp. repeat (apply app_nil in Hp as [? Hp]).
  assert (d = drift_default) as ->; [|by vm_compute in Hc].
  unfold ipv6_rule_add_args, ipv6_route_replace_args in *.
  destruct d as [[] [] [] [] [] [] []], (hp_ipv6 p); cbn in *;
    try discriminate; try (destruct H6; [done|]; done); done.
Qed.

(** the reconciliation leaves a host alone exactly when the host carries
    the policy; on any other host it reports an error or runs commands. *)
Theorem reconcile_untouched p w :
  reconcile_with p w = (w, [], Ok tt) <-> host_carries p w.
Proof.
  rewrite reconcile_with_drift, <- observed_drift_clean.
  destruct (observed_drift p w) as [d|e] eqn:Hd; [|split; intros [=]].
  destruct (is_clean d) eqn:Hc.
  - apply is_clean_true in Hc as ->. done.
  - split.
    + intros Hr. destruct (run_steps_spec _ _ _ _ _ Hr) as (done_ & rest & Hp & Ht & -> & _).
      symmetry in Ht. apply fmap_nil_inv in Ht as ->. rewrite app_nil_r in Hp.
      destruct (plan_nonempty p w d Hd Hc Hp).
    + intros [= ->]. by vm_compute in Hc.
Qed.

Definition is_ip (c : Command) : bool := match c with RunIp _ => true | RunNft _ => false end.

(** Only the first step of a plan loads a ruleset. *)
Lemma plan_head p d :
  exists nft ips, plan p d = nft ++ ips /\ forallb is_ip (step_command <$> ips) = true /\
    (nft = [] \/ exists script, nft = [Must (RunNft script)]).
Proof.
  unfold plan. eexists _, _. split; [reflexivity|]. split.
  - unfold ipv6_rule_add_args, ipv6_route_replace_args.
    destruct (rule_missing d), (subnet_route_missing d || default_route_missing d),
      (ipv6_routes_missing d), (ipv6_rule_missing d), (hp_ipv6 p); reflexivity.
  - destruct (nft_table_missing d), (nft_table_stale d); eauto.
Qed.

Lemma trace_must (l : list Step) (t : list (Command * bool)) i c :
  fst <$> t = step_command <$> l -> l !! i = Some (Must c) ->
  (exists c', t !! i = Some (c', true)) -> t !! i = Some (c, true).
Proof.
  intros Ht Hl [c' Hi].
  assert ((fst <$> t) !! i = (step_command <$> l) !! i) as Heq by (by rewrite Ht).
  rewrite !list_lookup_fmap, Hi, Hl in Heq. cbn in Heq. by injection Heq as ->.
Qed.

(** What the prefix of a plan that ran says of its ruleset. *)
Lemma prefix_nft_first p d (done_ rest : list Step) (t : list (Command * bool)) script :
  plan p d = done_ ++ rest -> fst <$> t = step_command <$> done_ ->
  RunNft script ∈ fst <$> t ->
  exists ok t', t = (RunNft script, ok) :: t' /\ done_ !! 0%nat = Some (Must (RunNft script)).
Proof.
  intros Hp Ht Hin. destruct (plan_head p d) as (nft & ips & Hs & Hips & Hnft).
  assert (forall s, RunNft script ∈ step_command <$> s -> forallb is_ip (step_command <$> s) = false)
    as Hno.
  { intros s Hs'. apply not_true_iff_false. rewrite forallb_elem. intros Hall. by apply Hall in Hs'. }
  rewrite Ht in Hin. rewrite Hp in Hs.
  assert (RunNft script ∈ step_command <$> nft ++ ips) as Hin'.
  { rewrite <- Hs, fmap_app, elem_of_app. by left. }
  rewrite fmap_app, elem_of_app in Hin'.
  destruct Hin' as [Hin'|Hin']; [|by rewrite (Hno ips) in Hips].
  destruct Hnft as [->|[script' ->]]; [by apply elem_of_nil in Hin'|].
  apply list_elem_of_singleton in Hin' as [= <-].
  destruct done_ as [|s done_]; [by apply elem_of_nil in Hin|].
  cbn in Hs. injection Hs as -> _. destruct t as [|[c ok] t]; [done|].
  injection Ht as -> _. eauto.
Qed.

(** C33: the repair runs its commands in one order: the kill switch before any
    [ip] command, every unreachable default before the tunnel default, the
    IPv6 rule last.  It runs a prefix of the planned commands; when it succeeds
    it has run them all and none but the ignored deletions failed, and when it
    fails it stopped at the first required command that did. *)
Theorem reconcile_follows_plan p w w' t r d
    (Hd : observed_drift p w = Ok d)
    (Hr : reconcile_with p w = (w', t, r)) :
  let steps := if is_clean d then [] else plan p d in
  fst <$> t `prefix_of` step_command <$> steps /\
  (forall script, RunNft script ∈ fst <$> t -> exists ok t', t = (RunNft script, ok) :: t' /\
     (ok = false -> t' = [])) /\
  match r with
  | Ok _ => fst <$> t = step_command <$> steps /\
      forall i c, steps !! i = Some (Must c) -> t !! i = Some (c, true)
  | Err _ => exists t0 c, t = t0 ++ [(c, false)] /\ Must c ∈ steps /\
      forall i c, steps !! i = Some (Must c) -> (i < length t0)%nat -> t0 !! i = Some (c, true)
  end.
Proof.
  rewrite reconcile_with_drift, Hd in Hr. cbn zeta.
  destruct (is_clean d).
  { injection Hr as <- <- <-. split_and!; [done| |done|done].
    intros script Hin. by apply elem_of_nil in Hin. }
  apply run_steps_spec in Hr as (done_ & rest & Hp & Ht & Hr). split_and!.
  - rewrite Ht, Hp, fmap_app. by apply prefix_app_r.
  - intros script Hin. destruct (prefix_nft_first p d done_ rest t script Hp Ht Hin)
      as (ok & t' & -> & H0'). exists ok, t'. split; [done|]. intros ->.
    destruct r as [u|e].
    + destruct Hr as [-> Hr]. rewrite app_nil_r in Hp. rewrite Hp in Hr.
      by destruct (Hr 0%nat _ H0' eq_refl) as [? [=]].
    + destruct Hr as ([|x t0] & c & Hx & Hr & _); [by injection Hx|].
      injection Hx as <- _. destruct (Hr 0%nat _ H0' eq_refl) as [? [=]]. cbn. lia.
  - destruct r as [u|e].
    + destruct Hr as [-> Hr]. rewrite app_nil_r in Hp. rewrite Hp in *. split; [done|].
      intros i c Hi. eapply trace_must; eauto.
    + destruct Hr as (t0 & c & -> & Hr & d0 & s & -> & Hm).
      rewrite !fmap_app in Ht. apply app_inj_2 in Ht as [Ht [= Hs]]; [|done].
      exists t0, c. split; [done|]. split.
      * destruct s as [c'|c']; [|done]. cbn in Hs. subst c'. rewrite Hp. set_solver.
      * intros i c0 Hi Hlt.
        assert (length t0 = length d0) as Hl
          by (apply (f_equal length) in Ht; by rewrite !length_fmap in Ht).
        rewrite Hp, <- app_assoc, lookup_app_l in Hi by lia.
        eapply (trace_must d0); eauto. apply (Hr i (Must c0)); [|done|done].
        rewrite lookup_app_l by lia. done.
Qed.
End host.

(** ** Which policies are installed *)

Section documents.
Context `{!HostEnv, !IpNetCrate}.

(** What the agent checks of a host policy before it touches the host. *)
Definition policy_checked (p : HostPolicy) : Prop :=
  p.(hp_schema_version) = (match p.(hp_ipv6) with Some _ => 2 | None => 1 end)%N /\
  is_Some (ipv4net_parse p.(hp_subnet)) /\ is_Some (parse_ipv4 p.(hp_gateway_ip)) /\
  p.(hp_bridge) <> "" /\ p.(hp_route_table) <> 0%N /\
  match p.(hp_ipv6) with
  | Some ipv6 => is_Some (ipv6net_parse ipv6.(hp6_subnet)) /\ is_Some (parse_ipv6 ipv6.(hp6_gateway_ip))
  | None => True
  end.

Lemma parse_host_policy_Ok body p :
  parse_host_policy body = Ok p -> decode_host_policy body = Some p /\ policy_checked p.
Proof.
  unfold parse_host_policy, policy_checked. intros Hp. repeat setoid_rewrite res_bind_Ok in Hp.
  destruct Hp as (q & Hd%ok_or_Ok & [] & Hs%ensure_Ok & [] & H6 & n & Hn%ok_or_Ok & g & Hg%ok_or_Ok
    & [] & Hb%ensure_Ok & [= <-]).
  simplify_bools. split; [done|].
  assert (hp_bridge q <> "") by (by destruct (hp_bridge q)).
  split_and!; eauto.
  - rewrite Hs. destruct (hp_ipv6 q); [by rewrite bool_decide_eq_true_2|done].
  - destruct (hp_ipv6 q); [|done]. repeat setoid_rewrite res_bind_Ok in H6.
    destruct H6 as (? & ?%ok_or_Ok & ? & ?%ok_or_Ok & _). eauto.
Qed.

#[local] Opaque parse_host_policy.

Lemma store_cached_policy_lookup staging path body fault fs :
  staging <> path ->
  let fs' := (store_cached_policy staging path body fault fs).1 in
  fs' !! path = fs !! path \/ fs' !! path = Some body.
Proof.
  intros Hne fs'. subst fs'. unfold store_cached_policy. case_bool_decide as Hc; [by left|].
  unfold Files in *; destruct fault as [|[partial|]|]; cbn; [right|left..]; first [done | by simplify_map_eq].
Qed.

(** only a checked policy reaches the host.  Whatever is resolved, from the
    gateway or from the cache, passed every check of the document; a policy
    resolved without an error came from the gateway's answer, one resolved
    with an error is the cached one; and the cache file is either unchanged or
    holds the whole body of a checked policy, however the write went wrong. *)
Theorem resolved_policy_checked response staging path fault fs fs' r
    (Hstaging : staging <> path)
    (Hr : resolve_host_policy (fetch_host_policy_bytes response) (Some (staging, path)) fault fs
          = (fs', r)) :
  (forall p failure, r = Ok (p, failure) ->
     policy_checked p /\
     exists body, decode_host_policy body = Some p /\
       match failure with
       | None => exists response', response = Ok response' /\ response'.(HostAgent.body) = body
       | Some _ => fs !! path = Some body
       end) /\
  (fs' !! path = fs !! path \/
   exists body p, fs' !! path = Some body /\ decode_host_policy body = Some p /\ policy_checked p).
Proof.
  destruct (fetch_host_policy_bytes response) as [[p body]|error] eqn:Hf; cbn in Hr.
  - injection Hr as <- <-. unfold fetch_host_policy_bytes, bounded_body in Hf.
    repeat setoid_rewrite res_bind_Ok in Hf.
    destruct Hf as (response' & -> & ? & (_ & _ & _ & _ & [= <-]) & q & Hq & [= -> <-]).
    apply parse_host_policy_Ok in Hq as [Hd Hc]. split.
    + intros ? ? [= <- <-]. eauto 10.
    + destruct (store_cached_policy_lookup staging path (HostAgent.body response') fault fs Hstaging)
        as [?|?]; eauto 10.
  - injection Hr as <- <-. split; [|by left]. intros p failure Hp. unfold load_cached_policy in Hp.
    destruct (fs !! path) as [body|]; [|done]. cbn in Hp.
    destruct (parse_host_policy body) as [q|] eqn:Hq; [|done].
    injection Hp as -> <-. apply parse_host_policy_Ok in Hq as [Hd Hc]. eauto 10.
Qed.

(** a fetched isolation policy is fresh and cannot crash the agent.  It has
    the supported schema, its age and its lead are both within the stale
    threshold, and rendering it, in any mode and with any counters, does not
    panic ([ipnet]'s [hosts()] of a network is never empty). *)
Theorem fetched_policy_renders response cli now policy requested counters
    (Hhosts : forall n, is_Some (ipv4net_first_host n))
    (Hf : fetch_policy response cli now = Ok policy) :
  policy.(ip_schema_version) = 1%N /\
  (cli.(cli_stale_seconds) * 1000 <= u64_MAX ->
     now - policy.(ip_generated_at_unix_ms) <= cli.(cli_stale_seconds) * 1000 /\
     policy.(ip_generated_at_unix_ms) - now <= cli.(cli_stale_seconds) * 1000)%N /\
  is_Some (render_bridge_policy policy requested counters).
Proof.
  unfold fetch_policy, bounded_body in Hf. repeat setoid_rewrite res_bind_Ok in Hf.
  destruct Hf as (r & _ & ? & _ & q & _ & [] & Hs%ensure_Ok & n & Hn%ok_or_Ok & [] & H6
    & [] & Ht%ensure_Ok & [= <-]).
  unfold policy_is_stale, saturating_mul, saturating_sub in Ht. simplify_bools.
  split_and!; [done|lia|].
  unfold render_bridge_policy. case_bool_decide; [eauto|].
  rewrite Hn. cbn. destruct (Hhosts n) as [h Hh]. rewrite Hh. cbn.
  assert (is_Some (ipv6_rules_of (effective_mode_of (ip_eligible_for_enforcement q) requested) q))
    as [rules ->]; [|by eauto].
  unfold ipv6_rules_of. destruct (ip_ipv6_subnet q) as [subnet|]; [|eauto].
  rewrite res_bind_Ok in H6. destruct H6 as (? & Hv%ok_or_Ok & _). rewrite Hv. cbn. eauto.
Qed.

Lemma effective_mode_enabled eligible requested :
  requested <> Disabled -> effective_mode_of eligible requested <> Disabled.
Proof. by destruct requested, eligible. Qed.

(** the ruleset is applied when the policy's content changes, and only
    then.  A tick that ended well from a fresh start has loaded the rendered
    ruleset in one transaction; after any tick that ended well, a tick that
    fetches the same policy at another time, on any host and with any counters,
    runs no command; and a tick whose fetch fails runs none and keeps the
    loop's state. *)
Theorem tick_isolation_quiet cli i s w w' t s' changes policy
    (Hmode : cli.(cli_mode) <> Disabled)
    (Hf : fetch_policy i.(ti_isolation_policy) cli i.(ti_now_unix_ms) = Ok policy)
    (Ht : tick_isolation cli i s w = Some (w', t, Ok (s', changes))) :
  (s.(ls_last_policy_fingerprint) = None ->
     exists prefix rules counters,
       option_map snd (render_bridge_policy policy cli.(cli_mode) counters) = Some rules /\
       t = [(RunNft (prefix +:+ rules), true)] /\ (prefix = "" \/ prefix = DELETE_ISOLATION)) /\
  forall i2 w2,
    match fetch_policy i2.(ti_isolation_policy) cli i2.(ti_now_unix_ms) with
    | Err _ => tick_isolation cli i2 s' w2 = Some (w2, [], Ok (s', []))
    | Ok policy2 =>
        without_timestamp policy2 = without_timestamp policy ->
        forall r, tick_isolation cli i2 s' w2 = Some r -> exists s2 changes2, r = (w2, [], Ok (s2, changes2))
    end.
Proof.
  split.
  { intros Hs. unfold tick_isolation in Ht. rewrite bool_decide_eq_false_2, Hf in Ht by done.
    set (counters := default ∅ _) in Ht.
    destruct (render_bridge_policy policy _ counters) as [[mode rules]|] eqn:Hr; [|done].
    apply render_mode in Hr as Hm. rewrite Hs, bool_decide_eq_false_2 in Ht by done.
    apply (effective_mode_enabled policy.(ip_eligible_for_enforcement)) in Hmode as Hen.
    rewrite <- Hm in Hen.
    unfold apply_policy, table_exists, agent_reads, agent_bind, agent_ret in Ht.
    destruct (let? output := _ in _) as [ex|]; [|done].
    rewrite (bool_decide_eq_false_2 (mode = Disabled)) in Ht by done.
    unfold run_nft, run, agent_bind, agent_ret, agent_bail in Ht.
    destruct (exec w _) as [w1 [|]]; [|done]. simplify_eq/=.
    exists (if ex then DELETE_ISOLATION else ""), rules, counters. rewrite Hr.
    split_and!; [done| |destruct ex; eauto]. by destruct ex. }
  intros i2 w2. unfold tick_isolation in *.
  destruct (bool_decide_reflect (cli_mode cli = Disabled)); [done|].
  destruct (fetch_policy (ti_isolation_policy i2) cli _) as [policy2|]; [|done].
  intros Heq r Hr. rewrite Hf in Ht.
  destruct (render_bridge_policy policy _ _) as [[mode rules]|] eqn:H1; [|done].
  destruct (render_bridge_policy policy2 _ _) as [[mode2 rules2]|] eqn:H2; [|done].
  apply render_mode in H1 as ->, H2 as ->.
  assert (ip_eligible_for_enforcement policy2 = ip_eligible_for_enforcement policy) as He
    by apply (f_equal ip_eligible_for_enforcement Heq).
  assert (ls_last_policy_fingerprint s' = Some (policy_fingerprint policy
    (effective_mode_of (ip_eligible_for_enforcement policy) (cli_mode cli)))) as Hs.
  { clear Hr. case_bool_decide; [by simplify_eq|].
    unfold agent_bind, agent_ret in Ht.
    destruct (apply_policy _ rules w) as [[w1 t1] [[]|e]]; by simplify_eq. }
  rewrite bool_decide_eq_true_2 in Hr; [injection Hr as <-; eauto|].
  rewrite Hs. unfold policy_fingerprint. by rewrite Heq, He.
Qed.
End documents.

(** ** A concrete host *)

(** A host that remembers the commands it ran and carries what they install:
    a listing is the last loaded script, and the documents are decoded by
    fixed examples. *)
Definition sample_host_policy : HostPolicy :=
  new 1700000000000 "172.30.0.0/24" "vpn-egress0" "172.30.0.2" 51820.

Definition sample_isolation_policy : IsolationPolicy :=
  {| ip_schema_version := 1; ip_generated_at_unix_ms := 1000; ip_network := "net"; ip_bridge := "br";
     ip_subnet := "172.30.0.0/24"; ip_eligible_for_enforcement := false;
     ip_reason_code := "isolation.no_participants"; ip_safe_message := ""; ip_issues := [];
     ip_participants := []; ip_ipv6_subnet := None; ip_bound_range := None;
     ip_gateway_address := None; ip_rejected := [] |}.

Definition sample_rule : IpRuleEntry :=
  {| rule_priority := Some 100%N; rule_src := Some "172.30.0.0"; rule_srclen := Some 24%N;
     rule_table := Some "51820" |}.

Definition sample_route (dst dev gateway type : option string) : IpRouteEntry :=
  {| route_dst := dst; route_dev := dev; route_gateway := gateway; route_scope := None;
     route_type := type |}.

Definition sample_routes : list IpRouteEntry :=
  [sample_route (Some "172.30.0.0/24") (Some "vpn-egress0") None None;
   sample_route (Some "default") (Some "vpn-egress0") (Some "172.30.0.2") None;
   sample_route (Some "default") None None (Some "unreachable")].

#[local] Instance sample_host : HostEnv := {|
  World := list Command;
  query w args :=
    match args with
    | "nft" :: "list" :: "table" :: "inet" :: _ =>
        Some match w with
             | [] => {| out_success := false; out_stdout := "" |}
             | _ => {| out_success := true; out_stdout := render_nft sample_host_policy |}
             end
    | "nft" :: _ => Some {| out_success := false; out_stdout := "" |}
    | _ => Some {| out_success := true;
                   out_stdout := match w with [] => "[]" | _ => "[installed]" end |}
    end;
  exec w c := (w ++ [c], true);
  decode_rules s := Some (if String.eqb s "[]" then [] else [sample_rule]);
  decode_routes s := Some (if String.eqb s "[]" then [] else sample_routes);
  decode_counters _ := Some [];
  decode_host_policy _ := Some sample_host_policy;
  decode_isolation_policy _ := Some sample_isolation_policy;
  encode_isolation_policy p := p.(ip_subnet);
|}.
#[local] Existing Instance CidrNet.crate.

Definition empty_host : World := ([] : list Command).

Definition sample_response : Fetched := Ok {| content_length := None; body := "policy" |}.
Definition sample_cli : Cli :=
  {| cli_policy_url := ""; cli_mode := Enforce; cli_interval_seconds := 5; cli_stale_seconds := 30;
     cli_manage_host_policy := true; cli_host_policy_url := None; cli_host_policy_cache := None |}.
Definition sample_tick (now : N) : TickInput :=
  {| ti_host_policy := sample_response; ti_store_fault := NoFault;
     ti_isolation_policy := sample_response; ti_now_unix_ms := now |}.

Definition reconciled : World * list (Command * bool) * Result unit string :=
  reconcile_with sample_host_policy empty_host.
Definition drift_found : HostPolicyDrift :=
  default drift_default (res_ok (observed_drift sample_host_policy empty_host)).

(** An empty host is repaired by six commands, and then carries the policy. *)
Lemma reconcile_follows_plan_witness :
  length reconciled.1.2 = 6%nat /\
  fst <$> reconciled.1.2 = step_command <$> plan sample_host_policy drift_found.
Proof.
  split; [vm_compute; reflexivity|].
  refine (proj1 (proj2 (proj2 (reconcile_follows_plan sample_host_policy empty_host
    reconciled.1.1 reconciled.1.2 (Ok tt) drift_found _ _)))); vm_compute; reflexivity.
Defined.

Example repaired_host_is_carried : host_carries sample_host_policy (reconciled.1.1).
Proof. apply observed_drift_clean. vm_compute. reflexivity. Qed.

Lemma resolved_policy_checked_witness : policy_checked sample_host_policy.
Proof.
  destruct (resolved_policy_checked sample_response "cache.tmp" "cache" RenameFails ∅
    (<["cache.tmp" := "policy"]> ∅) (Ok (sample_host_policy, None)) ltac:(discriminate) eq_refl)
    as [H _].
  exact (proj1 (H sample_host_policy None eq_refl)).
Defined.

Lemma fetched_policy_renders_witness :
  is_Some (render_bridge_policy sample_isolation_policy Enforce ∅).
Proof.
  refine (proj2 (proj2 (fetched_policy_renders sample_response sample_cli 2000
    sample_isolation_policy Enforce ∅ _ _))); [by eexists|vm_compute; reflexivity].
Defined.

Definition first_tick := tick_isolation sample_cli (sample_tick 2000) loop_start empty_host.

Lemma tick_isolation_quiet_witness :
  exists w t s, first_tick = Some (w, t, Ok (s, [])) /\ length t = 1%nat /\
    tick_isolation sample_cli (sample_tick 99000) s w = Some (w, [], Ok (s, [])).
Proof.
  destruct first_tick as [[[w t] [[s changes]|e]]|] eqn:E; [|by vm_compute in E..].
  exists w, t, s.
  destruct (tick_isolation_quiet sample_cli (sample_tick 2000) loop_start empty_host w t s changes
    sample_isolation_policy ltac:(discriminate) ltac:(vm_compute; reflexivity) E) as [H1 H2].
  specialize (H2 (sample_tick 99000) w).
  assert (changes = []) as -> by (vm_compute in E; by simplify_eq).
  split; [done|]. split; [|exact H2].
  destruct (H1 eq_refl) as (? & ? & ? & _ & -> & _). done.
Defined.
