(* ===== verification/WireGuard.v ===== *)
(** WireGuard profiles (src/src/wireguard.rs): parsing with its guards,
    redaction, the rendered configurations, structured edits and the
    classification of a change. *)

From S2P Require Import Prelude RustStr Net.

Definition MAX_PROFILE_BYTES : N := 262144.
Definition MAX_PEERS : nat := 32.
Definition MAX_LIST_VALUES : nat := 128.

Record ProfileError : Type := {
  pe_code : string;
  pe_field : option string;
  pe_line : option nat;
  pe_message : string;
}.

Definition error_at (field : string) (line : nat) (message : string) : ProfileError :=
  {| pe_code := "invalid_wireguard_profile"; pe_field := Some field; pe_line := Some line;
     pe_message := message |}.
Definition error_general (message : string) : ProfileError :=
  {| pe_code := "invalid_wireguard_profile"; pe_field := None; pe_line := None;
     pe_message := message |}.

(** The newtype [Secret], which prints as [Secret([REDACTED])]. *)
Inductive Secret : Type := MkSecret (value : string).
Definition expose (s : Secret) : string := match s with MkSecret v => v end.

#[export] Instance Secret_eq_dec : EqDecision Secret.
Proof. solve_decision. Defined.

Definition secret_parse (value field : string) (line : nat) : Result Secret ProfileError :=
  let value := trim value in
  let? _ := ensure (negb (is_empty value || (128 <? String.length value)%nat))
    (error_at field line "secret must be 1-128 characters") in
  Ok (MkSecret value).

Record Endpoint : Type := {
  ep_host : string;
  ep_port : N;
  ep_address_family : string;
}.
#[export] Instance Endpoint_eq_dec : EqDecision Endpoint.
Proof. solve_decision. Defined.

Section profile.
Context `{!IpNetCrate}.

Record Interface : Type := {
  if_private_key : option Secret;
  if_addresses : list IpNet;
  if_dns : list IpAddr;
  if_listen_port : option N;
  if_mtu : option N;
}.

Record Peer : Type := {
  pr_public_key : string;
  pr_preshared_key : option Secret;
  pr_endpoint : option Endpoint;
  pr_allowed_ips : list IpNet;
  pr_persistent_keepalive : option N;
}.

Record WireGuardProfile : Type := {
  wg_interface : Interface;
  wg_peers : list Peer;
}.

#[export] Instance Interface_eq_dec : EqDecision Interface.
Proof. solve_decision. Defined.
#[export] Instance Peer_eq_dec : EqDecision Peer.
Proof. solve_decision. Defined.
#[export] Instance WireGuardProfile_eq_dec : EqDecision WireGuardProfile.
Proof. solve_decision. Defined.

Definition interface_default : Interface :=
  {| if_private_key := None; if_addresses := []; if_dns := []; if_listen_port := None;
     if_mtu := None |}.
Definition peer_default : Peer :=
  {| pr_public_key := ""; pr_preshared_key := None; pr_endpoint := None; pr_allowed_ips := [];
     pr_persistent_keepalive := None |}.

Inductive ApplyKind : Type := NoChange | DnsReload | SyncConf | SyncConfAndRoutes | TunnelRecycle.

#[export] Instance ApplyKind_eq_dec : EqDecision ApplyKind.
Proof. solve_decision. Defined.

(** ** Directive values *)

Definition reject_owned_or_dangerous (key : string) (line : nat) : Result unit ProfileError :=
  let normalized := to_ascii_lowercase key in
  if String.eqb normalized "table" then
    Err (error_at "Interface.Table" line "Table is owned by Egressy and must not be supplied")
  else if existsb (String.eqb normalized)
            ["saveconfig"; "preup"; "postup"; "predown"; "postdown"] then
    Err (error_at key line "privileged hooks and SaveConfig are prohibited")
  else Ok tt.

Definition set_once {T} (target : option T) (value : T) (field : string) (line : nat)
    : Result (option T) ProfileError :=
  match target with
  | Some _ => Err (error_at field line "directive may appear only once")
  | None => Ok (Some value)
  end.

Definition set_string_once (target value field : string) (line : nat)
    : Result string ProfileError :=
  let? _ := ensure (is_empty target) (error_at field line "directive may appear only once") in
  let? _ := ensure (negb (is_empty value || (128 <? String.length value)%nat))
    (error_at field line "key must be 1-128 characters") in
  Ok value.

Definition extend_unique {T} `{EqDecision T} (target values : list T) (field : string) (line : nat)
    : Result (list T) ProfileError :=
  let? _ := ensure (length target + length values <=? MAX_LIST_VALUES)%nat
    (error_at field line "field exceeds the 128-value limit") in
  foldM_res (fun target value =>
    if bool_decide (value ∈ target) then Err (error_at field line "duplicate value")
    else Ok (target ++ [value])) target values.

Definition parse_list {T} (parse : string -> option T) (value field : string) (line : nat)
    : Result (list T) ProfileError :=
  let? values :=
    mapM_res (fun v => ok_or (parse v) (error_at field line "invalid address or network"))
      (List.filter (fun v => negb (is_empty v)) (trim <$> split_char "," value)) in
  let? _ := ensure (negb (length values =? 0)%nat)
    (error_at field line "at least one value is required") in
  Ok values.

Definition parse_number (value field : string) (line : nat) (minimum maximum : N)
    : Result N ProfileError :=
  let? value := ok_or (parse_u16 value) (error_at field line "invalid integer") in
  let? _ := ensure ((minimum <=? value) && (value <=? maximum))%N
    (error_at field line "integer is outside the supported range") in
  Ok value.

Definition hostname_char (c : ascii) : bool :=
  is_ascii_alphanumeric c || Ascii.eqb c "-" || Ascii.eqb c ".".

Definition socket_ip (s : SocketAddr) : IpAddr :=
  match s with SocketAddr_V4 ip _ => IpAddr_V4 ip | SocketAddr_V6 ip _ _ => IpAddr_V6 ip end.
Definition socket_port (s : SocketAddr) : N :=
  match s with SocketAddr_V4 _ port => port | SocketAddr_V6 _ port _ => port end.
Definition socket_is_ipv4 (s : SocketAddr) : bool :=
  match s with SocketAddr_V4 _ _ => true | SocketAddr_V6 _ _ _ => false end.

Definition parse_endpoint (value field : string) (line : nat) : Result Endpoint ProfileError :=
  match parse_socket value with
  | Some socket =>
      Ok {| ep_host := show_ip (socket_ip socket); ep_port := socket_port socket;
            ep_address_family := if socket_is_ipv4 socket then "ipv4" else "ipv6" |}
  | None =>
      let? (host, port) := ok_or (rsplit_once ":" value)
        (error_at field line "endpoint must contain a port") in
      let host := trim host in
      let? _ := ensure (negb (starts_with host "[" || ends_with host "]"))
        (error_at field line "malformed bracketed endpoint") in
      let? _ := ensure (negb (is_empty host || (253 <? String.length host)%nat
                              || negb (str_forallb hostname_char host)))
        (error_at field line "endpoint hostname is invalid") in
      let? port := ok_or (parse_u16 port) (error_at field line "endpoint port is invalid") in
      Ok {| ep_host := to_ascii_lowercase host; ep_port := port; ep_address_family := "hostname" |}
  end.

(** ** Parsing *)

Definition is_ipv4_default (network : IpNet) : bool :=
  match ipnet_v4 network with
  | Some network => (ipv4net_prefix_len network =? 0)%N
  | None => false
  end.

Definition full_tunnel_peer (p : WireGuardProfile) : Result nat ProfileError :=
  let peers := omap (fun '(index, peer) =>
    if existsb is_ipv4_default peer.(pr_allowed_ips) then Some index else None)
    (imap pair p.(wg_peers)) in
  match peers with
  | [index] => Ok index
  | [] => Err (error_general "exactly one peer must route 0.0.0.0/0; none do")
  | _ => Err (error_general "exactly one peer must route 0.0.0.0/0; routing is ambiguous")
  end.

Definition set_interface (p : WireGuardProfile) (i : Interface) : WireGuardProfile :=
  {| wg_interface := i; wg_peers := p.(wg_peers) |}.

Definition parse_interface (p : WireGuardProfile) (key value : string) (line : nat)
    : Result WireGuardProfile ProfileError :=
  let i := p.(wg_interface) in
  let key' := to_ascii_lowercase key in
  if String.eqb key' "privatekey" then
    let? secret := secret_parse value "Interface.PrivateKey" line in
    let? x := set_once i.(if_private_key) secret "Interface.PrivateKey" line in
    Ok (set_interface p {| if_private_key := x; if_addresses := i.(if_addresses);
      if_dns := i.(if_dns); if_listen_port := i.(if_listen_port); if_mtu := i.(if_mtu) |})
  else if String.eqb key' "address" then
    let? values := parse_list ipnet_parse value "Interface.Address" line in
    let? x := extend_unique i.(if_addresses) values "Interface.Address" line in
    Ok (set_interface p {| if_private_key := i.(if_private_key); if_addresses := x;
      if_dns := i.(if_dns); if_listen_port := i.(if_listen_port); if_mtu := i.(if_mtu) |})
  else if String.eqb key' "dns" then
    let? values := parse_list parse_ip value "Interface.DNS" line in
    let? x := extend_unique i.(if_dns) values "Interface.DNS" line in
    Ok (set_interface p {| if_private_key := i.(if_private_key); if_addresses := i.(if_addresses);
      if_dns := x; if_listen_port := i.(if_listen_port); if_mtu := i.(if_mtu) |})
  else if String.eqb key' "listenport" then
    let? n := parse_number value "Interface.ListenPort" line 1 u16_MAX in
    let? x := set_once i.(if_listen_port) n "Interface.ListenPort" line in
    Ok (set_interface p {| if_private_key := i.(if_private_key); if_addresses := i.(if_addresses);
      if_dns := i.(if_dns); if_listen_port := x; if_mtu := i.(if_mtu) |})
  else if String.eqb key' "mtu" then
    let? n := parse_number value "Interface.MTU" line 576 u16_MAX in
    let? x := set_once i.(if_mtu) n "Interface.MTU" line in
    Ok (set_interface p {| if_private_key := i.(if_private_key); if_addresses := i.(if_addresses);
      if_dns := i.(if_dns); if_listen_port := i.(if_listen_port); if_mtu := x |})
  else Err (error_at ("Interface." +:+ key) line "unknown directive").

(** [parse_peer] on the peer it updates. *)
Definition parse_peer_directive (index : nat) (peer : Peer) (key value : string) (line : nat)
    : Result Peer ProfileError :=
  let field name := "Peer[" +:+ show_nat (index + 1) +:+ "]." +:+ name in
  let key' := to_ascii_lowercase key in
  if String.eqb key' "publickey" then
    let? x := set_string_once peer.(pr_public_key) value (field "PublicKey") line in
    Ok {| pr_public_key := x; pr_preshared_key := peer.(pr_preshared_key);
          pr_endpoint := peer.(pr_endpoint); pr_allowed_ips := peer.(pr_allowed_ips);
          pr_persistent_keepalive := peer.(pr_persistent_keepalive) |}
  else if String.eqb key' "presharedkey" then
    let? secret := secret_parse value "Peer.PresharedKey" line in
    let? x := set_once peer.(pr_preshared_key) secret (field "PresharedKey") line in
    Ok {| pr_public_key := peer.(pr_public_key); pr_preshared_key := x;
          pr_endpoint := peer.(pr_endpoint); pr_allowed_ips := peer.(pr_allowed_ips);
          pr_persistent_keepalive := peer.(pr_persistent_keepalive) |}
  else if String.eqb key' "endpoint" then
    let? endpoint := parse_endpoint value (field "Endpoint") line in
    let? x := set_once peer.(pr_endpoint) endpoint (field "Endpoint") line in
    Ok {| pr_public_key := peer.(pr_public_key); pr_preshared_key := peer.(pr_preshared_key);
          pr_endpoint := x; pr_allowed_ips := peer.(pr_allowed_ips);
          pr_persistent_keepalive := peer.(pr_persistent_keepalive) |}
  else if String.eqb key' "allowedips" then
    let? values := parse_list ipnet_parse value (field "AllowedIPs") line in
    let? x := extend_unique peer.(pr_allowed_ips) values (field "AllowedIPs") line in
    Ok {| pr_public_key := peer.(pr_public_key); pr_preshared_key := peer.(pr_preshared_key);
          pr_endpoint := peer.(pr_endpoint); pr_allowed_ips := x;
          pr_persistent_keepalive := peer.(pr_persistent_keepalive) |}
  else if String.eqb key' "persistentkeepalive" then
    let? n := parse_number value (field "PersistentKeepalive") line 0 u16_MAX in
    let? x := set_once peer.(pr_persistent_keepalive) n (field "PersistentKeepalive") line in
    Ok {| pr_public_key := peer.(pr_public_key); pr_preshared_key := peer.(pr_preshared_key);
          pr_endpoint := peer.(pr_endpoint); pr_allowed_ips := peer.(pr_allowed_ips);
          pr_persistent_keepalive := x |}
  else Err (error_at (field key) line "unknown directive").

(** [&mut self.peers[index]] is in bounds: the section of a peer is the last
    peer pushed (see [parse_line_wf]). *)
Definition parse_peer (p : WireGuardProfile) (index : nat) (key value : string) (line : nat)
    : Result WireGuardProfile ProfileError :=
  let? peer := ok_or (p.(wg_peers) !! index) (error_general "index out of bounds") in
  let? peer := parse_peer_directive index peer key value line in
  Ok {| wg_interface := p.(wg_interface); wg_peers := <[index := peer]> p.(wg_peers) |}.

Inductive ProfileSection : Type := SectionInterface | SectionPeer (index : nat).

(** The variables of [parse]'s loop. *)
Record ParseState : Type := {
  ps_profile : WireGuardProfile;
  ps_section : option ProfileSection;
  ps_interface_seen : bool;
}.

Definition parse_start : ParseState :=
  {| ps_profile := {| wg_interface := interface_default; wg_peers := [] |};
     ps_section := None; ps_interface_seen := false |}.

Definition uncommented (raw : string) : string :=
  trim (match split_once "#" raw with Some (value, _) => value | None => raw end).

Definition parse_section (s : ParseState) (line : string) (line_number : nat)
    : Result ParseState ProfileError :=
  let p := s.(ps_profile) in
  let lower := to_ascii_lowercase line in
  if String.eqb lower "[interface]" then
    if negb s.(ps_interface_seen) && (length p.(wg_peers) =? 0)%nat
    then Ok {| ps_profile := p; ps_section := Some SectionInterface; ps_interface_seen := true |}
    else Err (error_at "section" line_number
                "exactly one [Interface] section must appear before peers")
  else if String.eqb lower "[peer]" then
    if s.(ps_interface_seen) then
      if (length p.(wg_peers) =? MAX_PEERS)%nat
      then Err (error_at "section" line_number "profile exceeds the 32-peer limit")
      else Ok {| ps_profile := {| wg_interface := p.(wg_interface);
                                  wg_peers := p.(wg_peers) ++ [peer_default] |};
                 ps_section := Some (SectionPeer (length p.(wg_peers)));
                 ps_interface_seen := true |}
    else Err (error_at "section" line_number "[Interface] must appear before [Peer]")
  else Err (error_at "section" line_number "unknown or malformed section").

Definition parse_directive (s : ParseState) (line : string) (line_number : nat)
    : Result ParseState ProfileError :=
  let? current := ok_or s.(ps_section)
    (error_at "section" line_number "directive appears outside a section") in
  let? (key, value) := ok_or (split_once "=" line)
    (error_at "directive" line_number "directive must contain '='") in
  let key := trim key in
  let value := trim value in
  let? _ := reject_owned_or_dangerous key line_number in
  let? profile :=
    match current with
    | SectionInterface => parse_interface s.(ps_profile) key value line_number
    | SectionPeer index => parse_peer s.(ps_profile) index key value line_number
    end in
  Ok {| ps_profile := profile; ps_section := s.(ps_section);
        ps_interface_seen := s.(ps_interface_seen) |}.

Definition parse_line (s : ParseState) (numbered : nat * string) : Result ParseState ProfileError :=
  let '(offset, raw) := numbered in
  let line := uncommented raw in
  if is_empty line then Ok s
  else if starts_with line "[" then parse_section s line (offset + 1)
  else parse_directive s line (offset + 1).

Definition check_peer (numbered : nat * Peer) : Result unit ProfileError :=
  let '(index, peer) := numbered in
  let? _ := ensure (negb (is_empty peer.(pr_public_key)))
    (error_general ("Peer " +:+ show_nat (index + 1) +:+ " is missing PublicKey")) in
  ensure (negb (length peer.(pr_allowed_ips) =? 0)%nat)
    (error_general ("Peer " +:+ show_nat (index + 1) +:+ " is missing AllowedIPs")).

Definition parse (source : string) : Result WireGuardProfile ProfileError :=
  let? _ := ensure (N.of_nat (String.length source) <=? MAX_PROFILE_BYTES)%N
    (error_general "profile exceeds the 256 KiB limit") in
  let? _ := ensure (utf8_valid source) (error_general "profile must be valid UTF-8") in
  let? s := foldM_res parse_line parse_start (imap pair (lines source)) in
  let p := s.(ps_profile) in
  let? _ := ensure s.(ps_interface_seen) (error_general "profile has no [Interface] section") in
  let? _ := ensure (negb (length p.(wg_peers) =? 0)%nat)
    (error_general "profile has no [Peer] section") in
  let? _ := ensure (bool_decide (is_Some p.(wg_interface).(if_private_key)))
    (error_general "Interface.PrivateKey is required") in
  let? _ := mapM_res check_peer (imap pair p.(wg_peers)) in
  let? _ := full_tunnel_peer p in
  Ok p.

(** ** Redaction *)

Record ProfileWarning : Type := { pw_code : string; pw_field : string; pw_message : string }.

Record RedactedInterface : Type := {
  ri_private_key_configured : bool;
  ri_addresses : list string;
  ri_dns : list string;
  ri_listen_port : option N;
  ri_mtu : option N;
}.

Record RedactedPeer : Type := {
  rp_public_key : string;
  rp_preshared_key_configured : bool;
  rp_endpoint : option Endpoint;
  rp_allowed_ips : list string;
  rp_persistent_keepalive : option N;
}.

Record RedactedProfile : Type := {
  rd_interface : RedactedInterface;
  rd_peers : list RedactedPeer;
  rd_peer_count : nat;
  rd_ipv4_full_tunnel : bool;
  rd_full_tunnel_peer : option nat;
  rd_warnings : list ProfileWarning;
  rd_apply_kind : ApplyKind;
}.

#[export] Instance ProfileWarning_eq_dec : EqDecision ProfileWarning.
Proof. solve_decision. Defined.
#[export] Instance RedactedInterface_eq_dec : EqDecision RedactedInterface.
Proof. solve_decision. Defined.
#[export] Instance RedactedPeer_eq_dec : EqDecision RedactedPeer.
Proof. solve_decision. Defined.
#[export] Instance RedactedProfile_eq_dec : EqDecision RedactedProfile.
Proof. solve_decision. Defined.

(** ** Rendering *)

Definition stringify {T} (show : T -> string) (values : list T) : list string := show <$> values.

Definition render_secret (key : string) (secret : option Secret) : string :=
  match secret with
  | Some secret => key +:+ " = " +:+ expose secret +:+ NL
  | None => ""
  end.

Definition render_number (key : string) (n : option N) : string :=
  match n with Some n => key +:+ " = " +:+ show_N n +:+ NL | None => "" end.

Definition render_endpoint (endpoint : option Endpoint) : string :=
  match endpoint with
  | Some e =>
      let host := if String.eqb e.(ep_address_family) "ipv6"
                  then "[" +:+ e.(ep_host) +:+ "]" else e.(ep_host) in
      "Endpoint = " +:+ host +:+ ":" +:+ show_N e.(ep_port) +:+ NL
  | None => ""
  end.

(** The loop over the peers, the same in [render] and [render_syncconf]. *)
Definition render_peer (peer : Peer) : string :=
  NL +:+ "[Peer]" +:+ NL +:+ "PublicKey = " +:+ peer.(pr_public_key) +:+ NL
  +:+ render_secret "PresharedKey" peer.(pr_preshared_key)
  +:+ render_endpoint peer.(pr_endpoint)
  +:+ "AllowedIPs = " +:+ join ", " (stringify ipnet_show peer.(pr_allowed_ips)) +:+ NL
  +:+ render_number "PersistentKeepalive" peer.(pr_persistent_keepalive).

Definition render (p : WireGuardProfile) : string :=
  let i := p.(wg_interface) in
  "[Interface]" +:+ NL
  +:+ render_secret "PrivateKey" i.(if_private_key)
  +:+ (if (length i.(if_addresses) =? 0)%nat then ""
       else "Address = " +:+ join ", " (stringify ipnet_show i.(if_addresses)) +:+ NL)
  +:+ "Table = off" +:+ NL
  +:+ render_number "ListenPort" i.(if_listen_port)
  +:+ render_number "MTU" i.(if_mtu)
  +:+ concat_str (render_peer <$> p.(wg_peers)).

(** [None] where the code panics ([expect]): never, by [render_owns_table]. *)
Definition render_source (p : WireGuardProfile) : option string :=
  let output := render p in
  let table := "Table = off" +:+ NL in
  output ←
    (if (length p.(wg_interface).(if_dns) =? 0)%nat then Some output
     else
       let insertion :=
         "DNS = " +:+ join ", " (stringify show_ip p.(wg_interface).(if_dns)) +:+ NL in
       '(before_, after_) ← split_at_sub table output;
       Some (before_ +:+ insertion +:+ table +:+ after_));
  Some (replace_first output table "").

Definition render_syncconf (p : WireGuardProfile) : string :=
  let i := p.(wg_interface) in
  "[Interface]" +:+ NL
  +:+ render_secret "PrivateKey" i.(if_private_key)
  +:+ render_number "ListenPort" i.(if_listen_port)
  +:+ concat_str (render_peer <$> p.(wg_peers)).

Definition carries_ipv6 (p : WireGuardProfile) : bool :=
  existsb ipnet_is_ipv6 p.(wg_interface).(if_addresses)
  && existsb (fun network => ipnet_is_ipv6 network && (ipnet_prefix_len network =? 0)%N)
       (peer ← p.(wg_peers); peer.(pr_allowed_ips)).

Definition ipv4_dns (p : WireGuardProfile) : list Ipv4Addr :=
  omap (fun a => match a with IpAddr_V4 a => Some a | IpAddr_V6 _ => None end)
    p.(wg_interface).(if_dns).

(** ** Classifying a change *)

Definition peer_equal (left right : Peer) : bool :=
  String.eqb left.(pr_public_key) right.(pr_public_key)
  && bool_decide (expose <$> left.(pr_preshared_key) = expose <$> right.(pr_preshared_key))
  && bool_decide (left.(pr_endpoint) = right.(pr_endpoint))
  && bool_decide (left.(pr_allowed_ips) = right.(pr_allowed_ips))
  && bool_decide (left.(pr_persistent_keepalive) = right.(pr_persistent_keepalive)).

Definition peers_equal (left right : list Peer) : bool :=
  (length left =? length right)%nat
  && forallb (fun '(l, r) => peer_equal l r) (zip left right).

Definition diff (p candidate : WireGuardProfile) : ApplyKind :=
  let i := p.(wg_interface) in
  let j := candidate.(wg_interface) in
  if String.eqb (render p) (render candidate) && bool_decide (i.(if_dns) = j.(if_dns))
  then NoChange
  else
    let transport_same :=
      bool_decide (expose <$> i.(if_private_key) = expose <$> j.(if_private_key))
      && bool_decide (i.(if_addresses) = j.(if_addresses))
      && bool_decide (i.(if_listen_port) = j.(if_listen_port))
      && bool_decide (i.(if_mtu) = j.(if_mtu))
      && peers_equal p.(wg_peers) candidate.(wg_peers) in
    if transport_same then DnsReload
    else if negb (bool_decide (expose <$> i.(if_private_key) = expose <$> j.(if_private_key)))
            || negb (bool_decide (i.(if_addresses) = j.(if_addresses)))
            || negb (bool_decide (i.(if_listen_port) = j.(if_listen_port)))
            || negb (bool_decide (i.(if_mtu) = j.(if_mtu)))
            || negb (length p.(wg_peers) =? length candidate.(wg_peers))%nat
    then TunnelRecycle
    else if existsb (fun '(old, new_) =>
              negb (bool_decide (old.(pr_allowed_ips) = new_.(pr_allowed_ips))))
              (zip p.(wg_peers) candidate.(wg_peers))
    then SyncConfAndRoutes
    else SyncConf.

Definition redacted (p : WireGuardProfile) (active : option WireGuardProfile) : RedactedProfile :=
  let i := p.(wg_interface) in
  let full_tunnel := res_ok (full_tunnel_peer p) in
  {| rd_interface :=
       {| ri_private_key_configured := bool_decide (is_Some i.(if_private_key));
          ri_addresses := stringify ipnet_show i.(if_addresses);
          ri_dns := stringify show_ip i.(if_dns);
          ri_listen_port := i.(if_listen_port);
          ri_mtu := i.(if_mtu) |};
     rd_peers := (fun peer =>
       {| rp_public_key := peer.(pr_public_key);
          rp_preshared_key_configured := bool_decide (is_Some peer.(pr_preshared_key));
          rp_endpoint := peer.(pr_endpoint);
          rp_allowed_ips := stringify ipnet_show peer.(pr_allowed_ips);
          rp_persistent_keepalive := peer.(pr_persistent_keepalive) |}) <$> p.(wg_peers);
     rd_peer_count := length p.(wg_peers);
     rd_ipv4_full_tunnel := bool_decide (is_Some full_tunnel);
     rd_full_tunnel_peer := full_tunnel;
     rd_warnings :=
       (if existsb ipnet_is_ipv6 i.(if_addresses)
        then [{| pw_code := "ipv6_interface_unprotected"; pw_field := "Interface.Address";
                 pw_message := "IPv6 interface addresses are preserved, but enrolled clients use them only when network.ipv6 is enabled" |}]
        else [])
       ++ (if existsb ip_is_ipv6 i.(if_dns)
           then [{| pw_code := "ipv6_dns_unsupported"; pw_field := "Interface.DNS";
                    pw_message := "IPv6 DNS servers cannot be used by the IPv4-only DNS forwarder" |}]
           else [])
       ++ (if existsb ipnet_is_ipv6 (peer ← p.(wg_peers); peer.(pr_allowed_ips))
           then [{| pw_code := "ipv6_routes_unprotected"; pw_field := "Peer.AllowedIPs";
                    pw_message := "IPv6 allowed ranges are preserved, but enrolled clients use them only when network.ipv6 is enabled" |}]
           else []);
     rd_apply_kind := match active with Some old => diff old p | None => TunnelRecycle end |}.

(** ** Structured edits *)

Record StructuredPeerInput : Type := {
  sp_public_key : string;
  sp_preshared_key : option string;
  sp_endpoint : option string;
  sp_allowed_ips : list string;
  sp_persistent_keepalive : option N;
}.

Record StructuredProfileInput : Type := {
  si_private_key : option string;
  si_addresses : list string;
  si_dns : list string;
  si_listen_port : option N;
  si_mtu : option N;
  si_peers : list StructuredPeerInput;
}.

Definition edit_line (key : string) (value : option string) : string :=
  match value with Some v => key +:+ " = " +:+ v +:+ NL | None => "" end.

Definition edit_list (key : string) (values : list string) : string :=
  if (length values =? 0)%nat then "" else key +:+ " = " +:+ join ", " values +:+ NL.

Definition option_or {T} (x y : option T) : option T :=
  match x with Some _ => x | None => y end.

Definition edit_peer (p : WireGuardProfile) (peer : StructuredPeerInput) : string :=
  let preserved_psk :=
    active ← list_find (fun active => pr_public_key active = sp_public_key peer) p.(wg_peers);
    expose <$> active.2.(pr_preshared_key) in
  NL +:+ "[Peer]" +:+ NL +:+ "PublicKey = " +:+ peer.(sp_public_key) +:+ NL
  +:+ edit_line "PresharedKey" (option_or peer.(sp_preshared_key) preserved_psk)
  +:+ edit_line "Endpoint" peer.(sp_endpoint)
  +:+ "AllowedIPs = " +:+ join ", " peer.(sp_allowed_ips) +:+ NL
  +:+ render_number "PersistentKeepalive" peer.(sp_persistent_keepalive).

Definition edit (p : WireGuardProfile) (input : StructuredProfileInput)
    : Result WireGuardProfile ProfileError :=
  let? private_key :=
    ok_or (option_or input.(si_private_key) (expose <$> p.(wg_interface).(if_private_key)))
      (error_general "Interface.PrivateKey is required") in
  parse ("[Interface]" +:+ NL +:+ "PrivateKey = " +:+ private_key +:+ NL
    +:+ edit_list "Address" input.(si_addresses)
    +:+ edit_list "DNS" input.(si_dns)
    +:+ render_number "ListenPort" input.(si_listen_port)
    +:+ render_number "MTU" input.(si_mtu)
    +:+ concat_str (edit_peer p <$> input.(si_peers))).
End profile.
