(* ===== verification/WireGuardProps.v ===== *)
(** Properties of WireGuard profiles: what an accepted profile guarantees,
    which lines reach wg-quick, what a redacted view hides, and what each
    class of change leaves untouched. *)

From S2P Require Import Prelude RustStr StrFacts Net WireGuard.

(** ** Text of addresses *)

Lemma hex_digit_char n : (n < 16)%N -> visible (hex_digit n) = true /\ Ascii.eqb (hex_digit n) "#" = false
  /\ Ascii.eqb (hex_digit n) "," = false.
Proof.
  intros Hn. assert (n ∈ N.of_nat <$> seq 0 16) as H.
  { apply list_elem_of_fmap. exists (N.to_nat n). rewrite N2Nat.id, elem_of_seq. split; [done|lia]. }
  assert (forallb (fun n => visible (hex_digit n) && negb (Ascii.eqb (hex_digit n) "#")
    && negb (Ascii.eqb (hex_digit n) ",")) (N.of_nat <$> seq 0 16)
    = true) as Hall by (vm_compute; reflexivity).
  rewrite forallb_elem in Hall. specialize (Hall n H). by simplify_bools.
Qed.

(** The characters of an address, a network or a number in a profile. *)
Definition plain (c : ascii) : bool :=
  visible c && negb (Ascii.eqb c "#") && negb (Ascii.eqb c ",").

Lemma digit_plain c : is_ascii_digit c = true -> plain c = true.
Proof.
  unfold plain. intros H. rewrite digit_visible by done. rewrite andb_true_l, andb_true_iff.
  rewrite !negb_true_iff, !Ascii.eqb_neq. by split; intros ->.
Qed.

Lemma show_N_plain n : str_forallb plain (show_N n) = true.
Proof. eapply str_forallb_impl; [apply digit_plain|apply show_N_digits]. Qed.

Lemma str_forallb_join p sep l :
  str_forallb p sep = true -> Forall (fun s => str_forallb p s = true) l ->
  str_forallb p (join sep l) = true.
Proof.
  intros Hsep. induction 1 as [|s l Hs Hl IH]; [done|].
  destruct l as [|s' l]; [done|]. rewrite join_cons, !str_forallb_app by done.
  by rewrite Hs, Hsep, IH.
Qed.

Lemma show_ipv4_plain a : str_forallb plain (show_ipv4 a) = true.
Proof. apply str_forallb_join; [done|]. repeat constructor; apply show_N_plain. Qed.

Lemma show_hex16_plain g : str_forallb plain (show_hex16 g) = true.
Proof.
  assert (forall m, plain (hex_digit (m mod 16)) = true) as H.
  { intros m. unfold plain. assert (m mod 16 < 16)%N as Hm by (apply N.mod_lt; lia).
    by destruct (hex_digit_char _ Hm) as (-> & -> & ->). }
  unfold show_hex16. repeat case_match; rewrite ?str_forallb_app; unfold str_forallb;
    cbn -[hex_digit N.div N.modulo plain]; by rewrite !H.
Qed.

Lemma show_ip_plain a : str_forallb plain (show_ip a) = true.
Proof.
  assert (forall l, str_forallb plain (join ":" (show_hex16 <$> l)) = true) as Hj.
  { intros l. apply str_forallb_join; [done|]. apply Forall_fmap, list.Forall_forall.
    intros g _. apply show_hex16_plain. }
  destruct a as [a|a]; [apply show_ipv4_plain|]. cbn [show_ip]. unfold show_ipv6.
  destruct (_ =? _)%N; [rewrite str_forallb_app; by rewrite show_ipv4_plain|].
  destruct (longest_zeroes _ _ _ _) as [start len]. destruct (_ <? _)%nat; [|apply Hj].
  by rewrite !str_forallb_app, !Hj.
Qed.

Lemma plain_lacks s c : plain c = false -> str_forallb plain s = true -> lacks c s = true.
Proof. apply str_forallb_lacks. Qed.

Lemma plain_trimmed s : str_forallb plain s = true -> trimmed s.
Proof.
  intros H. apply visible_trimmed. eapply str_forallb_impl; [|exact H]. intros c Hc.
  unfold plain in Hc. by simplify_bools.
Qed.

(** ** Accepted profiles *)

(** A value as the parser leaves it: on one line, no comment, no blank ends. *)
Definition value_ok (s : string) : Prop :=
  lacks "010" s = true /\ lacks "#" s = true /\ trimmed s.

Definition key_ok (s : string) : Prop :=
  value_ok s /\ s <> "" /\ (String.length s <= 128)%nat.

Definition list_ok {T} (l : list T) : Prop := NoDup l /\ (length l <= 128)%nat.

Definition endpoint_ok (e : Endpoint) : Prop :=
  str_forallb plain e.(ep_host) = true /\ (e.(ep_port) <= 65535)%N.

Section wf.
Context `{!IpNetCrate}.

Definition interface_ok (i : Interface) : Prop :=
  (forall k, i.(if_private_key) = Some k -> key_ok (expose k)) /\
  list_ok i.(if_addresses) /\ list_ok i.(if_dns) /\
  (forall n, i.(if_listen_port) = Some n -> 1 <= n <= 65535)%N /\
  (forall n, i.(if_mtu) = Some n -> 576 <= n <= 65535)%N.

Definition peer_ok (p : Peer) : Prop :=
  (p.(pr_public_key) = "" \/ key_ok p.(pr_public_key)) /\
  (forall k, p.(pr_preshared_key) = Some k -> key_ok (expose k)) /\
  (forall e, p.(pr_endpoint) = Some e -> endpoint_ok e) /\
  list_ok p.(pr_allowed_ips) /\
  (forall n, p.(pr_persistent_keepalive) = Some n -> n <= 65535)%N.

(** The profile while it is parsed. *)
Definition draft_ok (p : WireGuardProfile) : Prop :=
  interface_ok p.(wg_interface) /\ Forall peer_ok p.(wg_peers) /\ (length p.(wg_peers) <= 32)%nat.

Definition section_ok (s : ParseState) : Prop :=
  match s.(ps_section) with
  | Some (SectionPeer index) => (index < length s.(ps_profile).(wg_peers))%nat
  | _ => True
  end.

(** An accepted profile: a complete draft in which one peer, and no other,
    carries the IPv4 default route. *)
Definition profile_ok (p : WireGuardProfile) : Prop :=
  draft_ok p /\
  is_Some p.(wg_interface).(if_private_key) /\
  p.(wg_peers) <> [] /\
  Forall (fun peer => peer.(pr_public_key) <> "" /\ peer.(pr_allowed_ips) <> []) p.(wg_peers) /\
  exists i peer, p.(wg_peers) !! i = Some peer /\ existsb is_ipv4_default peer.(pr_allowed_ips) = true /\
    forall j other, p.(wg_peers) !! j = Some other ->
      existsb is_ipv4_default other.(pr_allowed_ips) = true -> j = i.

(** *** Directive values *)

Lemma secret_parse_ok value field line s :
  value_ok value -> secret_parse value field line = Ok s -> key_ok (expose s).
Proof.
  intros (Hn & Hh & Ht). unfold secret_parse. rewrite (trim_id _ Ht).
  rewrite res_bind_Ok. intros (_ & Hl%ensure_Ok & [= <-]). simplify_bools.
  split; [done|]. cbn. split; [by destruct value|lia].
Qed.

Lemma set_once_ok {T} (P : T -> Prop) (t t' : option T) v field line :
  P v -> set_once t v field line = Ok t' -> forall x, t' = Some x -> P x.
Proof. intros Hv. destruct t; [done|]. by intros [= <-] x [= <-]. Qed.

Lemma set_string_once_ok t v field line t' :
  value_ok v -> set_string_once t v field line = Ok t' -> key_ok t'.
Proof.
  intros Hv. unfold set_string_once. repeat setoid_rewrite res_bind_Ok.
  intros (_ & _ & _ & Hl%ensure_Ok & [= <-]). simplify_bools.
  split; [done|]. split; [by destruct v|lia].
Qed.

Lemma extend_unique_ok {T} `{EqDecision T} (t t' values : list T) field line :
  list_ok t -> extend_unique t values field line = Ok t' -> list_ok t'.
Proof.
  intros [Hnd Hlen]. unfold extend_unique, MAX_LIST_VALUES. rewrite res_bind_Ok.
  intros (_ & Hl%ensure_Ok & Hf). simplify_bools. revert t Hnd Hlen Hl Hf.
  induction values as [|v values IH]; intros t Hnd Hlen Hl Hf; cbn in Hf.
  - by injection Hf as <-.
  - rewrite res_bind_Ok in Hf. destruct Hf as (t1 & H1 & Hf).
    case_bool_decide as Hin; [done|]. injection H1 as <-. cbn in Hl.
    apply (IH (t ++ [v])); [| | |done]; rewrite ?length_app; cbn; try lia.
    apply list.NoDup_app. split; [done|]. split; [|apply NoDup_singleton].
    by intros x Hx ->%list_elem_of_singleton.
Qed.

Lemma parse_number_ok value field line lo hi n :
  parse_number value field line lo hi = Ok n -> (lo <= n <= hi)%N.
Proof.
  unfold parse_number. repeat setoid_rewrite res_bind_Ok.
  intros (? & _ & _ & Hl%ensure_Ok & [= <-]). simplify_bools. lia.
Qed.

Lemma lower_plain c : hostname_char c = true -> plain (ascii_lower c) = true.
Proof. destruct c as [[] [] [] [] [] [] [] []]; vm_compute; done. Qed.

Lemma str_forallb_map p f s : str_forallb p (str_map f s) = str_forallb (fun c => p (f c)) s.
Proof. induction s as [|c s IH]; [done|]. cbn [str_map]. by rewrite !str_forallb_cons, IH. Qed.

Lemma read_port_bound s n rest : read_port s = Some (n, rest) -> (n <= 65535)%N.
Proof.
  unfold read_port, read_number. intros He. apply bind_Some in He as ([_ s'] & _ & He).
  destruct (read_digits _ _ _ _ _ _) as [[[m count] s2]|]; [|done].
  destruct (count =? 0)%nat; [done|]. destruct (_ && _); [done|].
  destruct (N.leb_spec m u16_MAX); [|done]. by injection He as <- _.
Qed.

Lemma parse_socket_port s a : parse_socket s = Some a -> (socket_port a <= 65535)%N.
Proof.
  unfold parse_socket, parse_with, read_socket_addr_v4, read_socket_addr_v6. intros He.
  destruct (read_ipv4_addr (chars s)) as [[ip r]|]; cbn in He.
  1: destruct (read_port r) as [[port [|]]|] eqn:Hp; cbn in He;
     [injection He as <-; cbn; by eapply read_port_bound| |].
  all: match type of He with (match ?m with _ => _ end) = _ => destruct m as [[b [|]]|] eqn:Hm; try done end;
    injection He as ->; repeat (apply bind_Some in Hm as ([? ?] & ? & Hm));
    destruct (default _ _) as [? ?]; repeat (apply bind_Some in Hm as ([? ?] & ? & Hm));
    injection Hm as <- _; cbn; by eapply read_port_bound.
Qed.

Lemma parse_endpoint_ok value field line e :
  parse_endpoint value field line = Ok e -> endpoint_ok e.
Proof.
  unfold parse_endpoint, endpoint_ok. destruct (parse_socket value) as [a|] eqn:Ha.
  - intros [= <-]. cbn. split; [apply show_ip_plain|by eapply parse_socket_port].
  - rewrite res_bind_Ok. intros ([host port] & _ & He). repeat setoid_rewrite res_bind_Ok in He.
    destruct He as (_ & _ & _ & Hh%ensure_Ok & n & Hn%ok_or_Ok & [= <-]). simplify_bools. cbn [ep_host ep_port]. split.
    + unfold to_ascii_lowercase. rewrite str_forallb_map. eapply str_forallb_impl; [|done].
      apply lower_plain.
    + by eapply parse_uint_bound.
Qed.

(** *** The parser's loop *)

#[local] Opaque secret_parse parse_list extend_unique parse_number parse_endpoint set_string_once
  set_once reject_owned_or_dangerous.

Ltac split_directive H :=
  repeat match type of H with
  | (if String.eqb ?a ?b then _ else _) = Ok _ => destruct (String.eqb a b)
  end; [..|done].

Lemma parse_interface_ok p key value line p' :
  draft_ok p -> value_ok value -> parse_interface p key value line = Ok p' ->
  draft_ok p' /\ length p'.(wg_peers) = length p.(wg_peers).
Proof.
  intros (Hi & Hp & Hl) Hv He. unfold parse_interface in He. cbv zeta in He. split_directive He.
  all: repeat setoid_rewrite res_bind_Ok in He; destruct He as (v & Hval & x & Hx & [= <-]);
    (split; [|done]); (split; [|done]); destruct Hi as (Hk & Ha & Hd & Hport & Hmtu); cbn.
  - split_and!; try done. eapply (set_once_ok (fun k => key_ok (expose k))); [|done].
    by eapply secret_parse_ok.
  - split_and!; try done; by eapply extend_unique_ok.
  - split_and!; try done; by eapply extend_unique_ok.
  - split_and!; try done. eapply set_once_ok; [|done]. by eapply parse_number_ok in Hval.
  - split_and!; try done. eapply set_once_ok; [|done]. by eapply parse_number_ok in Hval.
Qed.

Lemma parse_peer_directive_ok index peer key value line peer' :
  peer_ok peer -> value_ok value -> parse_peer_directive index peer key value line = Ok peer' ->
  peer_ok peer'.
Proof.
  intros (Hpk & Hps & Hep & Hips & Hka) Hv He. unfold parse_peer_directive in He. cbv zeta in He.
  split_directive He.
  all: repeat setoid_rewrite res_bind_Ok in He.
  - destruct He as (x & Hx & [= <-]). split; [|done]. right. by eapply set_string_once_ok.
  - destruct He as (v & Hval & x & Hx & [= <-]). split_and!; try done.
    eapply (set_once_ok (fun k => key_ok (expose k))); [|done]. by eapply secret_parse_ok.
  - destruct He as (v & Hval & x & Hx & [= <-]). split_and!; try done.
    eapply set_once_ok; [|done]. by eapply parse_endpoint_ok.
  - destruct He as (v & Hval & x & Hx & [= <-]). split_and!; try done; by eapply extend_unique_ok.
  - destruct He as (v & Hval & x & Hx & [= <-]). split_and!; try done.
    eapply set_once_ok; [|done]. eapply parse_number_ok in Hval. cbn. unfold u16_MAX in *. lia.
Qed.

Lemma parse_peer_ok p index key value line p' :
  draft_ok p -> value_ok value -> parse_peer p index key value line = Ok p' ->
  draft_ok p' /\ length p'.(wg_peers) = length p.(wg_peers).
Proof.
  intros (Hi & Hp & Hl) Hv He. unfold parse_peer in He. repeat setoid_rewrite res_bind_Ok in He.
  destruct He as (peer & Hget%ok_or_Ok & peer' & Hd & [= <-]). unfold draft_ok. cbn.
  rewrite length_insert. split; [|done]. split; [done|]. split; [|done].
  apply Forall_insert; [done|]. eapply parse_peer_directive_ok; [|done|done].
  rewrite Forall_lookup in Hp. by eapply Hp.
Qed.

#[local] Opaque parse_interface parse_peer_directive parse_peer.

Lemma peer_default_ok : peer_ok peer_default.
Proof. repeat split; try done; [by left|constructor|cbn; lia]. Qed.

Lemma parse_section_ok s line n s' :
  draft_ok s.(ps_profile) -> section_ok s -> parse_section s line n = Ok s' ->
  draft_ok s'.(ps_profile) /\ section_ok s'.
Proof.
  intros (Hi & Hp & Hl) Hs He. unfold parse_section in He. destruct (String.eqb _ _).
  { destruct (_ && _); [|done]. by injection He as <-. }
  destruct (String.eqb _ _); [|done]. destruct (ps_interface_seen s); [|done].
  destruct (Nat.eqb_spec (length (wg_peers (ps_profile s))) MAX_PEERS) as [|Hne]; [done|].
  injection He as <-. unfold draft_ok, section_ok, MAX_PEERS in *. cbn. rewrite length_app. cbn.
  split; [|lia]. split_and!; [done| |lia]. apply Forall_app. split; [done|].
  constructor; [apply peer_default_ok|constructor].
Qed.

Lemma uncommented_ok raw : lacks "010" raw = true -> value_ok (uncommented raw).
Proof.
  intros Hn. unfold uncommented, value_ok.
  destruct (split_once "#" raw) as [[l r]|] eqn:E.
  - pose proof (split_once_lacks "010" _ _ _ _ E Hn) as [Hl _]. apply split_once_Some in E as [Hh _].
    split_and!; [by apply lacks_trim|by apply lacks_trim|apply trim_trimmed].
  - assert (lacks "#" raw = true) as Hh.
    { clear Hn. induction raw as [|a raw IH]; [done|]. cbn in E.
      destruct (Ascii.eqb_spec a "#") as [|Ha]; [done|]. apply lacks_cons. split; [done|].
      apply IH. by destruct (split_once "#" raw) as [[]|]. }
    split_and!; [by apply lacks_trim|by apply lacks_trim|apply trim_trimmed].
Qed.

Lemma parse_directive_ok s line n s' :
  value_ok line -> draft_ok s.(ps_profile) -> section_ok s -> parse_directive s line n = Ok s' ->
  draft_ok s'.(ps_profile) /\ section_ok s'.
Proof.
  intros (Hn & Hh & _) Hd Hs He. unfold parse_directive in He. rewrite res_bind_Ok in He.
  destruct He as (current & Hc%ok_or_Ok & He). rewrite res_bind_Ok in He.
  destruct He as ([key value] & Hkv%ok_or_Ok & He). repeat setoid_rewrite res_bind_Ok in He.
  destruct He as (_ & _ & p & Hp & [= <-]).
  assert (value_ok (trim value)) as Hv.
  { pose proof (split_once_lacks "010" _ _ _ _ Hkv Hn) as [_ Hk1].
    pose proof (split_once_lacks "#" _ _ _ _ Hkv Hh) as [_ Hk2].
    split_and!; [by apply lacks_trim|by apply lacks_trim|apply trim_trimmed]. }
  unfold section_ok in *. rewrite Hc in *. cbn. destruct current as [|index].
  - by apply parse_interface_ok in Hp as [? _].
  - apply parse_peer_ok in Hp as [? Hlen]; [|done|done]. split; [done|]. by rewrite Hlen.
Qed.

Lemma parse_line_ok s raw offset s' :
  lacks "010" raw = true -> draft_ok s.(ps_profile) -> section_ok s ->
  parse_line s (offset, raw) = Ok s' ->
  draft_ok s'.(ps_profile) /\ section_ok s'.
Proof.
  intros Hn Hd Hs. unfold parse_line. destruct (is_empty _); [by intros [= <-]|].
  destruct (starts_with _ _); [by apply parse_section_ok|].
  apply parse_directive_ok; [by apply uncommented_ok|done|done].
Qed.

Lemma parse_lines_ok source s :
  foldM_res parse_line parse_start (imap pair (lines source)) = Ok s -> draft_ok s.(ps_profile).
Proof.
  intros He. apply (foldM_res_ind_in (fun s => draft_ok s.(ps_profile) /\ section_ok s)) in He
    as [? _]; [done| |].
  - intros s0 [offset raw] s1 Hin [Hd Hs] Hl. eapply parse_line_ok; [|done..|done].
    apply elem_of_lookup_imap in Hin as (i & x & [= -> ->] & Hx).
    apply lines_lack_NL with source. apply list_elem_of_lookup. eauto.
  - split; [|done]. repeat split; try done; try constructor; cbn; lia.
Qed.

Lemma elem_of_omap_imap {A B} (f : nat * A -> option B) (l : list A) b :
  b ∈ omap f (imap pair l) <-> exists i x, l !! i = Some x /\ f (i, x) = Some b.
Proof.
  rewrite list_elem_of_omap. setoid_rewrite elem_of_lookup_imap. naive_solver.
Qed.

Lemma full_tunnel_peer_Ok p index :
  full_tunnel_peer p = Ok index ->
  exists peer, p.(wg_peers) !! index = Some peer /\
    existsb is_ipv4_default peer.(pr_allowed_ips) = true /\
    forall j other, p.(wg_peers) !! j = Some other ->
      existsb is_ipv4_default other.(pr_allowed_ips) = true -> j = index.
Proof.
  unfold full_tunnel_peer.
  set (f := fun '(index, peer) => if existsb is_ipv4_default _ then Some index else None).
  pose proof (elem_of_omap_imap f (wg_peers p)) as Hin.
  destruct (omap f _) as [|i [|]]; [done| |done]. intros [= ->].
  destruct (Hin index) as [(j & peer & Hj & Hf) _]; [by left|].
  cbn in Hf. destruct (existsb _ _) eqn:E; [|done]. injection Hf as ->.
  exists peer. split_and!; [done|done|]. intros k other Hk Ho.
  apply list_elem_of_singleton. apply Hin. exists k, other. cbn. by rewrite Ho.
Qed.

Lemma check_peer_Ok i peer u :
  check_peer (i, peer) = Ok u -> peer.(pr_public_key) <> "" /\ peer.(pr_allowed_ips) <> [].
Proof.
  unfold check_peer. intros Hc. res_steps.
  by destruct (pr_public_key peer), (pr_allowed_ips peer).
Qed.

#[local] Opaque full_tunnel_peer check_peer.

Lemma parse_accepts_ok source p : parse source = Ok p -> profile_ok p.
Proof.
  intros Hparse.
  unfold parse in Hparse. repeat setoid_rewrite res_bind_Ok in Hparse.
  destruct Hparse as (_ & _ & _ & _ & s & Hs & _ & _ & _ & Hne%ensure_Ok & _ & Hk%ensure_Ok
    & us & Hpeers & i & Hi & [= <-]).
  apply parse_lines_ok in Hs. simplify_bools. split_and!; [done|done|by destruct (wg_peers _)| |].
  - apply mapM_res_Ok in Hpeers. apply Forall_lookup. intros j peer Hj.
    assert (imap pair (wg_peers (ps_profile s)) !! j = Some (j, peer)) as Hj'
      by (by rewrite list_lookup_imap, Hj).
    destruct (Forall2_lookup_l _ _ _ _ _ Hpeers Hj') as (u & _ & Hc).
    by eapply check_peer_Ok.
  - apply full_tunnel_peer_Ok in Hi as (peer & ? & ? & ?). eauto.
Qed.

(** a profile that is accepted is well formed: a private key, one to 32
    peers, each with a public key and allowed ranges, at most 128 pairwise
    different values in every list, ports and MTU in range, keys that are one
    line of at most 128 bytes, and exactly one peer that carries the IPv4
    default route. *)
Theorem parse_profile_ok source p (Hparse : parse source = Ok p) : profile_ok p.
Proof. by eapply parse_accepts_ok. Qed.
End wf.

(** ** The rendered configuration *)

Section rendered.
Context `{!IpNetCrate}.
Context (ipnet_show_plain : forall n, str_forallb plain (ipnet_show n) = true).

Definition secret_line (key : string) (secret : option Secret) : list string :=
  match secret with Some s => [key +:+ " = " +:+ expose s] | None => [] end.
Definition number_line (key : string) (n : option N) : list string :=
  match n with Some n => [key +:+ " = " +:+ show_N n] | None => [] end.
Definition endpoint_host (e : Endpoint) : string :=
  if String.eqb e.(ep_address_family) "ipv6" then "[" +:+ e.(ep_host) +:+ "]" else e.(ep_host).
Definition endpoint_line (endpoint : option Endpoint) : list string :=
  match endpoint with
  | Some e => ["Endpoint" +:+ " = " +:+ endpoint_host e +:+ ":" +:+ show_N e.(ep_port)]
  | None => []
  end.

Definition peer_lines (peer : Peer) : list string :=
  [""; "[Peer]"; "PublicKey" +:+ " = " +:+ peer.(pr_public_key)]
  ++ secret_line "PresharedKey" peer.(pr_preshared_key)
  ++ endpoint_line peer.(pr_endpoint)
  ++ ["AllowedIPs" +:+ " = " +:+ join ", " (ipnet_show <$> peer.(pr_allowed_ips))]
  ++ number_line "PersistentKeepalive" peer.(pr_persistent_keepalive).

(** The lines of the configuration given to wg-quick. *)
Definition profile_lines (p : WireGuardProfile) : list string :=
  let i := p.(wg_interface) in
  ["[Interface]"]
  ++ secret_line "PrivateKey" i.(if_private_key)
  ++ (match i.(if_addresses) with
      | [] => []
      | _ => ["Address" +:+ " = " +:+ join ", " (ipnet_show <$> i.(if_addresses))]
      end)
  ++ ["Table" +:+ " = " +:+ "off"]
  ++ number_line "ListenPort" i.(if_listen_port)
  ++ number_line "MTU" i.(if_mtu)
  ++ (peer ← p.(wg_peers); peer_lines peer).

Lemma unlines_secret key s : unlines (secret_line key s) = render_secret key s.
Proof. destruct s; [|done]. cbn [secret_line]. rewrite unlines_cons. by autorewrite with egressy_rw. Qed.
Lemma unlines_number key n : unlines (number_line key n) = render_number key n.
Proof. destruct n; [|done]. cbn [number_line]. rewrite unlines_cons. by autorewrite with egressy_rw. Qed.
Lemma unlines_endpoint e : unlines (endpoint_line e) = render_endpoint e.
Proof. destruct e; [|done]. cbn [endpoint_line]. rewrite unlines_cons. by autorewrite with egressy_rw. Qed.

Lemma unlines_nil : unlines [] = "".
Proof. done. Qed.

Lemma unlines_peer peer : unlines (peer_lines peer) = render_peer peer.
Proof.
  unfold peer_lines, render_peer, stringify.
  rewrite !unlines_app, !unlines_cons, unlines_nil, unlines_secret, unlines_endpoint, unlines_number.
  by autorewrite with egressy_rw.
Qed.

Lemma render_unlines p : render p = unlines (profile_lines p).
Proof.
  unfold render, profile_lines, stringify.
  rewrite !unlines_app, !unlines_cons, unlines_nil, unlines_secret, !unlines_number.
  assert (unlines (peer ← wg_peers p; peer_lines peer) = concat_str (render_peer <$> wg_peers p)) as ->.
  { induction (wg_peers p) as [|x l IH]; [done|].
    rewrite bind_cons. by rewrite unlines_app, fmap_cons, concat_str_cons, IH, unlines_peer. }
  destruct (if_addresses (wg_interface p)) as [|a l]; cbn [length Nat.eqb];
    rewrite ?unlines_cons, ?unlines_nil; by autorewrite with egressy_rw.
Qed.

(** A line [key = value] of a rendered value. *)
Lemma key_line_ok key value :
  lacks "010" key = true -> lacks "010" value = true -> strip_cr (key +:+ " = " +:+ value) = key +:+ " = " +:+ value ->
  line_ok (key +:+ " = " +:+ value).
Proof. intros Hk Hv Hc. split; [|done]. by rewrite !lacks_app, Hk, Hv. Qed.

Lemma strip_cr_last (pre s : string) : s <> "" -> trimmed s -> strip_cr (pre +:+ s) = pre +:+ s.
Proof.
  intros Hne [_ Hs]. apply strip_cr_rev. rewrite str_rev_app.
  destruct (String.rev s) as [|c t] eqn:E.
  - apply (f_equal String.rev) in E. rewrite str_rev_involutive in E. by subst.
  - rewrite str_app_cons. by destruct (Ascii.eqb_spec "013" c) as [<-|].
Qed.

Lemma value_line_ok key value :
  lacks "010" key = true -> value_ok value -> value <> "" -> line_ok (key +:+ " = " +:+ value).
Proof.
  intros Hk (Hn & _ & Ht) Hne. apply key_line_ok; [done|done|].
  rewrite <- str_app_assoc. by apply strip_cr_last.
Qed.

Definition spaced (c : ascii) : bool := plain c || Ascii.eqb c " " || Ascii.eqb c ",".

Lemma spaced_line_ok s : str_forallb spaced s = true -> line_ok s.
Proof.
  intros Hs. split; [by eapply str_forallb_lacks; [|exact Hs]|].
  apply strip_cr_rev. rewrite <- str_forallb_rev in Hs. destruct (String.rev s) as [|c t]; [done|].
  apply andb_true_iff in Hs as [Hs _]. by destruct (Ascii.eqb_spec "013" c) as [<-|].
Qed.

Lemma plain_spaced s : str_forallb plain s = true -> str_forallb spaced s = true.
Proof. apply str_forallb_impl. intros c Hc. unfold spaced. by rewrite Hc. Qed.

Lemma nets_spaced (l : list IpNet) : str_forallb spaced (join ", " (ipnet_show <$> l)) = true.
Proof.
  apply str_forallb_join; [done|]. apply Forall_fmap, list.Forall_forall. intros n _.
  apply plain_spaced, ipnet_show_plain.
Qed.

Lemma endpoint_spaced e : endpoint_ok e ->
  str_forallb spaced (endpoint_host e +:+ ":" +:+ show_N e.(ep_port)) = true.
Proof.
  intros [Hh%plain_spaced _]. unfold endpoint_host.
  destruct (String.eqb _ _); rewrite !str_forallb_app, Hh, (plain_spaced _ (show_N_plain _)); done.
Qed.

Lemma secret_line_ok key s :
  lacks "010" key = true -> (forall k, s = Some k -> key_ok (expose k)) -> Forall line_ok (secret_line key s).
Proof.
  intros Hk Hs. destruct s as [s|]; [|constructor]. destruct (Hs s eq_refl) as (Hv & Hne & _).
  constructor; [by apply value_line_ok|constructor].
Qed.

Lemma peer_lines_ok peer :
  peer_ok peer -> peer.(pr_public_key) <> "" -> Forall line_ok (peer_lines peer).
Proof.
  intros (Hpk & Hps & Hep & _ & _) Hne. destruct Hpk as [|(Hpk & _)]; [done|].
  unfold peer_lines. repeat apply Forall_app_2.
  - repeat (constructor; [first [by apply value_line_ok | by apply spaced_line_ok]|]). constructor.
  - by apply secret_line_ok.
  - destruct (pr_endpoint peer) as [e|]; [|constructor]. constructor; [|constructor].
    apply spaced_line_ok. rewrite 2 str_forallb_app, endpoint_spaced by auto. done.
  - constructor; [|constructor]. apply spaced_line_ok. by rewrite 2 str_forallb_app, nets_spaced.
  - destruct (pr_persistent_keepalive peer) as [n|]; [|constructor]. constructor; [|constructor].
    apply spaced_line_ok. by rewrite 2 str_forallb_app, (plain_spaced _ (show_N_plain _)).
Qed.

Lemma profile_lines_ok p : profile_ok p -> Forall line_ok (profile_lines p).
Proof.
  intros ((Hi & Hp & _) & _ & _ & Hne & _). destruct Hi as (Hk & _).
  unfold profile_lines. repeat apply Forall_app_2.
  - constructor; [by apply spaced_line_ok|constructor].
  - by apply secret_line_ok.
  - pose proof (nets_spaced (if_addresses (wg_interface p))) as Ha.
    destruct (if_addresses (wg_interface p)) as [|a l]; constructor; [|constructor].
    apply spaced_line_ok. by rewrite 2 str_forallb_app, Ha.
  - constructor; [by apply spaced_line_ok|constructor].
  - destruct (if_listen_port _) as [n|]; [|constructor]. constructor; [|constructor].
    apply spaced_line_ok. by rewrite 2 str_forallb_app, (plain_spaced _ (show_N_plain _)).
  - destruct (if_mtu _) as [n|]; [|constructor]. constructor; [|constructor].
    apply spaced_line_ok. by rewrite 2 str_forallb_app, (plain_spaced _ (show_N_plain _)).
  - apply list.Forall_forall. intros line (peer & Hl & Hin)%list_elem_of_bind.
    rewrite list.Forall_forall in Hp, Hne. specialize (Hp peer Hin). specialize (Hne peer Hin).
    pose proof (peer_lines_ok peer Hp (proj1 Hne)) as Hf. rewrite list.Forall_forall in Hf. by apply Hf.
Qed.

(** The directives Egressy writes. *)
Definition owned_keys : list string :=
  ["PrivateKey"; "Address"; "Table"; "ListenPort"; "MTU"; "PublicKey"; "PresharedKey"; "Endpoint";
   "AllowedIPs"; "PersistentKeepalive"].

Definition owned_line (line : string) : Prop :=
  line = "" \/ line = "[Interface]" \/ line = "[Peer]" \/ line = "Table = off" \/
  exists key value, line = key +:+ " = " +:+ value /\ key ∈ owned_keys /\ key <> "Table".

Lemma profile_lines_owned p line : line ∈ profile_lines p -> owned_line line.
Proof.
  assert (forall key value, key ∈ owned_keys -> key <> "Table" ->
    owned_line (key +:+ " = " +:+ value)) as Hown by (intros; do 4 right; eauto).
  assert (forall key s x, key ∈ owned_keys -> key <> "Table" -> x ∈ secret_line key s -> owned_line x) as Hsec.
  { intros key [s|] x ? ?; cbn; rewrite ?list_elem_of_singleton, ?elem_of_nil; [intros ->; auto|done]. }
  assert (forall key s x, key ∈ owned_keys -> key <> "Table" -> x ∈ number_line key s -> owned_line x) as Hnum.
  { intros key [s|] x ? ?; cbn; rewrite ?list_elem_of_singleton, ?elem_of_nil; [intros ->; auto|done]. }
  assert (forall key, bool_decide (key ∈ owned_keys) && negb (String.eqb key "Table") = true ->
    key ∈ owned_keys /\ key <> "Table") as Hkey by (intros; simplify_bools; done).
  unfold profile_lines. rewrite !elem_of_app.
  intros [Hl|[Hl|[Hl|[Hl|[Hl|[Hl|Hl]]]]]].
  - apply list_elem_of_singleton in Hl as ->. right. by left.
  - eapply Hsec in Hl; [done|apply Hkey; reflexivity..].
  - destruct (if_addresses _); [by apply elem_of_nil in Hl|]. apply list_elem_of_singleton in Hl as ->.
    apply Hown; apply Hkey; reflexivity.
  - apply list_elem_of_singleton in Hl as ->. do 3 right. by left.
  - eapply Hnum in Hl; [done|apply Hkey; reflexivity..].
  - eapply Hnum in Hl; [done|apply Hkey; reflexivity..].
  - apply list_elem_of_bind in Hl as (peer & Hl & _). unfold peer_lines in Hl.
    rewrite !elem_of_app, !elem_of_cons, !elem_of_nil in Hl.
    destruct Hl as [[->|[->|[->|[]]]]|[Hl|[Hl|[[->|[]]|Hl]]]].
    + by left.
    + right. right. by left.
    + apply Hown; apply Hkey; reflexivity.
    + eapply Hsec in Hl; [done|apply Hkey; reflexivity..].
    + destruct (pr_endpoint peer); [|by apply elem_of_nil in Hl].
      apply list_elem_of_singleton in Hl as ->. apply Hown; apply Hkey; reflexivity.
    + apply Hown; apply Hkey; reflexivity.
    + eapply Hnum in Hl; [done|apply Hkey; reflexivity..].
Qed.

(** C26: nothing of a profile's source reaches wg-quick but its values.  Every
    line of the configuration rendered from an accepted profile is a section
    header, [Table = off], or one of the ten directives Egressy writes: no hook,
    no [SaveConfig], no other routing table, whatever text the source held. *)
Theorem rendered_lines_owned source p (Hparse : parse source = Ok p) :
  lines (render p) = profile_lines p /\ Forall owned_line (lines (render p)).
Proof.
  apply parse_accepts_ok in Hparse. rewrite render_unlines, lines_unlines by (by apply profile_lines_ok).
  split; [done|]. apply list.Forall_forall. apply profile_lines_owned.
Qed.
End rendered.

(** ** Redaction and change classes *)

Section views.
Context `{!IpNetCrate}.

(** A profile with every secret replaced. *)
Definition scrub (f : Secret -> Secret) (p : WireGuardProfile) : WireGuardProfile :=
  let i := p.(wg_interface) in
  {| wg_interface :=
       {| if_private_key := f <$> i.(if_private_key); if_addresses := i.(if_addresses);
          if_dns := i.(if_dns); if_listen_port := i.(if_listen_port); if_mtu := i.(if_mtu) |};
     wg_peers := (fun peer =>
       {| pr_public_key := peer.(pr_public_key); pr_preshared_key := f <$> peer.(pr_preshared_key);
          pr_endpoint := peer.(pr_endpoint); pr_allowed_ips := peer.(pr_allowed_ips);
          pr_persistent_keepalive := peer.(pr_persistent_keepalive) |}) <$> p.(wg_peers) |}.

Definition without_kind (r : RedactedProfile) : RedactedProfile :=
  {| rd_interface := r.(rd_interface); rd_peers := r.(rd_peers); rd_peer_count := r.(rd_peer_count);
     rd_ipv4_full_tunnel := r.(rd_ipv4_full_tunnel); rd_full_tunnel_peer := r.(rd_full_tunnel_peer);
     rd_warnings := r.(rd_warnings); rd_apply_kind := NoChange |}.

Lemma omap_imap_ext {A B C D} (g : C -> option D) (g' : B -> option D)
    (h : nat -> A -> C) (k : nat -> A -> B) (l : list A) :
  (forall n x, g (h n x) = g' (k n x)) -> omap g (imap h l) = omap g' (imap k l).
Proof.
  revert h k. induction l as [|x l IH]; intros h k He; [done|].
  rewrite !imap_cons. cbn [omap list_omap]. rewrite He.
  rewrite (IH (h ∘ S) (k ∘ S)); [done|]. intros; apply He.
Qed.

Lemma full_tunnel_peer_scrub f p : full_tunnel_peer (scrub f p) = full_tunnel_peer p.
Proof.
  unfold full_tunnel_peer, scrub. cbn [wg_peers]. rewrite imap_fmap.
  erewrite omap_imap_ext; [reflexivity|done].
Qed.

Lemma bool_decide_is_Some_fmap {A B} (f : A -> B) (o : option A) :
  bool_decide (is_Some (f <$> o)) = bool_decide (is_Some o).
Proof. by destruct o. Qed.

Lemma without_kind_inj r r' :
  without_kind r = without_kind r' -> r.(rd_apply_kind) = r'.(rd_apply_kind) -> r = r'.
Proof. destruct r, r'. cbn. by intros [= -> -> -> -> -> ->] ->. Qed.

(** a redacted view shows nothing of the secrets but whether they are
    configured: replacing every key by any other changes neither the view of a
    new profile nor, beside an active one, anything but the class of change. *)
Theorem redacted_hides_secrets f p active :
  redacted (scrub f p) None = redacted p None /\
  without_kind (redacted (scrub f p) active) = without_kind (redacted p active).
Proof.
  assert (forall active, without_kind (redacted (scrub f p) active) = without_kind (redacted p active)) as Hw.
  { clear active. intros active. unfold redacted, without_kind. rewrite full_tunnel_peer_scrub. destruct p as [i peers].
    cbn -[full_tunnel_peer]. rewrite bool_decide_is_Some_fmap, length_fmap, <- list_fmap_compose.
    assert ((peer ← (fun peer => {| pr_public_key := pr_public_key peer;
        pr_preshared_key := f <$> pr_preshared_key peer; pr_endpoint := pr_endpoint peer;
        pr_allowed_ips := pr_allowed_ips peer;
        pr_persistent_keepalive := pr_persistent_keepalive peer |}) <$> peers; pr_allowed_ips peer)
      = (peer ← peers; pr_allowed_ips peer)) as ->.
    { induction peers as [|x l IH]; [done|]. rewrite fmap_cons, !bind_cons. by rewrite IH. }
    f_equal. apply list_fmap_ext. intros k x _. cbn. by rewrite bool_decide_is_Some_fmap. }
  split; [|done]. apply without_kind_inj; [apply Hw|done].
Qed.
Lemma peer_equal_true l r : peer_equal l r = true -> l = r.
Proof.
  unfold peer_equal. intros Hp. simplify_bools. destruct l as [? [[]|] ? ? ?], r as [? [[]|] ? ? ?];
    cbn in *; congruence.
Qed.

Lemma peers_equal_true ls rs : peers_equal ls rs = true -> ls = rs.
Proof.
  unfold peers_equal. intros Hp. simplify_bools. revert rs H0 H1.
  induction ls as [|l ls IH]; intros [|r rs] Hlen Hall; try done. cbn in *. simplify_bools.
  f_equal; [by apply peer_equal_true|apply IH; [lia|done]].
Qed.

(** What [wg syncconf] cannot change: it carries no address and no MTU, and
    the routes belong to the allowed ranges. *)
Definition same_link (p q : WireGuardProfile) : Prop :=
  expose <$> p.(wg_interface).(if_private_key) = expose <$> q.(wg_interface).(if_private_key) /\
  p.(wg_interface).(if_addresses) = q.(wg_interface).(if_addresses) /\
  p.(wg_interface).(if_listen_port) = q.(wg_interface).(if_listen_port) /\
  p.(wg_interface).(if_mtu) = q.(wg_interface).(if_mtu) /\
  length p.(wg_peers) = length q.(wg_peers).

Definition same_routes (p q : WireGuardProfile) : Prop :=
  pr_allowed_ips <$> p.(wg_peers) = pr_allowed_ips <$> q.(wg_peers).

Lemma zip_routes ls rs :
  length ls = length rs ->
  existsb (fun '(old, new_) => negb (bool_decide (pr_allowed_ips old = pr_allowed_ips new_))) (zip ls rs)
    = false ->
  pr_allowed_ips <$> ls = pr_allowed_ips <$> rs.
Proof.
  revert rs. induction ls as [|l ls IH]; intros [|r rs] Hlen Hr; try done. cbn in *. simplify_bools.
  f_equal; [done|apply IH; [lia|done]].
Qed.

(** the class of a change is never too weak.  [NoChange] means the same
    rendered configuration and DNS; [DnsReload] that the profiles differ in
    their DNS servers only; [SyncConf] and [SyncConfAndRoutes] that nothing
    which [wg syncconf] cannot carry has changed, the former that no route has
    either; and a profile beside itself is no change. *)
Theorem diff_sound p q :
  diff p p = NoChange /\
  match diff p q with
  | NoChange => render p = render q /\ p.(wg_interface).(if_dns) = q.(wg_interface).(if_dns)
  | DnsReload =>
      p.(wg_interface).(if_dns) <> q.(wg_interface).(if_dns) /\ same_link p q /\
      p.(wg_peers) = q.(wg_peers)
  | SyncConf => same_link p q /\ same_routes p q /\ p.(wg_peers) <> q.(wg_peers)
  | SyncConfAndRoutes => same_link p q /\ ~ same_routes p q
  | TunnelRecycle => ~ same_link p q
  end.
Proof.
  split.
  { unfold diff. by rewrite String.eqb_refl, bool_decide_eq_true_2. }
  unfold diff, same_link, same_routes. cbv zeta.
  destruct (String.eqb (render p) (render q) && _) eqn:Hsame; [by simplify_bools|].
  destruct (bool_decide_reflect (expose <$> if_private_key (wg_interface p)
    = expose <$> if_private_key (wg_interface q))) as [Hk|]; [|cbn; tauto].
  destruct (bool_decide_reflect (if_addresses (wg_interface p) = if_addresses (wg_interface q)))
    as [Ha|]; [|cbn; tauto].
  destruct (bool_decide_reflect (if_listen_port (wg_interface p) = if_listen_port (wg_interface q)))
    as [Hl|]; [|cbn; tauto].
  destruct (bool_decide_reflect (if_mtu (wg_interface p) = if_mtu (wg_interface q)))
    as [Hm|]; [|cbn; tauto].
  cbn. destruct (peers_equal _ _) eqn:Hp.
  { apply peers_equal_true in Hp as Hp'. rewrite Hp'. split; [|done]. intros Hd.
    rewrite bool_decide_eq_true_2, andb_true_r in Hsame by done.
    apply String.eqb_neq in Hsame. apply Hsame. unfold render. rewrite Ha, Hl, Hm, Hp'.
    destruct (if_private_key (wg_interface p)) as [[]|], (if_private_key (wg_interface q)) as [[]|];
      cbn in Hk; by simplify_eq. }
  destruct (Nat.eqb_spec (length (wg_peers p)) (length (wg_peers q))) as [Hlen|]; [|cbn; tauto].
  cbn. destruct (existsb _ _) eqn:He.
  - split; [done|]. intros Hr. apply existsb_elem in He as ([l r] & Hin & He). simplify_bools.
    apply He. apply list_elem_of_lookup in Hin as (i & Hi).
    apply lookup_zip_Some in Hi as [Hi1 Hi2].
    apply (f_equal (fun l => l !! i)) in Hr. rewrite !list_lookup_fmap, Hi1, Hi2 in Hr.
    by injection Hr.
  - apply zip_routes in He; [|done]. split; [done|]. split; [done|]. intros Heq.
    rewrite Heq in Hp. assert (peers_equal (wg_peers q) (wg_peers q) = true) as Hq; [|congruence].
    unfold peers_equal. rewrite Nat.eqb_refl. cbn. clear. induction (wg_peers q) as [|x l IH]; [done|].
    cbn. rewrite IH, andb_true_r. unfold peer_equal. rewrite String.eqb_refl.
    by rewrite !bool_decide_eq_true_2.
Qed.
End views.

(** ** A concrete profile *)

#[local] Existing Instance CidrNet.crate.

Definition sample_source : string := unlines
  ["# exported"; "[Interface]"; "PrivateKey = cHJpdmF0ZQ=="; "Address = 10.2.0.2/32";
   "DNS = 10.2.0.1, 2606:4700::1111"; "MTU = 1420"; "";
   "[Peer]"; "PublicKey = cHVibGlj"; "AllowedIPs = 0.0.0.0/0, ::/0";
   "Endpoint = vpn.example.net:51820"; "PersistentKeepalive = 25"].

Definition sample_profile : WireGuardProfile :=
  default {| wg_interface := interface_default; wg_peers := [] |} (res_ok (parse sample_source)).

Lemma sample_parsed : parse sample_source = Ok sample_profile.
Proof.
  assert (match parse sample_source with Ok _ => true | Err _ => false end = true) as H
    by (vm_compute; reflexivity).
  unfold sample_profile. by destruct (parse sample_source).
Qed.

Lemma parse_profile_ok_witness : length sample_profile.(wg_peers) = 1%nat /\ profile_ok sample_profile.
Proof. split; [vm_compute; reflexivity|]. apply (parse_profile_ok sample_source), sample_parsed. Defined.

Lemma cidr_show_plain (n : IpNet) : str_forallb plain (ipnet_show n) = true.
Proof.
  destruct n as [n|n].
  - change (str_forallb plain (show_ipv4 (CidrNet.cidr_addr n) +:+ "/" +:+ show_N (CidrNet.cidr_len n)) = true).
    by rewrite !str_forallb_app, show_N_plain, show_ipv4_plain.
  - change (str_forallb plain (show_ip (IpAddr_V6 (CidrNet.cidr_addr n)) +:+ "/"
              +:+ show_N (CidrNet.cidr_len n)) = true).
    by rewrite !str_forallb_app, show_N_plain, show_ip_plain.
Qed.

Lemma rendered_lines_owned_witness :
  length (lines (render sample_profile)) = 11%nat /\ Forall owned_line (lines (render sample_profile)).
Proof.
  split; [vm_compute; reflexivity|].
  exact (proj2 (rendered_lines_owned cidr_show_plain sample_source sample_profile sample_parsed)).
Defined.

