(* ===== verification/Profiles.v ===== *)
(** The store of managed profiles (src/src/profiles.rs): the table of encrypted
    revisions, of which at most one is active.

    SQLite is the state [Table], with each SQL statement of the code as the
    operation it denotes; the cipher, the random bytes, the clock and serde's
    JSON are parameters. *)

From S2P Require Import Prelude RustStr StrFacts Net BTree WireGuard.

Definition SCHEMA_VERSION : Z := 1.
Definition ENCRYPTION_VERSION : Z := 1.
Definition AAD : string := "egressy-wireguard-profile-v1".

Record ManagedRevision : Type := {
  mr_id : string;
  mr_created_at_unix_ms : N;
  mr_activated_at_unix_ms : option N;
  mr_active : bool;
  mr_staged : bool;
  mr_metadata : RedactedProfile;
}.

(** A row of [wireguard_profiles]; its primary key [id] is the table's key. *)
Record Row : Type := {
  row_created_at_ms : Z;
  row_activated_at_ms : option Z;
  row_active : bool;
  row_staged : bool;
  row_metadata_json : string;
  row_nonce : string;
  row_ciphertext : string;
  row_encryption_version : Z;
}.

Notation Table := (gmap string Row).

(** [chacha20poly1305] under the store's key, and serde's JSON of the metadata. *)
Class StoreEnv : Type := {
  cipher_encrypt : string -> string -> string -> option string;
  cipher_decrypt : string -> string -> string -> option string;
  metadata_encode : RedactedProfile -> string;
  metadata_decode : string -> option RedactedProfile;
}.

Definition to_i64 (value : N) : Z := if (Z.of_N value <=? i64_MAX)%Z then Z.of_N value else i64_MAX.
Definition from_i64 (value : Z) : N := if (0 <=? value)%Z then Z.to_N value else 0%N.

Definition validate_id (id : string) : Result unit string :=
  ensure ((String.length id =? 24)%nat && str_forallb is_ascii_hexdigit id)
    "invalid managed profile revision id".

(** ** The key file *)

Record KeyFile : Type := { kf_is_file : bool; kf_len : N; kf_mode : N; kf_contents : string }.

Fixpoint pop_whitespace (reversed : list ascii) : list ascii :=
  match reversed with
  | c :: rest =>
      (* [u8::is_ascii_whitespace]: space, tab, line feed, form feed, return *)
      if existsb (fun n => (N_of_ascii c =? n)%N) [32; 9; 10; 12; 13]%N
      then pop_whitespace rest else reversed
  | [] => []
  end.

Definition load_key (decode : string -> option string) (file : option KeyFile) : Result string string :=
  let? f := ok_or file "reading profile storage key metadata" in
  let? _ := ensure (f.(kf_is_file) && (f.(kf_len) <=? 1024)%N)
    "profile storage key must be a regular file no larger than 1 KiB" in
  let? _ := ensure (N.land f.(kf_mode) 63 =? 0)%N
    "profile storage key must not be readable by group or others" in
  let encoded := of_chars (rev (pop_whitespace (rev (chars f.(kf_contents))))) in
  let? decoded := ok_or (decode encoded) "profile storage key must be base64-encoded" in
  let? _ := ensure (String.length decoded =? 32)%nat
    "profile storage key must decode to exactly 32 bytes" in
  Ok decoded.

Section store.
Context `{!IpNetCrate, !StoreEnv}.

Definition revision_from_row (id : string) (row : Row) : Result ManagedRevision string :=
  let? metadata := ok_or (metadata_decode row.(row_metadata_json)) "invalid metadata" in
  Ok {| mr_id := id;
        mr_created_at_unix_ms := from_i64 row.(row_created_at_ms);
        mr_activated_at_unix_ms := from_i64 <$> row.(row_activated_at_ms);
        mr_active := row.(row_active);
        mr_staged := row.(row_staged);
        mr_metadata := metadata |}.

Definition decrypt_profile (nonce ciphertext : string) (version : Z)
    : Result WireGuardProfile string :=
  let? _ := ensure ((version =? ENCRYPTION_VERSION)%Z && (String.length nonce =? 24)%nat)
    "stored profile uses an unsupported encryption format" in
  let? plaintext := ok_or (cipher_decrypt nonce ciphertext AAD)
    "stored profile cannot be decrypted with the configured key" in
  map_err pe_message (parse plaintext).

(** [ORDER BY created_at_ms DESC LIMIT 100]; rows of one time keep the order of
    the primary key. *)
Definition revisions (t : Table) : Result (list ManagedRevision) string :=
  mapM_res (fun '(id, row) => revision_from_row id row)
    (firstn 100 (sort_by (fun x y => (row_created_at_ms y.2 <=? row_created_at_ms x.2)%Z)
                   (btree_iter String.leb t))).

(** [WHERE active = 1 LIMIT 1] *)
Definition active_row (t : Table) : option (string * Row) :=
  head (List.filter (fun '(_, row) => row.(row_active)) (btree_iter String.leb t)).

Definition active (t : Table) : Result (option (ManagedRevision * WireGuardProfile)) string :=
  match active_row t with
  | None => Ok None
  | Some (id, row) =>
      let? revision := revision_from_row id row in
      let? profile := decrypt_profile row.(row_nonce) row.(row_ciphertext) row.(row_encryption_version) in
      Ok (Some (revision, profile))
  end.

Definition load (t : Table) (id : string) : Result (option WireGuardProfile) string :=
  let? _ := validate_id id in
  match t !! id with
  | None => Ok None
  | Some row =>
      let? profile := decrypt_profile row.(row_nonce) row.(row_ciphertext) row.(row_encryption_version) in
      Ok (Some profile)
  end.

(** The identifier made of twelve random bytes. *)
Definition revision_id (random : list N) : string := concat_str (hex02 <$> random).

Definition stage (t : Table) (source nonce : string) (random : list N) (now : N)
    : Table * Result ManagedRevision string :=
  match parse source with
  | Err error => (t, Err error.(pe_message))
  | Ok profile =>
      let metadata := redacted profile None in
      match cipher_encrypt nonce source AAD with
      | None => (t, Err "profile encryption failed")
      | Some ciphertext =>
          let id := revision_id random in
          let revision :=
            {| mr_id := id; mr_created_at_unix_ms := now; mr_activated_at_unix_ms := None;
               mr_active := false; mr_staged := true; mr_metadata := metadata |} in
          (* INSERT of an existing primary key fails *)
          if bool_decide (is_Some (t !! id)) then (t, Err "UNIQUE constraint failed")
          else
            (<[id := {| row_created_at_ms := to_i64 now; row_activated_at_ms := None;
                        row_active := false; row_staged := true;
                        row_metadata_json := metadata_encode metadata;
                        row_nonce := nonce; row_ciphertext := ciphertext;
                        row_encryption_version := ENCRYPTION_VERSION |}]> t, Ok revision)
      end
  end.

Definition set_active (row : Row) (value : bool) : Row :=
  {| row_created_at_ms := row.(row_created_at_ms); row_activated_at_ms := row.(row_activated_at_ms);
     row_active := value; row_staged := row.(row_staged);
     row_metadata_json := row.(row_metadata_json); row_nonce := row.(row_nonce);
     row_ciphertext := row.(row_ciphertext); row_encryption_version := row.(row_encryption_version) |}.

(** [SET active = 1, staged = 0, activated_at_ms = now] *)
Definition set_activated (row : Row) (now : N) : Row :=
  {| row_created_at_ms := row.(row_created_at_ms); row_activated_at_ms := Some (to_i64 now);
     row_active := true; row_staged := false;
     row_metadata_json := row.(row_metadata_json); row_nonce := row.(row_nonce);
     row_ciphertext := row.(row_ciphertext); row_encryption_version := row.(row_encryption_version) |}.

(** One transaction: both updates are committed, or neither. *)
Definition activate (t : Table) (id : string) (now : N) : Table * Result ManagedRevision string :=
  match validate_id id with
  | Err e => (t, Err e)
  | Ok _ =>
      match t !! id with
      | None => (t, Err "managed profile revision does not exist")
      | Some _ =>
          let cleared := (fun row => set_active row false) <$> t in
          let t := alter (fun row => set_activated row now) id cleared in
          (t, match t !! id with
              | Some row => revision_from_row id row
              | None => Err "Query returned no rows"
              end)
      end
  end.

Definition delete_inactive (t : Table) (id : string) : Table * Result unit string :=
  match validate_id id with
  | Err e => (t, Err e)
  | Ok _ =>
      match t !! id with
      | Some row =>
          if row.(row_active)
          then (t, Err "only an existing inactive revision may be deleted")
          else (delete id t, Ok tt)
      | None => (t, Err "only an existing inactive revision may be deleted")
      end
  end.

(** ** Properties *)

(** What the store does between two reads. *)
Inductive store_step : Table -> Table -> Prop :=
| step_stage t source nonce random now : store_step t (stage t source nonce random now).1
| step_activate t id now : store_step t (activate t id now).1
| step_delete t id : store_step t (delete_inactive t id).1.

Definition reachable (t : Table) : Prop := rtc store_step ∅ t.

(** At most one row is active, and an active row is no longer staged: the
    unique index [one_active_wireguard_profile] is never violated. *)
Definition one_active (t : Table) : Prop :=
  (forall i j r s, t !! i = Some r -> t !! j = Some s ->
     r.(row_active) = true -> s.(row_active) = true -> i = j) /\
  (forall i r, t !! i = Some r -> r.(row_active) = negb r.(row_staged) \/ r.(row_active) = false).

Lemma activate_lookup t id now i r :
  is_Some (t !! id) -> validate_id id = Ok tt ->
  (activate t id now).1 !! i = Some r ->
  exists r0, t !! i = Some r0 /\
    r = if decide (i = id) then set_activated (set_active r0 false) now else set_active r0 false.
Proof.
  intros [r1 Hr1] Hid. unfold activate. rewrite Hid, Hr1. cbn.
  destruct (decide (i = id)) as [->|Hne].
  - rewrite lookup_alter_eq, lookup_fmap, Hr1. cbn. intros [= <-]. eauto.
  - rewrite lookup_alter_ne, lookup_fmap by done. destruct (t !! i); [|done]. cbn.
    intros [= <-]. eauto.
Qed.

Lemma activate_unchanged t id now :
  validate_id id <> Ok tt \/ t !! id = None -> (activate t id now).1 = t.
Proof.
  unfold activate. destruct (validate_id id) as [[]|]; [|done]. intros [? | ->]; done.
Qed.

Lemma store_step_one_active t t' : store_step t t' -> one_active t -> one_active t'.
Proof.
  intros [t0 source nonce random now|t0 id now|t0 id] [Huniq Hst].
  - unfold stage. destruct (parse source); [|done]. destruct (cipher_encrypt _ _ _); [|done].
    case_bool_decide; [done|]. cbn. split.
    + intros i j r1 r2 Hi Hj Hr Hs. apply lookup_insert_Some in Hi, Hj.
      destruct Hi as [[_ <-]|[_ Hi]]; [done|]. destruct Hj as [[_ <-]|[_ Hj]]; [done|]. eauto.
    + intros i r1 Hi. apply lookup_insert_Some in Hi as [[_ <-]|[_ Hi]]; [by right|eauto].
  - destruct (validate_id id) as [[]|] eqn:Hid; [|rewrite activate_unchanged; [done|left; by rewrite Hid]].
    destruct (t0 !! id) eqn:He; [|rewrite activate_unchanged; [done|by right]].
    assert (is_Some (t0 !! id)) as Hsome by eauto. split.
    + intros i j r1 r2 Hi Hj. apply activate_lookup in Hi as (? & _ & ->), Hj as (? & _ & ->); [|done..].
      destruct (decide (i = id)), (decide (j = id)); cbn; congruence.
    + intros i r1 Hi. apply activate_lookup in Hi as (? & _ & ->); [|done..].
      destruct (decide (i = id)); cbn; auto.
  - unfold delete_inactive. destruct (validate_id id); [|done]. destruct (t0 !! id) as [r0|]; [|done].
    destruct (row_active r0); [done|]. cbn. split.
    + intros i j r1 r2 [_ Hi]%lookup_delete_Some [_ Hj]%lookup_delete_Some. eauto.
    + intros i r1 [_ Hi]%lookup_delete_Some. eauto.
Qed.

(** at most one revision is ever active.  In every state the store reaches,
    two active rows are one row and an active row is not staged; an activation
    that succeeds makes exactly its revision active, one that fails changes
    nothing, and the active revision is never deleted. *)
Theorem store_one_active t (Hreach : reachable t) :
  one_active t /\
  forall id now,
    match (activate t id now).2 with
    | Ok revision =>
        revision.(mr_id) = id /\ revision.(mr_active) = true /\ revision.(mr_staged) = false /\
        forall i r, (activate t id now).1 !! i = Some r -> (r.(row_active) = true <-> i = id)
    | Err _ => t !! id = None \/ validate_id id <> Ok tt -> (activate t id now).1 = t
    end /\
    (forall r, t !! id = Some r -> r.(row_active) = true ->
       (delete_inactive t id).1 = t /\ exists e, (delete_inactive t id).2 = Err e).
Proof.
  split.
  { unfold reachable in Hreach. remember ∅ as t0 eqn:E.
    assert (one_active t0) as Hinit by (subst; split; intros; by simplify_map_eq). clear E.
    induction Hreach as [|x y z Hxy _ IH]; [done|]. apply IH. by eapply store_step_one_active. }
  intros id now. split.
  - destruct (activate t id now).2 as [revision|e] eqn:Ha.
    + destruct (validate_id id) as [[]|] eqn:Hid; [|by unfold activate in Ha; rewrite Hid in Ha].
      destruct (t !! id) as [r0|] eqn:He; [|by unfold activate in Ha; rewrite Hid, He in Ha].
      assert (is_Some (t !! id)) as Hs by eauto.
      assert (revision.(mr_id) = id /\ revision.(mr_active) = true /\ revision.(mr_staged) = false)
        as (? & ? & ?).
      { unfold activate in Ha. rewrite Hid, He in Ha. cbn in Ha.
        rewrite lookup_alter_eq, lookup_fmap, He in Ha. cbn in Ha. unfold revision_from_row in Ha.
        apply res_bind_Ok in Ha as (m & _ & [= <-]). done. }
      split_and!; try done. intros i r Hi. apply activate_lookup in Hi as (? & _ & ->); [|done..].
      destruct (decide (i = id)); cbn; intuition congruence.
    + intros Hn. apply activate_unchanged. tauto.
  - intros r Hr Hact. unfold delete_inactive. destruct (validate_id id); [|eauto].
    rewrite Hr, Hact. eauto.
Qed.

Lemma revision_id_valid random :
  length random = 12%nat -> Forall (fun b => b < 256)%N random -> validate_id (revision_id random) = Ok tt.
Proof.
  intros Hlen Hb. unfold validate_id, revision_id. destruct (hex_string_digits _ Hb) as [H1 H2].
  by rewrite H1, H2, Hlen.
Qed.

(** The active row is found when it is the only one. *)
Lemma active_row_unique t id row :
  t !! id = Some row -> row.(row_active) = true ->
  (forall i r, t !! i = Some r -> r.(row_active) = true -> i = id) ->
  active_row t = Some (id, row).
Proof.
  intros Hid Hrow Huniq. unfold active_row.
  assert ((id, row) ∈ List.filter (fun '(_, row) => row_active row) (btree_iter String.leb t)) as Hin.
  { apply elem_of_bfilter. split; [by apply elem_of_btree_iter|done]. }
  destruct (List.filter _ _) as [|[i r] l] eqn:E; [by apply elem_of_nil in Hin|].
  assert ((i, r) ∈ List.filter (fun '(_, row) => row_active row) (btree_iter String.leb t)) as Hir
    by (rewrite E; by left).
  apply elem_of_bfilter in Hir as [Hir Hr]. apply elem_of_btree_iter in Hir.
  assert (i = id) as -> by eauto. cbn. congruence.
Qed.

(** what is staged can be read back, and what is activated is what was
    staged.  With a cipher that decrypts what it encrypted and a JSON that reads
    back, loading a staged revision gives the profile that was accepted, and
    activating it makes that profile the active one; a source that is not
    accepted, or an identifier in use, leaves the table as it was. *)
Theorem stage_load t source nonce random now now2
    (Hcipher : forall n m c, cipher_encrypt n m AAD = Some c -> cipher_decrypt n c AAD = Some m)
    (Hjson : forall m, metadata_decode (metadata_encode m) = Some m)
    (Hnonce : String.length nonce = 24%nat) (Hrandom : length random = 12%nat)
    (Hbytes : Forall (fun b => b < 256)%N random) :
  let '(t', r) := stage t source nonce random now in
  match r with
  | Ok revision =>
      exists profile revision2, parse source = Ok profile /\
        revision.(mr_metadata) = redacted profile None /\
        load t' revision.(mr_id) = Ok (Some profile) /\
        (activate t' revision.(mr_id) now2).2 = Ok revision2 /\
        active (activate t' revision.(mr_id) now2).1 = Ok (Some (revision2, profile)) /\
        t !! revision.(mr_id) = None /\ delete revision.(mr_id) t' = t
  | Err _ => t' = t
  end.
Proof.
  pose proof (revision_id_valid random Hrandom Hbytes) as Hvalid.
  unfold stage. destruct (parse source) as [profile|error] eqn:Hp; [|done].
  destruct (cipher_encrypt nonce source AAD) as [c|] eqn:Hc; [|done].
  case_bool_decide as Hid; [done|]. cbn [mr_id mr_metadata].
  assert (t !! revision_id random = None) as Hnone by (by apply eq_None_not_Some).
  set (row := {| row_created_at_ms := _ |}). set (t' := <[revision_id random := row]> t).
  assert (t' !! revision_id random = Some row) as Hrow by apply lookup_insert_eq.
  assert (decrypt_profile nonce c ENCRYPTION_VERSION = Ok profile) as Hdec.
  { unfold decrypt_profile. rewrite Hnonce, (Hcipher _ _ _ Hc). cbn. by rewrite Hp. }
  set (row2 := set_activated (set_active row false) now2).
  assert ((activate t' (revision_id random) now2).1 !! revision_id random = Some row2) as Hrow2.
  { unfold activate. rewrite Hvalid, Hrow. cbn [fst].
    by rewrite lookup_alter_eq, lookup_fmap, Hrow. }
  destruct (revision_from_row (revision_id random) row2) as [revision2|] eqn:Hrev;
    [|unfold revision_from_row in Hrev; cbn in Hrev; by rewrite Hjson in Hrev].
  exists profile, revision2. split_and!; try done.
  - unfold load. rewrite Hvalid. cbn [res_bind]. rewrite Hrow. cbn. by rewrite Hdec.
  - unfold activate in *. rewrite Hvalid, Hrow in *. cbn [fst snd] in *. by rewrite Hrow2.
  - unfold active. erewrite (active_row_unique _ (revision_id random) row2); [|done|done|].
    + rewrite Hrev. cbn [res_bind]. cbn. by rewrite Hdec.
    + intros i r Hi Hr. apply activate_lookup in Hi as (? & _ & ->); [|by eauto|done].
      by destruct (decide (i = revision_id random)).
  - by apply delete_insert_id.
Qed.
End store.

(** ** A concrete store: the identity cipher, and metadata written as the digits
    of its code. *)

#[local] Instance Endpoint_countable : Countable Endpoint.
Proof.
  refine (inj_countable' (fun e => (e.(ep_host), e.(ep_port), e.(ep_address_family)))
    (fun '(h, p, f) => {| ep_host := h; ep_port := p; ep_address_family := f |}) _).
  by intros [].
Defined.
#[local] Instance RedactedPeer_countable : Countable RedactedPeer.
Proof.
  refine (inj_countable' (fun r => (r.(rp_public_key), r.(rp_preshared_key_configured),
      r.(rp_endpoint), r.(rp_allowed_ips), r.(rp_persistent_keepalive)))
    (fun '(k, c, e, a, p) => {| rp_public_key := k; rp_preshared_key_configured := c;
       rp_endpoint := e; rp_allowed_ips := a; rp_persistent_keepalive := p |}) _).
  by intros [].
Defined.
#[local] Instance RedactedInterface_countable : Countable RedactedInterface.
Proof.
  refine (inj_countable' (fun r => (r.(ri_private_key_configured), r.(ri_addresses), r.(ri_dns),
      r.(ri_listen_port), r.(ri_mtu)))
    (fun '(k, a, d, l, m) => {| ri_private_key_configured := k; ri_addresses := a; ri_dns := d;
       ri_listen_port := l; ri_mtu := m |}) _).
  by intros [].
Defined.
#[local] Instance ProfileWarning_countable : Countable ProfileWarning.
Proof.
  refine (inj_countable' (fun w => (w.(pw_code), w.(pw_field), w.(pw_message)))
    (fun '(c, f, m) => {| pw_code := c; pw_field := f; pw_message := m |}) _).
  by intros [].
Defined.
#[local] Instance ApplyKind_countable : Countable ApplyKind.
Proof.
  refine (inj_countable' (fun k => match k with NoChange => 0 | DnsReload => 1 | SyncConf => 2
      | SyncConfAndRoutes => 3 | TunnelRecycle => 4 end)%nat
    (fun n => match n with 0 => NoChange | 1 => DnsReload | 2 => SyncConf
      | 3 => SyncConfAndRoutes | _ => TunnelRecycle end)%nat _).
  by intros [].
Defined.
#[local] Instance RedactedProfile_countable : Countable RedactedProfile.
Proof.
  refine (inj_countable' (fun r => (r.(rd_interface), r.(rd_peers), r.(rd_peer_count),
      r.(rd_ipv4_full_tunnel), r.(rd_full_tunnel_peer), r.(rd_warnings), r.(rd_apply_kind)))
    (fun '(i, p, c, f, t, w, k) => {| rd_interface := i; rd_peers := p; rd_peer_count := c;
       rd_ipv4_full_tunnel := f; rd_full_tunnel_peer := t; rd_warnings := w; rd_apply_kind := k |}) _).
  by intros [].
Defined.

Fixpoint pos_text (p : positive) : string :=
  match p with
  | xH => ""
  | xO p => String "0" (pos_text p)
  | xI p => String "1" (pos_text p)
  end.
Fixpoint text_pos (s : string) : positive :=
  match s with
  | EmptyString => xH
  | String c s => if Ascii.eqb c "0" then xO (text_pos s) else xI (text_pos s)
  end.

Lemma text_pos_text p : text_pos (pos_text p) = p.
Proof. induction p as [p IH|p IH|]; cbn; by rewrite ?IH. Qed.

#[local] Existing Instance CidrNet.crate.
#[local] Instance sample_env : StoreEnv := {|
  cipher_encrypt _ m _ := Some m;
  cipher_decrypt _ c _ := Some c;
  metadata_encode m := pos_text (encode m);
  metadata_decode s := decode (text_pos s);
|}.

Definition sample_source : string := concat_str ((fun s => s +:+ NL) <$>
  ["[Interface]"; "PrivateKey = cHJpdmF0ZQ=="; "[Peer]"; "PublicKey = cHVibGlj";
   "AllowedIPs = 0.0.0.0/0"]).
Definition sample_random : list N := [1; 2; 3; 4; 5; 6; 7; 8; 9; 10; 11; 255]%N.
Definition sample_nonce : string := "abcdefghijklmnopqrstuvwx".
Definition sample_staged : Table := (stage ∅ sample_source sample_nonce sample_random 1000).1.

Lemma stage_load_witness :
  exists revision profile revision2,
    (stage ∅ sample_source sample_nonce sample_random 1000).2 = Ok revision /\
    revision.(mr_id) = "0102030405060708090a0bff" /\
    active (activate sample_staged revision.(mr_id) 2000).1 = Ok (Some (revision2, profile)).
Proof.
  pose proof (@stage_load _ sample_env ∅ sample_source sample_nonce sample_random 1000 2000
    ltac:(by intros n m c [= ->]) ltac:(intros m; cbn; by rewrite text_pos_text, decode_encode)
    eq_refl eq_refl ltac:(repeat constructor)) as H.
  unfold sample_staged.
  assert ((match (stage ∅ sample_source sample_nonce sample_random 1000).2 with
    | Ok r => String.eqb r.(mr_id) "0102030405060708090a0bff" | Err _ => false end) = true) as Hok
    by (vm_compute; reflexivity).
  destruct (stage ∅ sample_source sample_nonce sample_random 1000) as [t' [revision|e]]; [|done].
  cbn in Hok. apply String.eqb_eq in Hok. destruct H as (profile & revision2 & _ & _ & _ & _ & H & _).
  eauto 10.
Defined.

Lemma store_one_active_witness : one_active sample_staged.
Proof.
  refine (proj1 (store_one_active sample_staged _)).
  eapply rtc_once. apply step_stage.
Defined.
