(* ===== verification/State.v ===== *)
(** The state shared between the gateway's tasks (src/src/state.rs). *)

From S2P Require Import Prelude RustStr Net.

Record TrafficState : Type := {
  tr_download_bytes_per_second : N;
  tr_upload_bytes_per_second : N;
  tr_downloaded_bytes : N;
  tr_uploaded_bytes : N;
  tr_sampled_at_unix_ms : option N;
}.

Record TunnelState : Type := {
  tn_up : bool;
  tn_interface : string;
  tn_latest_handshake_unix : option N;
}.

Record PortForwardState : Type := {
  pf_active : bool;
  pf_public_ip : option Ipv4Addr;
  pf_port : option N;
  pf_target : option string;
  pf_target_port : option N;
  pf_expires_in_seconds : option N;
  pf_lease_acquired_at_unix_ms : option N;
}.

Inductive UsageIdentitySource : Type := ExplicitLabel | ComposeService | ContainerLifetime.
#[export] Instance UsageIdentitySource_eq_dec : EqDecision UsageIdentitySource.
Proof. solve_decision. Defined.

Record ClientTrafficSample : Type := {
  cs_sampled_at_unix_ms : N;
  cs_downloaded_bytes : N;
  cs_uploaded_bytes : N;
}.

Record ClientTrafficState : Type := {
  ct_download_packets : N;
  ct_downloaded_bytes : N;
  ct_upload_packets : N;
  ct_uploaded_bytes : N;
  ct_sampled_at_unix_ms : option N;
  ct_history : list ClientTrafficSample;
}.

Inductive RouteIntentStatus : Type := Verified | Mismatch | RouteUnknown.
#[export] Instance RouteIntentStatus_eq_dec : EqDecision RouteIntentStatus.
Proof. solve_decision. Defined.

Record RouteIntentState : Type := {
  ri_status : RouteIntentStatus;
  ri_ipv4_default_network : option string;
  ri_ipv6_default_network : option string;
  ri_egress_gateway_priority : option Z;
  ri_gateway_priorities : gmap string (option Z);
  ri_reason_code : string;
  ri_safe_message : string;
}.

Record ClientState : Type := {
  cl_container_id : string;
  cl_usage_id : string;
  cl_usage_id_source : UsageIdentitySource;
  cl_name : string;
  cl_ipv4_address : Ipv4Addr;
  cl_port_forward_target : bool;
  cl_target_port : option N;
  cl_compliant : bool;
  cl_compliance_message : string;
  cl_running : bool;
  cl_ipv6_address : option string;
  cl_networks : list string;
  cl_port_forward_label_valid : bool;
  cl_route_intent : RouteIntentState;
  cl_traffic : ClientTrafficState;
}.

Record AppState : Type := {
  as_tunnel : TunnelState;
  as_traffic : TrafficState;
  as_port_forward : PortForwardState;
  as_port_forwards : gmap string PortForwardState;
  as_clients : gmap string ClientState;
  as_last_error : option string;
}.

(** The [Default] values. *)
Definition traffic_default : TrafficState :=
  {| tr_download_bytes_per_second := 0; tr_upload_bytes_per_second := 0; tr_downloaded_bytes := 0;
     tr_uploaded_bytes := 0; tr_sampled_at_unix_ms := None |}.
Definition port_forward_default : PortForwardState :=
  {| pf_active := false; pf_public_ip := None; pf_port := None; pf_target := None;
     pf_target_port := None; pf_expires_in_seconds := None; pf_lease_acquired_at_unix_ms := None |}.
Definition client_traffic_default : ClientTrafficState :=
  {| ct_download_packets := 0; ct_downloaded_bytes := 0; ct_upload_packets := 0;
     ct_uploaded_bytes := 0; ct_sampled_at_unix_ms := None; ct_history := [] |}.
Definition route_intent_default : RouteIntentState :=
  {| ri_status := RouteUnknown; ri_ipv4_default_network := None; ri_ipv6_default_network := None;
     ri_egress_gateway_priority := None; ri_gateway_priorities := ∅; ri_reason_code := "";
     ri_safe_message := "" |}.
