(* ===== verification/Domain.v ===== *)
(** The canonical snapshot (src/src/domain.rs): the checks and their aggregate,
    the bounded window of transitions, and the status records published with
    them. *)

From S2P Require Import Prelude RustStr Net BTree State Isolation HostPolicy WireGuard Profiles.
From Stdlib Require SpecFloat.

(** IEEE 754 binary64, by the Standard Library's executable specification. *)
Definition f64 : Type := SpecFloat.spec_float.

Definition TRANSITION_CAPACITY : nat := 200.

Inductive Protection : Type := Enforced | ProtectionUnknown | Violated.
Inductive Availability : Type := Starting | AvHealthy | AvDegraded | Unavailable | Recovering.
Inductive CheckStatus : Type := Pending | Healthy | Degraded | Failed | Unknown.
Inductive Impact : Type := Critical | Advisory | Optional.

#[export] Instance Protection_eq_dec : EqDecision Protection.
Proof. solve_decision. Defined.
#[export] Instance Availability_eq_dec : EqDecision Availability.
Proof. solve_decision. Defined.
#[export] Instance CheckStatus_eq_dec : EqDecision CheckStatus.
Proof. solve_decision. Defined.
#[export] Instance Impact_eq_dec : EqDecision Impact.
Proof. solve_decision. Defined.

Record SubsystemCheck : Type := {
  sc_id : string;
  sc_status : CheckStatus;
  sc_impact : Impact;
  sc_observed_at_unix_ms : N;
  sc_changed_at_unix_ms : N;
  sc_reason_code : string;
  sc_safe_message : string;
  sc_consecutive_failures : N;
  sc_next_attempt_at_unix_ms : option N;
}.

Definition pending (id : string) (impact : Impact) (now : N) : SubsystemCheck :=
  {| sc_id := id; sc_status := Pending; sc_impact := impact; sc_observed_at_unix_ms := now;
     sc_changed_at_unix_ms := now; sc_reason_code := "observation.pending";
     sc_safe_message := "Waiting for the first observation"; sc_consecutive_failures := 0;
     sc_next_attempt_at_unix_ms := None |}.

Record Transition : Type := {
  ts_sequence : N;
  ts_timestamp_unix_ms : N;
  ts_component : string;
  ts_from_status : CheckStatus;
  ts_to_status : CheckStatus;
  ts_reason_code : string;
  ts_safe_message : string;
  ts_recovery_attempt : option N;
}.

(** ** The window of transitions: a [VecDeque], oldest first *)

(** How many entries each component holds, and the index of its oldest. *)
Definition holding_entry (holdings : gmap string (nat * nat)) (entry : nat * Transition)
    : gmap string (nat * nat) :=
  let '(index, transition) := entry in
  let '(count, oldest) := default (0%nat, index) (holdings !! transition.(ts_component)) in
  <[transition.(ts_component) := (S count, oldest)]> holdings.

Definition holdings_of (transitions : list Transition) : gmap string (nat * nat) :=
  foldl holding_entry ∅ (enumerate transitions).

(** The order of [(count, Reverse(oldest))]: [a] is greater than [b]. *)
Definition holds_more (a b : nat * nat) : bool :=
  (b.1 <? a.1)%nat || (a.1 =? b.1)%nat && (a.2 <? b.2)%nat.

(** [max_by_key]: of equals the last wins. *)
Definition max_holding (l : list (nat * nat)) : option (nat * nat) :=
  match l with
  | [] => None
  | x :: l => Some (foldl (fun best y => if holds_more best y then best else y) x l)
  end.

(** [into_values] of a [HashMap]: in an arbitrary order, on which the result
    does not depend ([busiest_components_oldest_order]). *)
Definition busiest_components_oldest (transitions : list Transition) : option nat :=
  snd <$> max_holding (map_to_list (holdings_of transitions)).*2.

Fixpoint evict (fuel : nat) (transitions : list Transition) : list Transition :=
  match fuel with
  | O => transitions
  | S fuel =>
      if (length transitions <? TRANSITION_CAPACITY)%nat then transitions
      else match busiest_components_oldest transitions with
           | None => transitions
           | Some index => evict fuel (delete index transitions)
           end
  end.

(** The [while] loop removes an entry at every turn, so the number of entries
    is fuel enough. *)
Definition push_transition (transitions : list Transition) (transition : Transition)
    : list Transition :=
  evict (length transitions) transitions ++ [transition].

(** ** Status records *)

Inductive PortForwardPhase : Type :=
| PhaseDisabled | WaitingForTarget | Requested | Leased | Installed | PhaseVerified
| TargetAmbiguous | LeaseLost | InstallFailed | VerificationFailed | PhaseUnavailable.
#[export] Instance PortForwardPhase_eq_dec : EqDecision PortForwardPhase.
Proof. solve_decision. Defined.

Record PortForwardStatus : Type := {
  ps_phase : PortForwardPhase;
  ps_requested_target : option string;
  ps_internal_port : option N;
  ps_external_port : option N;
  ps_tcp_udp_agree : option bool;
  ps_lease_acquired_at_unix_ms : option N;
  ps_lease_expires_at_unix_ms : option N;
  ps_dnat_installed : bool;
  ps_externally_verified : option bool;
  ps_change_sequence : N;
  ps_changed_at_unix_ms : option N;
}.

Record RecoveryStatus : Type := {
  rs_active : bool;
  rs_attempt : N;
  rs_reason_code : option string;
  rs_next_attempt_at_unix_ms : option N;
}.

Inductive ExternalProbeStatus : Type := ExUnknown | ExHealthy | ExDegraded | ExUnavailable.
#[export] Instance ExternalProbeStatus_eq_dec : EqDecision ExternalProbeStatus.
Proof. solve_decision. Defined.

Record ExternalProbeResult : Type := {
  er_status : ExternalProbeStatus;
  er_observed_at_unix_ms : option N;
  er_source_public_non_tailscale : option bool;
  er_source_matches_claimed_ip : option bool;
  er_tcp_port_reachable : option bool;
  er_forwarded_port : option N;
  er_lease_acquired_at_unix_ms : option N;
  er_request_started_at_unix_ms : option N;
  er_reason_code : option string;
  er_safe_message : option string;
}.

Inductive VpnServerLatencyStatus : Type :=
| Measured | Timeout | Unsupported | ResolutionFailed | LatencyUnavailable.
#[export] Instance VpnServerLatencyStatus_eq_dec : EqDecision VpnServerLatencyStatus.
Proof. solve_decision. Defined.

Record VpnServerLatency : Type := {
  vl_status : VpnServerLatencyStatus;
  vl_sampled_at_unix_ms : option N;
  vl_latest_rtt_ms : option f64;
  vl_recent_min_rtt_ms : option f64;
  vl_recent_average_rtt_ms : option f64;
  vl_recent_max_rtt_ms : option f64;
  vl_loss_ratio : option f64;
  vl_sample_count : N;
}.

Record VpnServerStatus : Type := {
  vs_configured_endpoint_host : option string;
  vs_configured_endpoint_port : option N;
  vs_configured_address_family : option string;
  vs_allowed_ips_posture : string;
  vs_runtime_endpoint_address : option string;
  vs_runtime_endpoint_port : option N;
  vs_provider_inferred : option string;
  vs_region_inferred : option string;
  vs_inference_source : option string;
  vs_inference_confidence : option string;
  vs_active : bool;
  vs_latest_handshake_unix : option N;
  vs_handshake_age_seconds : option N;
  vs_observed_at_unix_ms : option N;
  vs_latency : VpnServerLatency;
}.

Record TopologyStatus : Type := {
  tp_network : string;
  tp_subnet : string;
  tp_gateway_address : string;
  tp_host_bridge : string;
  tp_policy_table : N;
  tp_client_ipv6_supported : bool;
  tp_default_route_verifiable : bool;
  tp_declared_route_intent_observable : bool;
  tp_client_isolation : string;
}.

(** profile_manager.rs *)
Inductive ProfileLifecycle : Type :=
| Unconfigured | Validating | Applying | LifecycleActive | LifecycleDegraded | ApplyFailed
| LifecycleRecovering.
#[export] Instance ProfileLifecycle_eq_dec : EqDecision ProfileLifecycle.
Proof. solve_decision. Defined.

Record ApplyResult : Type := {
  ar_revision : option string;
  ar_classification : ApplyKind;
  ar_rolled_back : bool;
  ar_safe_message : string;
}.

Record ProfileManagementStatus : Type := {
  pm_lifecycle : ProfileLifecycle;
  pm_source : string;
  pm_source_mutable : bool;
  pm_active_revision : option string;
  pm_active : option RedactedProfile;
  pm_revisions : list ManagedRevision;
  pm_last_apply : option ApplyResult;
  pm_management_available : bool;
  pm_mutation_authorized : bool;
  pm_ipv4_only : bool;
}.

(** ** The snapshot *)

Record CanonicalSnapshot : Type := {
  sn_schema_version : N;
  sn_sequence : N;
  sn_generated_at_unix_ms : N;
  sn_protection : Protection;
  sn_availability : Availability;
  sn_checks : gmap string SubsystemCheck;
  sn_transitions : list Transition;
  sn_port_forward : PortForwardStatus;
  sn_port_forwards : gmap string PortForwardStatus;
  sn_recovery : RecoveryStatus;
  sn_external_probe : ExternalProbeResult;
  sn_external_probes : gmap string ExternalProbeResult;
  sn_vpn_server : VpnServerStatus;
  sn_isolation_policy : IsolationPolicy;
  sn_host_policy : HostPolicy;
  sn_topology : TopologyStatus;
  sn_clients : gmap string ClientState;
  sn_traffic : TrafficState;
  sn_last_client_path_success_at_unix_ms : option N;
  sn_profile_management : ProfileManagementStatus;
}.

(** The fields the publisher assigns; the others are kept. *)
Definition with_core (s : CanonicalSnapshot) (schema sequence generated : N)
    (protection : Protection) (availability : Availability) (checks : gmap string SubsystemCheck)
    (transitions : list Transition) : CanonicalSnapshot :=
  {| sn_schema_version := schema; sn_sequence := sequence; sn_generated_at_unix_ms := generated;
     sn_protection := protection; sn_availability := availability; sn_checks := checks;
     sn_transitions := transitions;
     sn_port_forward := s.(sn_port_forward); sn_port_forwards := s.(sn_port_forwards);
     sn_recovery := s.(sn_recovery); sn_external_probe := s.(sn_external_probe);
     sn_external_probes := s.(sn_external_probes); sn_vpn_server := s.(sn_vpn_server);
     sn_isolation_policy := s.(sn_isolation_policy); sn_host_policy := s.(sn_host_policy);
     sn_topology := s.(sn_topology); sn_clients := s.(sn_clients); sn_traffic := s.(sn_traffic);
     sn_last_client_path_success_at_unix_ms := s.(sn_last_client_path_success_at_unix_ms);
     sn_profile_management := s.(sn_profile_management) |}.

Definition status_is (check : option SubsystemCheck) (status : CheckStatus) : bool :=
  match check with Some c => bool_decide (c.(sc_status) = status) | None => false end.

Definition derive_protection (checks : gmap string SubsystemCheck) : Protection :=
  let firewall := checks !! "gateway.firewall" in
  let routes := checks !! "gateway.routes" in
  if status_is firewall Healthy && status_is routes Healthy then Enforced
  else if status_is firewall Failed then Violated
  else if status_is routes Failed then Violated
  else ProtectionUnknown.

(** The loop over the critical checks, with its three flags. *)
Definition critical_flags (flags : bool * bool * bool) (check : SubsystemCheck) : bool * bool * bool :=
  let '(failed, degraded, pend) := flags in
  if bool_decide (check.(sc_impact) = Critical) then
    match check.(sc_status) with
    | Failed => (true, degraded, pend)
    | Degraded | Unknown => (failed, true, pend)
    | Pending => (failed, degraded, true)
    | Healthy => flags
    end
  else flags.

Definition derive_availability (recovery : RecoveryStatus) (checks : gmap string SubsystemCheck)
    : Availability :=
  if recovery.(rs_active) then Recovering
  else
    let '(failed, degraded, pend) :=
      foldl critical_flags (false, false, false) (btree_values String.leb checks) in
    if failed then Unavailable
    else if degraded then AvDegraded
    else if pend then Starting
    else AvHealthy.

Definition derive_aggregate (s : CanonicalSnapshot) : CanonicalSnapshot :=
  with_core s s.(sn_schema_version) s.(sn_sequence) s.(sn_generated_at_unix_ms)
    (derive_protection s.(sn_checks)) (derive_availability s.(sn_recovery) s.(sn_checks))
    s.(sn_checks) s.(sn_transitions).

(** ** [Default] values *)

Definition port_forward_status_default : PortForwardStatus :=
  {| ps_phase := PhaseDisabled; ps_requested_target := None; ps_internal_port := None;
     ps_external_port := None; ps_tcp_udp_agree := None; ps_lease_acquired_at_unix_ms := None;
     ps_lease_expires_at_unix_ms := None; ps_dnat_installed := false;
     ps_externally_verified := None; ps_change_sequence := 0; ps_changed_at_unix_ms := None |}.

Definition recovery_status_default : RecoveryStatus :=
  {| rs_active := false; rs_attempt := 0; rs_reason_code := None; rs_next_attempt_at_unix_ms := None |}.

Definition external_probe_default : ExternalProbeResult :=
  {| er_status := ExUnknown; er_observed_at_unix_ms := None; er_source_public_non_tailscale := None;
     er_source_matches_claimed_ip := None; er_tcp_port_reachable := None; er_forwarded_port := None;
     er_lease_acquired_at_unix_ms := None; er_request_started_at_unix_ms := None;
     er_reason_code := None; er_safe_message := None |}.

Definition latency_default : VpnServerLatency :=
  {| vl_status := LatencyUnavailable; vl_sampled_at_unix_ms := None; vl_latest_rtt_ms := None;
     vl_recent_min_rtt_ms := None; vl_recent_average_rtt_ms := None; vl_recent_max_rtt_ms := None;
     vl_loss_ratio := None; vl_sample_count := 0 |}.

Definition vpn_server_default : VpnServerStatus :=
  {| vs_configured_endpoint_host := None; vs_configured_endpoint_port := None;
     vs_configured_address_family := None; vs_allowed_ips_posture := "";
     vs_runtime_endpoint_address := None; vs_runtime_endpoint_port := None;
     vs_provider_inferred := None; vs_region_inferred := None; vs_inference_source := None;
     vs_inference_confidence := None; vs_active := false; vs_latest_handshake_unix := None;
     vs_handshake_age_seconds := None; vs_observed_at_unix_ms := None;
     vs_latency := latency_default |}.

Definition topology_default : TopologyStatus :=
  {| tp_network := ""; tp_subnet := ""; tp_gateway_address := ""; tp_host_bridge := "";
     tp_policy_table := 0; tp_client_ipv6_supported := false; tp_default_route_verifiable := false;
     tp_declared_route_intent_observable := true;
     tp_client_isolation := "shared_bridge_not_enforced" |}.

Definition isolation_policy_default : IsolationPolicy :=
  {| ip_schema_version := 0; ip_generated_at_unix_ms := 0; ip_network := ""; ip_bridge := "";
     ip_subnet := ""; ip_eligible_for_enforcement := false; ip_reason_code := "";
     ip_safe_message := ""; ip_issues := []; ip_participants := []; ip_ipv6_subnet := None;
     ip_bound_range := None; ip_gateway_address := None; ip_rejected := [] |}.

Definition host_policy_default : HostPolicy :=
  {| hp_schema_version := 0; hp_generated_at_unix_ms := 0; hp_subnet := ""; hp_bridge := "";
     hp_gateway_ip := ""; hp_route_table := 0; hp_rule_priority := 0; hp_ipv6 := None |}.

Definition profile_management_default : ProfileManagementStatus :=
  {| pm_lifecycle := Unconfigured; pm_source := ""; pm_source_mutable := false;
     pm_active_revision := None; pm_active := None; pm_revisions := []; pm_last_apply := None;
     pm_management_available := false; pm_mutation_authorized := false; pm_ipv4_only := false |}.

Definition snapshot_default : CanonicalSnapshot :=
  {| sn_schema_version := 0; sn_sequence := 0; sn_generated_at_unix_ms := 0;
     sn_protection := ProtectionUnknown; sn_availability := Starting; sn_checks := ∅;
     sn_transitions := []; sn_port_forward := port_forward_status_default; sn_port_forwards := ∅;
     sn_recovery := recovery_status_default; sn_external_probe := external_probe_default;
     sn_external_probes := ∅; sn_vpn_server := vpn_server_default;
     sn_isolation_policy := isolation_policy_default; sn_host_policy := host_policy_default;
     sn_topology := topology_default; sn_clients := ∅; sn_traffic := traffic_default;
     sn_last_client_path_success_at_unix_ms := None;
     sn_profile_management := profile_management_default |}.
