(* ===== verification/Float64.v ===== *)
(** Rust's [f64]: the binary64 format of the Standard Library's [SpecFloat],
    with the conversions, comparisons and printing the code uses. *)

From Stdlib Require SpecFloat.
From S2P Require Import Prelude RustStr Domain.

Module Binary64.
Definition prec : Z := 53.
Definition emax : Z := 1024.

(** [n as f64] *)
Definition of_N (n : N) : f64 := SpecFloat.binary_normalize prec emax (Z.of_N n) 0 false.
Definition div : f64 -> f64 -> f64 := SpecFloat.SFdiv prec emax.
Definition add : f64 -> f64 -> f64 := SpecFloat.SFadd prec emax.
Definition mul : f64 -> f64 -> f64 := SpecFloat.SFmul prec emax.

(** [x < y]; false with a NaN. *)
Definition lt (x y : f64) : bool :=
  match SpecFloat.SFcompare x y with Some Lt => true | _ => false end.

(** [x <= y] *)
Definition le (x y : f64) : bool :=
  match SpecFloat.SFcompare x y with Some Lt | Some Eq => true | _ => false end.

(** [x <= 0.0] *)
Definition le_zero (x : f64) : bool := le x (SpecFloat.S754_zero false).

Definition is_finite (x : f64) : bool :=
  match x with SpecFloat.S754_zero _ | SpecFloat.S754_finite _ _ _ => true | _ => false end.
Definition is_nan (x : f64) : bool :=
  match x with SpecFloat.S754_nan => true | _ => false end.

(** [f64::min] and [f64::max]: the other argument for a NaN. *)
Definition fmin (x y : f64) : f64 := if is_nan x then y else if is_nan y then x else if lt y x then y else x.
Definition fmax (x y : f64) : f64 := if is_nan x then y else if is_nan y then x else if lt x y then y else x.

(** [x.round() as u64]: half away from zero, then saturating; NaN is 0. *)
Definition round_u64 (x : f64) : N :=
  match x with
  | SpecFloat.S754_finite false m e =>
      N.min u64_MAX
        (if (0 <=? e)%Z then N.pos m * 2 ^ Z.to_N e
         else (N.pos m + 2 ^ (Z.to_N (- e) - 1)) / 2 ^ Z.to_N (- e))
  | SpecFloat.S754_infinity false => u64_MAX
  | _ => 0
  end.

(** Tenths of a finite number's magnitude, half to even. *)
Definition tenths (m : positive) (e : Z) : N :=
  if (0 <=? e)%Z then N.pos m * 10 * 2 ^ Z.to_N e
  else
    let scale := (2 ^ Z.to_N (- e))%N in
    let quotient := (N.pos m * 10 / scale)%N in
    let rest := (2 * (N.pos m * 10 mod scale))%N in
    if (rest <? scale)%N then quotient
    else if (scale <? rest)%N then quotient + 1
    else if N.even quotient then quotient else quotient + 1.

(** [{:.1}] *)
Definition show1 (x : f64) : string :=
  let sign (negative : bool) : string := if negative then "-" else "" in
  match x with
  | SpecFloat.S754_zero s => sign s +:+ "0.0"
  | SpecFloat.S754_infinity s => sign s +:+ "inf"
  | SpecFloat.S754_nan => "NaN"
  | SpecFloat.S754_finite s m e =>
      let t := tenths m e in sign s +:+ show_N (t / 10) +:+ "." +:+ show_N (t mod 10)
  end.

(** ** [str::parse::<f64>]: the nearest number, half to even *)

Definition of_ratio (negative : bool) (num den : positive) : f64 :=
  let '(m, e, l) := SpecFloat.SFdiv_core_binary prec emax (Z.pos num) 0 (Z.pos den) 0 in
  SpecFloat.binary_round_aux prec emax negative m e l.

(** [digits * 10 ^ exponent]; a number this far out of range is known without
    the power. *)
Definition of_decimal (negative : bool) (digits : N) (exponent : Z) : f64 :=
  match digits with
  | N0 => SpecFloat.S754_zero negative
  | N.pos m =>
      if (400 <? exponent)%Z then SpecFloat.S754_infinity negative
      else if (exponent <? - (400 + Z.of_N (N.size digits)))%Z then SpecFloat.S754_zero negative
      else if (0 <=? exponent)%Z then of_ratio negative (m * Z.to_pos (10 ^ exponent)) 1
      else of_ratio negative m (Z.to_pos (10 ^ (- exponent)))
  end.

(** Leading digits, with how many there are. *)
Fixpoint take_digits (acc : N) (count : nat) (s : list ascii) : N * nat * list ascii :=
  match s with
  | c :: s' =>
      match digit_val c with
      | Some d => take_digits (acc * 10 + d) (S count) s'
      | None => (acc, count, s)
      end
  | [] => (acc, count, [])
  end.

Definition parse_sign (s : list ascii) : bool * list ascii :=
  match s with
  | "-"%char :: s => (true, s)
  | "+"%char :: s => (false, s)
  | _ => (false, s)
  end.

Definition parse_exponent (s : list ascii) : option Z :=
  match s with
  | [] => Some 0%Z
  | c :: s =>
      if Ascii.eqb c "e" || Ascii.eqb c "E" then
        let '(negative, s) := parse_sign s in
        match take_digits 0 0 s with
        | (e, S _, []) => Some (if negative then - Z.of_N e else Z.of_N e)%Z
        | _ => None
        end
      else None
  end.

Definition parse_f64 (text : string) : option f64 :=
  let '(negative, s) := parse_sign (chars text) in
  let word := to_ascii_lowercase (of_chars s) in
  if String.eqb word "inf" || String.eqb word "infinity" then Some (SpecFloat.S754_infinity negative)
  else if String.eqb word "nan" then Some SpecFloat.S754_nan
  else
    let '(whole, whole_count, rest) := take_digits 0 0 s in
    let '(digits, fraction_count, rest) :=
      match rest with
      | "."%char :: rest => take_digits whole 0 rest
      | _ => (whole, 0%nat, rest)
      end in
    if (whole_count + fraction_count =? 0)%nat then None
    else
      exponent ← parse_exponent rest;
      Some (of_decimal negative digits (exponent - Z.of_nat fraction_count)%Z).

Example parse_examples :
  parse_f64 "100" = Some (of_N 100) /\ parse_f64 "0.25" = Some (div (of_N 1) (of_N 4))
  /\ parse_f64 "12.7e1" = Some (of_N 127) /\ parse_f64 "0.1" = Some (div (of_N 1) (of_N 10))
  /\ parse_f64 "." = None /\ parse_f64 "1ms" = None /\ parse_f64 "1e999" = Some (SpecFloat.S754_infinity false).
Proof. by vm_compute. Qed.

Example show1_examples :
  show1 (of_N 100) = "100.0" /\ show1 (div (of_N 1) (of_N 4)) = "0.2"
  /\ show1 (div (of_N 100625) (of_N 1000)) = "100.6" /\ show1 (div (of_N 99) (of_N 100)) = "1.0".
Proof. by vm_compute. Qed.
End Binary64.
