(* ===== verification/DomainProps.v ===== *)
(** Properties of the canonical snapshot: the window of transitions is bounded
    and fair to quiet components, and the aggregate fails closed. *)

From S2P Require Import Prelude RustStr Net BTree State Isolation HostPolicy WireGuard Profiles Domain.

Definition components (l : list Transition) : list string := ts_component <$> l.

(** The entries a component holds, and its oldest one. *)
Definition held (c : string) (l : list Transition) : nat := occurrences c (components l).
Definition oldest_of (c : string) (i : nat) (l : list Transition) : Prop :=
  components l !! i = Some c /\ forall j, (j < i)%nat -> components l !! j <> Some c.

(** ** The busiest component *)

Lemma enumerate_from_snoc {A} n (l : list A) x :
  enumerate_from n (l ++ [x]) = enumerate_from n l ++ [((n + length l)%nat, x)].
Proof.
  revert n. induction l as [|y l IH]; intros n; cbn; [by rewrite Nat.add_0_r|].
  by rewrite IH, Nat.add_succ_r.
Qed.

Lemma holdings_of_snoc l t :
  holdings_of (l ++ [t]) = holding_entry (holdings_of l) (length l, t).
Proof. unfold holdings_of, enumerate. by rewrite enumerate_from_snoc, foldl_app. Qed.

Lemma held_snoc c l t : held c (l ++ [t]) = (held c l + if decide (ts_component t = c) then 1 else 0)%nat.
Proof.
  unfold held, components. rewrite fmap_app, occurrences_app. f_equal.
  change (ts_component <$> [t]) with [ts_component t]. rewrite occurrences_cons.
  change (occurrences c []) with 0%nat. by rewrite Nat.add_0_r.
Qed.

Lemma oldest_of_snoc c i l t :
  oldest_of c i (l ++ [t]) <->
  oldest_of c i l \/ (i = length l /\ ts_component t = c /\ held c l = 0%nat).
Proof.
  unfold oldest_of, held, components. rewrite fmap_app, occurrences_zero. split.
  - intros [Hi Hj]. destruct (decide (i < length l)%nat) as [Hlt|Hge].
    + left. rewrite lookup_app_l in Hi by (by rewrite length_fmap). split; [done|].
      intros j Hji. specialize (Hj j Hji). by rewrite lookup_app_l in Hj by (rewrite length_fmap; lia).
    + right. rewrite lookup_app_r in Hi by (rewrite length_fmap; lia).
      rewrite length_fmap in Hi. apply list_lookup_singleton_Some in Hi as [Hi Hc].
      split; [lia|]. split; [done|]. intros [j Hj']%list_elem_of_lookup.
      assert (j < length l)%nat by (apply lookup_lt_Some in Hj'; by rewrite length_fmap in Hj').
      apply (Hj j); [lia|]. by rewrite lookup_app_l by (by rewrite length_fmap).
  - intros [[Hi Hj]|(-> & Hc & Hn)].
    + assert (i < length l)%nat by (apply lookup_lt_Some in Hi; by rewrite length_fmap in Hi).
      rewrite lookup_app_l by (by rewrite length_fmap). split; [done|].
      intros j Hji. rewrite lookup_app_l by (rewrite length_fmap; lia). by apply Hj.
    + rewrite lookup_app_r by (by rewrite length_fmap). rewrite length_fmap, Nat.sub_diag. cbn.
      split; [by rewrite Hc|]. intros j Hj. rewrite lookup_app_l by (by rewrite length_fmap).
      intros Hx. apply Hn, list_elem_of_lookup. eauto.
Qed.

Lemma oldest_exists c l : (0 < held c l)%nat -> exists i, oldest_of c i l.
Proof.
  unfold held. rewrite occurrences_pos. intros [k Hk]%list_elem_of_lookup.
  revert Hk. induction (lt_wf k) as [k _ IHk]. intros Hk.
  destruct (decide (Exists (fun j => components l !! j = Some c) (seq 0 k))) as [He|He].
  - apply list.Exists_exists in He as (j & Hj & Hj'). apply elem_of_seq in Hj. apply (IHk j); [lia|done].
  - exists k. split; [done|]. intros j Hj Hj'. apply He, list.Exists_exists. exists j.
    split; [apply elem_of_seq; lia|done].
Qed.

Lemma holdings_of_lookup l c n i :
  holdings_of l !! c = Some (n, i) <-> n = held c l /\ (0 < n)%nat /\ oldest_of c i l.
Proof.
  revert n i. induction l as [|t l IH] using rev_ind; intros n i.
  - unfold holdings_of, held, oldest_of. cbn. rewrite lookup_empty. split; [done|]. intros (-> & Hn & _).
    cbn in Hn. lia.
  - rewrite holdings_of_snoc, held_snoc, oldest_of_snoc. unfold holding_entry.
    destruct (decide (ts_component t = c)) as [<-|Hne].
    + destruct (holdings_of l !! ts_component t) as [[n0 i0]|]; cbn; rewrite lookup_insert_eq.
      * destruct (proj1 (IH n0 i0) eq_refl) as (-> & Hpos & Hold). split.
        -- intros [= <- <-]. split; [lia|]. split; [lia|]. by left.
        -- intros (-> & _ & [Hi|(_ & _ & ?)]); [|lia]. do 2 f_equal; [lia|].
           destruct Hold as [H1 H2], Hi as [H3 H4].
           destruct (Nat.lt_trichotomy i0 i) as [Hlt|[?|Hlt]]; [by destruct (H4 i0 Hlt)|done|by destruct (H2 i Hlt)].
      * assert (held (ts_component t) l = 0%nat) as H0.
        { destruct (Nat.eq_0_gt_0_cases (held (ts_component t) l)) as [|Hpos]; [done|]. exfalso.
          destruct (oldest_exists _ _ Hpos) as [j Hj].
          by assert (None = Some (held (ts_component t) l, j)) as [=] by by apply IH. }
        rewrite H0. split.
        -- intros [= <- <-]. split; [done|]. split; [lia|]. by right.
        -- intros (-> & _ & [[Hi _]|(-> & _)]); [|done].
           exfalso. unfold held in H0. apply occurrences_zero in H0. apply H0, list_elem_of_lookup. eauto.
    + destruct (default _ _) as [n1 i1]. rewrite lookup_insert_ne by done. rewrite IH, Nat.add_0_r. intuition.
Qed.

Lemma max_holding_spec l m :
  max_holding l = Some m -> m ∈ l /\ forall y, y ∈ l -> (y.1 <= m.1)%nat /\ (y.1 = m.1 -> m.2 <= y.2)%nat.
Proof.
  destruct l as [|x l]; [done|]. cbn. intros [= <-]. revert x. induction l as [|z l IH]; intros x; cbn.
  - split; [by left|]. by intros y ->%list_elem_of_singleton.
  - destruct (IH (if holds_more x z then x else z)) as [Hin Hmax]. split.
    + apply elem_of_cons in Hin as [->|?]; [|set_solver]. destruct (holds_more x z); set_solver.
    + assert (forall y, y = x \/ y = z -> let b := if holds_more x z then x else z in
        (y.1 <= b.1)%nat /\ (y.1 = b.1 -> b.2 <= y.2)%nat) as Hb.
      { clear. intros y Hy. unfold holds_more. destruct x as [xc xo], z as [zc zo]; cbn [fst snd].
        destruct (Nat.ltb_spec zc xc), (Nat.eqb_spec xc zc), (Nat.ltb_spec xo zo);
          destruct Hy as [->| ->]; cbn; lia. }
      intros y Hy. apply elem_of_cons in Hy as [->|Hy].
      * destruct (Hb x (or_introl eq_refl)), (Hmax (if holds_more x z then x else z)); [by left|]. lia.
      * apply elem_of_cons in Hy as [->|Hy]; [|apply Hmax; by right].
        destruct (Hb z (or_intror eq_refl)), (Hmax (if holds_more x z then x else z)); [by left|]. lia.
Qed.

(** The victim does not depend on the order in which the map is iterated. *)
Lemma max_holding_order l l' : l ≡ₚ l' -> snd <$> max_holding l = snd <$> max_holding l'.
Proof.
  intros Hp. destruct (max_holding l) as [m|] eqn:E, (max_holding l') as [m'|] eqn:E'.
  - apply max_holding_spec in E as [H1 H2], E' as [H3 H4].
    rewrite Hp in H1. destruct (H4 m H1) as [? ?]. rewrite <- Hp in H3. destruct (H2 m' H3) as [? ?].
    cbn. f_equal. lia.
  - destruct l'; [|done]. symmetry in Hp. apply Permutation_nil in Hp as ->. done.
  - destruct l; [|done]. apply Permutation_nil in Hp as ->. done.
  - done.
Qed.

Lemma busiest_spec l i :
  busiest_components_oldest l = Some i ->
  exists c, oldest_of c i l /\ forall c', (held c' l <= held c l)%nat.
Proof.
  unfold busiest_components_oldest. intros H. apply fmap_Some in H as ([n o] & Hm & ->). cbn.
  apply max_holding_spec in Hm as [Hin Hmax].
  apply list_elem_of_fmap in Hin as ([c [n' o']] & [= <- <-] & Hc%elem_of_map_to_list).
  apply holdings_of_lookup in Hc as (-> & Hpos & Hold). exists c. split; [done|].
  intros c'. destruct (Nat.eq_0_gt_0_cases (held c' l)) as [|Hpos']; [lia|].
  destruct (holdings_of l !! c') as [[n' o']|] eqn:Hc'.
  - apply holdings_of_lookup in Hc' as Hc''. destruct Hc'' as (-> & _).
    apply (Hmax (held c' l, o')). apply list_elem_of_fmap. exists (c', (held c' l, o')).
    split; [done|]. by apply elem_of_map_to_list.
  - exfalso. pose proof (holdings_of_lookup l c') as Hl. rewrite Hc' in Hl.
    destruct (oldest_exists _ _ Hpos') as [o' Ho'].
    assert (None = Some (held c' l, o')) as [=]. by apply Hl.
Qed.

Lemma busiest_some l : l <> [] -> exists i, busiest_components_oldest l = Some i.
Proof.
  destruct l as [|t l]; [done|]. intros _. unfold busiest_components_oldest.
  destruct (max_holding _) as [m|] eqn:E; [cbn; eauto|]. exfalso.
  destruct (oldest_exists (ts_component t) (t :: l)) as [i Hi].
  { unfold held. apply occurrences_pos. by left. }
  assert (holdings_of (t :: l) !! ts_component t = Some (held (ts_component t) (t :: l), i)) as Hh.
  { apply holdings_of_lookup. split; [done|]. split; [|done].
    unfold held. apply occurrences_pos. by left. }
  apply elem_of_map_to_list in Hh.
  destruct (map_to_list (holdings_of (t :: l))) as [|x m]; [by apply elem_of_nil in Hh|done].
Qed.

(** *** The fair share *)

Lemma length_by_key (ks cs : list string) (m : nat) :
  (forall c, c ∈ cs -> c ∈ ks) -> (forall c, occurrences c cs <= m)%nat ->
  (length cs <= length ks * m)%nat.
Proof.
  revert cs. induction ks as [|k ks IH]; intros cs Hin Hm.
  - destruct cs as [|c cs]; [cbn; lia|]. specialize (Hin c (list_elem_of_here _ _)). by apply elem_of_nil in Hin.
  - assert (length cs = occurrences k cs + length (filter (fun c => ~ (c = k)) cs))%nat as ->.
    { clear. induction cs as [|c cs IH]; [done|]. rewrite occurrences_cons, filter_cons.
      repeat case_decide; cbn; try done; lia. }
    assert (length (filter (fun c => ~ (c = k)) cs) <= length ks * m)%nat.
    { apply IH.
      - intros c [Hc Hcs]%list_elem_of_filter. apply Hin in Hcs. set_solver.
      - intros c. etrans; [|exact (Hm c)]. clear. induction cs as [|x cs IH]; [done|].
        rewrite filter_cons. case_decide; rewrite !occurrences_cons; lia. }
    specialize (Hm k). cbn. lia.
Qed.

(** The components of a window. *)
Definition window_components (l : list Transition) : list string := elements (list_to_set (components l) : gset string).

Lemma fair_share c l :
  (forall c', held c' l <= held c l)%nat -> (length l <= length (window_components l) * held c l)%nat.
Proof.
  intros Hmax. unfold held in *. rewrite <- (length_fmap ts_component l). apply length_by_key; [|done].
  intros c' Hc'. unfold window_components. by apply elem_of_elements, elem_of_list_to_set.
Qed.

(** The entries of one component, in order. *)
Definition entries_of (c : string) (l : list Transition) : list Transition :=
  filter (fun t => ts_component t = c) l.

Lemma entries_of_delete c i l old :
  l !! i = Some old -> old.(ts_component) <> c -> entries_of c (delete i l) = entries_of c l.
Proof.
  intros Hi Hc. rewrite delete_take_drop. rewrite <- (take_drop_middle l i old Hi) at 3.
  unfold entries_of. rewrite !list.filter_app, filter_cons. by rewrite decide_False.
Qed.

Lemma push_transition_short l t : (length l < 200)%nat -> push_transition l t = l ++ [t].
Proof.
  intros Hlt. unfold push_transition. f_equal. unfold evict, TRANSITION_CAPACITY.
  destruct (length l) eqn:E; [done|]. by rewrite (proj2 (Nat.ltb_lt _ _)) by lia.
Qed.

Lemma push_transition_full l t :
  length l = 200%nat ->
  exists i old, l !! i = Some old /\ push_transition l t = delete i l ++ [t] /\
    oldest_of old.(ts_component) i l /\
    (forall c, held c l <= held old.(ts_component) l)%nat.
Proof.
  intros Hl. destruct (busiest_some l) as [i Hi]; [by destruct l|].
  apply busiest_spec in Hi as Hs. destruct Hs as (c & Hold & Hmax).
  assert (exists old, l !! i = Some old /\ old.(ts_component) = c) as (old & Hlo & <-).
  { destruct Hold as [Ho _]. unfold components in Ho. rewrite list_lookup_fmap in Ho.
    apply fmap_Some in Ho as (old & ? & ->). eauto. }
  exists i, old. split_and!; try done. unfold push_transition. f_equal. rewrite Hl.
  change 200%nat with (S (S 198)). cbn [evict]. unfold TRANSITION_CAPACITY. rewrite Hl, Hi.
  change (200 <? 200)%nat with false. cbn iota.
  assert (length (delete i l) = 199%nat) as ->.
  { apply lookup_lt_Some in Hlo as Hlt. rewrite length_delete by eauto. lia. }
  done.
Qed.

Lemma push_transition_length l t :
  (length l <= 200)%nat -> length (push_transition l t) = Nat.min 200 (S (length l)).
Proof.
  intros Hlen. destruct (decide (length l = 200%nat)) as [Hl|Hl].
  - destruct (push_transition_full l t Hl) as (i & old & Hi & -> & _).
    rewrite length_app, length_delete by eauto. cbn [length]. lia.
  - rewrite push_transition_short by lia. rewrite length_app. cbn [length]. lia.
Qed.


Definition sample_transition (component : string) (sequence : N) : Transition :=
  {| ts_sequence := sequence; ts_timestamp_unix_ms := 0; ts_component := component;
     ts_from_status := Pending; ts_to_status := Healthy; ts_reason_code := "";
     ts_safe_message := ""; ts_recovery_attempt := None |}.

(** A full window: one quiet entry before 199 of a busy component. *)
Definition sample_window : list Transition :=
  sample_transition "quiet" 0 :: (sample_transition "busy" ∘ N.of_nat <$> seq 1 199).


(** ** The aggregate *)

Section aggregate.
Context (s : CanonicalSnapshot).

(** Some critical check has one of the statuses. *)
Definition critical_with (p : CheckStatus -> Prop) : Prop :=
  exists id c, s.(sn_checks) !! id = Some c /\ c.(sc_impact) = Critical /\ p c.(sc_status).

Lemma status_is_true o st : status_is o st = true <-> exists c, o = Some c /\ c.(sc_status) = st.
Proof. unfold status_is. destruct o as [c|]; [rewrite bool_decide_true|]; naive_solver. Qed.

Lemma critical_flags_spec l f d p :
  foldl critical_flags (f, d, p) l =
  (f || existsb (fun c => bool_decide (c.(sc_impact) = Critical /\ c.(sc_status) = Failed)) l,
   d || existsb (fun c => bool_decide (c.(sc_impact) = Critical /\
                    (c.(sc_status) = Degraded \/ c.(sc_status) = Unknown))) l,
   p || existsb (fun c => bool_decide (c.(sc_impact) = Critical /\ c.(sc_status) = Pending)) l).
Proof.
  revert f d p. induction l as [|c l IH]; intros f d p; cbn [foldl existsb]; [by rewrite !orb_false_r|].
  unfold critical_flags at 2. destruct c as [id st im ? ? ? ? ? ?]. cbn [sc_impact sc_status].
  destruct im.
  - change (bool_decide (Critical = Critical)) with true. cbn iota.
    destruct st; rewrite IH; by destruct f, d, p.
  - change (bool_decide (Advisory = Critical)) with false. cbn iota. rewrite IH. by destruct f, d, p.
  - change (bool_decide (Optional = Critical)) with false. cbn iota. rewrite IH. by destruct f, d, p.
Qed.

Lemma existsb_checks (p : CheckStatus -> Prop) `{forall st, Decision (p st)} :
  existsb (fun c => bool_decide (c.(sc_impact) = Critical /\ p c.(sc_status)))
    (btree_values String.leb s.(sn_checks)) = true <-> critical_with p.
Proof.
  rewrite existsb_elem. setoid_rewrite bool_decide_true. setoid_rewrite elem_of_btree_values.
  unfold critical_with. naive_solver.
Qed.

Lemma failed_means_unavailable id c :
  s.(sn_checks) !! id = Some c -> c.(sc_impact) = Critical -> c.(sc_status) = Failed ->
  derive_availability s.(sn_recovery) s.(sn_checks)
  = if s.(sn_recovery).(rs_active) then Recovering else Unavailable.
Proof.
  intros Hc Hi Hf. unfold derive_availability. destruct (rs_active _); [done|].
  rewrite critical_flags_spec, orb_false_l.
  destruct (existsb _ _) eqn:He at 1; [done|]. exfalso. apply not_true_iff_false in He. apply He.
  apply existsb_elem. exists c. rewrite bool_decide_true, elem_of_btree_values. eauto.
Qed.

(** the aggregate fails closed.  Protection is enforced exactly when both
    the firewall and the routes are observed healthy, and violated only when
    one of them has failed; availability is the worst status of the critical
    checks, an unknown check counting as degraded, whatever their order, and
    advisory checks never lower it. *)
Theorem derive_aggregate_spec :
  let a := derive_aggregate s in
  (a.(sn_protection) = Enforced <->
     status_is (s.(sn_checks) !! "gateway.firewall") Healthy = true /\
     status_is (s.(sn_checks) !! "gateway.routes") Healthy = true) /\
  (a.(sn_protection) = Violated <->
     status_is (s.(sn_checks) !! "gateway.firewall") Failed = true \/
     status_is (s.(sn_checks) !! "gateway.routes") Failed = true) /\
  (a.(sn_availability) = Recovering <-> s.(sn_recovery).(rs_active) = true) /\
  (s.(sn_recovery).(rs_active) = false ->
     let failed := critical_with (.= Failed) in
     let degraded := critical_with (fun st => st = Degraded \/ st = Unknown) in
     let pending := critical_with (.= Pending) in
     (a.(sn_availability) = Unavailable <-> failed) /\
     (a.(sn_availability) = AvDegraded <-> ~ failed /\ degraded) /\
     (a.(sn_availability) = Starting <-> ~ failed /\ ~ degraded /\ pending) /\
     (a.(sn_availability) = AvHealthy <->
        forall id c, s.(sn_checks) !! id = Some c -> c.(sc_impact) = Critical -> c.(sc_status) = Healthy)).
Proof.
  cbn. unfold derive_protection, derive_availability.
  set (fw := s.(sn_checks) !! "gateway.firewall"). set (rt := s.(sn_checks) !! "gateway.routes").
  assert (forall o st st', status_is o st = true -> status_is o st' = true -> st = st') as Hone.
  { intros o st st' H1 H2. apply status_is_true in H1 as (c & -> & <-), H2 as (c' & [= <-] & <-). done. }
  split_and!.
  - destruct (status_is fw Healthy), (status_is rt Healthy), (status_is fw Failed), (status_is rt Failed);
      cbn; naive_solver.
  - destruct (status_is fw Healthy) eqn:E1, (status_is rt Healthy) eqn:E2,
      (status_is fw Failed) eqn:E3, (status_is rt Failed) eqn:E4; cbn;
      try (by specialize (Hone _ _ _ E1 E3)); try (by specialize (Hone _ _ _ E2 E4));
      naive_solver.
  - destruct (rs_active _); [done|]. destruct (foldl _ _ _) as [[[] []] []]; done.
  - intros ->. rewrite critical_flags_spec, !orb_false_l.
    pose proof (existsb_checks (.= Failed)) as Hf.
    pose proof (existsb_checks (fun st => st = Degraded \/ st = Unknown)) as Hd.
    pose proof (existsb_checks (.= Pending)) as Hp.
    assert ((forall id c, s.(sn_checks) !! id = Some c -> c.(sc_impact) = Critical -> c.(sc_status) = Healthy)
      <-> ~ critical_with (.= Failed) /\ ~ critical_with (fun st => st = Degraded \/ st = Unknown)
          /\ ~ critical_with (.= Pending)) as Hh.
    { unfold critical_with. split.
      - intros Hall. split_and!; intros (id & c & Hc & Hi & Hs); specialize (Hall id c Hc Hi); rewrite Hall in Hs; by repeat destruct Hs as [Hs|Hs].
      - intros (H1 & H2 & H3) id c Hc Hi. destruct (sc_status c) eqn:E; [|done|..]; exfalso.
        + apply H3. eauto 10.
        + apply H2. eauto 10.
        + apply H1. eauto 10.
        + apply H2. eauto 10. }
    cbv zeta. rewrite Hh, <- Hf, <- Hd, <- Hp. clear.
    destruct (existsb _ _), (existsb _ _), (existsb _ _); naive_solver.
Qed.
End aggregate.
