(* ===== verification/Control.v ===== *)
(** The state publisher (src/src/control.rs) and the retry delay
    (src/src/recovery.rs).

    The publisher's three operations each hold the mutex throughout, so a run
    of the gateway is a sequence of them, in the order the mutex is taken. *)

From S2P Require Import Prelude RustStr Net BTree State Isolation HostPolicy WireGuard Profiles.
From S2P Require Import Domain DomainProps.

(** [inner], the value of the [watch] channel, and every event that was sent. *)
Record StatePublisher : Type := {
  sp_inner : CanonicalSnapshot;
  sp_snapshots : CanonicalSnapshot;
  sp_events : list Transition;
}.

Definition publisher_new (initial : CanonicalSnapshot) : StatePublisher :=
  let initial := with_core initial 2 initial.(sn_sequence) initial.(sn_generated_at_unix_ms)
    initial.(sn_protection) initial.(sn_availability) initial.(sn_checks) initial.(sn_transitions) in
  {| sp_inner := initial; sp_snapshots := initial; sp_events := [] |}.

Definition publish (s : CanonicalSnapshot) (events : list Transition) : StatePublisher :=
  {| sp_inner := s; sp_snapshots := s; sp_events := events |}.

(** [state.sequence += 1] on a u64. *)
Definition next_sequence (s : CanonicalSnapshot) : N := wrapping_add 64 s.(sn_sequence) 1.

Record Observation : Type := {
  ob_id : string;
  ob_status : CheckStatus;
  ob_impact : Impact;
  ob_reason_code : string;
  ob_safe_message : string;
  ob_next_attempt_at_unix_ms : option N;
  ob_recovery_attempt : option N;
}.

Definition previous_check (s : CanonicalSnapshot) (o : Observation) (now : N) : SubsystemCheck :=
  default (pending o.(ob_id) o.(ob_impact) now) (s.(sn_checks) !! o.(ob_id)).

Definition observation_changed (s : CanonicalSnapshot) (o : Observation) (now : N) : bool :=
  let previous := previous_check s o now in
  negb (bool_decide (previous.(sc_status) = o.(ob_status)))
  || negb (String.eqb previous.(sc_reason_code) o.(ob_reason_code)).

Definition observed_check (s : CanonicalSnapshot) (o : Observation) (now : N) : SubsystemCheck :=
  let previous := previous_check s o now in
  {| sc_id := o.(ob_id);
     sc_status := o.(ob_status);
     sc_impact := o.(ob_impact);
     sc_observed_at_unix_ms := now;
     sc_changed_at_unix_ms :=
       if observation_changed s o now then now else previous.(sc_changed_at_unix_ms);
     sc_reason_code := o.(ob_reason_code);
     sc_safe_message := o.(ob_safe_message);
     sc_consecutive_failures :=
       match o.(ob_status) with
       | Failed | Degraded => saturating_add u32_MAX previous.(sc_consecutive_failures) 1
       | _ => 0
       end;
     sc_next_attempt_at_unix_ms := o.(ob_next_attempt_at_unix_ms) |}.

Definition observe (p : StatePublisher) (o : Observation) (now : N) : StatePublisher :=
  let s := p.(sp_inner) in
  let checks := <[o.(ob_id) := observed_check s o now]> s.(sn_checks) in
  if observation_changed s o now then
    let sequence := next_sequence s in
    let transition :=
      {| ts_sequence := sequence; ts_timestamp_unix_ms := now; ts_component := o.(ob_id);
         ts_from_status := (previous_check s o now).(sc_status); ts_to_status := o.(ob_status);
         ts_reason_code := o.(ob_reason_code); ts_safe_message := o.(ob_safe_message);
         ts_recovery_attempt := o.(ob_recovery_attempt) |} in
    publish
      (derive_aggregate (with_core s s.(sn_schema_version) sequence now s.(sn_protection)
         s.(sn_availability) checks (push_transition s.(sn_transitions) transition)))
      (p.(sp_events) ++ [transition])
  else
    publish
      (derive_aggregate (with_core s s.(sn_schema_version) s.(sn_sequence) now s.(sn_protection)
         s.(sn_availability) checks s.(sn_transitions)))
      p.(sp_events).

Definition mutate (p : StatePublisher) (update : CanonicalSnapshot -> CanonicalSnapshot) (now : N)
    : StatePublisher :=
  let s := update p.(sp_inner) in
  publish
    (derive_aggregate (with_core s s.(sn_schema_version) s.(sn_sequence) now s.(sn_protection)
       s.(sn_availability) s.(sn_checks) s.(sn_transitions)))
    p.(sp_events).

Definition emit (p : StatePublisher) (component reason_code safe_message : string) (now : N)
    : StatePublisher :=
  let s := p.(sp_inner) in
  let sequence := next_sequence s in
  let transition :=
    {| ts_sequence := sequence; ts_timestamp_unix_ms := now; ts_component := component;
       ts_from_status := Healthy; ts_to_status := Healthy; ts_reason_code := reason_code;
       ts_safe_message := safe_message; ts_recovery_attempt := None |} in
  publish
    (with_core s s.(sn_schema_version) sequence now s.(sn_protection) s.(sn_availability)
       s.(sn_checks) (push_transition s.(sn_transitions) transition))
    (p.(sp_events) ++ [transition]).

(** ** [retry_delay_seconds], with the random jitter as an argument *)

Definition BACKOFF : list N := [2; 5; 10; 30; 60]%N.

Definition backoff_at (index : nat) : N :=
  match BACKOFF !! index with
  | Some base => base
  | None => saturating_mul u64_MAX 60 (N.min u64_MAX (2 ^ N.of_nat (Nat.min (index - 4) 2)))
  end.

Definition backoff_base (attempt maximum : N) : N :=
  N.min (backoff_at (N.to_nat (saturating_sub attempt 1))) maximum.

(** [random_range(0..=(base / 5).max(1))] draws a value up to this. *)
Definition jitter_bound (attempt maximum : N) : N := N.max (backoff_base attempt maximum / 5) 1.

Definition retry_delay_seconds (attempt maximum jitter : N) : N :=
  N.min (saturating_add u64_MAX (backoff_base attempt maximum) jitter) maximum.

(** ** Runs of the publisher *)

(** What the closures given to [mutate] do to the publisher's own fields: they
    leave them alone, or number one change of a forward of theirs. *)
Definition keeps_core (update : CanonicalSnapshot -> CanonicalSnapshot) : Prop :=
  forall s, (s.(sn_sequence) <= (update s).(sn_sequence) <= s.(sn_sequence) + 1)%N /\
    (update s).(sn_transitions) = s.(sn_transitions) /\
    (update s).(sn_checks) = s.(sn_checks) /\
    (update s).(sn_schema_version) = s.(sn_schema_version).

Inductive Op : Type :=
| OpObserve (o : Observation) (now : N)
| OpMutate (update : CanonicalSnapshot -> CanonicalSnapshot) (now : N)
| OpEmit (component reason_code safe_message : string) (now : N).

Definition run_op (p : StatePublisher) (op : Op) : StatePublisher :=
  match op with
  | OpObserve o now => observe p o now
  | OpMutate update now => mutate p update now
  | OpEmit component reason_code safe_message now => emit p component reason_code safe_message now
  end.

Definition well_behaved (op : Op) : Prop :=
  match op with OpMutate update _ => keeps_core update | _ => True end.

(** The events are numbered in increasing order, after [first], up to [last]. *)
Definition numbered (first last : N) (events : list Transition) : Prop :=
  Forall (fun t => first < t.(ts_sequence) <= last)%N events
  /\ StronglySorted (fun t u => t.(ts_sequence) < u.(ts_sequence))%N events.

(** The state of the publisher that every operation preserves. *)
Record publisher_ok (initial : CanonicalSnapshot) (p : StatePublisher) : Prop := {
  ok_published : p.(sp_snapshots) = p.(sp_inner);
  ok_schema : p.(sp_inner).(sn_schema_version) = 2%N;
  ok_sequence : (initial.(sn_sequence) <= p.(sp_inner).(sn_sequence))%N;
  ok_numbered : numbered initial.(sn_sequence) p.(sp_inner).(sn_sequence) p.(sp_events);
  ok_window : (length p.(sp_inner).(sn_transitions) <= 200)%nat;
  ok_recent : sublist p.(sp_inner).(sn_transitions) (initial.(sn_transitions) ++ p.(sp_events));
}.

Lemma numbered_later first last last' events :
  (last <= last')%N -> numbered first last events -> numbered first last' events.
Proof.
  intros Hle [Hall Hs]. split; [|done]. apply (list.Forall_impl _ _ _ Hall). intros t. lia.
Qed.

Lemma numbered_snoc first last events t :
  (first <= last)%N -> numbered first last events -> t.(ts_sequence) = (last + 1)%N ->
  numbered first (last + 1) (events ++ [t]).
Proof.
  intros Hle [Hall Hs] Ht. split.
  - apply list.Forall_app. split; [|repeat constructor; lia].
    apply (list.Forall_impl _ _ _ Hall). intros u. lia.
  - induction Hall as [|u events Hu Hall IH]; cbn; [by repeat constructor|].
    apply StronglySorted_inv in Hs as [Hs Hlt]. constructor; [by apply IH|].
    apply list.Forall_app. split; [done|]. repeat constructor. lia.
Qed.

Lemma push_transition_sublist l t k :
  (length l <= 200)%nat -> sublist l k -> sublist (push_transition l t) (k ++ [t]).
Proof.
  intros Hl Hs. destruct (decide (length l = 200%nat)) as [H200|].
  - destruct (push_transition_full l t H200) as (i & old & _ & -> & _). apply sublist_app; [|done].
    etrans; [apply sublist_delete|done].
  - rewrite push_transition_short by lia. by apply sublist_app.
Qed.

Lemma next_sequence_exact s : (s.(sn_sequence) < u64_MAX)%N -> next_sequence s = (s.(sn_sequence) + 1)%N.
Proof. unfold next_sequence, wrapping_add, u64_MAX. intros. apply N.mod_small. lia. Qed.

(** What an observation does to the checks and the aggregate. *)
Lemma observe_checks p o now :
  (observe p o now).(sp_inner).(sn_checks)
  = <[o.(ob_id) := observed_check p.(sp_inner) o now]> p.(sp_inner).(sn_checks).
Proof. unfold observe. by case_match. Qed.

Lemma observe_aggregate p o now :
  let s := (observe p o now).(sp_inner) in
  s.(sn_recovery) = p.(sp_inner).(sn_recovery)
  /\ s.(sn_availability) = derive_availability s.(sn_recovery) s.(sn_checks).
Proof. unfold observe. by case_match. Qed.

(** ** Properties *)

Lemma append_event initial p t sequence :
  publisher_ok initial p ->
  (p.(sp_inner).(sn_sequence) < u64_MAX)%N ->
  sequence = next_sequence p.(sp_inner) -> t.(ts_sequence) = sequence ->
  sequence = (p.(sp_inner).(sn_sequence) + 1)%N /\
  numbered initial.(sn_sequence) sequence (p.(sp_events) ++ [t]) /\
  (length (push_transition p.(sp_inner).(sn_transitions) t) <= 200)%nat /\
  sublist (push_transition p.(sp_inner).(sn_transitions) t)
    (initial.(sn_transitions) ++ p.(sp_events) ++ [t]).
Proof.
  intros [_ _ Hseq Hnum Hwin Hrec] Hroom -> Ht. rewrite next_sequence_exact in * by done. split_and!.
  - done.
  - by apply numbered_snoc.
  - rewrite push_transition_length by done. lia.
  - rewrite app_assoc. by apply push_transition_sublist.
Qed.

Lemma run_op_ok initial p op :
  publisher_ok initial p -> well_behaved op ->
  (p.(sp_inner).(sn_sequence) < u64_MAX)%N ->
  publisher_ok initial (run_op p op) /\
  ((run_op p op).(sp_inner).(sn_sequence) <= p.(sp_inner).(sn_sequence) + 1)%N.
Proof.
  intros Hok Hwb Hroom. destruct op as [o now|update now|c r m now]; cbn.
  - unfold observe. destruct (observation_changed _ _ _).
    + destruct (append_event initial p
        {| ts_sequence := next_sequence (sp_inner p); ts_timestamp_unix_ms := now;
           ts_component := ob_id o; ts_from_status := (previous_check (sp_inner p) o now).(sc_status);
           ts_to_status := ob_status o; ts_reason_code := ob_reason_code o;
           ts_safe_message := ob_safe_message o; ts_recovery_attempt := ob_recovery_attempt o |}
        _ Hok Hroom eq_refl eq_refl) as (? & ? & ? & ?).
      destruct Hok. split; [constructor; cbn; try done; lia|cbn; lia].
    + destruct Hok. split; [by constructor|cbn; lia].
  - destruct Hok as [? ? Hseq ? Hwin Hrec]. destruct (Hwb (sp_inner p)) as (H1 & H2 & H3 & H4).
    split; [|cbn; lia]. constructor; cbn.
    + done.
    + by rewrite H4.
    + lia.
    + apply (numbered_later _ (sn_sequence (sp_inner p))); [lia|done].
    + by rewrite H2.
    + by rewrite H2.
  - destruct (append_event initial p
      {| ts_sequence := next_sequence (sp_inner p); ts_timestamp_unix_ms := now; ts_component := c;
         ts_from_status := Healthy; ts_to_status := Healthy; ts_reason_code := r;
         ts_safe_message := m; ts_recovery_attempt := None |}
      _ Hok Hroom eq_refl eq_refl) as (? & ? & ? & ?).
    destruct Hok. split; [constructor; cbn; try done; lia|cbn; lia].
Qed.

Lemma run_ops_ok initial p ops :
  publisher_ok initial p -> Forall well_behaved ops ->
  (p.(sp_inner).(sn_sequence) + N.of_nat (length ops) <= u64_MAX)%N ->
  publisher_ok initial (foldl run_op p ops).
Proof.
  intros Hok Hwb. revert p Hok. induction Hwb as [|op ops Hop Hwb IH]; intros p Hok Hroom; [done|].
  cbn [foldl length] in *. destruct (run_op_ok initial p op Hok Hop) as [Hok' Hle]; [lia|].
  apply IH; [done|lia].
Qed.

(** C39: what subscribers see is consistent.  However observations, updates and
    notices interleave, the published snapshot is the current state; the
    events carry strictly increasing sequence numbers up to the snapshot's (the
    numbers between two events belong to changes of forwards); and the window holds at most 200 transitions, all of them events in the order they
    were sent. *)
Theorem publisher_consistent initial ops
    (Hwb : Forall well_behaved ops)
    (Hwindow : (length initial.(sn_transitions) <= 200)%nat)
    (Hroom : (initial.(sn_sequence) + N.of_nat (length ops) <= u64_MAX)%N) :
  publisher_ok initial (foldl run_op (publisher_new initial) ops).
Proof.
  apply run_ops_ok; [|done|cbn; lia].
  constructor; cbn; try done; [by repeat constructor|by rewrite app_nil_r].
Qed.

(** an observation reports changes only.  It counts a consecutive failure,
    or clears the count, and refreshes the check and the aggregate; an event is
    sent, and the time of change moved, exactly when the status or the reason
    differs from the previous one. *)
Theorem observe_spec p o now :
  let p' := observe p o now in
  let previous := previous_check p.(sp_inner) o now in
  let changed := previous.(sc_status) <> o.(ob_status) \/ previous.(sc_reason_code) <> o.(ob_reason_code) in
  (exists c, p'.(sp_inner).(sn_checks) = <[o.(ob_id) := c]> p.(sp_inner).(sn_checks) /\
     c.(sc_status) = o.(ob_status) /\ c.(sc_reason_code) = o.(ob_reason_code) /\
     (c.(sc_consecutive_failures) =
        match o.(ob_status) with
        | Failed | Degraded => N.min u32_MAX (previous.(sc_consecutive_failures) + 1)
        | _ => 0
        end)%N /\
     (changed -> c.(sc_changed_at_unix_ms) = now) /\
     (~ changed -> c.(sc_changed_at_unix_ms) = previous.(sc_changed_at_unix_ms))) /\
  (changed -> exists t, p'.(sp_events) = p.(sp_events) ++ [t] /\ t.(ts_component) = o.(ob_id) /\
     t.(ts_from_status) = previous.(sc_status) /\ t.(ts_to_status) = o.(ob_status)) /\
  (~ changed -> p'.(sp_events) = p.(sp_events) /\
     p'.(sp_inner).(sn_transitions) = p.(sp_inner).(sn_transitions)) /\
  derive_aggregate p'.(sp_inner) = p'.(sp_inner).
Proof.
  cbn zeta. set (previous := previous_check (sp_inner p) o now).
  assert (observation_changed (sp_inner p) o now = true <->
    previous.(sc_status) <> o.(ob_status) \/ previous.(sc_reason_code) <> o.(ob_reason_code)) as Hch.
  { unfold observation_changed. fold previous.
    rewrite orb_true_iff, !negb_true_iff, bool_decide_eq_false, String.eqb_neq. done. }
  split_and!.
  - exists (observed_check (sp_inner p) o now). split; [unfold observe; by destruct (observation_changed _ _ _)|].
    unfold observed_check. fold previous. cbn. split_and!; try done.
    + by intros ->%Hch.
    + rewrite <- Hch. by destruct (observation_changed _ _ _).
  - intros Hc%Hch. unfold observe. rewrite Hc. eauto 10.
  - rewrite <- Hch. unfold observe. by destruct (observation_changed _ _ _).
  - unfold observe. by destruct (observation_changed _ _ _).
Qed.

Lemma backoff_at_mono index : (backoff_at index <= backoff_at (S index) <= 240)%N.
Proof.
  do 7 (destruct index as [|index]; [vm_compute; done|]).
  unfold backoff_at. change (BACKOFF !! S (S (S (S (S (S (S index))))))) with (@None N).
  change (BACKOFF !! S (S (S (S (S (S (S (S index)))))))) with (@None N).
  cbn [Nat.sub]. rewrite !Nat.min_r by lia. vm_compute. done.
Qed.

(** the retry delay is bounded and never shrinks.  For every draw of the
    jitter it lies between the backoff and the maximum, at most a fifth (or one
    second) above the backoff, and the backoff grows with the attempts. *)
Theorem retry_delay_bounds attempt maximum jitter
    (Hmax : (maximum <= u64_MAX)%N) (Hj : (jitter <= jitter_bound attempt maximum)%N) :
  (backoff_base attempt maximum <= retry_delay_seconds attempt maximum jitter <= maximum)%N /\
  (retry_delay_seconds attempt maximum jitter <=
     backoff_base attempt maximum + N.max (backoff_base attempt maximum / 5) 1)%N /\
  (backoff_base attempt maximum <= 240)%N /\
  (backoff_base attempt maximum <= backoff_base (attempt + 1) maximum)%N.
Proof.
  unfold retry_delay_seconds, saturating_add, jitter_bound in *.
  assert (forall a m, (backoff_base a m <= m)%N) as Hb by (intros; unfold backoff_base; lia).
  pose proof (Hb attempt maximum). split_and!; try lia.
  - pose proof (backoff_at_mono (N.to_nat (saturating_sub attempt 1))). unfold backoff_base. lia.
  - unfold backoff_base, saturating_sub. destruct (decide (attempt = 0)%N) as [->|Hne]; [done|].
    replace (N.to_nat (attempt + 1 - 1)) with (S (N.to_nat (attempt - 1))) by lia.
    pose proof (backoff_at_mono (N.to_nat (attempt - 1))). lia.
Qed.

Lemma retry_delay_bounds_witness : (5 <= retry_delay_seconds 2 60 1 <= 60)%N.
Proof. exact (proj1 (retry_delay_bounds 2 60 1 ltac:(by vm_compute) ltac:(by vm_compute))). Defined.

Definition sample_observation (status : CheckStatus) : Observation :=
  {| ob_id := "gateway.routes"; ob_status := status; ob_impact := Critical;
     ob_reason_code := ""; ob_safe_message := ""; ob_next_attempt_at_unix_ms := None;
     ob_recovery_attempt := None |}.

Definition sample_ops : list Op :=
  [OpObserve (sample_observation Failed) 1; OpObserve (sample_observation Failed) 2;
   OpEmit "topology.route_intent" "changed" "" 3; OpMutate (fun s => s) 4;
   OpObserve (sample_observation Healthy) 5].

Lemma publisher_consistent_witness :
  let p := foldl run_op (publisher_new snapshot_default) sample_ops in
  publisher_ok snapshot_default p /\ ts_sequence <$> p.(sp_events) = [1; 2; 3]%N.
Proof.
  split; [|vm_compute; reflexivity].
  apply (publisher_consistent snapshot_default sample_ops); [|vm_compute; lia|by vm_compute].
  repeat constructor; cbn; lia.
Defined.
