(* ===== verification/Config.v ===== *)
(** The configuration and its validation (src/src/config.rs).

    An error is its message; where the code adds a context to an error of a
    library, the message is the context.  URLs belong to a library, and the
    files of the machine are looked up in [file_metadata]. *)

From S2P Require Import Prelude RustStr Net.

Inductive ProfileSource : Type := Mounted | GuiManaged.
Inductive PortForwardingBackend : Type := BackendDisabled | NatPmp.
Inductive DnsUpstreamSource : Type := UpstreamProfile | UpstreamExplicit.

#[export] Instance ProfileSource_eq_dec : EqDecision ProfileSource.
Proof. solve_decision. Defined.
#[export] Instance PortForwardingBackend_eq_dec : EqDecision PortForwardingBackend.
Proof. solve_decision. Defined.
#[export] Instance DnsUpstreamSource_eq_dec : EqDecision DnsUpstreamSource.
Proof. solve_decision. Defined.

Record WireGuardConfig : Type := {
  wc_interface : string;
  wc_source : ProfileSource;
  wc_config_path : option string;
  wc_config_base64_path : option string;
  wc_manage : bool;
  wc_profile_database_path : string;
  wc_storage_key_path : option string;
  wc_admin_token_path : option string;
  wc_trusted_origins : list string;
}.

Record PortForwardingConfig : Type := {
  pc_backend : PortForwardingBackend;
  pc_gateway : Ipv4Addr;
  pc_refresh_seconds : N;
  pc_lifetime_seconds : N;
  pc_max_leases : N;
  pc_primary_usage_id : option string;
}.

Record DnsUpstreamConfig : Type := {
  du_source : DnsUpstreamSource;
  du_addresses : list string;
}.

Record DnsConfig : Type := {
  dc_enabled : bool;
  dc_listen : string;
  dc_upstream : DnsUpstreamConfig;
  dc_timeout_ms : N;
  dc_max_concurrent_queries : N;
  dc_max_concurrent_queries_per_client : option N;
  dc_udp_attempts : N;
  dc_failure_threshold : N;
  dc_success_threshold : N;
  dc_local_zones_enabled : bool;
  dc_cache_enabled : bool;
  dc_cache_capacity : N;
}.

Record ProbeConfig : Type := {
  pb_enabled : bool;
  pb_url : string;
  pb_interval_seconds : N;
  pb_token_path : option string;
}.

Inductive IdentityMatcher : Type :=
| PlainTextContains (value : string)
| JsonStringContains (fields : list string) (value : string)
| JsonBoolean (field : string) (value : bool).

Record IdentityValidationConfig : Type := {
  iv_enabled : bool;
  iv_url : string;
  iv_matcher : IdentityMatcher;
}.

Record ExternalProbeConfig : Type := {
  xp_enabled : bool;
  xp_instance_id : string;
  xp_url : string;
  xp_interval_seconds : N;
  xp_timeout_seconds : N;
  xp_token_path : option string;
}.

Record PersistenceConfig : Type := {
  ps_enabled : bool;
  ps_path : string;
  ps_retention_days : N;
  ps_bucket_seconds : N;
  ps_writer_capacity : N;
}.

Record OtelConfig : Type := {
  ot_enabled : bool;
  ot_endpoint : string;
  ot_protocol : string;
  ot_timeout_seconds : N;
  ot_service_name : string;
  ot_headers_path : option string;
  ot_insecure : bool;
}.

Record VpnServerConfig : Type := {
  vs_latency_probe_enabled : bool;
  vs_interval_seconds : N;
  vs_timeout_ms : N;
}.

Record RecoveryConfig : Type := {
  rc_enabled : bool;
  rc_failure_threshold : N;
  rc_success_threshold : N;
  rc_maximum_backoff_seconds : N;
}.

Record ReconcileConfig : Type := {
  rn_interval_seconds : N;
  rn_apply_gateway_firewall : bool;
}.

(** [IdentityMatcher::expected_value] *)
Definition expected_value (m : IdentityMatcher) : string :=
  match m with
  | PlainTextContains value | JsonStringContains _ value => value
  | JsonBoolean _ value => if value then "true" else "false"
  end.

(** [reqwest::Url] *)
Class UrlCrate : Type := {
  Url : Type;
  url_parse : string -> option Url;
  url_scheme : Url -> string;
  url_host_str : Url -> option string;
}.

(** [fs::metadata]: whether the path is a regular file, and its length. *)
Class Files : Type := file_metadata : string -> option (bool * N).

(** The [Debug] form of a text; the bytes of a non-ASCII character are taken
    for printable. *)
Definition debug_char (c : ascii) : string :=
  let n := N_of_ascii c in
  if (n =? 34)%N then "\" +:+ String c ""
  else if (n =? 92)%N then "\\"
  else if (n =? 10)%N then "\n"
  else if (n =? 13)%N then "\r"
  else if (n =? 9)%N then "\t"
  else if (n =? 0)%N then "\0"
  else if (n <? 32)%N || (n =? 127)%N then "\u{" +:+ show_hex16 n +:+ "}"
  else String c "".
Definition debug_str (s : string) : string :=
  String "034"%char "" +:+ concat_str (debug_char <$> chars s) +:+ String "034"%char "".

Section Config.
Context `{!IpNetCrate}.

Record Ipv6Config : Type := {
  i6_enabled : bool;
  i6_subnet : Ipv6Net;
  i6_gateway_ip : Ipv6Addr;
}.

Record NetworkConfig : Type := {
  nc_name : string;
  nc_subnet : Ipv4Net;
  nc_gateway_ip : Ipv4Addr;
  nc_host_bridge : string;
  nc_route_table : N;
  nc_ipv6 : Ipv6Config;
}.

Record KubernetesConfig : Type := {
  kc_enabled : bool;
  kc_node_name : string;
  kc_network_attachment : string;
  kc_namespaces : list string;
  kc_address_range : option Ipv4Net;
  kc_api_url : option string;
  kc_token_path : string;
  kc_ca_path : string;
  kc_timeout_seconds : N;
  kc_max_stale_seconds : N;
}.

Record Config : Type := {
  c_listen : string;
  c_docker_socket : string;
  c_network : NetworkConfig;
  c_wireguard : WireGuardConfig;
  c_port_forwarding : PortForwardingConfig;
  c_dns : DnsConfig;
  c_probe : ProbeConfig;
  c_external_probe : ExternalProbeConfig;
  c_identity : IdentityValidationConfig;     (* [validation.identity] *)
  c_persistence : PersistenceConfig;
  c_otel : OtelConfig;
  c_vpn_server : VpnServerConfig;
  c_recovery : RecoveryConfig;
  c_reconcile : ReconcileConfig;
  c_kubernetes : KubernetesConfig;
}.

Definition ipv6_routing (n : NetworkConfig) : option Ipv6Config :=
  if n.(nc_ipv6).(i6_enabled) then Some n.(nc_ipv6) else None.

(** ** Validation *)

Notation Check := (Result unit string).

Notation "'must' c 'or' e ';' k" := (res_bind (ensure c e) (fun _ => k))
  (at level 10, c at level 99, e at level 99, k at level 200).
Notation "'run' c ';' k" := (res_bind c (fun _ => k))
  (at level 10, c at level 99, k at level 200).

Context `{!UrlCrate, !Files}.

Definition ok : Check := Ok tt.

Definition valid_namespace (value : string) : bool :=
  negb (is_empty value) && (String.length value <=? 63)%nat
  && str_forallb (fun c => is_ascii_lowercase c || is_ascii_digit c || Ascii.eqb c "-") value
  && negb (starts_with value "-") && negb (ends_with value "-").

Definition validate_match_value (value : string) : Check :=
  ensure (negb (is_empty (trim value) || (128 <? String.length value)%nat))
    "validation identity match values must contain 1-128 characters".

Definition is_http_origin (u : Url) : bool :=
  (String.eqb (url_scheme u) "http" || String.eqb (url_scheme u) "https")
  && match url_host_str u with Some _ => true | None => false end.

Definition safe_name (value : string) : bool :=
  negb (is_empty value)
  && str_forallb (fun c => is_ascii_alphanumeric c || existsb (Ascii.eqb c) ["-"; "_"; "."]%char) value.

(** [Ipv6Addr]'s predicates, on its first sixteen bits. *)
Definition first_segment (a : Ipv6Addr) : N := a / 2 ^ 112.
Definition is_multicast (a : Ipv6Addr) : bool := (N.land (first_segment a) 65280 =? 65280)%N.
Definition is_loopback (a : Ipv6Addr) : bool := (a =? 1)%N.
Definition is_unicast_link_local (a : Ipv6Addr) : bool :=
  (N.land (first_segment a) 65472 =? 65152)%N.

Definition validate_ipv6 (n : NetworkConfig) : Check :=
  match ipv6_routing n with
  | None => ok
  | Some v =>
      must ipv6net_contains v.(i6_subnet) v.(i6_gateway_ip)
        or "network.ipv6.gateway_ip must be inside network.ipv6.subnet";
      must negb (v.(i6_gateway_ip) =? ipv6net_network v.(i6_subnet))%N
        or "network.ipv6.gateway_ip cannot be the subnet-router address";
      must negb (120 <? ipv6net_prefix_len v.(i6_subnet))%N
        or "network.ipv6.subnet must be /120 or shorter";
      ensure (negb (is_multicast v.(i6_gateway_ip) || is_loopback v.(i6_gateway_ip)
                    || (v.(i6_gateway_ip) =? 0)%N || is_unicast_link_local v.(i6_gateway_ip)))
        "network.ipv6.gateway_ip must be a routable unicast address"
  end.

Definition validate_network (c : Config) : Check :=
  let n := c.(c_network) in
  must starts_with c.(c_docker_socket) "http://" || starts_with c.(c_docker_socket) "tcp://"
       || starts_with c.(c_docker_socket) "unix://" || starts_with c.(c_docker_socket) "/"
    or "docker_socket must be an http:// proxy endpoint or Unix socket path";
  must ipv4net_contains n.(nc_subnet) n.(nc_gateway_ip)
    or "network.gateway_ip must be inside network.subnet";
  must negb ((n.(nc_gateway_ip) =? ipv4net_network n.(nc_subnet))%N
             || (n.(nc_gateway_ip) =? ipv4net_broadcast n.(nc_subnet))%N)
    or "network.gateway_ip cannot be the network or broadcast address";
  must negb ((n.(nc_route_table) =? 0)%N || (n.(nc_route_table) =? 253)%N)
    or "network.route_table must be a dedicated non-zero policy table";
  validate_ipv6 n.

Definition uses_natpmp (c : Config) : bool :=
  bool_decide (c.(c_port_forwarding).(pc_backend) = NatPmp).

Definition validate_port_forwarding (c : Config) : Check :=
  let p := c.(c_port_forwarding) in
  must negb (uses_natpmp c && (p.(pc_lifetime_seconds) <=? p.(pc_refresh_seconds))%N)
    or "port_forwarding.refresh_seconds must be shorter than port_forwarding.lifetime_seconds";
  must negb ((p.(pc_max_leases) =? 0)%N || (5 <? p.(pc_max_leases))%N)
    or "port_forwarding.max_leases must be between 1 and 5";
  ensure (match p.(pc_primary_usage_id) with Some id => negb (is_empty (trim id)) | None => true end)
    "port_forwarding.primary_usage_id must not be empty".

Definition validate_loops (c : Config) : Check :=
  let d := c.(c_dns) in
  must negb (c.(c_reconcile).(rn_interval_seconds) =? 0)%N
    or "reconcile.interval_seconds must be greater than zero";
  must c.(c_reconcile).(rn_apply_gateway_firewall)
    or "reconcile.apply_gateway_firewall=false is unsafe: Egressy must own the fail-closed gateway firewall";
  must negb ((d.(dc_timeout_ms) =? 0)%N || (d.(dc_max_concurrent_queries) =? 0)%N
             || match d.(dc_max_concurrent_queries_per_client) with
                | Some limit => (limit =? 0)%N | None => false end
             || (d.(dc_udp_attempts) =? 0)%N || (d.(dc_failure_threshold) =? 0)%N
             || (d.(dc_success_threshold) =? 0)%N)
    or "dns timeout, concurrency, attempts, and thresholds must be greater than zero";
  ensure (negb ((c.(c_recovery).(rc_failure_threshold) =? 0)%N
                || (c.(c_recovery).(rc_success_threshold) =? 0)%N))
    "recovery thresholds must be greater than zero".

Definition validate_probe (c : Config) : Check :=
  if negb c.(c_probe).(pb_enabled) then ok
  else
    run ok_or (url_parse c.(c_probe).(pb_url)) "invalid probe.url";
    ensure (negb (c.(c_probe).(pb_interval_seconds) =? 0)%N)
      "probe.interval_seconds must be greater than zero".

Definition validate_external_probe (c : Config) : Check :=
  let x := c.(c_external_probe) in
  if negb x.(xp_enabled) then ok
  else
    let? url := ok_or (url_parse x.(xp_url)) "invalid external_probe.url" in
    must String.eqb (url_scheme url) "https" or "external_probe.url must use https";
    let? host := ok_or (url_host_str url) "external_probe.url must include a hostname" in
    must match parse_ip host with Some _ => false | None => true end
      or "external_probe.url must use a DNS hostname, not a raw IP";
    must negb (ends_with host ".ts.net") or "external_probe.url must not use a Tailscale hostname";
    must negb (is_empty (trim x.(xp_instance_id))) or "external_probe.instance_id must not be empty";
    must negb (x.(xp_interval_seconds) =? 0)%N
      or "external_probe.interval_seconds must be greater than zero";
    must negb (x.(xp_timeout_seconds) =? 0)%N
      or "external_probe.timeout_seconds must be greater than zero";
    must negb (x.(xp_interval_seconds) <=? x.(xp_timeout_seconds))%N
      or "external_probe.timeout_seconds must be shorter than external_probe.interval_seconds";
    ensure (negb (uses_natpmp c
      && (c.(c_port_forwarding).(pc_refresh_seconds) <=?
          saturating_add u64_MAX
            (saturating_add u64_MAX x.(xp_interval_seconds) x.(xp_timeout_seconds))
            c.(c_probe).(pb_interval_seconds))%N))
      "external probe interval, timeout, and daemon poll interval must total less than port_forwarding.refresh_seconds".

(** [address_range] inside the subnet, away from the bridge and the gateway. *)
Definition validate_kubernetes (c : Config) : Check :=
  let k := c.(c_kubernetes) in
  must negb (is_empty (trim k.(kc_node_name)))
    or "kubernetes.node_name must name the node whose pods are discovered";
  must match split_once "/" k.(kc_network_attachment) with
       | Some (namespace, name) => negb (is_empty namespace) && negb (is_empty name)
       | None => false
       end
    or "kubernetes.network_attachment must be namespace/name";
  must match k.(kc_namespaces) with [] => false | _ => true end
    or "kubernetes.namespaces must list the trusted namespaces whose pods are discovered";
  run foldM_res (fun _ namespace =>
        ensure (valid_namespace namespace)
          ("kubernetes.namespaces entry " +:+ debug_str namespace +:+ " is not a valid namespace name"))
      tt k.(kc_namespaces);
  let? range := ok_or k.(kc_address_range)
                  "kubernetes.address_range is required when kubernetes.enabled" in
  let subnet := c.(c_network).(nc_subnet) in
  must negb ((ipv4net_prefix_len range <? ipv4net_prefix_len subnet)%N
             || negb (ipv4net_contains subnet (ipv4net_network range)))
    or "kubernetes.address_range must sit inside network.subnet";
  must negb (ipv4net_contains range c.(c_network).(nc_gateway_ip)
             || match ipv4net_first_host subnet with
                | Some address => ipv4net_contains range address | None => false end)
    or "kubernetes.address_range must exclude the bridge and gateway addresses";
  run match k.(kc_api_url) with
      | Some raw =>
          let? url := ok_or (url_parse raw) "invalid kubernetes.api_url" in
          ensure (String.eqb (url_scheme url) "https") "kubernetes.api_url must use https"
      | None => ok
      end;
  must negb (is_empty (trim k.(kc_token_path)) || is_empty (trim k.(kc_ca_path)))
    or "kubernetes.token_path and kubernetes.ca_path must not be empty";
  must negb ((k.(kc_timeout_seconds) =? 0)%N || (60 <? k.(kc_timeout_seconds))%N)
    or "kubernetes.timeout_seconds must be between 1 and 60";
  ensure (negb ((k.(kc_max_stale_seconds) =? 0)%N || (3600 <? k.(kc_max_stale_seconds))%N))
    "kubernetes.max_stale_seconds must be between 1 and 3600".

Definition FIELDS : list string := ["asn_org"; "as_name"; "org"; "mullvad_exit_ip"].
Definition is_field (f : string) : bool := existsb (String.eqb f) FIELDS.

Definition validate_identity (c : Config) : Check :=
  let i := c.(c_identity) in
  if negb i.(iv_enabled) then ok
  else
    let? url := ok_or (url_parse i.(iv_url)) "invalid validation.identity.url" in
    must String.eqb (url_scheme url) "https" && match url_host_str url with Some _ => true | None => false end
      or "validation.identity.url must be an HTTPS URL with a hostname";
    match i.(iv_matcher) with
    | PlainTextContains value => validate_match_value value
    | JsonStringContains fields value =>
        run validate_match_value value;
        ensure (negb (match fields with [] => true | _ => false end
                      || (8 <? length fields)%nat
                      || existsb (fun f => negb (is_field f)) fields))
          "validation identity JSON fields must use the bounded allowlist"
    | JsonBoolean field _ =>
        ensure (is_field field)
          "validation identity JSON boolean field must use the bounded allowlist"
    end.

Definition validate_persistence (c : Config) : Check :=
  let p := c.(c_persistence) in
  if negb p.(ps_enabled) then ok
  else
    must negb (is_empty (trim p.(ps_path)))
      or "persistence.path must not be empty when persistence is enabled";
    must negb (p.(ps_retention_days) =? 0)%N or "persistence.retention_days must be greater than zero";
    must negb ((p.(ps_bucket_seconds) =? 0)%N || negb (86400 mod p.(ps_bucket_seconds) =? 0)%N)
      or "persistence.bucket_seconds must be a non-zero divisor of 86400";
    ensure (negb (p.(ps_writer_capacity) <? 16)%N) "persistence.writer_capacity must be at least 16".

Definition validate_otel (c : Config) : Check :=
  let o := c.(c_otel) in
  if negb o.(ot_enabled) then ok
  else
    let? endpoint := ok_or (url_parse o.(ot_endpoint))
      "OTEL_EXPORTER_OTLP_ENDPOINT must be a valid URL when OTEL is enabled" in
    must String.eqb o.(ot_protocol) "http/protobuf"
      or "OTEL_EXPORTER_OTLP_PROTOCOL currently supports only http/protobuf";
    must negb (negb (String.eqb (url_scheme endpoint) "https")
               && negb (String.eqb (url_scheme endpoint) "http" && o.(ot_insecure)))
      or "OTEL endpoint must use https unless EGRESSY_OTEL_INSECURE=true";
    must match url_host_str endpoint with Some _ => true | None => false end
      or "OTEL endpoint must include a hostname";
    must negb ((o.(ot_timeout_seconds) =? 0)%N || (60 <? o.(ot_timeout_seconds))%N)
      or "OTEL timeout must be between 1 and 60 seconds";
    must safe_name o.(ot_service_name) && (String.length o.(ot_service_name) <=? 64)%nat
      or "OTEL service name must be 1-64 safe ASCII characters";
    match o.(ot_headers_path) with
    | None => ok
    | Some path =>
        let? (is_file, len) := ok_or (file_metadata path)
          "reading protected OTEL headers file metadata" in
        ensure (negb (negb is_file || (16384 <? len)%N))
          "OTEL headers path must be a regular file no larger than 16 KiB"
    end.

(** The product is a [u64]: it wraps where overflow checks are off. *)
Definition validate_vpn_server (c : Config) : Check :=
  let v := c.(c_vpn_server) in
  ensure (negb ((v.(vs_interval_seconds) =? 0)%N || (v.(vs_timeout_ms) =? 0)%N
                || (wrapping_mul 64 v.(vs_interval_seconds) 1000 <=? v.(vs_timeout_ms))%N))
    "vpn_server timeout must be non-zero and shorter than its interval".

Definition validate_names (c : Config) : Check :=
  foldM_res (fun _ value =>
      ensure (safe_name value)
        "network and interface names may only contain ASCII letters, digits, -, _, and .")
    tt [c.(c_network).(nc_name); c.(c_network).(nc_host_bridge); c.(c_wireguard).(wc_interface)].

Definition validate_addresses (c : Config) : Check :=
  run ok_or (parse_socket c.(c_listen)) "invalid listen address";
  run ok_or (parse_socket c.(c_dns).(dc_listen)) "invalid dns.listen";
  if c.(c_dns).(dc_enabled)
     && bool_decide (c.(c_dns).(dc_upstream).(du_source) = UpstreamExplicit)
  then
    must match c.(c_dns).(dc_upstream).(du_addresses) with [] => false | _ => true end
      or "dns.upstream.addresses must not be empty for an explicit upstream";
    foldM_res (fun _ address =>
        run ok_or (parse_socket address) "invalid dns.upstream.addresses entry"; ok)
      tt c.(c_dns).(dc_upstream).(du_addresses)
  else ok.

Definition is_set (o : option string) : bool := match o with Some _ => true | None => false end.

Definition validate_wireguard (c : Config) : Check :=
  let w := c.(c_wireguard) in
  must negb (bool_decide (w.(wc_source) = Mounted) && is_set w.(wc_config_path)
             && is_set w.(wc_config_base64_path))
    or "wireguard mounted source must select config_path or config_base64_path, not both";
  run if bool_decide (w.(wc_source) = GuiManaged) then
        must negb (is_empty (trim w.(wc_profile_database_path)))
          or "wireguard.profile_database_path must not be empty";
        ensure (negb (is_set w.(wc_config_base64_path)))
          "wireguard.config_base64_path is only valid for mounted source"
      else ok;
  foldM_res (fun _ origin =>
      let? url := ok_or (url_parse origin) "invalid wireguard.trusted_origins entry" in
      ensure (is_http_origin url) "wireguard.trusted_origins entries must be HTTP(S) origins")
    tt w.(wc_trusted_origins).

Definition validate (c : Config) : Check :=
  run validate_network c;
  run validate_port_forwarding c;
  run validate_loops c;
  run validate_probe c;
  run validate_external_probe c;
  run (if c.(c_kubernetes).(kc_enabled) then validate_kubernetes c else ok);
  run validate_identity c;
  run validate_persistence c;
  run validate_otel c;
  run validate_vpn_server c;
  run validate_names c;
  run validate_addresses c;
  validate_wireguard c.

(** ** The environment *)

Definition parse_env_bool (name value : string) : Result bool string :=
  let v := to_ascii_lowercase value in
  if existsb (String.eqb v) ["1"; "true"; "on"; "yes"] then Ok true
  else if existsb (String.eqb v) ["0"; "false"; "off"; "no"] then Ok false
  else Err (name +:+ " must be true or false").

Definition div_ceil (a b : N) : N := if (a mod b =? 0)%N then a / b else a / b + 1.

Definition parse_otel_timeout (value : string) : Result N string :=
  let trimmed := trim value in
  ok_or
    (match strip_suffix trimmed "ms" with
     | Some milliseconds => (fun v => div_ceil v 1000) <$> parse_uint u64_MAX milliseconds
     | None =>
         match strip_suffix trimmed "s" with
         | Some seconds => parse_uint u64_MAX seconds
         | None => (fun v => div_ceil v 1000) <$> parse_uint u64_MAX trimmed
         end
     end)
    "OTEL_EXPORTER_OTLP_TIMEOUT must be milliseconds, Ns, or Nms".

(** [apply_otel_environment], on the [otel] part it changes. *)
Definition apply_otel_environment (env_var : string -> option string) (o : OtelConfig)
    : Result OtelConfig string :=
  let? enabled :=
    match env_var "EGRESSY_OTEL_ENABLED" with
    | Some v => parse_env_bool "EGRESSY_OTEL_ENABLED" v | None => Ok o.(ot_enabled) end in
  let? timeout :=
    match env_var "OTEL_EXPORTER_OTLP_TIMEOUT" with
    | Some v => parse_otel_timeout v | None => Ok o.(ot_timeout_seconds) end in
  let? insecure :=
    match env_var "EGRESSY_OTEL_INSECURE" with
    | Some v => parse_env_bool "EGRESSY_OTEL_INSECURE" v | None => Ok o.(ot_insecure) end in
  Ok {| ot_enabled := enabled;
        ot_endpoint := default o.(ot_endpoint) (env_var "OTEL_EXPORTER_OTLP_ENDPOINT");
        ot_protocol := default o.(ot_protocol) (env_var "OTEL_EXPORTER_OTLP_PROTOCOL");
        ot_timeout_seconds := timeout;
        ot_service_name := default o.(ot_service_name) (env_var "OTEL_SERVICE_NAME");
        ot_headers_path :=
          match env_var "EGRESSY_OTEL_HEADERS_PATH" with
          | Some v => if is_empty v then None else Some v | None => o.(ot_headers_path) end;
        ot_insecure := insecure |}.

(** [Config::load]: the text of the file ([fs::read_to_string]), which
    serde_yaml reads, and the environment on top of it. *)
Definition load (parse_yaml : string -> option Config) (env_var : string -> option string)
    (raw : Result string string) : Result Config string :=
  let? raw := raw in
  let? config := ok_or (parse_yaml raw) "parsing YAML" in
  let? otel := apply_otel_environment env_var config.(c_otel) in
  Ok {| c_listen := config.(c_listen); c_docker_socket := config.(c_docker_socket);
        c_network := config.(c_network); c_wireguard := config.(c_wireguard);
        c_port_forwarding := config.(c_port_forwarding); c_dns := config.(c_dns);
        c_probe := config.(c_probe); c_external_probe := config.(c_external_probe);
        c_identity := config.(c_identity); c_persistence := config.(c_persistence); c_otel := otel;
        c_vpn_server := config.(c_vpn_server); c_recovery := config.(c_recovery);
        c_reconcile := config.(c_reconcile); c_kubernetes := config.(c_kubernetes) |}.

(** The period of the reconciler's ticker, in nanoseconds. *)
Definition reconcile_interval (config : Config) : N := from_secs config.(c_reconcile).(rn_interval_seconds).
End Config.
