(* ===== verification/ConfigProps.v ===== *)
(** What a configuration that was accepted guarantees to the rest of the
    gateway, and an interval for which the validation is wrong. *)

From S2P Require Import Prelude RustStr Net StrFacts Config.

(** The checks of a sequence all passed. *)
Ltac passed :=
  repeat match goal with
  | H : res_bind _ _ = Ok _ |- _ => apply res_bind_Ok in H as (? & ? & H)
  end;
  repeat match goal with
  | H : ensure _ _ = Ok _ |- _ => apply ensure_Ok in H
  | H : ok_or _ _ = Ok _ |- _ => apply ok_or_Ok in H
  end.

Lemma foldM_check {A} (f : A -> Result unit string) l :
  foldM_res (fun _ x => f x) tt l = Ok tt <-> forall x, x ∈ l -> f x = Ok tt.
Proof.
  induction l as [|x l IH]; simpl.
  - split; [intros _ x Hx; by apply not_elem_of_nil in Hx|done].
  - rewrite res_bind_Ok. split.
    + intros ([] & Hx & Hl) y [->|Hy]%elem_of_cons; [done|]. by apply IH.
    + intros Hall. exists tt. split; [apply Hall; left|]. apply IH. intros y Hy. apply Hall. by right.
Qed.

Section props.
Context `{!IpNetCrate, !UrlCrate, !Files}.

(** The thirteen groups of checks. *)
Record passes (c : Config) : Prop := {
  p_network : validate_network c = Ok tt;
  p_port_forwarding : validate_port_forwarding c = Ok tt;
  p_loops : validate_loops c = Ok tt;
  p_probe : validate_probe c = Ok tt;
  p_external_probe : validate_external_probe c = Ok tt;
  p_kubernetes : kc_enabled (c_kubernetes c) = true -> validate_kubernetes c = Ok tt;
  p_identity : validate_identity c = Ok tt;
  p_persistence : validate_persistence c = Ok tt;
  p_otel : validate_otel c = Ok tt;
  p_vpn_server : validate_vpn_server c = Ok tt;
  p_names : validate_names c = Ok tt;
  p_addresses : validate_addresses c = Ok tt;
  p_wireguard : validate_wireguard c = Ok tt;
}.

Lemma validate_passes c : validate c = Ok tt <-> passes c.
Proof.
  unfold validate. split.
  - intros Hc. passed.
    repeat match goal with u : unit |- _ => destruct u end.
    split; try done. intros Hk. by rewrite Hk in *.
  - intros [-> -> -> -> -> Hk -> -> -> -> -> -> Hw]. simpl.
    destruct (kc_enabled (c_kubernetes c)); [by rewrite Hk|done].
Qed.

(** ** What the renderers rely on *)

(** A text that can stand in a quoted or unquoted word of a ruleset. *)
Definition plain_char (c : ascii) : bool :=
  is_ascii_alphanumeric c || existsb (Ascii.eqb c) ["-"; "_"; "."]%char.
Definition plain (s : string) : Prop := s <> "" /\ str_forallb plain_char s = true.

Lemma safe_name_plain s : safe_name s = true <-> plain s.
Proof.
  unfold safe_name, plain, is_empty. rewrite andb_true_iff, negb_true_iff.
  by rewrite String.eqb_neq.
Qed.

Lemma passes_names c :
  passes c ->
  plain (nc_name (c_network c)) /\ plain (nc_host_bridge (c_network c))
  /\ plain (wc_interface (c_wireguard c)).
Proof.
  intros [_ _ _ _ _ _ _ _ _ _ Hn _ _]. unfold validate_names in Hn.
  assert (forall x, x ∈ [nc_name (c_network c); nc_host_bridge (c_network c); wc_interface (c_wireguard c)]
          -> plain x) as Hall; [|split_and!; apply Hall; set_solver].
  intros x Hx. apply safe_name_plain.
  apply (proj1 (foldM_check _ _) Hn) in Hx. by apply ensure_Ok in Hx.
Qed.

Lemma network_ok c :
  validate_network c = Ok tt ->
  ipv4net_contains (nc_subnet (c_network c)) (nc_gateway_ip (c_network c)) = true
  /\ nc_gateway_ip (c_network c) <> ipv4net_network (nc_subnet (c_network c))
  /\ nc_gateway_ip (c_network c) <> ipv4net_broadcast (nc_subnet (c_network c)).
Proof.
  unfold validate_network. intros (_ & _ & Hc)%res_bind_Ok.
  apply res_bind_Ok in Hc as (_ & Hin%ensure_Ok & Hc).
  apply res_bind_Ok in Hc as (_ & Hne%ensure_Ok & _).
  simplify_bools. done.
Qed.

Lemma natpmp_ok c :
  validate_port_forwarding c = Ok tt -> pc_backend (c_port_forwarding c) = NatPmp ->
  (pc_refresh_seconds (c_port_forwarding c) < pc_lifetime_seconds (c_port_forwarding c))%N.
Proof.
  unfold validate_port_forwarding, uses_natpmp. intros (_ & Hc%ensure_Ok & _)%res_bind_Ok Hb.
  rewrite (bool_decide_eq_true_2 _ Hb) in Hc. simpl in Hc. by simplify_bools.
Qed.

Lemma external_probe_ok c :
  validate_external_probe c = Ok tt -> xp_enabled (c_external_probe c) = true ->
  pc_backend (c_port_forwarding c) = NatPmp ->
  (pc_refresh_seconds (c_port_forwarding c) <= u64_MAX)%N ->
  (xp_interval_seconds (c_external_probe c) + xp_timeout_seconds (c_external_probe c)
   + pb_interval_seconds (c_probe c) < pc_refresh_seconds (c_port_forwarding c))%N.
Proof.
  unfold validate_external_probe, uses_natpmp. intros Hc Hx Hb Hmax. rewrite Hx in Hc. simpl in Hc.
  do 9 (apply res_bind_Ok in Hc as (? & _ & Hc)). apply ensure_Ok in Hc.
  rewrite (bool_decide_eq_true_2 _ Hb) in Hc. simpl in Hc. simplify_bools.
  unfold saturating_add in Hc. lia.
Qed.

Lemma kubernetes_ok c :
  validate_kubernetes c = Ok tt -> exists range,
    kc_address_range (c_kubernetes c) = Some range
    /\ ipv4net_contains range (nc_gateway_ip (c_network c)) = false
    /\ (forall bridge, ipv4net_first_host (nc_subnet (c_network c)) = Some bridge ->
          ipv4net_contains range bridge = false)
    /\ (ipv4net_prefix_len (nc_subnet (c_network c)) <= ipv4net_prefix_len range)%N
    /\ ipv4net_contains (nc_subnet (c_network c)) (ipv4net_network range) = true
    /\ kc_namespaces (c_kubernetes c) <> []
    /\ forall ns, ns ∈ kc_namespaces (c_kubernetes c) -> valid_namespace ns = true.
Proof.
  unfold validate_kubernetes. intros Hc.
  do 2 (apply res_bind_Ok in Hc as (? & _ & Hc)).
  apply res_bind_Ok in Hc as (_ & Hne%ensure_Ok & Hc).
  apply res_bind_Ok in Hc as ([] & Hns & Hc).
  apply res_bind_Ok in Hc as (range & Hr%ok_or_Ok & Hc).
  apply res_bind_Ok in Hc as (_ & Hin%ensure_Ok & Hc).
  apply res_bind_Ok in Hc as (_ & Hex%ensure_Ok & _).
  exists range. simplify_bools. split_and!; try done.
  - intros bridge Hb. by rewrite Hb in *.
  - by intros Hnil; rewrite Hnil in Hne.
  - intros ns Hin. apply (proj1 (foldM_check _ _) Hns) in Hin. by apply ensure_Ok in Hin.
Qed.

(** a configuration that is accepted can be run with: the gateway has an
    address of the subnet that is neither its network nor its broadcast
    address; the firewall is applied; the names that are written into rules
    and commands have only letters, digits, dashes, underscores and dots; a
    lease is renewed before it expires, also with the time the external probe
    takes; and with Kubernetes discovery, the range of the pods contains
    neither the gateway nor the bridge, and the trusted namespaces can stand in
    a path. *)
Theorem accepted_config_runnable c :
  validate c = Ok tt ->
  let n := c_network c in let p := c_port_forwarding c in
  (ipv4net_contains (nc_subnet n) (nc_gateway_ip n) = true
   /\ nc_gateway_ip n <> ipv4net_network (nc_subnet n)
   /\ nc_gateway_ip n <> ipv4net_broadcast (nc_subnet n))
  /\ rn_apply_gateway_firewall (c_reconcile c) = true
  /\ (plain (nc_name n) /\ plain (nc_host_bridge n) /\ plain (wc_interface (c_wireguard c)))
  /\ (pc_backend p = NatPmp ->
      (pc_refresh_seconds p < pc_lifetime_seconds p)%N
      /\ (xp_enabled (c_external_probe c) = true -> (pc_refresh_seconds p <= u64_MAX)%N ->
          (xp_interval_seconds (c_external_probe c) + xp_timeout_seconds (c_external_probe c)
           + pb_interval_seconds (c_probe c) < pc_refresh_seconds p)%N))
  /\ (kc_enabled (c_kubernetes c) = true -> exists range,
      kc_address_range (c_kubernetes c) = Some range
      /\ ipv4net_contains range (nc_gateway_ip n) = false
      /\ (forall bridge, ipv4net_first_host (nc_subnet n) = Some bridge ->
            ipv4net_contains range bridge = false)
      /\ (ipv4net_prefix_len (nc_subnet n) <= ipv4net_prefix_len range)%N
      /\ ipv4net_contains (nc_subnet n) (ipv4net_network range) = true
      /\ kc_namespaces (c_kubernetes c) <> []
      /\ forall ns, ns ∈ kc_namespaces (c_kubernetes c) -> valid_namespace ns = true).
Proof.
  intros Hv%validate_passes n p. destruct (passes_names _ Hv) as (? & ? & ?).
  destruct (network_ok _ (p_network _ Hv)) as (? & ? & ?).
  split_and!; try done.
  - pose proof (p_loops _ Hv) as Hc. unfold validate_loops in Hc.
    apply res_bind_Ok in Hc as (_ & _ & Hc). by apply res_bind_Ok in Hc as (_ & ?%ensure_Ok & _).
  - intros Hb. split; [by apply natpmp_ok; [apply Hv|]|].
    intros. apply external_probe_ok; [apply Hv|done..].
  - intros Hk. by apply kubernetes_ok, (p_kubernetes _ Hv).
Qed.

(** With an interval whose milliseconds do not fit in 64 bits a valid timeout
    is refused (where overflow is checked, the process stops instead). *)
Lemma vpn_interval_overflow c :
  vs_interval_seconds (c_vpn_server c) = 18446744073709552%N ->
  vs_timeout_ms (c_vpn_server c) = 1500%N ->
  (vs_timeout_ms (c_vpn_server c) < vs_interval_seconds (c_vpn_server c) * 1000)%N
  /\ validate_vpn_server c = Err "vpn_server timeout must be non-zero and shorter than its interval".
Proof. intros Hi Ht. unfold validate_vpn_server. by rewrite Hi, Ht. Qed.
End props.

(** ** A configuration that is accepted *)

Definition example_urls : UrlCrate :=
  {| Url := unit; url_parse := fun _ => None; url_scheme := fun _ => ""; url_host_str := fun _ => None |}.
Definition example_files : Files := fun _ => None.

Definition net4 (addr len : N) : @Ipv4Net CidrNet.crate := CidrNet.Build_Cidr addr len.
Definition net6 (addr len : N) : @Ipv6Net CidrNet.crate := CidrNet.Build_Cidr addr len.

(** The defaults, with NAT-PMP and Kubernetes discovery switched on. *)
Definition example_config : @Config CidrNet.crate :=
  @Build_Config CidrNet.crate "0.0.0.0:8080" "http://169.254.254.2:2375"
    (@Build_NetworkConfig CidrNet.crate "vpn-egress" (net4 2887647232 24) 2887647234 "br-vpn-egress" 200
      (@Build_Ipv6Config CidrNet.crate false (net6 0 64) 0))
    (Build_WireGuardConfig "wg0" Mounted (Some "/run/secrets/wg0.conf") None true
      "/var/lib/egressy/profiles.sqlite3" None None [])
    (Build_PortForwardingConfig NatPmp 167903233 45 60 5 None)
    (Build_DnsConfig true "172.30.0.2:53" (Build_DnsUpstreamConfig UpstreamProfile []) 2000 512 None 2 3 2
      false true 4096)
    (Build_ProbeConfig false "" 30 None)
    (Build_ExternalProbeConfig false "egressy" "" 10 5 None)
    (Build_IdentityValidationConfig false "" (PlainTextContains ""))
    (Build_PersistenceConfig true "/var/lib/egressy/egressy.sqlite3" 365 60 1024)
    (Build_OtelConfig false "" "http/protobuf" 10 "egressy" None false)
    (Build_VpnServerConfig true 30 1500)
    (Build_RecoveryConfig true 3 2 300)
    (Build_ReconcileConfig 5 true)
    (@Build_KubernetesConfig CidrNet.crate true "node-1" "media/egress" ["media"]
      (Some (net4 2887647360 25)) None "/token" "/ca" 10 300).

Lemma accepted_config_runnable_witness :
  @validate CidrNet.crate example_urls example_files example_config = Ok tt
  /\ rn_apply_gateway_firewall (@c_reconcile CidrNet.crate example_config) = true.
Proof.
  assert (@validate CidrNet.crate example_urls example_files example_config = Ok tt) as Hv
    by (vm_compute; reflexivity).
  split; [exact Hv|].
  exact (proj1 (proj2 (@accepted_config_runnable CidrNet.crate example_urls example_files
    example_config Hv))).
Defined.
