(* ===== verification/ConfigDefaults.v ===== *)
(** The defaults of the configuration (src/src/config.rs): every [default_*]
    function and every [Default] implementation, and that the gateway accepts
    the configuration they make. *)

From S2P Require Import Prelude RustStr Net Config ConfigProps.

Definition default_listen : string := "0.0.0.0:8080".
Definition default_docker_socket : string := "http://169.254.254.2:2375".
Definition default_network : string := "vpn-egress".
(** [Ipv4Addr::new] *)
Definition ipv4_new (a b c d : N) : Ipv4Addr := (((a * 256 + b) * 256 + c) * 256 + d)%N.
Definition default_gateway_ip : Ipv4Addr := ipv4_new 172 30 0 2.
Definition default_ipv6_gateway_ip : option Ipv6Addr := parse_ipv6 "fd30:172:30::2".
Definition default_bridge : string := "br-vpn-egress".
Definition default_table : N := 200.
Definition default_tunnel : string := "wg0".
Definition default_wg_config : string := "/run/secrets/wg0.conf".
Definition default_port_forward_gateway : Ipv4Addr := ipv4_new 10 2 0 1.
Definition default_refresh_seconds : N := 45.
Definition default_lifetime_seconds : N := 60.
Definition default_dns_listen : string := "172.30.0.2:53".
Definition default_true : bool := true.
Definition default_dns_timeout_ms : N := 2000.
Definition default_dns_concurrency : N := 512.
Definition default_dns_udp_attempts : N := 2.
Definition default_dns_failure_threshold : N := 3.
Definition default_dns_success_threshold : N := 2.
Definition default_probe_url : string := "http://172.30.0.5:8081/status".
Definition default_external_probe_enabled : bool := false.
Definition default_external_probe_instance_id : string := "egressy".
Definition default_external_probe_interval_seconds : N := 10.
Definition default_external_probe_timeout_seconds : N := 5.
Definition default_history_path : string := "/var/lib/egressy/egressy.sqlite3".
Definition default_history_retention_days : N := 365.
Definition default_history_bucket_seconds : N := 60.
Definition default_history_writer_capacity : N := 1024.
Definition default_otel_timeout_seconds : N := 10.
Definition default_otel_service_name : string := "egressy".
Definition default_vpn_server_probe_interval_seconds : N := 30.
Definition default_vpn_server_probe_timeout_ms : N := 1500.

Definition default_WireGuardConfig : WireGuardConfig := {|
  wc_interface := default_tunnel;
  wc_source := Mounted;
  wc_config_path := Some default_wg_config;
  wc_config_base64_path := None;
  wc_manage := true;
  wc_profile_database_path := "/var/lib/egressy/profiles.sqlite3";
  wc_storage_key_path := None;
  wc_admin_token_path := None;
  wc_trusted_origins := [];
|}.

Definition default_PortForwardingConfig : PortForwardingConfig := {|
  pc_backend := BackendDisabled;
  pc_gateway := default_port_forward_gateway;
  pc_refresh_seconds := default_refresh_seconds;
  pc_lifetime_seconds := default_lifetime_seconds;
  pc_max_leases := 5;
  pc_primary_usage_id := None;
|}.

Definition default_DnsUpstreamConfig : DnsUpstreamConfig :=
  {| du_source := UpstreamProfile; du_addresses := [] |}.

Definition default_DnsConfig : DnsConfig := {|
  dc_enabled := true;
  dc_listen := default_dns_listen;
  dc_upstream := default_DnsUpstreamConfig;
  dc_timeout_ms := default_dns_timeout_ms;
  dc_max_concurrent_queries := default_dns_concurrency;
  dc_max_concurrent_queries_per_client := None;
  dc_udp_attempts := default_dns_udp_attempts;
  dc_failure_threshold := default_dns_failure_threshold;
  dc_success_threshold := default_dns_success_threshold;
  dc_local_zones_enabled := false;   (* [LocalZonesConfig::default] *)
  dc_cache_enabled := true;          (* [DnsCacheConfig::default] *)
  dc_cache_capacity := 4096;
|}.

Definition default_ProbeConfig : ProbeConfig := {|
  pb_enabled := true;
  pb_url := default_probe_url;
  pb_interval_seconds := 30;
  pb_token_path := None;
|}.

Definition default_IdentityValidationConfig : IdentityValidationConfig := {|
  iv_enabled := false;
  iv_url := "";
  iv_matcher := PlainTextContains "";
|}.

Definition default_PersistenceConfig : PersistenceConfig := {|
  ps_enabled := true;
  ps_path := default_history_path;
  ps_retention_days := default_history_retention_days;
  ps_bucket_seconds := default_history_bucket_seconds;
  ps_writer_capacity := default_history_writer_capacity;
|}.

Definition default_OtelConfig : OtelConfig := {|
  ot_enabled := false;
  ot_endpoint := "";
  ot_protocol := "http/protobuf";
  ot_timeout_seconds := default_otel_timeout_seconds;
  ot_service_name := default_otel_service_name;
  ot_headers_path := None;
  ot_insecure := false;
|}.

Definition default_VpnServerConfig : VpnServerConfig := {|
  vs_latency_probe_enabled := true;
  vs_interval_seconds := default_vpn_server_probe_interval_seconds;
  vs_timeout_ms := default_vpn_server_probe_timeout_ms;
|}.

Definition default_ExternalProbeConfig : ExternalProbeConfig := {|
  xp_enabled := default_external_probe_enabled;
  xp_instance_id := default_external_probe_instance_id;
  xp_url := "";
  xp_interval_seconds := default_external_probe_interval_seconds;
  xp_timeout_seconds := default_external_probe_timeout_seconds;
  xp_token_path := None;
|}.

Definition default_RecoveryConfig : RecoveryConfig := {|
  rc_enabled := true;
  rc_failure_threshold := 3;
  rc_success_threshold := 2;
  rc_maximum_backoff_seconds := 300;
|}.

Definition default_ReconcileConfig : ReconcileConfig := {|
  rn_interval_seconds := 5;
  rn_apply_gateway_firewall := default_true;
|}.

(** The networks are parsed from text: the program stops when a text does not
    parse, which is [None] here. *)
Section defaults.
Context `{!IpNetCrate}.

Definition default_subnet : option Ipv4Net := ipv4net_parse "172.30.0.0/24".
Definition default_ipv6_subnet : option Ipv6Net := ipv6net_parse "fd30:172:30::/64".

Definition default_Ipv6Config : option Ipv6Config :=
  subnet ← default_ipv6_subnet;
  gateway ← default_ipv6_gateway_ip;
  Some {| i6_enabled := false; i6_subnet := subnet; i6_gateway_ip := gateway |}.

Definition default_NetworkConfig : option NetworkConfig :=
  subnet ← default_subnet;
  ipv6 ← default_Ipv6Config;
  Some {| nc_name := default_network;
          nc_subnet := subnet;
          nc_gateway_ip := default_gateway_ip;
          nc_host_bridge := default_bridge;
          nc_route_table := default_table;
          nc_ipv6 := ipv6 |}.

Definition default_KubernetesConfig : KubernetesConfig := {|
  kc_enabled := false;
  kc_node_name := "";
  kc_network_attachment := "personal-arr/vpn-egress";
  kc_namespaces := [];
  kc_address_range := None;
  kc_api_url := None;
  kc_token_path := "/var/run/secrets/kubernetes.io/serviceaccount/token";
  kc_ca_path := "/var/run/secrets/kubernetes.io/serviceaccount/ca.crt";
  kc_timeout_seconds := 10;
  kc_max_stale_seconds := 300;
|}.

(** The configuration of an empty document. *)
Definition config_on (network : NetworkConfig) : Config :=
       {| c_listen := default_listen;
          c_docker_socket := default_docker_socket;
          c_network := network;
          c_wireguard := default_WireGuardConfig;
          c_port_forwarding := default_PortForwardingConfig;
          c_dns := default_DnsConfig;
          c_probe := default_ProbeConfig;
          c_external_probe := default_ExternalProbeConfig;
          c_identity := default_IdentityValidationConfig;
          c_persistence := default_PersistenceConfig;
          c_otel := default_OtelConfig;
          c_vpn_server := default_VpnServerConfig;
          c_recovery := default_RecoveryConfig;
          c_reconcile := default_ReconcileConfig;
          c_kubernetes := default_KubernetesConfig |}.

Definition default_config : option Config := config_on <$> default_NetworkConfig.
End defaults.

(** The networks parse. *)
Definition the_network : @NetworkConfig CidrNet.crate :=
  @Build_NetworkConfig CidrNet.crate default_network (net4 2887647232 24) default_gateway_ip
    default_bridge default_table
    (@Build_Ipv6Config CidrNet.crate false (net6 336543942497271546287979061886377263104 64)
      336543942497271546287979061886377263106).

Lemma the_subnet : @default_subnet CidrNet.crate = Some (net4 2887647232 24).
Proof.
  change (CidrNet.parse 32 parse_ipv4 "172.30.0.0/24" = Some (CidrNet.Build_Cidr 2887647232 24)).
  vm_compute. reflexivity.
Qed.

Lemma the_ipv6_subnet :
  @default_ipv6_subnet CidrNet.crate = Some (net6 336543942497271546287979061886377263104 64).
Proof.
  change (CidrNet.parse 128 parse_ipv6 "fd30:172:30::/64"
          = Some (CidrNet.Build_Cidr 336543942497271546287979061886377263104 64)).
  vm_compute. reflexivity.
Qed.

Lemma the_ipv6_gateway : default_ipv6_gateway_ip = Some 336543942497271546287979061886377263106%N.
Proof. vm_compute. reflexivity. Qed.

Lemma default_network_parses : @default_NetworkConfig CidrNet.crate = Some the_network.
Proof.
  unfold default_NetworkConfig, default_Ipv6Config.
  by rewrite the_subnet, the_ipv6_subnet, the_ipv6_gateway.
Qed.

(** Every group of checks but the one that parses the probe's URL passes by
    computation. *)
Lemma default_checks `{UrlCrate} `{Files} :
  url_parse default_probe_url <> None ->
  @validate CidrNet.crate _ _ (@config_on CidrNet.crate the_network) = Ok tt.
Proof.
  intros Hurl. apply (@validate_passes CidrNet.crate). split; lazymatch goal with
  | |- validate_probe _ = _ => unfold validate_probe; cbn [config_on c_probe default_ProbeConfig pb_enabled pb_url negb]
  | |- _ -> _ => discriminate
  | |- _ => vm_compute; reflexivity
  end.
  by destruct (url_parse default_probe_url).
Qed.

(** the configuration of an empty document is one the gateway starts with:
    its networks parse, and it passes every check when the URL library parses
    the default URL of the probe. *)
Theorem defaults_accepted `{UrlCrate} `{Files} :
  url_parse default_probe_url <> None ->
  exists c, @default_config CidrNet.crate = Some c /\ @validate CidrNet.crate _ _ c = Ok tt.
Proof.
  intros Hurl. exists (@config_on CidrNet.crate the_network). split; [|by apply default_checks].
  unfold default_config. by rewrite default_network_parses.
Qed.

Definition any_url : UrlCrate :=
  {| Url := unit; url_parse := fun _ => Some tt; url_scheme := fun _ => "http"; url_host_str := fun _ => None |}.

Lemma defaults_accepted_witness :
  @url_parse any_url default_probe_url <> None
  /\ exists c, @default_config CidrNet.crate = Some c
               /\ @validate CidrNet.crate any_url example_files c = Ok tt.
Proof.
  assert (@url_parse any_url default_probe_url <> None) as Hurl by discriminate.
  split; [exact Hurl|]. exact (@defaults_accepted any_url example_files Hurl).
Defined.
