(* ===== verification/Nft.v ===== *)
(** What a ruleset that the gateway writes means: packets, the clauses of the
    nft language that its rules use, and the chains of a file.

    nft is a program of the host.  [reads] lists, with their documented
    meaning, the clauses that occur in a rule; an [NftProgram] is any
    evaluation of rules that agrees with it ([NftDocumented]), and
    [SmallNft.program] is one. *)

From S2P Require Import Prelude RustStr Net StrFacts NetFacts HostPolicy ConfigProps.

Inductive Header : Type :=
| HV4 (source destination : Ipv4Addr)
| HV6 (source destination : Ipv6Addr).

Inductive Transport : Type :=
| TcpTo (port : N)
| UdpTo (port : N)
| NeighborDiscovery            (* nd-neighbor-solicit or nd-neighbor-advert *)
| OtherTransport.

Record Packet : Type := {
  iif : string;
  oif : string;
  header : Header;
  transport : Transport;
  established : bool;          (* or related *)
}.

Inductive Verdict : Type :=
| Accept | Drop | Reject | Masquerade
| DnatTo (target : Ipv4Addr) (port : N).

#[export] Instance Verdict_eq_dec : EqDecision Verdict.
Proof. solve_decision. Defined.

Definition source4 (q : Ipv4Addr -> bool) (p : Packet) : bool :=
  match p.(header) with HV4 s _ => q s | HV6 _ _ => false end.
Definition destination4 (q : Ipv4Addr -> bool) (p : Packet) : bool :=
  match p.(header) with HV4 _ d => q d | HV6 _ _ => false end.
Definition source6 (q : Ipv6Addr -> bool) (p : Packet) : bool :=
  match p.(header) with HV6 s _ => q s | HV4 _ _ => false end.
Definition destination6 (q : Ipv6Addr -> bool) (p : Packet) : bool :=
  match p.(header) with HV6 _ d => q d | HV4 _ _ => false end.
Definition is_ipv6 (p : Packet) : bool := match p.(header) with HV6 _ _ => true | HV4 _ _ => false end.
Definition tcp_to (port : N) (p : Packet) : bool :=
  match p.(transport) with TcpTo n => (n =? port)%N | _ => false end.
Definition udp_to (port : N) (p : Packet) : bool :=
  match p.(transport) with UdpTo n => (n =? port)%N | _ => false end.
Definition neighbor_discovery (p : Packet) : bool :=
  match p.(transport) with NeighborDiscovery => true | _ => false end.

Section nft.
Context `{!IpNetCrate}.

(** The words of a rule, the packets it matches, and its verdict on them. *)
Inductive reads : list string -> (Packet -> bool) -> option Verdict -> Prop :=
| reads_nothing : reads [] (fun _ => true) None
| reads_accept : reads ["accept"] (fun _ => true) (Some Accept)
| reads_drop : reads ["drop"] (fun _ => true) (Some Drop)
| reads_reject : reads ["reject"; "with"; "icmp"; "type"; "admin-prohibited"] (fun _ => true) (Some Reject)
| reads_reject6 : reads ["reject"; "with"; "icmpv6"; "type"; "admin-prohibited"] (fun _ => true) (Some Reject)
| reads_masquerade : reads ["masquerade"] (fun _ => true) (Some Masquerade)
| reads_dnat a port : (a < 2 ^ 32)%N -> (port <= u16_MAX)%N ->
    reads ["dnat"; "ip"; "to"; show_ipv4 a +:+ ":" +:+ show_N port]
          (fun p => negb (is_ipv6 p)) (Some (DnatTo a port))
| reads_counter name : reads ["counter"; "name"; name] (fun _ => true) None
| reads_iif i ws f v : plain i -> reads ws f v ->
    reads ("iifname" :: quoted i :: ws) (fun p => String.eqb p.(iif) i && f p) v
| reads_not_iif i ws f v : plain i -> reads ws f v ->
    reads ("iifname" :: "!=" :: quoted i :: ws) (fun p => negb (String.eqb p.(iif) i) && f p) v
| reads_oif i ws f v : plain i -> reads ws f v ->
    reads ("oifname" :: quoted i :: ws) (fun p => String.eqb p.(oif) i && f p) v
| reads_not_oif i ws f v : plain i -> reads ws f v ->
    reads ("oifname" :: "!=" :: quoted i :: ws) (fun p => negb (String.eqb p.(oif) i) && f p) v
| reads_source_net w n ws f v : ipv4net_parse w = Some n -> reads ws f v ->
    reads ("ip" :: "saddr" :: w :: ws) (fun p => source4 (ipv4net_contains n) p && f p) v
| reads_source_not_net w n ws f v : ipv4net_parse w = Some n -> reads ws f v ->
    reads ("ip" :: "saddr" :: "!=" :: w :: ws)
          (fun p => source4 (fun a => negb (ipv4net_contains n a)) p && f p) v
| reads_source a ws f v : (a < 2 ^ 32)%N -> reads ws f v ->
    reads ("ip" :: "saddr" :: show_ipv4 a :: ws) (fun p => source4 (N.eqb a) p && f p) v
| reads_destination_net w n ws f v : ipv4net_parse w = Some n -> reads ws f v ->
    reads ("ip" :: "daddr" :: w :: ws) (fun p => destination4 (ipv4net_contains n) p && f p) v
| reads_destination_not_net w n ws f v : ipv4net_parse w = Some n -> reads ws f v ->
    reads ("ip" :: "daddr" :: "!=" :: w :: ws)
          (fun p => destination4 (fun a => negb (ipv4net_contains n a)) p && f p) v
| reads_destination a ws f v : (a < 2 ^ 32)%N -> reads ws f v ->
    reads ("ip" :: "daddr" :: show_ipv4 a :: ws) (fun p => destination4 (N.eqb a) p && f p) v
| reads_destination_not a ws f v : (a < 2 ^ 32)%N -> reads ws f v ->
    reads ("ip" :: "daddr" :: "!=" :: show_ipv4 a :: ws)
          (fun p => destination4 (fun b => negb (N.eqb a b)) p && f p) v
| reads_source6_net w n ws f v : ipv6net_parse w = Some n -> reads ws f v ->
    reads ("ip6" :: "saddr" :: w :: ws) (fun p => source6 (ipv6net_contains n) p && f p) v
| reads_source6_not_net w n ws f v : ipv6net_parse w = Some n -> reads ws f v ->
    reads ("ip6" :: "saddr" :: "!=" :: w :: ws)
          (fun p => source6 (fun a => negb (ipv6net_contains n a)) p && f p) v
| reads_destination6_net w n ws f v : ipv6net_parse w = Some n -> reads ws f v ->
    reads ("ip6" :: "daddr" :: w :: ws) (fun p => destination6 (ipv6net_contains n) p && f p) v
| reads_destination6_not_net w n ws f v : ipv6net_parse w = Some n -> reads ws f v ->
    reads ("ip6" :: "daddr" :: "!=" :: w :: ws)
          (fun p => destination6 (fun a => negb (ipv6net_contains n a)) p && f p) v
| reads_source6 a ws f v : parse_ipv6 (show_ipv6 a) = Some a -> reads ws f v ->
    reads ("ip6" :: "saddr" :: show_ipv6 a :: ws) (fun p => source6 (N.eqb a) p && f p) v
| reads_destination6 a ws f v : parse_ipv6 (show_ipv6 a) = Some a -> reads ws f v ->
    reads ("ip6" :: "daddr" :: show_ipv6 a :: ws) (fun p => destination6 (N.eqb a) p && f p) v
| reads_established ws f v : reads ws f v ->
    reads ("ct" :: "state" :: "established,related" :: ws) (fun p => p.(established) && f p) v
| reads_ipv6 ws f v : reads ws f v ->
    reads ("meta" :: "nfproto" :: "ipv6" :: ws) (fun p => is_ipv6 p && f p) v
| reads_neighbor ws f v : reads ws f v ->
    reads ("icmpv6" :: "type" :: "{" :: "nd-neighbor-solicit," :: "nd-neighbor-advert" :: "}" :: ws)
          (fun p => neighbor_discovery p && f p) v
| reads_tcp port ws f v : (port <= u16_MAX)%N -> reads ws f v ->
    reads ("tcp" :: "dport" :: show_N port :: ws) (fun p => tcp_to port p && f p) v
| reads_udp port ws f v : (port <= u16_MAX)%N -> reads ws f v ->
    reads ("udp" :: "dport" :: show_N port :: ws) (fun p => udp_to port p && f p) v.

(** An evaluation of rules on packets of some kind. *)
Class NftProgram (P : Type) : Type := rule_verdict : list string -> P -> option Verdict.

Class NftDocumented `{!NftProgram Packet} : Prop :=
  rule_reads : forall ws f v (p : Packet), reads ws f v -> rule_verdict ws p = if f p then v else None.

(** ** The text of a file *)

Definition words (s : string) : list string :=
  List.filter (fun w => negb (is_empty w)) (split_char " " s).

Fixpoint after (marker : string) (ls : list string) : list string :=
  match ls with
  | [] => []
  | l :: ls => if String.eqb l marker then ls else after marker ls
  end.

Fixpoint before (marker : string) (ls : list string) : list string :=
  match ls with
  | [] => []
  | l :: ls => if String.eqb l marker then [] else l :: before marker ls
  end.

(** The lines of a chain: the first declares it, the others are its rules. *)
Definition chain_lines (name text : string) : list string :=
  before "  }" (after ("  chain " +:+ name +:+ " {") (lines text)).

Definition default_verdict (declaration : string) : Verdict :=
  if ends_with declaration "policy drop;" then Drop else Accept.

Context {P : Type} `{!NftProgram P}.

(** The first rule with a verdict decides. *)
Fixpoint first_verdict (rules : list string) (p : P) : option Verdict :=
  match rules with
  | [] => None
  | r :: rules =>
      match rule_verdict (words r) p with Some v => Some v | None => first_verdict rules p end
  end.

(** [None]: the file declares no such chain. *)
Definition chain_verdict (name text : string) (p : P) : option Verdict :=
  match chain_lines name text with
  | [] => None
  | declaration :: rules => Some (default (default_verdict declaration) (first_verdict rules p))
  end.

Lemma first_verdict_app l k p :
  first_verdict (l ++ k) p =
  match first_verdict l p with Some v => Some v | None => first_verdict k p end.
Proof. induction l as [|r l IH]; [done|]. cbn. by destruct (rule_verdict _ _). Qed.

Lemma first_verdict_None l p :
  Forall (fun r => rule_verdict (words r) p = None) l -> first_verdict l p = None.
Proof. induction 1 as [|r l Hr Hl IH]; [done|]. cbn. by rewrite Hr. Qed.
End nft.

(** ** Words *)

Definition word (w : string) : Prop := w <> "" /\ str_forallb visible w = true.

Lemma word_lacks c w : visible c = false -> word w -> lacks c w = true.
Proof. intros Hc [_ Hw]. by eapply str_forallb_lacks. Qed.

Lemma words_join ws : Forall word ws -> words ("    " +:+ join " " ws) = ws.
Proof.
  intros Hws. unfold words. change ("    " +:+ join " " ws) with
    (String " " (String " " (String " " (String " " (join " " ws))))).
  assert (forall s, split_char " " (String " " s) = "" :: split_char " " s) as Hsp by done.
  rewrite !Hsp. cbn [List.filter is_empty negb].
  change (is_empty "") with true. cbn [negb].
  destruct ws as [|w ws]; [done|]. rewrite (split_char_join " " (w :: ws)); [|done|].
  - apply List.forallb_filter_id, forallb_elem. intros x Hx.
    rewrite list.Forall_forall in Hws. destruct (Hws x Hx) as [Hne _].
    unfold is_empty. by apply negb_true_iff, String.eqb_neq.
  - eapply list.Forall_impl; [exact Hws|]. intros x. by apply word_lacks.
Qed.

Lemma line_of_words ws : Forall word ws -> line_ok ("    " +:+ join " " ws).
Proof.
  intros Hws.
  assert (forall c, visible c = false -> Ascii.eqb " " c = false -> lacks c (join " " ws) = true) as Hl.
  { intros c Hc Hsp. apply join_forallb.
    { change (negb (Ascii.eqb " " c) && true = true). by rewrite Hsp. }
    eapply list.Forall_impl; [exact Hws|]. intros x. by apply word_lacks. }
  split.
  - rewrite lacks_app, Hl; done.
  - apply strip_cr_rev.
    assert (lacks "013" (String.rev ("    " +:+ join " " ws)) = true) as Hr.
    { unfold lacks. rewrite str_forallb_rev. change (lacks "013" ("    " +:+ join " " ws) = true).
      rewrite lacks_app, Hl; done. }
    destruct (String.rev _) as [|c s]; [done|]. apply lacks_cons in Hr as [Hr _].
    by apply Ascii.eqb_neq.
Qed.

(** ** Finding a chain *)

Lemma after_marker marker l k :
  Forall (fun x => x <> marker) l -> after marker (l ++ marker :: k) = k.
Proof.
  induction 1 as [|x l Hx Hl IH]; cbn; [by rewrite String.eqb_refl|].
  by rewrite (proj2 (String.eqb_neq _ _) Hx).
Qed.

Lemma before_marker marker l k :
  Forall (fun x => x <> marker) l -> before marker (l ++ marker :: k) = l.
Proof.
  induction 1 as [|x l Hx Hl IH]; cbn; [by rewrite String.eqb_refl|].
  by rewrite (proj2 (String.eqb_neq _ _) Hx), IH.
Qed.

(** The chain that a text declares after [pre] and before [post]. *)
Lemma chain_lines_at name text pre body post :
  lines text = pre ++ ("  chain " +:+ name +:+ " {") :: body ++ "  }" :: post ->
  Forall (fun x => x <> "  chain " +:+ name +:+ " {") pre ->
  Forall (fun x => x <> "  }") body ->
  chain_lines name text = body.
Proof.
  intros Hl Hpre Hbody. unfold chain_lines. by rewrite Hl, after_marker, before_marker.
Qed.

(** ** An evaluation that reads the clauses as documented *)

Module SmallNft.
Section small.
Context `{!IpNetCrate}.

Definition in4 (w : string) (a : Ipv4Addr) : bool :=
  match ipv4net_parse w with
  | Some n => ipv4net_contains n a
  | None => match parse_ipv4 w with Some b => (b =? a)%N | None => false end
  end.
Definition in6 (w : string) (a : Ipv6Addr) : bool :=
  match ipv6net_parse w with
  | Some n => ipv6net_contains n a
  | None => match parse_ipv6 w with Some b => (b =? a)%N | None => false end
  end.
Definition to_port (kind : N -> Packet -> bool) (w : string) (p : Packet) : bool :=
  match parse_u16 w with Some n => kind n p | None => false end.

(** [w], or [!= w]: what follows, and the test that [w] makes. *)
Definition operand (test : string -> bool) (ws : list string) : bool * list string :=
  match ws with
  | w :: ws1 =>
      if String.eqb w "!=" then
        match ws1 with w' :: ws2 => (negb (test w'), ws2) | [] => (false, []) end
      else (test w, ws1)
  | [] => (false, [])
  end.

(** One clause: whether the packet matches, and what follows the clause. *)
Definition clause (p : Packet) (k : string) (ws : list string) : bool * list string :=
  if String.eqb k "iifname" then operand (String.eqb (quoted p.(iif))) ws
  else if String.eqb k "oifname" then operand (String.eqb (quoted p.(oif))) ws
  else if String.eqb k "ct" then (p.(established), drop 2 ws)
  else if String.eqb k "meta" then (is_ipv6 p, drop 2 ws)
  else if String.eqb k "icmpv6" then (neighbor_discovery p, drop 5 ws)
  else match ws with
  | w :: ws1 =>
      if String.eqb k "tcp" then (to_port tcp_to (hd "" ws1) p, drop 1 ws1)
      else if String.eqb k "udp" then (to_port udp_to (hd "" ws1) p, drop 1 ws1)
      else if String.eqb k "ip" then
        let '(matches, rest) :=
          operand (fun x => (if String.eqb w "saddr" then source4 else destination4) (in4 x) p) ws1 in
        (negb (is_ipv6 p) && matches, rest)
      else if String.eqb k "ip6" then
        let '(matches, rest) :=
          operand (fun x => (if String.eqb w "saddr" then source6 else destination6) (in6 x) p) ws1 in
        (is_ipv6 p && matches, rest)
      else (false, [])
  | [] => (false, [])
  end.

Definition statement (p : Packet) (k : string) (ws : list string) : option (option Verdict) :=
  if String.eqb k "accept" then Some (Some Accept)
  else if String.eqb k "drop" then Some (Some Drop)
  else if String.eqb k "reject" then Some (Some Reject)
  else if String.eqb k "masquerade" then Some (Some Masquerade)
  else if String.eqb k "counter" then Some None
  else if String.eqb k "dnat" then
    Some (if is_ipv6 p then None else
          '(a, port) ← split_once ":" (hd "" (drop 2 ws)); a ← parse_ipv4 a; port ← parse_u16 port;
          Some (DnatTo a port))
  else None.

(** Every clause is a word at least: the length of the rule is fuel enough. *)
Fixpoint run (fuel : nat) (ws : list string) (p : Packet) : option Verdict :=
  match fuel, ws with
  | S fuel, k :: ws =>
      match statement p k ws with
      | Some v => v
      | None => let '(matches, ws) := clause p k ws in if matches then run fuel ws p else None
      end
  | _, _ => None
  end.

Definition program : NftProgram Packet := fun ws p => run (length ws) ws p.

Lemma run_clause fuel k ws p m ws' (f : Packet -> bool) v :
  statement p k ws = None -> clause p k ws = (m, ws') -> (S (length ws') <= fuel)%nat ->
  (forall fuel, (length ws' <= fuel)%nat -> run fuel ws' p = if f p then v else None) ->
  run fuel (k :: ws) p = if m && f p then v else None.
Proof.
  intros Hs Hc Hlen IH. destruct fuel as [|fuel]; [lia|]. cbn [run]. rewrite Hs, Hc.
  destruct m; [|done]. apply IH. lia.
Qed.

Lemma operand_is test w ws : w <> "!=" -> operand test (w :: ws) = (test w, ws).
Proof. intros Hw. unfold operand. by rewrite (proj2 (String.eqb_neq _ _) Hw). Qed.

Lemma operand_not test w ws : operand test ("!=" :: w :: ws) = (negb (test w), ws).
Proof. done. Qed.

Lemma quoted_not_mark i : quoted i <> "!=".
Proof. discriminate. Qed.

Lemma quoted_eqb i j : String.eqb (quoted i) (quoted j) = String.eqb i j.
Proof.
  apply eq_true_iff_eq. rewrite !String.eqb_eq. split; [|by intros ->].
  unfold quoted. intros E%(f_equal chars). rewrite !chars_app in E.
  apply app_inv_head, app_inv_tail in E. by apply chars_inj.
Qed.

Context `{!IpNetText}.

Lemma net4_not_mark w n : ipv4net_parse w = Some n -> w <> "!=".
Proof. intros Hp%ipv4net_parse_slash ->. discriminate. Qed.
Lemma net6_not_mark w n : ipv6net_parse w = Some n -> w <> "!=".
Proof. intros Hp%ipv6net_parse_slash ->. discriminate. Qed.

Lemma show_ipv4_lacks c a :
  is_ascii_digit c = false -> Ascii.eqb "." c = false -> lacks c (show_ipv4 a) = true.
Proof.
  intros Hd Hdot. apply show_ipv4_chars; [|by rewrite Hdot].
  intros x Hx. apply negb_true_iff, Ascii.eqb_neq. intros ->. congruence.
Qed.

Lemma address_not_net a : ipv4net_parse (show_ipv4 a) = None.
Proof.
  destruct (ipv4net_parse (show_ipv4 a)) as [n|] eqn:E; [|done].
  apply ipv4net_parse_slash in E. by rewrite show_ipv4_lacks in E.
Qed.

Lemma address_not_mark a : show_ipv4 a <> "!=".
Proof.
  intros E. pose proof (show_ipv4_lacks "!" a eq_refl eq_refl) as Hl. by rewrite E in Hl.
Qed.

Lemma in4_net w n : ipv4net_parse w = Some n -> in4 w = ipv4net_contains n.
Proof. intros Hp. unfold in4. by rewrite Hp. Qed.
Lemma in6_net w n : ipv6net_parse w = Some n -> in6 w = ipv6net_contains n.
Proof. intros Hp. unfold in6. by rewrite Hp. Qed.
Lemma in4_address a : (a < 2 ^ 32)%N -> in4 (show_ipv4 a) = N.eqb a.
Proof. intros Ha. unfold in4. by rewrite address_not_net, parse_show_ipv4. Qed.

Lemma address6_not_net a : ipv6net_parse (show_ipv6 a) = None.
Proof.
  destruct (ipv6net_parse (show_ipv6 a)) as [n|] eqn:E; [|done].
  apply ipv6net_parse_slash in E. unfold lacks in E. rewrite show_ipv6_chars in E; [done| |done|done].
  intros c Hc. apply negb_true_iff, Ascii.eqb_neq. by intros ->.
Qed.

Lemma address6_not_mark a : show_ipv6 a <> "!=".
Proof.
  intros E. assert (str_forallb (fun c => negb (Ascii.eqb c "!")) (show_ipv6 a) = true) as Hl.
  { apply show_ipv6_chars; [|done..]. intros c Hc. apply negb_true_iff, Ascii.eqb_neq. by intros ->. }
  by rewrite E in Hl.
Qed.

Lemma in6_address a : parse_ipv6 (show_ipv6 a) = Some a -> in6 (show_ipv6 a) = N.eqb a.
Proof. intros Ha. unfold in6. by rewrite address6_not_net, Ha. Qed.

Lemma clause_ip p k w ws :
  w <> "!=" -> clause p "ip" (k :: w :: ws)
  = ((if String.eqb k "saddr" then source4 else destination4) (in4 w) p, ws).
Proof.
  intros Hw. change (clause p "ip" (k :: w :: ws)) with
    (let '(matches, rest) :=
       operand (fun x => (if String.eqb k "saddr" then source4 else destination4) (in4 x) p) (w :: ws) in
     (negb (is_ipv6 p) && matches, rest)).
  rewrite operand_is by done. destruct (String.eqb k _); unfold is_ipv6, source4, destination4; by destruct (header p).
Qed.

Lemma clause_ip_not p k w ws :
  clause p "ip" (k :: "!=" :: w :: ws)
  = ((if String.eqb k "saddr" then source4 else destination4) (fun a => negb (in4 w a)) p, ws).
Proof.
  change (clause p "ip" (k :: "!=" :: w :: ws)) with
    (negb (is_ipv6 p) && negb ((if String.eqb k "saddr" then source4 else destination4) (in4 w) p), ws).
  destruct (String.eqb k _); unfold is_ipv6, source4, destination4; by destruct (header p).
Qed.

Lemma clause_ip6 p k w ws :
  w <> "!=" -> clause p "ip6" (k :: w :: ws)
  = ((if String.eqb k "saddr" then source6 else destination6) (in6 w) p, ws).
Proof.
  intros Hw. change (clause p "ip6" (k :: w :: ws)) with
    (let '(matches, rest) :=
       operand (fun x => (if String.eqb k "saddr" then source6 else destination6) (in6 x) p) (w :: ws) in
     (is_ipv6 p && matches, rest)).
  rewrite operand_is by done. destruct (String.eqb k _); unfold is_ipv6, source6, destination6; by destruct (header p).
Qed.

Lemma clause_ip6_not p k w ws :
  clause p "ip6" (k :: "!=" :: w :: ws)
  = ((if String.eqb k "saddr" then source6 else destination6) (fun a => negb (in6 w a)) p, ws).
Proof.
  change (clause p "ip6" (k :: "!=" :: w :: ws)) with
    (is_ipv6 p && negb ((if String.eqb k "saddr" then source6 else destination6) (in6 w) p), ws).
  destruct (String.eqb k _); unfold is_ipv6, source6, destination6; by destruct (header p).
Qed.

Lemma run_dnat fuel a port p :
  (a < 2 ^ 32)%N -> (port <= u16_MAX)%N ->
  run (S fuel) ["dnat"; "ip"; "to"; show_ipv4 a +:+ ":" +:+ show_N port] p
  = if negb (is_ipv6 p) then Some (DnatTo a port) else None.
Proof.
  intros Ha Hport.
  change ((if is_ipv6 p then None else '(a, port) ← split_once ":" (show_ipv4 a +:+ ":" +:+ show_N port);
           a ← parse_ipv4 a; port ← parse_u16 port; Some (DnatTo a port))
          = if negb (is_ipv6 p) then Some (DnatTo a port) else None).
  destruct (is_ipv6 p); [done|]. cbn [negb].
  change (":" +:+ show_N port) with (String ":" (show_N port)).
  rewrite split_once_app by (by apply show_ipv4_lacks). cbn [mbind option_bind].
  rewrite parse_show_ipv4 by done. cbn [mbind option_bind].
  unfold parse_u16. by rewrite parse_uint_show.
Qed.

Lemma clause_iif p i ws : clause p "iifname" (quoted i :: ws) = (String.eqb p.(iif) i, ws).
Proof. rewrite <- quoted_eqb. by apply (operand_is (String.eqb (quoted p.(iif)))). Qed.
Lemma clause_oif p i ws : clause p "oifname" (quoted i :: ws) = (String.eqb p.(oif) i, ws).
Proof. rewrite <- quoted_eqb. by apply (operand_is (String.eqb (quoted p.(oif)))). Qed.
Lemma clause_not_iif p i ws :
  clause p "iifname" ("!=" :: quoted i :: ws) = (negb (String.eqb p.(iif) i), ws).
Proof. by rewrite <- quoted_eqb. Qed.
Lemma clause_not_oif p i ws :
  clause p "oifname" ("!=" :: quoted i :: ws) = (negb (String.eqb p.(oif) i), ws).
Proof. by rewrite <- quoted_eqb. Qed.
Lemma clause_tcp p port ws :
  (port <= u16_MAX)%N -> clause p "tcp" ("dport" :: show_N port :: ws) = (tcp_to port p, ws).
Proof.
  intros Hp. change (clause p "tcp" ("dport" :: show_N port :: ws)) with (to_port tcp_to (show_N port) p, ws).
  unfold to_port, parse_u16. by rewrite parse_uint_show.
Qed.
Lemma clause_udp p port ws :
  (port <= u16_MAX)%N -> clause p "udp" ("dport" :: show_N port :: ws) = (udp_to port p, ws).
Proof.
  intros Hp. change (clause p "udp" ("dport" :: show_N port :: ws)) with (to_port udp_to (show_N port) p, ws).
  unfold to_port, parse_u16. by rewrite parse_uint_show.
Qed.

(** A clause: its equation, then the rest of the rule. *)
Ltac clause_equation :=
  match goal with
  | Hp : ipv4net_parse ?w = Some ?n |- clause _ "ip" (_ :: "!=" :: ?w :: _) = _ =>
      rewrite clause_ip_not, (in4_net w n Hp); reflexivity
  | Hp : ipv4net_parse ?w = Some ?n |- clause _ "ip" (_ :: ?w :: _) = _ =>
      rewrite clause_ip, (in4_net w n Hp) by exact (net4_not_mark w n Hp); reflexivity
  | Hp : ipv6net_parse ?w = Some ?n |- clause _ "ip6" (_ :: "!=" :: ?w :: _) = _ =>
      rewrite clause_ip6_not, (in6_net w n Hp); reflexivity
  | Hp : ipv6net_parse ?w = Some ?n |- clause _ "ip6" (_ :: ?w :: _) = _ =>
      rewrite clause_ip6, (in6_net w n Hp) by exact (net6_not_mark w n Hp); reflexivity
  | Ha : (?a < 2 ^ 32)%N |- clause _ "ip" (_ :: "!=" :: show_ipv4 ?a :: _) = _ =>
      rewrite clause_ip_not, in4_address by exact Ha; reflexivity
  | Ha : (?a < 2 ^ 32)%N |- clause _ "ip" (_ :: show_ipv4 ?a :: _) = _ =>
      rewrite clause_ip, in4_address by (exact Ha || apply address_not_mark); reflexivity
  | Ha : parse_ipv6 (show_ipv6 ?a) = Some ?a |- clause _ "ip6" (_ :: show_ipv6 ?a :: _) = _ =>
      rewrite clause_ip6, (in6_address a Ha) by apply address6_not_mark; reflexivity
  | |- clause _ "iifname" ("!=" :: _) = _ => apply clause_not_iif
  | |- clause _ "iifname" _ = _ => apply clause_iif
  | |- clause _ "oifname" ("!=" :: _) = _ => apply clause_not_oif
  | |- clause _ "oifname" _ = _ => apply clause_oif
  | |- clause _ "tcp" _ = _ => apply clause_tcp; assumption
  | |- clause _ "udp" _ = _ => apply clause_udp; assumption
  | |- _ => reflexivity
  end.

Lemma run_reads ws f v p fuel :
  reads ws f v -> (length ws <= fuel)%nat -> run fuel ws p = if f p then v else None.
Proof.
  intros Hr. revert fuel. induction Hr; intros fuel Hlen.
  1: by destruct fuel.
  1-5,7: destruct fuel; [cbn in Hlen; lia|done].
  { destruct fuel; [cbn in Hlen; lia|]. by apply run_dnat. }
  all: eapply run_clause;
    [reflexivity | clause_equation | cbn [length skipn] in *; rewrite ?drop_0; lia
    | intros ? Hrest; cbn [skipn] in *; rewrite ?drop_0 in *; apply IHHr; lia].
Qed.

#[export] Instance documented : @NftDocumented _ program.
Proof. intros ws f v p Hr. by apply run_reads. Qed.
End small.
End SmallNft.
