(* ===== verification/Host.v ===== *)
(** What the gateway writes for the host and for itself (src/src/host.rs): the
    policy document, the host's set-up script, and the fail-closed firewall of
    the gateway, line by line. *)

From S2P Require Import Prelude RustStr Net StrFacts HostPolicy Config.

Record ClientCounterRule : Type := {
  cr_container_id : string;
  cr_address : Ipv4Addr;
  cr_ipv6_address : option Ipv6Addr;
  cr_download_packets : N;
  cr_downloaded_bytes : N;
  cr_upload_packets : N;
  cr_uploaded_bytes : N;
}.

(** [(tunnel_port, target, target_port)] *)
Definition Dnat : Type := N * Ipv4Addr * N.

Definition client_counter_name (direction container_id : string) : string :=
  "client_" +:+ direction +:+ "_" +:+ str_take 64 (str_filter is_ascii_alphanumeric container_id).

(** A rule: four spaces, and words with a space between them. *)
Definition rule (words : list string) : string := "    " +:+ join " " words.

Section Host.
Context `{!IpNetCrate}.

Definition host_policy (c : Config) (generated_at_unix_ms : N) : HostPolicy :=
  let n := c.(c_network) in
  let policy := HostPolicy.new generated_at_unix_ms (ipv4net_show n.(nc_subnet)) n.(nc_host_bridge)
                  (show_ipv4 n.(nc_gateway_ip)) n.(nc_route_table) in
  match ipv6_routing n with
  | Some v => HostPolicy.with_ipv6 policy (ipv6net_show v.(i6_subnet)) (show_ipv6 v.(i6_gateway_ip))
  | None => policy
  end.

(** ** The firewall of the gateway *)

Section firewall.
Context (c : Config) (port_forwards : list Dnat) (client_counters : list ClientCounterRule).

Definition subnet : string := ipv4net_show c.(c_network).(nc_subnet).
Definition tunnel : string := quoted c.(c_wireguard).(wc_interface).
Definition gateway : string := show_ipv4 c.(c_network).(nc_gateway_ip).
Definition ipv6_subnet : option string :=
  (fun v => ipv6net_show v.(i6_subnet)) <$> ipv6_routing c.(c_network).

Definition dnat_rules : list string :=
  '(tunnel_port, target, target_port) ← port_forwards;
  (fun protocol => rule ["iifname"; tunnel; protocol; "dport"; show_N tunnel_port; "dnat"; "ip"; "to";
                         show_ipv4 target +:+ ":" +:+ show_N target_port]) <$> ["tcp"; "udp"].

Definition counter_objects : list string :=
  client ← client_counters;
  [ "  counter " +:+ client_counter_name "down" client.(cr_container_id) +:+ " { packets "
      +:+ show_N client.(cr_download_packets) +:+ " bytes " +:+ show_N client.(cr_downloaded_bytes)
      +:+ "; }";
    "  counter " +:+ client_counter_name "up" client.(cr_container_id) +:+ " { packets "
      +:+ show_N client.(cr_upload_packets) +:+ " bytes " +:+ show_N client.(cr_uploaded_bytes)
      +:+ "; }" ].

(** [ipv6.and(client.ipv6_address)] *)
Definition client_ipv6 (client : ClientCounterRule) : option Ipv6Addr :=
  match ipv6_subnet with Some _ => client.(cr_ipv6_address) | None => None end.

Definition download_counters : list string :=
  client ← client_counters;
  let name := client_counter_name "down" client.(cr_container_id) in
  rule ["iifname"; tunnel; "ip"; "daddr"; show_ipv4 client.(cr_address); "counter"; "name"; name]
  :: match client_ipv6 client with
     | Some address => [rule ["iifname"; tunnel; "ip6"; "daddr"; show_ipv6 address; "counter"; "name"; name]]
     | None => []
     end.

Definition upload_counters : list string :=
  client ← client_counters;
  let name := client_counter_name "up" client.(cr_container_id) in
  rule ["ip"; "saddr"; show_ipv4 client.(cr_address); "oifname"; tunnel; "counter"; "name"; name]
  :: match client_ipv6 client with
     | Some address => [rule ["ip6"; "saddr"; show_ipv6 address; "oifname"; tunnel; "counter"; "name"; name]]
     | None => []
     end.

Definition ipv6_input : list string :=
  match ipv6_subnet with
  | Some _ => [rule ["iifname"; "!="; tunnel; "icmpv6"; "type"; "{"; "nd-neighbor-solicit,";
                     "nd-neighbor-advert"; "}"; "accept"]]
  | None => []
  end.

Definition ipv6_forward : list string :=
  match ipv6_subnet with
  | Some s => [rule ["ip6"; "saddr"; s; "udp"; "dport"; "53"; "reject"; "with"; "icmpv6"; "type"; "admin-prohibited"];
               rule ["ip6"; "saddr"; s; "tcp"; "dport"; "53"; "reject"; "with"; "icmpv6"; "type"; "admin-prohibited"];
               rule ["ip6"; "saddr"; s; "oifname"; tunnel; "accept"]]
  | None => []
  end.

Definition ipv6_postrouting : list string :=
  match ipv6_subnet with
  | Some s => [rule ["ip6"; "saddr"; s; "oifname"; tunnel; "masquerade"]]
  | None => []
  end.

Definition ipv6_leak_guard : list string :=
  match ipv6_subnet with
  | Some s => [rule ["ip6"; "saddr"; s; "ip6"; "daddr"; "!="; s; "oifname"; "!="; tunnel; "drop"];
               rule ["ip6"; "daddr"; s; "ip6"; "saddr"; "!="; s; "iifname"; "!="; tunnel; "drop"]]
  | None => []
  end.

Definition natpmp_input : list string :=
  if bool_decide (c.(c_port_forwarding).(pc_backend) = NatPmp)
  then [rule ["udp"; "dport"; "5351"; "ip"; "saddr"; show_ipv4 c.(c_port_forwarding).(pc_gateway); "accept"]]
  else [].

Definition input_chain : list string :=
  [rule ["iifname"; quoted "lo"; "accept"];
   rule ["ct"; "state"; "established,related"; "accept"];
   rule ["iifname"; tunnel; "meta"; "nfproto"; "ipv6"; "drop"]]
  ++ ipv6_input
  ++ [rule ["ip"; "saddr"; subnet; "udp"; "dport"; "53"; "accept"];
      rule ["ip"; "saddr"; subnet; "tcp"; "dport"; "53"; "accept"];
      rule ["tcp"; "dport"; "8080"; "accept"]]
  ++ natpmp_input ++ [""].

Definition forward_chain : list string :=
  download_counters ++ upload_counters ++ [""]
  ++ [rule ["ip"; "saddr"; subnet; "ip"; "daddr"; "!="; subnet; "oifname"; "!="; tunnel; "drop"];
      rule ["ip"; "daddr"; subnet; "ip"; "saddr"; "!="; subnet; "iifname"; "!="; tunnel; "drop"]]
  ++ ipv6_leak_guard
  ++ [rule ["ct"; "state"; "established,related"; "accept"];
      rule ["ip"; "saddr"; subnet; "udp"; "dport"; "53"; "ip"; "daddr"; "!="; gateway; "reject"; "with";
            "icmp"; "type"; "admin-prohibited"];
      rule ["ip"; "saddr"; subnet; "tcp"; "dport"; "53"; "ip"; "daddr"; "!="; gateway; "reject"; "with";
            "icmp"; "type"; "admin-prohibited"];
      rule ["ip"; "saddr"; subnet; "oifname"; tunnel; "accept"];
      rule ["iifname"; tunnel; "ip"; "daddr"; subnet; "accept"]]
  ++ ipv6_forward.

Definition postrouting_chain : list string :=
  rule ["ip"; "saddr"; subnet; "oifname"; tunnel; "masquerade"] :: ipv6_postrouting.

Definition gateway_firewall_lines : list string :=
  ["table inet egressy {"] ++ counter_objects
  ++ ["";
      "  chain input {"; "    type filter hook input priority 0; policy drop;"] ++ input_chain
  ++ ["  }";
      "  chain forward {"; "    type filter hook forward priority 0; policy drop;"] ++ forward_chain
  ++ ["  }";
      "  chain postrouting {"; "    type nat hook postrouting priority srcnat; policy accept;"]
  ++ postrouting_chain
  ++ ["  }";
      "  chain prerouting {"; "    type nat hook prerouting priority dstnat; policy accept;"]
  ++ dnat_rules
  ++ ["  }"; "}"].

Definition render_gateway_firewall : string := unlines gateway_firewall_lines.
End firewall.

(** ** The host's set-up script *)

Definition ip_commands (commands : list (list string)) : string :=
  concat_str ((fun args => "ip " +:+ join " " args +:+ NL) <$> commands).

Definition render_host_ipv6_setup (policy : HostPolicy) : string :=
  match policy.(hp_ipv6), ipv6_rule_add_args policy with
  | Some ipv6, Some rule =>
      NL +:+ unlines
        ["# Enables IPv6 forwarding host-wide. An uplink that learns its default route from";
         "# router advertisements also needs accept_ra=2; see docs/NETWORKING.md.";
         "sysctl -w net.ipv6.conf.all.forwarding=1 >/dev/null";
         "";
         "# Routes before the rule, `unreachable` first, so the rule never selects a";
         "# table that could fall through to the main default route."]
      +:+ ip_commands (ipv6_route_replace_args policy)
      +:+ "ip -6 rule del from " +:+ ipv6.(hp6_subnet) +:+ " lookup " +:+ show_N policy.(hp_route_table)
      +:+ " 2>/dev/null || true" +:+ NL
      +:+ "ip " +:+ join " " rule +:+ NL
  | _, _ => ""
  end.

Definition render_host_setup (c : Config) : string :=
  let policy := host_policy c 0 in
  unlines
    ["#!/bin/sh";
     "set -eu";
     "";
     "# Run on the Docker host after creating the vpn-egress network with the";
     "# deterministic bridge name shown in config/docker-network.sh.";
     "#";
     "# This script is a bootstrap, not the owner of this state. The host-network";
     "# agent reconciles the same policy continuously, so anything that clears it --";
     "# a Docker daemon restart, for instance -- is repaired without rerunning this.";
     "#";
     "# Order matters, and mirrors the agent: the kill switch goes in first, before";
     "# any forwarding is enabled, so a step that fails under `set -e` never leaves";
     "# enrolled traffic forwarded without it. The empty `table` line makes the";
     "# delete valid on a first run, so the whole replacement is one nft transaction";
     "# with no window where the old table is gone and the new one is not yet loaded.";
     "nft -f - <<'NFT'";
     "table inet " +:+ HOST_POLICY_TABLE;
     "delete table inet " +:+ HOST_POLICY_TABLE]
  +:+ render_nft policy
  +:+ unlines
    ["NFT";
     "";
     "sysctl -w net.ipv4.ip_forward=1 >/dev/null";
     ""]
  +:+ ip_commands (route_replace_args policy)
  +:+ "ip rule del from " +:+ policy.(hp_subnet) +:+ " lookup " +:+ show_N policy.(hp_route_table)
  +:+ " 2>/dev/null || true" +:+ NL
  +:+ "ip " +:+ join " " (rule_add_args policy) +:+ NL
  +:+ render_host_ipv6_setup policy.
End Host.
