(* ===== verification/HostProps.v ===== *)
(** The firewall of the gateway means the policy that docs/NETWORKING.md
    promises: every chain of the rendered text gives every packet the verdict
    of an abstract policy; and what follows for enrolled traffic. *)

From S2P Require Import Prelude RustStr Net StrFacts NetFacts HostPolicy Config ConfigProps Nft Host.

(** ** The policy *)

Section policy.
Context `{!IpNetCrate} (c : Config).

Definition enrolled (a : Ipv4Addr) : bool := ipv4net_contains c.(c_network).(nc_subnet) a.
Definition from_tunnel (p : Packet) : bool := String.eqb p.(iif) c.(c_wireguard).(wc_interface).
Definition to_tunnel (p : Packet) : bool := String.eqb p.(oif) c.(c_wireguard).(wc_interface).
Definition plain_dns (p : Packet) : bool := udp_to 53 p || tcp_to 53 p.

Definition forward_policy (p : Packet) : Verdict :=
  match p.(header), ipv6_routing c.(c_network) with
  | HV4 s d, _ =>
      if enrolled s && negb (enrolled d) && negb (to_tunnel p) then Drop
      else if enrolled d && negb (enrolled s) && negb (from_tunnel p) then Drop
      else if p.(established) then Accept
      else if enrolled s && plain_dns p && negb (c.(c_network).(nc_gateway_ip) =? d)%N then Reject
      else if enrolled s && to_tunnel p || from_tunnel p && enrolled d then Accept
      else Drop
  | HV6 s d, Some v =>
      let routed := ipv6net_contains v.(i6_subnet) in
      if routed s && negb (routed d) && negb (to_tunnel p) then Drop
      else if routed d && negb (routed s) && negb (from_tunnel p) then Drop
      else if p.(established) then Accept
      else if routed s && plain_dns p then Reject
      else if routed s && to_tunnel p then Accept
      else Drop
  | HV6 _ _, None => if p.(established) then Accept else Drop
  end.

Definition input_policy (p : Packet) : Verdict :=
  if String.eqb p.(iif) "lo" || p.(established) then Accept
  else if from_tunnel p && is_ipv6 p then Drop
  else if match ipv6_routing c.(c_network) with Some _ => negb (from_tunnel p) && neighbor_discovery p | None => false end
          || source4 enrolled p && plain_dns p
          || tcp_to 8080 p
          || bool_decide (c.(c_port_forwarding).(pc_backend) = NatPmp)
             && udp_to 5351 p && source4 (N.eqb c.(c_port_forwarding).(pc_gateway)) p
       then Accept
  else Drop.

Definition lease_of (p : Packet) : list Dnat -> option Dnat :=
  List.find (fun '(tunnel_port, _, _) =>
    from_tunnel p && (tcp_to tunnel_port p || udp_to tunnel_port p) && negb (is_ipv6 p)).

Definition prerouting_policy (port_forwards : list Dnat) (p : Packet) : Verdict :=
  match lease_of p port_forwards with
  | Some (_, target, target_port) => DnatTo target target_port
  | None => Accept
  end.

Definition postrouting_policy (p : Packet) : Verdict :=
  if to_tunnel p
     && (source4 enrolled p
         || match ipv6_routing c.(c_network) with
            | Some v => source6 (ipv6net_contains v.(i6_subnet)) p
            | None => false
            end)
  then Masquerade else Accept.
End policy.

(** The addresses of the rules fit their width and are read as they are
    written. *)
Record readable `{!IpNetCrate} (c : Config) (port_forwards : list Dnat)
    (counters : list ClientCounterRule) : Prop := {
  rd_subnet : ipv4net_parse (ipv4net_show c.(c_network).(nc_subnet)) = Some c.(c_network).(nc_subnet);
  rd_ipv6 : forall v, ipv6_routing c.(c_network) = Some v ->
    ipv6net_parse (ipv6net_show v.(i6_subnet)) = Some v.(i6_subnet);
  rd_gateway : (c.(c_network).(nc_gateway_ip) < 2 ^ 32)%N;
  rd_natpmp : (c.(c_port_forwarding).(pc_gateway) < 2 ^ 32)%N;
  rd_leases : Forall (fun '(tunnel_port, target, target_port) =>
    (tunnel_port <= u16_MAX)%N /\ (target < 2 ^ 32)%N /\ (target_port <= u16_MAX)%N) port_forwards;
  rd_clients : Forall (fun client =>
    (client.(cr_address) < 2 ^ 32)%N
    /\ forall a, client.(cr_ipv6_address) = Some a -> parse_ipv6 (show_ipv6 a) = Some a) counters;
}.

(** ** Lists of rules *)

Definition rule_line (l : string) : Prop := l = "" \/ exists ws, l = rule ws /\ Forall word ws.

Lemma rule_line_ok l : rule_line l -> line_ok l.
Proof. intros [->|(ws & -> & Hws)]; [done|by apply line_of_words]. Qed.

Lemma rule_line_not l m :
  rule_line l -> starts_with m "   " = false -> m <> "" -> l <> m.
Proof.
  intros [->|(ws & -> & _)] Hm Hne <-; [done|].
  change (rule ws) with ("   " +:+ (" " +:+ join " " ws)) in Hm. by rewrite starts_with_app in Hm.
Qed.

(** A line of visible characters and spaces. *)
Definition printable (c : ascii) : bool := visible c || Ascii.eqb " " c.

Lemma printable_line l : str_forallb printable l = true -> line_ok l.
Proof.
  intros Hl. split; [exact (str_forallb_lacks printable "010" l eq_refl Hl)|]. apply strip_cr_rev.
  rewrite <- str_forallb_rev in Hl. destruct (String.rev l) as [|x s]; [done|].
  rewrite str_forallb_cons in Hl. apply andb_true_iff in Hl as [Hx _].
  apply Ascii.eqb_neq. by intros <-.
Qed.

Section verdicts.
Context `{!IpNetCrate, !NftProgram Packet, !NftDocumented}.

Lemma first_blank rs p : first_verdict ("" :: rs) p = first_verdict rs p.
Proof.
  cbn [first_verdict]. change (words "") with (@nil string).
  by rewrite (rule_reads _ _ _ p reads_nothing).
Qed.

Lemma first_rule ws f v rs p :
  reads ws f v -> Forall word ws ->
  first_verdict (rule ws :: rs) p =
  match (if f p then v else None) with Some v => Some v | None => first_verdict rs p end.
Proof.
  intros Hr Hw. cbn [first_verdict]. unfold rule. rewrite words_join by done.
  by rewrite (rule_reads _ _ _ p Hr).
Qed.

Lemma silent_rule ws f p :
  reads ws f None -> Forall word ws -> rule_verdict (words (rule ws)) p = None.
Proof.
  intros Hr Hw. unfold rule. rewrite words_join by done.
  rewrite (rule_reads _ _ _ p Hr). by destruct (f p).
Qed.
End verdicts.

(** ** The words of the rules *)

Lemma word_app s t : word s -> str_forallb visible t = true -> word (s +:+ t).
Proof.
  intros [Hne Hs] Ht. split; [by destruct s|]. by rewrite str_forallb_app, Hs.
Qed.

Lemma digit_is_visible c : is_ascii_digit c = true -> visible c = true.
Proof. apply digit_visible. Qed.

Lemma word_number n : word (show_N n).
Proof. split; [apply show_N_nonempty|]. apply show_N_forallb, digit_visible. Qed.

Lemma word_address a : word (show_ipv4 a).
Proof. split; [apply show_ipv4_nonempty|]. by apply show_ipv4_chars; [apply digit_visible|]. Qed.

Lemma hex_visible c : is_ascii_hexdigit c = true -> visible c = true.
Proof.
  unfold is_ascii_hexdigit, is_ascii_digit, visible, in_range. intros Hc.
  repeat (apply orb_true_iff in Hc as [Hc|Hc]); simplify_bools;
    apply andb_true_iff; split; apply N.leb_le; lia.
Qed.

Lemma alphanumeric_visible c : is_ascii_alphanumeric c = true -> visible c = true.
Proof.
  unfold is_ascii_alphanumeric, is_ascii_alphabetic, is_ascii_uppercase, is_ascii_lowercase,
    is_ascii_digit, visible, in_range.
  intros Hc. repeat (apply orb_true_iff in Hc as [Hc|Hc]); simplify_bools;
    apply andb_true_iff; split; apply N.leb_le; lia.
Qed.

Lemma plain_visible c : plain_char c = true -> visible c = true.
Proof.
  unfold plain_char. intros [Hc|Hc]%orb_true_iff; [by apply alphanumeric_visible|].
  cbn [existsb] in Hc. rewrite orb_false_r in Hc.
  repeat (apply orb_true_iff in Hc as [Hc|Hc]); apply Ascii.eqb_eq in Hc as ->; done.
Qed.

Lemma word_address6 a : word (show_ipv6 a).
Proof.
  split; [|by apply show_ipv6_chars; [apply hex_visible| |]].
  unfold show_ipv6. destruct (_ =? _)%N; [discriminate|].
  destruct (longest_zeroes _ _ _ _) as [start len]. destruct (1 <? len)%nat.
  - destruct (join ":" (show_hex16 <$> take start (ipv6_segments a))); discriminate.
  - unfold ipv6_segments. cbn [seq fmap list_fmap join String.concat].
    intros E%(f_equal String.length). rewrite !str_length_app in E. cbn [String.length] in E. lia.
Qed.

Lemma word_quoted i : plain i -> word (quoted i).
Proof.
  intros [_ Hi]. split; [done|]. unfold quoted. rewrite !str_forallb_app.
  rewrite (str_forallb_impl _ visible _ plain_visible Hi). done.
Qed.

Lemma str_take_forallb p n s : str_forallb p s = true -> str_forallb p (str_take n s) = true.
Proof.
  destruct (str_take_prefix n s) as [t Ht]. rewrite Ht at 1. rewrite str_forallb_app. by intros [? _]%andb_true_iff.
Qed.

Lemma str_filter_forallb p s : str_forallb p (str_filter p s) = true.
Proof.
  unfold str_filter, str_forallb, chars, of_chars. rewrite String.list_ascii_of_string_of_list_ascii.
  apply forallb_elem. intros x. by intros [_ Hx]%elem_of_bfilter.
Qed.

(** Whatever the identifier of a container is, the name of its counter is a word. *)
Lemma word_counter direction id : word direction -> word (client_counter_name direction id).
Proof.
  intros [_ Hd]. split; [done|]. unfold client_counter_name. rewrite !str_forallb_app, Hd.
  rewrite str_take_forallb; [done|]. eapply str_forallb_impl; [apply alphanumeric_visible|].
  apply str_filter_forallb.
Qed.

Lemma word_dnat a port : word (show_ipv4 a +:+ ":" +:+ show_N port).
Proof.
  apply word_app; [apply word_address|]. rewrite str_forallb_app. by destruct (word_number port) as [_ ->].
Qed.

Section networks.
Context `{!IpNetCrate, !IpNetText}.

Lemma word_net n : word (ipv4net_show n).
Proof.
  rewrite ipv4net_show_text. apply word_app; [apply word_address|].
  rewrite str_forallb_app. by destruct (word_number (ipv4net_prefix_len n)) as [_ ->].
Qed.

Lemma word_net6 n : word (ipv6net_show n).
Proof.
  destruct (ipv6net_show_text n) as [a ->]. apply word_app; [apply word_address6|].
  rewrite str_forallb_app. by destruct (word_number (ipv6net_prefix_len n)) as [_ ->].
Qed.
End networks.

Create HintDb words.
#[export] Hint Resolve word_number word_address word_address6 word_quoted word_counter word_dnat
  word_net word_net6 : words.
#[export] Hint Extern 3 (word _) => (split; [discriminate|vm_compute; reflexivity]) : words.

(** Every word of a literal list is a word. *)
Ltac solve_words := repeat apply list.Forall_cons_2; [auto with words..|apply list.Forall_nil_2].

Lemma reads_udp_dns `{!IpNetCrate} ws f v :
  reads ws f v -> reads ("udp" :: "dport" :: "53" :: ws) (fun p => udp_to 53 p && f p) v.
Proof. by apply (reads_udp 53). Qed.
Lemma reads_tcp_dns `{!IpNetCrate} ws f v :
  reads ws f v -> reads ("tcp" :: "dport" :: "53" :: ws) (fun p => tcp_to 53 p && f p) v.
Proof. by apply (reads_tcp 53). Qed.
Lemma reads_tcp_web `{!IpNetCrate} ws f v :
  reads ws f v -> reads ("tcp" :: "dport" :: "8080" :: ws) (fun p => tcp_to 8080 p && f p) v.
Proof. by apply (reads_tcp 8080). Qed.
Lemma reads_udp_natpmp `{!IpNetCrate} ws f v :
  reads ws f v -> reads ("udp" :: "dport" :: "5351" :: ws) (fun p => udp_to 5351 p && f p) v.
Proof. by apply (reads_udp 5351). Qed.

(** The meaning of a literal list of words, clause by clause. *)
Ltac solve_reads :=
  repeat first
    [ exact reads_accept | exact reads_drop | exact reads_reject | exact reads_reject6
    | exact reads_masquerade | apply reads_counter | exact reads_nothing
    | apply reads_dnat; done
    | apply reads_not_iif; [done|] | apply reads_iif; [done|]
    | apply reads_not_oif; [done|] | apply reads_oif; [done|]
    | eapply reads_source_not_net; [eassumption|] | eapply reads_source_net; [eassumption|]
    | eapply reads_destination_not_net; [eassumption|] | eapply reads_destination_net; [eassumption|]
    | apply reads_source; [assumption|] | apply reads_destination; [assumption|]
    | apply reads_destination_not; [assumption|]
    | eapply reads_source6_not_net; [eassumption|] | eapply reads_source6_net; [eassumption|]
    | eapply reads_destination6_not_net; [eassumption|] | eapply reads_destination6_net; [eassumption|]
    | apply reads_source6; [assumption|] | apply reads_destination6; [assumption|]
    | apply reads_established | apply reads_ipv6 | apply reads_neighbor
    | apply reads_udp_dns | apply reads_tcp_dns | apply reads_tcp_web | apply reads_udp_natpmp
    | apply reads_udp; [done|] | apply reads_tcp; [done|] ].

(** ** The chains *)

Section chains.
Context `{!IpNetCrate, !IpNetText, !NftProgram Packet, !NftDocumented}.
Context (c : Config) (port_forwards : list Dnat) (counters : list ClientCounterRule).
Context (Hplain : plain c.(c_wireguard).(wc_interface)) (Hread : readable c port_forwards counters).

Lemma plain_lo : plain "lo".
Proof. done. Qed.

Ltac rules := unfold subnet, tunnel, gateway; repeat apply list.Forall_cons_2;
  [first [by left | right; eexists; split; [reflexivity|solve_words]] ..|apply list.Forall_nil_2].

Lemma download_rules : Forall rule_line (download_counters c counters).
Proof.
  apply Forall_bind, Forall_true. intros client. cbv beta zeta delta [compose].
  case_match; rules.
Qed.
Lemma upload_rules : Forall rule_line (upload_counters c counters).
Proof.
  apply Forall_bind, Forall_true. intros client. cbv beta zeta delta [compose].
  case_match; rules.
Qed.

Lemma ipv6_lines (f : string -> list string) :
  (forall v, ipv6_routing c.(c_network) = Some v -> Forall rule_line (f (ipv6net_show v.(i6_subnet)))) ->
  Forall rule_line (match ipv6_subnet c with Some s => f s | None => [] end).
Proof.
  intros Hf. unfold ipv6_subnet. destruct (ipv6_routing _) as [v|]; [by apply Hf|constructor].
Qed.

Lemma forward_rules : Forall rule_line (forward_chain c counters).
Proof.
  unfold forward_chain. repeat apply Forall_app_2.
  - apply download_rules.
  - apply upload_rules.
  - rules.
  - rules.
  - unfold ipv6_leak_guard. apply (ipv6_lines (fun s => _)). intros v _. rules.
  - rules.
  - unfold ipv6_forward. apply (ipv6_lines (fun s => _)). intros v _. rules.
Qed.

Lemma input_rules : Forall rule_line (input_chain c).
Proof.
  pose proof plain_lo. unfold input_chain. repeat apply Forall_app_2.
  - rules.
  - unfold ipv6_input. apply (ipv6_lines (fun s => _)). intros v _. rules.
  - rules.
  - unfold natpmp_input. case_bool_decide; [rules|constructor].
  - rules.
Qed.

Lemma postrouting_rules : Forall rule_line (postrouting_chain c).
Proof.
  unfold postrouting_chain. apply list.Forall_cons_2; [right; eexists; split; [reflexivity|unfold subnet, tunnel; solve_words]|].
  unfold ipv6_postrouting. apply (ipv6_lines (fun s => _)). intros v _. rules.
Qed.

Lemma prerouting_rules : Forall rule_line (dnat_rules c port_forwards).
Proof.
  apply Forall_bind, Forall_true. intros [[tunnel_port target] target_port]. cbn [fmap list_fmap]. rules.
Qed.

(** Both sides are tests on a packet: decide them. *)
Ltac decide_tests p :=
  unfold enrolled, from_tunnel, to_tunnel, plain_dns, source4, destination4, source6, destination6, is_ipv6;
  destruct (header p) as [s d|s d]; cbn [andb orb negb];
  repeat match goal with
  | |- context [ipv4net_contains ?n ?a] => destruct (ipv4net_contains n a); cbn [andb orb negb]; try done
  | |- context [ipv6net_contains ?n ?a] => destruct (ipv6net_contains n a); cbn [andb orb negb]; try done
  | |- context [String.eqb ?i ?j] => destruct (String.eqb i j); cbn [andb orb negb]; try done
  | |- context [established p] => destruct (established p); cbn [andb orb negb]; try done
  | |- context [udp_to ?n p] => destruct (udp_to n p); cbn [andb orb negb]; try done
  | |- context [tcp_to ?n p] => destruct (tcp_to n p); cbn [andb orb negb]; try done
  | |- context [neighbor_discovery p] => destruct (neighbor_discovery p); cbn [andb orb negb]; try done
  | |- context [N.eqb ?a ?b] => destruct (N.eqb a b); cbn [andb orb negb]; try done
  end.

(** One rule after the other, to a test on the packet. *)
Ltac run_rules :=
  repeat first
    [ rewrite first_blank
    | erewrite first_rule; [|solve_reads|solve_words] ];
  cbn [first_verdict].

Lemma counters_silent p :
  first_verdict (download_counters c counters ++ upload_counters c counters) p = None.
Proof.
  destruct Hread as [_ _ _ _ _ Hclients]. apply first_verdict_None, Forall_app_2;
    unfold download_counters, upload_counters, tunnel; apply Forall_bind;
    (eapply list.Forall_impl; [exact Hclients|]); intros client [Ha H6]; cbv beta zeta;
    (apply list.Forall_cons_2; [eapply silent_rule; [solve_reads|solve_words]|]);
    unfold client_ipv6; destruct (ipv6_subnet c); [|constructor| |constructor];
    (destruct (cr_ipv6_address client) as [a|]; [|constructor]); specialize (H6 a eq_refl);
    (apply list.Forall_cons_2; [eapply silent_rule; [solve_reads|solve_words]|constructor]).
Qed.

Lemma forward_verdict p :
  default Drop (first_verdict (forward_chain c counters) p) = forward_policy c p.
Proof.
  destruct Hread as [Hsub H6 Hgw _ _ _].
  unfold forward_chain. rewrite app_assoc, first_verdict_app, counters_silent.
  unfold ipv6_leak_guard, ipv6_forward, ipv6_subnet, forward_policy, subnet, tunnel, gateway.
  destruct (ipv6_routing (c_network c)) as [v|]; cbn [fmap option_fmap option_map app].
  - specialize (H6 v eq_refl). run_rules. decide_tests p.
  - run_rules. decide_tests p.
Qed.

Lemma input_verdict p :
  default Drop (first_verdict (input_chain c) p) = input_policy c p.
Proof.
  pose proof plain_lo. destruct Hread as [Hsub _ _ Hnatpmp _ _].
  unfold input_chain, ipv6_input, natpmp_input, ipv6_subnet, input_policy, subnet, tunnel.
  destruct (ipv6_routing (c_network c)) as [v|]; case_bool_decide;
    cbn [fmap option_fmap option_map app]; run_rules; decide_tests p.
Qed.

Lemma postrouting_verdict p :
  default Accept (first_verdict (postrouting_chain c) p) = postrouting_policy c p.
Proof.
  destruct Hread as [Hsub H6 _ _ _ _].
  unfold postrouting_chain, ipv6_postrouting, ipv6_subnet, postrouting_policy, subnet, tunnel.
  destruct (ipv6_routing (c_network c)) as [v|]; cbn [fmap option_fmap option_map app].
  - specialize (H6 v eq_refl). run_rules. decide_tests p.
  - run_rules. decide_tests p.
Qed.

Lemma prerouting_verdict p :
  default Accept (first_verdict (dnat_rules c port_forwards) p) = prerouting_policy c port_forwards p.
Proof.
  destruct Hread as [_ _ _ _ Hleases _]. clear Hread. unfold prerouting_policy, lease_of.
  induction Hleases as [|[[tunnel_port target] target_port] leases (Hp & Ht & Htp) _ IH]; [done|].
  unfold dnat_rules, tunnel in *. cbn [mbind list_bind fmap list_fmap app List.find] in *.
  run_rules. unfold from_tunnel in *.
  destruct (String.eqb _ _), (tcp_to _ _), (udp_to _ _), (is_ipv6 p); done || exact IH.
Qed.

(** ** The file *)

Lemma counter_object_line direction client packets bytes :
  word direction ->
  let l := "  counter " +:+ client_counter_name direction client +:+ " { packets " +:+ show_N packets
           +:+ " bytes " +:+ show_N bytes +:+ "; }" in
  line_ok l /\ starts_with l "  c" = true /\ starts_with l "  ch" = false.
Proof.
  intros Hd. cbv zeta. split; [|done]. apply printable_line.
  assert (forall s, word s -> str_forallb printable s = true) as Hw.
  { intros s [_ Hs]. eapply str_forallb_impl; [|exact Hs]. intros x Hx. unfold printable. by rewrite Hx. }
  rewrite !str_forallb_app, (Hw _ (word_counter _ client Hd)), !(Hw _ (word_number _)). done.
Qed.

Definition object_line (l : string) : Prop :=
  line_ok l /\ starts_with l "  c" = true /\ starts_with l "  ch" = false.

Lemma counter_object_lines : Forall object_line (counter_objects counters).
Proof.
  apply Forall_bind, Forall_true. intros client. cbv beta zeta delta [compose].
  repeat apply list.Forall_cons_2; [..|apply list.Forall_nil_2];
    apply counter_object_line; split; done.
Qed.

Lemma before_chains l m :
  object_line l -> starts_with m "  ch" = true -> l <> m.
Proof. by intros (_ & _ & Hl) Hm ->; rewrite Hl in Hm. Qed.

Lemma firewall_lines : lines (render_gateway_firewall c port_forwards counters)
  = gateway_firewall_lines c port_forwards counters.
Proof.
  apply lines_unlines.
  assert (forall l, Forall rule_line l -> Forall line_ok l) as Hr.
  { intros l Hl. eapply list.Forall_impl; [exact Hl|apply rule_line_ok]. }
  assert (Forall line_ok (counter_objects counters)) as Ho.
  { eapply list.Forall_impl; [apply counter_object_lines|]. by intros l [Hl _]. }
  assert (forall l, str_forallb printable l = true -> line_ok l) as Hp by apply printable_line.
  unfold gateway_firewall_lines.
  rewrite !list.Forall_app. repeat match goal with |- _ /\ _ => split end;
    first [ exact Ho | apply Hr, input_rules | apply Hr, forward_rules | apply Hr, postrouting_rules
          | apply Hr, prerouting_rules
          | repeat apply list.Forall_cons_2; [apply Hp; reflexivity ..|apply list.Forall_nil_2] ].
Qed.

Lemma rules_not l m :
  Forall rule_line l -> starts_with m "   " = false -> m <> "" -> Forall (fun x => x <> m) l.
Proof. intros Hl Hm Hne. eapply list.Forall_impl; [exact Hl|]. intros x Hx. by apply rule_line_not. Qed.

Lemma objects_not m :
  starts_with m "  ch" = true -> Forall (fun x => x <> m) (counter_objects counters).
Proof. intros Hm. eapply list.Forall_impl; [apply counter_object_lines|]. intros x Hx. by apply before_chains. Qed.

(** No line of a part of the file is the marker. *)
Ltac no_marker :=
  lazymatch goal with
  | |- Forall _ [] => apply list.Forall_nil_2
  | |- Forall _ (_ :: _) => apply list.Forall_cons_2; [discriminate|no_marker]
  | |- Forall _ (_ ++ _) => apply Forall_app_2; no_marker
  | |- Forall _ (counter_objects _) => by apply objects_not
  | |- Forall _ _ =>
      by apply rules_not; [first [apply input_rules | apply forward_rules | apply postrouting_rules
                                 | apply prerouting_rules]|..]
  end.

Notation text := (render_gateway_firewall c port_forwards counters).
Notation before_input := (["table inet egressy {"] ++ counter_objects counters ++ [""]).
Notation input_lines := ("    type filter hook input priority 0; policy drop;" :: input_chain c).
Notation before_forward := (before_input ++ "  chain input {" :: input_lines ++ ["  }"]).
Notation forward_lines :=
  ("    type filter hook forward priority 0; policy drop;" :: forward_chain c counters).
Notation before_postrouting := (before_forward ++ "  chain forward {" :: forward_lines ++ ["  }"]).
Notation postrouting_lines :=
  ("    type nat hook postrouting priority srcnat; policy accept;" :: postrouting_chain c).
Notation before_prerouting := (before_postrouting ++ "  chain postrouting {" :: postrouting_lines ++ ["  }"]).
Notation prerouting_lines :=
  ("    type nat hook prerouting priority dstnat; policy accept;" :: dnat_rules c port_forwards).

(** The file up to the association of its parts. *)
Ltac same_lines :=
  rewrite firewall_lines; unfold gateway_firewall_lines;
  repeat (cbn [app]; rewrite <- ?app_assoc); reflexivity.

Lemma input_chain_lines : chain_lines "input" text = input_lines.
Proof.
  apply (chain_lines_at "input" _ before_input _
           ("  chain forward {" :: forward_lines ++ "  }" :: "  chain postrouting {" :: postrouting_lines
            ++ "  }" :: "  chain prerouting {" :: prerouting_lines ++ ["  }"; "}"])).
  - same_lines.
  - no_marker.
  - no_marker.
Qed.

Lemma forward_chain_lines : chain_lines "forward" text = forward_lines.
Proof.
  apply (chain_lines_at "forward" _ before_forward _
           ("  chain postrouting {" :: postrouting_lines
            ++ "  }" :: "  chain prerouting {" :: prerouting_lines ++ ["  }"; "}"])).
  - same_lines.
  - no_marker.
  - no_marker.
Qed.

Lemma postrouting_chain_lines : chain_lines "postrouting" text = postrouting_lines.
Proof.
  apply (chain_lines_at "postrouting" _ before_postrouting _
           ("  chain prerouting {" :: prerouting_lines ++ ["  }"; "}"])).
  - same_lines.
  - no_marker.
  - no_marker.
Qed.

Lemma prerouting_chain_lines : chain_lines "prerouting" text = prerouting_lines.
Proof.
  apply (chain_lines_at "prerouting" _ before_prerouting _ ["}"]).
  - same_lines.
  - no_marker.
  - no_marker.
Qed.
End chains.

Section meaning.
Context `{!IpNetCrate, !IpNetText, !NftProgram Packet, !NftDocumented}.

Lemma forward_meaning c port_forwards counters p :
  plain c.(c_wireguard).(wc_interface) -> readable c port_forwards counters ->
  chain_verdict "forward" (render_gateway_firewall c port_forwards counters) p
  = Some (forward_policy c p).
Proof.
  intros Hp Hr. unfold chain_verdict. rewrite forward_chain_lines by done.
  by rewrite <- (forward_verdict c port_forwards counters).
Qed.

Context `{!UrlCrate, !Files}.

Lemma accepted_interface c : validate c = Ok tt -> plain c.(c_wireguard).(wc_interface).
Proof. intros Hv%validate_passes. by destruct (passes_names _ Hv) as (_ & _ & ?). Qed.

(** C3: the firewall that the gateway writes means its policy.  Whatever the
    leases and the identifiers of the clients are, each chain of the rendered
    text gives every packet exactly the verdict of the abstract policy: the
    leak guard before the acceptance of established traffic, plain DNS to other
    servers refused, the tunnel as the only way out and in, everything else
    dropped; a packet to a leased port sent to the client of the first lease of
    that port; and what leaves through the tunnel masqueraded. *)
Theorem firewall_means_policy c port_forwards counters p :
  validate c = Ok tt -> readable c port_forwards counters ->
  let file := render_gateway_firewall c port_forwards counters in
  chain_verdict "input" file p = Some (input_policy c p)
  /\ chain_verdict "forward" file p = Some (forward_policy c p)
  /\ chain_verdict "prerouting" file p = Some (prerouting_policy c port_forwards p)
  /\ chain_verdict "postrouting" file p = Some (postrouting_policy c p).
Proof.
  intros Hp%accepted_interface Hr file. split_and!.
  - unfold chain_verdict, file. rewrite input_chain_lines by done.
    by rewrite <- (input_verdict c port_forwards counters).
  - by apply forward_meaning.
  - unfold chain_verdict, file. rewrite prerouting_chain_lines by done.
    by rewrite <- (prerouting_verdict c port_forwards counters).
  - unfold chain_verdict, file. rewrite postrouting_chain_lines by done.
    by rewrite <- (postrouting_verdict c port_forwards counters).
Qed.

(** C7: enrolled traffic has one way out.  A forwarded packet that the rendered
    rules accept, established or not, leaves the enrolled subnet only into the
    tunnel and enters it only from there; a new connection to a DNS server
    other than the gateway is not accepted at all; and without IPv6 routing no
    new IPv6 traffic is forwarded. *)
Theorem enrolled_traffic_contained c port_forwards counters p :
  validate c = Ok tt -> readable c port_forwards counters ->
  chain_verdict "forward" (render_gateway_firewall c port_forwards counters) p = Some Accept ->
  match p.(header) with
  | HV4 s d =>
      (enrolled c s = true -> enrolled c d = true \/ to_tunnel c p = true)
      /\ (enrolled c d = true -> enrolled c s = true \/ from_tunnel c p = true)
      /\ (enrolled c s = true -> plain_dns p = true -> p.(established) = false ->
          d = c.(c_network).(nc_gateway_ip))
  | HV6 s d =>
      match ipv6_routing c.(c_network) with
      | Some v =>
          let routed := ipv6net_contains v.(i6_subnet) in
          (routed s = true -> routed d = true \/ to_tunnel c p = true)
          /\ (routed d = true -> routed s = true \/ from_tunnel c p = true)
          /\ (routed s = true -> plain_dns p = true -> p.(established) = true)
      | None => p.(established) = true
      end
  end.
Proof.
  intros Hp%accepted_interface Hr. rewrite forward_meaning by done. intros [= Hv].
  unfold forward_policy in Hv. destruct (header p) as [s d|s d].
  - destruct (enrolled c s), (enrolled c d), (to_tunnel c p), (from_tunnel c p), (established p),
      (plain_dns p), (N.eqb_spec (nc_gateway_ip (c_network c)) d); try discriminate Hv;
      repeat split; intros; auto; congruence.
  - destruct (ipv6_routing (c_network c)) as [v|]; [|by destruct (established p)]. cbv zeta in *.
    destruct (ipv6net_contains _ s), (ipv6net_contains _ d), (to_tunnel c p), (from_tunnel c p),
      (established p), (plain_dns p); try discriminate Hv; repeat split; intros; auto; congruence.
Qed.
End meaning.

(** ** A firewall with a lease and a counted client *)

Definition example_leases : list Dnat := [(40000, 2887647242, 8080)%N].
Definition example_counters : list ClientCounterRule :=
  [Build_ClientCounterRule "3f0c" 2887647242 None 1 60 2 120].
Definition example_packet : Packet :=
  {| iif := "eth0"; oif := "wg0"; header := HV4 2887647242 16843009; transport := TcpTo 443;
     established := false |}.

Lemma example_readable : @readable CidrNet.crate example_config example_leases example_counters.
Proof.
  split.
  - change (CidrNet.parse 32 parse_ipv4 "172.30.0.0/24" = Some (CidrNet.Build_Cidr 2887647232 24)).
    vm_compute. reflexivity.
  - discriminate.
  - done.
  - done.
  - by repeat constructor.
  - repeat constructor. discriminate.
Qed.

Lemma example_accepted : @validate CidrNet.crate example_urls example_files example_config = Ok tt.
Proof. vm_compute. reflexivity. Qed.

Lemma firewall_means_policy_witness :
  @chain_verdict Packet (@SmallNft.program CidrNet.crate) "forward"
    (@render_gateway_firewall CidrNet.crate example_config example_leases example_counters) example_packet
  = Some Accept.
Proof.
  exact (proj1 (proj2 (@firewall_means_policy CidrNet.crate cidr_text SmallNft.program SmallNft.documented
    example_urls example_files example_config example_leases example_counters example_packet
    example_accepted example_readable))).
Defined.

Lemma enrolled_traffic_contained_witness : to_tunnel example_config example_packet = true.
Proof.
  assert (@chain_verdict Packet (@SmallNft.program CidrNet.crate) "forward"
    (@render_gateway_firewall CidrNet.crate example_config example_leases example_counters) example_packet
    = Some Accept) as Hv.
  { rewrite (@forward_meaning CidrNet.crate cidr_text SmallNft.program SmallNft.documented);
      [reflexivity|done|exact example_readable]. }
  destruct (proj1 (@enrolled_traffic_contained CidrNet.crate cidr_text SmallNft.program
    SmallNft.documented example_urls example_files example_config example_leases example_counters
    example_packet example_accepted example_readable Hv) eq_refl) as [Hd|Ht]; [discriminate Hd|exact Ht].
Defined.
