(* ===== verification/BridgeNft.v ===== *)
(** What the bridge ruleset of isolation.rs means: the frames of a bridge, the
    clauses of the nft language its rules use, and the theorem that the
    rendered text gives every frame the verdict of the isolation policy.

    As in Nft.v, nft is a program of the host: [bridge_reads] lists the clauses
    with their documented meaning, and [SmallBridge.program] is one evaluation
    that agrees with it. *)

From S2P Require Import Prelude RustStr Net StrFacts NetFacts BTree Isolation IsolationRender Host Nft HostProps.

Inductive Payload : Type :=
| Ip4 (source destination : Ipv4Addr)
| Ip6 (source destination : Ipv6Addr)
| Arp (sender : Ipv4Addr)
| OtherPayload.

Inductive Upper : Type :=
| ToPort (protocol : IsolationProtocol) (port : N)
| Icmp6 (kind : string)              (* the type, as nft names it *)
| OtherUpper.

Record Frame : Type := {
  ether_source : string;             (* as nft prints it *)
  payload : Payload;
  upper : Upper;
  known : bool;                      (* state established or related *)
  translated : bool;                 (* status dnat *)
}.

Definition from4 (q : Ipv4Addr -> bool) (f : Frame) : bool :=
  match f.(payload) with Ip4 s _ => q s | _ => false end.
Definition to4 (q : Ipv4Addr -> bool) (f : Frame) : bool :=
  match f.(payload) with Ip4 _ d => q d | _ => false end.
Definition from6 (q : Ipv6Addr -> bool) (f : Frame) : bool :=
  match f.(payload) with Ip6 s _ => q s | _ => false end.
Definition to6 (q : Ipv6Addr -> bool) (f : Frame) : bool :=
  match f.(payload) with Ip6 _ d => q d | _ => false end.
Definition arp_from (q : Ipv4Addr -> bool) (f : Frame) : bool :=
  match f.(payload) with Arp s => q s | _ => false end.
Definition to_port (protocol : IsolationProtocol) (port : N) (f : Frame) : bool :=
  match f.(upper) with ToPort pr n => bool_decide (pr = protocol) && (n =? port)%N | _ => false end.
Definition icmp6 (kinds : list string) (f : Frame) : bool :=
  match f.(upper) with Icmp6 k => existsb (String.eqb k) kinds | _ => false end.

(** The members of a set, as they are written. *)
Fixpoint commas (ws : list string) : list string :=
  match ws with
  | [] => []
  | [w] => [w]
  | w :: ws => (w +:+ ",") :: commas ws
  end.
Definition set_words (ws : list string) : list string := "{" :: commas ws ++ ["}"].

Section bridge.
Context `{!IpNetCrate}.

(** An address, a network or a set of addresses. *)
Inductive reads4 : list string -> (Ipv4Addr -> bool) -> Prop :=
| reads4_address a : (a < 2 ^ 32)%N -> reads4 [show_ipv4 a] (N.eqb a)
| reads4_net w n : ipv4net_parse w = Some n -> reads4 [w] (ipv4net_contains n)
| reads4_set l : Forall (fun a => a < 2 ^ 32)%N l ->
    reads4 (set_words (show_ipv4 <$> l)) (fun a => existsb (N.eqb a) l).

(** ... or everything but those. *)
Inductive operand4 : list string -> (Ipv4Addr -> bool) -> Prop :=
| operand4_is ws q : reads4 ws q -> operand4 ws q
| operand4_not ws q : reads4 ws q -> operand4 ("!=" :: ws) (fun a => negb (q a)).

(** A set of IPv6 networks. *)
Definition reads6 (ws : list string) (nets : list Ipv6Net) : Prop :=
  Forall2 (fun w n => ipv6net_parse w = Some n) ws nets /\ Forall (fun w => lacks "," w = true) ws.
Definition in_nets (nets : list Ipv6Net) (a : Ipv6Addr) : bool := existsb (fun n => ipv6net_contains n a) nets.

(** A word that names a type. *)
Definition kind_word (w : string) : Prop := word w /\ lacks "," w = true /\ w <> "}" /\ w <> "!=".

Inductive bridge_reads : list string -> (Frame -> bool) -> option Verdict -> Prop :=
| b_accept : bridge_reads ["accept"] (fun _ => true) (Some Accept)
| b_drop : bridge_reads ["drop"] (fun _ => true) (Some Drop)
| b_counter name ws f v : bridge_reads ws f v -> bridge_reads ("counter" :: "name" :: name :: ws) f v
| b_ip_source o q ws f v : operand4 o q -> bridge_reads ws f v ->
    bridge_reads ("ip" :: "saddr" :: o ++ ws) (fun p => from4 q p && f p) v
| b_ip_destination o q ws f v : operand4 o q -> bridge_reads ws f v ->
    bridge_reads ("ip" :: "daddr" :: o ++ ws) (fun p => to4 q p && f p) v
| b_arp_source o q ws f v : operand4 o q -> bridge_reads ws f v ->
    bridge_reads ("arp" :: "saddr" :: "ip" :: o ++ ws) (fun p => arp_from q p && f p) v
| b_ether m ws f v : normalize_mac m = Some m -> bridge_reads ws f v ->
    bridge_reads ("ether" :: "saddr" :: m :: ws) (fun p => String.eqb p.(ether_source) m && f p) v
| b_ether_not m ws f v : normalize_mac m = Some m -> bridge_reads ws f v ->
    bridge_reads ("ether" :: "saddr" :: "!=" :: m :: ws)
                 (fun p => negb (String.eqb p.(ether_source) m) && f p) v
| b_known ws f v : bridge_reads ws f v ->
    bridge_reads ("ct" :: "state" :: "established,related" :: ws) (fun p => p.(known) && f p) v
| b_translated ws f v : bridge_reads ws f v ->
    bridge_reads ("ct" :: "status" :: "dnat" :: ws) (fun p => p.(translated) && f p) v
| b_port protocol port ws f v : (port <= u16_MAX)%N -> bridge_reads ws f v ->
    bridge_reads (nft_name protocol :: "dport" :: show_N port :: ws) (fun p => to_port protocol port p && f p) v
| b_icmp6 kinds ws f v : Forall kind_word kinds -> bridge_reads ws f v ->
    bridge_reads ("icmpv6" :: "type" :: set_words kinds ++ ws) (fun p => icmp6 kinds p && f p) v
| b_ip6_source o nets ws f v : reads6 o nets -> bridge_reads ws f v ->
    bridge_reads ("ip6" :: "saddr" :: set_words o ++ ws) (fun p => from6 (in_nets nets) p && f p) v
| b_ip6_destination o nets ws f v : reads6 o nets -> bridge_reads ws f v ->
    bridge_reads ("ip6" :: "daddr" :: set_words o ++ ws) (fun p => to6 (in_nets nets) p && f p) v.

Class BridgeDocumented `{!NftProgram Frame} : Prop :=
  bridge_rule_reads : forall ws f v (p : Frame), bridge_reads ws f v -> rule_verdict ws p = if f p then v else None.
End bridge.

(** ** An evaluation that reads the clauses as documented *)

Module SmallBridge.
Section small.
Context `{!IpNetCrate}.

(** The members of a set up to the closing brace, and what follows. *)
Fixpoint take_set (ws : list string) : list string * list string :=
  match ws with
  | [] => ([], [])
  | w :: ws =>
      if String.eqb w "}" then ([], ws)
      else let '(ms, rest) := take_set ws in (default w (strip_suffix w ",") :: ms, rest)
  end.

Definition take_members (ws : list string) : list string * list string :=
  match ws with
  | w :: ws1 => if String.eqb w "{" then take_set ws1 else ([w], ws1)
  | [] => ([], [])
  end.

(** Whether some member, or none of them, passes the test. *)
Definition operand (test : string -> bool) (ws : list string) : bool * list string :=
  match ws with
  | w :: ws1 =>
      if String.eqb w "!=" then let '(ms, rest) := take_members ws1 in (negb (existsb test ms), rest)
      else let '(ms, rest) := take_members ws in (existsb test ms, rest)
  | [] => (false, [])
  end.

Definition on4 (side : string) (q : Ipv4Addr -> bool) (f : Frame) : bool :=
  (if String.eqb side "saddr" then from4 else to4) q f.
Definition on6 (side : string) (q : Ipv6Addr -> bool) (f : Frame) : bool :=
  (if String.eqb side "saddr" then from6 else to6) q f.

(** An operand that is tested on the address of the frame, if it has one. *)
Definition tested {A} (project : (A -> bool) -> Frame -> bool) (test : string -> A -> bool) (ws : list string)
    (f : Frame) : bool * list string :=
  (project (fun a => (operand (fun w => test w a) ws).1) f, (operand (fun _ => true) ws).2).

Definition port_is (protocol : IsolationProtocol) (w : string) (f : Frame) : bool :=
  match parse_u16 w with Some n => to_port protocol n f | None => false end.

Definition icmp6_operand (ws : list string) (f : Frame) : bool * list string :=
  let '(ms, rest) := take_members ws in (icmp6 ms f, rest).

Definition clause (f : Frame) (k : string) (ws : list string) : bool * list string :=
  if String.eqb k "counter" then (true, drop 2 ws)
  else if String.eqb k "ct" then
    (if String.eqb (hd "" ws) "state" then f.(known) else f.(translated), drop 2 ws)
  else if String.eqb k "ether" then operand (String.eqb f.(ether_source)) (drop 1 ws)
  else if String.eqb k "ip" then tested (on4 (hd "" ws)) SmallNft.in4 (drop 1 ws) f
  else if String.eqb k "arp" then tested arp_from SmallNft.in4 (drop 2 ws) f
  else if String.eqb k "ip6" then tested (on6 (hd "" ws)) SmallNft.in6 (drop 1 ws) f
  else if String.eqb k "tcp" then (port_is Tcp (hd "" (drop 1 ws)) f, drop 2 ws)
  else if String.eqb k "udp" then (port_is Udp (hd "" (drop 1 ws)) f, drop 2 ws)
  else if String.eqb k "icmpv6" then icmp6_operand (drop 1 ws) f
  else (false, []).

Fixpoint run (fuel : nat) (ws : list string) (f : Frame) : option Verdict :=
  match fuel, ws with
  | S fuel, k :: ws =>
      if String.eqb k "accept" then Some Accept
      else if String.eqb k "drop" then Some Drop
      else let '(matches, ws) := clause f k ws in if matches then run fuel ws f else None
  | _, _ => None
  end.

Definition program : NftProgram Frame := fun ws f => run (length ws) ws f.

Lemma run_bridge_clause fuel k ws f m ws' (g : Frame -> bool) v :
  String.eqb k "accept" = false -> String.eqb k "drop" = false ->
  clause f k ws = (m, ws') -> (S (length ws') <= fuel)%nat ->
  (forall fuel, (length ws' <= fuel)%nat -> run fuel ws' f = if g f then v else None) ->
  run fuel (k :: ws) f = if m && g f then v else None.
Proof.
  intros Ha Hd Hc Hlen IH. destruct fuel as [|fuel]; [lia|]. cbn [run]. rewrite Ha, Hd, Hc.
  destruct m; [|done]. apply IH. lia.
Qed.

(** A word that can stand in a set. *)
Definition member (w : string) : Prop := lacks "," w = true /\ w <> "}".

Lemma take_set_commas ms ws : Forall member ms -> take_set (commas ms ++ "}" :: ws) = (ms, ws).
Proof.
  induction 1 as [|w ms [Hc Hw] Hms IH]; [done|]. destruct ms as [|w' ms].
  - cbn [commas app take_set]. by rewrite (proj2 (String.eqb_neq _ _) Hw), (strip_suffix_lacks "," w Hc).
  - change (commas (w :: w' :: ms)) with ((w +:+ ",") :: commas (w' :: ms)). cbn [app take_set].
    assert (w +:+ "," <> "}") as Hne.
    { intros E%(f_equal chars). rewrite chars_app in E. destruct (chars w) as [|c [|]]; discriminate E. }
    rewrite (proj2 (String.eqb_neq _ _) Hne), IH, strip_suffix_char. done.
Qed.

Lemma take_members_set ms ws : Forall member ms -> take_members (set_words ms ++ ws) = (ms, ws).
Proof.
  intros Hms. unfold set_words. cbn [app take_members]. rewrite String.eqb_refl, <- app_assoc.
  by apply take_set_commas.
Qed.

Lemma take_members_word w ws : w <> "{" -> take_members (w :: ws) = ([w], ws).
Proof. intros Hw. unfold take_members. by rewrite (proj2 (String.eqb_neq _ _) Hw). Qed.

Lemma operand_members test o ws ms :
  head o <> Some "!=" -> o <> [] -> take_members (o ++ ws) = (ms, ws) ->
  operand test (o ++ ws) = (existsb test ms, ws).
Proof.
  intros Hh Hne Hm. destruct o as [|w o]; [done|]. cbn [app head operand] in *.
  rewrite (proj2 (String.eqb_neq w "!=")) by congruence. by rewrite Hm.
Qed.

Lemma operand_excluded test o ws ms :
  take_members (o ++ ws) = (ms, ws) -> operand test ("!=" :: o ++ ws) = (negb (existsb test ms), ws).
Proof. intros Hm. cbn [operand]. by rewrite String.eqb_refl, Hm. Qed.

Context `{!IpNetText}.

Lemma address_member a : member (show_ipv4 a).
Proof.
  split; [by apply SmallNft.show_ipv4_lacks|]. intros E.
  pose proof (SmallNft.show_ipv4_lacks "}" a eq_refl eq_refl) as Hl. by rewrite E in Hl.
Qed.

(** The operand's members, none of which is taken for a mark. *)
Lemma reads4_members o q ws :
  reads4 o q -> head o <> Some "!=" /\ o <> []
  /\ exists ms, take_members (o ++ ws) = (ms, ws) /\ forall a, existsb (fun w => SmallNft.in4 w a) ms = q a.
Proof.
  intros Hr. destruct Hr as [a Ha|w n Hn|l Hl].
  - split_and!; [|done|].
    + intros [= E]. by apply (SmallNft.address_not_mark a).
    + eexists. split.
      * cbn [app]. apply take_members_word. intros E.
        pose proof (SmallNft.show_ipv4_lacks "{" a eq_refl eq_refl) as Hc. by rewrite E in Hc.
      * intros b. cbn [existsb]. by rewrite orb_false_r, SmallNft.in4_address.
  - split_and!; [|done|].
    + intros [= E]. by apply (SmallNft.net4_not_mark w n).
    + eexists. split.
      * cbn [app]. apply take_members_word. intros ->. apply ipv4net_parse_slash in Hn. discriminate.
      * intros b. cbn [existsb]. by rewrite orb_false_r, (SmallNft.in4_net w n Hn).
  - split_and!; [done..|]. eexists. split.
    + apply take_members_set. apply list.Forall_fmap, list.Forall_true. intros a. apply address_member.
    + intros b. induction Hl as [|a l Ha Hl IH]; [done|]. cbn [fmap list_fmap existsb].
      rewrite SmallNft.in4_address by done. rewrite IH. f_equal. apply N.eqb_sym.
Qed.

Lemma operand4_operand o q ws a :
  operand4 o q ->
  (operand (fun w => SmallNft.in4 w a) (o ++ ws)).1 = q a /\ (operand (fun _ => true) (o ++ ws)).2 = ws.
Proof.
  intros [o' q' Hr|o' q' Hr]; destruct (reads4_members _ _ ws Hr) as (Hh & Hne & ms & Hm & Hq).
  - rewrite !(operand_members _ _ _ _ Hh Hne Hm). by rewrite Hq.
  - cbn [app]. rewrite !(operand_excluded _ _ _ _ Hm). by rewrite Hq.
Qed.

Lemma tested4 (project : (Ipv4Addr -> bool) -> Frame -> bool) o q ws f :
  (forall q q' : Ipv4Addr -> bool, (forall a, q a = q' a) -> project q f = project q' f) ->
  operand4 o q -> tested project SmallNft.in4 (o ++ ws) f = (project q f, ws).
Proof.
  intros Hext Ho. unfold tested. f_equal; [|by apply (operand4_operand o q ws 0%N)].
  apply Hext. intros a. by apply operand4_operand.
Qed.

Lemma from4_ext q q' f : (forall a, q a = q' a) -> from4 q f = from4 q' f.
Proof. intros He. unfold from4. by destruct (payload f). Qed.
Lemma to4_ext q q' f : (forall a, q a = q' a) -> to4 q f = to4 q' f.
Proof. intros He. unfold to4. by destruct (payload f). Qed.
Lemma arp_from_ext q q' f : (forall a, q a = q' a) -> arp_from q f = arp_from q' f.
Proof. intros He. unfold arp_from. by destruct (payload f). Qed.

Lemma reads6_members o nets ws : reads6 o nets -> take_members (set_words o ++ ws) = (o, ws).
Proof.
  intros [Hn Hc]. apply take_members_set. revert Hc. induction Hn as [|w n o nets Hw Hn IH]; [constructor|].
  intros [Hc Ho]%list.Forall_cons. constructor; [|by apply IH].
  split; [done|]. intros ->. apply ipv6net_parse_slash in Hw. discriminate.
Qed.

Lemma tested6 (project : (Ipv6Addr -> bool) -> Frame -> bool) o nets ws f :
  (forall q q' : Ipv6Addr -> bool, (forall a, q a = q' a) -> project q f = project q' f) ->
  reads6 o nets -> tested project SmallNft.in6 (set_words o ++ ws) f = (project (in_nets nets) f, ws).
Proof.
  intros Hext Ho. pose proof (reads6_members o nets ws Ho) as Hm.
  assert (forall test, operand test (set_words o ++ ws) = (existsb test o, ws)) as Hop
    by (intros test; by apply operand_members).
  unfold tested. rewrite Hop. f_equal. apply Hext. intros a. rewrite Hop. cbn [fst].
  destruct Ho as [Hn _]. unfold in_nets. clear Hop Hm.
  induction Hn as [|w n o nets Hw Hn IH]; [done|]. cbn [existsb]. by rewrite (SmallNft.in6_net w n Hw), IH.
Qed.

Lemma from6_ext q q' f : (forall a, q a = q' a) -> from6 q f = from6 q' f.
Proof. intros He. unfold from6. by destruct (payload f). Qed.
Lemma to6_ext q q' f : (forall a, q a = q' a) -> to6 q f = to6 q' f.
Proof. intros He. unfold to6. by destruct (payload f). Qed.

Lemma ether_operand m ws e : normalize_mac m = Some m -> operand (String.eqb e) (m :: ws) = (String.eqb e m, ws).
Proof.
  intros Hm. rewrite (operand_members _ [m] ws [m]); [cbn; by rewrite orb_false_r| |done|].
  - intros [= ->]. discriminate Hm.
  - cbn [app]. apply take_members_word. intros ->. discriminate Hm.
Qed.

Lemma ether_operand_not m ws e :
  normalize_mac m = Some m -> operand (String.eqb e) ("!=" :: m :: ws) = (negb (String.eqb e m), ws).
Proof.
  intros Hm. rewrite (operand_excluded _ [m] ws [m]); [cbn; by rewrite orb_false_r|].
  cbn [app]. apply take_members_word. intros ->. discriminate Hm.
Qed.

Lemma port_clause protocol port ws f :
  (port <= u16_MAX)%N ->
  clause f (nft_name protocol) ("dport" :: show_N port :: ws) = (to_port protocol port f, ws).
Proof.
  intros Hp.
  assert (forall pr, port_is pr (show_N port) f = to_port pr port f) as He.
  { intros pr. unfold port_is, parse_u16. by rewrite parse_uint_show. }
  destruct protocol; unfold clause; cbn -[show_N port_is]; by rewrite He, ?drop_0.
Qed.

Lemma kind_members kinds : Forall kind_word kinds -> Forall member kinds.
Proof. intros Hk. eapply list.Forall_impl; [exact Hk|]. by intros k (_ & ? & ? & _). Qed.

Lemma set_words_length ms ws : length ws <= length (set_words ms ++ ws).
Proof. rewrite length_app. lia. Qed.

Ltac step_clause Hc IH :=
  eapply run_bridge_clause; [reflexivity|reflexivity|exact Hc
    |cbn [length] in *; rewrite ?length_app in *; cbn [length] in *; lia
    |intros ? ?; apply IH; cbn [length] in *; lia].

Lemma run_bridge_reads ws g v f fuel :
  bridge_reads ws g v -> (length ws <= fuel)%nat -> run fuel ws f = if g f then v else None.
Proof.
  intros Hr. revert fuel. induction Hr as [| |name ws g v Hr IH|o q ws g v Ho Hr IH|o q ws g v Ho Hr IH
    |o q ws g v Ho Hr IH|m ws g v Hm Hr IH|m ws g v Hm Hr IH|ws g v Hr IH|ws g v Hr IH|protocol port ws g v Hp Hr IH
    |kinds ws g v Hk Hr IH|o nets ws g v Ho Hr IH|o nets ws g v Ho Hr IH]; intros fuel Hlen.
  1, 2: destruct fuel; [cbn in Hlen; lia|done].
  - assert (clause f "counter" ("name" :: name :: ws) = (true, ws)) as Hc by (unfold clause; cbn; by rewrite ?drop_0).
    change (g f) with (true && g f). step_clause Hc IH.
  - step_clause (tested4 from4 o q ws f (fun q q' => from4_ext q q' f) Ho) IH.
  - step_clause (tested4 to4 o q ws f (fun q q' => to4_ext q q' f) Ho) IH.
  - step_clause (tested4 arp_from o q ws f (fun q q' => arp_from_ext q q' f) Ho) IH.
  - step_clause (ether_operand m ws f.(ether_source) Hm) IH.
  - step_clause (ether_operand_not m ws f.(ether_source) Hm) IH.
  - assert (clause f "ct" ("state" :: "established,related" :: ws) = (known f, ws)) as Hc by (unfold clause; cbn; by rewrite ?drop_0).
    step_clause Hc IH.
  - assert (clause f "ct" ("status" :: "dnat" :: ws) = (translated f, ws)) as Hc by (unfold clause; cbn; by rewrite ?drop_0).
    step_clause Hc IH.
  - eapply run_bridge_clause; [by destruct protocol|by destruct protocol|by apply port_clause| |].
    + cbn in *. lia.
    + intros ? ?. apply IH. cbn in *. lia.
  - assert (clause f "icmpv6" ("type" :: set_words kinds ++ ws) = (icmp6 kinds f, ws)) as Hc.
    { change (icmp6_operand (set_words kinds ++ ws) f = (icmp6 kinds f, ws)). unfold icmp6_operand.
      by rewrite (take_members_set kinds ws (kind_members kinds Hk)). }
    step_clause Hc IH.
  - step_clause (tested6 from6 o nets ws f (fun q q' => from6_ext q q' f) Ho) IH.
  - step_clause (tested6 to6 o nets ws f (fun q q' => to6_ext q q' f) Ho) IH.
Qed.

#[export] Instance documented : @BridgeDocumented _ program.
Proof. intros ws g v f Hr. by apply run_bridge_reads. Qed.
End small.
End SmallBridge.

(** ** The rules, word by word *)

Section rules.
Context `{!IpNetCrate}.

Definition ending (mode : IsolationMode) : Verdict := match mode with Enforce => Drop | _ => Accept end.

Definition pair_words (mode : IsolationMode) (pair : IsolationParticipant * IsolationParticipant) : list string :=
  ["ip"; "saddr"; show_ipv4 pair.1.(pt_ipv4_address); "ip"; "daddr"; show_ipv4 pair.2.(pt_ipv4_address);
   "counter"; "name"; pair_counter_name pair.1.(pt_container_id) pair.2.(pt_container_id); verdict mode].

Definition allowance_words (sa : IsolationParticipant * IsolationAllowance) : list string :=
  ["ip"; "saddr"; show_ipv4 sa.1.(pt_ipv4_address); "ip"; "daddr"; show_ipv4 sa.2.(al_destination_address);
   nft_name sa.2.(al_protocol); "dport"; show_N sa.2.(al_port); "accept"].

Definition spoofed_words (matches : list string) : list string :=
  matches ++ ["counter"; "name"; "isolation_spoofed"; "drop"].

(** The canonical MAC a participant is bound to. *)
Definition bound_to (p : IsolationParticipant) : option string := p.(pt_mac) ≫= normalize_mac.

Definition binding_words (gateway : option Ipv4Addr) (p : IsolationParticipant) : list (list string) :=
  match bound_to p with
  | None => []
  | Some mac =>
      let a := show_ipv4 p.(pt_ipv4_address) in
      [spoofed_words ["ip"; "saddr"; a; "ether"; "saddr"; "!="; mac];
       spoofed_words ["arp"; "saddr"; "ip"; a; "ether"; "saddr"; "!="; mac]]
      ++ if bool_decide (gateway = Some p.(pt_ipv4_address)) then []
         else [spoofed_words ["ether"; "saddr"; mac; "ip"; "saddr"; "!="; a];
               spoofed_words (["ether"; "saddr"; mac; "arp"; "saddr"; "ip"; "!="] ++ set_words [a; "0.0.0.0"])]
  end.

(** The bound addresses of the range, in their order. *)
Definition range_members (policy : IsolationPolicy) (range : Ipv4Net) : list Ipv4Addr :=
  List.filter (ipv4net_contains range) (btree_set_iter N.leb (bound_addresses policy.(ip_participants))).

Definition outsider_words (policy : IsolationPolicy) (range : Ipv4Net) : list (list string) :=
  let r := ipv4net_show range in
  match range_members policy range with
  | [] => [spoofed_words ["ip"; "saddr"; r]; spoofed_words ["arp"; "saddr"; "ip"; r]]
  | ms =>
      [spoofed_words (["ip"; "saddr"; r; "ip"; "saddr"; "!="] ++ set_words (show_ipv4 <$> ms));
       spoofed_words (["arp"; "saddr"; "ip"; r; "arp"; "saddr"; "ip"; "!="] ++ set_words (show_ipv4 <$> ms))]
  end.

Definition spoof_words (policy : IsolationPolicy) : list (list string) :=
  match policy.(ip_bound_range) ≫= ipv4net_parse with
  | None => []
  | Some range => (policy.(ip_participants) ≫= binding_words policy.(ip_gateway_address))
                  ++ outsider_words policy range
  end.

Definition essential_icmp6 : list string :=
  ["nd-neighbor-solicit"; "nd-neighbor-advert"; "packet-too-big"; "destination-unreachable"].

Definition ipv6_words (mode : IsolationMode) (net : option Ipv6Net) : list (list string) :=
  match net with
  | None => []
  | Some net =>
      let s := ipv6net_show net in
      ["icmpv6" :: "type" :: set_words essential_icmp6 ++ ["accept"];
       "ip6" :: "saddr" :: set_words [s; "fe80::/10"] ++ "ip6" :: "daddr" :: set_words [s; "fe80::/10"; "ff00::/8"]
       ++ ["counter"; "name"; "isolation_unresolved"; verdict mode]]
  end.

(** The rules after the bindings and before the allowances; after the pairs. *)
Definition admitted_words (gateway broadcast : Ipv4Addr) : list (list string) :=
  [["ct"; "state"; "established,related"; "accept"]; ["ct"; "status"; "dnat"; "accept"];
   ["ip"; "saddr"; show_ipv4 gateway; "ip"; "daddr"; show_ipv4 broadcast; "accept"]].
Definition unresolved_words (mode : IsolationMode) (subnet : Ipv4Net) : list string :=
  ["ip"; "saddr"; ipv4net_show subnet; "ip"; "daddr"; ipv4net_show subnet; "counter"; "name";
   "isolation_unresolved"; verdict mode].

Lemma join_cons_words w w' ws : join " " (w :: w' :: ws) = w +:+ " " +:+ join " " (w' :: ws).
Proof. done. Qed.

Lemma join_app_words ws ws' :
  ws <> [] -> ws' <> [] -> join " " (ws ++ ws') = join " " ws +:+ " " +:+ join " " ws'.
Proof.
  intros Hne Hne'. induction ws as [|w ws IH]; [done|]. destruct ws as [|w' ws].
  - destruct ws' as [|w' ws']; [done|]. cbn [app]. by rewrite join_cons_words.
  - cbn [app] in *. by rewrite !join_cons_words, IH, !str_app_assoc.
Qed.

(** The members of a set, joined. *)
Lemma join_commas ws : join " " (commas ws) = join ", " ws.
Proof.
  induction ws as [|w [|w' ws] IH]; [done..|].
  change (commas (w :: w' :: ws)) with ((w +:+ ",") :: commas (w' :: ws)).
  assert (exists x l, commas (w' :: ws) = x :: l) as (x & l & Hx) by (destruct ws; simpl; eauto).
  rewrite Hx, join_cons_words, <- Hx, IH. unfold join. cbn [String.concat]. by rewrite !str_app_assoc.
Qed.

Lemma join_set ws : ws <> [] -> join " " (set_words ws) = "{ " +:+ join ", " ws +:+ " }".
Proof.
  intros Hne. unfold set_words. destruct ws as [|w ws]; [done|].
  assert (exists x l, commas (w :: ws) = x :: l) as (x & l & Hx) by (destruct ws; simpl; eauto).
  rewrite <- join_commas, Hx. change ("{" :: (x :: l) ++ ["}"]) with (["{"] ++ ((x :: l) ++ ["}"])).
  rewrite !join_app_words by (done || by destruct l). reflexivity.
Qed.

(** ** The text is those rules *)

Definition ruled (ws : list string) : string := rule ws +:+ NL.

Lemma spoofed_text matches : matches <> [] -> spoofed_drop (join " " matches) = ruled (spoofed_words matches).
Proof.
  intros Hne. unfold spoofed_drop, ruled, rule, spoofed_words. rewrite join_app_words by done.
  by rewrite !str_app_assoc.
Qed.

Lemma concat_ruled l : concat_str (ruled <$> l) = unlines (rule <$> l).
Proof. unfold unlines. by rewrite <- list_fmap_compose. Qed.

Lemma binding_text gateway p :
  default "" (binding_rules gateway p) = concat_str (ruled <$> binding_words gateway p).
Proof.
  unfold binding_rules, binding_words, bound_to. destruct (pt_mac p ≫= normalize_mac) as [mac|]; [|done].
  cbn [mbind option_bind default]. set (a := show_ipv4 (pt_ipv4_address p)).
  rewrite fmap_app, concat_str_app. cbn [fmap list_fmap].
  rewrite <- !spoofed_text by done. case_bool_decide; [by rewrite !str_app_nil_r|].
  cbn [fmap list_fmap]. rewrite <- !spoofed_text by done.
  rewrite (join_app_words ["ether"; "saddr"; mac; "arp"; "saddr"; "ip"; "!="]) by done.
  rewrite (join_set [a; "0.0.0.0"]) by done.
  rewrite !concat_str_cons. change (concat_str []) with "".
  unfold join. cbn [String.concat]. unfold spoofed_drop. by rewrite !str_app_assoc, !str_app_nil_r.
Qed.

Lemma outsider_text policy range :
  (let members := show_ipv4 <$> range_members policy range in
   let r := ipv4net_show range in
   match members with
   | [] => spoofed_drop ("ip saddr " +:+ r) +:+ spoofed_drop ("arp saddr ip " +:+ r)
   | _ =>
       let m := join ", " members in
       spoofed_drop ("ip saddr " +:+ r +:+ " ip saddr != { " +:+ m +:+ " }")
       +:+ spoofed_drop ("arp saddr ip " +:+ r +:+ " arp saddr ip != { " +:+ m +:+ " }")
   end) = concat_str (ruled <$> outsider_words policy range).
Proof.
  unfold outsider_words. destruct (range_members policy range) as [|m ms]; cbn [fmap list_fmap].
  - rewrite <- !spoofed_text by done. rewrite !concat_str_cons. change (concat_str []) with "".
    by rewrite str_app_nil_r.
  - rewrite <- !spoofed_text by done. rewrite !concat_str_cons. change (concat_str []) with "".
    rewrite !join_app_words by done. rewrite !join_set by done.
    generalize (join ", " (show_ipv4 m :: (show_ipv4 <$> ms))) as members. intros members.
    unfold join. cbn [String.concat]. unfold spoofed_drop. by rewrite !str_app_assoc, !str_app_nil_r.
Qed.

Lemma bindings_text policy : render_address_bindings policy = unlines (rule <$> spoof_words policy).
Proof.
  unfold render_address_bindings, spoof_words. destruct (_ ≫= _) as [range|]; [|done].
  rewrite <- concat_ruled, fmap_app, concat_str_app, <- outsider_text. cbv zeta. f_equal.
  induction (ip_participants policy) as [|p ps IH]; [done|].
  cbn [omap list_omap mbind list_bind]. rewrite fmap_app, concat_str_app, <- IH, <- binding_text.
  destruct (binding_rules _ p); [by rewrite concat_str_cons|done].
Qed.

Lemma pair_text mode pair : pair_rule mode pair = ruled (pair_words mode pair).
Proof.
  unfold pair_rule, ruled, rule, pair_words, join. cbn [String.concat]. by rewrite !str_app_assoc.
Qed.

Lemma allowance_text sa : allowance_rule sa.1 sa.2 = ruled (allowance_words sa).
Proof.
  unfold allowance_rule, ruled, rule, allowance_words, join. cbn [String.concat]. by rewrite !str_app_assoc.
Qed.

(** The allowances, one for each line that is written. *)
Lemma allowances_text ps : exists granted,
  allowance_rules ps = ruled ∘ allowance_words <$> granted
  /\ (forall sa, sa ∈ granted -> sa.1 ∈ ps /\ sa.2 ∈ sa.1.(pt_allowances))
  /\ (forall s al, s ∈ ps -> al ∈ s.(pt_allowances) ->
      exists sa, sa ∈ granted /\ ruled (allowance_words sa) = ruled (allowance_words (s, al))).
Proof.
  assert (forall x, x ∈ allowance_rules ps <->
    exists sa, sa.1 ∈ ps /\ sa.2 ∈ sa.1.(pt_allowances) /\ x = ruled (allowance_words sa)) as Hall.
  { intros x. unfold allowance_rules. rewrite elem_of_btree_set_iter, elem_of_list_to_set, list_elem_of_bind.
    setoid_rewrite list_elem_of_fmap. split.
    - intros (s & (al & -> & Hal) & Hs). exists (s, al). by rewrite <- allowance_text.
    - intros ([s al] & Hs & Hal & ->). exists s. split; [|done]. exists al. by rewrite <- allowance_text. }
  assert (exists granted, allowance_rules ps = ruled ∘ allowance_words <$> granted
    /\ forall sa, sa ∈ granted -> sa.1 ∈ ps /\ sa.2 ∈ sa.1.(pt_allowances)) as (granted & Hg & Hin).
  { assert (forall x, x ∈ allowance_rules ps ->
      exists sa, sa.1 ∈ ps /\ sa.2 ∈ sa.1.(pt_allowances) /\ x = ruled (allowance_words sa)) as Hx
      by (intros x; apply Hall). clear Hall. revert Hx.
    induction (allowance_rules ps) as [|x l IH]; intros Hx.
    - exists []. split; [done|]. by intros sa ?%elem_of_nil.
    - destruct IH as (granted & -> & Hin); [intros y Hy; apply Hx; by right|].
      destruct (Hx x ltac:(left)) as (sa & Hs & Hal & ->). exists (sa :: granted). split; [done|].
      intros sa' [->|?]%elem_of_cons; [done|by apply Hin]. }
  exists granted. split_and!; [done..|]. intros s al Hs Hal.
  assert (ruled (allowance_words (s, al)) ∈ allowance_rules ps) as Hr by (apply Hall; by exists (s, al)).
  rewrite Hg in Hr. apply list_elem_of_fmap in Hr as (sa & He & Hsa). by exists sa.
Qed.

Lemma ipv6_text mode policy text :
  ipv6_rules_of mode policy = Some text ->
  exists net, text = unlines (rule <$> ipv6_words mode net)
  /\ match policy.(ip_ipv6_subnet) with
     | None => net = None
     | Some s => exists n, ipv6net_parse s = Some n /\ net = Some n
     end.
Proof.
  unfold ipv6_rules_of. destruct (ip_ipv6_subnet policy) as [s|]; [|intros [= <-]; by exists None].
  intros (net & Hnet & [= <-])%bind_Some. exists (Some net). split; [|eauto].
  rewrite <- concat_ruled. cbn [ipv6_words fmap list_fmap]. rewrite !concat_str_cons.
  unfold ruled, rule, join, set_words, essential_icmp6. cbn [commas app String.concat].
  rewrite !str_app_assoc, ?str_app_nil_r. reflexivity.
Qed.

(** ** The file *)

Definition object_text (name : string) (value : CounterValue) : string :=
  "  counter " +:+ name +:+ " { packets " +:+ show_N value.(cv_packets) +:+ " bytes "
  +:+ show_N value.(cv_bytes) +:+ "; }".

Definition object_texts (policy : IsolationPolicy) (counters : gmap string CounterValue) : list string :=
  ((fun pair => let name := pair_counter_name pair.1.(pt_container_id) pair.2.(pt_container_id) in
      object_text name (counter_of counters name)) <$> participant_pairs policy.(ip_participants))
  ++ [object_text "isolation_unresolved" (counter_of counters "isolation_unresolved")]
  ++ match policy.(ip_bound_range) with
     | Some _ => [object_text "isolation_spoofed" (counter_of counters "isolation_spoofed")]
     | None => []
     end.

Definition declaration : string := "    type filter hook forward priority -10; policy accept;".

Definition chain_words (policy : IsolationPolicy) (mode : IsolationMode) (subnet : Ipv4Net) (gateway : Ipv4Addr)
    (granted : list (IsolationParticipant * IsolationAllowance)) (net : option Ipv6Net) : list (list string) :=
  spoof_words policy ++ admitted_words gateway (ipv4net_broadcast subnet) ++ (allowance_words <$> granted)
  ++ (pair_words mode <$> participant_pairs policy.(ip_participants)) ++ [unresolved_words mode subnet]
  ++ ipv6_words mode net.

Definition bridge_lines (policy : IsolationPolicy) (counters : gmap string CounterValue) (rules : list (list string))
    : list string :=
  "table bridge egressy_isolation {" :: object_texts policy counters
  ++ ["  chain forward {"; declaration] ++ (rule <$> rules) ++ ["  }"; "}"].

(** What the text was rendered from. *)
Record rendered (policy : IsolationPolicy) (mode : IsolationMode) (counters : gmap string CounterValue)
    (text : string) (subnet : Ipv4Net) (gateway : Ipv4Addr)
    (granted : list (IsolationParticipant * IsolationAllowance)) (net : option Ipv6Net) : Prop := {
  re_subnet : ipv4net_parse policy.(ip_subnet) = Some subnet;
  re_gateway : ipv4net_first_host subnet = Some gateway;
  re_net : match policy.(ip_ipv6_subnet) with
           | None => net = None
           | Some s => exists n, ipv6net_parse s = Some n /\ net = Some n
           end;
  re_granted : forall sa, sa ∈ granted -> sa.1 ∈ policy.(ip_participants) /\ sa.2 ∈ sa.1.(pt_allowances);
  re_allowed : forall s al, s ∈ policy.(ip_participants) -> al ∈ s.(pt_allowances) ->
    exists sa, sa ∈ granted /\ ruled (allowance_words sa) = ruled (allowance_words (s, al));
  re_text : text = unlines (bridge_lines policy counters (chain_words policy mode subnet gateway granted net));
}.

Lemma objects_text policy counters :
  concat_str (pair_object counters <$> participant_pairs policy.(ip_participants))
  +:+ counter_object "isolation_unresolved" (counter_of counters "isolation_unresolved")
  +:+ match policy.(ip_bound_range) with
      | Some _ => counter_object "isolation_spoofed" (counter_of counters "isolation_spoofed")
      | None => ""
      end = unlines (object_texts policy counters).
Proof.
  assert (forall name value, counter_object name value = object_text name value +:+ NL) as Ho.
  { intros name value. unfold counter_object, object_text. by rewrite !str_app_assoc. }
  unfold object_texts. rewrite !unlines_app. f_equal; [|f_equal].
  - unfold unlines. rewrite <- list_fmap_compose. f_equal. apply list_fmap_ext. intros _ pair _. apply Ho.
  - rewrite Ho, unlines_cons. by rewrite str_app_nil_r.
  - destruct (ip_bound_range policy); [|done]. rewrite Ho, unlines_cons. by rewrite str_app_nil_r.
Qed.

Lemma bridge_rendered policy requested counters mode text :
  render_bridge_policy policy requested counters = Some (mode, text) -> mode <> Disabled ->
  exists subnet gateway granted net, rendered policy mode counters text subnet gateway granted net.
Proof.
  unfold render_bridge_policy. case_bool_decide; [by intros [= <- <-]|].
  intros (subnet & Hs & Hr)%bind_Some Hmode. apply bind_Some in Hr as (gateway & Hg & Hr).
  apply bind_Some in Hr as (v6 & H6 & [= Hm <-]). rewrite Hm in *.
  apply ipv6_text in H6 as (net & -> & Hnet).
  destruct (allowances_text policy.(ip_participants)) as (granted & Hgranted & Hin & Hout).
  exists subnet, gateway, granted, net. split; try done.
  rewrite objects_text, bindings_text, Hgranted.
  assert (forall {A} (f : A -> list string) l, concat_str (ruled ∘ f <$> l) = unlines (rule <$> (f <$> l))) as Hf.
  { intros A f l. by rewrite <- concat_ruled, <- list_fmap_compose. }
  rewrite Hf, (list_fmap_ext (pair_rule _) (ruled ∘ pair_words mode))
    by (intros _ pair _; apply pair_text).
  rewrite Hf. unfold bridge_lines, chain_words. rewrite !fmap_app, !unlines_cons, !unlines_app.
  unfold admitted_words, unresolved_words, rule, join.
  cbn [fmap list_fmap String.concat]. rewrite !unlines_cons, !str_app_assoc. reflexivity.
Qed.
End rules.

(** ** What the policy says of a frame *)

Section policy.
Context `{!IpNetCrate}.
Context (policy : IsolationPolicy).

(** It carries the address, as IPv4 or in an ARP message. *)
Definition claims (a : Ipv4Addr) (f : Frame) : bool := from4 (N.eqb a) f || arp_from (N.eqb a) f.

(** It claims a bound address from another MAC, or it comes from a bound MAC
    and claims another address; an ARP probe has the address 0.0.0.0, and the
    gateway's MAC is that of whatever it forwards. *)
Definition forged (f : Frame) (p : IsolationParticipant) : bool :=
  match bound_to p with
  | None => false
  | Some mac =>
      let a := p.(pt_ipv4_address) in
      (claims a f && negb (String.eqb f.(ether_source) mac))
      || (negb (bool_decide (policy.(ip_gateway_address) = Some a)) && String.eqb f.(ether_source) mac
          && (from4 (fun s => negb (N.eqb a s)) f
              || arp_from (fun s => negb (N.eqb s a || N.eqb s 0)) f))
  end.

(** It claims an address of the range that is bound to nobody. *)
Definition unbound (range : Ipv4Net) (a : Ipv4Addr) : bool :=
  ipv4net_contains range a && bool_decide (a ∉ bound_addresses policy.(ip_participants)).
Definition outsider (range : Ipv4Net) (f : Frame) : bool :=
  from4 (unbound range) f || arp_from (unbound range) f.

Definition spoofed (f : Frame) : bool :=
  match policy.(ip_bound_range) ≫= ipv4net_parse with
  | None => false
  | Some range => existsb (forged f) policy.(ip_participants) || outsider range f
  end.

(** Some participant has an allowance for it. *)
Definition grants (f : Frame) (s : IsolationParticipant) (al : IsolationAllowance) : bool :=
  from4 (N.eqb s.(pt_ipv4_address)) f && to4 (N.eqb al.(al_destination_address)) f
  && to_port al.(al_protocol) al.(al_port) f.
Definition allowed (f : Frame) : bool :=
  existsb (fun s => existsb (grants f s) s.(pt_allowances)) policy.(ip_participants).

(** It goes from one participant to another. *)
Definition between (f : Frame) (pair : IsolationParticipant * IsolationParticipant) : bool :=
  from4 (N.eqb pair.1.(pt_ipv4_address)) f && to4 (N.eqb pair.2.(pt_ipv4_address)) f.
Definition peers (f : Frame) : bool := existsb (between f) (participant_pairs policy.(ip_participants)).

Definition inside (subnet : Ipv4Net) (f : Frame) : bool :=
  from4 (ipv4net_contains subnet) f && to4 (ipv4net_contains subnet) f.

(** With an IPv6 subnet: it is between addresses of the bridge. *)
Definition inside6 (net link multicast : Ipv6Net) (f : Frame) : bool :=
  from6 (in_nets [net; link]) f && to6 (in_nets [net; link; multicast]) f.

Definition bridge_policy (mode : IsolationMode) (subnet : Ipv4Net) (gateway : Ipv4Addr)
    (net : option Ipv6Net) (link multicast : Ipv6Net) (f : Frame) : Verdict :=
  if spoofed f then Drop
  else if f.(known) || f.(translated) then Accept
  else if from4 (N.eqb gateway) f && to4 (N.eqb (ipv4net_broadcast subnet)) f then Accept
  else if allowed f then Accept
  else if peers f || inside subnet f then ending mode
  else match net with
       | None => Accept
       | Some net =>
           if icmp6 essential_icmp6 f then Accept
           else if inside6 net link multicast f then ending mode
           else Accept
       end.

(** The addresses of the policy fit their width, and its networks are read as
    they are written. *)
Record policy_readable (link multicast : Ipv6Net) : Prop := {
  pr_nets : forall n : Ipv4Net, policy.(ip_bound_range) ≫= ipv4net_parse = Some n
    \/ ipv4net_parse policy.(ip_subnet) = Some n -> ipv4net_parse (ipv4net_show n) = Some n;
  pr_nets6 : forall s n, policy.(ip_ipv6_subnet) = Some s -> ipv6net_parse s = Some n ->
    ipv6net_parse (ipv6net_show n) = Some n;
  pr_link : ipv6net_parse "fe80::/10" = Some link;
  pr_multicast : ipv6net_parse "ff00::/8" = Some multicast;
  pr_gateway : forall n a, ipv4net_parse policy.(ip_subnet) = Some n -> ipv4net_first_host n = Some a ->
    (a < 2 ^ 32 /\ ipv4net_broadcast n < 2 ^ 32)%N;
  pr_participants : Forall (fun p => (p.(pt_ipv4_address) < 2 ^ 32)%N
    /\ Forall (fun al => (al.(al_destination_address) < 2 ^ 32)%N /\ (al.(al_port) <= u16_MAX)%N) p.(pt_allowances))
    policy.(ip_participants);
}.
End policy.

(** ** The words are words *)

Lemma mac_visible c : mac_char c = true -> visible c = true.
Proof.
  unfold mac_char. rewrite !orb_true_iff. intros [[?|H]|H%Ascii.eqb_eq]; [by apply digit_is_visible| |by subst].
  unfold visible, in_range in *. simplify_bools. apply andb_true_iff. rewrite !N.leb_le. lia.
Qed.

Lemma word_mac raw m : normalize_mac raw = Some m -> word m.
Proof.
  intros Hm. destruct (normalize_mac_canonical raw m Hm) as (_ & Hlen & Hc). split; [by intros ->|].
  eapply str_forallb_impl; [apply mac_visible|done].
Qed.

Lemma word_comma w : word w -> word (w +:+ ",").
Proof. intros Hw. by apply word_app. Qed.

Lemma words_set ws : Forall word ws -> Forall word (set_words ws).
Proof.
  intros Hws. unfold set_words. constructor; [split; [done|vm_compute; reflexivity]|].
  apply list.Forall_app. split; [|repeat constructor; done].
  induction Hws as [|w ws Hw Hws IH]; [constructor|]. destruct ws as [|w' ws]; [by constructor|].
  change (commas (w :: w' :: ws)) with ((w +:+ ",") :: commas (w' :: ws)). constructor; [by apply word_comma|done].
Qed.

Lemma word_pair_counter s d : word (pair_counter_name s d).
Proof.
  split; [done|]. unfold pair_counter_name, safe_counter_component. rewrite !str_forallb_app.
  assert (forall x, str_forallb visible (str_take 64 (str_filter is_ascii_alphanumeric x)) = true) as Hx.
  { intros x. apply str_take_forallb. eapply str_forallb_impl; [apply alphanumeric_visible|]. apply str_filter_forallb. }
  by rewrite !Hx.
Qed.

Lemma word_verdict mode : word (verdict mode).
Proof. by destruct mode. Qed.
Lemma word_protocol protocol : word (nft_name protocol).
Proof. by destruct protocol. Qed.
#[export] Hint Resolve word_mac word_comma word_pair_counter word_verdict word_protocol : words.

(** Every word of a literal list, sets included. *)
Ltac bridge_words :=
  lazymatch goal with
  | |- Forall _ [] => apply list.Forall_nil_2
  | |- Forall _ (set_words _) => apply words_set; bridge_words
  | |- Forall _ (_ :: _) => apply list.Forall_cons_2; [first [solve [eauto with words] | bridge_words]|bridge_words]
  | |- Forall _ (_ ++ _) => apply Forall_app_2; bridge_words
  | |- _ => idtac
  end.

Section meaning.
Context `{!IpNetCrate, !IpNetText, !NftProgram Frame, !BridgeDocumented}.

Lemma binding_words_ok gateway p : Forall (Forall word) (binding_words gateway p).
Proof.
  unfold binding_words, bound_to. destruct (pt_mac p ≫= normalize_mac) as [mac|] eqn:Hm; [|constructor].
  apply bind_Some in Hm as (raw & _ & Hm%word_mac). unfold spoofed_words.
  apply Forall_app_2; [|case_bool_decide]; bridge_words.
Qed.

Lemma show_words l : Forall word (show_ipv4 <$> l).
Proof. apply list.Forall_fmap, list.Forall_true. intros a. apply word_address. Qed.

Lemma spoof_words_ok policy : Forall (Forall word) (spoof_words policy).
Proof.
  unfold spoof_words. destruct (_ ≫= _) as [range|]; [|constructor]. apply Forall_app_2.
  - apply Forall_bind, list.Forall_true. intros p. apply binding_words_ok.
  - unfold outsider_words. pose proof (show_words (range_members policy range)) as Hs.
    destruct (range_members policy range) as [|m ms]; unfold spoofed_words; bridge_words; exact Hs.
Qed.

Lemma chain_words_ok policy mode subnet gateway granted net :
  Forall (Forall word) (chain_words policy mode subnet gateway granted net).
Proof.
  unfold chain_words. repeat apply Forall_app_2.
  - apply spoof_words_ok.
  - unfold admitted_words. bridge_words.
  - apply list.Forall_fmap, list.Forall_true. intros sa. unfold allowance_words. cbv beta zeta delta [compose]. bridge_words.
  - apply list.Forall_fmap, list.Forall_true. intros pair. unfold pair_words. cbv beta zeta delta [compose]. bridge_words.
  - unfold unresolved_words. bridge_words.
  - destruct net as [net|]; [|constructor]. unfold ipv6_words, essential_icmp6. bridge_words.
Qed.
(** The clauses with the operands the rules have. *)
Section clauses.
Context (ws : list string) (g : Frame -> bool) (v : option Verdict) (Hr : bridge_reads ws g v).

Lemma b_source a : (a < 2 ^ 32)%N ->
  bridge_reads ("ip" :: "saddr" :: show_ipv4 a :: ws) (fun f => from4 (N.eqb a) f && g f) v.
Proof. intros Ha. exact (b_ip_source [show_ipv4 a] _ _ _ _ (operand4_is _ _ (reads4_address a Ha)) Hr). Qed.
Lemma b_source_net w n : ipv4net_parse w = Some n ->
  bridge_reads ("ip" :: "saddr" :: w :: ws) (fun f => from4 (ipv4net_contains n) f && g f) v.
Proof. intros Hn. exact (b_ip_source [w] _ _ _ _ (operand4_is _ _ (reads4_net w n Hn)) Hr). Qed.
Lemma b_source_not a : (a < 2 ^ 32)%N ->
  bridge_reads ("ip" :: "saddr" :: "!=" :: show_ipv4 a :: ws) (fun f => from4 (fun b => negb (N.eqb a b)) f && g f) v.
Proof. intros Ha. exact (b_ip_source ["!="; show_ipv4 a] _ _ _ _ (operand4_not _ _ (reads4_address a Ha)) Hr). Qed.
Lemma b_source_not_in l : Forall (fun a => a < 2 ^ 32)%N l ->
  bridge_reads ("ip" :: "saddr" :: "!=" :: set_words (show_ipv4 <$> l) ++ ws)
    (fun f => from4 (fun b => negb (existsb (N.eqb b) l)) f && g f) v.
Proof. intros Hl. exact (b_ip_source ("!=" :: set_words _) _ _ _ _ (operand4_not _ _ (reads4_set l Hl)) Hr). Qed.
Lemma b_destination a : (a < 2 ^ 32)%N ->
  bridge_reads ("ip" :: "daddr" :: show_ipv4 a :: ws) (fun f => to4 (N.eqb a) f && g f) v.
Proof. intros Ha. exact (b_ip_destination [show_ipv4 a] _ _ _ _ (operand4_is _ _ (reads4_address a Ha)) Hr). Qed.
Lemma b_destination_net w n : ipv4net_parse w = Some n ->
  bridge_reads ("ip" :: "daddr" :: w :: ws) (fun f => to4 (ipv4net_contains n) f && g f) v.
Proof. intros Hn. exact (b_ip_destination [w] _ _ _ _ (operand4_is _ _ (reads4_net w n Hn)) Hr). Qed.
Lemma b_arp a : (a < 2 ^ 32)%N ->
  bridge_reads ("arp" :: "saddr" :: "ip" :: show_ipv4 a :: ws) (fun f => arp_from (N.eqb a) f && g f) v.
Proof. intros Ha. exact (b_arp_source [show_ipv4 a] _ _ _ _ (operand4_is _ _ (reads4_address a Ha)) Hr). Qed.
Lemma b_arp_net w n : ipv4net_parse w = Some n ->
  bridge_reads ("arp" :: "saddr" :: "ip" :: w :: ws) (fun f => arp_from (ipv4net_contains n) f && g f) v.
Proof. intros Hn. exact (b_arp_source [w] _ _ _ _ (operand4_is _ _ (reads4_net w n Hn)) Hr). Qed.
Lemma b_arp_not_in l : Forall (fun a => a < 2 ^ 32)%N l ->
  bridge_reads ("arp" :: "saddr" :: "ip" :: "!=" :: set_words (show_ipv4 <$> l) ++ ws)
    (fun f => arp_from (fun b => negb (existsb (N.eqb b) l)) f && g f) v.
Proof. intros Hl. exact (b_arp_source ("!=" :: set_words _) _ _ _ _ (operand4_not _ _ (reads4_set l Hl)) Hr). Qed.
End clauses.

Lemma first_frame_rule ws g v rs f :
  bridge_reads ws g v -> Forall word ws ->
  first_verdict (rule ws :: rs) f =
  match (if g f then v else None) with Some v => Some v | None => first_verdict rs f end.
Proof.
  intros Hr Hw. cbn [first_verdict]. unfold rule. rewrite words_join by done.
  by rewrite (bridge_rule_reads _ _ _ f Hr).
Qed.

(** Rules with one verdict: whether some of them matches. *)
Lemma first_of_many {A} (ws : A -> list string) (g : A -> Frame -> bool) v l f :
  (forall x, x ∈ l -> bridge_reads (ws x) (g x) (Some v) /\ Forall word (ws x)) ->
  first_verdict (rule <$> (ws <$> l)) f = if existsb (fun x => g x f) l then Some v else None.
Proof.
  induction l as [|x l IH]; intros Hl; [done|]. destruct (Hl x ltac:(left)) as [Hr Hw].
  rewrite !fmap_cons, (first_frame_rule _ _ _ _ _ Hr Hw), IH by (intros y Hy; apply Hl; by right).
  cbn [existsb]. by destruct (g x f).
Qed.

Section reading.
Context (policy : IsolationPolicy) (link multicast : Ipv6Net) (Hread : policy_readable policy link multicast) (f : Frame).

Lemma first_bindings ps :
  Forall (fun p => (p.(pt_ipv4_address) < 2 ^ 32)%N) ps ->
  first_verdict (rule <$> (ps ≫= binding_words policy.(ip_gateway_address))) f
  = if existsb (forged policy f) ps then Some Drop else None.
Proof.
  induction 1 as [|p ps Hp Hps IH]; [done|].
  change ((p :: ps) ≫= binding_words policy.(ip_gateway_address)) with
    (binding_words policy.(ip_gateway_address) p ++ (ps ≫= binding_words policy.(ip_gateway_address))).
  rewrite fmap_app, first_verdict_app, IH. cbn [existsb]. clear IH.
  generalize (existsb (forged policy f) ps) as rest. intros rest.
  pose proof (binding_words_ok policy.(ip_gateway_address) p) as Hw. revert Hw.
  unfold binding_words, forged. destruct (bound_to p) as [mac|] eqn:Hb; [|done].
  assert (normalize_mac mac = Some mac) as Hmac.
  { unfold bound_to in Hb. apply bind_Some in Hb as (raw & _ & Hb). by apply (normalize_mac_canonical raw mac Hb). }
  set (a := pt_ipv4_address p) in *. unfold spoofed_words. cbn [app].
  assert (forall name, bridge_reads ["counter"; "name"; name; "drop"] (fun _ => true) (Some Drop)) as Hdrop
    by (intros name; apply b_counter, b_drop).
  pose proof (b_source _ _ _ (b_ether_not mac _ _ _ Hmac (Hdrop "isolation_spoofed")) a Hp) as R1.
  pose proof (b_arp _ _ _ (b_ether_not mac _ _ _ Hmac (Hdrop "isolation_spoofed")) a Hp) as R2.
  pose proof (b_ether mac _ _ _ Hmac (b_source_not _ _ _ (Hdrop "isolation_spoofed") a Hp)) as R3.
  assert (Forall (fun a => a < 2 ^ 32)%N [a; 0%N]) as Hset
    by (apply list.Forall_cons_2; [done|]; apply list.Forall_cons_2; [done|apply list.Forall_nil_2]).
  pose proof (b_ether mac _ _ _ Hmac (b_arp_not_in _ _ _ (Hdrop "isolation_spoofed") [a; 0%N] Hset)) as R4.
  intros [Hw1 [Hw2 Hw]%list.Forall_cons]%list.Forall_cons.
  cbn [fmap list_fmap]. rewrite (first_frame_rule _ _ _ _ _ R1 Hw1), (first_frame_rule _ _ _ _ _ R2 Hw2).
  assert (first_verdict (rule <$> (if bool_decide (policy.(ip_gateway_address) = Some a) then []
       else [["ether"; "saddr"; mac; "ip"; "saddr"; "!="; show_ipv4 a; "counter"; "name"; "isolation_spoofed"; "drop"];
             "ether" :: "saddr" :: mac :: "arp" :: "saddr" :: "ip" :: "!=" :: set_words (show_ipv4 <$> [a; 0%N])
             ++ ["counter"; "name"; "isolation_spoofed"; "drop"]])) f
    = if negb (bool_decide (policy.(ip_gateway_address) = Some a)) && String.eqb f.(ether_source) mac
         && (from4 (fun s => negb (N.eqb a s)) f || arp_from (fun s => negb (N.eqb s a || N.eqb s 0)) f)
      then Some Drop else None) as Hrest.
  { case_bool_decide; [done|]. apply list.Forall_cons in Hw as [Hw3 [Hw4 _]%list.Forall_cons].
    cbn [fmap list_fmap]. rewrite (first_frame_rule _ _ _ _ _ R3 Hw3), (first_frame_rule _ _ _ _ _ R4 Hw4).
    cbn [first_verdict]. unfold from4, arp_from. destruct (payload f); cbn [andb orb negb existsb];
      rewrite ?andb_true_r, ?orb_false_r, ?andb_false_r; repeat case_match; simplify_bools; congruence. }
  match type of Hrest with first_verdict ?l f = _ =>
    match goal with |- context [first_verdict ?k f] => change (first_verdict k f) with (first_verdict l f) end end.
  rewrite Hrest. unfold claims.
  destruct (from4 (N.eqb a) f), (arp_from (N.eqb a) f), (String.eqb (ether_source f) mac),
    (bool_decide _), (from4 _ f), (arp_from _ f), rest; reflexivity.
Qed.

Lemma unbound_members range a :
  unbound policy range a
  = ipv4net_contains range a && negb (existsb (N.eqb a) (range_members policy range)).
Proof.
  unfold unbound. destruct (ipv4net_contains range a) eqn:Hc; [|done]. cbn [andb].
  apply eq_true_iff_eq. rewrite bool_decide_true, negb_true_iff, <- not_true_iff_false, existsb_elem.
  unfold range_members. setoid_rewrite elem_of_bfilter. setoid_rewrite elem_of_btree_set_iter.
  split.
  - intros Hn (b & [Hb _] & ->%N.eqb_eq). done.
  - intros Hn Ha. apply Hn. exists a. by rewrite N.eqb_refl.
Qed.

Lemma bound_bound a : a ∈ bound_addresses policy.(ip_participants) -> (a < 2 ^ 32)%N.
Proof.
  unfold bound_addresses. rewrite elem_of_list_to_set, list_elem_of_omap. intros (p & Hp & Ha).
  destruct (_ ≫= _); [|done]. injection Ha as <-. pose proof (pr_participants _ _ _ Hread) as Hall.
  rewrite list.Forall_forall in Hall. by destruct (Hall p Hp).
Qed.

Lemma first_outsiders range :
  policy.(ip_bound_range) ≫= ipv4net_parse = Some range ->
  first_verdict (rule <$> outsider_words policy range) f = if outsider policy range f then Some Drop else None.
Proof.
  intros Hrange. pose proof (pr_nets _ _ _ Hread range (or_introl Hrange)) as Hshow.
  assert (Forall (fun a => a < 2 ^ 32)%N (range_members policy range)) as Hms.
  { apply list.Forall_forall. intros a. unfold range_members. rewrite elem_of_bfilter, elem_of_btree_set_iter.
    intros [Ha _]. by apply bound_bound. }
  assert (Forall (Forall word) (outsider_words policy range)) as Hw.
  { pose proof (spoof_words_ok policy) as Hs. unfold spoof_words in Hs. rewrite Hrange in Hs.
    by apply list.Forall_app in Hs as [_ Hs]. }
  assert (outsider policy range f
    = from4 (fun a => ipv4net_contains range a && negb (existsb (N.eqb a) (range_members policy range))) f
      || arp_from (fun a => ipv4net_contains range a && negb (existsb (N.eqb a) (range_members policy range))) f) as ->.
  { unfold outsider. f_equal; [unfold from4|unfold arp_from]; destruct (payload f); try done; apply unbound_members. }
  assert (forall name, bridge_reads ["counter"; "name"; name; "drop"] (fun _ => true) (Some Drop)) as Hdrop
    by (intros name; apply b_counter, b_drop).
  revert Hw Hms. unfold outsider_words, spoofed_words.
  destruct (range_members policy range) as [|m ms]; intros [Hw1 [Hw2 _]%list.Forall_cons]%list.Forall_cons Hms;
    cbn [fmap list_fmap].
  - rewrite (first_frame_rule _ _ _ _ _ (b_source_net _ _ _ (Hdrop "isolation_spoofed") _ _ Hshow) Hw1),
      (first_frame_rule _ _ _ _ _ (b_arp_net _ _ _ (Hdrop "isolation_spoofed") _ _ Hshow) Hw2).
    cbn [first_verdict]. unfold from4, arp_from. destruct (payload f); cbn [existsb negb andb orb];
      rewrite ?andb_true_r, ?orb_false_r; by repeat case_match.
  - rewrite (first_frame_rule _ _ _ _ _
        (b_source_net _ _ _ (b_source_not_in _ _ _ (Hdrop "isolation_spoofed") _ Hms) _ _ Hshow) Hw1),
      (first_frame_rule _ _ _ _ _
        (b_arp_net _ _ _ (b_arp_not_in _ _ _ (Hdrop "isolation_spoofed") _ Hms) _ _ Hshow) Hw2).
    cbn [first_verdict]. generalize (m :: ms) as l. intros l. unfold from4, arp_from.
    destruct (payload f); cbn [andb orb]; rewrite ?andb_true_r, ?orb_false_r; try done;
      by destruct (_ && _).
Qed.

Lemma first_spoofed :
  first_verdict (rule <$> spoof_words policy) f = if spoofed policy f then Some Drop else None.
Proof.
  unfold spoof_words, spoofed. destruct (_ ≫= _) as [range|] eqn:Hr; [|done].
  assert (Forall (fun p => (p.(pt_ipv4_address) < 2 ^ 32)%N) policy.(ip_participants)) as Hps.
  { eapply list.Forall_impl; [exact (pr_participants _ _ _ Hread)|]. by intros p [? _]. }
  rewrite fmap_app, first_verdict_app, (first_bindings _ Hps), (first_outsiders range Hr).
  by destruct (existsb _ _), (outsider _ _ _).
Qed.

Lemma b_ending mode : bridge_reads [verdict mode] (fun _ => true) (Some (ending mode)).
Proof. destruct mode; constructor. Qed.

Lemma allowance_reads sa :
  (sa.1.(pt_ipv4_address) < 2 ^ 32)%N -> (sa.2.(al_destination_address) < 2 ^ 32)%N ->
  (sa.2.(al_port) <= u16_MAX)%N ->
  bridge_reads (allowance_words sa)
    (fun f => from4 (N.eqb sa.1.(pt_ipv4_address)) f
       && (to4 (N.eqb sa.2.(al_destination_address)) f && (to_port sa.2.(al_protocol) sa.2.(al_port) f && true)))
    (Some Accept).
Proof.
  intros Ha Hd Hp. unfold allowance_words.
  exact (b_source _ _ _ (b_destination _ _ _ (b_port _ _ _ _ _ Hp b_accept) _ Hd) _ Ha).
Qed.

Lemma allowance_bounds s al :
  s ∈ policy.(ip_participants) -> al ∈ s.(pt_allowances) ->
  (s.(pt_ipv4_address) < 2 ^ 32 /\ al.(al_destination_address) < 2 ^ 32 /\ al.(al_port) <= u16_MAX)%N.
Proof.
  intros Hs Hal. pose proof (pr_participants _ _ _ Hread) as Hall. rewrite list.Forall_forall in Hall.
  destruct (Hall s Hs) as [Ha Hals]. rewrite list.Forall_forall in Hals. destruct (Hals al Hal). done.
Qed.

Lemma ruled_words ws ws' : ruled ws = ruled ws' -> Forall word ws -> Forall word ws' -> ws = ws'.
Proof.
  unfold ruled, rule. intros E Hw Hw'.
  assert ("    " +:+ join " " ws = "    " +:+ join " " ws') as Er.
  { apply (f_equal chars) in E. rewrite !(chars_app _ NL) in E. by apply app_inv_tail, chars_inj in E. }
  rewrite <- (words_join ws), <- (words_join ws') by done. by rewrite Er.
Qed.

Lemma allowance_words_ok sa : Forall word (allowance_words sa).
Proof. unfold allowance_words. bridge_words. Qed.

Lemma first_allowed mode counters text subnet gateway granted net :
  rendered policy mode counters text subnet gateway granted net ->
  first_verdict (rule <$> (allowance_words <$> granted)) f = if allowed policy f then Some Accept else None.
Proof.
  intros Hre.
  assert (forall sa, sa ∈ granted -> (sa.1.(pt_ipv4_address) < 2 ^ 32 /\ sa.2.(al_destination_address) < 2 ^ 32
    /\ sa.2.(al_port) <= u16_MAX)%N) as Hb.
  { intros sa Hsa. destruct (re_granted _ _ _ _ _ _ _ _ Hre sa Hsa). by apply allowance_bounds. }
  rewrite (first_of_many allowance_words (fun sa f => from4 (N.eqb sa.1.(pt_ipv4_address)) f
    && (to4 (N.eqb sa.2.(al_destination_address)) f && (to_port sa.2.(al_protocol) sa.2.(al_port) f && true))) Accept).
  2:{ intros sa Hsa. destruct (Hb sa Hsa) as (? & ? & ?). split; [by apply allowance_reads|apply allowance_words_ok]. }
  assert (existsb (fun sa => from4 (N.eqb sa.1.(pt_ipv4_address)) f
    && (to4 (N.eqb sa.2.(al_destination_address)) f && (to_port sa.2.(al_protocol) sa.2.(al_port) f && true))) granted
    = allowed policy f) as ->; [|done].
  apply eq_true_iff_eq. unfold allowed. rewrite !existsb_elem. setoid_rewrite existsb_elem. split.
  - intros (sa & Hsa & Hm). destruct (re_granted _ _ _ _ _ _ _ _ Hre sa Hsa) as [Hs Hal].
    exists sa.1. split; [done|]. exists sa.2. split; [done|]. unfold grants. rewrite andb_true_r in Hm.
    by rewrite <- andb_assoc.
  - intros (s & Hs & al & Hal & Hm). destruct (re_allowed _ _ _ _ _ _ _ _ Hre s al Hs Hal) as (sa & Hsa & He).
    exists sa. split; [done|]. destruct (Hb sa Hsa) as (Ha & Hd & Hp).
    destruct (allowance_bounds s al Hs Hal) as (Ha' & Hd' & Hp').
    apply ruled_words in He; [|apply allowance_words_ok..].
    pose proof (bridge_rule_reads _ _ _ f (allowance_reads sa Ha Hd Hp)) as Hv.
    rewrite He, (bridge_rule_reads _ _ _ f (allowance_reads (s, al) Ha' Hd' Hp')) in Hv. cbn [fst snd] in Hv.
    unfold grants in Hm. rewrite <- andb_assoc in Hm. rewrite andb_true_r, Hm in Hv. by case_match.
Qed.

Lemma first_pairs mode :
  first_verdict (rule <$> (pair_words mode <$> participant_pairs policy.(ip_participants))) f
  = if peers policy f then Some (ending mode) else None.
Proof.
  rewrite (first_of_many (pair_words mode) (fun pair f => from4 (N.eqb pair.1.(pt_ipv4_address)) f
    && (to4 (N.eqb pair.2.(pt_ipv4_address)) f && true)) (ending mode)).
  - assert (existsb _ _ = peers policy f) as ->; [|done]. unfold peers.
    induction (participant_pairs _) as [|pair l IH]; [done|]. cbn [existsb]. rewrite IH. unfold between.
    by rewrite andb_true_r.
  - intros [p q] (Hp & Hq & _)%elem_of_participant_pairs.
    pose proof (pr_participants _ _ _ Hread) as Hall. rewrite list.Forall_forall in Hall.
    destruct (Hall p Hp) as [Hpa _], (Hall q Hq) as [Hqa _]. split; [|unfold pair_words; bridge_words].
    exact (b_source _ _ _ (b_destination _ _ _ (b_counter _ _ _ _ (b_ending mode)) _ Hqa) _ Hpa).
Qed.

Lemma first_admitted gateway broadcast :
  (gateway < 2 ^ 32)%N -> (broadcast < 2 ^ 32)%N ->
  first_verdict (rule <$> admitted_words gateway broadcast) f
  = if f.(known) || f.(translated) || (from4 (N.eqb gateway) f && to4 (N.eqb broadcast) f) then Some Accept else None.
Proof.
  intros Hg Hb. unfold admitted_words. cbn [fmap list_fmap].
  rewrite (first_frame_rule _ _ _ _ _ (b_known _ _ _ b_accept)) by bridge_words.
  rewrite (first_frame_rule _ _ _ _ _ (b_translated _ _ _ b_accept)) by bridge_words.
  rewrite (first_frame_rule _ _ _ _ _ (b_source _ _ _ (b_destination _ _ _ b_accept _ Hb) _ Hg)) by bridge_words.
  cbn [first_verdict]. rewrite !andb_true_r.
  by destruct (known f), (translated f), (from4 _ f), (to4 _ f).
Qed.

Lemma first_unresolved mode subnet :
  ipv4net_parse policy.(ip_subnet) = Some subnet ->
  first_verdict (rule <$> [unresolved_words mode subnet]) f
  = if inside subnet f then Some (ending mode) else None.
Proof.
  intros Hs. pose proof (pr_nets _ _ _ Hread subnet (or_intror Hs)) as Hshow.
  unfold unresolved_words. cbn [fmap list_fmap].
  rewrite (first_frame_rule _ _ _ _ _ (b_source_net _ _ _
    (b_destination_net _ _ _ (b_counter "isolation_unresolved" _ _ _ (b_ending mode)) _ _ Hshow) _ _ Hshow)) by bridge_words.
  cbn [first_verdict]. unfold inside. rewrite !andb_true_r. by destruct (_ && _).
Qed.

Lemma show_net6_lacks n : lacks "," (ipv6net_show n) = true.
Proof.
  destruct (ipv6net_show_text n) as [a ->]. rewrite !lacks_app. unfold lacks at 1.
  rewrite show_ipv6_chars; [|intros c Hc; apply negb_true_iff, Ascii.eqb_neq; by intros ->|done..].
  cbn [andb]. change (lacks "," "/") with true. cbn [andb].
  eapply str_forallb_impl; [|apply show_N_digits]. intros c Hc. apply negb_true_iff, Ascii.eqb_neq. by intros ->.
Qed.

Lemma first_ipv6 mode net :
  match policy.(ip_ipv6_subnet) with
  | None => net = None
  | Some s => exists n, ipv6net_parse s = Some n /\ net = Some n
  end ->
  first_verdict (rule <$> ipv6_words mode net) f
  = match net with
    | None => None
    | Some net => if icmp6 essential_icmp6 f then Some Accept
                  else if inside6 net link multicast f then Some (ending mode) else None
    end.
Proof.
  intros Hnet. destruct net as [net|]; [|done].
  destruct (ip_ipv6_subnet policy) as [s|] eqn:Hs; [|done]. destruct Hnet as (n & Hn & [= ->]).
  pose proof (pr_nets6 _ _ _ Hread s n Hs Hn) as Hshow. pose proof (pr_link _ _ _ Hread) as Hlink.
  pose proof (pr_multicast _ _ _ Hread) as Hmulticast.
  assert (reads6 [ipv6net_show n; "fe80::/10"] [n; link]) as Hfrom.
  { split; repeat constructor; try done. apply show_net6_lacks. }
  assert (reads6 [ipv6net_show n; "fe80::/10"; "ff00::/8"] [n; link; multicast]) as Hto.
  { split; repeat constructor; try done. apply show_net6_lacks. }
  assert (Forall kind_word essential_icmp6) as Hkinds.
  { repeat (apply list.Forall_cons_2; [split_and!; [split; [done|vm_compute; reflexivity]|vm_compute; reflexivity|done..]|]).
    apply list.Forall_nil_2. }
  unfold ipv6_words. cbn [fmap list_fmap].
  rewrite (first_frame_rule _ _ _ _ _ (b_icmp6 essential_icmp6 _ _ _ Hkinds b_accept))

    by (unfold essential_icmp6; bridge_words).
  rewrite (first_frame_rule _ _ _ _ _ (b_ip6_source _ _ _ _ _ Hfrom (b_ip6_destination _ _ _ _ _ Hto
    (b_counter "isolation_unresolved" _ _ _ (b_ending mode))))) by bridge_words.
  cbn [first_verdict]. unfold inside6. rewrite !andb_true_r.
  destruct (icmp6 _ f); [done|]. by destruct (from6 (in_nets [n; link]) f && to6 (in_nets [n; link; multicast]) f).
Qed.
End reading.

(** ** The chain of the file *)

Lemma object_texts_ok policy counters : Forall object_line (object_texts policy counters).
Proof.
  assert (forall name value, word name -> object_line (object_text name value)) as Ho.
  { intros name value [_ Hn]. unfold object_line, object_text. split; [|done]. apply printable_line.
    assert (forall s, str_forallb visible s = true -> str_forallb printable s = true) as Hv.
    { intros s Hs. eapply str_forallb_impl; [|exact Hs]. intros x Hx. unfold printable. by rewrite Hx. }
    rewrite !str_forallb_app, (Hv _ Hn), !(Hv (show_N _)) by apply word_number. done. }
  unfold object_texts. apply Forall_app_2; [|apply Forall_app_2].
  - apply list.Forall_fmap, list.Forall_true. intros pair. apply Ho, word_pair_counter.
  - apply list.Forall_cons_2; [apply Ho; split; done|apply list.Forall_nil_2].
  - destruct (ip_bound_range policy); [|apply list.Forall_nil_2].
    apply list.Forall_cons_2; [apply Ho; split; done|apply list.Forall_nil_2].
Qed.

Lemma bridge_chain_lines policy counters rules :
  Forall (Forall word) rules ->
  chain_lines "forward" (unlines (bridge_lines policy counters rules)) = declaration :: (rule <$> rules).
Proof.
  intros Hw. pose proof (object_texts_ok policy counters) as Ho.
  assert (Forall rule_line (rule <$> rules)) as Hr.
  { apply list.Forall_fmap. eapply list.Forall_impl; [exact Hw|]. intros ws Hws. right. by exists ws. }
  apply (chain_lines_at "forward" _ ("table bridge egressy_isolation {" :: object_texts policy counters) _ ["}"]).
  - rewrite lines_unlines; [unfold bridge_lines; cbn [app]; by rewrite <- ?app_assoc|].
    unfold bridge_lines. apply list.Forall_cons_2; [by apply printable_line|].
    apply Forall_app_2; [eapply list.Forall_impl; [exact Ho|]; by intros l [? _]|].
    repeat (apply list.Forall_cons_2; [by apply printable_line|]).
    apply Forall_app_2; [eapply list.Forall_impl; [exact Hr|apply rule_line_ok]|].
    repeat (apply list.Forall_cons_2; [by apply printable_line|]). apply list.Forall_nil_2.
  - apply list.Forall_cons_2; [discriminate|]. eapply list.Forall_impl; [exact Ho|]. intros l Hl. by apply before_chains.
  - apply list.Forall_cons_2; [discriminate|]. eapply list.Forall_impl; [exact Hr|]. intros l Hl. by apply rule_line_not.
Qed.

Lemma bridge_meaning policy requested counters mode text link multicast f :
  render_bridge_policy policy requested counters = Some (mode, text) -> mode <> Disabled ->
  policy_readable policy link multicast ->
  exists subnet gateway net,
    ipv4net_parse policy.(ip_subnet) = Some subnet /\ ipv4net_first_host subnet = Some gateway
    /\ net = (policy.(ip_ipv6_subnet) ≫= ipv6net_parse)
    /\ chain_verdict "forward" text f = Some (bridge_policy policy mode subnet gateway net link multicast f).
Proof.
  intros Hr Hm Hread. destruct (bridge_rendered _ _ _ _ _ Hr Hm) as (subnet & gateway & granted & net & Hre).
  pose proof Hre as [Hs Hg Hnet _ _ ->]. destruct (pr_gateway _ _ _ Hread _ _ Hs Hg) as [Hgw Hbc].
  exists subnet, gateway, net. split_and!; [done..| |].
  { destruct (ip_ipv6_subnet policy); [|done]. by destruct Hnet as (n & Hn & ->). }
  unfold chain_verdict. rewrite bridge_chain_lines by apply chain_words_ok. f_equal.
  unfold chain_words. rewrite !fmap_app, !first_verdict_app.
  rewrite (first_spoofed _ _ _ Hread), first_admitted by done.
  rewrite (first_allowed _ _ _ Hread _ _ _ _ _ _ _ _ Hre), (first_pairs _ _ _ Hread),
    (first_unresolved _ _ _ Hread _ _ _ Hs), (first_ipv6 _ _ _ Hread _ _ _ Hnet).
  unfold bridge_policy. change (default_verdict declaration) with Accept.
  destruct (spoofed policy f), (known f), (translated f), (from4 (N.eqb gateway) f && to4 (N.eqb (ipv4net_broadcast subnet)) f), (allowed policy f),
    (peers policy f), (inside subnet f); try reflexivity.
  destruct net as [net|]; [|reflexivity]. by destruct (icmp6 essential_icmp6 f), (inside6 net link multicast f).
Qed.

(** C2: the bridge ruleset means the isolation policy.  Enforcement takes a
    request for it and an eligible policy, and a disabled mode writes nothing;
    otherwise the forward chain of the rendered text gives every frame exactly
    the verdict of the abstract policy: a forged address is dropped in either
    mode; replies, translated packets and the gateway's broadcast pass; so does
    what an allowance of the sender grants; anything else between participants
    or within the subnet, IPv6 included, gets the verdict of the mode; and what
    has nothing to do with the bridge's own addresses passes. *)
Theorem bridge_means_policy policy requested counters mode text link multicast f :
  render_bridge_policy policy requested counters = Some (mode, text) ->
  policy_readable policy link multicast ->
  (mode = Enforce <-> requested = Enforce /\ policy.(ip_eligible_for_enforcement) = true)
  /\ (mode = Disabled <-> requested = Disabled) /\ (mode = Disabled -> text = "")
  /\ (mode <> Disabled -> exists subnet gateway,
      ipv4net_parse policy.(ip_subnet) = Some subnet /\ ipv4net_first_host subnet = Some gateway
      /\ chain_verdict "forward" text f
         = Some (bridge_policy policy mode subnet gateway (policy.(ip_ipv6_subnet) ≫= ipv6net_parse) link multicast f)).
Proof.
  intros Hr Hread. pose proof (render_mode _ _ _ _ _ Hr) as Hm. split_and!.
  - rewrite Hm. destruct requested, (ip_eligible_for_enforcement policy); cbn; naive_solver.
  - rewrite Hm. by destruct requested, (ip_eligible_for_enforcement policy).
  - unfold render_bridge_policy in Hr. rewrite <- Hm in Hr. intros ->. cbn in Hr. by injection Hr.
  - intros Hd. destruct (bridge_meaning _ _ _ _ _ _ _ f Hr Hd Hread) as (subnet & gateway & net & Hs & Hg & -> & Hv).
    by exists subnet, gateway.
Qed.

(** C5: isolation holds.  Under enforcement, a packet that opens a conversation
    from one participant to another is accepted exactly when it is not forged
    and a participant with the sender's address has an allowance for that
    destination, protocol and port; otherwise it is dropped. *)
Theorem peers_are_isolated policy requested counters text link multicast p q f :
  render_bridge_policy policy requested counters = Some (Enforce, text) ->
  policy_readable policy link multicast ->
  p ∈ policy.(ip_participants) -> q ∈ policy.(ip_participants) ->
  f.(payload) = Ip4 p.(pt_ipv4_address) q.(pt_ipv4_address) -> p.(pt_ipv4_address) <> q.(pt_ipv4_address) ->
  f.(known) = false -> f.(translated) = false ->
  (forall subnet, ipv4net_parse policy.(ip_subnet) = Some subnet -> q.(pt_ipv4_address) <> ipv4net_broadcast subnet) ->
  exists v, chain_verdict "forward" text f = Some v /\ (v = Accept \/ v = Drop)
  /\ (v = Accept <-> spoofed policy f = false
      /\ exists s al, s ∈ policy.(ip_participants) /\ al ∈ s.(pt_allowances)
         /\ s.(pt_ipv4_address) = p.(pt_ipv4_address) /\ al.(al_destination_address) = q.(pt_ipv4_address)
         /\ to_port al.(al_protocol) al.(al_port) f = true).
Proof.
  intros Hr Hread Hp Hq Hf Hne Hk Ht Hbc.
  destruct (bridge_meaning _ _ _ _ _ _ _ f Hr ltac:(discriminate) Hread) as (subnet & gateway & net & Hs & _ & _ & ->).
  eexists. split; [done|]. unfold bridge_policy. rewrite Hk, Ht.
  assert (peers policy f = true) as ->.
  { apply existsb_elem. exists (p, q). split; [by apply elem_of_participant_pairs|].
    unfold between, from4, to4. by rewrite Hf, !N.eqb_refl. }
  assert (from4 (N.eqb gateway) f && to4 (N.eqb (ipv4net_broadcast subnet)) f = false) as ->.
  { unfold from4, to4. rewrite Hf. apply andb_false_iff. right. apply N.eqb_neq. intros E. by apply (Hbc _ Hs). }
  assert (allowed policy f = true <-> exists s al, s ∈ policy.(ip_participants) /\ al ∈ s.(pt_allowances)
         /\ s.(pt_ipv4_address) = p.(pt_ipv4_address) /\ al.(al_destination_address) = q.(pt_ipv4_address)
         /\ to_port al.(al_protocol) al.(al_port) f = true) as Ha.
  { unfold allowed. rewrite existsb_elem. setoid_rewrite existsb_elem. unfold grants, from4, to4. rewrite Hf.
    setoid_rewrite andb_true_iff. setoid_rewrite andb_true_iff. setoid_rewrite N.eqb_eq. naive_solver. }
  rewrite <- Ha. cbn [orb ending]. destruct (spoofed policy f), (allowed policy f); naive_solver.
Qed.
End meaning.

(** ** A bridge with a web server and its database *)

Section bridge_sample.
#[local] Existing Instances CidrNet.crate cidr_text.
#[local] Existing Instances SmallBridge.program SmallBridge.documented.

Definition bridge_participant (id mac : string) (address : N) (allow : list IsolationAllowance) : IsolationParticipant :=
  {| pt_container_id := id; pt_name := id; pt_isolation_id := Some id; pt_ipv4_address := address;
     pt_allowances := allow; pt_mac := Some mac |}.

Definition web : IsolationParticipant :=
  bridge_participant "web" "02:42:ac:1e:00:0a" 2887647242
    [{| al_destination_id := "db"; al_destination_address := 2887647243; al_port := 5432; al_protocol := Tcp |}].
Definition db : IsolationParticipant := bridge_participant "db" "02:42:AC:1E:00:0B" 2887647243 [].

Definition bridge_sample : IsolationPolicy :=
  {| ip_schema_version := 1; ip_generated_at_unix_ms := 0; ip_network := "net"; ip_bridge := "br";
     ip_subnet := "172.30.0.0/24"; ip_eligible_for_enforcement := true;
     ip_reason_code := "isolation.policy_complete"; ip_safe_message := ""; ip_issues := [];
     ip_participants := [web; db]; ip_ipv6_subnet := Some "fd00:1::/64"; ip_bound_range := Some "172.30.0.0/28";
     ip_gateway_address := Some 2887647234%N; ip_rejected := [] |}.

Definition query_frame (mac : string) : Frame :=
  {| ether_source := mac; payload := Ip4 2887647242 2887647243; upper := ToPort Tcp 5432;
     known := false; translated := false |}.

Definition link_local : Ipv6Net := CidrNet.Build_Cidr (65152 * 2 ^ 112) 10.
Definition multicast : Ipv6Net := CidrNet.Build_Cidr (65280 * 2 ^ 112) 8.

Lemma bridge_sample_readable : policy_readable bridge_sample link_local multicast.
Proof.
  split.
  - intros n [Hn|Hn]; vm_compute in Hn; injection Hn as <-; vm_compute; reflexivity.
  - intros s n [= <-] Hn. vm_compute in Hn. injection Hn as <-. vm_compute. reflexivity.
  - vm_compute. reflexivity.
  - vm_compute. reflexivity.
  - intros n a Hn Ha. vm_compute in Hn. injection Hn as <-. vm_compute in Ha. injection Ha as <-. vm_compute. done.
  - apply list.Forall_cons_2; [split; [vm_compute; reflexivity|]|].
    + apply list.Forall_cons_2; [split; vm_compute; done|apply list.Forall_nil_2].
    + apply list.Forall_cons_2; [split; [vm_compute; reflexivity|apply list.Forall_nil_2]|apply list.Forall_nil_2].
Qed.

(** A query with a forged source is dropped. *)
Lemma bridge_means_policy_witness :
  exists text, render_bridge_policy bridge_sample Enforce ∅ = Some (Enforce, text)
  /\ chain_verdict "forward" text (query_frame "02:42:ac:1e:00:0c") = Some Drop.
Proof.
  destruct (render_bridge_policy bridge_sample Enforce ∅) as [[mode text]|] eqn:E; [|by vm_compute in E].
  destruct (bridge_means_policy bridge_sample Enforce ∅ mode text link_local multicast
    (query_frame "02:42:ac:1e:00:0c") E bridge_sample_readable) as (Hm & _ & _ & Hv).
  assert (mode = Enforce) as -> by (apply Hm; split; reflexivity).
  destruct (Hv ltac:(discriminate)) as (subnet & gateway & _ & _ & Hc).
  exists text. split; [reflexivity|]. rewrite Hc. vm_compute. reflexivity.
Defined.

(** The query the web server may send is accepted. *)
Lemma peers_are_isolated_witness :
  exists text, render_bridge_policy bridge_sample Enforce ∅ = Some (Enforce, text)
  /\ chain_verdict "forward" text (query_frame "02:42:ac:1e:00:0a") = Some Accept.
Proof.
  destruct (render_bridge_policy bridge_sample Enforce ∅) as [[mode text]|] eqn:E; [|by vm_compute in E].
  assert (mode = Enforce) as -> by (by rewrite (render_mode _ _ _ _ _ E)).
  destruct (peers_are_isolated bridge_sample Enforce ∅ text link_local multicast web db
    (query_frame "02:42:ac:1e:00:0a") E bridge_sample_readable) as (v & Hv & _ & Ha).
  - left.
  - right. left.
  - reflexivity.
  - discriminate.
  - reflexivity.
  - reflexivity.
  - intros subnet Hs. vm_compute in Hs. injection Hs as <-. vm_compute. discriminate.
  - exists text. split; [reflexivity|]. rewrite Hv. f_equal. apply Ha. split; [vm_compute; reflexivity|].
    exists web. eexists. split; [left|]. split; [left|]. vm_compute. auto.
Defined.
End bridge_sample.
