(* ===== verification/Machine.v ===== *)
(** The machine the gateway runs on, as its code sees it: processes and files.

    A computation performs actions one after the other and stops at the first
    error that it does not handle.  What each action answers may depend on
    everything that was done before ([Env]), and is otherwise arbitrary: the
    theorems quantify over it. *)

From S2P Require Import Prelude RustStr.

(** What an action answers: a process that could not be started, one that
    failed and what it wrote to its standard error, one that ended well and
    what it printed.  A file operation is [Done] or [NotRun]; a sleep is
    [NotRun] when the deadline of the code around it passes. *)
Inductive Reply (A : Type) : Type :=
| NotRun (error : string)
| Failed (stderr : string)
| Done (output : A).
Arguments NotRun {A} _.
Arguments Failed {A} _.
Arguments Done {A} _.

Inductive Action : Type :=
| RunProgram (program : string) (args : list string)
| CreateDirectory (path : string)
| ReadFile (path : string)
| WriteFile (path contents : string)
| SetMode (path : string) (mode : N)
| RemoveFile (path : string)
| StatFile (path : string)
| Sleep (milliseconds : N)
| QueryStore (operation : string).

#[export] Instance Action_eq_dec : EqDecision Action.
Proof. solve_decision. Defined.

(** An action with what it answered. *)
Definition Event : Type := Action * Reply string.

(** The answers, after the actions so far. *)
Class Env : Type := reply : list Event -> Action -> Reply string.

Definition Gateway (A : Type) : Type := list Event -> list Event * Result A string.

Definition gw_ret {A} (a : A) : Gateway A := fun log => (log, Ok a).
Definition gw_fail {A} (e : string) : Gateway A := fun log => (log, Err e).
Definition gw_bind {A B} (m : Gateway A) (f : A -> Gateway B) : Gateway B := fun log =>
  match m log with
  | (log, Ok a) => f a log
  | (log, Err e) => (log, Err e)
  end.

Notation "'step' x := m 'in' k" := (gw_bind m (fun x => k))
  (at level 60, x binder, m at level 200, k at level 200, right associativity).

(** [let _ = m.await;] *)
Definition gw_ignore {A} (m : Gateway A) : Gateway unit := fun log => ((m log).1, Ok tt).

(** [.context(message)] *)
Definition gw_context {A} (message : string) (m : Gateway A) : Gateway A := fun log =>
  match m log with
  | (log, Err _) => (log, Err message)
  | r => r
  end.

Fixpoint gw_each {A} (f : A -> Gateway unit) (l : list A) : Gateway unit :=
  match l with
  | [] => gw_ret tt
  | x :: l => step _ := f x in gw_each f l
  end.

Section actions.
Context `{!Env}.

Definition perform (a : Action) : Gateway (Reply string) := fun log =>
  let r := reply log a in (log ++ [(a, r)], Ok r).

(** A file operation with [?]. *)
Definition file_op (a : Action) : Gateway string :=
  step r := perform a in
  match r with
  | Done contents => gw_ret contents
  | NotRun e | Failed e => gw_fail e
  end.

(** [command(program, args)] of src/src/runtime.rs *)
Definition command (program : string) (args : list string) : Gateway unit :=
  step r := perform (RunProgram program args) in
  match r with
  | NotRun e => gw_fail e
  | Failed stderr => gw_fail (program +:+ " failed: " +:+ trim stderr)
  | Done _ => gw_ret tt
  end.
End actions.

(** ** Lemmas *)

(** From a log with [P], the computation leaves [Q] with its result, or [E] if
    it fails. *)
Definition triple {A} (P : list Event -> Prop) (m : Gateway A) (Q : A -> list Event -> Prop)
    (E : list Event -> Prop) : Prop :=
  forall log, P log ->
    match m log with (log', Ok a) => Q a log' | (log', Err _) => E log' end.

(** A property that every part of a computation keeps. *)
Definition keeps {A} (P : list Event -> Prop) (m : Gateway A) : Prop :=
  triple P m (fun _ => P) P.

Lemma triple_ret {A} (a : A) (P : list Event -> Prop) (Q : A -> list Event -> Prop) E :
  (forall log, P log -> Q a log) -> triple P (gw_ret a) Q E.
Proof. intros HQ log Hlog. by apply HQ. Qed.

Lemma triple_fail {A} P e (Q : A -> list Event -> Prop) (E : list Event -> Prop) :
  (forall log, P log -> E log) -> triple P (gw_fail e) Q E.
Proof. intros HE log Hlog. by apply HE. Qed.

Lemma triple_bind {A B} P (m : Gateway A) (f : A -> Gateway B) R Q E :
  triple P m R E -> (forall a, triple (R a) (f a) Q E) -> triple P (gw_bind m f) Q E.
Proof.
  intros Hm Hf log Hlog. unfold gw_bind. specialize (Hm log Hlog).
  destruct (m log) as [log1 [a|e]]; [by apply Hf|done].
Qed.

Lemma triple_weaken {A} P P' (m : Gateway A) (Q Q' : A -> list Event -> Prop) (E E' : list Event -> Prop) :
  triple P m Q E -> (forall log, P' log -> P log) -> (forall a log, Q a log -> Q' a log) ->
  (forall log, E log -> E' log) -> triple P' m Q' E'.
Proof.
  intros Hm HP HQ HE log Hlog. specialize (Hm log (HP log Hlog)).
  destruct (m log) as [log1 [a|e]]; auto.
Qed.

Lemma triple_ignore {A} P (m : Gateway A) (Q : list Event -> Prop) E :
  triple P m (fun _ => Q) Q -> triple P (gw_ignore m) (fun _ => Q) E.
Proof.
  intros Hm log Hlog. specialize (Hm log Hlog). unfold gw_ignore.
  by destruct (m log) as [log1 [a|e]].
Qed.

Lemma keeps_each {A} P (f : A -> Gateway unit) l :
  (forall x, x ∈ l -> keeps P (f x)) -> keeps P (gw_each f l).
Proof.
  induction l as [|x l IH]; intros Hf; [by apply triple_ret|].
  unfold keeps in *. cbn [gw_each].
  apply (triple_bind _ _ _ (fun _ => P)); [apply (Hf x); left|].
  intros _. apply IH. intros y Hy. apply Hf. by right.
Qed.

Lemma triple_command `{!Env} P program args (Q : unit -> list Event -> Prop) (E : list Event -> Prop) :
  (forall log out, P log -> Q tt (log ++ [(RunProgram program args, Done out)])) ->
  (forall log r, P log -> (forall out, r <> Done out) -> E (log ++ [(RunProgram program args, r)])) ->
  triple P (command program args) Q E.
Proof.
  intros HQ HE log Hlog. unfold command, gw_bind, perform.
  destruct (reply log _) eqn:Hr; cbn; [by apply HE|by apply HE|by apply HQ].
Qed.

Lemma triple_file_op `{!Env} P a (Q : string -> list Event -> Prop) (E : list Event -> Prop) :
  (forall log out, P log -> Q out (log ++ [(a, Done out)])) ->
  (forall log r, P log -> (forall out, r <> Done out) -> E (log ++ [(a, r)])) ->
  triple P (file_op a) Q E.
Proof.
  intros HQ HE log Hlog. unfold file_op, gw_bind, perform.
  destruct (reply log _) eqn:Hr; cbn; [by apply HE|by apply HE|by apply HQ].
Qed.

(** The result of a computation that ends well. *)
Lemma gw_bind_Ok {A B} (m : Gateway A) (f : A -> Gateway B) log log' b :
  gw_bind m f log = (log', Ok b) <-> exists log1 a, m log = (log1, Ok a) /\ f a log1 = (log', Ok b).
Proof.
  unfold gw_bind. destruct (m log) as [log1 [a|e]]; split.
  - eauto.
  - by intros (? & ? & [= <- <-] & ?).
  - done.
  - by intros (? & ? & ? & _).
Qed.

Lemma command_Ok `{!Env} program args log log' :
  command program args log = (log', Ok tt) <->
  exists out, reply log (RunProgram program args) = Done out
              /\ log' = log ++ [(RunProgram program args, Done out)].
Proof.
  unfold command, gw_bind, perform. destruct (reply log _) as [e|e|out]; cbn; split; try done.
  - by intros (? & ? & _).
  - by intros (? & ? & _).
  - intros [= <-]. eauto.
  - by intros (? & [= <-] & ->).
Qed.

(** ** What a computation does

    [m] only adds actions that satisfy [ok]. *)
Definition performs {A} (ok : Action -> bool) (m : Gateway A) : Prop :=
  forall log, exists tail, (m log).1 = log ++ tail /\ Forall (fun e => ok e.1 = true) tail.

Lemma performs_ret {A} ok (a : A) : performs ok (gw_ret a).
Proof. intros log. exists []. by rewrite app_nil_r. Qed.

Lemma performs_fail {A} ok e : performs ok (gw_fail (A := A) e).
Proof. intros log. exists []. by rewrite app_nil_r. Qed.

Lemma performs_bind {A B} ok (m : Gateway A) (f : A -> Gateway B) :
  performs ok m -> (forall a, performs ok (f a)) -> performs ok (gw_bind m f).
Proof.
  intros Hm Hf log. destruct (Hm log) as (t1 & H1 & Hok1). unfold gw_bind.
  destruct (m log) as [log1 [a|e]]; cbn in H1; subst log1; [|by exists t1].
  destruct (Hf a (log ++ t1)) as (t2 & -> & Hok2). exists (t1 ++ t2).
  rewrite app_assoc. split; [done|]. by apply Forall_app_2.
Qed.

Lemma performs_ignore {A} ok (m : Gateway A) : performs ok m -> performs ok (gw_ignore m).
Proof. intros Hm log. exact (Hm log). Qed.

Lemma performs_context {A} ok message (m : Gateway A) : performs ok m -> performs ok (gw_context message m).
Proof.
  intros Hm log. destruct (Hm log) as (tail & Heq & Hok). exists tail. split; [|done].
  unfold gw_context. by destruct (m log) as [log1 [a|e]].
Qed.

Lemma performs_each {A} ok (f : A -> Gateway unit) l :
  (forall x, performs ok (f x)) -> performs ok (gw_each f l).
Proof.
  intros Hf. induction l as [|x l IH]; [apply performs_ret|]. apply performs_bind; [apply Hf|done].
Qed.

Lemma performs_perform `{!Env} (ok : Action -> bool) a : ok a = true -> performs ok (perform a).
Proof. intros Ha log. eexists. split; [reflexivity|]. by constructor. Qed.

Lemma performs_command `{!Env} (ok : Action -> bool) program args :
  ok (RunProgram program args) = true -> performs ok (command program args).
Proof.
  intros Ha. apply performs_bind; [by apply performs_perform|].
  intros []; [apply performs_fail|apply performs_fail|apply performs_ret].
Qed.

Lemma performs_file_op `{!Env} (ok : Action -> bool) a : ok a = true -> performs ok (file_op a).
Proof.
  intros Ha. apply performs_bind; [by apply performs_perform|].
  intros []; [apply performs_fail|apply performs_fail|apply performs_ret].
Qed.

Create HintDb gateway discriminated.
#[export] Hint Resolve performs_ret performs_fail performs_bind performs_ignore performs_context performs_each
  performs_perform performs_command performs_file_op : gateway.

(** A property of logs that an action outside [risky] cannot break. *)
Lemma performs_triple {A} (ok : Action -> bool) (m : Gateway A) (P : list Event -> Prop) :
  performs ok m -> (forall log a r, ok a = true -> P log -> P (log ++ [(a, r)])) -> keeps P m.
Proof.
  intros Hm HP log Hlog. destruct (Hm log) as (tail & Heq & Hok).
  assert (P (m log).1) as Hres.
  { rewrite Heq. clear Heq. induction tail as [|[a r] tail IH] using rev_ind; [by rewrite app_nil_r|].
    apply Forall_app in Hok as [Ht Hok]. apply Forall_inv in Hok. rewrite app_assoc. auto. }
  by destruct (m log) as [log' [a|e]].
Qed.
