(* ===== verification/StateErr.v ===== *)
(** Computations on a state that can fail.

    A computation ends with the state it leaves, also when it fails: an
    operation of the program that returns an error has still done what it did
    before. *)

From S2P Require Import Prelude.

Definition St (S A : Type) : Type := S -> S * Result A string.

Section computations.
Context {S : Type}.

Definition ret {A} (a : A) : St S A := fun s => (s, Ok a).
Definition fail {A} (e : string) : St S A := fun s => (s, Err e).
Definition bind {A B} (m : St S A) (f : A -> St S B) : St S B := fun s =>
  match m s with
  | (s, Ok a) => f a s
  | (s, Err e) => (s, Err e)
  end.
(** The result as a value: no [?]. *)
Definition attempt {A} (m : St S A) : St S (Result A string) := fun s => ((m s).1, Ok (m s).2).
Definition gets {A} (f : S -> A) : St S A := fun s => (s, Ok (f s)).
Definition modify (f : S -> S) : St S unit := fun s => (f s, Ok tt).
Definition lift {A} (r : Result A string) : St S A := fun s => (s, r).

Fixpoint each {A} (f : A -> St S unit) (l : list A) : St S unit :=
  match l with
  | [] => ret tt
  | x :: l => bind (f x) (fun _ => each f l)
  end.

(** [Q] of the state and the result that [m] leaves from [s]. *)
Definition wp {A} (m : St S A) (s : S) (Q : S -> Result A string -> Prop) : Prop := Q (m s).1 (m s).2.

Lemma wp_bind {A B} (m : St S A) (f : A -> St S B) s Q :
  wp m s (fun s1 r => match r with Ok a => wp (f a) s1 Q | Err e => Q s1 (Err e) end) ->
  wp (bind m f) s Q.
Proof. unfold wp, bind. by destruct (m s) as [s1 [a|e]]. Qed.

(** A computation that ends well, by its steps. *)
Lemma bind_Ok {A B} (m : St S A) (f : A -> St S B) s s' b :
  bind m f s = (s', Ok b) <-> exists s1 a, m s = (s1, Ok a) /\ f a s1 = (s', Ok b).
Proof. unfold bind. destruct (m s) as [s1 [a|e]]; naive_solver. Qed.

Lemma lift_Ok {A} (r : Result A string) s s' a : lift r s = (s', Ok a) <-> s' = s /\ r = Ok a.
Proof. unfold lift. naive_solver. Qed.

Lemma ret_Ok {A} (a b : A) s s' : ret a s = (s', Ok b) <-> s' = s /\ b = a.
Proof. unfold ret. naive_solver. Qed.

Lemma gets_Ok {A} (f : S -> A) s s' b : gets f s = (s', Ok b) <-> s' = s /\ b = f s.
Proof. unfold gets. naive_solver. Qed.

Lemma wp_weaken {A} (m : St S A) s (Q Q' : S -> Result A string -> Prop) :
  (forall s1 r, Q s1 r -> Q' s1 r) -> wp m s Q -> wp m s Q'.
Proof. unfold wp. auto. Qed.

Lemma wp_gets {A} (f : S -> A) s (Q : S -> Result A string -> Prop) : Q s (Ok (f s)) -> wp (gets f) s Q.
Proof. done. Qed.

Lemma wp_modify (f : S -> S) s (Q : S -> Result unit string -> Prop) : Q (f s) (Ok tt) -> wp (modify f) s Q.
Proof. done. Qed.

Lemma wp_lift {A} (r : Result A string) s (Q : S -> Result A string -> Prop) : Q s r -> wp (lift r) s Q.
Proof. done. Qed.

Lemma wp_attempt {A} (m : St S A) s (Q : S -> Result (Result A string) string -> Prop) :
  wp m s (fun s1 r => Q s1 (Ok r)) -> wp (attempt m) s Q.
Proof. done. Qed.

(** A loop with an invariant [I] that leaves [E] when a turn fails. *)
Lemma wp_each {A} (f : A -> St S unit) l s (I E : S -> Prop) :
  (forall x s, x ∈ l -> I s -> wp (f x) s (fun s1 r => match r with Ok _ => I s1 | Err _ => E s1 end)) -> I s ->
  wp (each f l) s (fun s1 r => match r with Ok _ => I s1 | Err _ => E s1 end).
Proof.
  revert s. induction l as [|x l IH]; intros s Hf Hs; [done|]. cbn [each]. apply wp_bind.
  eapply wp_weaken; [|apply Hf; [left|exact Hs]]. cbv beta. intros s1 [[]|e] Hs1; [|done].
  apply IH; [|done]. intros y s2 Hy. apply Hf. by right.
Qed.
End computations.

Notation "'let*' x := m 'in' k" := (bind m (fun x => k))
  (at level 60, x binder, m at level 200, k at level 200, right associativity).
