(* ===== verification/Routes.v ===== *)
(** The tunnel and its routes (src/src/runtime.rs): the policy table of the
    gateway, the routes to the services behind the tunnel, and bringing the
    interface up and down. *)

From S2P Require Import Prelude RustStr Net BTree HostPolicy WireGuard Config Machine.

Section routes.
Context `{!IpNetCrate, !Env} (config : Config).

Definition ip (args : list string) : Gateway unit := command "ip" args.

Definition table : string := show_N config.(c_network).(nc_route_table).
Definition tunnel : string := config.(c_wireguard).(wc_interface).

Definition gateway_table_route_args (table tunnel : string) : list (list string) :=
  let route tail := ["route"; "replace"; "table"; table] ++ tail in
  [route ["unreachable"; "default"; "metric"; show_N UNREACHABLE_METRIC];
   route ["default"; "dev"; tunnel]].

(** A [BTreeSet], in its order. *)
Definition tunnel_service_routes (profile_dns : list Ipv4Addr) : gset Ipv4Addr :=
  let routes := list_to_set profile_dns in
  let routes :=
    if bool_decide (config.(c_port_forwarding).(pc_backend) = NatPmp)
    then routes ∪ {[ config.(c_port_forwarding).(pc_gateway) ]} else routes in
  if config.(c_dns).(dc_enabled)
     && bool_decide (config.(c_dns).(dc_upstream).(du_source) = UpstreamExplicit)
  then routes ∪ list_to_set
         (omap (fun address =>
            socket ← parse_socket address;
            match Net.socket_ip socket with IpAddr_V4 a => Some a | IpAddr_V6 _ => None end)
          config.(c_dns).(dc_upstream).(du_addresses))
  else routes.

Definition configure_gateway_ipv6_routes (profile_carries_ipv6 : bool) : Gateway unit :=
  match ipv6_routing config.(c_network) with
  | None => gw_ret tt
  | Some v =>
      let subnet := ipv6net_show v.(i6_subnet) in
      let local_gateway := show_ipv6 v.(i6_gateway_ip) in
      step _ := ip ["-6"; "route"; "replace"; "table"; table; "unreachable"; "default"; "metric";
                    show_N IPV6_UNREACHABLE_METRIC] in
      step _ :=
        if profile_carries_ipv6
        then ip ["-6"; "route"; "replace"; "table"; table; "default"; "dev"; tunnel]
        else gw_ignore (ip ["-6"; "route"; "del"; "table"; table; "default"; "dev"; tunnel]) in
      step _ := gw_ignore (ip ["-6"; "rule"; "del"; "from"; subnet; "lookup"; table]) in
      step _ := gw_ignore (ip ["-6"; "rule"; "del"; "from"; local_gateway; "lookup"; "main"]) in
      step _ := ip ["-6"; "rule"; "add"; "priority"; "90"; "from"; local_gateway; "lookup"; "main"] in
      ip ["-6"; "rule"; "add"; "priority"; "100"; "from"; subnet; "lookup"; table]
  end.

Definition service_route (destination : Ipv4Addr) : Gateway unit :=
  ip ["route"; "replace"; show_ipv4 destination; "dev"; tunnel; "scope"; "link"].

Definition configure_gateway_routes (profile_dns : list Ipv4Addr) (profile_carries_ipv6 : bool)
    : Gateway unit :=
  let subnet := ipv4net_show config.(c_network).(nc_subnet) in
  let local_gateway := show_ipv4 config.(c_network).(nc_gateway_ip) in
  step _ := gw_ignore (ip ["rule"; "del"; "from"; subnet; "lookup"; table]) in
  step _ := gw_ignore (ip ["rule"; "del"; "from"; local_gateway; "lookup"; "main"]) in
  step _ := ip ["rule"; "add"; "priority"; "90"; "from"; local_gateway; "lookup"; "main"] in
  step _ := ip ["rule"; "add"; "priority"; "100"; "from"; subnet; "lookup"; table] in
  step _ := gw_each ip (gateway_table_route_args table tunnel) in
  step _ := gw_each service_route (btree_set_iter N.leb (tunnel_service_routes profile_dns)) in
  configure_gateway_ipv6_routes profile_carries_ipv6.

(** One turn of the loop over the previous profile's DNS servers. *)
Definition remove_service_route (desired : gset Ipv4Addr) (address : Ipv4Addr) : Gateway unit :=
  if bool_decide (address ∈ desired) then gw_ret tt
  else
    step r := perform (RunProgram "ip" ["route"; "del"; show_ipv4 address; "dev"; tunnel; "scope"; "link"]) in
    match r with
    | NotRun e => gw_fail e
    | Failed stderr =>
        if str_contains stderr "No such process" then gw_ret tt
        else gw_fail "removing obsolete tunnel service route failed"
    | Done _ => gw_ret tt
    end.

Definition reconcile_gateway_routes (previous_profile_dns desired_profile_dns : list Ipv4Addr)
    (profile_carries_ipv6 : bool) : Gateway unit :=
  step _ := configure_gateway_routes desired_profile_dns profile_carries_ipv6 in
  gw_each (remove_service_route (tunnel_service_routes desired_profile_dns)) previous_profile_dns.

(** ** DNS *)

Definition dns_upstream (profile : option WireGuardProfile) : option SocketAddr :=
  match config.(c_dns).(dc_upstream).(du_source) with
  | UpstreamProfile =>
      address ← (profile ≫= fun p => head (ipv4_dns p)); Some (SocketAddr_V4 address 53)
  | UpstreamExplicit => head config.(c_dns).(dc_upstream).(du_addresses) ≫= parse_socket
  end.

Definition validate_profile_capabilities (profile : WireGuardProfile) : Result unit string :=
  ensure (negb (config.(c_dns).(dc_enabled)
                && bool_decide (config.(c_dns).(dc_upstream).(du_source) = UpstreamProfile)
                && match ipv4_dns profile with [] => true | _ => false end))
    "DNS forwarding uses the profile, but the profile has no usable IPv4 DNS address".

(** ** The interface *)

Definition runtime_path : string := "/run/egressy/" +:+ tunnel +:+ ".conf".

(** The two halves around the first [" - "] of a line of the mount table. *)
Definition tmpfs_at (directory line : string) : bool :=
  match split_at_sub " - " line with
  | Some (before, after) =>
      let after := match split_at_sub " - " after with Some (a, _) => a | None => after end in
      bool_decide (split_whitespace before !! 4%nat = Some directory)
      && bool_decide (head (split_whitespace after) = Some "tmpfs")
  | None => false
  end.

Definition verify_tmpfs (directory : string) : Gateway unit :=
  step mounts := file_op (ReadFile "/proc/self/mountinfo") in
  if existsb (tmpfs_at directory) (lines mounts) then gw_ret tt
  else gw_fail "/run/egressy must be a dedicated tmpfs mount".

Definition prepare_wireguard_profile (profile : WireGuardProfile) : Gateway string :=
  step _ := file_op (CreateDirectory "/run/egressy") in
  step _ := verify_tmpfs "/run/egressy" in
  step _ := file_op (SetMode "/run/egressy" 448) in
  step _ := file_op (WriteFile runtime_path (render profile)) in
  step _ := file_op (SetMode runtime_path 384) in
  gw_ret runtime_path.

Definition wireguard_up (profile : WireGuardProfile) : Gateway unit :=
  step path := prepare_wireguard_profile profile in
  step _ := command "wg-quick" ["up"; path] in
  configure_gateway_routes (ipv4_dns profile) (carries_ipv6 profile).

(** A failure is logged. *)
Definition wireguard_down : Gateway unit := gw_ignore (command "wg-quick" ["down"; runtime_path]).
End routes.
