(* ===== verification/RoutesProps.v ===== *)
(** The tunnel's routes: nothing is routed into the policy table's tunnel route
    without the unreachable route behind it, and what is in force after the
    routes were configured. *)

From S2P Require Import Prelude RustStr StrFacts Net NetFacts BTree Order HostPolicy WireGuard Config ConfigProps Machine Routes.

(** ** What [ip] was told

    A rule or a route is named by the words that select it.  [ip] replaces,
    adds and deletes as documented: a command that ended well had its effect,
    one that failed had none, and a deletion that failed because there is "No
    such process" says that the entry is not there. *)

Definition change_of (args : list string) : option (bool * list string) :=
  match args with
  | object :: verb :: rest =>
      if String.eqb object "route" then
        if String.eqb verb "replace" then Some (true, object :: rest)
        else if String.eqb verb "del" then Some (false, object :: rest) else None
      else if String.eqb object "rule" then
        if String.eqb verb "add" then Some (true, object :: skipn 2 rest)
        else if String.eqb verb "del" then Some (false, object :: rest) else None
      else None
  | _ => None
  end.

Definition ip_change (args : list string) : option (bool * list string) :=
  match args with
  | [] => None
  | family :: rest =>
      if String.eqb family "-6"
      then (fun '(adds, name) => (adds, family :: name)) <$> change_of rest
      else change_of args
  end.

Notation Entries := (gset (list string)).

Definition ip_effect (entries : Entries) (args : list string) (r : Reply string) : Entries :=
  match ip_change args, r with
  | Some (true, name), Done _ => entries ∪ {[ name ]}
  | Some (false, name), Done _ => entries ∖ {[ name ]}
  | Some (false, name), Failed stderr =>
      if str_contains stderr "No such process" then entries ∖ {[ name ]} else entries
  | _, _ => entries
  end.

Definition effect (entries : Entries) (e : Event) : Entries :=
  match e with
  | (RunProgram program args, r) =>
      if String.eqb program "ip" then ip_effect entries args r else entries
  | _ => entries
  end.

(** The rules and routes in force after the actions. *)
Definition in_force (log : list Event) : Entries := foldl effect ∅ log.

Lemma in_force_snoc log e : in_force (log ++ [e]) = effect (in_force log) e.
Proof. unfold in_force. by rewrite foldl_app. Qed.

(** ** Triples about the entries *)

Section entries.
Context `{!Env}.

Definition holds (P : Entries -> Prop) (log : list Event) : Prop := P (in_force log).

Lemma triple_ip (P : Entries -> Prop) (args : list string) (Q : unit -> Entries -> Prop) (E : Entries -> Prop) :
  (forall entries out, P entries -> Q tt (ip_effect entries args (Done out))) ->
  (forall entries r, P entries -> (forall out, r <> Done out) -> E (ip_effect entries args r)) ->
  triple (holds P) (ip args) (fun _ => holds (Q tt)) (holds E).
Proof.
  intros HQ HE. unfold ip. apply triple_command; unfold holds; intros log out Hlog.
  - rewrite in_force_snoc. cbn. by apply HQ.
  - intros Hr. rewrite in_force_snoc. cbn. by apply HE.
Qed.

(** An action that is not a call of [ip]. *)
Definition is_ip (a : Action) : bool :=
  match a with RunProgram program _ => String.eqb program "ip" | _ => false end.

Lemma in_force_other log a r : is_ip a = false -> in_force (log ++ [(a, r)]) = in_force log.
Proof. intros Ha. rewrite in_force_snoc. destruct a; try done. cbn in *. by rewrite Ha. Qed.

Lemma keeps_file_op P a : is_ip a = false -> triple (holds P) (file_op a) (fun _ => holds P) (holds P).
Proof.
  intros Ha. apply triple_file_op; intros; unfold holds; by rewrite in_force_other.
Qed.

Lemma keeps_command P program args :
  String.eqb program "ip" = false ->
  triple (holds P) (command program args) (fun _ => holds P) (holds P).
Proof. intros Ha. apply triple_command; intros; unfold holds; by rewrite in_force_other. Qed.
End entries.

(** ** The entries of the gateway *)

Section gateway.
Context `{!IpNetCrate, !Env} (config : Config).
Implicit Types (W U : list (list string)) (log : list Event).

Definition gateway_rule : list string :=
  ["rule"; "from"; show_ipv4 config.(c_network).(nc_gateway_ip); "lookup"; "main"].
Definition subnet_rule : list string :=
  ["rule"; "from"; ipv4net_show config.(c_network).(nc_subnet); "lookup"; table config].
Definition gateway_rule6 (v : Ipv6Config) : list string :=
  ["-6"; "rule"; "from"; show_ipv6 v.(i6_gateway_ip); "lookup"; "main"].
Definition subnet_rule6 (v : Ipv6Config) : list string :=
  ["-6"; "rule"; "from"; ipv6net_show v.(i6_subnet); "lookup"; table config].
Definition unreachable_route : list string :=
  ["route"; "table"; table config; "unreachable"; "default"; "metric"; show_N UNREACHABLE_METRIC].
Definition tunnel_route : list string :=
  ["route"; "table"; table config; "default"; "dev"; tunnel config].
Definition unreachable_route6 : list string :=
  ["-6"; "route"; "table"; table config; "unreachable"; "default"; "metric"; show_N IPV6_UNREACHABLE_METRIC].
Definition tunnel_route6 : list string :=
  ["-6"; "route"; "table"; table config; "default"; "dev"; tunnel config].
Definition service_entry (destination : Ipv4Addr) : list string :=
  ["route"; show_ipv4 destination; "dev"; tunnel config; "scope"; "link"].

(** A default route through the tunnel has the unreachable route behind it, and
    IPv6 clients are sent to the policy table only when it has one. *)
Definition fail_closed (entries : Entries) : Prop :=
  (tunnel_route ∈ entries -> unreachable_route ∈ entries)
  /\ (tunnel_route6 ∈ entries -> unreachable_route6 ∈ entries)
  /\ forall v, ipv6_routing config.(c_network) = Some v ->
       subnet_rule6 v ∈ entries -> unreachable_route6 ∈ entries.

(** [fail_closed] after every action so far, and [P] now. *)
Definition closed_and (P : Entries -> Prop) (log : list Event) : Prop :=
  (forall before, before `prefix_of` log -> fail_closed (in_force before)) /\ P (in_force log).

(** The entries of [present] are in force, those of [absent] are not. *)
Definition shows (present absent : list (list string)) (entries : Entries) : Prop :=
  Forall (fun name => name ∈ entries) present /\ Forall (fun name => name ∉ entries) absent.

Notation closed W U := (closed_and (shows W U)).

(** What a command must respect, when [present] is known. *)
Definition safe (present : list (list string)) (args : list string) : Prop :=
  match ip_change args with
  | Some (true, name) =>
      (name = tunnel_route -> unreachable_route ∈ present)
      /\ (name = tunnel_route6 -> unreachable_route6 ∈ present)
      /\ (forall v, ipv6_routing config.(c_network) = Some v -> name = subnet_rule6 v ->
           unreachable_route6 ∈ present)
  | Some (false, name) => name <> unreachable_route /\ name <> unreachable_route6
  | None => True
  end.

Lemma ip_effect_cases entries args r :
  ip_effect entries args r = entries
  \/ (exists name, ip_change args = Some (true, name) /\ ip_effect entries args r = entries ∪ {[ name ]})
  \/ (exists name, ip_change args = Some (false, name) /\ ip_effect entries args r = entries ∖ {[ name ]}).
Proof.
  unfold ip_effect. destruct (ip_change args) as [[[|] name]|]; [| |by left].
  - destruct r; eauto.
  - destruct r; [by left| |eauto]. destruct (str_contains _ _); eauto.
Qed.

Lemma fail_closed_effect W U entries args r :
  safe W args -> shows W U entries -> fail_closed entries -> fail_closed (ip_effect entries args r).
Proof.
  intros Hsafe [HW _] (H4 & H6 & Hr6). rewrite list.Forall_forall in HW. unfold safe in Hsafe.
  destruct (ip_effect_cases entries args r) as [->|[(name & Hname & ->)|(name & Hname & ->)]]; [done| |];
    rewrite Hname in Hsafe.
  - destruct Hsafe as (Ha4 & Ha6 & Har). unfold fail_closed. split_and!.
    + intros [?|Heq%elem_of_singleton]%elem_of_union; apply elem_of_union_l; [auto|by apply HW, Ha4].
    + intros [?|Heq%elem_of_singleton]%elem_of_union; apply elem_of_union_l; [auto|by apply HW, Ha6].
    + intros v Hv [?|Heq%elem_of_singleton]%elem_of_union; apply elem_of_union_l; [by eauto|].
      apply HW, (Har v); done.
  - destruct Hsafe as [Hn4 Hn6]. unfold fail_closed. split_and!.
    + intros [? _]%elem_of_difference. apply elem_of_difference; set_solver.
    + intros [? _]%elem_of_difference. apply elem_of_difference; set_solver.
    + intros v Hv [? _]%elem_of_difference. apply elem_of_difference. specialize (Hr6 v Hv). set_solver.
Qed.

(** [shows] through a command. *)
Lemma shows_add W U entries name :
  name ∉ U -> shows W U entries -> shows (name :: W) U (entries ∪ {[ name ]}).
Proof.
  unfold shows. rewrite list.Forall_cons, !list.Forall_forall. intros HU [HW HUe]. split_and!; [set_solver|set_solver|].
  intros x Hx [?|Heq%elem_of_singleton]%elem_of_union; [by apply (HUe x)|by subst].
Qed.

Lemma shows_del W U entries name :
  name ∉ W -> shows W U entries -> shows W (name :: U) (entries ∖ {[ name ]}).
Proof.
  unfold shows. rewrite list.Forall_cons, !list.Forall_forall. intros HnW [HW HU]. split_and!; [|set_solver|set_solver].
  intros x Hx. apply elem_of_difference. split; [by apply HW|]. intros ->%elem_of_singleton. done.
Qed.

Lemma shows_weaken W U W' U' entries :
  (forall name, name ∈ W' -> name ∈ W) -> (forall name, name ∈ U' -> name ∈ U) ->
  shows W U entries -> shows W' U' entries.
Proof. unfold shows. rewrite !list.Forall_forall. intros HW HU [? ?]. auto. Qed.

Lemma closed_snoc P Q log e :
  closed_and P log -> fail_closed (in_force (log ++ [e])) -> Q (in_force (log ++ [e])) ->
  closed_and Q (log ++ [e]).
Proof.
  intros [Hall _] Hc HQ. split; [|done]. intros before [k Hk].
  destruct k as [|x k _] using rev_ind.
  - rewrite app_nil_r in Hk. by subst.
  - rewrite app_assoc in Hk. apply app_inj_tail in Hk as [-> _]. apply Hall. by exists k.
Qed.

Lemma closed_now P log : closed_and P log -> fail_closed (in_force log) /\ P (in_force log).
Proof. intros [Hall HP]. split; [by apply Hall|done]. Qed.

Lemma closed_weaken P Q log : (forall entries, P entries -> Q entries) -> closed_and P log -> closed_and Q log.
Proof. intros HPQ [Hall HP]. split; auto. Qed.

Lemma closed_forget W U log : closed W U log -> closed [] [] log.
Proof. apply closed_weaken. intros entries. apply shows_weaken; by intros ? ?%elem_of_nil. Qed.

Lemma closed_effect W U (Q : Entries -> Prop) log args r :
  safe W args -> closed W U log -> (forall entries, shows W U entries -> Q (ip_effect entries args r)) ->
  closed_and Q (log ++ [(RunProgram "ip" args, r)]).
Proof.
  intros Hsafe Hlog HQ. pose proof (closed_now _ _ Hlog) as [Hc HP].
  apply (closed_snoc (shows W U)); [done| |]; rewrite in_force_snoc; cbn; [|by apply HQ].
  by apply (fail_closed_effect W U).
Qed.

Lemma closed_add W U args name :
  ip_change args = Some (true, name) -> safe W args -> name ∉ U ->
  triple (closed W U) (ip args) (fun _ => closed (name :: W) U) (closed [] []).
Proof.
  intros Hname Hsafe HU. unfold ip. apply triple_command.
  - intros log out Hlog. apply (closed_effect W U); [done|done|]. intros entries He.
    unfold ip_effect. rewrite Hname. by apply shows_add.
  - intros log r Hlog Hr. apply (closed_forget W U), (closed_effect W U); [done|done|].
    intros entries He. unfold ip_effect. rewrite Hname. destruct r as [| |out]; try done. by destruct (Hr out).
Qed.

Lemma closed_deleted W U args name r log :
  ip_change args = Some (false, name) -> safe W args -> name ∉ W -> closed W U log ->
  closed W U (log ++ [(RunProgram "ip" args, r)]).
Proof.
  intros Hname Hsafe HW Hlog. apply (closed_effect W U); [done|done|]. intros entries He.
  assert (shows W U (entries ∖ {[ name ]})).
  { apply (shows_weaken W (name :: U)); [done|intros; by right|by apply shows_del]. }
  unfold ip_effect. rewrite Hname. destruct r; [done| |done]. by destruct (str_contains _ _).
Qed.

(** A deletion whose failure is ignored. *)
Lemma closed_try_del W U args name :
  ip_change args = Some (false, name) -> safe W args -> name ∉ W ->
  triple (closed W U) (gw_ignore (ip args)) (fun _ => closed W U) (closed [] []).
Proof.
  intros Hname Hsafe HW.
  apply (triple_weaken (closed W U) _ _ (fun _ => closed W U) _ (closed W U));
    [|done|done|intros log; apply closed_forget].
  apply triple_ignore. unfold ip.
  apply triple_command; intros log r Hlog; try intros _; by apply (closed_deleted W U _ name).
Qed.

Lemma closed_other W U a (r : Reply string) log :
  is_ip a = false -> closed W U log -> closed W U (log ++ [(a, r)]).
Proof.
  intros Ha Hlog. pose proof (closed_now _ _ Hlog) as [Hc Hnow].
  apply (closed_snoc (shows W U)); [done| |]; by rewrite in_force_other.
Qed.

Lemma closed_file_op W U a :
  is_ip a = false -> triple (closed W U) (file_op a) (fun _ => closed W U) (closed [] []).
Proof.
  intros Ha. apply triple_file_op; intros log r Hlog; [|intros _; apply (closed_forget W U)];
    by apply closed_other.
Qed.

Lemma closed_program W U program args :
  String.eqb program "ip" = false ->
  triple (closed W U) (command program args) (fun _ => closed W U) (closed [] []).
Proof.
  intros Ha. apply triple_command; intros log r Hlog; [|intros _; apply (closed_forget W U)];
    by apply closed_other.
Qed.

(** *** The operations *)

Definition ipv6_entries (carries : bool) : list (list string) :=
  match ipv6_routing config.(c_network) with
  | None => []
  | Some v =>
      [subnet_rule6 v; gateway_rule6 v] ++ (if carries then [tunnel_route6] else []) ++ [unreachable_route6]
  end.

Ltac known := repeat first [left; reflexivity | right].
Ltac safe_command :=
  cbv [safe ip_change change_of String.eqb Ascii.eqb Bool.eqb skipn fmap option_fmap option_map];
  unfold not; split_and?; intros;
  solve [match goal with Heq : _ = _ :> list string |- _ => discriminate Heq end | assumption | known].
Ltac ip_add name :=
  first [eapply triple_bind; [apply (closed_add _ _ _ name); [reflexivity|safe_command|]|intros []; cbv beta]
        |apply (closed_add _ _ _ name); [reflexivity|safe_command|]].
Ltac ip_try_del name :=
  eapply triple_bind; [apply (closed_try_del _ _ _ name); [reflexivity|safe_command|]|intros []; cbv beta].

Lemma configure_gateway_ipv6_routes_closed W carries :
  (forall name, name ∈ W -> head name <> Some "-6") ->
  triple (closed W []) (configure_gateway_ipv6_routes config carries)
    (fun _ => closed (ipv6_entries carries ++ W) []) (closed [] []).
Proof.
  intros HW. unfold configure_gateway_ipv6_routes, ipv6_entries.
  destruct (ipv6_routing (c_network config)) as [v|] eqn:Hv; [|by apply triple_ret].
  assert (HnW : forall name, head name = Some "-6" -> name ∉ W) by (intros name ? ?; by apply (HW name)).
  ip_add unreachable_route6; [by intros ?%elem_of_nil|].
  apply (triple_bind _ _ _ (fun _ => closed ((if carries then [tunnel_route6] else []) ++ unreachable_route6 :: W) [])).
  { destruct carries.
    - ip_add tunnel_route6. by intros ?%elem_of_nil.
    - apply (closed_try_del _ _ _ tunnel_route6); [reflexivity|by cbn|].
      intros [?|?%HnW]%elem_of_cons; done. }
  intros _. set (W1 := _ ++ _ :: W).
  assert (HW1 : forall name, head name = Some "-6" -> nth_error name 1 = Some "rule" -> name ∉ W1).
  { intros name Hhead Hsnd. subst W1. rewrite elem_of_app, elem_of_cons. intros [Hin|[->|Hin]]; [|done|].
    - destruct carries; [|by apply elem_of_nil in Hin]. apply list_elem_of_singleton in Hin. by subst.
    - by apply (HnW name). }
  assert (Hun : unreachable_route6 ∈ W1) by (subst W1; apply elem_of_app; right; left).
  ip_try_del (subnet_rule6 v); [by apply HW1|].
  ip_try_del (gateway_rule6 v); [by apply HW1|].
  ip_add (gateway_rule6 v); [by intros ?%elem_of_nil|].
  eapply triple_weaken; [apply (closed_add (gateway_rule6 v :: W1) [] _ (subnet_rule6 v)); [reflexivity| |]|done| |done].
  - split_and!; [discriminate|discriminate|]. intros. by right.
  - by intros ?%elem_of_nil.
  - intros [] log. apply closed_weaken. intros entries. apply shows_weaken; [|done]. intros name. subst W1. cbn.
    rewrite !elem_of_cons, !elem_of_app, !elem_of_cons. cbn. set_solver.
Qed.

Lemma closed_same W W' log : (forall name, name ∈ W' -> name ∈ W) -> closed W [] log -> closed W' [] log.
Proof. intros HW. apply closed_weaken. intros entries. by apply shows_weaken. Qed.

Lemma service_routes_closed W destinations :
  triple (closed W []) (gw_each (service_route config) destinations)
    (fun _ => closed ((service_entry <$> destinations) ++ W) []) (closed [] []).
Proof.
  revert W. induction destinations as [|a l IH]; intros W; [by apply triple_ret|].
  cbn [gw_each]. ip_add (service_entry a); [by intros ?%elem_of_nil|].
  eapply triple_weaken; [apply IH|done| |done]. intros [] log. apply closed_same.
  intros name. cbn. rewrite !elem_of_cons, !elem_of_app, !elem_of_cons. tauto.
Qed.

Definition route_entries (profile_dns : list Ipv4Addr) (carries : bool) : list (list string) :=
  ipv6_entries carries
  ++ (service_entry <$> btree_set_iter N.leb (tunnel_service_routes config profile_dns))
  ++ [tunnel_route; unreachable_route; subnet_rule; gateway_rule].

Lemma configure_gateway_routes_closed profile_dns carries :
  triple (closed [] []) (configure_gateway_routes config profile_dns carries)
    (fun _ => closed (route_entries profile_dns carries) []) (closed [] []).
Proof.
  unfold configure_gateway_routes.
  ip_try_del subnet_rule; [by intros ?%elem_of_nil|].
  ip_try_del gateway_rule; [by intros ?%elem_of_nil|].
  ip_add gateway_rule; [by intros ?%elem_of_nil|].
  ip_add subnet_rule; [by intros ?%elem_of_nil|].
  apply (triple_bind _ _ _
    (fun _ => closed [tunnel_route; unreachable_route; subnet_rule; gateway_rule] [])).
  { cbn [gateway_table_route_args gw_each app].
    ip_add unreachable_route; [by intros ?%elem_of_nil|].
    ip_add tunnel_route; [by intros ?%elem_of_nil|].
    by apply triple_ret. }
  intros _. eapply triple_bind; [apply service_routes_closed|]. intros []. cbv beta.
  apply configure_gateway_ipv6_routes_closed. intros name.
  rewrite elem_of_app, list_elem_of_fmap, !elem_of_cons, elem_of_nil.
  intros [(a & -> & _)|[->|[->|[->|[->|[]]]]]]; discriminate.
Qed.

Lemma closed_del W U args name :
  ip_change args = Some (false, name) -> safe W args -> name ∉ W ->
  forall log r, closed W U log ->
    closed W U (log ++ [(RunProgram "ip" args, r)])
    /\ (match r with Done _ => true | Failed e => str_contains e "No such process" | NotRun _ => false end = true ->
        closed W (name :: U) (log ++ [(RunProgram "ip" args, r)])).
Proof.
  intros Hname Hsafe HW log r Hlog. split; [by apply (closed_deleted _ _ _ name)|]. intros Hr.
  apply (closed_effect W U); [done|done|]. intros entries He. unfold ip_effect. rewrite Hname.
  destruct r as [|e|]; [done|rewrite Hr|]; by apply shows_del.
Qed.

Lemma remove_service_route_closed W U desired a :
  (a ∉ desired -> service_entry a ∉ W) ->
  triple (closed W U) (remove_service_route config desired a)
    (fun _ => closed W ((if bool_decide (a ∈ desired) then [] else [service_entry a]) ++ U)) (closed [] []).
Proof.
  intros HW. unfold remove_service_route. case_bool_decide as Ha; [by apply triple_ret|].
  intros log Hlog. unfold gw_bind, perform.
  destruct (closed_del W U ["route"; "del"; show_ipv4 a; "dev"; tunnel config; "scope"; "link"]
              (service_entry a) eq_refl ltac:(safe_command) (HW Ha) log
              (reply log (RunProgram "ip" ["route"; "del"; show_ipv4 a; "dev"; tunnel config; "scope"; "link"])) Hlog)
    as [Hkeep Hdel].
  destruct (reply log _) as [e|stderr|out]; cbn -[in_force].
  - by apply (closed_forget W U).
  - destruct (str_contains stderr _) eqn:Hc; [by apply Hdel|by apply (closed_forget W U)].
  - by apply Hdel.
Qed.

Lemma remove_service_routes_closed W U desired previous :
  (forall a, a ∈ previous -> a ∉ desired -> service_entry a ∉ W) ->
  triple (closed W U) (gw_each (remove_service_route config desired) previous)
    (fun _ => closed W ((service_entry <$> List.filter (fun a => negb (bool_decide (a ∈ desired))) previous) ++ U))
    (closed [] []).
Proof.
  revert U. induction previous as [|a l IH]; intros U HW; [by apply triple_ret|].
  cbn [gw_each]. eapply triple_bind; [apply remove_service_route_closed, HW; left|]. intros []. cbv beta.
  eapply triple_weaken; [apply IH; intros b Hb; apply HW; by right|done| |done].
  intros [] log. apply closed_weaken. intros entries. apply shows_weaken; [done|]. intros name. cbn.
  case_bool_decide; cbn; rewrite ?elem_of_app, ?elem_of_cons, ?elem_of_app; tauto.
Qed.

Lemma reconcile_gateway_routes_closed previous desired carries :
  triple (closed [] []) (reconcile_gateway_routes config previous desired carries)
    (fun _ => closed (route_entries desired carries)
                (service_entry <$> List.filter (fun a => negb (bool_decide (a ∈ tunnel_service_routes config desired)))
                                     previous))
    (closed [] []).
Proof.
  eapply triple_bind; [apply configure_gateway_routes_closed|]. intros []. cbv beta.
  eapply triple_weaken; [apply remove_service_routes_closed|done| |done].
  2: { intros [] log. rewrite app_nil_r. done. }
  intros a Ha Hna. unfold route_entries, ipv6_entries.
  rewrite !elem_of_app, list_elem_of_fmap, !elem_of_cons, elem_of_nil. intros [Hin|[(b & Heq & Hb)|Hin]].
  - destruct (ipv6_routing _) as [v|]; [|by apply elem_of_nil in Hin].
    destruct carries; cbn in Hin; rewrite ?elem_of_cons, elem_of_nil in Hin; intuition discriminate.
  - unfold service_entry in Heq. apply elem_of_btree_set_iter in Hb.
    assert (a = b) as -> by (apply show_ipv4_inj; congruence). done.
  - intuition discriminate.
Qed.

Lemma wireguard_down_closed : triple (closed [] []) (wireguard_down config) (fun _ => closed [] []) (closed [] []).
Proof. apply triple_ignore. by apply closed_program. Qed.

Lemma wireguard_up_closed profile :
  triple (closed [] []) (wireguard_up config profile)
    (fun _ => closed (route_entries (ipv4_dns profile) (carries_ipv6 profile)) []) (closed [] []).
Proof.
  apply (triple_bind _ _ _ (fun _ => closed [] [])).
  - unfold prepare_wireguard_profile, verify_tmpfs.
    repeat first
      [by apply closed_file_op
      |by apply triple_ret
      |apply (triple_bind _ _ _ (fun _ => closed [] [])); [|intros ?]].
    match goal with |- context [existsb ?f ?l] => destruct (existsb f l) end;
      [by apply triple_ret|by apply triple_fail].
  - intros path. eapply triple_bind; [by apply closed_program|].
    intros []. apply configure_gateway_routes_closed.
Qed.

(** ** Sequences of operations *)

Inductive RouteOp : Type :=
| OpUp (profile : WireGuardProfile)
| OpDown
| OpReconcile (previous_dns desired_dns : list Ipv4Addr) (carries_ipv6 : bool).

Definition run_op (o : RouteOp) : Gateway unit :=
  match o with
  | OpUp profile => wireguard_up config profile
  | OpDown => wireguard_down config
  | OpReconcile previous desired carries => reconcile_gateway_routes config previous desired carries
  end.

(** The operations one after the other, whether they end well or not. *)
Definition run_ops (ops : list RouteOp) : Gateway unit := gw_each (fun o => gw_ignore (run_op o)) ops.

Lemma reconcile_closed previous desired carries :
  triple (closed [] []) (reconcile_gateway_routes config previous desired carries)
    (fun _ => closed [] []) (closed [] []).
Proof.
  eapply triple_weaken; [apply reconcile_gateway_routes_closed|done| |done]. intros [] log. apply closed_forget.
Qed.

(** The entries wanted are in force. *)
Lemma reconcile_entries previous desired carries :
  triple (closed [] []) (reconcile_gateway_routes config previous desired carries)
    (fun _ log => forall name, name ∈ route_entries desired carries -> name ∈ in_force log) (fun _ => True).
Proof.
  eapply triple_weaken; [apply reconcile_gateway_routes_closed|done| |done]. intros [] log [_ [HW _]].
  by rewrite list.Forall_forall in HW.
Qed.

Lemma run_ops_closed ops : triple (closed [] []) (run_ops ops) (fun _ => closed [] []) (closed [] []).
Proof.
  apply (keeps_each (closed [] [])). intros o _. apply triple_ignore. destruct o.
  - eapply triple_weaken; [apply wireguard_up_closed|done| |done]. intros [] log. apply closed_forget.
  - apply wireguard_down_closed.
  - apply reconcile_closed.
Qed.

Lemma run_ops_log ops : closed [] [] (run_ops ops []).1.
Proof.
  assert (Hstart : closed [] [] []).
  { split; [|by split]. intros pre Hpre. apply prefix_nil_inv in Hpre as ->. split_and!; set_solver. }
  pose proof (run_ops_closed ops [] Hstart) as Hrun.
  destruct (run_ops ops []) as [log [[]|e]]; exact Hrun.
Qed.

(** C9: fail closed at every instant.  Whatever sequence of bringing the tunnel
    up, taking it down and reconciling its routes is run, whatever the commands
    answer and wherever they fail, after every single command: a default route
    through the tunnel in the policy table is backed by the unreachable route,
    and IPv6 clients are only directed to the policy table when it has its
    unreachable route, so that losing the interface never exposes traffic. *)
Theorem tunnel_route_is_backed (ops : list RouteOp) (before after : list Event) :
  (run_ops ops []).1 = before ++ after -> fail_closed (in_force before).
Proof.
  intros Hlog. apply (proj1 (run_ops_log ops)). rewrite Hlog. by exists after.
Qed.

(** a reconciliation that ends well, after any operations, has installed the policy rules, both
    default routes of the policy table, the IPv6 ones when the network has
    IPv6, and a route through the tunnel to every service behind it; the routes
    to the previous profile's servers that are no longer wanted are gone. *)
Theorem reconciled_routes (previous desired : list Ipv4Addr) (carries : bool)
    (ops : list RouteOp) (log' : list Event) :
  reconcile_gateway_routes config previous desired carries (run_ops ops []).1 = (log', Ok tt) ->
  (forall name, name ∈ route_entries desired carries -> name ∈ in_force log')
  /\ (forall a, a ∈ previous -> a ∉ tunnel_service_routes config desired -> service_entry a ∉ in_force log').
Proof.
  intros Hrun.
  pose proof (reconcile_gateway_routes_closed previous desired carries _ (run_ops_log ops)) as Hspec.
  rewrite Hrun in Hspec. destruct Hspec as [_ [HW HU]].
  rewrite list.Forall_forall in HW, HU. split; [done|].
  intros a Ha Hna. apply HU, list_elem_of_fmap. exists a. split; [done|].
  apply list_elem_of_In, filter_In. rewrite <- list_elem_of_In, bool_decide_eq_false_2 by done. done.
Qed.

(** ** The profile's file *)

Definition writes_file (a : Action) : bool := match a with WriteFile _ _ => true | _ => false end.

(** Every file written went to a directory that was a tmpfs, closed to others. *)
Definition written_safely (log : list Event) : Prop :=
  forall before after path contents r, log = before ++ (WriteFile path contents, r) :: after ->
    (exists mounts, (ReadFile "/proc/self/mountinfo", Done mounts) ∈ before
                    /\ existsb (tmpfs_at "/run/egressy") (lines mounts) = true)
    /\ exists out, (SetMode "/run/egressy" 448, Done out) ∈ before.

Lemma written_snoc log a r :
  written_safely log ->
  (writes_file a = true ->
   (exists mounts, (ReadFile "/proc/self/mountinfo", Done mounts) ∈ log
                   /\ existsb (tmpfs_at "/run/egressy") (lines mounts) = true)
   /\ exists out, (SetMode "/run/egressy" 448, Done out) ∈ log) ->
  written_safely (log ++ [(a, r)]).
Proof.
  intros Hlog Ha before after path contents r' Heq.
  destruct after as [|e after _] using rev_ind.
  - apply app_inj_tail in Heq as [-> [= -> _]]. by apply Ha.
  - rewrite app_comm_cons, app_assoc in Heq. apply app_inj_tail in Heq as [-> _]. by eapply Hlog.
Qed.

Lemma written_keeps {A} (m : Gateway A) : performs (fun a => negb (writes_file a)) m -> keeps written_safely m.
Proof.
  intros Hm. apply (performs_triple _ _ _ Hm). intros log a r Ha Hlog. apply written_snoc; [done|].
  intros Hw. by rewrite Hw in Ha.
Qed.

Lemma routes_write_nothing profile_dns carries :
  performs (fun a => negb (writes_file a)) (configure_gateway_routes config profile_dns carries).
Proof.
  unfold configure_gateway_routes, configure_gateway_ipv6_routes, service_route, ip.
  destruct (ipv6_routing _); [destruct carries|]; auto 20 with gateway.
Qed.

Lemma remove_writes_nothing desired a :
  performs (fun a => negb (writes_file a)) (remove_service_route config desired a).
Proof.
  unfold remove_service_route. case_bool_decide; [auto with gateway|].
  apply performs_bind; [auto with gateway|].
  intros [|stderr|]; [auto with gateway| |auto with gateway]. destruct (str_contains _ _); auto with gateway.
Qed.

Lemma verified_spec P :
  (forall log a r, negb (writes_file a) = true -> P log -> P (log ++ [(a, r)])) ->
  triple P (verify_tmpfs "/run/egressy")
    (fun _ log => P log /\ exists mounts, (ReadFile "/proc/self/mountinfo", Done mounts) ∈ log
                   /\ existsb (tmpfs_at "/run/egressy") (lines mounts) = true) P.
Proof.
  intros HP log Hlog. unfold verify_tmpfs, file_op, gw_bind, perform.
  destruct (reply log _) as [| |mounts]; cbn -[existsb]; [by apply HP|by apply HP|].
  destruct (existsb _ _) eqn:Hm; cbn; [|by apply HP]. split; [by apply HP|].
  exists mounts. split; [apply elem_of_app; right; left|done].
Qed.

Lemma wireguard_up_written profile : keeps written_safely (wireguard_up config profile).
Proof.
  apply (triple_bind _ _ _ (fun _ => written_safely)).
  2: { intros path. apply written_keeps. apply performs_bind; [auto with gateway|].
       intros _. apply routes_write_nothing. }
  apply (triple_bind _ _ _ (fun _ => written_safely)); [apply written_keeps; auto with gateway|]. intros _.
  eapply triple_bind.
  { apply verified_spec. intros log a r Ha Hlog. apply written_snoc; [done|]. intros Hw. by rewrite Hw in Ha. }
  intros []. cbv beta.
  apply (triple_bind _ _ _ (fun _ log => written_safely log
    /\ (exists mounts, (ReadFile "/proc/self/mountinfo", Done mounts) ∈ log
          /\ existsb (tmpfs_at "/run/egressy") (lines mounts) = true)
    /\ exists out, (SetMode "/run/egressy" 448, Done out) ∈ log)).
  { apply triple_file_op.
    - intros log out (Hlog & mounts & Hin & Hm). split; [by apply written_snoc|]. split.
      + exists mounts. split; [apply elem_of_app; by left|exact Hm].
      + exists out. apply elem_of_app. right. left.
    - intros log r [Hlog _] _. by apply written_snoc. }
  intros _. apply (triple_bind _ _ _ (fun _ => written_safely)).
  { apply triple_file_op; [intros log r|intros log r]; intros (Hlog & Hm & Hmode); try intros _;
      by apply written_snoc. }
  intros _. apply written_keeps. auto with gateway.
Qed.

(** the profile with its private key is only ever written to the runtime
    directory after the kernel's mount table showed a tmpfs there and the
    directory was closed to every other user, whatever sequence of operations
    is run and whatever fails. *)
Theorem keys_stay_in_memory (ops : list RouteOp) : written_safely (run_ops ops []).1.
Proof.
  assert (Hrun : keeps written_safely (run_ops ops)).
  { apply keeps_each. intros o _. apply triple_ignore. destruct o.
    - apply wireguard_up_written.
    - apply written_keeps. cbn [run_op]. unfold wireguard_down. auto with gateway.
    - apply written_keeps. cbn [run_op]. unfold reconcile_gateway_routes. apply performs_bind; [apply routes_write_nothing|].
      intros _. apply performs_each. apply remove_writes_nothing. }
  assert (Hstart : written_safely []) by (intros [|] after path contents r Heq; discriminate Heq).
  specialize (Hrun [] Hstart). by destruct (run_ops ops []) as [log [[]|e]].
Qed.
End gateway.

(** ** A run where every command ends well *)

Definition all_well : Env := fun _ a =>
  match a with
  | ReadFile _ => Done ("21 1 0:20 / /run/egressy rw,nosuid - tmpfs tmpfs rw,size=4096k" +:+ NL)
  | _ => Done ""
  end.

Definition example_ops : list (@RouteOp CidrNet.crate) :=
  [@OpReconcile CidrNet.crate [] [167772161%N] false; @OpDown CidrNet.crate].

Lemma tunnel_route_is_backed_witness :
  bool_decide (@tunnel_route CidrNet.crate example_config
               ∈ in_force (@run_ops CidrNet.crate all_well example_config example_ops []).1) = true
  /\ @fail_closed CidrNet.crate example_config
       (in_force (@run_ops CidrNet.crate all_well example_config example_ops []).1).
Proof.
  split; [vm_compute; reflexivity|].
  exact (@tunnel_route_is_backed CidrNet.crate all_well example_config example_ops _ [] (eq_sym (app_nil_r _))).
Defined.

Lemma reconciled_routes_witness :
  exists log',
    @reconcile_gateway_routes CidrNet.crate all_well example_config [167772161%N] [167772162%N] false
      (@run_ops CidrNet.crate all_well example_config example_ops []).1 = (log', Ok tt)
    /\ (forall name, name ∈ @route_entries CidrNet.crate example_config [167772162%N] false -> name ∈ in_force log')
    /\ (forall a, a ∈ [167772161%N] -> a ∉ @tunnel_service_routes CidrNet.crate example_config [167772162%N] ->
        @service_entry CidrNet.crate example_config a ∉ in_force log').
Proof.
  eexists. split; [vm_compute; reflexivity|].
  exact (@reconciled_routes CidrNet.crate all_well example_config [167772161%N] [167772162%N] false example_ops _
           eq_refl).
Defined.
