(* ===== verification/Enforcement.v ===== *)
(** The coordinator of the gateway's enforcement state
    (src/src/enforcement.rs): the desired DNAT rules, the clients with their
    traffic counters, and the nft transactions that install them.

    The mutex makes every operation one step.  An operation ends with the state
    it leaves, also when it fails, and its result.  nft is a program of the
    host: what it replies during an operation is an argument. *)

From S2P Require Import Prelude RustStr Net BTree State Config Host Machine.

Record DnatTarget : Type := { dt_container_id : string; dt_address : Ipv4Addr; dt_port : N }.

#[export] Instance DnatTarget_eq_dec : EqDecision DnatTarget.
Proof. solve_decision. Defined.

Record ClientCounterTotals : Type := {
  tot_download_packets : N;
  tot_downloaded_bytes : N;
  tot_upload_packets : N;
  tot_uploaded_bytes : N;
}.

(** ** Counters *)

Record CounterAccumulator : Type := { total : N; last_raw : N }.

Definition CounterAccumulator_default : CounterAccumulator := {| total := 0; last_raw := 0 |}.

Module CounterAccumulator.
Definition observe (c : CounterAccumulator) (raw : N) : CounterAccumulator :=
  let delta := if (c.(last_raw) <=? raw)%N then (raw - c.(last_raw))%N else raw in
  {| total := saturating_add u64_MAX c.(total) delta; last_raw := raw |}.

Definition seeded (c : CounterAccumulator) : CounterAccumulator :=
  {| total := c.(total); last_raw := c.(total) |}.
End CounterAccumulator.

Record ClientCounters : Type := {
  cc_address : Ipv4Addr;
  cc_ipv6_address : option Ipv6Addr;
  cc_download_packets : CounterAccumulator;
  cc_downloaded_bytes : CounterAccumulator;
  cc_upload_packets : CounterAccumulator;
  cc_uploaded_bytes : CounterAccumulator;
}.

Module ClientCounters.
Definition new (address : Ipv4Addr) : ClientCounters := {|
  cc_address := address;
  cc_ipv6_address := None;
  cc_download_packets := CounterAccumulator_default;
  cc_downloaded_bytes := CounterAccumulator_default;
  cc_upload_packets := CounterAccumulator_default;
  cc_uploaded_bytes := CounterAccumulator_default;
|}.

Definition totals (c : ClientCounters) : ClientCounterTotals := {|
  tot_download_packets := c.(cc_download_packets).(total);
  tot_downloaded_bytes := c.(cc_downloaded_bytes).(total);
  tot_upload_packets := c.(cc_upload_packets).(total);
  tot_uploaded_bytes := c.(cc_uploaded_bytes).(total);
|}.

Definition seeded (c : ClientCounters) : ClientCounters := {|
  cc_address := c.(cc_address);
  cc_ipv6_address := c.(cc_ipv6_address);
  cc_download_packets := CounterAccumulator.seeded c.(cc_download_packets);
  cc_downloaded_bytes := CounterAccumulator.seeded c.(cc_downloaded_bytes);
  cc_upload_packets := CounterAccumulator.seeded c.(cc_upload_packets);
  cc_uploaded_bytes := CounterAccumulator.seeded c.(cc_uploaded_bytes);
|}.

Definition observe_download (packets bytes : N) (c : ClientCounters) : ClientCounters := {|
  cc_address := c.(cc_address);
  cc_ipv6_address := c.(cc_ipv6_address);
  cc_download_packets := CounterAccumulator.observe c.(cc_download_packets) packets;
  cc_downloaded_bytes := CounterAccumulator.observe c.(cc_downloaded_bytes) bytes;
  cc_upload_packets := c.(cc_upload_packets);
  cc_uploaded_bytes := c.(cc_uploaded_bytes);
|}.

Definition observe_upload (packets bytes : N) (c : ClientCounters) : ClientCounters := {|
  cc_address := c.(cc_address);
  cc_ipv6_address := c.(cc_ipv6_address);
  cc_download_packets := c.(cc_download_packets);
  cc_downloaded_bytes := c.(cc_downloaded_bytes);
  cc_upload_packets := CounterAccumulator.observe c.(cc_upload_packets) packets;
  cc_uploaded_bytes := CounterAccumulator.observe c.(cc_uploaded_bytes) bytes;
|}.

Definition with_ipv6 (address : option Ipv6Addr) (c : ClientCounters) : ClientCounters := {|
  cc_address := c.(cc_address);
  cc_ipv6_address := address;
  cc_download_packets := c.(cc_download_packets);
  cc_downloaded_bytes := c.(cc_downloaded_bytes);
  cc_upload_packets := c.(cc_upload_packets);
  cc_uploaded_bytes := c.(cc_uploaded_bytes);
|}.
End ClientCounters.

(** ** The state *)

Record DesiredPolicy : Type := {
  dnat_allowed : bool;
  dnat_targets : gmap string DnatTarget;
  desired_dnat : gmap string Dnat;
  applied_dnat : gmap string Dnat;
  clients : gmap string ClientCounters;
}.

Definition DesiredPolicy_default : DesiredPolicy := {|
  dnat_allowed := false; dnat_targets := ∅; desired_dnat := ∅; applied_dnat := ∅; clients := ∅ |}.

Definition set_allowed (b : bool) (p : DesiredPolicy) : DesiredPolicy := {|
  dnat_allowed := b; dnat_targets := p.(dnat_targets); desired_dnat := p.(desired_dnat);
  applied_dnat := p.(applied_dnat); clients := p.(clients) |}.
Definition set_targets (t : gmap string DnatTarget) (p : DesiredPolicy) : DesiredPolicy := {|
  dnat_allowed := p.(dnat_allowed); dnat_targets := t; desired_dnat := p.(desired_dnat);
  applied_dnat := p.(applied_dnat); clients := p.(clients) |}.
Definition set_desired (d : gmap string Dnat) (p : DesiredPolicy) : DesiredPolicy := {|
  dnat_allowed := p.(dnat_allowed); dnat_targets := p.(dnat_targets); desired_dnat := d;
  applied_dnat := p.(applied_dnat); clients := p.(clients) |}.
Definition set_clients (cs : gmap string ClientCounters) (p : DesiredPolicy) : DesiredPolicy := {|
  dnat_allowed := p.(dnat_allowed); dnat_targets := p.(dnat_targets);
  desired_dnat := p.(desired_dnat); applied_dnat := p.(applied_dnat); clients := cs |}.
Definition set_applied (d : gmap string Dnat) (p : DesiredPolicy) : DesiredPolicy := {|
  dnat_allowed := p.(dnat_allowed); dnat_targets := p.(dnat_targets);
  desired_dnat := p.(desired_dnat); applied_dnat := d; clients := p.(clients) |}.

(** ** nft *)

Record NftCounter : Type := { nc_counter_name : string; nc_packets : N; nc_bytes : N }.

(** An item of the document is a counter or something else. *)
Definition NftItem : Type := option NftCounter.

Record Nft : Type := {
  (** [nft list table inet egressy] before the counters are read, and before
      the transaction *)
  nft_exists_at_read : Reply unit;
  nft_exists_at_load : Reply unit;
  (** [nft -j list counters ..]: [None] when the output does not decode *)
  nft_list_counters : Reply (option (list NftItem));
  (** [nft -f -] on the text *)
  nft_load : string -> Reply unit;
}.

Definition table_exists (reply : Reply unit) : Result bool string :=
  match reply with
  | NotRun e => Err e
  | Failed _ => Ok false
  | Done _ => Ok true
  end.

(** ** The operations *)

Section Coordinator.
Context `{!IpNetCrate} (config : Config).

(** What an operation leaves, and its result. *)
Definition Outcome (A : Type) : Type := DesiredPolicy * Result A string.

Definition manages : bool := config.(c_reconcile).(rn_apply_gateway_firewall).

Definition observe_counter (cs : gmap string ClientCounters) (item : NftItem)
    : gmap string ClientCounters :=
  match item with
  | None => cs
  | Some counter =>
      map_imap (fun container_id client => Some
        (if String.eqb counter.(nc_counter_name) (client_counter_name "down" container_id)
         then ClientCounters.observe_download counter.(nc_packets) counter.(nc_bytes) client
         else if String.eqb counter.(nc_counter_name) (client_counter_name "up" container_id)
         then ClientCounters.observe_upload counter.(nc_packets) counter.(nc_bytes) client
         else client)) cs
  end.

Definition observe_kernel_locked (nft : Nft) (p : DesiredPolicy) : Outcome unit :=
  if negb manages then (p, Ok tt)
  else match table_exists nft.(nft_exists_at_read) with
  | Err e => (p, Err e)
  | Ok false => (p, Ok tt)
  | Ok true =>
      match nft.(nft_list_counters) with
      | NotRun e => (p, Err e)
      | Failed stderr => (p, Err ("nft counter read failed: " +:+ trim stderr))
      | Done None => (p, Err "decoding nft counter response")
      | Done (Some items) => (set_clients (foldl observe_counter p.(clients) items) p, Ok tt)
      end
  end.

Definition counter_rule (container_id : string) (counters : ClientCounters) : ClientCounterRule :=
  let totals := ClientCounters.totals counters in
  {| cr_container_id := container_id;
     cr_address := counters.(cc_address);
     cr_ipv6_address := counters.(cc_ipv6_address);
     cr_download_packets := totals.(tot_download_packets);
     cr_downloaded_bytes := totals.(tot_downloaded_bytes);
     cr_upload_packets := totals.(tot_upload_packets);
     cr_uploaded_bytes := totals.(tot_uploaded_bytes) |}.

Definition counter_rules (p : DesiredPolicy) : list ClientCounterRule :=
  (fun '(id, counters) => counter_rule id counters) <$> btree_iter String.leb p.(clients).

Definition rules_of (p : DesiredPolicy) : string :=
  render_gateway_firewall config (btree_values String.leb p.(desired_dnat)) (counter_rules p).

Definition transaction (exists_ : bool) (p : DesiredPolicy) : string :=
  if exists_ then "delete table inet egressy" +:+ NL +:+ rules_of p else rules_of p.

(** The table was replaced by the desired one. *)
Definition installed (p : DesiredPolicy) : DesiredPolicy :=
  set_applied p.(desired_dnat) (set_clients (ClientCounters.seeded <$> p.(clients)) p).

Definition apply_locked (nft : Nft) (p : DesiredPolicy) : Outcome unit :=
  if negb manages then (p, Ok tt)
  else match observe_kernel_locked nft p with
  | (p, Err e) => (p, Err e)
  | (p, Ok tt) =>
      match table_exists nft.(nft_exists_at_load) with
      | Err e => (p, Err e)
      | Ok exists_ =>
          match nft.(nft_load) (transaction exists_ p) with
          | NotRun e => (p, Err e)
          | Failed stderr => (p, Err ("nft reconciliation failed: " +:+ trim stderr))
          | Done _ => (installed p, Ok tt)
          end
      end
  end.

Definition reconcile_base (nft : Nft) (p : DesiredPolicy) : Outcome unit := apply_locked nft p.

Definition enable_dnat (p : DesiredPolicy) : DesiredPolicy := set_allowed true p.

Definition disable_dnat (nft : Nft) (p : DesiredPolicy) : Outcome unit :=
  apply_locked nft (set_desired ∅ (set_allowed false p)).

Definition set_dnat_for_target (usage_id : string) (dnat : Dnat) (target : DnatTarget)
    (nft : Nft) (p : DesiredPolicy) : Outcome bool :=
  if negb p.(dnat_allowed) || negb (bool_decide (p.(dnat_targets) !! usage_id = Some target))
  then (p, Ok false)
  else match apply_locked nft (set_desired (<[usage_id := dnat]> p.(desired_dnat)) p) with
  | (p, Err e) => (p, Err e)
  | (p, Ok tt) => (p, Ok true)
  end.

Definition clear_dnat_for_usage (usage_id : string) (nft : Nft) (p : DesiredPolicy) : Outcome unit :=
  apply_locked nft (set_desired (delete usage_id p.(desired_dnat)) p).

Definition dnat_is_applied (usage_id : string) (dnat : Dnat) (p : DesiredPolicy) : bool :=
  bool_decide (p.(applied_dnat) !! usage_id = Some dnat).

(** The last client of a usage identity, in the order of identifiers. *)
Definition select_dnat_targets (cs : gmap string ClientState) : gmap string DnatTarget :=
  list_to_map (rev
    (omap (fun client =>
       if client.(cl_port_forward_target) && client.(cl_compliant)
       then port ← client.(cl_target_port);
            Some (client.(cl_usage_id),
                  {| dt_container_id := client.(cl_container_id);
                     dt_address := client.(cl_ipv4_address); dt_port := port |})
       else None)
     (btree_values String.leb cs))).

Definition countable (container_id : string) (client : ClientState) : bool :=
  negb (client.(cl_ipv4_address) =? UNSPECIFIED)%N && negb (is_empty container_id)
  && str_forallb is_ascii_alphanumeric container_id.

(** A client that is still there, with the address it had. *)
Definition same_address (cs : gmap string ClientState) (id : string) (counters : ClientCounters) : bool :=
  match cs !! id with
  | Some client => (client.(cl_ipv4_address) =? counters.(cc_address))%N
  | None => false
  end.

Definition sync_clients (counters : gmap string ClientCounters) (cs : gmap string ClientState)
    : gmap string ClientCounters :=
  let kept := filter (fun ic => same_address cs ic.1 ic.2 = true) counters in
  foldl (fun m '(id, client) =>
      if countable id client
      then <[id := ClientCounters.with_ipv6 (client.(cl_ipv6_address) ≫= parse_ipv6)
                     (default (ClientCounters.new client.(cl_ipv4_address)) (m !! id))]> m
      else m)
    kept (btree_iter String.leb cs).

(** The desired rules of the usage identities whose target did not change. *)
Definition retained (previous targets : gmap string DnatTarget) (desired : gmap string Dnat)
    : gmap string Dnat :=
  filter (fun ud => previous !! ud.1 = targets !! ud.1) desired.

Definition reconcile_clients (cs : gmap string ClientState) (at_start at_end : Nft)
    (p : DesiredPolicy) : Outcome unit :=
  match observe_kernel_locked at_start p with
  | (p, Err e) => (p, Err e)
  | (p, Ok tt) =>
      let targets := select_dnat_targets cs in
      let p := set_desired (retained p.(dnat_targets) targets p.(desired_dnat)) p in
      let p := set_targets targets p in
      apply_locked at_end (set_clients (sync_clients p.(clients) cs) p)
  end.

Definition sample_client_counters (nft : Nft) (p : DesiredPolicy)
    : Outcome (gmap string ClientCounterTotals) :=
  match observe_kernel_locked nft p with
  | (p, Err e) => (p, Err e)
  | (p, Ok tt) => (p, Ok (ClientCounters.totals <$> p.(clients)))
  end.
End Coordinator.
