(* ===== verification/EnforcementProps.v ===== *)
(** Enforcement: what is forwarded is what the current clients asked for, what
    a failure leaves, and traffic counts that survive the replacement of the
    table. *)

From S2P Require Import Prelude RustStr Net BTree State NetFacts Config ConfigProps Nft Host HostProps Machine Enforcement.

(** ** The traffic of one counter *)

(** Traffic passes; the kernel's counter is read; the table is replaced, with
    the counter read before and [missed] units of traffic between the reading
    and the replacement; something else resets the counter. *)
Inductive CounterEvent : Type :=
| Traffic (n : N)
| Observed
| Replaced (missed : N)
| ResetElsewhere.

(** The accumulator, the counter of the kernel, and the traffic so far. *)
Record Metered : Type := { acc : CounterAccumulator; raw : N; seen : N }.

Definition metered_start : Metered := {| acc := CounterAccumulator_default; raw := 0; seen := 0 |}.

(** The new table carries the total, as the rendered rules do. *)
Definition meter (m : Metered) (e : CounterEvent) : Metered :=
  match e with
  | Traffic n => {| acc := m.(acc); raw := m.(raw) + n; seen := m.(seen) + n |}
  | Observed => {| acc := CounterAccumulator.observe m.(acc) m.(raw); raw := m.(raw); seen := m.(seen) |}
  | Replaced missed =>
      let read := CounterAccumulator.observe m.(acc) m.(raw) in
      {| acc := CounterAccumulator.seeded read; raw := read.(total); seen := m.(seen) + missed |}
  | ResetElsewhere => {| acc := m.(acc); raw := 0; seen := m.(seen) |}
  end%N.

(** What the next reading will add. *)
Definition unread (m : Metered) : N :=
  if (m.(acc).(last_raw) <=? m.(raw))%N then m.(raw) - m.(acc).(last_raw) else m.(raw).

Definition missed_by (e : CounterEvent) : N := match e with Replaced n => n | _ => 0 end.
Definition is_reset (e : CounterEvent) : bool := match e with ResetElsewhere => true | _ => false end.

Lemma seen_grows m e : (m.(seen) <= (meter m e).(seen))%N.
Proof. destruct e; cbn; lia. Qed.

Lemma seen_grows_all m es : (m.(seen) <= (foldl meter m es).(seen))%N.
Proof.
  revert m; induction es as [|e es IH]; intros m; cbn [foldl]; [lia|].
  specialize (IH (meter m e)). pose proof (seen_grows m e). lia.
Qed.

Lemma observe_exact m :
  (m.(acc).(total) + unread m <= u64_MAX)%N ->
  (CounterAccumulator.observe m.(acc) m.(raw)).(total) = (m.(acc).(total) + unread m)%N.
Proof. intros Hmax. unfold CounterAccumulator.observe, unread in *. cbn. by apply saturating_add_exact. Qed.

Lemma unread_fresh a raw seen : a.(last_raw) = raw -> unread {| acc := a; raw := raw; seen := seen |} = 0%N.
Proof. intros <-. unfold unread. cbn. rewrite N.leb_refl. lia. Qed.

Lemma meter_step m e :
  ((meter m e).(seen) <= u64_MAX)%N -> (m.(acc).(total) + unread m <= m.(seen))%N ->
  ((meter m e).(acc).(total) + unread (meter m e) <= (meter m e).(seen))%N
  /\ (m.(acc).(total) <= (meter m e).(acc).(total))%N.
Proof.
  intros Hmax Hle. pose proof (seen_grows m e).
  assert (m.(acc).(total) + unread m <= u64_MAX)%N as Hfit by lia.
  destruct e as [n| |missed|]; cbn [meter acc seen].
  - split; [|lia]. unfold unread in *. cbn in *.
    destruct (N.leb_spec (last_raw (acc m)) (raw m + n)), (N.leb_spec (last_raw (acc m)) (raw m)); lia.
  - rewrite unread_fresh, observe_exact by done. lia.
  - rewrite unread_fresh by done. cbn [CounterAccumulator.seeded total].
    rewrite observe_exact by done. lia.
  - split; [|lia]. unfold unread in *. cbn in *.
    destruct (N.leb_spec (last_raw (acc m)) 0), (N.leb_spec (last_raw (acc m)) (raw m)); lia.
Qed.

Lemma meter_exact m e missed :
  ((meter m e).(seen) <= u64_MAX)%N -> is_reset e = false ->
  (m.(acc).(last_raw) <= m.(raw))%N -> (m.(acc).(total) + unread m + missed = m.(seen))%N ->
  ((meter m e).(acc).(last_raw) <= (meter m e).(raw))%N
  /\ ((meter m e).(acc).(total) + unread (meter m e) + (missed + missed_by e) = (meter m e).(seen))%N.
Proof.
  intros Hmax Hr Hle Hsum. pose proof (seen_grows m e).
  assert (m.(acc).(total) + unread m <= u64_MAX)%N as Hfit by lia.
  destruct e as [n| |n|]; cbn [meter acc seen raw missed_by]; [| | |done].
  - split; [lia|]. unfold unread in *. cbn in *.
    destruct (N.leb_spec (last_raw (acc m)) (raw m + n)), (N.leb_spec (last_raw (acc m)) (raw m)); lia.
  - split; [done|]. rewrite unread_fresh, observe_exact by done. lia.
  - split; [done|]. rewrite unread_fresh by done. cbn [CounterAccumulator.seeded total].
    rewrite observe_exact by done. lia.
Qed.

(** Both along a whole run. *)
Lemma meter_run es :
  forall m missed, ((foldl meter m es).(seen) <= u64_MAX)%N -> (m.(acc).(total) + unread m <= m.(seen))%N ->
  ((foldl meter m es).(acc).(total) + unread (foldl meter m es) <= (foldl meter m es).(seen))%N
  /\ (forallb (fun e => negb (is_reset e)) es = true ->
      (m.(acc).(last_raw) <= m.(raw))%N -> (m.(acc).(total) + unread m + missed = m.(seen))%N ->
      ((foldl meter m es).(acc).(total) + unread (foldl meter m es)
       + (missed + foldr N.add 0 (missed_by <$> es)) = (foldl meter m es).(seen))%N).
Proof.
  induction es as [|e es IH]; intros m missed Hmax Hle; cbn [foldl forallb fmap list_fmap foldr] in *.
  { split; [done|]. intros _ _ Heq. by rewrite N.add_0_r. }
  pose proof (seen_grows_all (meter m e) es) as Hgrow.
  destruct (meter_step m e) as [Hstep _]; [lia|done|].
  destruct (IH (meter m e) (missed + missed_by e)%N Hmax Hstep) as [Hsafe Hexact].
  split; [done|]. intros [Hr Hrs]%andb_true_iff Hlast Heq. apply negb_true_iff in Hr.
  destruct (meter_exact m e missed) as [Hlast' Heq']; [lia|done..|].
  specialize (Hexact Hrs Hlast' Heq'). lia.
Qed.

(** traffic counts survive the replacement of the table.  As long as the
    counts fit in 64 bits the total of an accumulator never exceeds the traffic
    that passed and never decreases; and unless something else resets the
    counter of the kernel, the total with what is still unread is exactly the
    traffic, less what passed between the last reading before a replacement
    and the replacement itself. *)
Theorem counters_survive_replacement es :
  let m := foldl meter metered_start es in
  (m.(seen) <= u64_MAX)%N ->
  (m.(acc).(total) + unread m <= m.(seen))%N
  /\ (forall e, ((meter m e).(seen) <= u64_MAX)%N -> (m.(acc).(total) <= (meter m e).(acc).(total))%N)
  /\ (forallb (fun e => negb (is_reset e)) es = true ->
      (m.(acc).(total) + unread m + foldr N.add 0 (missed_by <$> es) = m.(seen))%N).
Proof.
  cbv zeta. intros Hmax. destruct (meter_run es metered_start 0 Hmax ltac:(done)) as [Hle Hexact].
  split; [done|]. split.
  - intros e He. by apply meter_step.
  - intros Hr. by apply Hexact.
Qed.

Definition example_events : list CounterEvent :=
  [Traffic 100; Observed; Traffic 40; Replaced 7; Traffic 5; Observed].

Lemma counters_survive_replacement_witness :
  ((foldl meter metered_start example_events).(acc).(total) + 7 = 152)%N
  /\ (foldl meter metered_start example_events).(seen) = 152%N.
Proof.
  destruct (counters_survive_replacement example_events) as (_ & _ & Hexact); [vm_compute; discriminate|].
  split; [exact (Hexact eq_refl)|reflexivity].
Defined.

(** ** Operations *)

Inductive Op : Type :=
| ReconcileBase (nft : Nft)
| EnableDnat
| DisableDnat (nft : Nft)
| SetDnat (usage_id : string) (port : N) (target : DnatTarget) (nft : Nft)
| ClearDnat (usage_id : string) (nft : Nft)
| ReconcileClients (cs : gmap string ClientState) (at_start at_end : Nft)
| SampleCounters (nft : Nft).

Section coordinator.
Context `{!IpNetCrate} (config : Config).

Implicit Types p : DesiredPolicy.

(** The rule that the lease keeper asks for ([tunnel_dnat]). *)
Definition tunnel_dnat (port : N) (target : DnatTarget) : Dnat :=
  (port, target.(dt_address), target.(dt_port)).

Definition result_unit {A} (o : Outcome A) : DesiredPolicy * Result unit string :=
  (o.1, match o.2 with Ok _ => Ok tt | Err e => Err e end).

Definition run_op (o : Op) (p : DesiredPolicy) : DesiredPolicy * Result unit string :=
  match o with
  | ReconcileBase nft => reconcile_base config nft p
  | EnableDnat => (enable_dnat p, Ok tt)
  | DisableDnat nft => disable_dnat config nft p
  | SetDnat usage_id port target nft =>
      result_unit (set_dnat_for_target config usage_id (tunnel_dnat port target) target nft p)
  | ClearDnat usage_id nft => clear_dnat_for_usage config usage_id nft p
  | ReconcileClients cs at_start at_end => reconcile_clients config cs at_start at_end p
  | SampleCounters nft => result_unit (sample_client_counters config nft p)
  end.

(** What every field but the counters is after reading the kernel. *)
Lemma observe_fields nft p p' r :
  observe_kernel_locked config nft p = (p', r) -> exists cs, p' = set_clients cs p.
Proof.
  assert (p = set_clients (clients p) p) as Hp by by destruct p.
  unfold observe_kernel_locked. intros Ho.
  repeat case_match; simplify_eq; eauto.
Qed.

(** The outcomes of a transaction: it was not run or failed, and only the
    counters were read; or nft took exactly the rules of the desired state. *)
Lemma apply_outcome nft p p' r :
  apply_locked config nft p = (p', r) ->
  (exists cs, p' = set_clients cs p) /\ (manages config = true -> exists e, r = Err e)
  \/ r = Ok tt /\ exists cs there,
       nft.(nft_load) (transaction config there (set_clients cs p)) = Done tt
       /\ p' = installed (set_clients cs p).
Proof.
  unfold apply_locked. destruct (manages config) eqn:Hm; cbn [negb].
  2: { intros [= <- <-]. left. split; [|done]. exists (clients p). by destruct p. }
  destruct (observe_kernel_locked config nft p) as [p1 r1] eqn:Ho.
  apply observe_fields in Ho as [cs ->]. destruct r1 as [[]|e].
  2: { intros [= <- <-]. left. split; eauto. }
  destruct (table_exists _) as [there|e].
  2: { intros [= <- <-]. left. split; eauto. }
  destruct (nft_load nft _) as [e|e|[]] eqn:Hl; intros [= <- <-]; [left; split; eauto..|].
  right. split; [done|]. by exists cs, there.
Qed.

(** ** What a failure leaves *)

Definition policy_of (o : Op) (p : DesiredPolicy) : DesiredPolicy := (run_op o p).1.

(** What the operation asks for, whether or not nft takes it. *)
Definition intends (o : Op) (p : DesiredPolicy) : bool * gmap string Dnat :=
  match o with
  | ReconcileBase _ | SampleCounters _ => (p.(dnat_allowed), p.(desired_dnat))
  | EnableDnat => (true, p.(desired_dnat))
  | DisableDnat _ => (false, ∅)
  | SetDnat usage_id port target _ =>
      (p.(dnat_allowed),
       if p.(dnat_allowed) && bool_decide (p.(dnat_targets) !! usage_id = Some target)
       then <[usage_id := tunnel_dnat port target]> p.(desired_dnat) else p.(desired_dnat))
  | ClearDnat usage_id _ => (p.(dnat_allowed), delete usage_id p.(desired_dnat))
  | ReconcileClients cs at_start _ =>
      (p.(dnat_allowed),
       match (observe_kernel_locked config at_start p).2 with
       | Ok _ => retained p.(dnat_targets) (select_dnat_targets cs) p.(desired_dnat)
       | Err _ => p.(desired_dnat)
       end)
  end.

(** The operation ends with a transaction. *)
Definition applies (o : Op) (p : DesiredPolicy) : bool :=
  match o with
  | EnableDnat | SampleCounters _ => false
  | SetDnat usage_id _ target _ =>
      p.(dnat_allowed) && bool_decide (p.(dnat_targets) !! usage_id = Some target)
  | _ => true
  end.

Lemma apply_recorded nft p p' r :
  apply_locked config nft p = (p', r) ->
  (p'.(dnat_allowed), p'.(desired_dnat)) = (p.(dnat_allowed), p.(desired_dnat))
  /\ p'.(dnat_targets) = p.(dnat_targets)
  /\ (p'.(applied_dnat) = p.(applied_dnat) \/ r = Ok tt /\ p'.(applied_dnat) = p'.(desired_dnat))
  /\ (manages config = true -> r = Ok tt -> p'.(applied_dnat) = p'.(desired_dnat)).
Proof.
  intros [[[cs ->] Hm]|(-> & cs & there & _ & ->)]%apply_outcome; cbn; split_and!; auto.
  intros Hmg ->. by destruct (Hm Hmg).
Qed.

Lemma run_op_recorded o p p' r :
  run_op o p = (p', r) ->
  (p'.(dnat_allowed), p'.(desired_dnat)) = intends o p
  /\ (p'.(applied_dnat) = p.(applied_dnat) \/ r = Ok tt /\ p'.(applied_dnat) = p'.(desired_dnat))
  /\ (manages config = true -> applies o p = true -> r = Ok tt -> p'.(applied_dnat) = p'.(desired_dnat)).
Proof.
  destruct o as [nft| |nft|usage_id port target nft|usage_id nft|cs at_start at_end|nft];
    cbn [run_op intends applies].
  - intros (-> & _ & Ha & Hok)%apply_recorded. auto.
  - intros [= <- <-]. split_and!; [done|by left|by intros].
  - intros (-> & _ & Ha & Hok)%apply_recorded. auto.
  - unfold set_dnat_for_target, result_unit.
    destruct (dnat_allowed p) eqn:Hal, (bool_decide _) eqn:Hb; cbn [negb orb andb].
    2-4: cbn [fst snd]; intros [= <- <-]; rewrite Hal; split_and!; [done|by left|by intros].
    destruct (apply_locked _ _ _) as [p1 r1] eqn:Ha. apply apply_recorded in Ha as (Hd & _ & Ha & Hok).
    destruct r1 as [[]|e]; cbn [fst snd]; intros [= <- <-]; cbn in Hd; rewrite Hd, Hal; split_and!; auto.
  - intros (-> & _ & Ha & Hok)%apply_recorded. auto.
  - unfold reconcile_clients. destruct (observe_kernel_locked _ _ _) as [p1 r1] eqn:Ho.
    pose proof (observe_fields _ _ _ _ Ho) as [cs1 ->]. destruct r1 as [[]|e]; cbn [snd].
    + intros (-> & _ & Ha & Hok)%apply_recorded. cbn in *. auto.
    + intros [= <- <-]. cbn. split_and!; [done|by left|by intros].
  - unfold sample_client_counters, result_unit.
    destruct (observe_kernel_locked _ _ _) as [p1 r1] eqn:Ho.
    pose proof (observe_fields _ _ _ _ Ho) as [cs1 ->].
    destruct r1 as [[]|e]; cbn [fst snd]; intros [= <- <-]; cbn; (split_and!; [done|by left|by intros]).
Qed.

(** what was asked for is recorded, whatever nft does.  After every
    operation the desired rules and the permission are what the operation asks
    for, also when it fails; a failed operation leaves the record of the
    installed rules as it was; an operation that ends with a successful
    transaction has installed the desired rules, so that repeating the
    transaction after a failure installs what the failed operation asked for. *)
Theorem intent_survives_failure o p p' r :
  run_op o p = (p', r) ->
  (p'.(dnat_allowed), p'.(desired_dnat)) = intends o p
  /\ (forall e, r = Err e -> p'.(applied_dnat) = p.(applied_dnat))
  /\ (manages config = true -> applies o p = true -> r = Ok tt ->
      p'.(applied_dnat) = p'.(desired_dnat))
  /\ (forall nft p'', manages config = true -> run_op (ReconcileBase nft) p' = (p'', Ok tt) ->
      p''.(applied_dnat) = (intends o p).2).
Proof.
  intros Hr. pose proof (run_op_recorded _ _ _ _ Hr) as (Hi & Ha & Hok).
  split_and!; [done| |done|].
  - intros e ->. by destruct Ha as [?|[? _]].
  - intros nft p'' Hm Hb. apply run_op_recorded in Hb as (Hd & _ & Hb).
    rewrite (Hb Hm eq_refl eq_refl), <- Hi. cbn [intends] in Hd. by injection Hd.
Qed.

(** ** Where traffic is forwarded *)

Lemma select_targets_spec cs usage_id t :
  select_dnat_targets cs !! usage_id = Some t ->
  exists id client, cs !! id = Some client /\ client.(cl_port_forward_target) = true
    /\ client.(cl_compliant) = true /\ client.(cl_usage_id) = usage_id
    /\ client.(cl_ipv4_address) = t.(dt_address) /\ client.(cl_target_port) = Some t.(dt_port)
    /\ client.(cl_container_id) = t.(dt_container_id).
Proof.
  unfold select_dnat_targets. intros Hin%elem_of_list_to_map_2.
  rewrite list_elem_of_In, <- in_rev, <- list_elem_of_In in Hin. apply list_elem_of_omap in Hin as (client & Hc & Hsome).
  apply elem_of_btree_values in Hc as [id Hc].
  destruct (cl_port_forward_target client) eqn:Ht, (cl_compliant client) eqn:Hk; try done.
  cbn [andb] in Hsome. destruct (cl_target_port client) as [port|] eqn:Hp; [|done].
  cbn in Hsome. injection Hsome as <- <-. by exists id, client.
Qed.

(** The state after some operations, and the clients of the last list that was
    taken over. *)
Definition clients_after (o : Op) (p : DesiredPolicy) (cs : gmap string ClientState)
    : gmap string ClientState :=
  match o with
  | ReconcileClients cs' at_start _ =>
      match (observe_kernel_locked config at_start p).2 with Ok _ => cs' | Err _ => cs end
  | _ => cs
  end.

Inductive reaches : DesiredPolicy -> gmap string ClientState -> Prop :=
| reaches_start : reaches DesiredPolicy_default ∅
| reaches_step p cs o p' r :
    reaches p cs -> run_op o p = (p', r) -> reaches p' (clients_after o p cs).

(** Every desired rule is for the current target of its usage identity. *)
Record current (p : DesiredPolicy) (cs : gmap string ClientState) : Prop := {
  cu_targets : p.(dnat_targets) = select_dnat_targets cs;
  cu_rules : forall usage_id d, p.(desired_dnat) !! usage_id = Some d ->
    p.(dnat_allowed) = true
    /\ exists t port, p.(dnat_targets) !! usage_id = Some t /\ d = tunnel_dnat port t;
}.

Lemma apply_targets nft p p' r :
  apply_locked config nft p = (p', r) -> p'.(dnat_targets) = p.(dnat_targets).
Proof. by intros (_ & ? & _)%apply_recorded. Qed.

Lemma run_op_targets o p p' r cs :
  run_op o p = (p', r) -> p.(dnat_targets) = select_dnat_targets cs ->
  p'.(dnat_targets) = select_dnat_targets (clients_after o p cs).
Proof.
  intros Hr Ht. destruct o as [nft| |nft|usage_id port target nft|usage_id nft|cs' at_start at_end|nft];
    cbn [run_op clients_after] in *.
  - by rewrite (apply_targets _ _ _ _ Hr).
  - by injection Hr as <- <-.
  - by rewrite (apply_targets _ _ _ _ Hr).
  - unfold set_dnat_for_target, result_unit in Hr. case_match eqn:Hg.
    { apply (f_equal fst) in Hr. cbn in Hr. by subst p'. }
    destruct (apply_locked _ _ _) as [p1 r1] eqn:Ha.
    apply (f_equal fst) in Hr. destruct r1 as [[]|]; cbn in Hr; subst p1; by rewrite (apply_targets _ _ _ _ Ha).
  - by rewrite (apply_targets _ _ _ _ Hr).
  - unfold reconcile_clients in Hr. destruct (observe_kernel_locked _ _ _) as [p1 r1] eqn:Ho.
    pose proof (observe_fields _ _ _ _ Ho) as [cs1 ->]. destruct r1 as [[]|e]; cbn [snd].
    + by rewrite (apply_targets _ _ _ _ Hr).
    + by injection Hr as <- <-.
  - unfold sample_client_counters, result_unit in Hr. destruct (observe_kernel_locked _ _ _) as [p1 r1] eqn:Ho.
    pose proof (observe_fields _ _ _ _ Ho) as [cs1 ->]. apply (f_equal fst) in Hr.
    destruct r1 as [[]|]; cbn in Hr; by subst p'.
Qed.

Lemma run_op_current o p p' r cs :
  run_op o p = (p', r) -> current p cs -> current p' (clients_after o p cs).
Proof.
  intros Hr [Ht Hrules]. pose proof (run_op_targets _ _ _ _ cs Hr Ht) as Ht'.
  split; [done|]. intros usage_id d Hd.
  pose proof (run_op_recorded _ _ _ _ Hr) as (Hi & _ & _). pose proof (f_equal fst Hi) as Hal. pose proof (f_equal snd Hi) as Hde. cbn [fst snd] in Hal, Hde.
  destruct o as [nft| |nft|u port target nft|u nft|cs' at_start at_end|nft];
    cbn [intends fst snd clients_after] in *; rewrite Hal, Ht'; rewrite Hde in Hd.
  - rewrite <- Ht. by apply Hrules.
  - rewrite <- Ht. split; [done|]. by apply Hrules in Hd as [_ ?].
  - by rewrite lookup_empty in Hd.
  - rewrite <- Ht. destruct (dnat_allowed p && _) eqn:Hg; [|by apply Hrules].
    apply andb_true_iff in Hg as [Ha Hg%bool_decide_eq_true].
    apply lookup_insert_Some in Hd as [[<- <-]|[_ Hd]]; [eauto|by apply Hrules].
  - rewrite <- Ht. apply lookup_delete_Some in Hd as [_ Hd]. by apply Hrules.
  - destruct (observe_kernel_locked config at_start p).2 as [[]|e].
    + apply map_lookup_filter_Some in Hd as [Hd Heq]. cbn in Heq.
      destruct (Hrules _ _ Hd) as (Ha & t & port & Hu & ->). split; [done|]. exists t, port.
      split; [congruence|done].
    + rewrite <- Ht. by apply Hrules.
  - rewrite <- Ht. by apply Hrules.
Qed.

Lemma reaches_current p cs : reaches p cs -> current p cs.
Proof.
  induction 1 as [|p cs o p' r _ IH Hr]; [|by eapply run_op_current].
  split; [done|]. intros usage_id d Hd. cbn in Hd. by rewrite lookup_empty in Hd.
Qed.

Lemma lease_of_Some pk leases d :
  lease_of config pk leases = Some d -> d ∈ leases /\ from_tunnel config pk = true.
Proof.
  unfold lease_of. intros [Hin Hd]%List.find_some. split; [by apply list_elem_of_In|].
  destruct d as [[? ?] ?]. by destruct (from_tunnel config pk).
Qed.

(** The DNAT rules of the rendered state send a packet only to a client that
    is compliant and asks for it. *)
Lemma rendered_dnat_current `{!IpNetText, !NftProgram Packet, !NftDocumented} p cs pk a port :
  current p cs -> plain config.(c_wireguard).(wc_interface) ->
  readable config (btree_values String.leb p.(desired_dnat)) (counter_rules p) ->
  chain_verdict "prerouting" (rules_of config p) pk = Some (DnatTo a port) ->
  from_tunnel config pk = true /\ p.(dnat_allowed) = true
  /\ exists id client, cs !! id = Some client /\ client.(cl_port_forward_target) = true
       /\ client.(cl_compliant) = true /\ client.(cl_ipv4_address) = a /\ client.(cl_target_port) = Some port.
Proof.
  intros [Ht Hrules] Hp Hr Hv. unfold chain_verdict, rules_of in Hv.
  rewrite prerouting_chain_lines in Hv by done.
  change (Some (default Accept (first_verdict (dnat_rules config (btree_values String.leb (desired_dnat p))) pk))
          = Some (DnatTo a port)) in Hv.
  rewrite (prerouting_verdict config _ (counter_rules p)) in Hv by done. injection Hv as Hv.
  unfold prerouting_policy in Hv.
  destruct (lease_of _ _ _) as [[[tunnel_port target] target_port]|] eqn:Hl; [|done].
  injection Hv as -> ->. apply lease_of_Some in Hl as [[usage_id Hin]%elem_of_btree_values Hf].
  destruct (Hrules _ _ Hin) as (Ha & t & port0 & Hu & [= -> -> ->]).
  rewrite Ht in Hu. apply select_targets_spec in Hu as (id & client & ? & ? & ? & _ & ? & ? & _).
  by split_and!; [..|exists id, client].
Qed.

(** C35: forwarded traffic reaches only who asked for it.  In every state the
    coordinator can reach, whatever nft replied on the way, the prerouting
    chain of the rules it hands to nft redirects only packets that come out of
    the tunnel, only while forwarding is allowed, and only to the address and
    port of a compliant client of the current list that asks for a port. *)
Theorem dnat_reaches_current_clients `{!IpNetText, !NftProgram Packet, !NftDocumented} p cs pk a port :
  reaches p cs -> plain config.(c_wireguard).(wc_interface) ->
  readable config (btree_values String.leb p.(desired_dnat)) (counter_rules p) ->
  chain_verdict "prerouting" (rules_of config p) pk = Some (DnatTo a port) ->
  from_tunnel config pk = true /\ p.(dnat_allowed) = true
  /\ exists id client, cs !! id = Some client /\ client.(cl_port_forward_target) = true
       /\ client.(cl_compliant) = true /\ client.(cl_ipv4_address) = a /\ client.(cl_target_port) = Some port.
Proof. intros Hr%reaches_current. by apply rendered_dnat_current. Qed.
End coordinator.

(** ** A run of the coordinator *)

Definition example_nft : Nft :=
  {| nft_exists_at_read := Failed ""; nft_exists_at_load := Failed "";
     nft_list_counters := Done None; nft_load := fun _ => Done tt |}.
Definition failing_nft : Nft :=
  {| nft_exists_at_read := Failed ""; nft_exists_at_load := Failed "";
     nft_list_counters := Done None; nft_load := fun _ => Failed "busy" |}.
Definition example_target : DnatTarget :=
  {| dt_container_id := "3f0c"; dt_address := 2887647242; dt_port := 8080 |}.
Definition example_client : ClientState :=
  {| cl_container_id := "3f0c"; cl_usage_id := "torrent"; cl_usage_id_source := ExplicitLabel;
     cl_name := "torrent"; cl_ipv4_address := 2887647242; cl_port_forward_target := true;
     cl_target_port := Some 8080%N; cl_compliant := true; cl_compliance_message := "";
     cl_running := true; cl_ipv6_address := None; cl_networks := ["vpn-egress"];
     cl_port_forward_label_valid := true; cl_route_intent := route_intent_default;
     cl_traffic := client_traffic_default |}.
Definition example_clients : gmap string ClientState := {["3f0c" := example_client]}.

Definition after_op (o : Op) (p : DesiredPolicy) : DesiredPolicy :=
  (@run_op CidrNet.crate example_config o p).1.

Definition example_state : DesiredPolicy :=
  after_op (SetDnat "torrent" 40000 example_target example_nft)
    (after_op (ReconcileClients example_clients example_nft example_nft)
      (after_op EnableDnat DesiredPolicy_default)).

Lemma after_op_reaches p cs o :
  @reaches CidrNet.crate example_config p cs ->
  @reaches CidrNet.crate example_config (after_op o p)
    (@clients_after CidrNet.crate example_config o p cs).
Proof. intros Hr. exact (reaches_step _ _ _ _ _ _ Hr (surjective_pairing _)). Qed.

Lemma example_reaches : @reaches CidrNet.crate example_config example_state example_clients.
Proof.
  exact (after_op_reaches _ _ _ (after_op_reaches _ _ _ (after_op_reaches _ _ EnableDnat (reaches_start _)))).
Qed.

Lemma example_rules_readable :
  @readable CidrNet.crate example_config (btree_values String.leb (desired_dnat example_state))
    (counter_rules example_state).
Proof.
  destruct example_readable as [Hsub H6 Hgw Hnat _ _].
  assert (btree_values String.leb (desired_dnat example_state) = [(40000, 2887647242, 8080)%N]) as ->
    by (vm_compute; reflexivity).
  assert (counter_rules example_state
    = [Build_ClientCounterRule "3f0c" 2887647242 None 0 0 0 0]) as -> by (vm_compute; reflexivity).
  split; [exact Hsub|exact H6|exact Hgw|exact Hnat|by repeat constructor|].
  repeat constructor. discriminate.
Qed.

Definition arriving : Packet :=
  {| iif := "wg0"; oif := ""; header := HV4 16843009 167772162; transport := TcpTo 40000;
     established := false |}.

Lemma dnat_reaches_current_clients_witness :
  @chain_verdict Packet (@SmallNft.program CidrNet.crate) "prerouting"
    (@rules_of CidrNet.crate example_config example_state) arriving = Some (DnatTo 2887647242 8080)
  /\ from_tunnel example_config arriving = true.
Proof.
  assert (plain (wc_interface (c_wireguard example_config))) as Hp by done.
  assert (@chain_verdict Packet (@SmallNft.program CidrNet.crate) "prerouting"
    (@rules_of CidrNet.crate example_config example_state) arriving = Some (DnatTo 2887647242 8080)) as Hv
    by (vm_compute; reflexivity).
  split; [exact Hv|].
  pose proof (@dnat_reaches_current_clients CidrNet.crate example_config cidr_text SmallNft.program
    SmallNft.documented example_state example_clients arriving 2887647242 8080 example_reaches Hp
    example_rules_readable Hv) as Hd.
  exact (proj1 Hd).
Defined.

Lemma intent_survives_failure_witness :
  dnat_allowed (after_op (DisableDnat failing_nft) example_state) = false.
Proof.
  destruct (@intent_survives_failure CidrNet.crate example_config (DisableDnat failing_nft) example_state
    _ _ (surjective_pairing _)) as [Hi _].
  exact (f_equal fst Hi).
Defined.
