(* ===== verification/ProfileManager.v ===== *)
(** Managed profile transactions (src/src/profile_manager.rs): the profile in
    use, its revision in the store, what is published about it, and the
    operations that replace it.

    The mutex [transaction] makes each operation one step on the state
    [Manager].  [apply] reads the selected source before it takes the mutex, so
    it is the two steps [apply_check] and [apply_locked].  What programs, files
    and the store's database answer is [Env]; nft, clocks and random bytes are
    arguments. *)

From S2P Require Import Prelude RustStr Net BTree WireGuard Profiles State Domain Config Enforcement Machine StateErr Routes.

(** What [tokio::fs::metadata] answers. *)
Inductive Metadata : Type :=
| NotFound
| MetadataError (error : string)
| MetadataIs (is_file : bool) (len mode : N).

(** Files and the base64 crate. *)
Class ProfileFiles : Type := {
  metadata : list Event -> string -> Metadata;
  base64_decode : string -> option string;
}.

Section manager.
Context `{!IpNetCrate}.

Record ActiveProfile : Type := {
  ap_revision : option string;
  ap_profile : WireGuardProfile;
}.

Record Manager : Type := {
  m_log : list Event;
  m_policy : DesiredPolicy;
  m_store : option Table;
  m_active : option ActiveProfile;
  m_status : ProfileManagementStatus;
  m_dns_upstream : option SocketAddr;
  m_selected_source : ProfileSource;
}.

Definition set_log (log : list Event) (s : Manager) : Manager :=
  {| m_log := log; m_policy := s.(m_policy); m_store := s.(m_store); m_active := s.(m_active);
     m_status := s.(m_status); m_dns_upstream := s.(m_dns_upstream);
     m_selected_source := s.(m_selected_source) |}.
Definition set_policy (policy : DesiredPolicy) (s : Manager) : Manager :=
  {| m_log := s.(m_log); m_policy := policy; m_store := s.(m_store); m_active := s.(m_active);
     m_status := s.(m_status); m_dns_upstream := s.(m_dns_upstream);
     m_selected_source := s.(m_selected_source) |}.
Definition set_store (t : Table) (s : Manager) : Manager :=
  {| m_log := s.(m_log); m_policy := s.(m_policy); m_store := Some t; m_active := s.(m_active);
     m_status := s.(m_status); m_dns_upstream := s.(m_dns_upstream);
     m_selected_source := s.(m_selected_source) |}.
Definition set_active (a : option ActiveProfile) (s : Manager) : Manager :=
  {| m_log := s.(m_log); m_policy := s.(m_policy); m_store := s.(m_store); m_active := a;
     m_status := s.(m_status); m_dns_upstream := s.(m_dns_upstream);
     m_selected_source := s.(m_selected_source) |}.
Definition set_status (status : ProfileManagementStatus) (s : Manager) : Manager :=
  {| m_log := s.(m_log); m_policy := s.(m_policy); m_store := s.(m_store); m_active := s.(m_active);
     m_status := status; m_dns_upstream := s.(m_dns_upstream);
     m_selected_source := s.(m_selected_source) |}.
Definition set_dns (upstream : option SocketAddr) (s : Manager) : Manager :=
  {| m_log := s.(m_log); m_policy := s.(m_policy); m_store := s.(m_store); m_active := s.(m_active);
     m_status := s.(m_status); m_dns_upstream := upstream;
     m_selected_source := s.(m_selected_source) |}.
Definition set_source (source : ProfileSource) (s : Manager) : Manager :=
  {| m_log := s.(m_log); m_policy := s.(m_policy); m_store := s.(m_store); m_active := s.(m_active);
     m_status := s.(m_status); m_dns_upstream := s.(m_dns_upstream);
     m_selected_source := source |}.

Definition is_ok {A} (r : Result A string) : bool := match r with Ok _ => true | Err _ => false end.

Definition M (A : Type) : Type := St Manager A.
End manager.

Section operations.
Context `{!IpNetCrate, !StoreEnv, !Env, !ProfileFiles} (config : Config).

(** Programs and files. *)
Definition run {A} (g : Gateway A) : M A := fun s => (set_log (g s.(m_log)).1 s, (g s.(m_log)).2).

Definition enforce {A} (f : DesiredPolicy -> DesiredPolicy * Result A string) : M A := fun s =>
  (set_policy (f s.(m_policy)).1 s, (f s.(m_policy)).2).

(** An operation of the store.  When the database cannot be used nothing is
    changed. *)
Definition query {A} (missing operation : string) (f : Table -> Table * Result A string) : M A :=
  let* store := gets m_store in
  let* table := lift (ok_or store missing) in
  let* r := run (perform (QueryStore operation)) in
  match r with
  | NotRun e | Failed e => fail e
  | Done _ => fun s => (set_store (f table).1 s, (f table).2)
  end.

Definition read {A} (f : Table -> Result A string) : Table -> Table * Result A string :=
  fun t => (t, f t).

Definition require (b : bool) (e : string) : M unit := lift (ensure b e).

Definition set_lifecycle (lifecycle : ProfileLifecycle) : M unit :=
  modify (fun s => set_status
    {| pm_lifecycle := lifecycle; pm_source := s.(m_status).(pm_source);
       pm_source_mutable := s.(m_status).(pm_source_mutable);
       pm_active_revision := s.(m_status).(pm_active_revision); pm_active := s.(m_status).(pm_active);
       pm_revisions := s.(m_status).(pm_revisions); pm_last_apply := s.(m_status).(pm_last_apply);
       pm_management_available := s.(m_status).(pm_management_available);
       pm_mutation_authorized := s.(m_status).(pm_mutation_authorized);
       pm_ipv4_only := s.(m_status).(pm_ipv4_only) |} s).

Definition set_revisions (revisions : list ManagedRevision) : M unit :=
  modify (fun s => set_status
    {| pm_lifecycle := s.(m_status).(pm_lifecycle); pm_source := s.(m_status).(pm_source);
       pm_source_mutable := s.(m_status).(pm_source_mutable);
       pm_active_revision := s.(m_status).(pm_active_revision); pm_active := s.(m_status).(pm_active);
       pm_revisions := revisions; pm_last_apply := s.(m_status).(pm_last_apply);
       pm_management_available := s.(m_status).(pm_management_available);
       pm_mutation_authorized := s.(m_status).(pm_mutation_authorized);
       pm_ipv4_only := s.(m_status).(pm_ipv4_only) |} s).

Definition set_last_apply (result : ApplyResult) : M unit :=
  modify (fun s => set_status
    {| pm_lifecycle := s.(m_status).(pm_lifecycle); pm_source := s.(m_status).(pm_source);
       pm_source_mutable := s.(m_status).(pm_source_mutable);
       pm_active_revision := s.(m_status).(pm_active_revision); pm_active := s.(m_status).(pm_active);
       pm_revisions := s.(m_status).(pm_revisions); pm_last_apply := Some result;
       pm_management_available := s.(m_status).(pm_management_available);
       pm_mutation_authorized := s.(m_status).(pm_mutation_authorized);
       pm_ipv4_only := s.(m_status).(pm_ipv4_only) |} s).

(** [status.active_revision] and [status.active] *)
Definition set_shown (revision : option string) (shown : option RedactedProfile) : M unit :=
  modify (fun s => set_status
    {| pm_lifecycle := s.(m_status).(pm_lifecycle); pm_source := s.(m_status).(pm_source);
       pm_source_mutable := s.(m_status).(pm_source_mutable);
       pm_active_revision := revision; pm_active := shown;
       pm_revisions := s.(m_status).(pm_revisions); pm_last_apply := s.(m_status).(pm_last_apply);
       pm_management_available := s.(m_status).(pm_management_available);
       pm_mutation_authorized := s.(m_status).(pm_mutation_authorized);
       pm_ipv4_only := s.(m_status).(pm_ipv4_only) |} s).

Definition source_name (source : ProfileSource) : string :=
  match source with Mounted => "mounted" | GuiManaged => "gui_managed" end.

Definition set_shown_source (source : ProfileSource) : M unit :=
  modify (fun s => set_status
    {| pm_lifecycle := s.(m_status).(pm_lifecycle); pm_source := source_name source;
       pm_source_mutable := bool_decide (source = GuiManaged);
       pm_active_revision := s.(m_status).(pm_active_revision); pm_active := s.(m_status).(pm_active);
       pm_revisions := s.(m_status).(pm_revisions); pm_last_apply := s.(m_status).(pm_last_apply);
       pm_management_available := s.(m_status).(pm_management_available);
       pm_mutation_authorized := s.(m_status).(pm_mutation_authorized);
       pm_ipv4_only := s.(m_status).(pm_ipv4_only) |} s).

(** ** The tunnel *)

Definition syncconf_path : string := "/run/egressy/" +:+ tunnel config +:+ ".sync.conf".

Definition syncconf (profile : WireGuardProfile) : Gateway unit :=
  step _ := file_op (WriteFile syncconf_path (render_syncconf profile)) in
  step _ := file_op (SetMode syncconf_path 384) in
  fun log =>
    let '(log, result) := command "wg" ["syncconf"; tunnel config; syncconf_path] log in
    ((perform (RemoveFile syncconf_path) log).1, result).

Definition recycle (profile : WireGuardProfile) : Gateway unit :=
  step _ := wireguard_down config in
  wireguard_up config profile.

Definition previous_dns (previous : option WireGuardProfile) : list Ipv4Addr :=
  match previous with Some p => ipv4_dns p | None => [] end.

Definition recycle_and_reconcile (profile : WireGuardProfile) (previous : option WireGuardProfile)
    : Gateway unit :=
  step _ := recycle profile in
  reconcile_gateway_routes config (previous_dns previous) (ipv4_dns profile) (carries_ipv6 profile).

Definition apply_candidate (candidate : WireGuardProfile) (classification : ApplyKind)
    (previous : option WireGuardProfile) : Gateway unit :=
  match classification with
  | NoChange => gw_ret tt
  | DnsReload =>
      reconcile_gateway_routes config (previous_dns previous) (ipv4_dns candidate) (carries_ipv6 candidate)
  | SyncConf | SyncConfAndRoutes =>
      step _ := syncconf candidate in
      reconcile_gateway_routes config (previous_dns previous) (ipv4_dns candidate) (carries_ipv6 candidate)
  | TunnelRecycle => recycle_and_reconcile candidate previous
  end.

Definition TIMED_OUT : string := "timed out waiting for bounded WireGuard interface evidence".

(** The interface is there and [wg] can inspect it. *)
Definition inspectable : Gateway bool :=
  step present := perform (StatFile ("/sys/class/net/" +:+ tunnel config)) in
  match present with
  | Done _ =>
      step shown := perform (RunProgram "wg" ["show"; tunnel config; "latest-handshakes"]) in
      gw_ret (match shown with Done _ => true | _ => false end)
  | _ => gw_ret false
  end.

Fixpoint await_evidence (fuel : nat) : Gateway unit :=
  match fuel with
  | O => gw_fail TIMED_OUT
  | S fuel =>
      step seen := inspectable in
      if seen : bool then gw_ret tt
      else
        step r := perform (Sleep 250) in
        match r with
        | Done _ => await_evidence fuel
        | _ => gw_fail TIMED_OUT
        end
  end.

(** Ten seconds hold at most forty sleeps of 250 ms. *)
Definition EVIDENCE_FUEL : nat := 41.
Definition verify_tunnel_evidence : Gateway unit := await_evidence EVIDENCE_FUEL.

Definition publish_dns (profile : option WireGuardProfile) : M unit :=
  modify (set_dns (dns_upstream config profile)).

(** [load_mounted_profile] of src/src/runtime.rs; a missing file is no error. *)
Definition load_mounted_profile : Gateway (option WireGuardProfile) :=
  let parsed (source : string) : Gateway (option WireGuardProfile) :=
    match parse source with
    | Ok profile => gw_ret (Some profile)
    | Err error => gw_fail error.(pe_message)
    end in
  match config.(c_wireguard).(wc_config_base64_path), config.(c_wireguard).(wc_config_path) with
  | Some encoded_path, _ =>
      step encoded :=
        gw_context "reading base64 WireGuard Docker secret" (file_op (ReadFile encoded_path)) in
      match base64_decode (trim encoded) with
      | Some decoded => parsed decoded
      | None => gw_fail "decoding base64 WireGuard Docker secret"
      end
  | None, Some path => fun log =>
      match metadata log path with
      | NotFound => (log, Ok None)
      | MetadataError e => (log, Err "reading mounted WireGuard metadata")
      | MetadataIs is_file len mode =>
          if negb is_file || (256 * 1024 <? len)%N
          then (log, Err "WireGuard configuration must be a regular file no larger than 256 KiB")
          else if negb (N.land mode 63 =? 0)%N
          then (log, Err "WireGuard configuration must not be readable by group or others")
          else (step source := gw_context "reading mounted WireGuard configuration" (file_op (ReadFile path)) in
                parsed source) log
      end
  | None, None => gw_ret None
  end.

(** ** The operations *)

Definition has_active_profile (s : Manager) : bool := bool_decide (is_Some s.(m_active)).

Definition validate (source : string) : M (Result RedactedProfile ProfileError) :=
  let* _ := set_lifecycle Validating in
  let* active := gets m_active in
  let* _ := set_lifecycle (match active with Some _ => LifecycleActive | None => Unconfigured end) in
  ret (match parse source with
       | Ok profile => Ok (redacted profile (ap_profile <$> active))
       | Err e => Err e
       end).

Definition MISSING : string := "GUI-managed profile storage is unavailable".
Definition UNAVAILABLE : string := "profile storage unavailable".

Definition refresh_revisions : M unit :=
  let* all := query UNAVAILABLE "revisions" (read revisions) in set_revisions all.

Definition stage (source nonce : string) (random : list N) (now : N) : M ManagedRevision :=
  let* revision := query MISSING "stage" (fun t => Profiles.stage t source nonce random now) in
  let* _ := refresh_revisions in
  ret revision.

(** [render_source] panics when the rendered profile has no table line
    (it always has). *)
Definition rendered (profile : WireGuardProfile) : Result string string :=
  ok_or (render_source profile) "panic".

Definition stage_mounted_profile (nonce : string) (random : list N) (now : N) : M ManagedRevision :=
  let* profile := run load_mounted_profile in
  let* profile := lift (ok_or profile "the mounted profile is absent") in
  let* source := lift (rendered profile) in
  stage source nonce random now.

Definition READ_ONLY : string := "mounted profile source is read-only".

Definition selected (source : ProfileSource) (s : Manager) : bool :=
  bool_decide (s.(m_selected_source) = source).

(** The source is read before the mutex is taken; nothing else of the operation
    depends on it. *)
Definition stage_edit (input : StructuredProfileInput) (nonce : string) (random : list N) (now : N)
    : M ManagedRevision :=
  let* writable := gets (selected GuiManaged) in
  let* _ := require writable READ_ONLY in
  let* store := gets m_store in
  let* _ := lift (ok_or store UNAVAILABLE) in
  let* active := gets m_active in
  let* active := lift (ok_or active "an active profile is required for structured editing") in
  let* candidate := lift (map_err pe_message (edit active.(ap_profile) input)) in
  let* source := lift (rendered candidate) in
  stage source nonce random now.

Definition delete (revision_id : string) : M unit :=
  let* _ := query UNAVAILABLE "delete" (fun t => delete_inactive t revision_id) in
  refresh_revisions.

(** What happens to the interface when the candidate cannot be used: back to
    the previous profile, or down.  [true] when the previous one is restored. *)
Definition restore (previous : option ActiveProfile) (candidate : WireGuardProfile) : M bool :=
  match previous with
  | Some previous =>
      let* r := attempt (run (recycle_and_reconcile previous.(ap_profile) (Some candidate))) in
      ret (is_ok r)
  | None =>
      let* _ := run (wireguard_down config) in
      ret false
  end.

(** The status after a failure. *)
Definition record_failure (previous : option ActiveProfile) (classification : ApplyKind)
    (restored : bool) (restored_message blocked_message : string) : M unit :=
  let* _ := set_lifecycle ApplyFailed in
  set_last_apply
    {| ar_revision := previous ≫= ap_revision; ar_classification := classification;
       ar_rolled_back := restored;
       ar_safe_message := if restored then restored_message else blocked_message |}.

Definition classify (previous : option ActiveProfile) (candidate : WireGuardProfile) : ApplyKind :=
  match previous with
  | Some active => diff active.(ap_profile) candidate
  | None => TunnelRecycle
  end.

Definition applied_message (classification : ApplyKind) : string :=
  match classification with
  | NoChange => "The selected profile was already active"
  | DnsReload => "DNS configuration and tunnel service routes were reloaded"
  | SyncConf | SyncConfAndRoutes => "WireGuard configuration was hot-applied"
  | TunnelRecycle => "The WireGuard interface was recycled without restarting application containers"
  end.

(** Put the candidate on the interface and look at it. *)
Definition put (candidate : WireGuardProfile) (classification : ApplyKind)
    (previous : option ActiveProfile) : Gateway unit :=
  step _ := apply_candidate candidate classification (ap_profile <$> previous) in
  verify_tunnel_evidence.

Definition apply_check : M unit :=
  let* writable := gets (selected GuiManaged) in
  require writable READ_ONLY.

Definition apply_failed (previous : option ActiveProfile) (candidate : WireGuardProfile)
    (classification : ApplyKind) : M unit :=
  let* restored := restore previous candidate in
  let* _ := if restored : bool then publish_dns (ap_profile <$> previous) else ret tt in
  record_failure previous classification restored
    "Profile application failed; the previous active profile was restored"
    "Profile application failed; enrolled traffic remains blocked".

Definition commit_failed (previous : option ActiveProfile) (candidate : WireGuardProfile)
    (classification : ApplyKind) : M unit :=
  let* restored := restore previous candidate in
  record_failure previous classification restored
    "Revision activation failed; the previous profile was restored"
    "Revision activation failed; enrolled traffic remains blocked".

(** The revision is the active one of the store. *)
Definition committed (revision : ManagedRevision) (candidate : WireGuardProfile)
    (classification : ApplyKind) : M ApplyResult :=
  let* _ := modify (set_active (Some {| ap_revision := Some revision.(mr_id); ap_profile := candidate |})) in
  let* _ := publish_dns (Some candidate) in
  let result := {| ar_revision := Some revision.(mr_id); ar_classification := classification;
                   ar_rolled_back := false; ar_safe_message := applied_message classification |} in
  let* _ := set_lifecycle LifecycleActive in
  let* _ := set_shown (Some revision.(mr_id)) (Some (redacted candidate (Some candidate))) in
  let* _ := refresh_revisions in
  let* _ := set_last_apply result in
  ret result.

Definition apply_locked (revision_id : string) (nft : Nft) (now : N) : M ApplyResult :=
  let* candidate := query MISSING "load" (read (fun t => Profiles.load t revision_id)) in
  let* candidate := lift (ok_or candidate "managed profile revision does not exist") in
  let* _ := lift (validate_profile_capabilities config candidate) in
  let* previous := gets m_active in
  let classification := classify previous candidate in
  let* _ := set_lifecycle Applying in
  let* _ := enforce (reconcile_base config nft) in
  let* result := attempt (run (put candidate classification previous)) in
  match result with
  | Ok _ =>
      let* activated := attempt (query MISSING "activate" (fun t => activate t revision_id now)) in
      match activated with
      | Ok revision => committed revision candidate classification
      | Err error =>
          let* _ := commit_failed previous candidate classification in
          fail "committing the active profile revision"
      end
  | Err error =>
      let* _ := apply_failed previous candidate classification in
      fail "applying managed WireGuard profile"
  end.

Definition apply (revision_id : string) (nft : Nft) (now : N) : M ApplyResult :=
  let* _ := apply_check in
  apply_locked revision_id nft now.

Definition load_source (source : ProfileSource) : M (option string * WireGuardProfile) :=
  match source with
  | Mounted =>
      let* profile := run load_mounted_profile in
      let* profile := lift (ok_or profile "the mounted profile is absent") in
      ret (None, profile)
  | GuiManaged =>
      let* found := query UNAVAILABLE "active" (read active) in
      let* found := lift (ok_or found "no active GUI-managed revision exists") in
      ret (Some found.1.(mr_id), found.2)
  end.

Definition activate_source (source : ProfileSource) (nft : Nft) : M ApplyResult :=
  let* loaded := load_source source in
  let '(revision, candidate) := loaded in
  let* _ := lift (validate_profile_capabilities config candidate) in
  let* previous := gets m_active in
  let classification := classify previous candidate in
  let* _ := set_lifecycle Applying in
  let* _ := enforce (reconcile_base config nft) in
  let* applied := attempt (run (put candidate classification previous)) in
  match applied with
  | Err error =>
      let* restored := restore previous candidate in
      let* _ := record_failure previous classification restored
        "Source activation failed; the previous profile was restored"
        "Source activation failed; enrolled traffic remains blocked" in
      fail "activating WireGuard profile source"
  | Ok _ =>
      let* _ := modify (set_active (Some {| ap_revision := revision; ap_profile := candidate |})) in
      let* _ := modify (set_source source) in
      let* _ := publish_dns (Some candidate) in
      let result := {| ar_revision := revision; ar_classification := classification;
                       ar_rolled_back := false;
                       ar_safe_message := "The selected profile source was activated transactionally" |} in
      let* _ := set_lifecycle LifecycleActive in
      let* _ := set_shown_source source in
      let* _ := set_shown revision (Some (redacted candidate (Some candidate))) in
      let* _ := set_last_apply result in
      ret result
  end.

Definition recover : M unit :=
  let* active := gets m_active in
  let* active := lift (ok_or active "no active profile is available for recovery") in
  let* _ := set_lifecycle LifecycleRecovering in
  let* result := attempt (run (recycle active.(ap_profile))) in
  let* _ := set_lifecycle (if is_ok result then LifecycleActive else LifecycleDegraded) in
  lift result.

Definition mark (lifecycle : ProfileLifecycle) : M unit :=
  let* active := gets has_active_profile in
  if active : bool then set_lifecycle lifecycle else ret tt.

Definition mark_degraded : M unit := mark LifecycleDegraded.
Definition mark_active : M unit := mark LifecycleActive.

(** ** Startup *)

Definition new (store : option Table) (policy : DesiredPolicy) (active_profile : option WireGuardProfile)
    (log : list Event) : Manager :=
  let source := config.(c_wireguard).(wc_source) in
  {| m_log := log; m_policy := policy; m_store := store;
     m_active := (fun p => {| ap_revision := None; ap_profile := p |}) <$> active_profile;
     m_status :=
       {| pm_lifecycle := match active_profile with Some _ => LifecycleActive | None => Unconfigured end;
          pm_source := source_name source;
          pm_source_mutable := bool_decide (source = GuiManaged);
          pm_active_revision := None;
          pm_active := (fun p => redacted p None) <$> active_profile;
          pm_revisions := []; pm_last_apply := None;
          pm_management_available := true;
          pm_mutation_authorized := bool_decide (is_Some config.(c_wireguard).(wc_admin_token_path));
          pm_ipv4_only := true |};
     m_dns_upstream := dns_upstream config active_profile;
     m_selected_source := source |}.

Definition initialize : M unit :=
  let* store := gets m_store in
  match store with
  | None => ret tt
  | Some _ =>
      let* _ := refresh_revisions in
      if bool_decide (config.(c_wireguard).(wc_source) = GuiManaged)
      then
        let* status := gets m_status in
        match find mr_active status.(pm_revisions) with
        | None => ret tt
        | Some revision =>
            let* _ := set_shown (Some revision.(mr_id)) status.(pm_active) in
            let* active := gets m_active in
            match active with
            | None => ret tt
            | Some active =>
                let* _ := modify (set_active
                  (Some {| ap_revision := Some revision.(mr_id); ap_profile := active.(ap_profile) |})) in
                publish_dns (Some active.(ap_profile))
            end
        end
      else ret tt
  end.

(** The start of [run] in src/src/runtime.rs: the profile of the configured
    source, unless it cannot be used. *)
Definition boot_profile (store : option Table) : Gateway (option WireGuardProfile) := fun log =>
  let '(log, found) :=
    match config.(c_wireguard).(wc_source), store with
    | Mounted, _ => load_mounted_profile log
    | GuiManaged, Some table =>
        let '(log, r) := perform (QueryStore "active") log in
        (log, match r with
              | Ok (Done _) =>
                  match active table with
                  | Ok found => Ok (snd <$> found)
                  | Err e => Err e
                  end
              | _ => Ok None
              end)
    | GuiManaged, None => (log, Ok None)
    end in
  let profile := match found with Ok found => found | Err _ => None end in
  (log, Ok (profile ≫= fun p =>
              match validate_profile_capabilities config p with Ok _ => Some p | Err _ => None end)).

Definition boot (store : option Table) (policy : DesiredPolicy) : Manager * Result unit string :=
  let '(log, profile) := boot_profile store [] in
  initialize (new store policy (match profile with Ok p => p | Err _ => None end) log).
End operations.
