(* ===== verification/ProfileManagerProps.v ===== *)
(** Managed profile transactions: what is published agrees with the profile in
    use, a failed transaction keeps the profile, and a reported rollback is
    real. *)

From S2P Require Import Prelude RustStr StrFacts Net NetFacts BTree Order WireGuard WireGuardProps Profiles State Domain Config ConfigProps Enforcement EnforcementProps Machine StateErr Routes RoutesProps ProfileManager.

(** ** Reasoning about computations on the manager *)

Section wp.
Context `{!IpNetCrate, !StoreEnv, !Env, !ProfileFiles}.
Implicit Types (s : Manager).

(** The part of the state that only a commit changes. *)
Definition view s : option ActiveProfile * option SocketAddr * option Table * ProfileSource * option string :=
  (s.(m_active), s.(m_dns_upstream), s.(m_store), s.(m_selected_source), s.(m_status).(pm_active_revision)).

Definition quiet {A} (m : M A) : Prop := forall s, view (m s).1 = view s.

Lemma wp_quiet {A} (m : M A) s (Q : Manager -> Result A string -> Prop) :
  quiet m -> (forall s1 r, view s1 = view s -> Q s1 r) -> wp m s Q.
Proof. intros Hm HQ. apply HQ, Hm. Qed.

Lemma quiet_ret {A} (a : A) : quiet (ret a). Proof. done. Qed.
Lemma quiet_fail {A} e : quiet (fail (A := A) e). Proof. done. Qed.
Lemma quiet_gets {A} (f : Manager -> A) : quiet (gets f). Proof. done. Qed.
Lemma quiet_lift {A} (r : Result A string) : quiet (lift r). Proof. done. Qed.
Lemma quiet_run {A} (g : Gateway A) : quiet (run g). Proof. done. Qed.
Lemma quiet_enforce {A} (f : DesiredPolicy -> DesiredPolicy * Result A string) : quiet (enforce f).
Proof. done. Qed.
Lemma quiet_attempt {A} (m : M A) : quiet m -> quiet (attempt m).
Proof. intros Hm s. exact (Hm s). Qed.
Lemma quiet_lifecycle l : quiet (set_lifecycle l). Proof. done. Qed.
Lemma quiet_revisions l : quiet (set_revisions l). Proof. done. Qed.
Lemma quiet_last_apply r : quiet (set_last_apply r). Proof. done. Qed.
Lemma quiet_shown_source r : quiet (set_shown_source r). Proof. done. Qed.
Lemma quiet_bind {A B} (m : M A) (f : A -> M B) :
  quiet m -> (forall a, quiet (f a)) -> quiet (bind m f).
Proof.
  intros Hm Hf s. specialize (Hm s). unfold bind. destruct (m s) as [s1 [a|e]]; [|done].
  rewrite (Hf a s1). exact Hm.
Qed.

(** Reading the store. *)
Lemma quiet_read {A} missing operation (f : Table -> Result A string) : quiet (query missing operation (read f)).
Proof.
  intros s. unfold query, bind, gets, lift. destruct (m_store s) as [t|] eqn:Ht; [|done]. cbn.
  unfold run, perform. cbn. destruct (reply _ _); cbn; [done|done|]. unfold view. cbn. by rewrite Ht.
Qed.

Lemma quiet_restore config previous candidate : quiet (restore config previous candidate).
Proof. destruct previous; apply quiet_bind; intros; done. Qed.

Lemma quiet_refresh : quiet refresh_revisions.
Proof. apply quiet_bind; [apply quiet_read|done]. Qed.

Lemma quiet_record previous classification restored a b : quiet (record_failure previous classification restored a b).
Proof. done. Qed.
End wp.

Create HintDb manager discriminated.
#[export] Hint Resolve quiet_ret quiet_fail quiet_gets quiet_lift quiet_run quiet_enforce quiet_attempt
  quiet_lifecycle quiet_revisions quiet_last_apply quiet_shown_source quiet_bind quiet_read quiet_restore
  quiet_refresh quiet_record : manager.

Section transactions.
Context `{!IpNetCrate, !StoreEnv, !Env, !ProfileFiles} (config : Config).
Implicit Types (s : Manager).

(** What [committed] leaves of [view]. *)
Definition committed_view (table : option Table) (source : ProfileSource) (revision : option string)
    (candidate : WireGuardProfile) :=
  (Some {| ap_revision := revision; ap_profile := candidate |}, dns_upstream config (Some candidate),
   table, source, revision).

Lemma wp_committed revision candidate classification s :
  wp (committed config revision candidate classification) s (fun s1 r =>
    view s1 = committed_view s.(m_store) s.(m_selected_source) (Some revision.(mr_id)) candidate
    /\ forall result, r = Ok result ->
       result.(ar_revision) = Some revision.(mr_id) /\ result.(ar_rolled_back) = false
       /\ s1.(m_status).(pm_lifecycle) = LifecycleActive
       /\ s1.(m_status).(pm_last_apply) = Some result).
Proof.
  unfold committed. apply wp_bind. cbn. apply wp_bind. cbn. apply wp_bind. cbn. apply wp_bind. cbn.
  apply wp_bind. unfold refresh_revisions. apply wp_bind.
  set (s2 := set_status _ _). assert (Hv : view s2 = committed_view (m_store s) (m_selected_source s)
    (Some (mr_id revision)) candidate) by done.
  assert (Hl : pm_lifecycle (m_status s2) = LifecycleActive) by done. clearbody s2.
  unfold query, bind, gets, lift, run, perform, read, wp. cbn.
  destruct (m_store s2) as [t|] eqn:Ht; cbn; [|by split].
  destruct (reply _ _); cbn; [by split|by split|].
  destruct (revisions t) as [all|e]; cbn; split; try done.
  - rewrite <- Hv. unfold view. cbn. by rewrite Ht.
  - by intros result [= <-].
  - rewrite <- Hv. unfold view. cbn. by rewrite Ht.
Qed.

Lemma wp_query {A} missing operation (f : Table -> Table * Result A string) s Q :
  (forall s1 e, view s1 = view s -> Q s1 (Err e)) ->
  (forall t s1, m_store s = Some t ->
     view s1 = (s.(m_active), s.(m_dns_upstream), Some (f t).1, s.(m_selected_source),
                s.(m_status).(pm_active_revision)) -> Q s1 (f t).2) ->
  wp (query missing operation f) s Q.
Proof.
  intros Hfail Hdone. unfold query, bind, gets, lift, run, perform, wp. cbn.
  destruct (m_store s) as [t|] eqn:Ht; cbn; [|by apply Hfail].
  destruct (reply _ _); cbn; [apply Hfail|apply Hfail|].
  - unfold view. cbn. by rewrite Ht.
  - unfold view. cbn. by rewrite Ht.
  - by apply Hdone.
Qed.

Lemma wp_read {A} missing operation (f : Table -> Result A string) s Q :
  (forall s1 e, view s1 = view s -> Q s1 (Err e)) ->
  (forall t s1, m_store s = Some t -> view s1 = view s -> Q s1 (f t)) ->
  wp (query missing operation (read f)) s Q.
Proof.
  intros Hfail Hdone. apply wp_query; [done|]. cbn. intros t s1 Ht Hv. apply (Hdone t); [done|].
  rewrite Hv. unfold view. by rewrite Ht.
Qed.

Ltac wp_quiet Hv :=
  apply wp_bind, wp_quiet; [auto with manager|]; intros ? [?|?] Hv; cbv beta iota.

(** The outcome of a transaction on the profile in use: nothing, the candidate,
    or a store that changed although its operation failed. *)
Definition transaction_outcome (revision_id : string) (now : N) s s1 (r : Result ApplyResult string) : Prop :=
  (exists e, r = Err e /\ m_active s1 = m_active s /\ m_store s1 = m_store s
             /\ m_selected_source s1 = m_selected_source s
             /\ s1.(m_status).(pm_active_revision) = s.(m_status).(pm_active_revision)
             /\ (m_dns_upstream s = dns_upstream config (ap_profile <$> m_active s) ->
                 m_dns_upstream s1 = m_dns_upstream s))
  \/ (exists t candidate revision,
        m_store s = Some t /\ Profiles.load t revision_id = Ok (Some candidate)
        /\ validate_profile_capabilities config candidate = Ok tt
        /\ (activate t revision_id now).2 = Ok revision
        /\ view s1 = committed_view (Some (activate t revision_id now).1) (m_selected_source s)
                       (Some revision.(mr_id)) candidate
        /\ forall result, r = Ok result ->
             result.(ar_revision) = Some revision.(mr_id) /\ result.(ar_rolled_back) = false
             /\ s1.(m_status).(pm_lifecycle) = LifecycleActive
             /\ s1.(m_status).(pm_last_apply) = Some result)
  \/ (exists t e e', r = Err e /\ m_store s = Some t /\ (activate t revision_id now).2 = Err e'
        /\ view s1 = (m_active s, m_dns_upstream s, Some (activate t revision_id now).1, m_selected_source s,
                      s.(m_status).(pm_active_revision))).

Lemma view_fields s s1 :
  view s1 = view s ->
  m_active s1 = m_active s /\ m_dns_upstream s1 = m_dns_upstream s /\ m_store s1 = m_store s
  /\ m_selected_source s1 = m_selected_source s
  /\ s1.(m_status).(pm_active_revision) = s.(m_status).(pm_active_revision).
Proof. unfold view. intros. by simplify_eq. Qed.

Lemma quiet_commit_failed previous candidate classification :
  quiet (commit_failed config previous candidate classification).
Proof. apply quiet_bind; [auto with manager|]. done. Qed.

Lemma wp_apply_failed previous candidate classification s :
  previous = m_active s ->
  wp (apply_failed config previous candidate classification) s (fun s1 _ =>
    m_active s1 = m_active s /\ m_store s1 = m_store s /\ m_selected_source s1 = m_selected_source s
    /\ s1.(m_status).(pm_active_revision) = s.(m_status).(pm_active_revision)
    /\ (m_dns_upstream s = dns_upstream config (ap_profile <$> m_active s) -> m_dns_upstream s1 = m_dns_upstream s)).
Proof.
  intros ->. unfold apply_failed. apply wp_bind, wp_quiet; [auto with manager|].
  intros s1 r (Ha & Hd & Ht & Hs & Hr)%view_fields. rewrite <- Ha, <- Hd, <- Ht, <- Hs, <- Hr.
  destruct r as [[]|e]; cbn; split_and!; try done.
Qed.

Lemma wp_apply_locked revision_id nft now s :
  wp (apply_locked config revision_id nft now) s (transaction_outcome revision_id now s).
Proof.
  assert (Hquiet : forall s1 e, view s1 = view s -> transaction_outcome revision_id now s s1 (Err e)).
  { intros s1 e (Ha & Hd & Ht & Hs & Hr)%view_fields. left. exists e. auto 10. }
  unfold apply_locked. apply wp_bind, wp_read; [done|]. intros t s1 Ht Hv1.
  destruct (Profiles.load t revision_id) as [found|e] eqn:Hload; [|by apply Hquiet].
  apply wp_bind, wp_lift. destruct found as [candidate|]; [|by apply Hquiet]. cbv beta iota delta [ok_or].
  apply wp_bind, wp_lift. destruct (validate_profile_capabilities config candidate) as [[]|e] eqn:Hcap; [|by apply Hquiet].
  apply wp_bind, wp_gets. cbv zeta. set (classification := classify _ _).
  apply wp_bind. cbv beta. apply wp_quiet; [auto with manager|]. intros s2 [[]|e] Hv2; [|apply Hquiet; congruence].
  apply wp_bind, wp_quiet; [auto with manager|]. intros s3 [[]|e] Hv3; [|apply Hquiet; congruence].
  apply wp_bind, wp_attempt, wp_quiet; [auto with manager|]. intros s4 r Hv4.
  assert (Hv : view s4 = view s) by congruence. clear Hv2 Hv3 Hv4 s2 s3.
  replace (m_active s1) with (m_active s4) by (apply view_fields in Hv, Hv1; intuition congruence).
  clear Hv1. apply view_fields in Hv as Hfields. destruct Hfields as (Ha & Hd & Hst & Hs & Hr).
  destruct r as [[]|e].
  - apply wp_bind, wp_attempt. apply wp_query; [intros s5 e Hv5; cbv beta iota|intros t' s5 Ht' Hv5; cbv beta iota].
    + apply wp_bind, wp_quiet; [apply quiet_commit_failed|]. intros s6 [[]|e'] Hv6;
        apply (Hquiet s6); congruence.
    + rewrite Hst, Ht in Ht'. injection Ht' as <-.
      destruct (activate t revision_id now).2 as [revision|e] eqn:Hact.
      * eapply wp_weaken; [|apply wp_committed]. cbv beta. intros s6 r [Hv6 Hok]. right. left.
        exists t, candidate, revision. split_and!; try done. rewrite Hv6. unfold committed_view.
        unfold view in Hv5. simplify_eq. congruence.
      * apply wp_bind, wp_quiet; [apply quiet_commit_failed|].
        intros s6 r Hv6. assert (Hbad : forall e2, transaction_outcome revision_id now s s6 (Err e2)).
        { intros e2. right. right. exists t, e2, e. split_and!; try done. congruence. }
        destruct r as [[]|e']; exact (Hbad _).
  - apply wp_bind. eapply wp_weaken; [|by apply wp_apply_failed]. cbv beta.
    intros s5 r (Ha5 & Ht5 & Hs5 & Hr5 & Hd5).
    assert (Hbad : forall e, transaction_outcome revision_id now s s5 (Err e)).
    { intros e'. left. exists e'. split_and!; try congruence. rewrite Hd in Hd5. rewrite Ha in Hd5. auto. }
    destruct r as [[]|e']; exact (Hbad _).
Qed.

(** ** The store behind the manager *)

Definition row_profile (row : Row) : Result WireGuardProfile string :=
  decrypt_profile row.(row_nonce) row.(row_ciphertext) row.(row_encryption_version).

Definition well_stored (t : Table) : Prop :=
  one_active t /\ forall id row, t !! id = Some row -> is_Some (metadata_decode row.(row_metadata_json)).

Lemma stage_row t source nonce random now :
  (Profiles.stage t source nonce random now).1 = t
  \/ exists id m row, t !! id = None /\ (Profiles.stage t source nonce random now).1 = <[id := row]> t
                      /\ row.(row_metadata_json) = metadata_encode m.
Proof.
  unfold Profiles.stage. destruct (parse source) as [p|]; [|by left].
  destruct (cipher_encrypt _ _ _); [|by left]. case_bool_decide as Hid; [by left|]. right.
  eexists _, (redacted p None), _. split_and!; [|reflexivity|reflexivity].
  by apply eq_None_not_Some.
Qed.

Context (metadata_roundtrip : forall m, metadata_decode (metadata_encode m) = Some m).

Lemma store_step_well_stored t t' : store_step t t' -> well_stored t -> well_stored t'.
Proof.
  intros Hstep [Hone Hdec]. split; [by apply (store_step_one_active t)|].
  intros i r Hi. destruct Hstep as [t0 source nonce random now|t0 id now|t0 id].
  - destruct (stage_row t0 source nonce random now) as [Heq|(id & m & row & _ & Heq & Hm)]; rewrite Heq in Hi; [eauto|].
    apply lookup_insert_Some in Hi as [[_ <-]|[_ Hi]]; [|eauto]. rewrite Hm, metadata_roundtrip. by eexists.
  - destruct (validate_id id) as [[]|] eqn:Hid;
      [|rewrite activate_unchanged in Hi by (left; by rewrite Hid); eauto].
    destruct (t0 !! id) eqn:Ht; [|rewrite activate_unchanged in Hi by (by right); eauto].
    apply activate_lookup in Hi as (row0 & Hr0 & ->); [|by rewrite Ht|done]. destruct (decide (i = id)); exact (Hdec _ _ Hr0).
  - unfold delete_inactive in Hi. destruct (validate_id id); [|eauto]. destruct (t0 !! id) as [r0|]; [|eauto].
    destruct (row_active r0); [eauto|]. cbn in Hi. apply lookup_delete_Some in Hi as [_ Hi]. eauto.
Qed.

Lemma reachable_well_stored t : reachable t -> well_stored t.
Proof.
  intros Hr. unfold reachable in Hr. remember (∅ : Table) as t0 eqn:H0t.
  assert (well_stored t0) as Hw.
  { subst. split; [split|]; intros *; rewrite lookup_empty; done. }
  clear H0t. induction Hr as [|t1 t2 t3 Hstep _ IH]; [done|]. apply IH. by apply (store_step_well_stored t1).
Qed.

(** An activation that fails changes nothing. *)
Lemma activate_Err t id now e : well_stored t -> (activate t id now).2 = Err e -> (activate t id now).1 = t.
Proof.
  intros [_ Hdec]. unfold activate. destruct (validate_id id); [|done]. destruct (t !! id) as [row|] eqn:Ht; [|done].
  cbn. rewrite lookup_alter_eq, lookup_fmap, Ht. cbn. unfold revision_from_row. cbn.
  destruct (Hdec id row Ht) as [m ->]. done.
Qed.

Lemma activate_Ok t id now revision row :
  (activate t id now).2 = Ok revision -> t !! id = Some row ->
  revision.(mr_id) = id
  /\ exists row', (activate t id now).1 !! id = Some row' /\ row'.(row_active) = true
                  /\ row_profile row' = row_profile row.
Proof.
  unfold activate. intros Hok Ht. destruct (validate_id id); [|done]. rewrite Ht in *. cbn in *.
  rewrite lookup_alter_eq, lookup_fmap, Ht in *. cbn in *. split; [|by eexists].
  unfold revision_from_row in Hok. cbn in Hok. destruct (metadata_decode _); [|done]. by injection Hok as <-.
Qed.

Lemma load_row t id candidate :
  Profiles.load t id = Ok (Some candidate) -> exists row, t !! id = Some row /\ row_profile row = Ok candidate.
Proof.
  unfold Profiles.load. destruct (validate_id id); [|done]. cbn. destruct (t !! id) as [row|]; [|done]. cbn.
  intros Hd. exists row. split; [done|]. unfold row_profile. destruct (decrypt_profile _ _ _); [|done]. by injection Hd as ->.
Qed.

Lemma active_row_spec t id row : active_row t = Some (id, row) -> t !! id = Some row /\ row.(row_active) = true.
Proof.
  unfold active_row. intros Hh. destruct (List.filter _ _) as [|x l] eqn:Hf; [done|]. injection Hh as ->.
  assert (Hin : (id, row) ∈ List.filter (fun '(_, r) => row_active r) (btree_iter String.leb t)).
  { rewrite Hf. left. }
  apply list_elem_of_In, filter_In in Hin as [Hin Hact]. split; [|done].
  by eapply elem_of_btree_iter, list_elem_of_In.
Qed.

Lemma active_spec t revision profile :
  active t = Ok (Some (revision, profile)) ->
  exists row, t !! revision.(mr_id) = Some row /\ row.(row_active) = true /\ row_profile row = Ok profile.
Proof.
  unfold active. destruct (active_row t) as [[id row]|] eqn:Hr; [|done]. apply active_row_spec in Hr as [Ht Ha].
  unfold revision_from_row. destruct (metadata_decode _); [|done]. cbn. intros Hd. exists row.
  destruct (decrypt_profile _ _ _) as [p|] eqn:Hp; [|done]. cbn in Hd. injection Hd as <- <-. done.
Qed.

Lemma revisions_spec t all revision :
  revisions t = Ok all -> revision ∈ all ->
  exists row, t !! revision.(mr_id) = Some row /\ row.(row_active) = revision.(mr_active).
Proof.
  unfold revisions. intros Hall Hin. apply mapM_res_Ok in Hall.
  apply list_elem_of_lookup in Hin as [i Hi].
  destruct (Forall2_lookup_r _ _ _ _ _ Hall Hi) as ([id row] & Hx & Hrow).
  apply list_elem_of_lookup_2, subseteq_take, elem_of_sort_by, elem_of_btree_iter in Hx.
  unfold revision_from_row in Hrow. destruct (metadata_decode _); [|done]. cbn in Hrow. injection Hrow as <-.
  by exists row.
Qed.

(** ** The invariant *)

Record consistent s : Prop := {
  consistent_dns : m_dns_upstream s = dns_upstream config (ap_profile <$> m_active s);
  consistent_shown : forall a, m_active s = Some a -> s.(m_status).(pm_active_revision) = a.(ap_revision);
  consistent_store : forall t, m_store s = Some t -> well_stored t;
  consistent_revision : forall t a id,
    m_store s = Some t -> m_active s = Some a -> a.(ap_revision) = Some id ->
    exists row, t !! id = Some row /\ row.(row_active) = true /\ row_profile row = Ok a.(ap_profile);
}.

Lemma view_eq s1 a d t source revision :
  view s1 = (a, d, t, source, revision) ->
  m_active s1 = a /\ m_dns_upstream s1 = d /\ m_store s1 = t /\ m_selected_source s1 = source
  /\ s1.(m_status).(pm_active_revision) = revision.
Proof. unfold view. intros [= -> -> -> -> ->]. done. Qed.

Lemma consistent_view s s1 : view s1 = view s -> consistent s -> consistent s1.
Proof.
  intros (Ha & Hd & Ht & _ & Hr)%view_fields [? ? ? ?]. split; rewrite ?Ha, ?Hd, ?Ht, ?Hr; auto.
Qed.

Definition keeps_consistent {A} (m : M A) : Prop := forall s, consistent s -> consistent (m s).1.

Lemma quiet_consistent {A} (m : M A) : quiet m -> keeps_consistent m.
Proof. intros Hm s. by apply consistent_view. Qed.

Lemma keeps_bind {A B} (m : M A) (f : A -> M B) :
  keeps_consistent m -> (forall a, keeps_consistent (f a)) -> keeps_consistent (bind m f).
Proof.
  intros Hm Hf s Hs. specialize (Hm s Hs). unfold bind. destruct (m s) as [s1 [a|e]]; [by apply Hf|done].
Qed.

(** An operation of the store that keeps the active row. *)
Lemma keeps_query {A} missing operation (f : Table -> Table * Result A string) :
  (forall t, well_stored t -> well_stored (f t).1) ->
  (forall t id row, t !! id = Some row -> row.(row_active) = true -> (f t).1 !! id = Some row) ->
  keeps_consistent (query missing operation f).
Proof.
  intros Hw Hrow s Hs. apply (wp_query _ _ _ s (fun s1 _ => consistent s1)).
  - intros s1 _ Hv. by apply (consistent_view s).
  - intros t s1 Ht (Ha1 & Hd1 & Ht1 & _ & Hr1)%view_eq.
    destruct Hs as [Hd Hsh Hst Hrev]. split; rewrite ?Ha1, ?Hd1, ?Ht1, ?Hr1; auto.
    + intros t1 [= <-]. auto.
    + intros t1 a id [= <-] Ha Hid.
      destruct (Hrev t a id) as (row & Hlook & Hact & Hp); try done. exists row. auto.
Qed.

Lemma keeps_stage source nonce random now : keeps_consistent (stage source nonce random now).
Proof.
  apply keeps_bind; [apply keeps_query|].
  - intros t. apply store_step_well_stored. constructor.
  - intros t id row Ht _. destruct (stage_row t source nonce random now) as [->|(i & m & r & Hi & -> & _)]; [done|].
    rewrite lookup_insert_ne; [done|]. intros ->. by rewrite Hi in Ht.
  - intros revision. apply quiet_consistent. auto with manager.
Qed.

Lemma keeps_delete id : keeps_consistent (delete id).
Proof.
  apply keeps_bind; [apply keeps_query|].
  - intros t. apply store_step_well_stored. constructor.
  - intros t i row Ht Hact. unfold delete_inactive. destruct (validate_id id); [|done].
    destruct (t !! id) as [r|] eqn:Hr; [|done]. destruct (row_active r) eqn:Har; [done|]. cbn.
    rewrite lookup_delete_ne; [done|]. intros ->. congruence.
  - intros _. apply quiet_consistent. auto with manager.
Qed.

(** A profile was committed. *)
Lemma consistent_commit t source revision candidate s1 :
  view s1 = committed_view t source revision candidate ->
  (forall t', t = Some t' -> well_stored t') ->
  (forall t' id, t = Some t' -> revision = Some id ->
     exists row, t' !! id = Some row /\ row.(row_active) = true /\ row_profile row = Ok candidate) ->
  consistent s1.
Proof.
  intros (Ha1 & Hd1 & Ht1 & _ & Hr1)%view_eq Hw Hrow. split; rewrite ?Ha1, ?Hd1, ?Ht1, ?Hr1; auto.
  - by intros a [= <-].
  - intros t' a id Ht [= <-] Hid. cbn in *. eauto.
Qed.

Lemma keeps_apply_locked id nft now : keeps_consistent (apply_locked config id nft now).
Proof.
  intros s Hs. pose proof (wp_apply_locked id nft now s) as Hout. unfold wp in Hout.
  set (s1 := (apply_locked config id nft now s).1) in *. set (r := (apply_locked config id nft now s).2) in *.
  clearbody s1 r.
  destruct Hout as [(e & _ & Ha & Ht & _ & Hr & Hd)|[(t & candidate & revision & Ht & Hload & _ & Hact & Hv & _)
                   |(t & e & e' & _ & Ht & Hact & Hv)]].
  - destruct Hs as [Hs1 Hs2 Hs3 Hs4]. split; rewrite ?Ha, ?Ht, ?Hr; auto. by rewrite (Hd Hs1).
  - apply load_row in Hload as (row & Hrow & Hp). destruct (activate_Ok _ _ _ _ _ Hact Hrow) as (Hid & row' & Hl' & Hact' & Hp').
    apply (consistent_commit _ _ _ _ _ Hv).
    + intros t' [= <-]. apply (store_step_well_stored t); [constructor|]. by apply (consistent_store _ Hs).
    + intros t' i [= <-] [= <-]. rewrite Hid. exists row'. rewrite Hp', Hp. done.
  - apply (consistent_view s); [|done]. rewrite Hv. unfold view. rewrite Ht. repeat f_equal.
    apply (activate_Err _ _ _ e'); [|done]. by apply (consistent_store _ Hs).
Qed.

Lemma wp_load_source source s :
  wp (load_source config source) s (fun s1 r => view s1 = view s
    /\ forall revision candidate, r = Ok (revision, candidate) ->
       forall t id, m_store s = Some t -> revision = Some id ->
       exists row, t !! id = Some row /\ row.(row_active) = true /\ row_profile row = Ok candidate).
Proof.
  destruct source; cbn [load_source].
  - apply wp_bind, wp_quiet; [auto with manager|]. intros s1 [found|e] Hv; [|done].
    apply wp_bind, wp_lift. destruct found as [p|]; [|done]. by split; [|intros ? ? [= <- <-]].
  - apply wp_bind, wp_read; [done|]. intros t s1 Ht Hv. destruct (active t) as [found|e] eqn:Hact; [|done].
    apply wp_bind, wp_lift. destruct found as [[revision profile]|]; [|done]. split; [done|].
    intros ? ? [= <- <-] t' id Ht' [= <-]. assert (t' = t) as -> by congruence. by apply active_spec.
Qed.

Lemma keeps_activate_source source nft : keeps_consistent (activate_source config source nft).
Proof.
  intros s Hs. change (wp (activate_source config source nft) s (fun s1 _ => consistent s1)).
  assert (Hquiet : forall s1, view s1 = view s -> consistent s1) by (intros; by apply (consistent_view s)).
  unfold activate_source. apply wp_bind. eapply wp_weaken; [|apply wp_load_source]. cbv beta.
  intros s1 [[revision candidate]|e] [Hv1 Hrow]; [|by apply Hquiet]. specialize (Hrow _ _ eq_refl).
  apply wp_bind, wp_lift. destruct (validate_profile_capabilities config candidate) as [[]|e]; [|by apply Hquiet].
  apply wp_bind, wp_gets. cbv zeta. set (classification := classify _ _).
  apply wp_bind, wp_quiet; [auto with manager|]. intros s2 [[]|e] Hv2; [|apply Hquiet; congruence].
  apply wp_bind, wp_quiet; [auto with manager|]. intros s3 [[]|e] Hv3; [|apply Hquiet; congruence].
  apply wp_bind, wp_attempt, wp_quiet; [auto with manager|]. intros s4 r Hv4.
  assert (Hv : view s4 = view s) by congruence. clear Hv2 Hv3 Hv4 s2 s3. destruct r as [[]|e].
  - unfold wp. apply (consistent_commit (m_store s) source revision candidate).
    + unfold committed_view. rewrite <- (proj1 (proj2 (proj2 (view_fields _ _ Hv)))). reflexivity.
    + intros t' Ht. by apply (consistent_store _ Hs).
    + intros t' id Ht Hid. by apply Hrow.
  - apply wp_quiet; [auto 10 with manager|]. intros s5 r Hv5. apply Hquiet. congruence.
Qed.

(** What the web interface and the tunnel monitor ask of the manager. *)
Inductive ManagerOp : Type :=
| MValidate (source : string)
| MStage (source nonce : string) (random : list N) (now : N)
| MStageMounted (nonce : string) (random : list N) (now : N)
| MStageEdit (input : StructuredProfileInput) (nonce : string) (random : list N) (now : N)
| MApplyCheck
| MApplyLocked (revision_id : string) (nft : Nft) (now : N)
| MDelete (revision_id : string)
| MActivateSource (source : ProfileSource) (nft : Nft)
| MRecover
| MMark (lifecycle : ProfileLifecycle).

Definition forget {A} (m : M A) : M unit := let* _ := m in ret tt.

Definition run_manager_op (o : ManagerOp) : M unit :=
  match o with
  | MValidate source => forget (validate source)
  | MStage source nonce random now => forget (stage source nonce random now)
  | MStageMounted nonce random now => forget (stage_mounted_profile config nonce random now)
  | MStageEdit input nonce random now => forget (stage_edit input nonce random now)
  | MApplyCheck => apply_check
  | MApplyLocked id nft now => forget (apply_locked config id nft now)
  | MDelete id => delete id
  | MActivateSource source nft => forget (activate_source config source nft)
  | MRecover => recover config
  | MMark lifecycle => mark lifecycle
  end.

(** A manager started on a store that earlier runs left, after operations in
    any order; the check of [apply] and its transaction are two of them. *)
Inductive manager_reachable : Manager -> Prop :=
| manager_boot store policy :
    (forall t, store = Some t -> reachable t) ->
    manager_reachable (boot config store policy).1
| manager_step s o : manager_reachable s -> manager_reachable (run_manager_op o s).1.

Lemma keeps_forget {A} (m : M A) : keeps_consistent m -> keeps_consistent (forget m).
Proof. intros Hm. apply keeps_bind; [done|]. by intros a s. Qed.

Lemma quiet_mark lifecycle : quiet (mark lifecycle).
Proof. apply quiet_bind; [auto with manager|]. intros []; auto with manager. Qed.

Lemma keeps_op o : keeps_consistent (run_manager_op o).
Proof.
  destruct o; cbn [run_manager_op]; try apply keeps_forget.
  - apply quiet_consistent. unfold validate. auto with manager.
  - apply keeps_stage.
  - do 3 (apply keeps_bind; [apply quiet_consistent; auto with manager|intros ?]). apply keeps_stage.
  - do 8 (apply keeps_bind; [apply quiet_consistent; unfold require; auto with manager|intros ?]). apply keeps_stage.
  - apply quiet_consistent. unfold apply_check, require. auto with manager.
  - apply keeps_apply_locked.
  - apply keeps_delete.
  - apply keeps_activate_source.
  - apply quiet_consistent. unfold recover. auto 10 with manager.
  - apply quiet_consistent, quiet_mark.
Qed.

Lemma boot_profile_spec store profile log :
  boot_profile config store [] = (log, Ok profile) ->
  config.(c_wireguard).(wc_source) = GuiManaged ->
  forall p, profile = Some p ->
  exists t revision, store = Some t /\ active t = Ok (Some (revision, p)).
Proof.
  unfold boot_profile. intros Hboot Hsource p ->. rewrite Hsource in Hboot.
  destruct store as [t|]; [|discriminate Hboot]. cbn in Hboot.
  destruct (reply [] _); [discriminate Hboot|discriminate Hboot|].
  destruct (active t) as [[[revision q]|]|e] eqn:Hact; [|discriminate Hboot|discriminate Hboot].
  cbn in Hboot. destruct (validate_profile_capabilities config q); [|discriminate Hboot].
  exists t, revision. by simplify_eq.
Qed.

Lemma wp_refresh s (Q : Manager -> Result unit string -> Prop) :
  (forall s1 e, view s1 = view s -> Q s1 (Err e)) ->
  (forall t s1, m_store s = Some t -> view s1 = view s ->
     revisions t = Ok s1.(m_status).(pm_revisions) -> Q s1 (Ok tt)) ->
  wp refresh_revisions s Q.
Proof.
  intros Hfail Hok. unfold refresh_revisions. apply wp_bind, wp_read; [done|]. intros t s1 Ht Hv.
  destruct (revisions t) as [all|e] eqn:Hall; [|by apply Hfail]. by apply (Hok t).
Qed.

Lemma boot_consistent store policy :
  (forall t, store = Some t -> reachable t) -> consistent (boot config store policy).1.
Proof.
  intros Hstore. unfold boot. destruct (boot_profile config store []) as [log profile] eqn:Hboot.
  set (p := match profile with Ok p => p | Err _ => None end).
  assert (Hw : forall t, store = Some t -> well_stored t) by (intros; apply reachable_well_stored; auto).
  assert (Hnew : consistent (new config store policy p log)).
  { split.
    - cbn. by destruct p.
    - intros a. cbn. destruct p; [|done]. by intros [= <-].
    - exact Hw.
    - intros t a id _. cbn. destruct p; [|done]. by intros [= <-]. }
  change (wp (initialize config) (new config store policy p log) (fun s1 _ => consistent s1)).
  unfold initialize. apply wp_bind, wp_gets. destruct (m_store _) as [t|] eqn:Ht; [|done].
  apply wp_bind, wp_refresh; [intros s1 e Hv; by apply (consistent_view _ _ Hv)|].
  intros t' s1 Ht' Hv Hall. assert (t' = t) as -> by congruence. cbn in Ht. clear Ht'.
  assert (Hs1 : consistent s1) by apply (consistent_view _ _ Hv Hnew).
  case_bool_decide as Hsource; [|done]. apply wp_bind, wp_gets.
  destruct (find mr_active _) as [revision|] eqn:Hfind; [|done].
  apply find_some in Hfind as [Hin Hact]. rewrite <- list_elem_of_In in Hin.
  destruct (revisions_spec _ _ _ Hall Hin) as (row & Hrow & Hra). rewrite Hact in Hra.
  apply wp_bind. unfold wp at 1. apply wp_bind, wp_gets.
  destruct (m_active _) as [a|] eqn:Ha; cbn in Ha.
  - unfold wp. apply (consistent_commit (m_store s1) (m_selected_source s1) (Some (mr_id revision)) (ap_profile a)).
    + reflexivity.
    + apply (consistent_store _ Hs1).
    + intros t' id Ht' [= <-]. assert (t' = t) as ->.
      { apply view_fields in Hv as (_ & _ & Hst & _). cbn in Hst. congruence. }
      exists row. split_and!; [done|done|].
      assert (Hp : p = Some (ap_profile a)).
      { apply view_fields in Hv as (Hva & _). rewrite Ha in Hva. cbn in Hva.
        destruct p as [q|]; [|discriminate Hva]. injection Hva as ->. reflexivity. }
      assert (Hprofile : profile = Ok (Some (ap_profile a))).
      { subst p. destruct profile as [q|]; [by f_equal|discriminate Hp]. }
      rewrite Hprofile in Hboot.
      destruct (boot_profile_spec _ _ _ Hboot Hsource _ eq_refl) as (t1 & r1 & Ht1 & Hactive).
      assert (t1 = t) as -> by congruence.
      apply active_spec in Hactive as (row1 & Hrow1 & Hact1 & Hp1).
      destruct (Hw t Ht) as [[Huniq _] _].
      assert (mr_id r1 = mr_id revision) as Heq by exact (Huniq _ _ row1 row Hrow1 Hrow Hact1 Hra).
      rewrite Heq, Hrow in Hrow1. injection Hrow1 as <-. exact Hp1.
  - unfold wp. cbn. destruct Hs1 as [Hd _ Hst _]. split; [exact Hd| |exact Hst|].
    + intros a. cbn. by rewrite Ha.
    + intros ? a ? _. cbn. by rewrite Ha.
Qed.

Lemma reachable_consistent s : manager_reachable s -> consistent s.
Proof.
  induction 1 as [store policy Hstore|s o _ IH]; [by apply boot_consistent|]. by apply keeps_op.
Qed.



End transactions.

Section tunnel.
Context `{!IpNetCrate, !StoreEnv, !Env, !ProfileFiles} (config : Config).
Implicit Types (s : Manager).

(** ** The tunnel under the manager *)

(** [m] keeps a property of the log. *)
Definition logged {A} (P : list Event -> Prop) (m : M A) : Prop := forall s, P s.(m_log) -> P (m s).1.(m_log).

Lemma logged_bind {A B} P (m : M A) (f : A -> M B) :
  logged P m -> (forall a, logged P (f a)) -> logged P (bind m f).
Proof.
  intros Hm Hf s Hs. specialize (Hm s Hs). unfold bind. destruct (m s) as [s1 [a|e]]; [by apply Hf|done].
Qed.

Lemma logged_attempt {A} P (m : M A) : logged P m -> logged P (attempt m).
Proof. intros Hm s. apply Hm. Qed.

Lemma logged_run {A} P (g : Gateway A) : keeps P g -> logged P (run g).
Proof. intros Hg s Hs. specialize (Hg _ Hs). cbn. by destruct (g (m_log s)) as [log [a|e]]. Qed.

Lemma logged_still {A} P (m : M A) : (forall s, m_log (m s).1 = m_log s) -> logged P m.
Proof. intros Hm s Hs. by rewrite Hm. Qed.

Definition quiet_store (P : list Event -> Prop) : Prop :=
  forall log r operation, P log -> P (log ++ [(QueryStore operation, r)]).

Lemma logged_query {A} P missing operation (f : Table -> Table * Result A string) :
  quiet_store P -> logged P (query missing operation f).
Proof.
  intros HP s Hs. unfold query, bind, gets, lift, run, perform. cbn.
  destruct (m_store s) as [t|]; cbn; [|done]. destruct (reply _ _); cbn; by apply HP.
Qed.

(** [fail_closed] after every action of the manager. *)
Notation fine := (closed_and config (shows [] [])).

Lemma fine_store : quiet_store fine.
Proof. intros log r operation. by apply closed_other. Qed.

Lemma fine_other a r log : is_ip a = false -> fine log -> fine (log ++ [(a, r)]).
Proof. apply closed_other. Qed.

Lemma keeps_fine_ret {A} (a : A) : keeps fine (gw_ret a).
Proof. by apply triple_ret. Qed.

Lemma keeps_fine_bind {A B} P (m : Gateway A) (f : A -> Gateway B) :
  keeps P m -> (forall a, keeps P (f a)) -> keeps P (gw_bind m f).
Proof. intros Hm Hf. apply (triple_bind _ _ _ (fun _ => P)); [exact Hm|exact Hf]. Qed.

Lemma fine_performs {A} (g : Gateway A) : performs (fun a => negb (is_ip a)) g -> keeps fine g.
Proof.
  intros Hg. apply (performs_triple _ _ _ Hg). intros log a r Ha. apply closed_other. by destruct (is_ip a).
Qed.

Lemma fine_up profile : keeps fine (wireguard_up config profile).
Proof.
  eapply triple_weaken; [apply wireguard_up_closed|done| |done]. intros [] log. apply closed_forget.
Qed.

Lemma fine_recycle profile : keeps fine (recycle config profile).
Proof. apply keeps_fine_bind; [apply wireguard_down_closed|intros _; apply fine_up]. Qed.

Lemma fine_recycle_and_reconcile profile previous : keeps fine (recycle_and_reconcile config profile previous).
Proof. apply keeps_fine_bind; [apply fine_recycle|intros _; apply reconcile_closed]. Qed.

Lemma evidence_no_ip fuel : performs (fun a => negb (is_ip a)) (await_evidence config fuel).
Proof.
  induction fuel as [|fuel IH]; cbn [await_evidence]; [auto with gateway|].
  apply performs_bind.
  - unfold inspectable. apply performs_bind; [auto with gateway|]. intros []; auto with gateway.
  - intros []; [auto with gateway|]. apply performs_bind; [auto with gateway|]. intros []; auto with gateway.
Qed.

Lemma syncconf_no_ip profile : performs (fun a => negb (is_ip a)) (syncconf config profile).
Proof.
  unfold syncconf. apply performs_bind; [auto with gateway|]. intros _. apply performs_bind; [auto with gateway|].
  intros _ log.
  destruct (performs_command (fun a => negb (is_ip a)) "wg" ["syncconf"; tunnel config; syncconf_path config] eq_refl log)
    as (tail & Heq & Hok).
  destruct (command "wg" _ log) as [log1 result]. cbn in Heq |- *. subst log1.
  eexists. rewrite <- app_assoc. split; [reflexivity|]. apply Forall_app_2; [done|]. by constructor.
Qed.

Lemma fine_put candidate classification previous : keeps fine (put config candidate classification previous).
Proof.
  apply keeps_fine_bind.
  - destruct classification; cbn [apply_candidate].
    + by apply triple_ret.
    + apply reconcile_closed.
    + apply keeps_fine_bind; [apply fine_performs, syncconf_no_ip|intros _; apply reconcile_closed].
    + apply keeps_fine_bind; [apply fine_performs, syncconf_no_ip|intros _; apply reconcile_closed].
    + apply fine_recycle_and_reconcile.
  - intros _. apply fine_performs, evidence_no_ip.
Qed.

Lemma fine_mounted : keeps fine (load_mounted_profile config).
Proof.
  apply fine_performs. unfold load_mounted_profile.
  assert (Hparsed : forall source, performs (fun a => negb (is_ip a))
    (match parse source with Ok profile => gw_ret (Some profile) | Err error => gw_fail error.(pe_message) end)).
  { intros source. destruct (parse source); auto with gateway. }
  destruct (wc_config_base64_path _) as [path64|].
  - apply performs_bind; [by apply performs_context, performs_file_op|]. intros encoded. destruct (base64_decode _); [apply Hparsed|auto with gateway].
  - destruct (wc_config_path _) as [path|]; [|auto with gateway]. intros log.
    assert (Hstop : forall r : Result (option WireGuardProfile) string,
              exists tail, (log, r).1 = log ++ tail
                           /\ Forall (fun e : Event => negb (is_ip e.1) = true) tail).
    { intros r. exists []. by rewrite app_nil_r. }
    destruct (metadata log path) as [|e|is_file len mode]; [apply Hstop|apply Hstop|].
    destruct (_ || _); [apply Hstop|]. destruct (negb (_ =? 0)%N); [apply Hstop|].
    exact (performs_bind (fun a => negb (is_ip a)) _ _
             (performs_context _ _ _ (performs_file_op (fun a => negb (is_ip a)) (ReadFile path) eq_refl)) Hparsed log).
Qed.

Lemma fine_down : keeps fine (wireguard_down config).
Proof. apply wireguard_down_closed. Qed.

Create HintDb manager_log discriminated.
#[local] Hint Resolve logged_bind logged_attempt logged_run logged_query fine_store fine_mounted fine_put
  fine_recycle fine_recycle_and_reconcile fine_down : manager_log.
#[local] Hint Extern 1 (logged _ (ret _)) => apply logged_still; done : manager_log.
#[local] Hint Extern 1 (logged _ (fail _)) => apply logged_still; done : manager_log.
#[local] Hint Extern 1 (logged _ (lift _)) => apply logged_still; done : manager_log.
#[local] Hint Extern 1 (logged _ (gets _)) => apply logged_still; done : manager_log.
#[local] Hint Extern 1 (logged _ (modify _)) => apply logged_still; done : manager_log.
#[local] Hint Extern 1 (logged _ (enforce _)) => apply logged_still; done : manager_log.
#[local] Hint Extern 1 (logged _ (set_lifecycle _)) => apply logged_still; done : manager_log.
#[local] Hint Extern 1 (logged _ (set_revisions _)) => apply logged_still; done : manager_log.
#[local] Hint Extern 1 (logged _ (set_last_apply _)) => apply logged_still; done : manager_log.
#[local] Hint Extern 1 (logged _ (set_shown _ _)) => apply logged_still; done : manager_log.
#[local] Hint Extern 1 (logged _ (set_shown_source _)) => apply logged_still; done : manager_log.
#[local] Hint Extern 1 (logged _ (record_failure _ _ _ _ _)) => apply logged_still; done : manager_log.

Lemma fine_restore previous candidate : logged fine (restore config previous candidate).
Proof. unfold restore. destruct previous; auto 10 with manager_log. Qed.

Lemma fine_refresh : logged fine refresh_revisions.
Proof. unfold refresh_revisions. auto 10 with manager_log. Qed.

Lemma fine_stage source nonce random now : logged fine (stage source nonce random now).
Proof. unfold stage. pose proof fine_refresh. auto 10 with manager_log. Qed.

Lemma fine_apply_locked id nft now : logged fine (apply_locked config id nft now).
Proof.
  pose proof fine_restore. pose proof fine_refresh. unfold apply_locked.
  do 6 (apply logged_bind; [auto with manager_log|intros ?]).
  apply logged_bind; [auto with manager_log|]. intros [?|?].
  - apply logged_bind; [auto with manager_log|]. intros [?|?].
    + unfold committed, publish_dns. auto 20 with manager_log.
    + unfold commit_failed. auto 20 with manager_log.
  - unfold apply_failed. apply logged_bind; [|auto with manager_log].
    apply logged_bind; [auto with manager_log|]. intros restored.
    apply logged_bind; [|auto with manager_log]. destruct restored; unfold publish_dns; auto with manager_log.
Qed.

Lemma fine_activate_source source nft : logged fine (activate_source config source nft).
Proof.
  pose proof fine_restore. unfold activate_source. apply logged_bind.
  { destruct source; cbn [load_source]; auto 20 with manager_log. }
  intros [revision candidate]. do 4 (apply logged_bind; [auto with manager_log|intros ?]).
  apply logged_bind; [auto with manager_log|]. intros [?|?]; unfold publish_dns; auto 20 with manager_log.
Qed.

Lemma fine_op o : logged fine (run_manager_op config o).
Proof.
  pose proof fine_refresh. pose proof fine_stage. pose proof fine_apply_locked. pose proof fine_activate_source.
  assert (Hforget : forall A (m : M A), logged fine m -> logged fine (forget m)).
  { intros A m Hm. unfold forget. auto with manager_log. }
  destruct o; cbn [run_manager_op]; try apply Hforget; auto.
  - unfold validate. auto 20 with manager_log.
  - unfold stage_mounted_profile. auto 20 with manager_log.
  - unfold stage_edit, require. auto 30 with manager_log.
  - unfold apply_check, require. auto with manager_log.
  - unfold delete. auto 20 with manager_log.
  - unfold recover. auto 20 with manager_log.
  - unfold mark. apply logged_bind; [auto with manager_log|]. intros []; auto with manager_log.
Qed.

Lemma fine_start : fine [].
Proof. split; [|by split]. intros pre Hpre. apply prefix_nil_inv in Hpre as ->. split_and!; set_solver. Qed.

Lemma fine_boot store policy : fine (boot config store policy).1.(m_log).
Proof.
  unfold boot. destruct (boot_profile config store []) as [log profile] eqn:Hboot.
  assert (Hlog : fine log).
  { unfold boot_profile in Hboot. revert Hboot. destruct (wc_source _).
    - pose proof (fine_mounted [] fine_start) as Hm. destruct (load_mounted_profile config []) as [log1 [found|e]];
        by intros [= <- _].
    - destruct store as [t|]; [|intros [= <- _]; exact fine_start]. cbn.
      destruct (reply [] _) as [e|e|out]; try (destruct (active t) as [found|e]); intros [= <- _];
        apply (fine_store []); exact fine_start. }
  assert (Hinit : logged fine (initialize config)).
  { unfold initialize. pose proof fine_refresh. apply logged_bind; [auto with manager_log|].
    intros [t|]; [|auto with manager_log]. apply logged_bind; [auto|]. intros _.
    case_bool_decide; [|auto with manager_log]. apply logged_bind; [auto with manager_log|]. intros status.
    destruct (find _ _); [|auto with manager_log]. apply logged_bind; [auto with manager_log|]. intros _.
    apply logged_bind; [auto with manager_log|]. intros [a|]; [|auto with manager_log].
    unfold publish_dns. auto with manager_log. }
  apply Hinit. exact Hlog.
Qed.

Lemma reachable_fine s : manager_reachable config s -> fine s.(m_log).
Proof. induction 1 as [store policy Hstore|s o _ IH]; [apply fine_boot|by apply fine_op]. Qed.


(** ** What is loaded on the interface *)

(** The files written, and the text last loaded on the interface. *)
Definition load_effect (l : gmap string string * option string) (e : Event) : gmap string string * option string :=
  match e with
  | (WriteFile path contents, Done _) => (<[path := contents]> l.1, l.2)
  | (RemoveFile path, Done _) => (base.delete path l.1, l.2)
  | (RunProgram program args, Done _) =>
      if String.eqb program "wg-quick" then
        match args with
        | [verb; path] =>
            if String.eqb verb "up" then (l.1, l.1 !! path)
            else if String.eqb verb "down" then (l.1, None) else l
        | _ => l
        end
      else if String.eqb program "wg" then
        match args with
        | [verb; _; path] => if String.eqb verb "syncconf" then (l.1, l.1 !! path) else l
        | _ => l
        end
      else l
  | _ => l
  end.

Definition loaded (log : list Event) : gmap string string * option string := foldl load_effect (∅, None) log.

Lemma loaded_snoc log e : loaded (log ++ [e]) = load_effect (loaded log) e.
Proof. unfold loaded. by rewrite foldl_app. Qed.

Definition runs (profile : WireGuardProfile) (log : list Event) : Prop := (loaded log).2 = Some (render profile).

Lemma is_ip_loaded log a r : is_ip a = true -> loaded (log ++ [(a, r)]) = loaded log.
Proof.
  intros Ha. rewrite loaded_snoc. destruct a; try discriminate Ha. cbn in Ha. apply String.eqb_eq in Ha as ->.
  by destruct r.
Qed.

Lemma routes_only_ip profile_dns carries : performs is_ip (configure_gateway_routes config profile_dns carries).
Proof.
  unfold configure_gateway_routes, configure_gateway_ipv6_routes, service_route, ip.
  destruct (ipv6_routing _); [destruct carries|]; auto 20 with gateway.
Qed.

Lemma reconcile_only_ip previous desired carries :
  performs is_ip (reconcile_gateway_routes config previous desired carries).
Proof.
  apply performs_bind; [apply routes_only_ip|]. intros _. apply performs_each. intros a.
  unfold remove_service_route. case_bool_decide; [auto with gateway|].
  apply performs_bind; [auto with gateway|].
  intros [|stderr|]; [auto with gateway| |auto with gateway]. destruct (str_contains _ _); auto with gateway.
Qed.

Lemma triple_true {A} (m : Gateway A) : triple (fun _ => True) m (fun _ _ => True) (fun _ => True).
Proof. intros log _. by destruct (m log) as [? []]. Qed.

Lemma up_runs profile : triple (fun _ => True) (wireguard_up config profile) (fun _ => runs profile) (fun _ => True).
Proof.
  apply (triple_bind _ _ _ (fun path log => (loaded log).1 !! path = Some (render profile))).
  - do 3 (eapply triple_bind; [apply triple_true|intros ?]).
    apply (triple_bind _ _ _ (fun _ log => (loaded log).1 !! runtime_path config = Some (render profile))).
    { apply triple_file_op; [|done]. intros log out _. rewrite loaded_snoc. cbn. apply lookup_insert_eq. }
    intros _. apply (triple_bind _ _ _ (fun _ log => (loaded log).1 !! runtime_path config = Some (render profile))).
    { apply triple_file_op; [|done]. intros log out Hlog. rewrite loaded_snoc. exact Hlog. }
    intros _. by apply triple_ret.
  - intros path. apply (triple_bind _ _ _ (fun _ => runs profile)).
    { apply triple_command; [|done]. intros log out Hlog. unfold runs. rewrite loaded_snoc. exact Hlog. }
    intros _. eapply triple_weaken; [apply (performs_triple _ _ _ (routes_only_ip _ _))|intros log Hr; exact Hr|done|done].
    intros log a r Ha Hr. unfold runs. by rewrite is_ip_loaded.
Qed.

Lemma recycle_runs profile previous :
  triple fine (recycle_and_reconcile config profile previous)
    (fun _ log => runs profile log
       /\ forall name, name ∈ route_entries config (ipv4_dns profile) (carries_ipv6 profile) -> name ∈ in_force log)
    (fun _ => True).
Proof.
  apply (triple_bind _ _ _ (fun _ log => runs profile log /\ fine log)).
  - apply (triple_bind _ _ _ (fun _ => fine)).
    { eapply triple_weaken; [apply fine_down|done|done|done]. }
    intros _ log Hlog. pose proof (up_runs profile log I) as H1r. pose proof (fine_up profile log Hlog) as H2r.
    by destruct (wireguard_up config profile log) as [log1 [[]|e]].
  - intros _ log [Hr Hf].
    assert (Hkeep : keeps (runs profile)
      (reconcile_gateway_routes config (previous_dns previous) (ipv4_dns profile) (carries_ipv6 profile))).
    { apply (performs_triple _ _ _ (reconcile_only_ip _ _ _)).
      intros log1 a r Ha Hr1. unfold runs. by rewrite is_ip_loaded. }
    specialize (Hkeep log Hr).
    pose proof (reconcile_entries config (previous_dns previous) (ipv4_dns profile) (carries_ipv6 profile) log Hf) as Hent.
    destruct (reconcile_gateway_routes _ _ _ _ log) as [log1 [[]|e]]; [|done]. split; [done|]. exact Hent.
Qed.

(** a reported rollback is real.  When a failed application records that it
    rolled back, there was a previous profile, its text is what was last loaded
    on the interface, and its policy rules, default routes and service routes
    are in force; otherwise it records that traffic stays blocked. *)
Theorem rollback_is_real s previous candidate classification :
  manager_reachable config s ->
  match apply_failed config previous candidate classification s with
  | (s1, _) =>
      exists result, s1.(m_status).(pm_last_apply) = Some result
        /\ s1.(m_status).(pm_lifecycle) = ApplyFailed
        /\ result.(ar_revision) = previous ≫= ap_revision
        /\ if result.(ar_rolled_back)
           then exists a, previous = Some a /\ runs a.(ap_profile) s1.(m_log)
                /\ forall name, name ∈ route_entries config (ipv4_dns a.(ap_profile)) (carries_ipv6 a.(ap_profile)) ->
                   name ∈ in_force s1.(m_log)
           else result.(ar_safe_message) = "Profile application failed; enrolled traffic remains blocked"
  end.
Proof.
  intros Hs%reachable_fine. unfold apply_failed, restore. destruct previous as [a|].
  - pose proof (recycle_runs a.(ap_profile) (Some candidate) (m_log s) Hs) as Hr.
    unfold bind, attempt, run, ret. cbn -[recycle_and_reconcile].
    destruct (recycle_and_reconcile _ _ _ _) as [log [[]|e]]; cbn; eexists; split_and!; try reflexivity.
    cbn. exists a. split; [done|exact Hr].
  - unfold bind, attempt, run, ret. cbn -[wireguard_down].
    eexists; split_and!; reflexivity.
Qed.
End tunnel.

(** ** A run: a profile is stored, then applied *)

#[local] Existing Instance CidrNet.crate.
#[local] Existing Instance Profiles.sample_env.
#[local] Existing Instance all_well.
#[local] Instance no_files : ProfileFiles := {| metadata _ _ := NotFound; base64_decode _ := None |}.

Definition managed_config : @Config CidrNet.crate :=
  let c := example_config in
  {| c_listen := c.(c_listen); c_docker_socket := c.(c_docker_socket); c_network := c.(c_network);
     c_wireguard := Build_WireGuardConfig "wg0" GuiManaged None None true
       "/var/lib/egressy/profiles.sqlite3" (Some "/run/secrets/key") (Some "/run/secrets/token") [];
     c_port_forwarding := c.(c_port_forwarding); c_dns := c.(c_dns); c_probe := c.(c_probe);
     c_external_probe := c.(c_external_probe); c_identity := c.(c_identity);
     c_persistence := c.(c_persistence); c_otel := c.(c_otel); c_vpn_server := c.(c_vpn_server);
     c_recovery := c.(c_recovery); c_reconcile := c.(c_reconcile); c_kubernetes := c.(c_kubernetes) |}.

Definition example_id : string := "0102030405060708090a0bff".
Definition booted : Manager := (boot managed_config (Some ∅) DesiredPolicy_default).1.
Definition stored : Manager :=
  (run_manager_op managed_config
     (MStage WireGuardProps.sample_source Profiles.sample_nonce Profiles.sample_random 1000) booted).1.
Definition applied : Manager :=
  (run_manager_op managed_config (MApplyLocked example_id example_nft 2000) stored).1.

Lemma sample_metadata m : metadata_decode (metadata_encode m) = Some m.
Proof. cbn. by rewrite text_pos_text, decode_encode. Qed.

Lemma stored_reachable : manager_reachable managed_config stored.
Proof. apply manager_step, manager_boot. intros t [= <-]. apply rtc_refl. Qed.

Lemma applied_reachable : manager_reachable managed_config applied.
Proof. apply manager_step, stored_reachable. Qed.




Lemma rollback_is_real_witness :
  exists result, (apply_failed managed_config applied.(m_active) WireGuardProps.sample_profile TunnelRecycle applied).1
      .(m_status).(pm_last_apply) = Some result
    /\ result.(ar_rolled_back) = true
    /\ exists a, applied.(m_active) = Some a
       /\ runs a.(ap_profile)
            (apply_failed managed_config applied.(m_active) WireGuardProps.sample_profile TunnelRecycle applied).1.(m_log).
Proof.
  assert (Hback : (ar_rolled_back <$>
    (apply_failed managed_config applied.(m_active) WireGuardProps.sample_profile TunnelRecycle applied).1
      .(m_status).(pm_last_apply)) = Some true) by (vm_compute; reflexivity).
  pose proof (rollback_is_real managed_config applied applied.(m_active) WireGuardProps.sample_profile TunnelRecycle
                applied_reachable) as H.
  destruct (apply_failed _ _ _ _ applied) as [s1 r]. cbn [fst snd] in *.
  destruct H as (result & Hlast & _ & _ & Hreal). rewrite Hlast in Hback. injection Hback as Hback.
  rewrite Hback in Hreal. destruct Hreal as (a & Ha & Hruns & _). eauto 10.
Defined.

(** ** The source is checked before the mutex is taken

    While [apply] waits for the mutex another request selects the mounted
    profile: the managed revision is then put in use although the selected
    source, and the published one, is the mounted file. *)

Definition mounted_env : Env := fun _ a =>
  match a with
  | ReadFile path =>
      if String.eqb path "/run/secrets/wg0.conf" then Done WireGuardProps.sample_source
      else Done ("21 1 0:20 / /run/egressy rw,nosuid - tmpfs tmpfs rw,size=4096k" +:+ NL)
  | _ => Done ""
  end.

Definition mounted_files : ProfileFiles :=
  {| metadata _ _ := MetadataIs true 300 384; base64_decode _ := None |}.

Definition both_config : @Config CidrNet.crate :=
  let c := managed_config in
  {| c_listen := c.(c_listen); c_docker_socket := c.(c_docker_socket); c_network := c.(c_network);
     c_wireguard := Build_WireGuardConfig "wg0" GuiManaged (Some "/run/secrets/wg0.conf") None true
       "/var/lib/egressy/profiles.sqlite3" (Some "/run/secrets/key") (Some "/run/secrets/token") [];
     c_port_forwarding := c.(c_port_forwarding); c_dns := c.(c_dns); c_probe := c.(c_probe);
     c_external_probe := c.(c_external_probe); c_identity := c.(c_identity);
     c_persistence := c.(c_persistence); c_otel := c.(c_otel); c_vpn_server := c.(c_vpn_server);
     c_recovery := c.(c_recovery); c_reconcile := c.(c_reconcile); c_kubernetes := c.(c_kubernetes) |}.

Definition interleaved (ops : list ManagerOp) : Manager :=
  foldl (fun s o => (@run_manager_op _ _ mounted_env mounted_files both_config o s).1)
    (@boot _ _ mounted_env mounted_files both_config (Some ∅) DesiredPolicy_default).1 ops.

Definition apply_waits : list ManagerOp :=
  [MStage WireGuardProps.sample_source Profiles.sample_nonce Profiles.sample_random 1000;
   MApplyCheck; MActivateSource Mounted example_nft; MApplyLocked example_id example_nft 2000].

Example source_check_is_stale :
  (interleaved apply_waits).(m_selected_source) = Mounted
  /\ (interleaved apply_waits).(m_status).(pm_source) = "mounted"
  /\ ((interleaved apply_waits).(m_active) ≫= ap_revision) = Some example_id.
Proof. vm_compute. split_and!; reflexivity. Qed.
