(* ===== verification/PortForward.v ===== *)
(** Who may hold a port-forward lease ([apply_port_forward_constraints],
    src/src/docker.rs): collisions of ports and usage identities, and the
    limit. *)

From S2P Require Import Prelude RustStr Net BTree Order State.

Definition CLIENT_ID_PREFIX : string := "k8s-".

Notation Clients := (gmap string ClientState).

Definition is_pod (container_id : string) : bool := starts_with container_id CLIENT_ID_PREFIX.

Definition losing_collision (container_ids : list string) : list string :=
  if forallb is_pod container_ids || negb (existsb is_pod container_ids)
  then container_ids
  else List.filter is_pod container_ids.

(** [client.compliant = false; client.compliance_message = message] *)
Definition refused (message : string) (c : ClientState) : ClientState :=
  {| cl_container_id := c.(cl_container_id); cl_usage_id := c.(cl_usage_id);
     cl_usage_id_source := c.(cl_usage_id_source); cl_name := c.(cl_name);
     cl_ipv4_address := c.(cl_ipv4_address);
     cl_port_forward_target := c.(cl_port_forward_target);
     cl_target_port := c.(cl_target_port); cl_compliant := false;
     cl_compliance_message := message; cl_running := c.(cl_running);
     cl_ipv6_address := c.(cl_ipv6_address); cl_networks := c.(cl_networks);
     cl_port_forward_label_valid := c.(cl_port_forward_label_valid);
     cl_route_intent := c.(cl_route_intent); cl_traffic := c.(cl_traffic) |}.

(** [if let Some(client) = clients.get_mut(id) { .. }] for each of a list. *)
Definition refuse_all (clients : Clients) (l : list (string * string)) : Clients :=
  foldl (fun m im => alter (refused im.2) im.1 m) clients l.

(** The client asks for a lease and may have it. *)
Definition leasing (c : ClientState) : bool := c.(cl_port_forward_target) && c.(cl_compliant).

Section collisions.
Context `{Countable K} (leb : K -> K -> bool) (key : ClientState -> option K).

(** The clients that claim each key, in the order of their identifiers. *)
Definition claimants (clients : Clients) : gmap K (list string) :=
  group_push (omap (fun '(id, c) => if leasing c then k ← key c; Some (k, id) else None)
                   (btree_iter String.leb clients)).

(** The two nested loops over the keys claimed more than once. *)
Definition losers (message : K -> string) (claims : gmap K (list string)) : list (string * string) :=
  '(k, ids) ← List.filter (fun kv => (1 <? length kv.2)%nat) (btree_iter leb claims);
  (fun id => (id, message k)) <$> losing_collision ids.
End collisions.

Definition port_message (port : N) : string :=
  "egressy.target-port " +:+ show_N port
  +:+ " collides with another forwarding client; target ports must be unique".
Definition usage_message (usage_id : string) : string :=
  "egressy.usage-id " +:+ usage_id
  +:+ " collides with another forwarding client; usage IDs must be unique".
Definition limit_message (max_leases : nat) : string :=
  "port-forward lease limit of " +:+ show_nat max_leases
  +:+ " reached; lower usage IDs take precedence".

(** Docker clients first, then by usage identity. *)
Definition eligible_leb : (bool * string * string) -> (bool * string * string) -> bool :=
  lex_leb (lex_leb bool_leb String.leb) String.leb.

Definition eligible (clients : Clients) : list (bool * string * string) :=
  sort_by eligible_leb
    (omap (fun '(id, c) => if leasing c then Some (is_pod id, c.(cl_usage_id), id) else None)
          (btree_iter String.leb clients)).

Definition unique_claims (clients : Clients) : Clients :=
  let ports := claimants cl_target_port clients in
  let usage_ids := claimants (fun c => Some c.(cl_usage_id)) clients in
  refuse_all (refuse_all clients (losers N.leb port_message ports))
             (losers String.leb usage_message usage_ids).

Definition apply_port_forward_constraints (clients : Clients) (max_leases : nat) : Clients :=
  let clients := unique_claims clients in
  refuse_all clients
    ((fun x : bool * string * string => (x.2, limit_message max_leases))
       <$> drop max_leases (eligible clients)).

(** ** Refusals *)

Lemma refuse_all_lookup l clients id c' :
  refuse_all clients l !! id = Some c' ->
  exists c, clients !! id = Some c
    /\ ((id ∉ l.*1 /\ c' = c) \/ exists message, (id, message) ∈ l /\ c' = refused message c).
Proof.
  revert clients; induction l as [|[i m] l IH]; intros clients; simpl.
  - intros Hc. exists c'. split; [done|]. left. split; [apply not_elem_of_nil|done].
  - intros (c & Hc & Hcase)%IH. rewrite lookup_alter in Hc. case_decide as Hi.
    + subst i. destruct (clients !! id) as [c0|] eqn:H0; [|done]. injection Hc as <-.
      exists c0. split; [done|]. right. destruct Hcase as [[_ ->]|(msg & Hin & ->)].
      * exists m. split; [left|done].
      * exists msg. split; [by right|done].
    + exists c. split; [done|]. destruct Hcase as [[Hni ->]|(msg & Hin & ->)].
      * left. split; [|done]. rewrite not_elem_of_cons. done.
      * right. exists msg. split; [by right|done].
Qed.

Lemma refuse_all_is_Some l clients id :
  is_Some (clients !! id) -> is_Some (refuse_all clients l !! id).
Proof.
  revert clients; induction l as [|[i m] l IH]; intros clients Hc; simpl; [done|].
  apply IH. rewrite lookup_alter_is_Some. done.
Qed.

(** Whoever is still compliant was not refused, and is unchanged. *)
Lemma refuse_all_compliant l clients id c' :
  refuse_all clients l !! id = Some c' -> cl_compliant c' = true ->
  clients !! id = Some c' /\ id ∉ l.*1.
Proof. intros (c & Hc & [[Hni ->]|(m & _ & ->)])%refuse_all_lookup Hcp; [done|discriminate]. Qed.

Lemma refuse_all_other l clients id c :
  clients !! id = Some c -> id ∉ l.*1 -> refuse_all clients l !! id = Some c.
Proof.
  intros Hc Hni. destruct (refuse_all_is_Some l clients id) as [c' Hc']; [eauto|].
  rewrite Hc'. destruct (refuse_all_lookup _ _ _ _ Hc') as (c0 & H0 & [[_ ->]|(m & Hin & _)]).
  - congruence.
  - destruct Hni. apply list_elem_of_fmap. by exists (id, m).
Qed.

(** ** Collisions *)

Lemma NoDup_two (x : string) (l : list string) :
  NoDup l -> x ∈ l -> (1 < length l)%nat -> exists y, x <> y /\ y ∈ l.
Proof.
  intros Hnd Hx Hlen. destruct l as [|a [|b l]]; simpl in Hlen; [lia|lia|].
  apply list.NoDup_cons in Hnd as [Ha _]. destruct (decide (x = a)) as [->|].
  - exists b. split; [intros ->; apply Ha; left|right; left].
  - exists a. split; [done|left].
Qed.

Lemma two_elems (x y : string) (l : list string) :
  x ∈ l -> y ∈ l -> x <> y -> (1 < length l)%nat.
Proof.
  intros Hx Hy Hne. destruct l as [|a [|b l]]; simpl; [by apply not_elem_of_nil in Hx| |lia].
  apply list_elem_of_singleton in Hx, Hy. congruence.
Qed.

Section collision_facts.
Context `{Countable K} (leb : K -> K -> bool) (key : ClientState -> option K).

Definition claims (clients : Clients) (k : K) (id : string) : Prop :=
  exists c, clients !! id = Some c /\ leasing c = true /\ key c = Some k.

Definition claim_list (clients : Clients) : list (K * string) :=
  omap (fun '(id, c) => if leasing c then k ← key c; Some (k, id) else None)
       (btree_iter String.leb clients).

Lemma elem_of_claim_list clients k id : (k, id) ∈ claim_list clients <-> claims clients k id.
Proof.
  unfold claim_list, claims. rewrite list_elem_of_omap. split.
  - intros ([id' c] & Hin%elem_of_btree_iter & Hc). case_match eqn:Hl; [|done].
    apply bind_Some in Hc as (k' & Hk & [= <- <-]). eauto.
  - intros (c & Hc & Hl & Hk). exists (id, c). split; [by apply elem_of_btree_iter|].
    by rewrite Hl, Hk.
Qed.

Lemma NoDup_claim_list clients : NoDup (claim_list clients).*2.
Proof.
  unfold claim_list. pose proof (NoDup_btree_keys String.leb clients) as Hnd.
  unfold btree_keys in Hnd. induction (btree_iter String.leb clients) as [|[id c] l IH];
    simpl in *; [constructor|].
  apply list.NoDup_cons in Hnd as [Hni Hnd].
  assert (forall k, (k, id) ∉ omap (fun '(id, c) => if leasing c then k ← key c; Some (k, id) else None) l).
  { intros k ([id' c'] & Hin & Hc)%list_elem_of_omap. apply Hni.
    case_match; [|done]. apply bind_Some in Hc as (? & _ & [= _ <-]).
    apply list_elem_of_fmap. by exists (id', c'). }
  destruct (leasing c); [|by apply IH]. destruct (key c) as [k|]; simpl; [|by apply IH].
  constructor; [|by apply IH]. intros ([k' id'] & Heq & Hin)%list_elem_of_fmap.
  simpl in Heq. subst id'. set_solver.
Qed.

Lemma elem_of_claimants clients k ids id :
  claimants key clients !! k = Some ids -> id ∈ ids <-> claims clients k id.
Proof.
  intros [-> _]%group_push_lookup. rewrite elem_of_values_at. apply elem_of_claim_list.
Qed.

Lemma NoDup_claimants clients k ids : claimants key clients !! k = Some ids -> NoDup ids.
Proof.
  intros [-> _]%group_push_lookup. unfold values_at.
  eapply sublist_NoDup; [apply (NoDup_claim_list clients)|].
  apply fmap_sublist, sublist_filter.
Qed.

Lemma claimants_Some clients k id :
  claims clients k id -> exists ids, claimants key clients !! k = Some ids.
Proof.
  intros Hc%elem_of_claim_list. eexists. apply group_push_lookup. split; [done|].
  intros Hnil. change (values_at k (claim_list clients) = []) in Hnil.
  apply elem_of_values_at in Hc. rewrite Hnil in Hc. by apply not_elem_of_nil in Hc.
Qed.

(** A client loses a key to another claimant, unless a pod is among them and
    it is not one. *)
Lemma elem_of_losers message clients id :
  id ∈ (losers leb message (claimants key clients)).*1 <->
  exists k id', id <> id' /\ claims clients k id /\ claims clients k id'
    /\ (is_pod id = true \/ forall id2, claims clients k id2 -> is_pod id2 = false).
Proof.
  unfold losers. rewrite list_elem_of_fmap. split.
  - intros ([i m] & -> & ([k ids] & Hin & [Hk Hlen]%elem_of_bfilter)%list_elem_of_bind). simpl in *.
    apply elem_of_btree_iter in Hk. simplify_bools.
    apply list_elem_of_fmap in Hin as (i' & [= -> _] & Hin).
    assert (i' ∈ ids) as Hids.
    { unfold losing_collision in Hin. case_match; [done|]. by apply elem_of_bfilter in Hin as [? _]. }
    destruct (NoDup_two i' ids) as (j & Hne & Hj); [exact (NoDup_claimants _ _ _ Hk)|done|done|].
    exists k, j. split; [done|]. rewrite <- !(elem_of_claimants _ _ _ _ Hk). split_and!; [done|done|].
    setoid_rewrite <- (elem_of_claimants _ _ _ _ Hk).
    unfold losing_collision in Hin. case_match eqn:Hall.
    + apply orb_true_iff in Hall as [Hall|Hnone].
      * left. rewrite forallb_elem in Hall. auto.
      * right. intros id2 Hid2. destruct (is_pod id2) eqn:Hp; [|done].
        apply negb_true_iff in Hnone.
        assert (existsb is_pod ids = true) by (apply existsb_elem; eauto). congruence.
    + left. by apply elem_of_bfilter in Hin as [_ ?].
  - intros (k & id' & Hne & Hc & Hc' & Hlose).
    destruct (claimants_Some _ _ _ Hc) as [ids Hk].
    pose proof (proj2 (elem_of_claimants _ _ _ id Hk) Hc) as Hin.
    pose proof (proj2 (elem_of_claimants _ _ _ id' Hk) Hc') as Hin'.
    exists (id, message k). split; [done|]. apply list_elem_of_bind. exists (k, ids). split.
    + apply list_elem_of_fmap. exists id. split; [done|].
      unfold losing_collision. case_match eqn:Hall; [done|].
      apply elem_of_bfilter. split; [done|]. destruct Hlose as [?|Hno]; [done|]. exfalso.
      apply orb_false_iff in Hall as [_ Hsome%negb_false_iff].
      apply existsb_elem in Hsome as (i & Hi & Hp).
      rewrite (Hno i) in Hp; [done|]. by apply (elem_of_claimants _ _ _ _ Hk).
    + apply elem_of_bfilter. split; [by apply elem_of_btree_iter|].
      apply Nat.ltb_lt. simpl. by apply (two_elems id id').
Qed.
End collision_facts.

(** * Properties

    What the lease constraints promise, and the collision they let through. *)


Definition port_of (c : ClientState) : option N := c.(cl_target_port).
Definition usage_of (c : ClientState) : option string := Some c.(cl_usage_id).

(** The client holds, or may be given, a lease. *)
Definition leased (clients : Clients) (id : string) : Prop :=
  exists c, clients !! id = Some c /\ leasing c = true.

Lemma leasing_compliant c : leasing c = true -> cl_compliant c = true.
Proof. unfold leasing. by intros [_ ?]%andb_true_iff. Qed.

Lemma refuse_all_leased l clients id c' :
  refuse_all clients l !! id = Some c' -> leasing c' = true ->
  clients !! id = Some c' /\ id ∉ l.*1.
Proof. intros Hc Hl%leasing_compliant. by eapply refuse_all_compliant. Qed.

Lemma unique_claims_leased m id c :
  unique_claims m !! id = Some c -> leasing c = true ->
  m !! id = Some c
  /\ id ∉ (losers N.leb port_message (claimants port_of m)).*1
  /\ id ∉ (losers String.leb usage_message (claimants usage_of m)).*1.
Proof.
  intros H1 Hl. apply refuse_all_leased in H1 as (H1 & Hu); [|done].
  apply refuse_all_leased in H1 as (H1 & Hp); [|done]. exact (conj H1 (conj Hp Hu)).
Qed.

(** A leasing client that lost no collision is left as it was. *)
Lemma unique_claims_other m id c :
  m !! id = Some c ->
  id ∉ (losers N.leb port_message (claimants port_of m)).*1 ->
  id ∉ (losers String.leb usage_message (claimants usage_of m)).*1 ->
  unique_claims m !! id = Some c.
Proof. intros. unfold unique_claims. apply refuse_all_other; [by apply refuse_all_other|done]. Qed.

Lemma elem_of_eligible m b u id :
  (b, u, id) ∈ eligible m <->
  exists c, m !! id = Some c /\ leasing c = true /\ b = is_pod id /\ u = cl_usage_id c.
Proof.
  unfold eligible. rewrite elem_of_sort_by, list_elem_of_omap. split.
  - intros ([id' c] & Hin%elem_of_btree_iter & Hc). case_match; simplify_eq. eauto.
  - intros (c & Hc & Hl & -> & ->). exists (id, c). rewrite elem_of_btree_iter, Hl. done.
Qed.

Lemma NoDup_eligible m : NoDup (eligible m).
Proof.
  unfold eligible. rewrite sort_by_perm. pose proof (NoDup_btree_keys String.leb m) as Hnd.
  unfold btree_keys in Hnd. induction (btree_iter String.leb m) as [|[id c] l IH];
    simpl in *; [constructor|].
  apply list.NoDup_cons in Hnd as [Hni Hnd]. destruct (leasing c); [|by apply IH].
  constructor; [|by apply IH].
  intros ([id' c'] & Hin & Hc)%list_elem_of_omap. apply Hni.
  destruct (leasing c'); simplify_eq. apply list_elem_of_fmap. by eexists (_, c').
Qed.

(** The refusals of the lease limit fall on leasing clients. *)
Lemma limit_ids m n id :
  id ∈ ((fun x : bool * string * string => (x.2, limit_message n)) <$> drop n (eligible m)).*1 <->
  exists b u, (b, u, id) ∈ drop n (eligible m).
Proof.
  rewrite <- list_fmap_compose, list_elem_of_fmap. split.
  - intros ([[b u] i] & -> & Hin). eauto.
  - intros (b & u & Hin). by exists (b, u, id).
Qed.

Lemma constraints_leased m n id c :
  apply_port_forward_constraints m n !! id = Some c -> leasing c = true ->
  unique_claims m !! id = Some c /\ (is_pod id, cl_usage_id c, id) ∈ take n (eligible (unique_claims m)).
Proof.
  intros Hc Hl. apply refuse_all_leased in Hc as (Hc & Hni); [|done]. split; [done|].
  assert ((is_pod id, cl_usage_id c, id) ∈ eligible (unique_claims m)) as Hel
    by (apply elem_of_eligible; eauto).
  rewrite <- (take_drop n (eligible _)), elem_of_app in Hel. destruct Hel as [?|Hd]; [done|].
  destruct Hni. apply limit_ids. eauto.
Qed.

(** ** Only denials, only of leasing clients *)

Lemma refused_refused m1 m2 c : refused m1 (refused m2 c) = refused m1 c.
Proof. done. Qed.

Definition denied_only (m m' : Clients) : Prop :=
  forall id c', m' !! id = Some c' -> exists c, m !! id = Some c
    /\ (c' = c \/ leasing c = true /\ exists message, c' = refused message c).

Lemma losers_leasing `{Countable K} (leb : K -> K -> bool) key message m id :
  id ∈ (losers leb message (claimants key m)).*1 -> leased m id.
Proof. intros (k & id' & _ & (c & ? & ? & _) & _)%elem_of_losers. by exists c. Qed.

Lemma refuse_all_denied_only m m' l :
  denied_only m m' -> (forall id, id ∈ l.*1 -> leased m id) -> denied_only m (refuse_all m' l).
Proof.
  intros Hd Hl id c' (c1 & H1 & Hcase)%refuse_all_lookup.
  destruct (Hd _ _ H1) as (c & Hc & Hc1). exists c. split; [done|].
  destruct Hcase as [[_ ->]|(msg & Hin & ->)]; [done|]. right.
  destruct (Hl id) as (c0 & H0 & Hl0); [apply list_elem_of_fmap; by exists (id, msg)|].
  assert (c0 = c) as -> by congruence. split; [done|].
  destruct Hc1 as [->|(_ & ? & ->)]; eauto using refused_refused.
Qed.

Lemma constraints_denied_only m n : denied_only m (apply_port_forward_constraints m n).
Proof.
  apply refuse_all_denied_only; [apply refuse_all_denied_only; [apply refuse_all_denied_only|]|].
  - intros id c Hc. eauto.
  - intros id. apply losers_leasing.
  - intros id. apply losers_leasing.
  - intros id (b & u & Hin)%limit_ids.
    assert ((b, u, id) ∈ eligible (unique_claims m)) as (c & Hc & Hl & _)%elem_of_eligible
      by (rewrite <- (take_drop n (eligible _)), elem_of_app; by right).
    destruct (unique_claims_leased _ _ _ Hc Hl) as (? & _). by exists c.
Qed.

(** ** At most [n] leases *)

Lemma constraints_bounded m n ids :
  NoDup ids -> (forall id, id ∈ ids -> leased (apply_port_forward_constraints m n) id) ->
  (length ids <= n)%nat.
Proof.
  intros Hnd Hall.
  assert (ids ⊆ (take n (eligible (unique_claims m))).*2) as Hsub.
  { intros id Hin. destruct (Hall id Hin) as (c & Hc & Hl).
    destruct (constraints_leased _ _ _ _ Hc Hl) as [_ Ht].
    apply list_elem_of_fmap. by exists (is_pod id, cl_usage_id c, id). }
  etrans; [apply submseteq_length, NoDup_submseteq; [done|exact Hsub]|].
  rewrite length_fmap, length_take. lia.
Qed.

(** ** No two leases on one key, up to pods *)

Lemma not_loser `{Countable K} (leb : K -> K -> bool) key message m id id' k :
  id ∉ (losers leb message (claimants key m)).*1 -> id <> id' ->
  claims key m k id -> claims key m k id' ->
  is_pod id = false /\ exists pod, is_pod pod = true /\ claims key m k pod.
Proof.
  intros Hni Hne Hc Hc'.
  assert (is_pod id = false) as Hp.
  { destruct (is_pod id) eqn:Hp; [|done]. destruct Hni. apply elem_of_losers. eauto 10. }
  split; [done|].
  destruct (claimants_Some _ _ _ _ Hc) as [ids Hk].
  destruct (existsb is_pod ids) eqn:Hex.
  - apply existsb_elem in Hex as (pod & Hin & Hpod). exists pod. split; [done|].
    by apply (elem_of_claimants _ _ _ _ _ Hk).
  - destruct Hni. apply elem_of_losers. exists k, id'. split_and!; [done..|]. right.
    intros id2 Hid2. apply (elem_of_claimants _ _ _ _ _ Hk) in Hid2.
    destruct (is_pod id2) eqn:Hp2; [|done].
    assert (existsb is_pod ids = true) by (apply existsb_elem; eauto). congruence.
Qed.

(** the constraints only take compliance away, and only from clients that
    ask for a lease; at most [n] clients may then lease.  Two of them share a
    port or a usage identity only when both are Docker clients and a pod
    claims it, too. *)
Theorem leases_constrained m n :
  let m' := apply_port_forward_constraints m n in
  denied_only m m'
  /\ (forall ids, NoDup ids -> (forall id, id ∈ ids -> leased m' id) -> (length ids <= n)%nat)
  /\ forall id1 id2 c1 c2, id1 <> id2 ->
       m' !! id1 = Some c1 -> leasing c1 = true -> m' !! id2 = Some c2 -> leasing c2 = true ->
       (forall port, cl_target_port c1 = Some port -> cl_target_port c2 = Some port ->
          is_pod id1 = false /\ is_pod id2 = false
          /\ exists pod, is_pod pod = true /\ claims port_of m port pod)
       /\ (cl_usage_id c1 = cl_usage_id c2 ->
          is_pod id1 = false /\ is_pod id2 = false
          /\ exists pod, is_pod pod = true /\ claims usage_of m (cl_usage_id c1) pod).
Proof.
  split; [apply constraints_denied_only|]. split; [apply constraints_bounded|].
  intros id1 id2 c1 c2 Hne Hu1 Hl1 Hu2 Hl2.
  apply constraints_leased in Hu1 as [Hu1 _]; [|done].
  apply constraints_leased in Hu2 as [Hu2 _]; [|done].
  apply unique_claims_leased in Hu1 as (Hm1 & Hp1 & Hq1); [|done].
  apply unique_claims_leased in Hu2 as (Hm2 & Hp2 & Hq2); [|done].
  assert (forall k, port_of c1 = Some k -> claims port_of m k id1) by (intros; by exists c1).
  assert (forall k, port_of c2 = Some k -> claims port_of m k id2) by (intros; by exists c2).
  split.
  - intros port H1 H2.
    destruct (not_loser _ _ _ _ _ _ port Hp1 Hne) as [? Hpod]; [auto..|].
    destruct (not_loser _ _ _ _ _ _ port Hp2 (not_eq_sym Hne)) as [? _]; auto.
  - intros Heq. assert (claims usage_of m (cl_usage_id c1) id1) by by exists c1.
    assert (claims usage_of m (cl_usage_id c1) id2) by (exists c2; unfold usage_of; by rewrite Heq).
    destruct (not_loser _ _ _ _ _ _ (cl_usage_id c1) Hq1 Hne) as [? Hpod]; [done..|].
    destruct (not_loser _ _ _ _ _ _ (cl_usage_id c1) Hq2 (not_eq_sym Hne)) as [? _]; [done..|].
    done.
Qed.

#[local] Instance eligible_order : TotalOrder eligible_leb.
Proof. unfold eligible_leb. apply lex_order; [apply lex_order; apply _|apply _]. Qed.

Lemma eligible_sorted m n x y :
  x ∈ take n (eligible m) -> y ∈ drop n (eligible m) -> eligible_leb x y = true.
Proof. apply (sorted_take_drop eligible_leb), (sort_by_StronglySorted eligible_leb). Qed.

Lemma pods_last u i u' i' : eligible_leb (true, u, i) (false, u', i') = false.
Proof.
  unfold eligible_leb, lex_leb. cbn [fst snd].
  destruct (decide ((true, u) = (false, u'))) as [[=]|_].
  by destruct (decide (true = false)) as [[=]|_].
Qed.

(** a pod cannot cost a Docker client its lease: while some pod may lease,
    a Docker client that asks for a lease is denied it only because another
    Docker client claims the same port or the same usage identity. *)
Theorem pods_cannot_cancel_leases m n pod d c :
  let m' := apply_port_forward_constraints m n in
  is_pod pod = true -> leased m' pod ->
  is_pod d = false -> m !! d = Some c -> leasing c = true -> ~ leased m' d ->
  exists d', d' <> d /\ is_pod d' = false
    /\ ((exists port, claims port_of m port d /\ claims port_of m port d')
        \/ claims usage_of m (cl_usage_id c) d').
Proof.
  intros m' Hpod (cp & Hcp & Hlp) Hd Hc Hl Hnot.
  destruct (decide (d ∈ (losers N.leb port_message (claimants port_of m)).*1)) as [Hp|Hp].
  { apply elem_of_losers in Hp as (k & d' & Hne & Hk & Hk' & [?|Hno]); [congruence|].
    exists d'. split_and!; [done|by apply Hno|]. left. by exists k. }
  destruct (decide (d ∈ (losers String.leb usage_message (claimants usage_of m)).*1)) as [Hu|Hu].
  { apply elem_of_losers in Hu as (k & d' & Hne & Hk & Hk' & [?|Hno]); [congruence|].
    exists d'. split_and!; [done|by apply Hno|]. right.
    destruct Hk as (c0 & H0 & _ & [= <-]). assert (c0 = c) as -> by congruence. done. }
  exfalso. pose proof (unique_claims_other _ _ _ Hc Hp Hu) as Hc2.
  destruct (constraints_leased _ _ _ _ Hcp Hlp) as [_ Htake].
  assert ((is_pod d, cl_usage_id c, d) ∈ drop n (eligible (unique_claims m))) as Hdrop.
  { assert ((is_pod d, cl_usage_id c, d) ∈ eligible (unique_claims m)) as Hel
      by (apply elem_of_eligible; eauto).
    rewrite <- (take_drop n (eligible _)), elem_of_app in Hel. destruct Hel as [Ht|]; [|done].
    destruct Hnot. exists c. split; [|done]. apply refuse_all_other; [done|].
    intros (b & u & Hin)%limit_ids.
    assert ((b, u, d) ∈ eligible (unique_claims m)) as (c' & Hc' & _ & -> & ->)%elem_of_eligible
      by (rewrite <- (take_drop n (eligible _)), elem_of_app; by right).
    assert (c' = c) as -> by congruence.
    assert (NoDup (eligible (unique_claims m))) as Hnd by apply NoDup_eligible.
    rewrite <- (take_drop n (eligible _)) in Hnd. apply list.NoDup_app in Hnd as (_ & Hdis & _).
    by eapply Hdis. }
  pose proof (eligible_sorted _ _ _ _ Htake Hdrop) as Hle.
  by rewrite Hpod, Hd, pods_last in Hle.
Qed.

(** ** Concrete clients *)

Definition example_client (id usage : string) (port : N) : ClientState :=
  {| cl_container_id := id; cl_usage_id := usage; cl_usage_id_source := ExplicitLabel;
     cl_name := id; cl_ipv4_address := 0; cl_port_forward_target := true;
     cl_target_port := Some port; cl_compliant := true; cl_compliance_message := "";
     cl_running := true; cl_ipv6_address := None; cl_networks := [];
     cl_port_forward_label_valid := true; cl_route_intent := route_intent_default;
     cl_traffic := client_traffic_default |}.

Definition two_docker : Clients :=
  {["aa" := example_client "aa" "a" 8080; "bb" := example_client "bb" "b" 8080]}.
Definition two_docker_and_pod : Clients :=
  <["k8s-1" := example_client "k8s-1" "p" 8080]> two_docker.

Definition compliant_ids (m : Clients) : list string :=
  (List.filter (fun ic => leasing ic.2) (btree_iter String.leb m)).*1.

(** Two Docker clients on one target port refuse each other, unless a pod asks
    for that port as well: then both keep it. *)
Lemma pod_lets_collision_through :
  compliant_ids (apply_port_forward_constraints two_docker 8) = []
  /\ compliant_ids (apply_port_forward_constraints two_docker_and_pod 8) = ["aa"; "bb"].
Proof. split; vm_compute; reflexivity. Qed.

Definition docker_and_pods : Clients :=
  {["aa" := example_client "aa" "z" 1; "bb" := example_client "bb" "y" 1;
    "cc" := example_client "cc" "x" 2; "k8s-1" := example_client "k8s-1" "a" 3]}.

(** "aa" and "bb" collide; the pod leases next to "cc". *)
Lemma pods_cannot_cancel_leases_witness :
  exists d', d' <> "aa" /\ is_pod d' = false
    /\ ((exists port, claims port_of docker_and_pods port "aa" /\ claims port_of docker_and_pods port d')
        \/ claims usage_of docker_and_pods "z" d').
Proof.
  refine (pods_cannot_cancel_leases docker_and_pods 2 "k8s-1" "aa" (example_client "aa" "z" 1)
    eq_refl _ eq_refl _ eq_refl _).
  - exists (example_client "k8s-1" "a" 3). split; vm_compute; reflexivity.
  - reflexivity.
  - intros (c & Hc & Hl).
    enough (leasing <$> apply_port_forward_constraints docker_and_pods 2 !! "aa" = Some false) as Hf.
    { rewrite Hc in Hf. injection Hf as Hf. congruence. }
    vm_compute. reflexivity.
Defined.
