(* ===== verification/Docker.v ===== *)
(** Discovery of the enrolled Docker containers (src/src/docker.rs): what the
    gateway reads of a container list and of the network, and which clients it
    takes for compliant.

    The records below are the fields of the Docker API's answers that are read;
    every field may be missing there.  The container state is its display.  A
    hash map is iterated in the order of [map_to_list]; the one result that
    could depend on it does not ([select_default_network_order]). *)

From S2P Require Import Prelude RustStr Net BTree Order State Isolation PortForward.

Definition ENABLE_LABEL : string := "egressy.enabled".
Definition PORT_FORWARD_LABEL : string := "egressy.port-forward".
Definition TARGET_PORT_LABEL : string := "egressy.target-port".
Definition USAGE_ID_LABEL : string := "egressy.usage-id".
Definition COMPOSE_PROJECT_LABEL : string := "com.docker.compose.project".
Definition COMPOSE_SERVICE_LABEL : string := "com.docker.compose.service".

Record EndpointSettings : Type := {
  ep_ip_address : option string;
  ep_gateway : option string;
  ep_global_ipv6_address : option string;
  ep_ipv6_gateway : option string;
  ep_mac_address : option string;
  ep_gw_priority : option Z;
}.

Record Container : Type := {
  ctr_id : option string;
  ctr_names : option (list string);
  ctr_labels : option (gmap string string);
  ctr_state : option string;
  ctr_network_settings : option (option (gmap string EndpointSettings));
}.

Notation Labels := (gmap string string) (only parsing).
Notation Networks := (gmap string EndpointSettings) (only parsing).

(** [is_some()] and [is_none()] *)
Definition is_some {A} (o : option A) : bool := match o with Some _ => true | None => false end.
Definition is_none {A} (o : option A) : bool := negb (is_some o).

(** ** Labels *)

Definition label_is_true (value : option string) : bool :=
  match value with
  | Some v => String.eqb v "1" || String.eqb v "true" || String.eqb v "on" || String.eqb v "yes"
  | None => false
  end.

Definition usage_char (c : ascii) : bool :=
  is_ascii_alphanumeric c || existsb (Ascii.eqb c) ["-"; "_"; "."; ":"; "/"]%char.

Definition valid_usage_identity (value : string) : bool :=
  negb (is_empty value) && (String.length value <=? 128)%nat && str_forallb usage_char value.

(** [labels.get(..).filter(|identity| valid_usage_identity(identity))] *)
Definition explicit_usage (labels : Labels) : option string :=
  v ← labels !! USAGE_ID_LABEL; if valid_usage_identity v then Some v else None.

Definition compose_usage (labels : Labels) : option string :=
  project ← labels !! COMPOSE_PROJECT_LABEL;
  service ← labels !! COMPOSE_SERVICE_LABEL;
  let usage_id := "compose:" +:+ project +:+ "/" +:+ service in
  if valid_usage_identity usage_id then Some usage_id else None.

Definition derive_usage_identity (labels : Labels) (container_id : string)
    : string * UsageIdentitySource :=
  match explicit_usage labels with
  | Some usage_id => (usage_id, ExplicitLabel)
  | None =>
      match compose_usage labels with
      | Some usage_id => (usage_id, ComposeService)
      | None => ("container:" +:+ container_id, ContainerLifetime)
      end
  end.

(** ** Which network Docker declares as the default *)

Inductive DefaultSelection : Type :=
| Selected (network : string)
| Unselected.                        (* [DefaultSelection::Unknown] *)

Definition is_unspecified (a : N) : bool := (a =? 0)%N.

Definition usable_v4 (address : option string) : bool :=
  match address ≫= parse_ipv4 with Some a => negb (is_unspecified a) | None => false end.
Definition usable_v6 (address : option string) : bool :=
  match address ≫= parse_ipv6 with Some a => negb (is_unspecified a) | None => false end.

Definition endpoint_has_ipv4_gateway (e : EndpointSettings) : bool :=
  usable_v4 e.(ep_ip_address) && usable_v4 e.(ep_gateway).
Definition endpoint_has_ipv6_gateway (e : EndpointSettings) : bool :=
  usable_v6 e.(ep_global_ipv6_address) && usable_v6 e.(ep_ipv6_gateway).

(** Higher priority first, then by name. *)
Definition default_leb : (option Z * string) -> (option Z * string) -> bool :=
  lex_leb (reverse_leb (option_leb Z.leb)) String.leb.

(** [networks] in the order the hash map yields it. *)
Definition select_default_network (networks : list (string * EndpointSettings))
    (is_candidate : EndpointSettings -> bool) : DefaultSelection :=
  let candidates :=
    (fun ne : string * EndpointSettings => (ne.2.(ep_gw_priority), ne.1))
      <$> List.filter (fun ne => is_candidate ne.2) networks in
  match candidates with
  | [] => Unselected
  | [candidate] => Selected candidate.2
  | _ =>
      if existsb (fun c => match c.1 with None => true | Some _ => false end) candidates
      then Unselected
      else match sort_by default_leb candidates with
           | candidate :: _ => Selected candidate.2
           | [] => Unselected
           end
  end.

Definition selected (s : DefaultSelection) : option string :=
  match s with Selected network => Some network | Unselected => None end.

Definition derive_route_intent (egress_network : string) (networks : Networks) : RouteIntentState :=
  let ipv4_selection := select_default_network (map_to_list networks) endpoint_has_ipv4_gateway in
  let ipv6_selection := select_default_network (map_to_list networks) endpoint_has_ipv6_gateway in
  let '(status, reason_code, safe_message) :=
    match ipv4_selection with
    | Selected network =>
        if String.eqb network egress_network
        then (Verified, "route_intent.egress_selected",
              "Docker declares the egress network as the selected IPv4 default; the effective in-container route is not runtime-attested")
        else (Mismatch, "route_intent.alternate_selected",
              "Docker declares " +:+ network +:+ " as the selected IPv4 default instead of "
              +:+ egress_network +:+ "; this advisory metadata is not runtime attestation")
    | Unselected =>
        (RouteUnknown, "route_intent.unknown",
         "Docker gateway metadata is insufficient to determine the declared IPv4 default; the effective in-container route is not runtime-attested")
    end in
  {| ri_status := status;
     ri_ipv4_default_network := selected ipv4_selection;
     ri_ipv6_default_network := selected ipv6_selection;
     ri_egress_gateway_priority := networks !! egress_network ≫= ep_gw_priority;
     ri_gateway_priorities := ep_gw_priority <$> networks;
     ri_reason_code := reason_code;
     ri_safe_message := safe_message |}.

Definition route_intent_is_compatible (r : RouteIntentState) : bool :=
  negb (bool_decide (r.(ri_status) = Mismatch)).

(** ** Clients *)

Section Discovery.
Context `{!IpNetCrate}.

Record DockerObserver : Type := {
  ob_network_name : string;
  ob_subnet : Ipv4Net;
  ob_ipv6_subnet : option Ipv6Net;
  ob_max_port_forward_leases : nat;
}.

Definition gateway_address_is_reserved (ip_range : option string) (auxiliary_addresses : list string)
    (gateway : Ipv4Addr) : bool :=
  if existsb (fun address => bool_decide (parse_ipv4 address = Some gateway)) auxiliary_addresses
  then true
  else match ip_range ≫= ipv4net_parse with
       | Some range => negb (ipv4net_contains range gateway)
       | None => false
       end.

Definition ipv6_compliance_problem (subnet : Ipv6Net) (address : option string)
    (route_intent : RouteIntentState) (egress_network : string) : option string :=
  let outside :=
    match address with
    | Some address =>
        match parse_ipv6 address with
        | Some a => negb (ipv6net_contains subnet a)
        | None => true
        end
    | None => false
    end in
  if outside then Some ("IPv6 address is outside the enrolled subnet " +:+ ipv6net_show subnet)
  else
    network ← route_intent.(ri_ipv6_default_network);
    if String.eqb network egress_network then None
    else Some ("Docker declares " +:+ network +:+ " as the IPv6 default network instead of "
               +:+ egress_network
               +:+ "; the client is ineligible for compliant routing and port forwarding").

(** [names.into_iter().next().unwrap_or_else(|| id).trim_start_matches('/')] *)
Definition container_name (c : Container) (id : string) : string :=
  trim_start_matches (Ascii.eqb "/") (default id (head (default [] c.(ctr_names)))).

Definition container_running (c : Container) : bool :=
  match c.(ctr_state) with Some state => String.eqb state "running" | None => false end.

Definition container_networks (c : Container) : Networks :=
  default ∅ (mjoin c.(ctr_network_settings)).

(** Address, attached, first message. *)
Definition attachment (o : DockerObserver) (address : option Ipv4Addr) : Ipv4Addr * bool * string :=
  let not_attached :=
    (UNSPECIFIED, false, "labelled for egress but not attached to " +:+ o.(ob_network_name)) in
  match address with
  | Some address =>
      if ipv4net_contains o.(ob_subnet) address
      then (address, true,
            "attached to the egress network; effective default route is not runtime-attested")
      else not_attached
  | None => not_attached
  end.

(** The body of the loop for an enrolled container. *)
Definition client_from_container (o : DockerObserver) (c : Container) (labels : Labels) : ClientState :=
  let id := default "" c.(ctr_id) in
  let running := container_running c in
  let networks := container_networks c in
  let endpoint := networks !! o.(ob_network_name) in
  let address := e ← endpoint; a ← ep_ip_address e; parse_ipv4 a in
  let ipv6_address :=
    e ← endpoint; a ← ep_global_ipv6_address e; if is_empty a then None else Some a in
  let route_intent := derive_route_intent o.(ob_network_name) networks in
  let port_forward_target := label_is_true (labels !! PORT_FORWARD_LABEL) in
  let target_port := labels !! TARGET_PORT_LABEL ≫= parse_u16 in
  let port_forward_label_valid := negb port_forward_target || is_some target_port in
  let '(usage_id, usage_id_source) := derive_usage_identity labels id in
  let '(ipv4_address, attached, message) := attachment o address in
  let route_matches := route_intent_is_compatible route_intent in
  let ipv6_problem :=
    subnet ← o.(ob_ipv6_subnet);
    ipv6_compliance_problem subnet ipv6_address route_intent o.(ob_network_name) in
  let compliant := attached && running && port_forward_label_valid && route_matches
                   && is_none ipv6_problem in
  let compliance_message :=
    if attached && negb running then "enrolled container is not running"
    else if attached && negb port_forward_label_valid
    then "port forwarding requested without a valid egressy.target-port"
    else if attached && negb route_matches
    then "Docker declares an alternate IPv4 default network; the client is ineligible for compliant routing and port forwarding"
    else match attached, ipv6_problem with
         | true, Some problem => problem
         | _, _ =>
             if attached && is_some ipv6_address
                && is_none o.(ob_ipv6_subnet)
             then message +:+ "; IPv6 address present and rejected"
             else message
         end in
  {| cl_container_id := id; cl_usage_id := usage_id; cl_usage_id_source := usage_id_source;
     cl_name := container_name c id; cl_ipv4_address := ipv4_address;
     cl_port_forward_target := port_forward_target; cl_target_port := target_port;
     cl_compliant := compliant; cl_compliance_message := compliance_message;
     cl_running := running; cl_ipv6_address := ipv6_address;
     cl_networks := btree_keys String.leb networks;
     cl_port_forward_label_valid := port_forward_label_valid;
     cl_route_intent := route_intent; cl_traffic := client_traffic_default |}.

Definition discover_step (o : DockerObserver) (clients : Clients) (c : Container) : Clients :=
  let labels := default ∅ c.(ctr_labels) in
  if label_is_true (labels !! ENABLE_LABEL)
  then <[default "" c.(ctr_id) := client_from_container o c labels]> clients
  else clients.

Definition discover (o : DockerObserver) (containers : list Container) : Clients :=
  apply_port_forward_constraints (foldl (discover_step o) ∅ containers)
    o.(ob_max_port_forward_leases).

(** ** Isolation candidates *)

Definition candidate_from_container (o : DockerObserver) (c : Container) : option IsolationCandidate :=
  if negb (container_running c) then None
  else
    let labels := default ∅ c.(ctr_labels) in
    let id := default "" c.(ctr_id) in
    endpoint ← container_networks c !! o.(ob_network_name);
    address ← ep_ip_address endpoint ≫= parse_ipv4;
    if negb (ipv4net_contains o.(ob_subnet) address) then None
    else Some {| cd_container_id := id; cd_name := container_name c id;
                 cd_ipv4_address := address;
                 cd_isolation_id := labels !! ISOLATION_ID_LABEL;
                 cd_allow := labels !! ISOLATION_ALLOW_LABEL;
                 cd_mac := ep_mac_address endpoint ≫= normalize_mac;
                 cd_source := Docker;
                 cd_accept := labels !! ISOLATION_ACCEPT_LABEL |}.

Definition discover_isolation_candidates (o : DockerObserver) (containers : list Container)
    : list IsolationCandidate :=
  sort_by candidate_leb (omap (candidate_from_container o) containers).

(** ** The network itself *)

Record IpamConfig : Type := {
  ipam_subnet : option string;
  ipam_ip_range : option string;
  ipam_auxiliary_addresses : option (gmap string string);
}.

Record NetworkEndpoint : Type := {
  ne_ipv4_address : option string;
  ne_ipv6_address : option string;
}.

Record NetworkInspect : Type := {
  ni_ipam : list IpamConfig;
  ni_containers : gmap string NetworkEndpoint;
  ni_enable_ipv6 : option bool;
}.

Record NetworkObservation : Type := {
  no_exists : bool;
  no_subnet_matches : bool;
  no_gateway_attached : bool;
  no_ipv6_enabled : bool;
  no_ipv6_subnet_matches : bool;
  no_ipv6_gateway_attached : bool;
  no_gateway_address_reserved : bool;
}.

(** [address.split('/').next()] *)
Definition before_slash (address : string) : option string := head (split_char "/" address).

Definition inspect_network (o : DockerObserver) (network : NetworkInspect) (gateway : Ipv4Addr)
    (ipv6_gateway : option Ipv6Addr) : NetworkObservation :=
  let subnet := ipv4net_show o.(ob_subnet) in
  let of_subnet (config : IpamConfig) := bool_decide (config.(ipam_subnet) = Some subnet) in
  let endpoints := (map_to_list network.(ni_containers)).*2 in
  {| no_exists := true;
     no_subnet_matches := existsb of_subnet network.(ni_ipam);
     no_gateway_attached :=
       existsb (fun address => bool_decide (before_slash address = Some (show_ipv4 gateway)))
               (omap ne_ipv4_address endpoints);
     no_ipv6_enabled := default false network.(ni_enable_ipv6);
     no_ipv6_subnet_matches :=
       match o.(ob_ipv6_subnet) with
       | Some expected =>
           existsb (fun config => bool_decide (config.(ipam_subnet) ≫= ipv6net_parse = Some expected))
                   network.(ni_ipam)
       | None => false
       end;
     no_ipv6_gateway_attached :=
       match ipv6_gateway with
       | Some expected =>
           existsb (fun address => bool_decide (before_slash address ≫= parse_ipv6 = Some expected))
                   (omap ne_ipv6_address endpoints)
       | None => false
       end;
     no_gateway_address_reserved :=
       match List.find of_subnet network.(ni_ipam) with
       | Some config =>
           gateway_address_is_reserved config.(ipam_ip_range)
             ((map_to_list (default ∅ config.(ipam_auxiliary_addresses))).*2) gateway
       | None => false
       end |}.
End Discovery.
