(* ===== verification/DockerProps.v ===== *)
(** What Docker discovery promises: a declared default that does not depend on
    the order of a hash map, and compliant clients whose traffic can only take
    the enrolled network. *)

From S2P Require Import Prelude RustStr Net BTree Order State Isolation PortForward.
From S2P Require Import Docker.

#[local] Instance default_order : TotalOrder default_leb.
Proof. unfold default_leb. apply lex_order; [apply reverse_order, option_order, Z_order|apply _]. Qed.

(** [reverse_leb] over options of priorities. *)
Lemma default_leb_spec p n p' n' :
  default_leb (Some p, n) (Some p', n') = true <->
  (p' < p)%Z \/ (p = p' /\ String.leb n n' = true).
Proof.
  unfold default_leb, lex_leb, reverse_leb, option_leb. cbn [fst snd]. case_decide as Hd.
  - injection Hd as ->. split; [auto|]. intros [?|[_ ?]]; [lia|done].
  - rewrite Z.leb_le. split.
    + intros Hle. left. assert (p <> p') by congruence. lia.
    + intros [?|[-> _]]; [lia|done].
Qed.

Section select.
Context (is_candidate : EndpointSettings -> bool).

Definition candidates (l : list (string * EndpointSettings)) : list (option Z * string) :=
  (fun ne : string * EndpointSettings => (ne.2.(ep_gw_priority), ne.1))
    <$> List.filter (fun ne => is_candidate ne.2) l.

Definition choose (l : list (option Z * string)) : DefaultSelection :=
  match l with
  | [] => Unselected
  | [candidate] => Selected candidate.2
  | _ =>
      if existsb (fun c => match c.1 with None => true | Some _ => false end) l
      then Unselected
      else match sort_by default_leb l with
           | candidate :: _ => Selected candidate.2
           | [] => Unselected
           end
  end.

Lemma select_choose l : select_default_network l is_candidate = choose (candidates l).
Proof. done. Qed.

Lemma existsb_perm {A} (f : A -> bool) l k : l ≡ₚ k -> existsb f l = existsb f k.
Proof.
  intros Hp. destruct (existsb f k) eqn:Hk.
  - apply existsb_elem in Hk as (x & Hx & Hf). apply existsb_elem. exists x. by rewrite Hp.
  - destruct (existsb f l) eqn:Hl; [|done].
    apply existsb_elem in Hl as (x & Hx & Hf). rewrite Hp in Hx.
    assert (existsb f k = true) by (apply existsb_elem; eauto). congruence.
Qed.

Lemma bfilter_perm {A} (f : A -> bool) l k : l ≡ₚ k -> List.filter f l ≡ₚ List.filter f k.
Proof.
  induction 1 as [|x l k _ IH|x y l|l k m _ IH1 _ IH2]; simpl; [done| | |by etrans].
  - destruct (f x); [by constructor|done].
  - destruct (f x), (f y); try done. apply Permutation_swap.
Qed.

Lemma choose_perm l k : l ≡ₚ k -> choose l = choose k.
Proof.
  intros Hp. pose proof (Permutation_length Hp) as Hlen.
  pose proof (existsb_perm (fun c => match c.1 with None => true | Some _ => false end) _ _ Hp) as He.
  pose proof (sort_by_perm_eq default_leb _ _ Hp) as Hs.
  destruct l as [|a [|b l]], k as [|a' [|b' k]]; simpl in Hlen; try lia; [done| |].
  - apply Permutation_singleton_l in Hp. by simplify_eq.
  - unfold choose. by rewrite He, Hs.
Qed.

Lemma elem_of_candidates l p n :
  (p, n) ∈ candidates l <-> exists e, (n, e) ∈ l /\ is_candidate e = true /\ p = ep_gw_priority e.
Proof.
  unfold candidates. rewrite list_elem_of_fmap. split.
  - intros ([n' e] & [= -> ->] & [Hin Hc]%elem_of_bfilter). eauto.
  - intros (e & Hin & Hc & ->). exists (n, e). by rewrite elem_of_bfilter.
Qed.

Lemma choose_many l :
  (1 < length l)%nat ->
  choose l =
  if existsb (fun c => match c.1 with None => true | Some _ => false end) l then Unselected
  else match sort_by default_leb l with
       | candidate :: _ => Selected candidate.2
       | [] => Unselected
       end.
Proof. destruct l as [|a [|b l]]; simpl; [lia|lia|done]. Qed.

(** The first of a sorted list is not beaten. *)
Lemma choose_best l n :
  choose l = Selected n ->
  exists p, (p, n) ∈ l /\ forall p' n', (p', n') ∈ l -> (p', n') = (p, n)
    \/ exists z z', p = Some z /\ p' = Some z' /\ default_leb (Some z, n) (Some z', n') = true.
Proof.
  intros Hc. destruct l as [|a [|b l]]; [done| |].
  - injection Hc as <-. exists a.1. destruct a as [p n]. split; [left|].
    intros p' n' ->%list_elem_of_singleton. by left.
  - set (all := a :: b :: l) in *. rewrite choose_many in Hc by (simpl; lia). clearbody all.
    case_match eqn:He; [done|]. destruct (sort_by default_leb all) as [|[p n0] rest] eqn:Hs; [done|].
    injection Hc as ->.
    assert (forall x, x ∈ all -> is_Some x.1) as Hall.
    { intros x Hx. destruct x as [[z|] n0]; [eauto|].
      assert (existsb (fun c : option Z * string => match c.1 with None => true | Some _ => false end) all
              = true) by (apply existsb_elem; eauto). congruence. }
    assert ((p, n) ∈ all) as Hin by (rewrite <- (elem_of_sort_by default_leb), Hs; left).
    exists p. split; [done|]. intros p' n' Hin'.
    destruct (Hall _ Hin) as [z Hz], (Hall _ Hin') as [z' Hz']. simpl in *. subst.
    rewrite <- (elem_of_sort_by default_leb), Hs in Hin'.
    apply elem_of_cons in Hin' as [[= -> ->]|Hin']; [by left|]. right.
    exists z, z'. split_and!; [done|done|].
    pose proof (sort_by_StronglySorted default_leb all) as Hsorted. rewrite Hs in Hsorted.
    apply StronglySorted_inv in Hsorted as [_ Hbest]. rewrite list.Forall_forall in Hbest.
    by apply (Hbest (Some z', n')).
Qed.
End select.

(** the declared default network does not depend on the order in which the
    hash map of networks is iterated.  It is a network with an address and a
    gateway of that family; when there are several, all declare a priority and
    it has the highest, the first by name among equals. *)
Theorem default_network_determined (networks : gmap string EndpointSettings) is_candidate order :
  order ≡ₚ map_to_list networks ->
  select_default_network order is_candidate
    = select_default_network (map_to_list networks) is_candidate
  /\ forall n, select_default_network order is_candidate = Selected n ->
       exists e, networks !! n = Some e /\ is_candidate e = true
         /\ forall n' e', networks !! n' = Some e' -> is_candidate e' = true -> n' <> n ->
              exists p p', ep_gw_priority e = Some p /\ ep_gw_priority e' = Some p'
                /\ ((p' < p)%Z \/ (p = p' /\ String.leb n n' = true)).
Proof.
  intros Hp. rewrite !select_choose.
  assert (candidates is_candidate order ≡ₚ candidates is_candidate (map_to_list networks)) as Hc.
  { unfold candidates. by apply fmap_Permutation, bfilter_perm. }
  split; [by apply choose_perm|]. intros n (p & Hin & Hbest)%choose_best.
  apply elem_of_candidates in Hin as (e & He & Hcand & ->).
  rewrite Hp in He. apply elem_of_map_to_list in He. exists e. split_and!; [done|done|].
  intros n' e' He' Hcand' Hne.
  destruct (Hbest (ep_gw_priority e') n') as [Heq|(z & z' & Hz & Hz' & Hle)].
  - apply elem_of_candidates. exists e'. rewrite Hp. by rewrite elem_of_map_to_list.
  - congruence.
  - exists z, z'. rewrite <- default_leb_spec. done.
Qed.

(** ** Compliance *)

Section compliance.
Context `{!IpNetCrate}.

(** Why the client of a container may be compliant. *)
Record eligible_container (o : DockerObserver) (c : Container) (cl : ClientState) : Prop := {
  ec_enrolled : label_is_true (default ∅ (ctr_labels c) !! ENABLE_LABEL) = true;
  ec_running : ctr_state c = Some "running";
  ec_address : exists e a, container_networks c !! ob_network_name o = Some e
    /\ ep_ip_address e = Some a /\ parse_ipv4 a = Some (cl_ipv4_address cl);
  ec_subnet : ipv4net_contains (ob_subnet o) (cl_ipv4_address cl) = true;
  ec_default : forall n, select_default_network (map_to_list (container_networks c))
      endpoint_has_ipv4_gateway = Selected n -> n = ob_network_name o;
  ec_port : cl_port_forward_target cl = true -> is_Some (cl_target_port cl);
  ec_ipv6 : forall subnet, ob_ipv6_subnet o = Some subnet ->
    (forall a, cl_ipv6_address cl = Some a ->
       exists v, parse_ipv6 a = Some v /\ ipv6net_contains subnet v = true)
    /\ (forall n, select_default_network (map_to_list (container_networks c))
          endpoint_has_ipv6_gateway = Selected n -> n = ob_network_name o);
}.

Lemma attachment_attached o address a m :
  attachment o address = (a, true, m) -> address = Some a /\ ipv4net_contains (ob_subnet o) a = true.
Proof. unfold attachment. by repeat case_match; intros; simplify_eq. Qed.

Lemma ipv6_compliance_problem_None subnet address r egress :
  ipv6_compliance_problem subnet address r egress = None ->
  (forall a, address = Some a -> exists v, parse_ipv6 a = Some v /\ ipv6net_contains subnet v = true)
  /\ (forall n, ri_ipv6_default_network r = Some n -> n = egress).
Proof.
  unfold ipv6_compliance_problem. case_match eqn:Ho; [done|]. intros Hn. split.
  - intros a ->. destruct (parse_ipv6 a) as [v|]; [|done]. exists v. split; [done|].
    by apply negb_false_iff.
  - intros n Hr. rewrite Hr in Hn. simpl in Hn. destruct (String.eqb_spec n egress); done.
Qed.

Lemma derive_route_intent_compatible egress networks n :
  route_intent_is_compatible (derive_route_intent egress networks) = true ->
  select_default_network (map_to_list networks) endpoint_has_ipv4_gateway = Selected n -> n = egress.
Proof.
  unfold derive_route_intent, route_intent_is_compatible. intros Hr Hs. rewrite Hs in Hr.
  destruct (String.eqb_spec n egress); [done|]. discriminate Hr.
Qed.

Lemma client_from_container_compliant o c :
  label_is_true (default ∅ (ctr_labels c) !! ENABLE_LABEL) = true ->
  let cl := client_from_container o c (default ∅ (ctr_labels c)) in
  cl_compliant cl = true -> eligible_container o c cl.
Proof.
  intros Hen cl. subst cl. unfold client_from_container.
  destruct (derive_usage_identity _ _) as [usage source].
  destruct (attachment o _) as [[a attached] m] eqn:Ha.
  cbn [cl_compliant]. intros Hc.
  apply andb_true_iff in Hc as [[[[Hat Hrun]%andb_true_iff Hport]%andb_true_iff Hr]%andb_true_iff H6].
  subst attached. apply attachment_attached in Ha as [Haddr Hin]. split; cbn -[select_default_network]; try done.
  - unfold container_running in Hrun. destruct (ctr_state c); [|done].
    by apply String.eqb_eq in Hrun as ->.
  - apply bind_Some in Haddr as (e & He & (a' & Ha' & Hp)%bind_Some). by exists e, a'.
  - intros n. by apply derive_route_intent_compatible.
  - intros Ht. rewrite Ht in Hport. simpl in Hport. by destruct (_ ≫= parse_u16).
  - intros subnet Hs. rewrite Hs in H6. cbn [mbind option_bind] in H6.
    destruct (ipv6_compliance_problem _ _ _ _) eqn:Hprob; [done|].
    apply ipv6_compliance_problem_None in Hprob as [? Hd]. split; [done|].
    intros n Hn. apply Hd. unfold derive_route_intent. rewrite Hn. by repeat case_match.
Qed.

Lemma discover_from o containers m id cl :
  foldl (discover_step o) m containers !! id = Some cl ->
  m !! id = Some cl
  \/ exists c, c ∈ containers /\ default "" (ctr_id c) = id
       /\ label_is_true (default ∅ (ctr_labels c) !! ENABLE_LABEL) = true
       /\ cl = client_from_container o c (default ∅ (ctr_labels c)).
Proof.
  revert m; induction containers as [|c l IH]; intros m; simpl; [auto|].
  intros [Hm|(c' & Hin & ?)]%IH; [|right; exists c'; split; [by right|done]].
  unfold discover_step in Hm. case_match eqn:Hen; [|by left].
  apply lookup_insert_Some in Hm as [[<- <-]|[_ ?]]; [|by left].
  right. exists c. split; [left|done].
Qed.

(** a client that discovery calls compliant is an enrolled, running
    container with an address on the enrolled subnet, for which Docker declares
    no other IPv4 default network; with IPv6 routed, its IPv6 address, if any,
    is on the enrolled subnet too and no other network is its IPv6 default; and
    if it asks for a port it names a valid one. *)
Theorem compliant_client_sound o containers id cl :
  discover o containers !! id = Some cl -> cl_compliant cl = true ->
  exists c, c ∈ containers /\ default "" (ctr_id c) = id /\ eligible_container o c cl.
Proof.
  intros Hd Hc. unfold discover, apply_port_forward_constraints, unique_claims in Hd.
  apply refuse_all_compliant in Hd as [Hd _]; [|done].
  apply refuse_all_compliant in Hd as [Hd _]; [|done].
  apply refuse_all_compliant in Hd as [Hd _]; [|done].
  apply discover_from in Hd as [Hd|(c & Hin & Hid & Hen & ->)]; [by rewrite lookup_empty in Hd|].
  exists c. split_and!; [done|done|]. by apply client_from_container_compliant.
Qed.
End compliance.

(** ** A concrete container *)

Definition example_endpoint (address gateway : string) (priority : Z) : EndpointSettings :=
  {| ep_ip_address := Some address; ep_gateway := Some gateway; ep_global_ipv6_address := None;
     ep_ipv6_gateway := None; ep_mac_address := None; ep_gw_priority := Some priority |}.

Definition example_networks : gmap string EndpointSettings :=
  {["egress" := example_endpoint "10.9.0.7" "10.9.0.1" 5;
    "bridge" := example_endpoint "172.17.0.7" "172.17.0.1" 5]}.

Lemma default_network_determined_witness :
  select_default_network (reverse (map_to_list example_networks)) endpoint_has_ipv4_gateway
  = select_default_network (map_to_list example_networks) endpoint_has_ipv4_gateway
  /\ select_default_network (map_to_list example_networks) endpoint_has_ipv4_gateway = Selected "bridge".
Proof.
  split; [|vm_compute; reflexivity].
  apply (default_network_determined example_networks). apply reverse_Permutation.
Defined.

Definition example_container : Container :=
  {| ctr_id := Some "c1"; ctr_names := Some ["/web"];
     ctr_labels := Some {["egressy.enabled" := "true"]};
     ctr_state := Some "running";
     ctr_network_settings := Some (Some {["egress" := example_endpoint "10.9.0.7" "10.9.0.1" 0]}) |}.

Definition example_subnet : @Ipv4Net CidrNet.crate := CidrNet.Build_Cidr 168361984 24.
Definition example_observer : @DockerObserver CidrNet.crate :=
  {| ob_network_name := "egress"; ob_subnet := example_subnet;
     ob_ipv6_subnet := None; ob_max_port_forward_leases := 4 |}.

Lemma compliant_client_sound_witness : exists cl,
  discover example_observer [example_container] !! "c1" = Some cl
  /\ exists c, c ∈ [example_container] /\ eligible_container example_observer c cl.
Proof.
  assert (from_option cl_compliant false (discover example_observer [example_container] !! "c1") = true)
    as Hc by (vm_compute; reflexivity).
  destruct (discover example_observer [example_container] !! "c1") as [cl|] eqn:Hd; [|discriminate].
  exists cl. split; [reflexivity|].
  destruct (@compliant_client_sound CidrNet.crate _ _ _ _ Hd Hc) as (c & Hin & _ & He).
  exact (ex_intro _ c (conj Hin He)).
Defined.
