(* ===== verification/Kubernetes.v ===== *)
(** Discovery of pods on the enrolled bridge (src/src/kubernetes.rs).

    A pod is read as the API's answer gives it, absent fields being empty.  The
    JSON of the Multus annotation is read by a library: [parse_network_status]
    is a parameter, as are the URLs and the HTTP client of reqwest ([Reqwest]). *)

From S2P Require Import Prelude RustStr Net BTree Order State Config Isolation PortForward Docker.

Definition NETWORK_STATUS_ANNOTATION : string := "k8s.v1.cni.cncf.io/network-status".

Record PodMetadata : Type := {
  pm_name : string;
  pm_namespace : string;
  pm_uid : string;
  pm_annotations : gmap string string;
  pm_deletion_timestamp : option string;
}.

Record Pod : Type := {
  pod_metadata : PodMetadata;
  pod_phase : string;                (* [PodStatus] *)
}.

Record NetworkStatus : Type := {
  ns_name : string;
  ns_ips : list string;
  ns_mac : string;
  ns_gateway : list string;
}.

(** The pod's address on the egress attachment, as Multus reported it. *)
Record Attachment : Type := {
  at_ipv4_address : Ipv4Addr;
  at_mac : string;
  at_has_ipv6 : bool;
  at_default_via_gateway : bool;
}.

Definition annotation_is_true (value : option string) : bool :=
  match value with
  | Some v => String.eqb v "1" || String.eqb v "true" || String.eqb v "on" || String.eqb v "yes"
  | None => false
  end.

(** [reqwest], and the files and variables that the start reads.  A decoded
    answer of the API server is the status and the listed pods, if the body is a
    pod list; [send] answers the n-th request of a refresh, or fails. *)
Record Response : Type := {
  rs_status : N;
  rs_json : option (list Pod);
}.
Class Reqwest : Type := {
  ApiUrl : Type;
  parse_api_url : string -> option ApiUrl;
  join_url : ApiUrl -> string -> Result ApiUrl string;
  append_pair : ApiUrl -> string -> string -> ApiUrl;   (* of [query_pairs_mut] *)
  Certificate : Type;
  certificate_from_pem : list N -> option Certificate;
  HttpClient : Type;
  build_client : Certificate -> N -> Result HttpClient string;
  status_show : N -> string;
  send : HttpClient -> nat -> ApiUrl -> string -> option Response;
}.

(** [serde_json::from_str] *)
Class StatusJson : Type := parse_network_status : string -> option (list NetworkStatus).

Section Discovery.
Context `{!IpNetCrate, !StatusJson}.

Record DiscoveryScope : Type := {
  ds_network_attachment : string;
  ds_namespaces : gset string;
  ds_subnet : Ipv4Net;
  ds_address_range : Ipv4Net;
  ds_gateway_ip : Ipv4Addr;
}.

Record KubernetesSnapshot : Type := {
  ks_clients : Clients;
  ks_candidates : list IsolationCandidate;
}.

(** [next()] that must be the last. *)
Definition only {A} (l : list A) (none many : string) : Result A string :=
  match l with
  | [] => Err none
  | [x] => Ok x
  | _ :: _ :: _ => Err many
  end.

Definition parse_attachment (raw network_attachment : string) (gateway_ip : Ipv4Addr)
    : Result Attachment string :=
  let? entries := ok_or (parse_network_status raw) "network-status annotation is not valid JSON" in
  let? entry :=
    only (List.filter (fun e => String.eqb e.(ns_name) network_attachment) entries)
      ("no " +:+ network_attachment +:+ " attachment in network-status")
      (network_attachment +:+ " is attached more than once") in
  let? ipv4_address :=
    only (omap parse_ipv4 entry.(ns_ips))
      (network_attachment +:+ " attachment has no IPv4 address")
      (network_attachment +:+ " attachment has more than one IPv4 address") in
  let? mac :=
    ok_or (normalize_mac entry.(ns_mac)) (network_attachment +:+ " attachment has no valid MAC address") in
  Ok {| at_ipv4_address := ipv4_address; at_mac := mac;
        at_has_ipv6 := existsb (fun a => is_some (parse_ipv6 a)) entry.(ns_ips);
        at_default_via_gateway :=
          existsb (fun a => bool_decide (parse_ipv4 a = Some gateway_ip)) entry.(ns_gateway) |}.

Definition route_intent (network_attachment : string) (attachment : option Attachment)
    : RouteIntentState :=
  let unattested :=
    {| ri_status := RouteUnknown; ri_ipv4_default_network := None; ri_ipv6_default_network := None;
       ri_egress_gateway_priority := None; ri_gateway_priorities := ∅;
       ri_reason_code := "route_intent.kubernetes_unattested";
       ri_safe_message := "Multus does not report the pod's default route; it may come from static IPAM routes" |} in
  match attachment with
  | Some a =>
      if a.(at_default_via_gateway)
      then {| ri_status := Verified; ri_ipv4_default_network := Some network_attachment;
              ri_ipv6_default_network := None; ri_egress_gateway_priority := None;
              ri_gateway_priorities := ∅;
              ri_reason_code := "route_intent.kubernetes_default_route";
              ri_safe_message := "Multus reports the egress gateway as the pod's default route" |}
      else unattested
  | None => unattested
  end.

(** [.filter(|port| *port != 0)] *)
Definition pod_target_port (annotations : gmap string string) : option N :=
  port ← annotations !! TARGET_PORT_LABEL ≫= parse_u16; if (port =? 0)%N then None else Some port.

Definition pod_usage (metadata : PodMetadata) : string * UsageIdentitySource :=
  match explicit_usage metadata.(pm_annotations) with
  | Some usage_id => (usage_id, ExplicitLabel)
  | None => ("pod:" +:+ metadata.(pm_namespace) +:+ "/" +:+ metadata.(pm_name), ContainerLifetime)
  end.

(** Address, attached, first message. *)
Definition pod_attached (scope : DiscoveryScope) (attachment : Result Attachment string)
    : Ipv4Addr * bool * string :=
  match attachment with
  | Ok a =>
      if negb (ipv4net_contains scope.(ds_subnet) a.(at_ipv4_address))
      then (UNSPECIFIED, false, scope.(ds_network_attachment) +:+ " address is outside the egress subnet")
      else if negb (ipv4net_contains scope.(ds_address_range) a.(at_ipv4_address))
      then (UNSPECIFIED, false,
            scope.(ds_network_attachment) +:+ " address is outside kubernetes.address_range")
      else (a.(at_ipv4_address), true,
            "attached to the egress network through Multus; effective default route is not runtime-attested")
  | Err problem => (UNSPECIFIED, false, "annotated for egress but not attached: " +:+ problem)
  end.

Definition client_from_pod (scope : DiscoveryScope) (pod : Pod) (id : string) (running : bool)
    (attachment : Result Attachment string) : ClientState :=
  let metadata := pod.(pod_metadata) in
  let annotations := metadata.(pm_annotations) in
  let port_forward_target := annotation_is_true (annotations !! PORT_FORWARD_LABEL) in
  let target_port := pod_target_port annotations in
  let port_forward_label_valid := negb port_forward_target || is_some target_port in
  let '(usage_id, usage_id_source) := pod_usage metadata in
  let '(ipv4_address, attached, message) := pod_attached scope attachment in
  let message :=
    if attached && negb running then "enrolled pod is not running"
    else if attached && negb port_forward_label_valid
    then "port forwarding requested without a valid egressy.target-port"
    else match attachment with
         | Ok a =>
             if a.(at_has_ipv6) && attached
             then message +:+ "; IPv6 address present and rejected" else message
         | Err _ => message
         end in
  {| cl_container_id := id; cl_usage_id := usage_id; cl_usage_id_source := usage_id_source;
     cl_name := metadata.(pm_name); cl_ipv4_address := ipv4_address;
     cl_port_forward_target := port_forward_target; cl_target_port := target_port;
     cl_compliant := attached && running && port_forward_label_valid;
     cl_compliance_message := message; cl_running := running; cl_ipv6_address := None;
     cl_networks := [scope.(ds_network_attachment)];
     cl_port_forward_label_valid := port_forward_label_valid;
     cl_route_intent := route_intent scope.(ds_network_attachment) (res_ok attachment);
     cl_traffic := client_traffic_default |}.

Definition pod_running (pod : Pod) : bool :=
  String.eqb pod.(pod_phase) "Running" && is_none pod.(pod_metadata).(pm_deletion_timestamp).

Definition pod_attachment (scope : DiscoveryScope) (pod : Pod) : Result Attachment string :=
  let? raw := ok_or (pod.(pod_metadata).(pm_annotations) !! NETWORK_STATUS_ANNOTATION)
                "pod has no network-status annotation" in
  parse_attachment raw scope.(ds_network_attachment) scope.(ds_gateway_ip).

Definition pod_id (pod : Pod) : string := CLIENT_ID_PREFIX +:+ pod.(pod_metadata).(pm_uid).

(** The pod is read at all. *)
Definition pod_in_scope (scope : DiscoveryScope) (pod : Pod) : bool :=
  negb (is_empty pod.(pod_metadata).(pm_uid) || is_empty pod.(pod_metadata).(pm_name))
  && bool_decide (pod.(pod_metadata).(pm_namespace) ∈ scope.(ds_namespaces)).

Definition candidate_from_pod (scope : DiscoveryScope) (pod : Pod) : option IsolationCandidate :=
  let annotations := pod.(pod_metadata).(pm_annotations) in
  match pod_attachment scope pod with
  | Ok a =>
      if pod_running pod && ipv4net_contains scope.(ds_address_range) a.(at_ipv4_address)
      then Some {| cd_container_id := pod_id pod; cd_name := pod.(pod_metadata).(pm_name);
                   cd_ipv4_address := a.(at_ipv4_address);
                   cd_isolation_id := annotations !! ISOLATION_ID_LABEL;
                   cd_allow := annotations !! ISOLATION_ALLOW_LABEL;
                   cd_mac := Some a.(at_mac); cd_source := Kubernetes;
                   cd_accept := annotations !! ISOLATION_ACCEPT_LABEL |}
      else None
  | Err _ => None
  end.

(** One turn of the loop. *)
Definition snapshot_step (scope : DiscoveryScope) (s : KubernetesSnapshot) (pod : Pod)
    : KubernetesSnapshot :=
  if negb (pod_in_scope scope pod) then s
  else
    let candidates :=
      match candidate_from_pod scope pod with
      | Some c => s.(ks_candidates) ++ [c]
      | None => s.(ks_candidates)
      end in
    {| ks_clients :=
         if annotation_is_true (pod.(pod_metadata).(pm_annotations) !! ENABLE_LABEL)
         then <[pod_id pod := client_from_pod scope pod (pod_id pod) (pod_running pod)
                                (pod_attachment scope pod)]> s.(ks_clients)
         else s.(ks_clients);
       ks_candidates := candidates |}.

Definition snapshot_from_pods (scope : DiscoveryScope) (pods : list Pod) : KubernetesSnapshot :=
  let s := foldl (snapshot_step scope) {| ks_clients := ∅; ks_candidates := [] |} pods in
  {| ks_clients := s.(ks_clients); ks_candidates := sort_by candidate_leb s.(ks_candidates) |}.

(** [KubernetesObserver::discover]: every namespace must list, or the refresh
    fails.  The answers of the API server, one per namespace, are given. *)
Definition discover_pods (scope : DiscoveryScope) (listings : list (Result (list Pod) string))
    : Result KubernetesSnapshot string :=
  let? pods := foldM_res (fun pods (listing : Result (list Pod) string) =>
                            let? items := listing in Ok (pods ++ items)) [] listings in
  Ok (snapshot_from_pods scope pods).

(** ** The observer *)

Context {reqwest : Reqwest}.

Record KubernetesObserver : Type := {
  ob_client : HttpClient;
  ob_pods_urls : list ApiUrl;
  ob_token_path : string;
  ob_scope : DiscoveryScope;
}.

Definition namespace_url (base : ApiUrl) (config : KubernetesConfig) (namespace : string)
    : Result ApiUrl string :=
  let? url := join_url base ("/api/v1/namespaces/" +:+ namespace +:+ "/pods") in
  Ok (append_pair url "fieldSelector" ("spec.nodeName=" +:+ config.(kc_node_name))).

Definition pods_urls (base : ApiUrl) (config : KubernetesConfig) : Result (list ApiUrl) string :=
  let? urls := mapM_res (namespace_url base config) config.(kc_namespaces) in
  let? _ := ensure (bool_decide (urls <> [])) "kubernetes.namespaces must list at least one namespace" in
  Ok urls.

(** The address of the API server: the configured one, or that of the cluster. *)
Definition api_base (env_var : string -> option string) (config : KubernetesConfig)
    : Result string string :=
  match config.(kc_api_url) ≫= (fun url => if is_empty url then None else Some url) with
  | Some url => Ok url
  | None =>
      let? host := ok_or (env_var "KUBERNETES_SERVICE_HOST")
        "kubernetes.api_url is unset and KUBERNETES_SERVICE_HOST is missing" in
      let port := default "443" (env_var "KUBERNETES_SERVICE_PORT") in
      Ok (if contains_char host ":" then "https://[" +:+ host +:+ "]:" +:+ port
          else "https://" +:+ host +:+ ":" +:+ port)
  end.

Definition connect (env_var : string -> option string) (read : string -> option (list N))
    (config : KubernetesConfig) (subnet : Ipv4Net) (gateway_ip : Ipv4Addr)
    : Result KubernetesObserver string :=
  let? base := api_base env_var config in
  let? base := ok_or (parse_api_url base) "invalid Kubernetes API URL" in
  let? urls := pods_urls base config in
  let? ca := ok_or (read config.(kc_ca_path)) ("reading Kubernetes CA from " +:+ config.(kc_ca_path)) in
  let? certificate := ok_or (certificate_from_pem ca) "parsing Kubernetes CA" in
  let? client := build_client certificate (from_secs config.(kc_timeout_seconds)) in
  let? address_range := ok_or config.(kc_address_range) "kubernetes.address_range is required" in
  Ok {| ob_client := client; ob_pods_urls := urls; ob_token_path := config.(kc_token_path);
        ob_scope :=
          {| ds_network_attachment := config.(kc_network_attachment);
             ds_namespaces := list_to_set config.(kc_namespaces);
             ds_subnet := subnet; ds_address_range := address_range; ds_gateway_ip := gateway_ip |} |}.

(** What one request yields. *)
Definition listing (response : option Response) : Result (list Pod) string :=
  let? response := ok_or response "listing pods" in
  let? _ := ensure ((200 <=? response.(rs_status)) && (response.(rs_status) <? 300))%N
    ("listing pods returned HTTP " +:+ status_show response.(rs_status)) in
  ok_or response.(rs_json) "decoding the pod list".

(** The loop over the URLs: the requests that were sent, each with its bearer
    token, and the pods, or the first failure. *)
Fixpoint list_pods (client : HttpClient) (token : string) (n : nat) (urls : list ApiUrl) (pods : list Pod)
    : list (ApiUrl * string) * Result (list Pod) string :=
  match urls with
  | [] => ([], Ok pods)
  | url :: urls =>
      match listing (send client n url token) with
      | Ok items =>
          let '(sent, result) := list_pods client token (S n) urls (pods ++ items) in
          ((url, token) :: sent, result)
      | Err e => ([(url, token)], Err e)
      end
  end.

Definition discover (read_to_string : string -> option string) (observer : KubernetesObserver)
    : list (ApiUrl * string) * Result KubernetesSnapshot string :=
  match read_to_string observer.(ob_token_path) with
  | None => ([], Err "reading the Kubernetes service-account token")
  | Some token =>
      let '(sent, pods) := list_pods observer.(ob_client) (trim token) 0 observer.(ob_pods_urls) [] in
      (sent, let? pods := pods in Ok (snapshot_from_pods observer.(ob_scope) pods))
  end.

(** ** What is read of an attachment *)

Lemma only_Ok {A} (l : list A) none many x : only l none many = Ok x <-> l = [x].
Proof.
  destruct l as [|y [|z l]]; simpl; [done| |done].
  split; [intros Hx%(inj Ok); by subst | by intros [= ->]].
Qed.

Lemma omap_unique {A B} (f : A -> option B) l y z a :
  omap f l = [y] -> a ∈ l -> f a = Some z -> z = y.
Proof.
  intros Ho Ha Hf. assert (z ∈ omap f l) as Hz by (apply list_elem_of_omap; eauto).
  rewrite Ho in Hz. by apply list_elem_of_singleton in Hz.
Qed.

(** The one entry of the attachment, its one IPv4 address, its hardware address. *)
Lemma parse_attachment_Ok raw name gateway a :
  parse_attachment raw name gateway = Ok a ->
  exists entries entry address, parse_network_status raw = Some entries /\ entry ∈ entries
    /\ ns_name entry = name
    /\ (forall e, e ∈ entries -> ns_name e = name -> e = entry)
    /\ address ∈ ns_ips entry /\ parse_ipv4 address = Some (at_ipv4_address a)
    /\ (forall ip v, ip ∈ ns_ips entry -> parse_ipv4 ip = Some v -> v = at_ipv4_address a)
    /\ normalize_mac (ns_mac entry) = Some (at_mac a).
Proof.
  unfold parse_attachment. intros Hp.
  apply res_bind_Ok in Hp as (entries & Hj%ok_or_Ok & Hp).
  apply res_bind_Ok in Hp as (entry & He%only_Ok & Hp).
  apply res_bind_Ok in Hp as (v & Hv%only_Ok & Hp).
  apply res_bind_Ok in Hp as (mac & Hm%ok_or_Ok & Hp%(inj Ok)). subst a. cbn.
  assert (entry ∈ entries /\ String.eqb (ns_name entry) name = true) as [Hin Hn]
    by (rewrite <- (elem_of_bfilter (fun e => String.eqb (ns_name e) name)), He; left).
  assert (v ∈ omap parse_ipv4 (ns_ips entry)) as (address & Haddr & Hpv)%list_elem_of_omap
    by (rewrite Hv; left).
  exists entries, entry, address. split_and!; try done.
  - by apply String.eqb_eq.
  - intros e Hie Hne. assert (e ∈ [entry]) as ->%list_elem_of_singleton; [|done].
    rewrite <- He. apply elem_of_bfilter. split; [done|]. by apply String.eqb_eq.
  - intros ip w Hip Hw. by eapply omap_unique.
Qed.

(** ** What a snapshot holds *)

Lemma listed_all (acc pods : list Pod) (listings : list (Result (list Pod) string)) :
  foldM_res (fun pods (listing : Result (list Pod) string) =>
               let? items := listing in Ok (pods ++ items)) acc listings = Ok pods ->
  exists lists, mapM_res id listings = Ok lists /\ pods = acc ++ concat lists.
Proof.
  revert acc; induction listings as [|l listings IH]; intros acc; simpl.
  - intros Hp%(inj Ok). subst. exists []. by rewrite app_nil_r.
  - destruct l as [items|e]; simpl; [|done]. intros (lists & Hm & ->)%IH.
    exists (items :: lists). rewrite Hm. simpl. by rewrite app_assoc.
Qed.

Lemma snapshot_clients scope pods s id cl :
  ks_clients (foldl (snapshot_step scope) s pods) !! id = Some cl ->
  ks_clients s !! id = Some cl
  \/ exists pod, pod ∈ pods /\ pod_in_scope scope pod = true
       /\ annotation_is_true (pm_annotations (pod_metadata pod) !! ENABLE_LABEL) = true
       /\ id = pod_id pod
       /\ cl = client_from_pod scope pod id (pod_running pod) (pod_attachment scope pod).
Proof.
  revert s; induction pods as [|pod pods IH]; intros s; simpl; [auto|].
  intros [Hs|(p & Hin & Hp)]%IH; [|right; exists p; split; [by right|done]].
  unfold snapshot_step in Hs. case_match eqn:Hsc; [by left|]. apply negb_false_iff in Hsc.
  cbn [ks_clients] in Hs. case_match eqn:Hen; [|by left].
  apply lookup_insert_Some in Hs as [[<- <-]|[_ ?]]; [|by left].
  right. exists pod. split; [left|done].
Qed.

Lemma snapshot_candidates scope pods s c :
  c ∈ ks_candidates (foldl (snapshot_step scope) s pods) ->
  c ∈ ks_candidates s
  \/ exists pod, pod ∈ pods /\ pod_in_scope scope pod = true /\ candidate_from_pod scope pod = Some c.
Proof.
  revert s; induction pods as [|pod pods IH]; intros s; simpl; [auto|].
  intros [Hs|(p & Hin & Hp)]%IH; [|right; exists p; split; [by right|done]].
  unfold snapshot_step in Hs. case_match eqn:Hsc; [by left|]. apply negb_false_iff in Hsc.
  cbn [ks_candidates] in Hs. destruct (candidate_from_pod scope pod) as [c'|] eqn:Hc; [|by left].
  apply elem_of_app in Hs as [?| ->%list_elem_of_singleton]; [by left|].
  right. exists pod. split; [left|done].
Qed.

(** A pod that may use the bridge: of a trusted namespace, running and not
    being deleted, attached once, with one IPv4 address, in the range. *)
Record admissible (scope : DiscoveryScope) (pod : Pod) (address : Ipv4Addr) : Prop := {
  ad_namespace : pm_namespace (pod_metadata pod) ∈ ds_namespaces scope;
  ad_named : pm_uid (pod_metadata pod) <> "" /\ pm_name (pod_metadata pod) <> "";
  ad_running : pod_phase pod = "Running" /\ pm_deletion_timestamp (pod_metadata pod) = None;
  ad_attached : exists raw entries entry ip,
    pm_annotations (pod_metadata pod) !! NETWORK_STATUS_ANNOTATION = Some raw
    /\ parse_network_status raw = Some entries /\ entry ∈ entries
    /\ ns_name entry = ds_network_attachment scope
    /\ (forall e, e ∈ entries -> ns_name e = ds_network_attachment scope -> e = entry)
    /\ ip ∈ ns_ips entry /\ parse_ipv4 ip = Some address
    /\ (forall ip' v, ip' ∈ ns_ips entry -> parse_ipv4 ip' = Some v -> v = address);
  ad_range : ipv4net_contains (ds_address_range scope) address = true;
}.

Lemma pod_in_scope_true scope pod :
  pod_in_scope scope pod = true ->
  pm_namespace (pod_metadata pod) ∈ ds_namespaces scope
  /\ pm_uid (pod_metadata pod) <> "" /\ pm_name (pod_metadata pod) <> "".
Proof.
  unfold pod_in_scope, is_empty. intros [Hn Hb]%andb_true_iff.
  apply negb_true_iff, orb_false_iff in Hn as [H1 H2]. apply bool_decide_eq_true in Hb.
  by apply String.eqb_neq in H1, H2.
Qed.

Lemma pod_running_true pod :
  pod_running pod = true ->
  pod_phase pod = "Running" /\ pm_deletion_timestamp (pod_metadata pod) = None.
Proof.
  unfold pod_running. intros [Hp Hd]%andb_true_iff. apply String.eqb_eq in Hp.
  by destruct (pm_deletion_timestamp _).
Qed.

Lemma pod_admissible scope pod a :
  pod_in_scope scope pod = true -> pod_running pod = true -> pod_attachment scope pod = Ok a ->
  ipv4net_contains (ds_address_range scope) (at_ipv4_address a) = true ->
  admissible scope pod (at_ipv4_address a).
Proof.
  intros (Hns & Hnamed)%pod_in_scope_true Hrun%pod_running_true Ha Hr.
  split; try done. unfold pod_attachment in Ha.
  apply res_bind_Ok in Ha as (raw & Hraw%ok_or_Ok & Ha).
  destruct (parse_attachment_Ok _ _ _ _ Ha) as (entries & entry & ip & ? & ? & ? & ? & ? & ? & ? & _).
  by exists raw, entries, entry, ip.
Qed.

Lemma client_from_pod_compliant scope pod id attachment :
  cl_compliant (client_from_pod scope pod id (pod_running pod) attachment) = true ->
  pod_running pod = true /\ exists a, attachment = Ok a
    /\ cl_ipv4_address (client_from_pod scope pod id (pod_running pod) attachment) = at_ipv4_address a
    /\ ipv4net_contains (ds_subnet scope) (at_ipv4_address a) = true
    /\ ipv4net_contains (ds_address_range scope) (at_ipv4_address a) = true
    /\ (annotation_is_true (pm_annotations (pod_metadata pod) !! PORT_FORWARD_LABEL) = true ->
        exists port, pod_target_port (pm_annotations (pod_metadata pod)) = Some port /\ port <> 0%N).
Proof.
  unfold client_from_pod. destruct (pod_usage _) as [u src].
  destruct (pod_attached scope attachment) as [[address attached] m] eqn:Hat.
  cbn [cl_compliant cl_ipv4_address]. intros [[Hatt Hrun]%andb_true_iff Hport]%andb_true_iff.
  subst attached. split; [done|]. unfold pod_attached in Hat.
  destruct attachment as [a|]; [|done]. exists a.
  destruct (ipv4net_contains (ds_subnet scope) _) eqn:Hs; [|done].
  destruct (ipv4net_contains (ds_address_range scope) _) eqn:Hr; [|done].
  injection Hat as <- _. split_and!; try done.
  intros Ht. rewrite Ht in Hport. simpl in Hport.
  destruct (pod_target_port _) as [port|] eqn:Hp; [|done]. exists port. split; [done|].
  unfold pod_target_port in Hp. apply bind_Some in Hp as (p & _ & Hp).
  destruct (N.eqb_spec p 0); [done|congruence].
Qed.

(** only pods of the trusted namespaces are read.  A pod is offered to the
    isolation policy, or taken for a compliant client under its own prefixed
    identifier, only when it is running, not being deleted, and attached to the
    bridge exactly once with exactly one IPv4 address, which lies in the range
    set aside for pods; one that fails to list fails the whole refresh. *)
Theorem snapshot_sound scope listings snapshot :
  discover_pods scope listings = Ok snapshot ->
  exists pods, mapM_res id listings = Ok pods
  /\ (forall c, c ∈ ks_candidates snapshot -> exists pod, pod ∈ concat pods
        /\ cd_container_id c = pod_id pod /\ cd_source c = Kubernetes
        /\ admissible scope pod (cd_ipv4_address c))
  /\ (forall id cl, ks_clients snapshot !! id = Some cl -> exists pod, pod ∈ concat pods
        /\ id = pod_id pod /\ pm_namespace (pod_metadata pod) ∈ ds_namespaces scope
        /\ (cl_compliant cl = true -> admissible scope pod (cl_ipv4_address cl)
              /\ ipv4net_contains (ds_subnet scope) (cl_ipv4_address cl) = true)).
Proof.
  unfold discover_pods. intros Hd. apply res_bind_Ok in Hd as (pods & Hl & Hs%(inj Ok)). subst snapshot.
  destruct (listed_all _ _ _ Hl) as (lists & Hm & ->). exists lists. split; [done|].
  unfold snapshot_from_pods. cbn [ks_clients ks_candidates app]. split.
  - intros c Hc. rewrite elem_of_sort_by in Hc.
    apply snapshot_candidates in Hc as [Hn|(pod & Hin & Hsc & Hc)]; [by apply not_elem_of_nil in Hn|].
    exists pod. unfold candidate_from_pod in Hc.
    destruct (pod_attachment scope pod) as [a|] eqn:Ha; [|done].
    case_match eqn:Hok; [|done]. simplify_eq. apply andb_true_iff in Hok as [Hrun Hr].
    split_and!; [done|done|done|]. by apply pod_admissible.
  - intros id cl Hcl.
    apply snapshot_clients in Hcl as [Hn|(pod & Hin & Hsc & Hen & -> & ->)];
      [discriminate Hn|].
    exists pod. destruct (pod_in_scope_true _ _ Hsc) as [Hns _]. split_and!; [done|done|done|].
    intros (Hrun & a & Ha & -> & Hsub & Hr & _)%client_from_pod_compliant.
    split; [by apply pod_admissible|done].
Qed.

(** ** The observer's requests *)

(** What the API server would list for each of the URLs, asked in turn. *)
Definition listings_of (client : HttpClient) (token : string) (n : nat) (urls : list ApiUrl)
    : list (Result (list Pod) string) :=
  imap (fun i url => listing (send client (n + i) url token)) urls.

Lemma list_pods_spec client token urls : forall n pods sent r,
  list_pods client token n urls pods = (sent, r) ->
  sent `prefix_of` ((fun url => (url, token)) <$> urls)
  /\ r = foldM_res (fun pods (listing : Result (list Pod) string) =>
                      let? items := listing in Ok (pods ++ items)) pods (listings_of client token n urls)
  /\ (forall listed, r = Ok listed -> sent = (fun url => (url, token)) <$> urls).
Proof.
  unfold listings_of. induction urls as [|url urls IH]; intros n pods sent r; cbn [list_pods].
  - intros [= <- <-]. split_and!; [by apply prefix_nil|done|done].
  - rewrite imap_cons, Nat.add_0_r. cbn [foldM_res fmap list_fmap].
    destruct (listing (send client n url token)) as [items|e]; cbn [res_bind].
    + destruct (list_pods client token (S n) urls (pods ++ items)) as [sent' r'] eqn:Hl.
      intros [= <- <-]. destruct (IH _ _ _ _ Hl) as (Hp & Hr & Hall). split_and!.
      * by apply prefix_cons.
      * rewrite Hr. f_equal. apply imap_ext. intros i u _. cbn. by rewrite Nat.add_succ_r.
      * intros listed ->. by rewrite (Hall listed eq_refl).
    + intros [= <- <-]. split_and!; [|done|done]. apply prefix_cons, prefix_nil.
Qed.

(** A refresh is [discover_pods] on what the server lists for the URLs. *)
Lemma discover_refines read_to_string observer token :
  read_to_string observer.(ob_token_path) = Some token ->
  let urls := observer.(ob_pods_urls) in
  let '(sent, outcome) := discover read_to_string observer in
  sent `prefix_of` ((fun url => (url, trim token)) <$> urls)
  /\ outcome = discover_pods observer.(ob_scope) (listings_of observer.(ob_client) (trim token) 0 urls)
  /\ (forall snapshot, outcome = Ok snapshot -> sent = (fun url => (url, trim token)) <$> urls).
Proof.
  intros Ht. unfold discover. rewrite Ht.
  destruct (list_pods _ _ _ _ _) as [sent r] eqn:Hl.
  destruct (list_pods_spec _ _ _ _ _ _ _ Hl) as (Hp & -> & Hall). split_and!; [done|done|].
  intros snapshot (pods & Hpods & _)%res_bind_Ok. by eapply Hall.
Qed.

Lemma connect_Ok env_var read config subnet gateway observer :
  connect env_var read config subnet gateway = Ok observer ->
  kc_namespaces config <> []
  /\ (exists shown base, api_base env_var config = Ok shown /\ parse_api_url shown = Some base
      /\ mapM_res (namespace_url base config) config.(kc_namespaces) = Ok observer.(ob_pods_urls))
  /\ observer.(ob_token_path) = config.(kc_token_path)
  /\ ds_namespaces observer.(ob_scope) = list_to_set config.(kc_namespaces)
  /\ ds_subnet observer.(ob_scope) = subnet
  /\ config.(kc_address_range) = Some (ds_address_range observer.(ob_scope))
  /\ ds_gateway_ip observer.(ob_scope) = gateway.
Proof.
  unfold connect. intros Hx.
  apply res_bind_Ok in Hx as (shown & Hb & Hx). apply res_bind_Ok in Hx as (base & Hp%ok_or_Ok & Hx).
  apply res_bind_Ok in Hx as (urls & Hu & Hx). apply res_bind_Ok in Hx as (ca & _ & Hx).
  apply res_bind_Ok in Hx as (cert & _ & Hx). apply res_bind_Ok in Hx as (client & _ & Hx).
  apply res_bind_Ok in Hx as (range & Hr%ok_or_Ok & Hx%(inj Ok)). subst observer. cbn.
  unfold pods_urls in Hu. apply res_bind_Ok in Hu as (urls' & Hm & Hu).
  apply res_bind_Ok in Hu as (u & Hne%ensure_Ok & Hu%(inj Ok)). subst urls'.
  apply bool_decide_eq_true in Hne. split_and!; [|by exists shown, base|done|done|done|done|done].
  intros He. rewrite He in Hm. cbn in Hm. apply (inj Ok) in Hm. by subst urls.
Qed.

Lemma listing_Ok response items :
  listing response = Ok items -> exists r, response = Some r
    /\ (200 <= r.(rs_status) < 300)%N /\ r.(rs_json) = Some items.
Proof.
  unfold listing. intros (r & Hr%ok_or_Ok & Hx)%res_bind_Ok.
  apply res_bind_Ok in Hx as (u & Hs%ensure_Ok & Hj%ok_or_Ok). exists r.
  apply andb_true_iff in Hs as [?%N.leb_le ?%N.ltb_lt]. by split_and!.
Qed.

(** The answer to each request of a refresh that listed everything. *)
Lemma listing_sent client token urls pods n url bearer :
  Forall2 (fun l items => id l = Ok items) (listings_of client token 0 urls) pods ->
  ((fun url => (url, token)) <$> urls) !! n = Some (url, bearer) ->
  exists response items, send client n url bearer = Some response
    /\ (200 <= response.(rs_status) < 300)%N /\ response.(rs_json) = Some items /\ pods !! n = Some items.
Proof.
  intros Hf (u & [= -> ->] & Hu)%list_lookup_fmap_Some.
  assert (listings_of client token 0 urls !! n = Some (listing (send client n u token))) as Hl
    by (unfold listings_of; by rewrite list_lookup_imap, Hu).
  destruct (Forall2_lookup_l _ _ _ _ _ Hf Hl) as (items & Hp & (r & Hs & Hc & Hj)%listing_Ok).
  by exists r, items.
Qed.

Lemma discover_pods_Ok scope listings pods snapshot :
  discover_pods scope listings = Ok snapshot -> mapM_res id listings = Ok pods ->
  snapshot = snapshot_from_pods scope (concat pods).
Proof.
  unfold discover_pods. intros (all & Hl & Hs%(inj Ok))%res_bind_Ok Hm.
  destruct (listed_all _ _ _ Hl) as (lists & Hm' & ->). rewrite Hm in Hm'. apply (inj Ok) in Hm'. by subst.
Qed.

(** a refresh asks only for the pods of one trusted namespace at a time, on the
    configured node, with the token as it is now, in the order of the
    configuration, and stops at the first request that fails.  A snapshot is
    taken only when every namespace was listed with a success; it is the one of
    the pods of all answers, and offers to the isolation policy, or takes for
    compliant, only running pods of those namespaces with one address of the
    configured range. *)
Theorem discovery_stays_in_scope env_var read config subnet gateway observer read_to_string requests outcome :
  connect env_var read config subnet gateway = Ok observer ->
  discover read_to_string observer = (requests, outcome) ->
  (exists shown base, api_base env_var config = Ok shown /\ parse_api_url shown = Some base
   /\ forall url bearer, (url, bearer) ∈ requests -> exists joined namespace token,
     namespace ∈ kc_namespaces config
     /\ join_url base ("/api/v1/namespaces/" +:+ namespace +:+ "/pods") = Ok joined
     /\ url = append_pair joined "fieldSelector" ("spec.nodeName=" +:+ kc_node_name config)
     /\ read_to_string config.(kc_token_path) = Some token /\ bearer = trim token)
  /\ (forall snapshot, outcome = Ok snapshot -> exists pods,
     length requests = length (kc_namespaces config) /\ requests <> []
     /\ (forall n url bearer, requests !! n = Some (url, bearer) -> exists response items,
           send observer.(ob_client) n url bearer = Some response
           /\ (200 <= response.(rs_status) < 300)%N /\ response.(rs_json) = Some items /\ pods !! n = Some items)
     /\ snapshot = snapshot_from_pods observer.(ob_scope) (concat pods)
     /\ (forall c, c ∈ ks_candidates snapshot -> exists pod, pod ∈ concat pods
           /\ pm_namespace (pod_metadata pod) ∈ kc_namespaces config
           /\ admissible observer.(ob_scope) pod (cd_ipv4_address c))
     /\ (forall id cl, ks_clients snapshot !! id = Some cl -> exists pod, pod ∈ concat pods
           /\ id = pod_id pod /\ pm_namespace (pod_metadata pod) ∈ kc_namespaces config
           /\ (cl_compliant cl = true -> admissible observer.(ob_scope) pod (cl_ipv4_address cl)
                 /\ ipv4net_contains subnet (cl_ipv4_address cl) = true))).
Proof.
  intros Hc Hd.
  destruct (connect_Ok _ _ _ _ _ _ Hc) as (Hne & (shown & base & Hb & Hp & Hurls%mapM_res_Ok) & Htp & Hns & <- & _ & _).
  destruct (read_to_string (kc_token_path config)) as [token|] eqn:Ht; cycle 1.
  { unfold discover in Hd. rewrite Htp, Ht in Hd. injection Hd as <- <-. split; [|done].
    exists shown, base. split_and!; [done|done|]. intros ? ? []%not_elem_of_nil. }
  rewrite <- Htp in Ht. pose proof (discover_refines read_to_string observer token Ht) as Hr.
  rewrite Hd in Hr. cbn zeta in Hr. destruct Hr as (Hprefix & -> & Hall). split.
  - exists shown, base. split_and!; [done|done|]. intros url bearer Hin. apply (elem_of_prefix _ _ _ Hin) in Hprefix.
    apply list_elem_of_fmap in Hprefix as (u & [= -> ->] & Hu).
    apply list_elem_of_lookup in Hu as [i Hu].
    destruct (Forall2_lookup_r _ _ _ _ _ Hurls Hu) as (ns & Hi & Hj).
    unfold namespace_url in Hj. apply res_bind_Ok in Hj as (joined & Hj & Hu'%(inj Ok)).
    exists joined, ns, token. split_and!; try done. by eapply list_elem_of_lookup_2.
  - intros snapshot Hs. rewrite (Hall _ Hs).
    destruct (snapshot_sound _ _ _ Hs) as (pods & Hm & Hcand & Hclients). exists pods.
    pose proof (discover_pods_Ok _ _ _ _ Hs Hm) as Hsnapshot.
    apply mapM_res_Ok in Hm. rewrite length_fmap.
    rewrite <- (Forall2_length Hurls). split_and!; [done| | | | |].
    + intros Hnil%fmap_nil_inv. rewrite Hnil in Hurls. by inversion Hurls.
    + intros n url bearer Hn. eapply listing_sent; eauto.
    + done.
    + intros c (pod & Hin & _ & _ & Ha)%Hcand. exists pod. split_and!; [done| |done].
      pose proof (ad_namespace _ _ _ Ha) as Hin'. rewrite Hns in Hin'. set_solver.
    + intros id cl (pod & Hin & Hid & Hin' & Ha)%Hclients. exists pod. rewrite Hns in Hin'. set_solver.
Qed.
End Discovery.

(** ** A concrete pod *)

Definition example_status : StatusJson := fun raw =>
  Some [{| ns_name := raw; ns_ips := ["10.9.0.200"]; ns_mac := "02:00:00:00:00:01"; ns_gateway := [] |}].

Definition example_pod : Pod :=
  {| pod_metadata := {| pm_name := "web"; pm_namespace := "media"; pm_uid := "u1";
       pm_annotations := {["egressy.enabled" := "yes"; NETWORK_STATUS_ANNOTATION := "media/egress"]};
       pm_deletion_timestamp := None |};
     pod_phase := "Running" |}.

Definition pod_subnet : @Ipv4Net CidrNet.crate := CidrNet.Build_Cidr 168361984 24.
Definition example_scope : @DiscoveryScope CidrNet.crate :=
  @Build_DiscoveryScope CidrNet.crate "media/egress" {["media"]} pod_subnet pod_subnet 168361985.

Definition example_listings : list (Result (list Pod) string) := [Ok [example_pod]; Ok []].

Lemma snapshot_sound_witness : exists snapshot pods,
  @discover_pods CidrNet.crate example_status example_scope example_listings = Ok snapshot
  /\ mapM_res id example_listings = Ok pods
  /\ size (ks_clients snapshot) = 1%nat.
Proof.
  destruct (@snapshot_sound CidrNet.crate example_status example_scope example_listings _
    eq_refl) as (pods & Hm & _).
  eexists. exists pods. split; [reflexivity|]. split; [exact Hm|]. vm_compute. reflexivity.
Defined.

(** A server that lists the example pod first and then nothing. *)
Definition example_reqwest : Reqwest :=
  {| ApiUrl := string; parse_api_url := Some;
     join_url := fun base path => Ok (base +:+ path);
     append_pair := fun url key value => url +:+ "?" +:+ key +:+ "=" +:+ value;
     Certificate := unit; certificate_from_pem := fun _ => Some tt;
     HttpClient := unit; build_client := fun _ _ => Ok tt; status_show := fun _ => "";
     send := fun _ n _ _ =>
       Some {| rs_status := 200; rs_json := Some (if (n =? 0)%nat then [example_pod] else []) |} |}.

Definition example_kubernetes : @KubernetesConfig CidrNet.crate :=
  {| kc_enabled := true; kc_node_name := "node"; kc_network_attachment := "media/egress";
     kc_namespaces := ["media"; "ops"]; kc_address_range := Some pod_subnet; kc_api_url := None;
     kc_token_path := "/token"; kc_ca_path := "/ca"; kc_timeout_seconds := 5; kc_max_stale_seconds := 60 |}.

Definition example_variable (name : string) : option string :=
  if String.eqb name "KUBERNETES_SERVICE_HOST" then Some "fd00::1" else None.

Definition example_connect : Result (@KubernetesObserver CidrNet.crate example_reqwest) string :=
  @connect CidrNet.crate example_reqwest example_variable (fun _ => Some []) example_kubernetes
    pod_subnet 168361985.

Lemma discovery_stays_in_scope_witness : exists observer requests snapshot pods,
  example_connect = Ok observer
  /\ @discover CidrNet.crate example_status example_reqwest (fun _ => Some "secret ") observer
     = (requests, Ok snapshot)
  /\ requests = [("https://[fd00::1]:443/api/v1/namespaces/media/pods?fieldSelector=spec.nodeName=node", "secret");
                 ("https://[fd00::1]:443/api/v1/namespaces/ops/pods?fieldSelector=spec.nodeName=node", "secret")]
  /\ length requests = 2%nat /\ snapshot = @snapshot_from_pods CidrNet.crate example_status
       (@ob_scope _ example_reqwest observer) (concat pods).
Proof.
  eexists _, _, _.
  destruct (proj2 (@discovery_stays_in_scope CidrNet.crate example_status example_reqwest
    example_variable (fun _ => Some []) example_kubernetes pod_subnet 168361985 _
    (fun _ => Some "secret ") _ _ ltac:(reflexivity) ltac:(reflexivity)) _ ltac:(reflexivity))
    as (pods & Hlen & _ & _ & Hs & _).
  exists pods. split_and!; [reflexivity|reflexivity|vm_compute; reflexivity|exact Hlen|exact Hs].
Defined.
