(* ===== verification/NatPmp.v ===== *)
(** The NAT-PMP client (src/src/natpmp.rs): the wire format, the retried
    request and the mapping that both transports must agree on.

    Times are milliseconds, a datagram is a list of bytes, and the network is a
    function from the number of the attempt to what happens to it. *)

From S2P Require Import Prelude RustStr Net.

Definition NAT_PMP_PORT : N := 5351.

Inductive Error : Type :=
| ErrTimeout
| ErrIo (message : string)
| ErrInvalid (message : string)
| ErrGateway (result : N).

Inductive Protocol : Type := Udp | Tcp.
Definition opcode (p : Protocol) : N := match p with Udp => 1 | Tcp => 2 end.

Record Mapping : Type := {
  mp_internal_port : N;
  mp_external_port : N;
  mp_lifetime_seconds : N;
}.

Record Client : Type := {
  cl_gateway : Ipv4Addr;
  cl_initial_timeout : N;
  cl_interface : option string;
}.

Definition new (gateway : Ipv4Addr) : Client :=
  {| cl_gateway := gateway; cl_initial_timeout := 250; cl_interface := None |}.

Definition bound_to (c : Client) (interface : string) : Client :=
  {| cl_gateway := c.(cl_gateway); cl_initial_timeout := c.(cl_initial_timeout);
     cl_interface := Some interface |}.

(** ** The wire format *)

Definition u16_be (n : N) : list N := [n / 256; n mod 256]%N.
Definition u32_be (n : N) : list N :=
  [n / 16777216; n / 65536 mod 256; n / 256 mod 256; n mod 256]%N.
Definition u16_from_be (a b : N) : N := a * 256 + b.
Definition u32_from_be (a b c d : N) : N := ((a * 256 + b) * 256 + c) * 256 + d.

Definition encode_mapping_request (protocol : Protocol)
    (internal_port requested_external_port lifetime_seconds : N) : list N :=
  [0; opcode protocol; 0; 0]%N
  ++ u16_be internal_port ++ u16_be requested_external_port ++ u32_be lifetime_seconds.

Definition byte_at (l : list N) (i : nat) : N := default 0%N (l !! i).

Definition decode_mapping_response (response : list N) : Result Mapping Error :=
  if (length response =? 16)%nat then
    Ok {| mp_internal_port := u16_from_be (byte_at response 8) (byte_at response 9);
          mp_external_port := u16_from_be (byte_at response 10) (byte_at response 11);
          mp_lifetime_seconds :=
            u32_from_be (byte_at response 12) (byte_at response 13)
                        (byte_at response 14) (byte_at response 15) |}
  else Err (ErrInvalid ("mapping response must be 16 bytes, received "
                        +:+ show_nat (length response))).

(** ** The request *)

(** One turn of the loop: the send fails, the timeout elapses, the receive
    fails, or a datagram arrives. *)
Inductive Attempt : Type :=
| SendFails (error : string)
| Elapsed
| RecvFails (error : string)
| Received (datagram : list N).

Definition Network : Type := nat -> Attempt.

(** The loop, from the attempt [n] with the timeout [wait]: what was received,
    with the number of requests sent and the time waited at most.  [None] when
    the fuel runs out. *)
Fixpoint rpc_loop (fuel : nat) (net : Network) (n : nat) (wait waited : N)
    : option (Result (list N) Error * nat * N) :=
  match fuel with
  | O => None
  | S fuel =>
      match net n with
      | SendFails e => Some (Err (ErrIo e), n, waited)
      | RecvFails e => Some (Err (ErrIo e), S n, waited + wait)%N
      (* the buffer holds 16 bytes: a longer datagram is cut *)
      | Received datagram => Some (Ok (firstn 16 datagram), S n, waited + wait)%N
      | Elapsed =>
          if (wait <? 2000)%N then rpc_loop fuel net (S n) (wait * 2)%N (waited + wait)%N
          else Some (Err ErrTimeout, S n, waited + wait)%N
      end
  end.

Definition check_response (request response : list N) (expected_size : nat)
    : Result (list N) Error :=
  if negb (length response =? expected_size)%nat
  then Err (ErrInvalid ("expected " +:+ show_nat expected_size +:+ " bytes, received "
                        +:+ show_nat (length response)))
  else if negb (byte_at response 0 =? 0)%N
          || negb (byte_at response 1 =? N.lor (byte_at request 1) 128)%N
  then Err (ErrInvalid "version or opcode mismatch")
  else
    let result := u16_from_be (byte_at response 2) (byte_at response 3) in
    if negb (result =? 0)%N then Err (ErrGateway result) else Ok response.

(** The fuel of a doubled timeout that starts at a quarter of a second: four
    attempts (proved below). *)
Definition RPC_FUEL : nat := 4.

Definition rpc (c : Client) (net : Network) (request : list N) (expected_size : nat)
    : option (Result (list N) Error) :=
  match rpc_loop RPC_FUEL net 0 c.(cl_initial_timeout) 0 with
  | None => None
  | Some (Err e, _, _) => Some (Err e)
  | Some (Ok response, _, _) => Some (check_response request response expected_size)
  end.

Definition external_address (c : Client) (net : Network) : option (Result Ipv4Addr Error) :=
  r ← rpc c net [0; 0]%N 12;
  Some (let? response := r in
        Ok (u32_from_be (byte_at response 8) (byte_at response 9)
                        (byte_at response 10) (byte_at response 11))).

Definition map (c : Client) (net : Network) (protocol : Protocol)
    (internal_port requested_external_port lifetime_seconds : N) : option (Result Mapping Error) :=
  r ← rpc c net
        (encode_mapping_request protocol internal_port requested_external_port lifetime_seconds) 16;
  Some (let? response := r in decode_mapping_response response).

(** Each request has a socket of its own, so each has its own network. *)
Definition request_symmetric_mapping (c : Client) (udp_net : Network) (tcp_net : N -> Network)
    (internal_port requested_external_port lifetime_seconds : N) : option (Result Mapping Error) :=
  u ← map c udp_net Udp internal_port requested_external_port lifetime_seconds;
  match u with
  | Err e => Some (Err e)
  | Ok udp =>
      t ← map c (tcp_net udp.(mp_external_port)) Tcp internal_port udp.(mp_external_port)
            lifetime_seconds;
      Some (
        let? tcp := t in
        if negb (udp.(mp_internal_port) =? tcp.(mp_internal_port))%N
           || negb (udp.(mp_external_port) =? tcp.(mp_external_port))%N
        then Err (ErrInvalid ("TCP and UDP mappings differ: UDP "
               +:+ show_N udp.(mp_internal_port) +:+ "->" +:+ show_N udp.(mp_external_port)
               +:+ ", TCP " +:+ show_N tcp.(mp_internal_port) +:+ "->"
               +:+ show_N tcp.(mp_external_port)))
        else Ok {| mp_internal_port := udp.(mp_internal_port);
                   mp_external_port := udp.(mp_external_port);
                   mp_lifetime_seconds :=
                     N.min udp.(mp_lifetime_seconds) tcp.(mp_lifetime_seconds) |})
  end.

(** ** Properties *)

(** What the four attempts of a request come to. *)
Definition outcome_ok (net : Network) (r : Result (list N) Error) (sent : nat) (waited : N) : Prop :=
  (sent <= 4)%nat /\ (waited <= 3750)%N /\
  match r with
  | Ok response =>
      exists i datagram, (i < 4)%nat /\ net i = Received datagram /\
        (forall j, (j < i)%nat -> net j = Elapsed) /\ response = firstn 16 datagram
  | Err ErrTimeout => forall j, (j < 4)%nat -> net j = Elapsed
  | Err (ErrIo _) => exists i e, (i < 4)%nat /\ (net i = SendFails e \/ net i = RecvFails e)
  | Err _ => False
  end.

Ltac close_attempt k :=
  eexists _, _, _; split; [reflexivity|]; split; [lia|]; split; [lia|];
  match goal with
  | H : _ = Received ?d |- _ => exists k, d; split; [lia|]; split; [exact H|]; done
  | H : _ = SendFails ?e |- _ => exists k, e; split; [lia|]; by left
  | H : _ = RecvFails ?e |- _ => exists k, e; split; [lia|]; by right
  end.

Lemma rpc_loop_outcome net :
  exists r sent waited, rpc_loop RPC_FUEL net 0 250 0 = Some (r, sent, waited) /\
    outcome_ok net r sent waited.
Proof.
  assert (forall n, (forall j, (j < n)%nat -> net j = Elapsed) -> net n = Elapsed ->
    forall j, (j < S n)%nat -> net j = Elapsed) as Hnext.
  { intros n Hn He j Hj. destruct (decide (j = n)) as [->|]; [done|]. apply Hn. lia. }
  assert (forall j, (j < 0)%nat -> net j = Elapsed) as H0 by lia.
  unfold RPC_FUEL, outcome_ok. cbn [rpc_loop].
  destruct (net 0%nat) as [e| |e|d] eqn:E0; cbn -[firstn]; [close_attempt 0%nat| |close_attempt 0%nat..].
  pose proof (Hnext 0%nat H0 E0) as H1.
  destruct (net 1%nat) as [e| |e|d] eqn:E1; cbn -[firstn]; [close_attempt 1%nat| |close_attempt 1%nat..].
  pose proof (Hnext 1%nat H1 E1) as H2.
  destruct (net 2%nat) as [e| |e|d] eqn:E2; cbn -[firstn]; [close_attempt 2%nat| |close_attempt 2%nat..].
  pose proof (Hnext 2%nat H2 E2) as H3.
  destruct (net 3%nat) as [e| |e|d] eqn:E3; cbn -[firstn]; [close_attempt 3%nat| |close_attempt 3%nat..].
  pose proof (Hnext 3%nat H3 E3) as H4.
  eexists _, _, _. split; [done|]. split; [lia|]. split; [lia|done].
Qed.

(** C36: a request always ends, and only a matching answer is believed.  Whatever
    the network does, a request is sent at most four times within 3.75 seconds
    and returns; the answer, if there is one, arrived while all earlier attempts
    had timed out, and has the expected size, version 0, the request's opcode as
    a response, and a success code; a timeout is reported only when every
    attempt timed out. *)
Theorem rpc_sound gateway net request size :
  (exists r sent waited,
    rpc_loop RPC_FUEL net 0 (new gateway).(cl_initial_timeout) 0 = Some (r, sent, waited) /\
    outcome_ok net r sent waited) /\
  exists answer, rpc (new gateway) net request size = Some answer /\
    match answer with
    | Ok response =>
        (exists i datagram, (i < 4)%nat /\ net i = Received datagram /\
          (forall j, (j < i)%nat -> net j = Elapsed) /\ response = firstn 16 datagram) /\
        length response = size /\ byte_at response 0 = 0%N /\
        byte_at response 1 = N.lor (byte_at request 1) 128 /\
        u16_from_be (byte_at response 2) (byte_at response 3) = 0%N
    | Err ErrTimeout => forall j, (j < 4)%nat -> net j = Elapsed
    | Err (ErrGateway result) => result <> 0%N
    | Err _ => True
    end.
Proof.
  cbn [new cl_initial_timeout]. destruct (rpc_loop_outcome net) as (r & sent & waited & Hl & Ho).
  split; [eauto|]. unfold rpc. cbn [new cl_initial_timeout]. rewrite Hl.
  destruct Ho as (_ & _ & Ho). destruct r as [response|e].
  - eexists. split; [done|]. unfold check_response.
    destruct (Nat.eqb_spec (length response) size) as [Hs|]; [|done]. cbn [negb].
    destruct (_ || _) eqn:E; [done|]. simplify_bools.
    destruct (N.eqb_spec (u16_from_be (byte_at response 2) (byte_at response 3)) 0); [|done].
    cbn [negb]. split_and!; done.
  - eexists. split; [done|]. by destruct e.
Qed.

(** ** Mappings *)

(** The gateway's side of RFC 6886: reading a request, writing a response. *)
Definition decode_request (request : list N) : N * N * N * N :=
  (byte_at request 1, u16_from_be (byte_at request 4) (byte_at request 5),
   u16_from_be (byte_at request 6) (byte_at request 7),
   u32_from_be (byte_at request 8) (byte_at request 9) (byte_at request 10) (byte_at request 11)).

Definition encode_mapping_response (protocol : Protocol) (epoch : N) (m : Mapping) : list N :=
  [0; N.lor (opcode protocol) 128; 0; 0]%N ++ u32_be epoch
  ++ u16_be m.(mp_internal_port) ++ u16_be m.(mp_external_port) ++ u32_be m.(mp_lifetime_seconds).

Definition mapping_fits (m : Mapping) : Prop :=
  (m.(mp_internal_port) <= u16_MAX /\ m.(mp_external_port) <= u16_MAX /\
   m.(mp_lifetime_seconds) <= u32_MAX)%N.

Lemma u16_round_trip n : u16_from_be (n / 256) (n mod 256) = n.
Proof. unfold u16_from_be. pose proof (N.div_mod n 256 ltac:(lia)). lia. Qed.

Lemma u32_round_trip n :
  u32_from_be (n / 16777216) (n / 65536 mod 256) (n / 256 mod 256) (n mod 256) = n.
Proof.
  unfold u32_from_be.
  replace (n / 16777216)%N with (n / 256 / 256 / 256)%N by (by rewrite !N.Div0.div_div).
  replace (n / 65536)%N with (n / 256 / 256)%N by (by rewrite N.Div0.div_div).
  pose proof (N.div_mod n 256 ltac:(lia)). pose proof (N.div_mod (n / 256) 256 ltac:(lia)).
  pose proof (N.div_mod (n / 256 / 256) 256 ltac:(lia)). lia.
Qed.

(** the wire format is the one the gateway speaks.  A gateway reads back
    the protocol, ports and lifetime of a request, and the mapping it answers
    is the mapping the client returns, on the first attempt. *)
Theorem mapping_round_trip gateway net protocol internal requested lifetime epoch m
    (Hnet : net 0%nat = Received (encode_mapping_response protocol epoch m)) :
  decode_request (encode_mapping_request protocol internal requested lifetime)
    = (opcode protocol, internal, requested, lifetime) /\
  map (new gateway) net protocol internal requested lifetime = Some (Ok m).
Proof.
  split.
  - unfold decode_request, encode_mapping_request, u16_be, u32_be, byte_at.
    cbn -[N.div N.modulo u16_from_be u32_from_be]. by rewrite !u16_round_trip, u32_round_trip.
  - unfold map, rpc, RPC_FUEL. cbn [rpc_loop new cl_initial_timeout]. rewrite Hnet.
    unfold encode_mapping_response, encode_mapping_request, u16_be, u32_be.
    unfold check_response, decode_mapping_response, byte_at.
    destruct protocol; cbn -[N.div N.modulo u16_from_be u32_from_be];
      rewrite ?N.eqb_refl; cbn -[N.div N.modulo u16_from_be u32_from_be];
      change (u16_from_be 0 0) with 0%N; cbn -[N.div N.modulo u16_from_be u32_from_be];
      rewrite !u16_round_trip, u32_round_trip; by destruct m.
Qed.

(** a symmetric mapping is granted by both transports.  Whatever the two
    networks answer, a mapping is returned only when UDP and TCP were granted
    the same internal and external port; its lifetime is the shorter one, and
    TCP was asked for the port UDP was given. *)
Theorem symmetric_mapping_agrees c udp_net tcp_net internal requested lifetime m
    (Hm : request_symmetric_mapping c udp_net tcp_net internal requested lifetime = Some (Ok m)) :
  exists u t,
    map c udp_net Udp internal requested lifetime = Some (Ok u) /\
    map c (tcp_net u.(mp_external_port)) Tcp internal u.(mp_external_port) lifetime = Some (Ok t) /\
    u.(mp_internal_port) = t.(mp_internal_port) /\ u.(mp_external_port) = t.(mp_external_port) /\
    m.(mp_internal_port) = u.(mp_internal_port) /\ m.(mp_external_port) = u.(mp_external_port) /\
    m.(mp_lifetime_seconds) = N.min u.(mp_lifetime_seconds) t.(mp_lifetime_seconds).
Proof.
  unfold request_symmetric_mapping in Hm. apply bind_Some in Hm as ([u|e] & Hu & Hm); [|done].
  apply bind_Some in Hm as ([t|e] & Ht & Hm); [|done]. cbn in Hm.
  destruct (negb _ || negb _) eqn:E; [done|]. simplify_bools. injection Hm as <-.
  exists u, t. by split_and!.
Qed.

Definition sample_mapping : Mapping :=
  {| mp_internal_port := 1; mp_external_port := 45678; mp_lifetime_seconds := 60 |}.
Definition sample_net (p : Protocol) : Network := fun n =>
  match n with
  | O => Received (encode_mapping_response p 7 sample_mapping)
  | _ => Elapsed
  end.

Lemma mapping_round_trip_witness :
  map (new 168427521) (sample_net Tcp) Tcp 1 0 60 = Some (Ok sample_mapping).
Proof. exact (proj2 (mapping_round_trip 168427521 (sample_net Tcp) Tcp 1 0 60 7 sample_mapping eq_refl)). Defined.

Lemma symmetric_mapping_agrees_witness :
  exists u, map (new 168427521) (sample_net Udp) Udp 1 0 60 = Some (Ok u) /\
    u.(mp_external_port) = 45678%N.
Proof.
  destruct (symmetric_mapping_agrees (new 168427521) (sample_net Udp) (fun _ => sample_net Tcp) 1 0 60
    sample_mapping) as (u & t & Hu & _ & _ & _ & _ & He & _).
  - vm_compute. reflexivity.
  - exists u. split; [exact Hu|]. by rewrite <- He.
Defined.
