(* ===== verification/LeaseKeeper.v ===== *)
(** The lease keeper (the port-forward part of src/src/runtime.rs): it keeps a
    NAT-PMP lease and a DNAT rule for every client that asks for a forwarded
    port, and publishes which forwards are active.

    One turn of the keeper's loop is a computation on [Keeper].  What nft, the
    provider's gateway and the clock answer is [KeeperEnv], indexed by the
    number of questions asked so far. *)

From S2P Require Import Prelude RustStr Net BTree NatPmp State Domain Config Host Control Machine StateErr Enforcement.

Record LeaseSlot : Type := {
  ls_target_name : string;
  ls_target : DnatTarget;
  ls_assigned_external : option N;
  ls_active_forward : option Dnat;
}.

Class KeeperEnv : Type := {
  nft_at : nat -> Nft;
  clock : nat -> N;
  (** the datagrams of the gateway: for its address, for a usage's UDP request,
      and for its TCP request *)
  address_network : nat -> Network;
  udp_network : nat -> string -> Network;
  tcp_network : nat -> string -> N -> Network;
}.

(** [tunnel_dnat] *)
Definition tunnel_dnat (mapping : Mapping) (target : DnatTarget) : Dnat :=
  (mapping.(mp_internal_port), target.(dt_address), target.(dt_port)).

Definition dnat_install_required (active_forward : option Dnat) (desired : Dnat) (applied : bool) : bool :=
  negb (bool_decide (active_forward = Some desired)) || negb applied.

Definition select_primary_usage_id {T} (configured : option string) (leases : gmap string T) : option string :=
  match configured with
  | Some usage_id => if bool_decide (is_Some (leases !! usage_id)) then Some usage_id
                     else if (size leases =? 1)%nat then head (btree_keys String.leb leases) else None
  | None => if (size leases =? 1)%nat then head (btree_keys String.leb leases) else None
  end.

(** The clients that ask for a port and may have one; of two clients of one
    usage identity the last in the order of identifiers. *)
Definition select_port_targets (clients : gmap string ClientState) : gmap string (string * DnatTarget) :=
  list_to_map (rev
    (omap (fun client =>
       if client.(cl_port_forward_target) && client.(cl_compliant)
       then port ← client.(cl_target_port);
            Some (client.(cl_usage_id),
                  (client.(cl_name),
                   {| dt_container_id := client.(cl_container_id);
                      dt_address := client.(cl_ipv4_address); dt_port := port |}))
       else None)
     (btree_values String.leb clients))).

Record PortForwardTargetInput : Type := {
  ti_container_id : string;
  ti_usage_id : string;
  ti_address : Ipv4Addr;
  ti_target_port : option N;
  ti_compliant : bool;
  ti_running : bool;
}.

Definition port_forward_target_inputs (clients : gmap string ClientState) : list PortForwardTargetInput :=
  (fun client =>
     {| ti_container_id := client.(cl_container_id); ti_usage_id := client.(cl_usage_id);
        ti_address := client.(cl_ipv4_address); ti_target_port := client.(cl_target_port);
        ti_compliant := client.(cl_compliant); ti_running := client.(cl_running) |})
  <$> List.filter cl_port_forward_target (btree_values String.leb clients).

(** ** The state *)

Record Keeper : Type := {
  k_app : AppState;
  k_publisher : StatePublisher;
  k_policy : DesiredPolicy;
  k_leases : gmap string LeaseSlot;
  k_asked : nat;
}.

Definition K (A : Type) : Type := St Keeper A.

Definition with_app (app : AppState) (s : Keeper) : Keeper :=
  {| k_app := app; k_publisher := s.(k_publisher); k_policy := s.(k_policy);
     k_leases := s.(k_leases); k_asked := s.(k_asked) |}.
Definition with_publisher (publisher : StatePublisher) (s : Keeper) : Keeper :=
  {| k_app := s.(k_app); k_publisher := publisher; k_policy := s.(k_policy);
     k_leases := s.(k_leases); k_asked := s.(k_asked) |}.
Definition with_leases (leases : gmap string LeaseSlot) (s : Keeper) : Keeper :=
  {| k_app := s.(k_app); k_publisher := s.(k_publisher); k_policy := s.(k_policy);
     k_leases := leases; k_asked := s.(k_asked) |}.

Definition set_port_forwards (forwards : gmap string PortForwardState) (app : AppState) : AppState :=
  {| as_tunnel := app.(as_tunnel); as_traffic := app.(as_traffic); as_port_forward := app.(as_port_forward);
     as_port_forwards := forwards; as_clients := app.(as_clients); as_last_error := app.(as_last_error) |}.
Definition set_port_forward (forward : PortForwardState) (app : AppState) : AppState :=
  {| as_tunnel := app.(as_tunnel); as_traffic := app.(as_traffic); as_port_forward := forward;
     as_port_forwards := app.(as_port_forwards); as_clients := app.(as_clients);
     as_last_error := app.(as_last_error) |}.
Definition set_last_error (error : string) (app : AppState) : AppState :=
  {| as_tunnel := app.(as_tunnel); as_traffic := app.(as_traffic); as_port_forward := app.(as_port_forward);
     as_port_forwards := app.(as_port_forwards); as_clients := app.(as_clients);
     as_last_error := Some error |}.

Definition update_forwards (f : gmap string PortForwardState -> gmap string PortForwardState) : K unit :=
  modify (fun s => with_app (set_port_forwards (f s.(k_app).(as_port_forwards)) s.(k_app)) s).
Definition update_leases (f : gmap string LeaseSlot -> gmap string LeaseSlot) : K unit :=
  modify (fun s => with_leases (f s.(k_leases)) s).

(** [entry(key).or_default()] and a change of it *)
Definition upsert {V} (default_value : V) (f : V -> V) (key : string) (m : gmap string V) : gmap string V :=
  <[key := f (default default_value (m !! key))]> m.

Definition with_forwards (s : CanonicalSnapshot) (sequence : N) (forward : PortForwardStatus)
    (forwards : gmap string PortForwardStatus) : CanonicalSnapshot :=
  {| sn_schema_version := s.(sn_schema_version); sn_sequence := sequence;
     sn_generated_at_unix_ms := s.(sn_generated_at_unix_ms); sn_protection := s.(sn_protection);
     sn_availability := s.(sn_availability); sn_checks := s.(sn_checks);
     sn_transitions := s.(sn_transitions); sn_port_forward := forward;
     sn_port_forwards := forwards; sn_recovery := s.(sn_recovery);
     sn_external_probe := s.(sn_external_probe); sn_external_probes := s.(sn_external_probes);
     sn_vpn_server := s.(sn_vpn_server); sn_isolation_policy := s.(sn_isolation_policy);
     sn_host_policy := s.(sn_host_policy); sn_topology := s.(sn_topology); sn_clients := s.(sn_clients);
     sn_traffic := s.(sn_traffic);
     sn_last_client_path_success_at_unix_ms := s.(sn_last_client_path_success_at_unix_ms);
     sn_profile_management := s.(sn_profile_management) |}.

(** ** The closures given to [mutate] *)

(** A change of a forward takes the next sequence number. *)
Definition numbered_change (changed : bool) (sequence now : N) (status : PortForwardStatus) : PortForwardStatus :=
  if changed then
    {| ps_phase := status.(ps_phase); ps_requested_target := status.(ps_requested_target);
       ps_internal_port := status.(ps_internal_port); ps_external_port := status.(ps_external_port);
       ps_tcp_udp_agree := status.(ps_tcp_udp_agree);
       ps_lease_acquired_at_unix_ms := status.(ps_lease_acquired_at_unix_ms);
       ps_lease_expires_at_unix_ms := status.(ps_lease_expires_at_unix_ms);
       ps_dnat_installed := status.(ps_dnat_installed);
       ps_externally_verified := status.(ps_externally_verified);
       ps_change_sequence := sequence; ps_changed_at_unix_ms := Some now |}
  else status.

Definition installed_status (slot : LeaseSlot) (mapping : Mapping) (now : N) (status : PortForwardStatus)
    : PortForwardStatus :=
  {| ps_phase := Installed;
     ps_requested_target := Some slot.(ls_target_name);
     ps_internal_port := Some slot.(ls_target).(dt_port);
     ps_external_port := Some mapping.(mp_external_port);
     ps_tcp_udp_agree := Some true;
     ps_lease_acquired_at_unix_ms := Some now;
     ps_lease_expires_at_unix_ms :=
       Some (wrapping_add 64 now (wrapping_mul 64 mapping.(mp_lifetime_seconds) 1000));
     ps_dnat_installed := true;
     ps_externally_verified := None;
     ps_change_sequence := status.(ps_change_sequence);
     ps_changed_at_unix_ms := status.(ps_changed_at_unix_ms) |}.

(** Fields that a forward without a rule does not have. *)
Definition cleared_status (phase : PortForwardPhase) (status : PortForwardStatus) : PortForwardStatus :=
  {| ps_phase := phase; ps_requested_target := status.(ps_requested_target);
     ps_internal_port := status.(ps_internal_port); ps_external_port := None;
     ps_tcp_udp_agree := status.(ps_tcp_udp_agree);
     ps_lease_acquired_at_unix_ms := None; ps_lease_expires_at_unix_ms := None;
     ps_dnat_installed := false; ps_externally_verified := None;
     ps_change_sequence := status.(ps_change_sequence);
     ps_changed_at_unix_ms := status.(ps_changed_at_unix_ms) |}.

Definition publish_installed (usage_id : string) (slot : LeaseSlot) (mapping : Mapping) (changed : bool)
    (now : N) (s : CanonicalSnapshot) : CanonicalSnapshot :=
  let sequence := if changed then next_sequence s else s.(sn_sequence) in
  with_forwards s sequence s.(sn_port_forward)
    (upsert port_forward_status_default
       (fun status => installed_status slot mapping now (numbered_change changed sequence now status))
       usage_id s.(sn_port_forwards)).

Definition status_of (s : CanonicalSnapshot) (usage_id : string) : PortForwardStatus :=
  default port_forward_status_default (s.(sn_port_forwards) !! usage_id).

Definition publish_cleared (usage_id : string) (phase : PortForwardPhase) (now : N) (s : CanonicalSnapshot)
    : CanonicalSnapshot :=
  let status := status_of s usage_id in
  let changed := negb (bool_decide (status.(ps_phase) = phase)) || status.(ps_dnat_installed) in
  let sequence := if changed then next_sequence s else s.(sn_sequence) in
  with_forwards s sequence s.(sn_port_forward)
    (upsert port_forward_status_default
       (fun status => cleared_status phase (numbered_change changed sequence now status))
       usage_id s.(sn_port_forwards)).

Definition publish_removed (usage_id : string) (s : CanonicalSnapshot) : CanonicalSnapshot :=
  with_forwards s s.(sn_sequence) s.(sn_port_forward) (delete usage_id s.(sn_port_forwards)).

Definition publish_primary (usage_id : option string) (s : CanonicalSnapshot) : CanonicalSnapshot :=
  with_forwards s s.(sn_sequence)
    (default port_forward_status_default (usage_id ≫= fun id => s.(sn_port_forwards) !! id))
    s.(sn_port_forwards).

(** [invalidate_published_forward], called by the tunnel's monitor. *)
Definition phase_default (phase : PortForwardPhase) : PortForwardStatus :=
  {| ps_phase := phase; ps_requested_target := None;
     ps_internal_port := None; ps_external_port := None; ps_tcp_udp_agree := None;
     ps_lease_acquired_at_unix_ms := None; ps_lease_expires_at_unix_ms := None;
     ps_dnat_installed := false; ps_externally_verified := None; ps_change_sequence := 0;
     ps_changed_at_unix_ms := None |}.

Definition publish_invalid (phase : PortForwardPhase) (s : CanonicalSnapshot) : CanonicalSnapshot :=
  with_forwards s s.(sn_sequence) (phase_default phase) (cleared_status phase <$> s.(sn_port_forwards)).

Definition inactive (status : PortForwardState) : PortForwardState :=
  {| pf_active := false; pf_public_ip := status.(pf_public_ip); pf_port := status.(pf_port);
     pf_target := status.(pf_target); pf_target_port := status.(pf_target_port);
     pf_expires_in_seconds := status.(pf_expires_in_seconds); pf_lease_acquired_at_unix_ms := None |}.

Definition not_active (status : PortForwardState) : PortForwardState :=
  {| pf_active := false; pf_public_ip := status.(pf_public_ip); pf_port := status.(pf_port);
     pf_target := status.(pf_target); pf_target_port := status.(pf_target_port);
     pf_expires_in_seconds := status.(pf_expires_in_seconds);
     pf_lease_acquired_at_unix_ms := status.(pf_lease_acquired_at_unix_ms) |}.

Definition deactivated (status : PortForwardState) : PortForwardState :=
  {| pf_active := false; pf_public_ip := status.(pf_public_ip); pf_port := None;
     pf_target := status.(pf_target); pf_target_port := status.(pf_target_port);
     pf_expires_in_seconds := status.(pf_expires_in_seconds); pf_lease_acquired_at_unix_ms := None |}.

Section keeper.
Context `{!IpNetCrate, !KeeperEnv} (config : Config).

Definition ask (s : Keeper) : Keeper :=
  {| k_app := s.(k_app); k_publisher := s.(k_publisher); k_policy := s.(k_policy);
     k_leases := s.(k_leases); k_asked := S s.(k_asked) |}.

Definition unix_ms : K N := fun s => (ask s, Ok (clock s.(k_asked))).

Definition mutate (update : CanonicalSnapshot -> CanonicalSnapshot) : K unit :=
  let* now := unix_ms in
  modify (fun s => with_publisher (Control.mutate s.(k_publisher) update now) s).
Definition observe (observation : Observation) : K unit :=
  let* now := unix_ms in
  modify (fun s => with_publisher (Control.observe s.(k_publisher) observation now) s).
Definition emit (component reason_code safe_message : string) : K unit :=
  let* now := unix_ms in
  modify (fun s => with_publisher (Control.emit s.(k_publisher) component reason_code safe_message now) s).

(** An operation of the enforcement coordinator. *)
Definition enforce {A} (f : Nft -> DesiredPolicy -> DesiredPolicy * Result A string) : K A := fun s =>
  ({| k_app := s.(k_app); k_publisher := s.(k_publisher);
      k_policy := (f (nft_at s.(k_asked)) s.(k_policy)).1;
      k_leases := s.(k_leases); k_asked := S s.(k_asked) |},
   (f (nft_at s.(k_asked)) s.(k_policy)).2).

Definition publish_primary_forward : K unit :=
  let* app := gets k_app in
  let usage_id := select_primary_usage_id config.(c_port_forwarding).(pc_primary_usage_id)
                    app.(as_port_forwards) in
  let* _ := modify (fun s => with_app
    (set_port_forward (default port_forward_default (usage_id ≫= fun id => app.(as_port_forwards) !! id))
       s.(k_app)) s) in
  mutate (publish_primary usage_id).

Definition REMOVAL_FAILED : Observation :=
  {| ob_id := "gateway.firewall"; ob_status := Domain.Failed; ob_impact := Critical;
     ob_reason_code := "firewall.dnat_removal_failed";
     ob_safe_message := "Optional DNAT could not be removed; forwarding state remains unresolved";
     ob_next_attempt_at_unix_ms := None; ob_recovery_attempt := None |}.

Definition deactivate_forward_for_usage (usage_id : string) (phase : PortForwardPhase) : K unit :=
  let* cleared := attempt (enforce (clear_dnat_for_usage config usage_id)) in
  match cleared with
  | Err error =>
      let* _ := observe REMOVAL_FAILED in
      fail error
  | Ok _ =>
      let* _ := update_forwards (upsert port_forward_default deactivated usage_id) in
      let* now := unix_ms in
      let* _ := mutate (publish_cleared usage_id phase now) in
      publish_primary_forward
  end.

Definition forget_forward (slot : LeaseSlot) : LeaseSlot :=
  {| ls_target_name := slot.(ls_target_name); ls_target := slot.(ls_target);
     ls_assigned_external := slot.(ls_assigned_external); ls_active_forward := None |}.

(** [leases.get_mut(usage_id)] with [active_forward = None] *)
Definition forget_usage (usage_id : string) : K unit := update_leases (alter forget_forward usage_id).

Definition deactivate_all_forwards (phase : PortForwardPhase) : K unit :=
  let* leases := gets k_leases in
  each (fun usage_id =>
    let* _ := deactivate_forward_for_usage usage_id phase in
    forget_usage usage_id) (btree_keys String.leb leases).

Definition remove_lease (usage_id : string) : K unit :=
  let* _ := deactivate_forward_for_usage usage_id WaitingForTarget in
  let* _ := update_leases (delete usage_id) in
  let* _ := update_forwards (delete usage_id) in
  mutate (publish_removed usage_id).

Definition new_slot (target : string * DnatTarget) : LeaseSlot :=
  {| ls_target_name := target.1; ls_target := target.2; ls_assigned_external := None;
     ls_active_forward := None |}.

(** [leases.entry(usage_id).or_insert(..)] *)
Definition insert_slot (usage_id : string) (target : string * DnatTarget) (leases : gmap string LeaseSlot)
    : gmap string LeaseSlot :=
  match leases !! usage_id with
  | Some _ => leases
  | None => <[usage_id := new_slot target]> leases
  end.

Definition take_target (entry : string * (string * DnatTarget)) : K unit :=
  let '(usage_id, target) := entry in
  let* leases := gets k_leases in
  let replace := match leases !! usage_id with
                 | Some slot => negb (bool_decide (slot.(ls_target) = target.2))
                 | None => false
                 end in
  let* _ :=
    if replace then
      let* _ := deactivate_forward_for_usage usage_id WaitingForTarget in
      update_leases (delete usage_id)
    else ret tt in
  update_leases (insert_slot usage_id target).

Definition reconcile_lease_targets : K unit :=
  let* app := gets k_app in
  let* leases := gets k_leases in
  let targets := select_port_targets app.(as_clients) in
  let removed := List.filter (fun usage_id => negb (bool_decide (is_Some (targets !! usage_id))))
                   (btree_keys String.leb leases) in
  let* _ := each remove_lease removed in
  each take_target (btree_iter String.leb targets).

Definition record_port_error (usage_id : option string) (error : string) : K unit :=
  let* _ :=
    match usage_id with
    | Some usage_id => update_forwards (upsert port_forward_default not_active usage_id)
    | None => ret tt
    end in
  modify (fun s => with_app
    (set_last_error ("port forwarding failed for " +:+ default "gateway" usage_id +:+ ": " +:+ error)
       s.(k_app)) s).

(** ** A turn of the loop *)

Definition active_forward (slot : LeaseSlot) (mapping : Mapping) (public_ip : Ipv4Addr) (now : N)
    : PortForwardState :=
  {| pf_active := true; pf_public_ip := Some public_ip; pf_port := Some mapping.(mp_external_port);
     pf_target := Some slot.(ls_target_name); pf_target_port := Some slot.(ls_target).(dt_port);
     pf_expires_in_seconds := Some mapping.(mp_lifetime_seconds);
     pf_lease_acquired_at_unix_ms := Some now |}.

Definition with_lease (slot : LeaseSlot) (assigned : option N) (forward : option Dnat) : LeaseSlot :=
  {| ls_target_name := slot.(ls_target_name); ls_target := slot.(ls_target);
     ls_assigned_external := assigned; ls_active_forward := forward |}.

(** The branch for a mapping of the body's [for]. *)
Definition handle_mapping (public_ip : Ipv4Addr) (usage_id : string) (slot : LeaseSlot) (mapping : Mapping)
    : K unit :=
  let desired_forward := tunnel_dnat mapping slot.(ls_target) in
  let port_changed :=
    match slot.(ls_assigned_external) with
    | Some port => negb (port =? mapping.(mp_external_port))%N
    | None => false
    end in
  let mapping_changed :=
    negb (bool_decide (slot.(ls_active_forward) = Some desired_forward)) || port_changed in
  let* policy := gets k_policy in
  let install_required :=
    dnat_install_required slot.(ls_active_forward) desired_forward
      (dnat_is_applied usage_id desired_forward policy) in
  let* now := unix_ms in
  let* installed :=
    if install_required
    then enforce (set_dnat_for_target config usage_id desired_forward slot.(ls_target))
    else ret true in
  if negb installed then ret tt
  else
    let forward := if install_required then Some desired_forward else slot.(ls_active_forward) in
    let* _ := update_leases (insert usage_id (with_lease slot (Some mapping.(mp_external_port)) forward)) in
    let* _ := update_forwards (insert usage_id (active_forward slot mapping public_ip now)) in
    let* _ := mutate (publish_installed usage_id slot mapping mapping_changed now) in
    if port_changed
    then emit ("port_forward." +:+ usage_id) "port_forward.port_changed"
           "The provider assigned a different forwarded port"
    else ret tt.

Definition natpmp_message (e : NatPmp.Error) : string :=
  match e with
  | ErrTimeout => "NAT-PMP request timed out"
  | ErrIo e => "NAT-PMP I/O error: " +:+ e
  | ErrInvalid message => "invalid NAT-PMP response: " +:+ message
  | ErrGateway code => "NAT-PMP gateway returned result code " +:+ show_N code
  end.

(** The result of a request: the fuel of [rpc] is always enough. *)
Definition settled {A} (r : option (Result A NatPmp.Error)) : Result A NatPmp.Error :=
  default (Err ErrTimeout) r.

Definition handle_result (public_ip : Ipv4Addr) (result : string * Result Mapping NatPmp.Error) : K unit :=
  let '(usage_id, result) := result in
  match result with
  | Ok mapping =>
      let* leases := gets k_leases in
      let* slot := lift (ok_or (leases !! usage_id) "lease target still exists") in
      handle_mapping public_ip usage_id slot mapping
  | Err error =>
      let* _ := record_port_error (Some usage_id) (natpmp_message error) in
      let* _ := deactivate_forward_for_usage usage_id LeaseLost in
      forget_usage usage_id
  end.

Definition client : NatPmp.Client :=
  bound_to (NatPmp.new config.(c_port_forwarding).(pc_gateway)) config.(c_wireguard).(wc_interface).

Definition request (asked : nat) (entry : string * LeaseSlot) : string * Result Mapping NatPmp.Error :=
  let '(usage_id, slot) := entry in
  (usage_id,
   settled (request_symmetric_mapping client (udp_network asked usage_id) (tcp_network asked usage_id)
              slot.(ls_target).(dt_port)
              (default slot.(ls_target).(dt_port) slot.(ls_assigned_external))
              config.(c_port_forwarding).(pc_lifetime_seconds))).

Definition installed_observation (component reason : string) (active : nat) : Observation :=
  {| ob_id := component; ob_status := Healthy; ob_impact := Optional; ob_reason_code := reason;
     ob_safe_message := show_nat active +:+ " symmetric lease(s) are installed in the owned firewall";
     ob_next_attempt_at_unix_ms := None; ob_recovery_attempt := None |}.

Definition observe_installed_forwards : K unit :=
  let* app := gets k_app in
  let active := length (List.filter pf_active (btree_values String.leb app.(as_port_forwards))) in
  let* _ := observe (installed_observation "port_forward.dnat" "port_forward.dnat_installed" active) in
  observe (installed_observation "port_forward.lifecycle" "port_forward.lease_installed" active).

Definition renew_leases (public_ip : Ipv4Addr) : K unit :=
  let* leases := gets k_leases in
  let* asked := gets k_asked in
  let* _ := unix_ms in
  let results := request asked <$> btree_iter String.leb leases in
  let* _ := each (handle_result public_ip) results in
  let* _ := publish_primary_forward in
  observe_installed_forwards.

(** From one wait to the next. *)
Definition turn : K unit :=
  let* app := gets k_app in
  if negb app.(as_tunnel).(tn_up) then deactivate_all_forwards PhaseUnavailable
  else
    let* _ := reconcile_lease_targets in
    let* leases := gets k_leases in
    if (size leases =? 0)%nat then publish_primary_forward
    else
      let* asked := gets k_asked in
      let* _ := unix_ms in
      match settled (external_address client (address_network asked)) with
      | Ok public_ip => renew_leases public_ip
      | Err error =>
          let* _ := record_port_error None (natpmp_message error) in
          deactivate_all_forwards LeaseLost
      end.

(** The task ends with an error when a turn fails; a disabled backend never
    starts one. *)
Definition maintains : bool := negb (bool_decide (config.(c_port_forwarding).(pc_backend) = BackendDisabled)).

Definition invalidate_published_forward (phase : PortForwardPhase) : K unit :=
  let* _ := modify (fun s => with_app
    (set_port_forward port_forward_default
       (set_port_forwards (inactive <$> s.(k_app).(as_port_forwards)) s.(k_app))) s) in
  mutate (publish_invalid phase).
End keeper.
