(* ===== verification/LeaseKeeperProps.v ===== *)
(** The lease keeper: every rule has its lease, every forward published as
    active has its lease and its rule's target, and a turn leaves exactly the
    leases that the clients ask for. *)

From S2P Require Import Prelude RustStr Net BTree Order NatPmp State Domain Config ConfigProps Host Control Machine StateErr Enforcement EnforcementProps LeaseKeeper.

Section keeper.
Context `{!IpNetCrate, !KeeperEnv} (config : Config).
Implicit Types (s : Keeper) (u : string).

(** ** What the operations change *)

Definition forwards s : gmap string PortForwardState := s.(k_app).(as_port_forwards).
Definition published s : gmap string PortForwardStatus := s.(k_publisher).(sp_inner).(sn_port_forwards).
Definition rules s : gmap string Dnat := s.(k_policy).(desired_dnat).

Record View : Type := {
  v_forwards : gmap string PortForwardState;
  v_published : gmap string PortForwardStatus;
  v_rules : gmap string Dnat;
  v_leases : gmap string LeaseSlot;
  v_clients : gmap string ClientState;
  v_tunnel : TunnelState;
}.

Definition view s : View :=
  {| v_forwards := forwards s; v_published := published s; v_rules := rules s; v_leases := s.(k_leases);
     v_clients := s.(k_app).(as_clients); v_tunnel := s.(k_app).(as_tunnel) |}.

Definition view_cleared (v : View) u (forward : PortForwardState) (status : PortForwardStatus) : View :=
  {| v_forwards := <[u := forward]> v.(v_forwards); v_published := <[u := status]> v.(v_published);
     v_rules := delete u v.(v_rules); v_leases := v.(v_leases); v_clients := v.(v_clients);
     v_tunnel := v.(v_tunnel) |}.
Definition view_rules (v : View) (r : gmap string Dnat) : View :=
  {| v_forwards := v.(v_forwards); v_published := v.(v_published); v_rules := r; v_leases := v.(v_leases);
     v_clients := v.(v_clients); v_tunnel := v.(v_tunnel) |}.
Definition view_leases (v : View) (l : gmap string LeaseSlot) : View :=
  {| v_forwards := v.(v_forwards); v_published := v.(v_published); v_rules := v.(v_rules); v_leases := l;
     v_clients := v.(v_clients); v_tunnel := v.(v_tunnel) |}.
Definition view_forwards (v : View) (f : gmap string PortForwardState) : View :=
  {| v_forwards := f; v_published := v.(v_published); v_rules := v.(v_rules); v_leases := v.(v_leases);
     v_clients := v.(v_clients); v_tunnel := v.(v_tunnel) |}.
Definition view_published (v : View) (p : gmap string PortForwardStatus) : View :=
  {| v_forwards := v.(v_forwards); v_published := p; v_rules := v.(v_rules); v_leases := v.(v_leases);
     v_clients := v.(v_clients); v_tunnel := v.(v_tunnel) |}.

Definition quiet {A} (m : K A) : Prop := forall s, view (m s).1 = view s.

Lemma keeper_wp_quiet {A} (m : K A) s (Q : Keeper -> Result A string -> Prop) :
  quiet m -> (forall s1 r, view s1 = view s -> Q s1 r) -> wp m s Q.
Proof. intros Hm HQ. apply HQ, Hm. Qed.

Lemma quiet_now : quiet unix_ms.
Proof. done. Qed.

Lemma published_aggregate x : sn_port_forwards (derive_aggregate x) = sn_port_forwards x.
Proof. reflexivity. Qed.

Lemma quiet_observe o : quiet (observe o).
Proof.
  intros s. unfold observe, view, published, bind, unix_ms, modify. cbn. unfold Control.observe.
  by destruct (observation_changed _ _ _).
Qed.

Lemma quiet_emit component reason message : quiet (emit component reason message).
Proof. done. Qed.

(** A published change: only [sn_port_forwards] is of interest. *)
Lemma wp_mutate f s Q :
  (forall s1, view s1 = view_published (view s) (sn_port_forwards (f s.(k_publisher).(sp_inner))) -> Q s1 (Ok tt)) ->
  wp (mutate f) s Q.
Proof. intros HQ. unfold mutate. apply wp_bind. cbn. by apply HQ. Qed.

Lemma quiet_primary : quiet (publish_primary_forward config).
Proof. done. Qed.

Lemma wp_now s (Q : Keeper -> Result N string -> Prop) :
  (forall s1 now, view s1 = view s -> Q s1 (Ok now)) -> wp unix_ms s Q.
Proof. intros HQ. by apply HQ. Qed.

(** The coordinator records what is asked also when nft fails. *)
Lemma wp_clear u s (Q : Keeper -> Result unit string -> Prop) :
  (forall s1 r, view s1 = view_rules (view s) (delete u (rules s)) -> Q s1 r) ->
  wp (enforce (clear_dnat_for_usage config u)) s Q.
Proof.
  intros HQ. unfold wp. apply HQ. unfold enforce, view, view_rules, rules. cbn. f_equal.
  unfold clear_dnat_for_usage. destruct (apply_locked _ _ _) as [p' r] eqn:Ha.
  apply apply_recorded in Ha as (Hd & _). cbn in Hd. by injection Hd.
Qed.

Lemma wp_set u dnat target s (Q : Keeper -> Result bool string -> Prop) :
  (forall s1, view s1 = view s -> Q s1 (Ok false)) ->
  (forall s1 r, view s1 = view_rules (view s) (<[u := dnat]> (rules s)) -> r <> Ok false -> Q s1 r) ->
  wp (enforce (set_dnat_for_target config u dnat target)) s Q.
Proof.
  intros Hrefused HQ. unfold wp, enforce, set_dnat_for_target.
  destruct (_ || _); [by apply Hrefused|].
  destruct (apply_locked _ _ _) as [p' [[]|e]] eqn:Ha; apply apply_recorded in Ha as (Hd & _); cbn in Hd;
    injection Hd as _ Hd; (apply HQ; [|done]); unfold view, view_rules, rules; cbn; by f_equal.
Qed.

Definition off (status : PortForwardStatus) : Prop := status.(ps_dnat_installed) = false.

Lemma wp_deactivate u phase s (Q : Keeper -> Result unit string -> Prop) :
  (forall s1 e, view s1 = view_rules (view s) (delete u (rules s)) -> Q s1 (Err e)) ->
  (forall s1 forward status, forward.(pf_active) = false -> off status ->
     view s1 = view_cleared (view s) u forward status -> Q s1 (Ok tt)) ->
  wp (deactivate_forward_for_usage config u phase) s Q.
Proof.
  intros Hfail HQ. unfold deactivate_forward_for_usage. apply wp_bind, wp_attempt, wp_clear.
  intros s1 [[]|e] Hv1.
  - apply wp_bind, wp_modify, wp_bind, wp_now. intros s2 now Hv2.
    apply wp_bind, wp_mutate. intros s3 Hv3.
    change (Q (publish_primary_forward config s3).1 (Ok tt)).
    pose proof (f_equal v_published Hv2) as Hp2. cbn in Hp2.
    pose proof (f_equal v_forwards Hv1) as Hf1. cbn in Hf1.
    pose proof (f_equal v_published Hv1) as Hp1. cbn in Hp1.
    eapply HQ; [| |rewrite quiet_primary, Hv3, Hv2]; cycle 2.
    + unfold publish_cleared. cbn [sn_port_forwards with_forwards]. unfold upsert.
      unfold view_cleared.
      unfold view_published, view at 1. cbn. unfold forwards. f_equal.
      * exact (f_equal (fun v => <[u := deactivated (default port_forward_default (v.(v_forwards) !! u))]> v.(v_forwards)) Hv1).
      * exact (f_equal (fun p => insert u _ p) (eq_trans Hp2 Hp1)).
      * exact (f_equal v_rules Hv1).
      * exact (f_equal v_leases Hv1).
      * exact (f_equal v_clients Hv1).
      * exact (f_equal v_tunnel Hv1).
    + reflexivity.
    + reflexivity.
  - apply wp_bind, keeper_wp_quiet; [apply quiet_observe|]. intros s2 r Hv2.
    destruct r as [[]|e']; apply Hfail; exact (eq_trans Hv2 Hv1).
Qed.

(** ** The invariant *)

(** A forward published as active has a lease with a rule, and the snapshot
    shows it installed with the same port. *)
Definition shown (v : View) : Prop :=
  forall u f, v.(v_forwards) !! u = Some f -> f.(pf_active) = true ->
    exists slot st, v.(v_leases) !! u = Some slot /\ is_Some slot.(ls_active_forward)
      /\ f.(pf_port) = slot.(ls_assigned_external) /\ f.(pf_target_port) = Some slot.(ls_target).(dt_port)
      /\ v.(v_published) !! u = Some st /\ st.(ps_dnat_installed) = true /\ st.(ps_external_port) = f.(pf_port).

Record owned (v : View) : Prop := {
  owned_shown : shown v;
  (** every desired rule is the rule of a lease *)
  owned_rule : forall u d, v.(v_rules) !! u = Some d ->
    exists slot, v.(v_leases) !! u = Some slot /\ slot.(ls_active_forward) = Some d;
  (** and leads to the lease's client *)
  owned_target : forall u slot d, v.(v_leases) !! u = Some slot -> slot.(ls_active_forward) = Some d ->
    d.1.2 = slot.(ls_target).(dt_address) /\ d.2 = slot.(ls_target).(dt_port);
}.

(** The usage identity has no rule and is not published as active. *)
Definition released u (v : View) : Prop :=
  v.(v_rules) !! u = None /\ forall f, v.(v_forwards) !! u = Some f -> f.(pf_active) = false.

Definition kept {A} (s1 : Keeper) (r : Result A string) : Prop :=
  match r with Ok _ => owned (view s1) | Err _ => shown (view s1) end.

Lemma shown_rules v r : shown v -> shown (view_rules v r).
Proof. done. Qed.

Lemma owned_delete_rule v u : owned v -> owned (view_rules v (delete u v.(v_rules))).
Proof.
  intros [Hs Hr Ht]. split; [done| |done]. intros u' d Hd. cbn in Hd.
  apply lookup_delete_Some in Hd as [_ Hd]. by apply Hr.
Qed.

Lemma owned_cleared v u f st :
  f.(pf_active) = false -> owned v -> owned (view_cleared v u f st) /\ released u (view_cleared v u f st).
Proof.
  intros Hf [Hs Hr Ht]. split; [split; [|by apply owned_delete_rule|done]|].
  - intros u' f' Hl Ha. cbn in Hl. apply lookup_insert_Some in Hl as [[_ <-]|[Hne Hl]]; [congruence|].
    destruct (Hs u' f' Hl Ha) as (slot & st' & ? & ? & ? & ? & Hp & ? & ?). exists slot, st'.
    split_and!; try done. cbn. by rewrite lookup_insert_ne.
  - split; cbn; [apply lookup_delete_eq|]. intros f'. rewrite lookup_insert_eq. by intros [= <-].
Qed.

(** The lease of a released usage identity may change or go. *)
Lemma owned_lease v u l :
  (forall u', u' <> u -> l !! u' = v.(v_leases) !! u') ->
  (forall slot, l !! u = Some slot -> slot.(ls_active_forward) = None) ->
  released u v -> owned v -> owned (view_leases v l).
Proof.
  intros Hne Hu [Hnr Hna] [Hs Hr Ht]. split.
  - intros u' f Hf Ha. cbn in Hf. destruct (decide (u' = u)) as [->|Hd].
    + by rewrite (Hna f Hf) in Ha.
    + destruct (Hs u' f Hf Ha) as (slot & st & Hl & ?). exists slot, st. cbn. by rewrite Hne.
  - intros u' d Hd. cbn in *. destruct (decide (u' = u)) as [->|Hd']; [congruence|]. rewrite Hne by done. by apply Hr.
  - intros u' slot d Hl Hd. cbn in Hl. destruct (decide (u' = u)) as [->|Hd'].
    + by rewrite (Hu slot Hl) in Hd.
    + rewrite Hne in Hl by done. by apply (Ht u').
Qed.

Lemma owned_forwards v f :
  (forall u a, f !! u = Some a -> a.(pf_active) = true -> v.(v_forwards) !! u = Some a) ->
  owned v -> owned (view_forwards v f).
Proof. intros Hf [Hs Hr Ht]. split; [|done|done]. intros u a Ha Hact. apply Hs; [by apply Hf|done]. Qed.

Lemma owned_published v u :
  released u v -> owned v -> owned (view_published v (delete u v.(v_published))).
Proof.
  intros [_ Hna] [Hs Hr Ht]. split; [|done|done]. intros u' f Hf Ha. cbn in Hf.
  destruct (Hs u' f Hf Ha) as (slot & st & ? & ? & ? & ? & Hp & ? & ?). exists slot, st. split_and!; try done.
  cbn. rewrite lookup_delete_ne; [done|]. intros ->. by rewrite (Hna f Hf) in Ha.
Qed.

(** What a change of the forwards leaves alone. *)
Definition same_world (v v' : View) : Prop := v'.(v_clients) = v.(v_clients) /\ v'.(v_tunnel) = v.(v_tunnel).

Definition active_in (v : View) u : Prop := exists f, v.(v_forwards) !! u = Some f /\ f.(pf_active) = true.

Lemma released_inactive u v : released u v -> ~ active_in v u.
Proof. intros [_ Hr] (f & Hf & Ha). by rewrite (Hr f Hf) in Ha. Qed.

Lemma wp_deactivate_owned u phase s (Q : Keeper -> Result unit string -> Prop) :
  owned (view s) ->
  (forall s1 e, owned (view s1) -> same_world (view s) (view s1) -> Q s1 (Err e)) ->
  (forall s1, owned (view s1) -> released u (view s1) -> same_world (view s) (view s1) ->
     (view s1).(v_leases) = s.(k_leases) -> (view s1).(v_rules) = delete u (rules s) ->
     (forall u', active_in (view s1) u' -> active_in (view s) u') -> Q s1 (Ok tt)) ->
  wp (deactivate_forward_for_usage config u phase) s Q.
Proof.
  intros Hs Hfail HQ. apply wp_deactivate.
  - intros s1 e Hv. apply Hfail; rewrite Hv; [by apply owned_delete_rule|done].
  - intros s1 f st Hf Hst Hv. destruct (owned_cleared _ u f st Hf Hs) as [Ho Hr].
    apply HQ; rewrite Hv; try done. intros u' (f' & Hf' & Ha). cbn in Hf'.
    apply lookup_insert_Some in Hf' as [[_ <-]|[_ Hf']]; [congruence|]. by exists f'.
Qed.

(** ** The leases follow the clients *)

Lemma same_world_trans v1 v2 v3 : same_world v1 v2 -> same_world v2 v3 -> same_world v1 v3.
Proof. intros [? ?] [? ?]. split; congruence. Qed.

Lemma wp_remove_lease u s :
  owned (view s) ->
  wp (remove_lease config u) s (fun s1 r => kept s1 r /\ same_world (view s) (view s1)
    /\ forall x, r = Ok x -> s1.(k_leases) = delete u s.(k_leases)).
Proof.
  intros Hs. unfold remove_lease. apply wp_bind, wp_deactivate_owned; [done| |].
  - intros s1 e Ho Hw. split_and!; [apply Ho|exact Hw|done].
  - intros s1 Ho Hr Hw Hl _ _. apply wp_bind, wp_modify, wp_bind, wp_modify. apply wp_mutate. intros s2 Hv.
    set (v1 := view s1) in *.
    assert (Hv2 : view s2 = view_published
      (view_forwards (view_leases v1 (delete u v1.(v_leases))) (delete u v1.(v_forwards)))
      (delete u v1.(v_published))) by exact Hv.
    split_and!.
    + unfold kept. rewrite Hv2.
      apply (owned_published (view_forwards (view_leases v1 (delete u v1.(v_leases))) (delete u v1.(v_forwards))) u).
      * split; [apply Hr|]. cbn. by rewrite lookup_delete_eq.
      * apply owned_forwards; [intros u' a; cbn; by intros [_ ?]%lookup_delete_Some|].
        apply (owned_lease v1 u); [|intros slot; by rewrite lookup_delete_eq|done|done].
        intros u' Hne. by rewrite lookup_delete_ne.
    + destruct Hw as [Hc Ht]. by rewrite Hv2.
    + intros _ _. change (s2.(k_leases)) with ((view s2).(v_leases)). rewrite Hv2. cbn. by f_equal.
Qed.

Lemma wp_remove_leases l s :
  owned (view s) ->
  wp (each (remove_lease config) l) s (fun s1 r => kept s1 r /\ same_world (view s) (view s1)
    /\ forall x, r = Ok x -> forall u,
         s1.(k_leases) !! u = if bool_decide (u ∈ l) then None else s.(k_leases) !! u).
Proof.
  revert s. induction l as [|u l IH]; intros s Hs.
  { split_and!; try done. }
  cbn [each]. apply wp_bind. eapply wp_weaken; [|by apply wp_remove_lease]. cbv beta.
  intros s1 [[]|e] (Hk & Hw & Hl); [|done]. eapply wp_weaken; [|apply IH, Hk]. cbv beta.
  intros s2 r (Hk2 & Hw2 & Hl2). split_and!; [done|by apply (same_world_trans _ (view s1))|].
  intros x Hr u'. rewrite (Hl2 x Hr u'), (Hl tt eq_refl).
  destruct (decide (u' = u)) as [->|Hne].
  - rewrite lookup_delete_eq, (bool_decide_eq_true_2 (u ∈ u :: l)) by left. by destruct (bool_decide _).
  - rewrite lookup_delete_ne by done. rewrite (bool_decide_ext (u' ∈ u :: l) (u' ∈ l)); [done|]. rewrite elem_of_cons. naive_solver.
Qed.

Lemma owned_insert_slot u target v :
  owned v -> owned (view_leases v (insert_slot u target v.(v_leases))).
Proof.
  intros Ho. unfold insert_slot. destruct (v_leases v !! u) as [slot|] eqn:Hl; [by destruct v|].
  assert (Hr : released u v).
  { split.
    - destruct (v_rules v !! u) as [d|] eqn:Hd; [|done]. destruct (owned_rule _ Ho u d Hd) as (slot & Hs & _). congruence.
    - intros f Hf. destruct (pf_active f) eqn:Ha; [|done]. destruct (owned_shown _ Ho u f Hf Ha) as (slot & ? & Hs & _). congruence. }
  apply (owned_lease v u); [| |done|done].
  - intros u' Hne. by rewrite lookup_insert_ne.
  - intros slot. rewrite lookup_insert_eq. by intros [= <-].
Qed.

Lemma wp_take_target u target s :
  owned (view s) ->
  wp (take_target config (u, target)) s (fun s1 r => kept s1 r /\ same_world (view s) (view s1)
    /\ forall x, r = Ok x -> ls_target <$> s1.(k_leases) !! u = Some target.2
                           /\ forall u', u' <> u -> s1.(k_leases) !! u' = s.(k_leases) !! u').
Proof.
  intros Hs. unfold take_target. apply wp_bind, wp_gets, wp_bind. cbv beta.
  assert (Hinsert : forall s1, owned (view s1) ->
    (ls_target <$> s1.(k_leases) !! u = Some target.2 \/ s1.(k_leases) !! u = None) ->
    wp (update_leases (insert_slot u target)) s1 (fun s2 r => kept s2 r /\ same_world (view s1) (view s2)
      /\ forall x, r = Ok x -> ls_target <$> s2.(k_leases) !! u = Some target.2
                           /\ forall u', u' <> u -> s2.(k_leases) !! u' = s1.(k_leases) !! u')).
  { intros s1 Ho Hu. apply wp_modify. split_and!; try done.
    - unfold kept. exact (owned_insert_slot u target (view s1) Ho).
    - intros _ _. cbn. unfold insert_slot. destruct Hu as [Hu| ->].
      + destruct (k_leases s1 !! u) as [slot|] eqn:Hl; [|done]. rewrite Hl. by split.
      + split; [by rewrite lookup_insert_eq|]. intros u' Hne. by rewrite lookup_insert_ne. }
  destruct (k_leases s !! u) as [slot|] eqn:Hl.
  - case_bool_decide as Heq; cbn [negb].
    + unfold ret, wp at 1. cbn [fst snd]. apply Hinsert; [done|]. left. by rewrite Hl, <- Heq.
    + apply wp_bind, wp_deactivate_owned; [done| |].
      * intros s1 e Ho Hw. split_and!; [apply Ho|exact Hw|done].
      * intros s1 Ho Hr Hw Hls _ _. apply wp_modify. eapply wp_weaken; [|apply Hinsert].
        -- cbv beta. intros s2 r (Hk & Hw2 & Hok). split_and!; [done|by apply (same_world_trans _ (view s1))|].
           intros x Hx. destruct (Hok x Hx) as [Ht Hne]. split; [done|]. intros u' Hu'. rewrite Hne by done.
            cbn. rewrite lookup_delete_ne by done. change (k_leases s1) with (view s1).(v_leases). by rewrite Hls.
        -- refine (owned_lease (view s1) u (delete u (view s1).(v_leases)) _ _ Hr Ho).
           ++ intros u' Hne. by rewrite lookup_delete_ne.
           ++ intros slot'. by rewrite lookup_delete_eq.
        -- right. cbn. apply lookup_delete_eq.
  - unfold ret, wp at 1. cbn [fst snd]. apply Hinsert; [done|]. by right.
Qed.

Lemma wp_take_targets l s :
  NoDup l.*1 -> owned (view s) ->
  wp (each (take_target config) l) s (fun s1 r => kept s1 r /\ same_world (view s) (view s1)
    /\ forall x, r = Ok x ->
       (forall u target, (u, target) ∈ l -> ls_target <$> s1.(k_leases) !! u = Some target.2)
       /\ forall u, u ∉ l.*1 -> s1.(k_leases) !! u = s.(k_leases) !! u).
Proof.
  revert s. induction l as [|[u target] l IH]; intros s Hnd Hs.
  { split_and!; try done. intros _ _. split; [|done]. by intros ? ? ?%elem_of_nil. }
  cbn [each]. apply list.NoDup_cons in Hnd as [Hu Hnd]. cbn in Hu.
  apply wp_bind. eapply wp_weaken; [|by apply wp_take_target]. cbv beta.
  intros s1 [[]|e] (Hk & Hw & Hl); [|by split_and!]. eapply wp_weaken; [|by apply IH]. cbv beta.
  intros s2 r (Hk2 & Hw2 & Hl2). split_and!; [done|by apply (same_world_trans _ (view s1))|].
  intros x Hr. destruct (Hl tt eq_refl) as [Ht Hne]. destruct (Hl2 x Hr) as [Hin Hout]. split.
  - intros u' target' [[= -> ->]|Hin']%elem_of_cons; [|by apply Hin]. by rewrite Hout.
  - intros u' Hu'. cbn in Hu'. apply not_elem_of_cons in Hu' as [Hd Hu']. rewrite Hout by done. by apply Hne.
Qed.

(** The leases are those of the clients that ask for a port. *)
Definition tracks (v : View) : Prop :=
  forall u, ls_target <$> v.(v_leases) !! u = snd <$> select_port_targets v.(v_clients) !! u.

Lemma wp_reconcile s :
  owned (view s) ->
  wp (reconcile_lease_targets config) s (fun s1 r => kept s1 r /\ same_world (view s) (view s1)
    /\ forall x, r = Ok x -> tracks (view s1)).
Proof.
  intros Hs. unfold reconcile_lease_targets. apply wp_bind, wp_gets, wp_bind, wp_gets. cbv zeta.
  set (targets := select_port_targets _). apply wp_bind.
  eapply wp_weaken; [|by apply wp_remove_leases]. cbv beta.
  intros s1 [[]|e] (Hk & Hw & Hl); [|by split_and!].
  eapply wp_weaken; [|apply wp_take_targets; [apply NoDup_btree_keys|exact Hk]]. cbv beta.
  intros s2 r (Hk2 & Hw2 & Hl2). assert (Hw3 : same_world (view s) (view s2)) by (by apply (same_world_trans _ (view s1))).
  split_and!; [done|done|]. intros x Hr u. destruct (Hl2 x Hr) as [Hin Hout]. destruct Hw3 as [Hc _].
  rewrite Hc. change (v_clients (view s)) with (as_clients (k_app s)). fold targets.
  change (v_leases (view s2)) with (k_leases s2).
  destruct (targets !! u) as [target|] eqn:Ht.
  - apply Hin, elem_of_btree_iter, Ht.
  - cbn. rewrite Hout.
    + rewrite (Hl tt eq_refl). case_bool_decide as Hrem; [done|].
      destruct (k_leases s !! u) as [slot|] eqn:Hslot; [|done]. exfalso. apply Hrem.
      apply list_elem_of_In, filter_In. rewrite <- list_elem_of_In. split.
      * unfold btree_keys. apply list_elem_of_fmap. exists (u, slot). split; [done|]. by apply elem_of_btree_iter.
      * rewrite Ht. reflexivity.
    + intros ((u' & t) & -> & Hu')%list_elem_of_fmap. apply elem_of_btree_iter in Hu'. cbn in Ht. congruence.
Qed.

(** ** Results *)

Lemma tracks_leases v l :
  (forall u, ls_target <$> l !! u = ls_target <$> v.(v_leases) !! u) -> tracks v -> tracks (view_leases v l).
Proof. intros Hl Ht u. cbn. rewrite Hl. apply Ht. Qed.

Lemma wp_forget u s :
  owned (view s) -> released u (view s) ->
  wp (forget_usage u) s (fun s1 r => kept s1 r /\ same_world (view s) (view s1)
    /\ (forall u', ls_target <$> s1.(k_leases) !! u' = ls_target <$> s.(k_leases) !! u')
    /\ rules s1 = rules s /\ forwards s1 = forwards s).
Proof.
  intros Ho Hr. unfold forget_usage. apply wp_modify. split_and!; try done.
  - unfold kept. refine (owned_lease (view s) u (alter forget_forward u (k_leases s)) _ _ Hr Ho).
    + intros u' Hne. by rewrite lookup_alter_ne.
    + intros slot. rewrite lookup_alter_eq. destruct (k_leases s !! u); [|done]. by intros [= <-].
  - intros u'. cbn. destruct (decide (u' = u)) as [->|Hne]; [|by rewrite lookup_alter_ne].
    rewrite lookup_alter_eq. by destruct (k_leases s !! u).
Qed.

(** Deactivating and forgetting a forward. *)
Lemma wp_drop u phase s :
  owned (view s) ->
  wp (let* _ := deactivate_forward_for_usage config u phase in forget_usage u) s (fun s1 r =>
    kept s1 r /\ same_world (view s) (view s1)
    /\ forall x, r = Ok x ->
       (forall u', ls_target <$> s1.(k_leases) !! u' = ls_target <$> s.(k_leases) !! u')
       /\ rules s1 = delete u (rules s)
       /\ forall u', active_in (view s1) u' -> u' <> u /\ active_in (view s) u').
Proof.
  intros Hs. apply wp_bind, wp_deactivate_owned; [done| |].
  - intros s1 e Ho Hw. split_and!; [apply Ho|exact Hw|done].
  - intros s1 Ho Hr Hw Hl Hrules Hact. eapply wp_weaken; [|by apply wp_forget]. cbv beta.
    intros s2 r (Hk & Hw2 & Ht & Hr2 & Hf2). split_and!; [done|by apply (same_world_trans _ (view s1))|].
    intros _ _. split_and!.
    + intros u'. rewrite Ht. change (k_leases s1) with (v_leases (view s1)). by rewrite Hl.
    + rewrite Hr2. exact Hrules.
    + intros u' (f & Hf & Ha). change (v_forwards (view s2)) with (forwards s2) in Hf. rewrite Hf2 in Hf.
      assert (Hact1 : active_in (view s1) u') by (by exists f). split; [|by apply Hact].
      intros ->. by apply (released_inactive _ _ Hr).
Qed.

Lemma wp_deactivate_all l phase s :
  owned (view s) ->
  wp (each (fun u => let* _ := deactivate_forward_for_usage config u phase in forget_usage u) l) s (fun s1 r =>
    kept s1 r /\ same_world (view s) (view s1)
    /\ forall x, r = Ok x ->
       (forall u', ls_target <$> s1.(k_leases) !! u' = ls_target <$> s.(k_leases) !! u')
       /\ (forall u, rules s1 !! u = if bool_decide (u ∈ l) then None else rules s !! u)
       /\ forall u, active_in (view s1) u -> u ∉ l /\ active_in (view s) u).
Proof.
  revert s. induction l as [|u l IH]; intros s Hs.
  { split_and!; try done. intros _ _. split_and!; try done. intros u Hu. split; [apply not_elem_of_nil|done]. }
  cbn [each]. apply wp_bind. eapply wp_weaken; [|by apply wp_drop]. cbv beta.
  intros s1 [[]|e] (Hk & Hw & Hl); [|by split_and!]. eapply wp_weaken; [|apply IH, Hk]. cbv beta.
  intros s2 r (Hk2 & Hw2 & Hl2). split_and!; [done|by apply (same_world_trans _ (view s1))|].
  intros x Hr. destruct (Hl tt eq_refl) as (Ht & Hrules & Hact). destruct (Hl2 x Hr) as (Ht2 & Hrules2 & Hact2).
  split_and!.
  - intros u'. by rewrite Ht2.
  - intros u'. rewrite Hrules2, Hrules. destruct (decide (u' = u)) as [->|Hne].
    + rewrite lookup_delete_eq, (bool_decide_eq_true_2 (u ∈ u :: l)) by left. by destruct (bool_decide _).
    + rewrite lookup_delete_ne by done. rewrite (bool_decide_ext (u' ∈ u :: l) (u' ∈ l)); [done|].
      rewrite elem_of_cons. naive_solver.
  - intros u' Hu'. destruct (Hact2 u' Hu') as [Hnin Ha1]. destruct (Hact u' Ha1) as [Hne Ha].
    split; [|done]. rewrite elem_of_cons. naive_solver.
Qed.

Lemma owned_installed v v' u slot assigned d f st :
  owned v -> v.(v_leases) !! u = Some slot ->
  v'.(v_rules) = <[u := d]> v.(v_rules) \/ v'.(v_rules) = v.(v_rules) /\ slot.(ls_active_forward) = Some d ->
  d.1.2 = slot.(ls_target).(dt_address) -> d.2 = slot.(ls_target).(dt_port) ->
  f.(pf_port) = assigned -> f.(pf_target_port) = Some slot.(ls_target).(dt_port) ->
  st.(ps_dnat_installed) = true -> st.(ps_external_port) = assigned ->
  v'.(v_leases) = <[u := with_lease slot assigned (Some d)]> v.(v_leases) ->
  v'.(v_forwards) = <[u := f]> v.(v_forwards) -> v'.(v_published) = <[u := st]> v.(v_published) ->
  owned v'.
Proof.
  intros [Hs Hr Ht] Hslot Hrules Hda Hdp Hfp Hft Hst Hse Hl' Hf' Hp'. split.
  - intros u' f' Hlook Ha. rewrite Hf' in Hlook. apply lookup_insert_Some in Hlook as [[<- <-]|[Hne Hlook]].
    + exists (with_lease slot assigned (Some d)), st. rewrite Hl', Hp', !lookup_insert_eq.
      split_and!; try done; first [by eexists | congruence].
    + destruct (Hs u' f' Hlook Ha) as (slot' & st' & ? & ? & ? & ? & ? & ? & ?). exists slot', st'.
      rewrite Hl', Hp', !lookup_insert_ne by done. done.
  - intros u' d' Hd'. rewrite Hl'. destruct (decide (u' = u)) as [->|Hne].
    + rewrite lookup_insert_eq. eexists. split; [done|]. cbn.
      destruct Hrules as [Hrules|[Hrules Hact]]; rewrite Hrules in Hd'.
      * by rewrite lookup_insert_eq in Hd'.
      * destruct (Hr u d' Hd') as (slot' & ? & ?). congruence.
    + rewrite lookup_insert_ne by done. apply Hr.
      destruct Hrules as [Hrules|[Hrules _]]; rewrite Hrules in Hd'; [by rewrite lookup_insert_ne in Hd'|done].
  - intros u' slot' d'. rewrite Hl'. destruct (decide (u' = u)) as [->|Hne].
    + rewrite lookup_insert_eq. intros [= <-] [= <-]. by split.
    + rewrite lookup_insert_ne by done. apply Ht.
Qed.

(** What a turn's results leave alone: the clients, and which client each lease
    is for. *)
Definition same_targets s s1 : Prop :=
  forall u, ls_target <$> s1.(k_leases) !! u = ls_target <$> s.(k_leases) !! u.

Lemma wp_handle_mapping public_ip u slot mapping s :
  owned (view s) -> s.(k_leases) !! u = Some slot ->
  wp (handle_mapping config public_ip u slot mapping) s (fun s1 r =>
    kept s1 r /\ same_world (view s) (view s1) /\ same_targets s s1).
Proof.
  intros Hs Hslot. unfold handle_mapping. apply wp_bind, wp_gets. cbv beta iota.
  set (desired := tunnel_dnat mapping (ls_target slot)).
  set (required := dnat_install_required _ _ _).
  apply wp_bind, wp_now. intros s1 now Hv1. apply wp_bind. cbv beta.
  pose (done_with := fun (b : bool) s2 =>
    view s2 = view_rules (view s) (if required then <[u := desired]> (rules s) else rules s)).
  assert (Hok : forall s2, done_with true s2 ->
    wp (let* _ := update_leases (insert u (with_lease slot (Some (mp_external_port mapping))
                    (if required then Some desired else ls_active_forward slot))) in
        let* _ := update_forwards (insert u (active_forward slot mapping public_ip now)) in
        let* _ := mutate (publish_installed u slot mapping
           (negb (bool_decide (ls_active_forward slot = Some desired))
            || match ls_assigned_external slot with
               | Some port => negb (port =? mp_external_port mapping)%N
               | None => false
               end) now) in
        if match ls_assigned_external slot with
           | Some port => negb (port =? mp_external_port mapping)%N
           | None => false
           end
        then emit ("port_forward." +:+ u) "port_forward.port_changed"
               "The provider assigned a different forwarded port"
        else ret tt) s2 (fun s3 r => kept s3 r /\ same_world (view s) (view s3) /\ same_targets s s3)).
  { intros s2 Hv2. unfold done_with in Hv2. apply wp_bind, wp_modify, wp_bind, wp_modify, wp_bind, wp_mutate.
    intros s3 Hv3. cbv beta iota.
    apply keeper_wp_quiet; [destruct (match ls_assigned_external slot with Some _ => _ | None => _ end); done|].
    intros s4 r Hv4.
    assert (Hforward : (if required then Some desired else ls_active_forward slot) = Some desired).
    { unfold required, dnat_install_required. case_bool_decide as Hact; [|done]. cbn. by destruct (dnat_is_applied _ _ _). }
    assert (Hv : owned (view s4)).
    { rewrite Hv4, Hv3.
      eapply (owned_installed (view s) _ u slot (Some (mp_external_port mapping)) desired
                (active_forward slot mapping public_ip now) (installed_status slot mapping now _)); try reflexivity; try done.
      - change (rules s2 = <[u := desired]> (rules s)
                \/ rules s2 = rules s /\ ls_active_forward slot = Some desired).
        pose proof (f_equal v_rules Hv2) as Hr2. cbn in Hr2. rewrite Hr2.
        clear Hv2 Hr2 Hv3 Hv4. destruct required; [by left|by right].
      - change (<[u := with_lease slot (Some (mp_external_port mapping))
                        (if required then Some desired else ls_active_forward slot)]> (v_leases (view s2))
                = <[u := with_lease slot (Some (mp_external_port mapping)) (Some desired)]> (v_leases (view s))).
        rewrite Hforward. f_equal. exact (f_equal v_leases Hv2).
      - change (<[u := active_forward slot mapping public_ip now]> (v_forwards (view s2))
                = <[u := active_forward slot mapping public_ip now]> (v_forwards (view s))).
        f_equal. exact (f_equal v_forwards Hv2).
      - exact (f_equal (fun v => insert u _ v.(v_published)) Hv2). }
    split_and!.
    - destruct r; [exact Hv|apply Hv].
    - rewrite Hv4, Hv3. split; [exact (f_equal v_clients Hv2)|exact (f_equal v_tunnel Hv2)].
    - intros u'. change (k_leases s4) with (v_leases (view s4)). rewrite Hv4, Hv3. cbn.
      change (k_leases s2) with (v_leases (view s2)). rewrite Hv2. cbn.
      destruct (decide (u' = u)) as [->|Hne]; [by rewrite lookup_insert_eq, Hslot|by rewrite lookup_insert_ne]. }
  assert (Hstop : forall s2 r2, view s2 = view s -> kept (A := unit) s2 r2 /\ same_world (view s) (view s2) /\ same_targets s s2).
  { intros s2 r2 Hv2. split_and!.
    - unfold kept. rewrite Hv2. destruct r2; [done|apply Hs].
    - by rewrite Hv2.
    - intros u'. change (k_leases s2) with (v_leases (view s2)). by rewrite Hv2. }
  destruct required eqn:Hreq.
  - apply wp_set.
    + intros s2 Hv2. apply Hstop. exact (eq_trans Hv2 Hv1).
    + intros s2 r Hv2 Hr. rewrite Hv1 in Hv2. destruct r as [[|]|e]; [|done|].
      * apply Hok. unfold done_with. rewrite Hv2. f_equal. f_equal. exact (f_equal v_rules Hv1).
      * split_and!.
        -- unfold kept. rewrite Hv2. apply shown_rules, Hs.
        -- by rewrite Hv2.
        -- intros u'. change (k_leases s2) with (v_leases (view s2)). by rewrite Hv2.
  - unfold ret, wp at 1. cbn [fst snd negb]. apply Hok. unfold done_with. rewrite Hv1. reflexivity.
Qed.

Lemma wp_record_error usage_id error s (Q : Keeper -> Result unit string -> Prop) :
  owned (view s) ->
  (forall s1, owned (view s1) -> same_world (view s) (view s1) -> s1.(k_leases) = s.(k_leases) ->
     rules s1 = rules s -> (forall u, active_in (view s1) u -> active_in (view s) u) -> Q s1 (Ok tt)) ->
  wp (record_port_error usage_id error) s Q.
Proof.
  intros Hs HQ. unfold record_port_error. destruct usage_id as [u|]; apply wp_bind; cbv beta iota.
  - apply wp_modify, wp_modify.
    assert (Hf : forall u' a, upsert port_forward_default not_active u (forwards s) !! u' = Some a ->
              a.(pf_active) = true -> forwards s !! u' = Some a).
    { intros u' a Hup Ha. unfold upsert in Hup. apply lookup_insert_Some in Hup as [[_ <-]|[_ Hl]]; [discriminate Ha|exact Hl]. }
    apply HQ; try done.
    + exact (owned_forwards (view s) _ Hf Hs).
    + intros u' (f & Hl & Ha). exists f. split; [by apply Hf|done].
  - unfold ret, wp at 1. cbn [fst snd]. apply wp_modify. apply HQ; done.
Qed.

Lemma wp_handle_result public_ip u result s :
  owned (view s) -> is_Some (s.(k_leases) !! u) ->
  wp (handle_result config public_ip (u, result)) s (fun s1 r =>
    kept s1 r /\ same_world (view s) (view s1) /\ (forall x, r = Ok x -> same_targets s s1)).
Proof.
  intros Hs [slot Hslot]. unfold handle_result. destruct result as [mapping|error].
  - apply wp_bind, wp_gets, wp_bind, wp_lift. rewrite Hslot. cbv beta iota delta [ok_or].
    eapply wp_weaken; [|by apply wp_handle_mapping]. cbv beta. intros s1 r (? & ? & ?). by split_and!.
  - apply wp_bind, wp_record_error; [done|]. intros s1 Ho Hw Hl Hr _.
    eapply wp_weaken; [|by apply wp_drop]. cbv beta. intros s2 r (Hk & Hw2 & Hok).
    split_and!; [done|by apply (same_world_trans _ (view s1))|]. intros x Hx u'.
    destruct (Hok x Hx) as (Ht & _). by rewrite Ht, Hl.
Qed.

Lemma keeper_quiet_bind {A B} (m : K A) (f : A -> K B) : quiet m -> (forall a, quiet (f a)) -> quiet (bind m f).
Proof.
  intros Hm Hf s. specialize (Hm s). unfold bind. destruct (m s) as [s1 [a|e]]; [|done].
  rewrite (Hf a s1). exact Hm.
Qed.

Lemma quiet_installed : quiet observe_installed_forwards.
Proof.
  apply keeper_quiet_bind; [done|]. intros app. apply keeper_quiet_bind; [apply quiet_observe|]. intros _. apply quiet_observe.
Qed.

Lemma wp_renew public_ip s :
  owned (view s) ->
  wp (renew_leases config public_ip) s (fun s1 r =>
    kept s1 r /\ same_world (view s) (view s1) /\ (forall x, r = Ok x -> same_targets s s1)).
Proof.
  intros Hs. unfold renew_leases. apply wp_bind, wp_gets, wp_bind, wp_gets, wp_bind, wp_now. intros s1 now Hv1.
  cbv beta iota zeta. apply wp_bind.
  pose (I := fun s2 => owned (view s2) /\ same_world (view s) (view s2) /\ same_targets s s2).
  pose (E := fun s2 => shown (view s2) /\ same_world (view s) (view s2)).
  eapply wp_weaken; [|apply (wp_each _ _ _ I E)].
  - cbv beta. intros s2 [[]|e] H2s.
    + destruct H2s as (Ho & Hw & Ht). apply wp_bind, keeper_wp_quiet; [apply quiet_primary|]. intros s3 [[]|e] Hv3.
      * apply keeper_wp_quiet; [apply quiet_installed|intros s4 r Hv4].
        rewrite Hv3 in Hv4. unfold kept, same_targets.
        change (forall x, r = Ok x -> _) with
          (forall x, r = Ok x -> forall u, ls_target <$> v_leases (view s4) !! u = ls_target <$> k_leases s !! u).
        rewrite Hv4. split_and!; [destruct r; [done|apply Ho]|done|intros _ _; exact Ht].
      * unfold kept, same_targets. rewrite Hv3. split_and!; [apply Ho|done|done].
    + destruct H2s as (Ho & Hw). by split_and!.
  - intros [u result] s2 Hin (Ho & Hw & Ht). apply list_elem_of_fmap in Hin as ([u' slot] & Heq & Hin).
    injection Heq as -> ->. apply elem_of_btree_iter in Hin.
    assert (Hsome : is_Some (k_leases s2 !! u')).
    { specialize (Ht u'). rewrite Hin in Ht. destruct (k_leases s2 !! u'); [by eexists|done]. }
    eapply wp_weaken; [|by apply wp_handle_result]. cbv beta. intros s3 r (Hk & Hw3 & Ht3).
    pose proof (same_world_trans _ _ _ Hw Hw3) as Hw'. destruct r as [[]|e].
    + split_and!; [done|done|]. intros u. by rewrite (Ht3 tt eq_refl u).
    + by split.
  - unfold I. rewrite Hv1. split_and!; try done. intros u. change (k_leases s1) with (v_leases (view s1)).
    by rewrite Hv1.
Qed.

(** ** A turn *)

Definition tunnel_up s : bool := s.(k_app).(as_tunnel).(tn_up).

(** Every rule and every active forward has a lease: without leases there are
    none. *)
Definition closed (v : View) : Prop := v.(v_rules) = ∅ /\ forall u, ~ active_in v u.

Lemma wp_deactivate_everything phase s :
  owned (view s) ->
  wp (deactivate_all_forwards config phase) s (fun s1 r =>
    kept s1 r /\ same_world (view s) (view s1) /\ (forall x, r = Ok x -> same_targets s s1 /\ closed (view s1))).
Proof.
  intros Hs. unfold deactivate_all_forwards. apply wp_bind, wp_gets.
  eapply wp_weaken; [|by apply wp_deactivate_all]. cbv beta. intros s1 r (Hk & Hw & Hok).
  split_and!; [done|done|]. intros x Hx. destruct (Hok x Hx) as (Ht & Hrules & Hact). split; [exact Ht|].
  assert (Hkeys : forall u slot, k_leases s !! u = Some slot -> u ∈ btree_keys String.leb (k_leases s)).
  { intros u slot Hu. apply list_elem_of_fmap. exists (u, slot). split; [done|]. by apply elem_of_btree_iter. }
  split.
  - apply map_empty. intros u. change (v_rules (view s1)) with (rules s1). rewrite Hrules.
    case_bool_decide as Hin; [done|]. destruct (rules s !! u) as [d|] eqn:Hd; [|done].
    destruct (owned_rule _ Hs u d Hd) as (slot & Hslot & _). by destruct (Hin (Hkeys u slot Hslot)).
  - intros u Hu. destruct (Hact u Hu) as [Hnin (f & Hf & Ha)].
    destruct (owned_shown _ Hs u f Hf Ha) as (slot & _ & Hslot & _). by destruct (Hnin (Hkeys u slot Hslot)).
Qed.

(** The gateway answers with its public address. *)
Definition public_address s : Result Ipv4Addr NatPmp.Error :=
  settled (external_address (client config) (address_network s.(k_asked))).

Lemma wp_turn s :
  owned (view s) ->
  wp (turn config) s (fun s1 r =>
    kept s1 r /\ same_world (view s) (view s1)
    /\ forall x, r = Ok x -> if tunnel_up s then tracks (view s1) else closed (view s1)).
Proof.
  intros Hs. unfold turn. apply wp_bind, wp_gets. cbv beta iota.
  fold (tunnel_up s). destruct (tunnel_up s); cbn [negb].
  - apply wp_bind. eapply wp_weaken; [|by apply wp_reconcile]. cbv beta.
    intros s1 [[]|e] (Hk & Hw & Htr); [|by split_and!]. specialize (Htr tt eq_refl). cbn in Hk.
    assert (Htracks : forall s2, same_targets s1 s2 -> same_world (view s1) (view s2) -> tracks (view s2)).
    { intros s2 Ht [Hc _] u. rewrite Hc, <- (Htr u). exact (Ht u). }
    apply wp_bind, wp_gets. destruct (size (k_leases s1) =? 0)%nat.
    + apply keeper_wp_quiet; [apply quiet_primary|]. intros s2 r Hv2. unfold kept. rewrite Hv2.
      split_and!; [destruct r; [done|apply Hk]|done|done].
    + apply wp_bind, wp_gets, wp_bind, wp_now. intros s2 now Hv2. cbv beta iota.
      assert (Ho2 : owned (view s2)) by (by rewrite Hv2).
      assert (Ht2 : same_targets s1 s2).
      { intros u. change (k_leases s2) with (v_leases (view s2)). by rewrite Hv2. }
      assert (Hw2 : same_world (view s1) (view s2)) by (by rewrite Hv2).
      assert (Hend : forall s3 (r : Result unit string), kept s3 r -> same_world (view s2) (view s3) ->
                (forall x, r = Ok x -> same_targets s2 s3) ->
                kept s3 r /\ same_world (view s) (view s3) /\ forall x, r = Ok x -> tracks (view s3)).
      { intros s3 r Hk3 Hw3 Ht3. pose proof (same_world_trans _ _ _ Hw2 Hw3) as Hw13.
        split_and!; [done|by apply (same_world_trans _ (view s1))|]. intros x Hx. apply Htracks; [|done].
        intros u. by rewrite (Ht3 x Hx u). }
      destruct (settled _) as [public_ip|error].
      * eapply wp_weaken; [|by apply wp_renew]. cbv beta. intros s3 r (Hk3 & Hw3 & Ht3). by apply Hend.
      * apply wp_bind, wp_record_error; [done|]. intros s3 Ho3 Hw3 Hl3 _ _.
        eapply wp_weaken; [|by apply wp_deactivate_everything]. cbv beta. intros s4 r (Hk4 & Hw4 & Ht4).
        apply Hend; [done|by apply (same_world_trans _ (view s3))|]. intros x Hx u.
        destruct (Ht4 x Hx) as [Ht _]. by rewrite (Ht u), Hl3.
  - eapply wp_weaken; [|by apply wp_deactivate_everything]. cbv beta. intros s1 r (Hk & Hw & Ht).
    split_and!; [done|done|]. intros x Hx. by destruct (Ht x Hx).
Qed.

(** ** Runs *)

Definition keeps_forwards (app app' : AppState) : Prop := app'.(as_port_forwards) = app.(as_port_forwards).

(** An operation of another task on the coordinator; only the keeper installs
    rules. *)
Definition installs_nothing (o : EnforcementProps.Op) : bool :=
  match o with EnforcementProps.SetDnat _ _ _ _ => false | _ => true end.

Definition with_policy (p : DesiredPolicy) s : Keeper :=
  {| k_app := s.(k_app); k_publisher := s.(k_publisher); k_policy := p; k_leases := s.(k_leases);
     k_asked := s.(k_asked) |}.

Definition keeper_start (app : AppState) (publisher : StatePublisher) : Keeper :=
  {| k_app := set_port_forwards ∅ app; k_publisher := publisher; k_policy := DesiredPolicy_default;
     k_leases := ∅; k_asked := 0 |}.

(** The keeper's turns that end well (a failed one ends the gateway), and
    between them what the other tasks do: clients and tunnel change, the
    coordinator is used, checks are published, forwards are invalidated. *)
Inductive keeper_reachable : Keeper -> Prop :=
| reach_start app publisher : keeper_reachable (keeper_start app publisher)
| reach_turn s s1 : keeper_reachable s -> turn config s = (s1, Ok tt) -> keeper_reachable s1
| reach_app s app : keeper_reachable s -> keeps_forwards s.(k_app) app -> keeper_reachable (with_app app s)
| reach_policy s o :
    keeper_reachable s -> installs_nothing o = true ->
    keeper_reachable (with_policy (EnforcementProps.run_op config o s.(k_policy)).1 s)
| reach_publisher s publisher :
    keeper_reachable s ->
    publisher.(sp_inner).(sn_port_forwards) = s.(k_publisher).(sp_inner).(sn_port_forwards) ->
    keeper_reachable (with_publisher publisher s)
| reach_invalid s phase :
    keeper_reachable s -> keeper_reachable (invalidate_published_forward phase s).1.

Lemma owned_fewer_rules v r : r ⊆ v.(v_rules) -> owned v -> owned (view_rules v r).
Proof.
  intros Hsub [Hs Hr Ht]. split; [done| |done]. intros u d Hd. apply Hr. by apply (lookup_weaken r).
Qed.

Lemma intends_fewer o p :
  installs_nothing o = true -> (EnforcementProps.run_op config o p).1.(desired_dnat) ⊆ p.(desired_dnat).
Proof.
  intros Ho. destruct (EnforcementProps.run_op config o p) as [p' r] eqn:Hrun.
  apply run_op_recorded in Hrun as (Hd & _). apply (f_equal snd) in Hd. cbn [fst snd] in Hd |- *.
  rewrite Hd. destruct o; try discriminate Ho; cbn; try reflexivity.
  - apply map_empty_subseteq.
  - apply delete_subseteq.
  - destruct (observe_kernel_locked _ _ _).2; [|reflexivity]. apply map_filter_subseteq.
Qed.

Lemma invalidated_inactive phase s u f :
  forwards (invalidate_published_forward phase s).1 !! u = Some f -> f.(pf_active) = false.
Proof.
  change (forwards (invalidate_published_forward phase s).1) with (inactive <$> forwards s).
  rewrite lookup_fmap. destruct (forwards s !! u); [|done]. by intros [= <-].
Qed.

Lemma reachable_owned s : keeper_reachable s -> owned (view s).
Proof.
  induction 1 as [app publisher|s s1 _ IH Hturn|s app _ IH Hf|s o _ IH Ho|s publisher _ IH Hp|s phase _ IH].
  - split.
    + intros u f. cbn. by rewrite lookup_empty.
    + intros u d. cbn. by rewrite lookup_empty.
    + intros u slot d. cbn. by rewrite lookup_empty.
  - pose proof (wp_turn s IH) as Hw. unfold wp in Hw. rewrite Hturn in Hw. apply Hw.
  - destruct IH as [Hs Hr Ht]. split; [|done|done]. intros u f Hu. apply Hs. cbn in Hu |- *.
    unfold forwards in *. cbn in Hu. by rewrite Hf in Hu.
  - exact (owned_fewer_rules (view s) _ (intends_fewer o _ Ho) IH).
  - replace (view (with_publisher publisher s)) with (view s); [done|].
    unfold view, published. cbn. by rewrite Hp.
  - destruct IH as [Hs Hr Ht]. split; [|done|done]. intros u f Hu Ha.
    rewrite (invalidated_inactive phase s u f Hu) in Ha. discriminate Ha.
Qed.


(** a turn does what it is for.  When a turn ends well with the tunnel up,
    the leases are exactly those of the compliant clients that ask for a port,
    with their current address and port; with the tunnel down no rule is asked
    for and no forward is shown as active.  Whatever fails, a forward that is
    still shown as active has its lease. *)
Theorem turn_follows_clients s s1 r :
  keeper_reachable s -> turn config s = (s1, r) ->
  match r with
  | Ok _ => if tunnel_up s then tracks (view s1) else closed (view s1)
  | Err _ => shown (view s1)
  end.
Proof.
  intros Hs%reachable_owned Hturn. pose proof (wp_turn s Hs) as Hw. unfold wp in Hw. rewrite Hturn in Hw.
  destruct Hw as (Hk & _ & Hok). destruct r as [x|e]; [by apply (Hok x)|exact Hk].
Qed.
End keeper.

(** ** A run *)

#[local] Existing Instance CidrNet.crate.

#[local] Instance example_gateway : KeeperEnv := {|
  nft_at _ := example_nft;
  clock n := (1000 * N.of_nat n)%N;
  address_network _ n := match n with O => Received [0; 128; 0; 0; 0; 0; 0; 7; 203; 0; 113; 9]%N | _ => Elapsed end;
  udp_network _ _ := sample_net Udp;
  tcp_network _ _ _ := sample_net Tcp;
|}.

Definition example_app : AppState :=
  {| as_tunnel := {| tn_up := true; tn_interface := "wg0"; tn_latest_handshake_unix := None |};
     as_traffic := traffic_default; as_port_forward := port_forward_default; as_port_forwards := ∅;
     as_clients := example_clients; as_last_error := None |}.

Definition run_on (o : EnforcementProps.Op) (s : Keeper) : Keeper :=
  with_policy (EnforcementProps.run_op example_config o s.(k_policy)).1 s.

Definition example_before : Keeper :=
  run_on (ReconcileClients example_clients example_nft example_nft)
    (run_on EnableDnat (keeper_start example_app (publisher_new snapshot_default))).

Definition example_after : Keeper := (turn example_config example_before).1.

Lemma example_before_reachable : keeper_reachable example_config example_before.
Proof. apply reach_policy; [|reflexivity]. apply reach_policy; [|reflexivity]. apply reach_start. Qed.

Lemma example_turn : turn example_config example_before = (example_after, Ok tt).
Proof.
  assert (Hok : match (turn example_config example_before).2 with Ok _ => true | Err _ => false end = true)
    by (vm_compute; reflexivity).
  unfold example_after. destruct (turn example_config example_before) as [s1 [[]|e]]; [reflexivity|discriminate Hok].
Qed.


Lemma turn_follows_clients_witness :
  tunnel_up example_before = true /\ tracks (view example_after).
Proof.
  split; [reflexivity|].
  exact (turn_follows_clients example_config _ _ _ example_before_reachable example_turn).
Defined.
