(* ===== verification/TunnelMonitor.v ===== *)
(** The tunnel monitor (monitor_tunnel of src/src/runtime.rs): the traffic
    counters of the interface, whether the tunnel is up, and its recovery.

    A turn of the loop is a computation on [Monitor], which joins the state
    shared with the lease keeper, the profile manager and the loop's own
    variables.  The coordinator's policy is the keeper's: an operation of the
    manager works on it.  The wait for the tick only lets the other tasks run. *)

From S2P Require Import Prelude RustStr Net BTree State Domain Float64 Config Control Machine StateErr WireGuard Profiles Enforcement Routes ProfileManager LeaseKeeper.

(** ** Rates: binary64 arithmetic *)


(** [Duration] *)
Record Duration : Type := { du_secs : N; du_nanos : N }.

(** [Duration::as_secs_f64] *)
Definition as_secs_f64 (d : Duration) : f64 :=
  Binary64.add (Binary64.of_N d.(du_secs))
    (Binary64.div (Binary64.of_N d.(du_nanos)) (Binary64.of_N 1000000000)).

Definition calculate_rates (previous current : N * N) (elapsed : Duration) : N * N :=
  let elapsed := as_secs_f64 elapsed in
  if Binary64.le_zero elapsed then (0, 0)%N
  else
    let rate before now :=
      Binary64.round_u64 (Binary64.div (Binary64.of_N (saturating_sub now before)) elapsed) in
    (rate previous.1 current.1, rate previous.2 current.2).

(** ** Samples of a client's traffic *)

Definition CLIENT_TRAFFIC_HISTORY_CAPACITY : nat := 120.

Definition sample_changed (traffic : ClientTrafficState) : bool :=
  match list.last traffic.(ct_history) with
  | None => true
  | Some sample =>
      negb (sample.(cs_downloaded_bytes) =? traffic.(ct_downloaded_bytes))%N
      || negb (sample.(cs_uploaded_bytes) =? traffic.(ct_uploaded_bytes))%N
  end.

Definition record_client_traffic_sample (traffic : ClientTrafficState) (now : N) : ClientTrafficState :=
  if sample_changed traffic then
    let kept :=
      if (length traffic.(ct_history) =? CLIENT_TRAFFIC_HISTORY_CAPACITY)%nat
      then tail traffic.(ct_history) else traffic.(ct_history) in
    {| ct_download_packets := traffic.(ct_download_packets);
       ct_downloaded_bytes := traffic.(ct_downloaded_bytes);
       ct_upload_packets := traffic.(ct_upload_packets);
       ct_uploaded_bytes := traffic.(ct_uploaded_bytes);
       ct_sampled_at_unix_ms := traffic.(ct_sampled_at_unix_ms);
       ct_history := kept ++ [{| cs_sampled_at_unix_ms := now;
                                 cs_downloaded_bytes := traffic.(ct_downloaded_bytes);
                                 cs_uploaded_bytes := traffic.(ct_uploaded_bytes) |}] |}
  else traffic.

(** The totals of the coordinator in a client, with a sample. *)
Definition with_totals (now : N) (totals : ClientCounterTotals) (client : ClientState) : ClientState :=
  {| cl_container_id := client.(cl_container_id); cl_usage_id := client.(cl_usage_id);
     cl_usage_id_source := client.(cl_usage_id_source); cl_name := client.(cl_name);
     cl_ipv4_address := client.(cl_ipv4_address);
     cl_port_forward_target := client.(cl_port_forward_target);
     cl_target_port := client.(cl_target_port); cl_compliant := client.(cl_compliant);
     cl_compliance_message := client.(cl_compliance_message); cl_running := client.(cl_running);
     cl_ipv6_address := client.(cl_ipv6_address); cl_networks := client.(cl_networks);
     cl_port_forward_label_valid := client.(cl_port_forward_label_valid);
     cl_route_intent := client.(cl_route_intent);
     cl_traffic := record_client_traffic_sample
       {| ct_download_packets := totals.(tot_download_packets);
          ct_downloaded_bytes := totals.(tot_downloaded_bytes);
          ct_upload_packets := totals.(tot_upload_packets);
          ct_uploaded_bytes := totals.(tot_uploaded_bytes);
          ct_sampled_at_unix_ms := Some now;
          ct_history := client.(cl_traffic).(ct_history) |} now |}.

(** The loop over the counters of [monitor_client_traffic]. *)
Definition sample_clients (now : N) (counters : gmap string ClientCounterTotals)
    (clients : gmap string ClientState) : gmap string ClientState :=
  foldl (fun m '(id, totals) => alter (with_totals now totals) id m) clients (btree_iter String.leb counters).

(** ** The state *)

(** The variables of the loop. *)
Record Loop : Type := {
  lo_previous_counters : option ((N * N) * N);
  lo_samples_since_handshake : N;
  lo_tunnel_failures : N;
  lo_recovery_attempt : N;
  lo_tunnel_successes : N;
}.

Definition loop_start : Loop :=
  {| lo_previous_counters := None; lo_samples_since_handshake := 10; lo_tunnel_failures := 0;
     lo_recovery_attempt := 0; lo_tunnel_successes := 0 |}.

(** The clocks of the loop, and random numbers in [0..=bound]. *)
Class MonitorEnv : Type := {
  instant : nat -> N;
  random_upto : nat -> N -> N;
}.

Section monitor.
Context `{!IpNetCrate, !Env, !ProfileFiles, !KeeperEnv, !MonitorEnv} (config : Config).

Record Monitor : Type := {
  mo_keeper : Keeper;
  mo_profiles : Manager;
  mo_loop : Loop;
  mo_port_changes : N;
}.

Definition Mon (A : Type) : Type := St Monitor A.

Definition set_keeper (k : Keeper) (s : Monitor) : Monitor :=
  {| mo_keeper := k; mo_profiles := s.(mo_profiles); mo_loop := s.(mo_loop);
     mo_port_changes := s.(mo_port_changes) |}.
Definition set_loop (l : Loop) (s : Monitor) : Monitor :=
  {| mo_keeper := s.(mo_keeper); mo_profiles := s.(mo_profiles); mo_loop := l;
     mo_port_changes := s.(mo_port_changes) |}.

Definition on_keeper {A} (m : K A) : Mon A := fun s =>
  (set_keeper (m s.(mo_keeper)).1 s, (m s.(mo_keeper)).2).

Definition keeper_policy (policy : DesiredPolicy) (k : Keeper) : Keeper :=
  {| k_app := k.(k_app); k_publisher := k.(k_publisher); k_policy := policy; k_leases := k.(k_leases);
     k_asked := k.(k_asked) |}.

(** An operation of the manager, on the shared policy. *)
Definition on_manager {A} (m : M A) : Mon A := fun s =>
  let '(profiles, result) := m (set_policy s.(mo_keeper).(k_policy) s.(mo_profiles)) in
  ({| mo_keeper := keeper_policy profiles.(m_policy) s.(mo_keeper); mo_profiles := profiles;
      mo_loop := s.(mo_loop); mo_port_changes := s.(mo_port_changes) |}, result).

Definition notify_port_change : Mon unit := modify (fun s =>
  {| mo_keeper := s.(mo_keeper); mo_profiles := s.(mo_profiles); mo_loop := s.(mo_loop);
     mo_port_changes := wrapping_add 64 s.(mo_port_changes) 1 |}).

Definition update_app (f : AppState -> AppState) : Mon unit :=
  on_keeper (modify (fun k => with_app (f k.(k_app)) k)).

Definition now_instant : Mon N := fun s => on_keeper (fun k => (ask k, Ok (instant k.(k_asked)))) s.
Definition random (bound : N) : Mon N := fun s =>
  on_keeper (fun k => (ask k, Ok (random_upto k.(k_asked) bound))) s.

Definition report (id : string) (status : CheckStatus) (impact : Impact) (reason_code message : string)
    (recovery_attempt : option N) : Mon unit :=
  on_keeper (LeaseKeeper.observe
    {| ob_id := id; ob_status := status; ob_impact := impact; ob_reason_code := reason_code;
       ob_safe_message := message; ob_next_attempt_at_unix_ms := None;
       ob_recovery_attempt := recovery_attempt |}).

(** ** What the interface tells *)

Definition counter_file (interface name : string) : Gateway N :=
  step text := file_op (ReadFile ("/sys/class/net/" +:+ interface +:+ "/statistics/" +:+ name)) in
  match parse_u64 (trim text) with
  | Some n => gw_ret n
  | None => gw_fail ("parsing WireGuard " +:+ name)
  end.

Definition read_interface_counters (interface : string) : Gateway (N * N) :=
  step rx := counter_file interface "rx_bytes" in
  step tx := counter_file interface "tx_bytes" in
  gw_ret (rx, tx).

Definition latest_of (values : list N) : option N :=
  foldl (fun best n => Some (match best with Some b => N.max b n | None => n end)) None values.

Definition handshake_of (output : string) : option N :=
  latest_of (omap parse_u64 (omap (fun line => split_whitespace line !! 1%nat) (lines output))).

Definition wireguard_handshake (interface : string) : Gateway (option N) :=
  step r := perform (RunProgram "wg" ["show"; interface; "latest-handshakes"]) in
  match r with
  | NotRun e => gw_fail e
  | Failed stderr => gw_fail ("wg show failed: " +:+ trim stderr)
  | Done output => gw_ret (handshake_of output)
  end.

(** ** The loop's variables *)

Definition update_loop (f : Loop -> Loop) : Mon unit := modify (fun s => set_loop (f s.(mo_loop)) s).

Definition with_previous (previous : option ((N * N) * N)) (l : Loop) : Loop :=
  {| lo_previous_counters := previous; lo_samples_since_handshake := l.(lo_samples_since_handshake);
     lo_tunnel_failures := l.(lo_tunnel_failures); lo_recovery_attempt := l.(lo_recovery_attempt);
     lo_tunnel_successes := l.(lo_tunnel_successes) |}.
Definition with_samples (samples : N) (l : Loop) : Loop :=
  {| lo_previous_counters := l.(lo_previous_counters); lo_samples_since_handshake := samples;
     lo_tunnel_failures := l.(lo_tunnel_failures); lo_recovery_attempt := l.(lo_recovery_attempt);
     lo_tunnel_successes := l.(lo_tunnel_successes) |}.
Definition with_failures (failures : N) (l : Loop) : Loop :=
  {| lo_previous_counters := l.(lo_previous_counters);
     lo_samples_since_handshake := l.(lo_samples_since_handshake);
     lo_tunnel_failures := failures; lo_recovery_attempt := l.(lo_recovery_attempt);
     lo_tunnel_successes := l.(lo_tunnel_successes) |}.
Definition with_attempt (attempt : N) (l : Loop) : Loop :=
  {| lo_previous_counters := l.(lo_previous_counters);
     lo_samples_since_handshake := l.(lo_samples_since_handshake);
     lo_tunnel_failures := l.(lo_tunnel_failures); lo_recovery_attempt := attempt;
     lo_tunnel_successes := l.(lo_tunnel_successes) |}.
Definition with_successes (successes : N) (l : Loop) : Loop :=
  {| lo_previous_counters := l.(lo_previous_counters);
     lo_samples_since_handshake := l.(lo_samples_since_handshake);
     lo_tunnel_failures := l.(lo_tunnel_failures); lo_recovery_attempt := l.(lo_recovery_attempt);
     lo_tunnel_successes := successes |}.

(** A sample without a recent handshake. *)
Definition one_failure (l : Loop) : Loop :=
  with_successes 0 (with_failures (saturating_add u32_MAX l.(lo_tunnel_failures) 1) l).
Definition one_success (l : Loop) : Loop :=
  with_successes (saturating_add u32_MAX l.(lo_tunnel_successes) 1) (with_failures 0 l).

(** ** The traffic *)

Definition with_traffic (traffic : TrafficState) (app : AppState) : AppState :=
  {| as_tunnel := app.(as_tunnel); as_traffic := traffic; as_port_forward := app.(as_port_forward);
     as_port_forwards := app.(as_port_forwards); as_clients := app.(as_clients);
     as_last_error := app.(as_last_error) |}.

Definition publish_traffic (traffic : TrafficState) (s : CanonicalSnapshot) : CanonicalSnapshot :=
  {| sn_schema_version := s.(sn_schema_version); sn_sequence := s.(sn_sequence);
     sn_generated_at_unix_ms := s.(sn_generated_at_unix_ms); sn_protection := s.(sn_protection);
     sn_availability := s.(sn_availability); sn_checks := s.(sn_checks);
     sn_transitions := s.(sn_transitions); sn_port_forward := s.(sn_port_forward);
     sn_port_forwards := s.(sn_port_forwards); sn_recovery := s.(sn_recovery);
     sn_external_probe := s.(sn_external_probe); sn_external_probes := s.(sn_external_probes);
     sn_vpn_server := s.(sn_vpn_server); sn_isolation_policy := s.(sn_isolation_policy);
     sn_host_policy := s.(sn_host_policy); sn_topology := s.(sn_topology); sn_clients := s.(sn_clients);
     sn_traffic := traffic;
     sn_last_client_path_success_at_unix_ms := s.(sn_last_client_path_success_at_unix_ms);
     sn_profile_management := s.(sn_profile_management) |}.

Definition duration_between (earlier later : N) : Duration :=
  let nanos := saturating_sub later earlier in
  {| du_secs := nanos / 1000000000; du_nanos := nanos mod 1000000000 |}.

(** An [Instant] is its nanoseconds. *)
Definition rates_since (previous : option ((N * N) * N)) (counters : N * N) (now : N) : N * N :=
  match previous with
  | Some (before, sampled_at) => calculate_rates before counters (duration_between sampled_at now)
  | None => (0, 0)%N
  end.

Definition sample_traffic : Mon unit :=
  let* counters := attempt (on_manager (run (read_interface_counters config.(c_wireguard).(wc_interface)))) in
  match counters with
  | Ok counters =>
      let* now := now_instant in
      let* ms := on_keeper unix_ms in
      let* l := gets mo_loop in
      let rates := rates_since l.(lo_previous_counters) counters now in
      let* _ := update_loop (with_previous (Some (counters, now))) in
      let traffic :=
        {| tr_download_bytes_per_second := rates.1; tr_upload_bytes_per_second := rates.2;
           tr_downloaded_bytes := counters.1; tr_uploaded_bytes := counters.2;
           tr_sampled_at_unix_ms := Some ms |} in
      let* _ := update_app (with_traffic traffic) in
      let* _ := on_keeper (LeaseKeeper.mutate (publish_traffic traffic)) in
      report "wireguard.traffic" Healthy Advisory "wireguard.counters_sampled"
        "WireGuard traffic counters were sampled" None
  | Err _ =>
      report "wireguard.traffic" Degraded Advisory "wireguard.counters_unavailable"
        "WireGuard traffic counters are unavailable" None
  end.

(** ** The handshake *)

Definition with_tunnel (up : bool) (handshake : option N) (app : AppState) : AppState :=
  {| as_tunnel := {| tn_up := up; tn_interface := app.(as_tunnel).(tn_interface);
                     tn_latest_handshake_unix := handshake |};
     as_traffic := app.(as_traffic); as_port_forward := app.(as_port_forward);
     as_port_forwards := app.(as_port_forwards); as_clients := app.(as_clients);
     as_last_error := app.(as_last_error) |}.

Definition tunnel_down (app : AppState) : AppState :=
  with_tunnel false app.(as_tunnel).(tn_latest_handshake_unix) app.

Definition publish_recovery (recovery : RecoveryStatus) (s : CanonicalSnapshot) : CanonicalSnapshot :=
  {| sn_schema_version := s.(sn_schema_version); sn_sequence := s.(sn_sequence);
     sn_generated_at_unix_ms := s.(sn_generated_at_unix_ms); sn_protection := s.(sn_protection);
     sn_availability := s.(sn_availability); sn_checks := s.(sn_checks);
     sn_transitions := s.(sn_transitions); sn_port_forward := s.(sn_port_forward);
     sn_port_forwards := s.(sn_port_forwards); sn_recovery := recovery;
     sn_external_probe := s.(sn_external_probe); sn_external_probes := s.(sn_external_probes);
     sn_vpn_server := s.(sn_vpn_server); sn_isolation_policy := s.(sn_isolation_policy);
     sn_host_policy := s.(sn_host_policy); sn_topology := s.(sn_topology); sn_clients := s.(sn_clients);
     sn_traffic := s.(sn_traffic);
     sn_last_client_path_success_at_unix_ms := s.(sn_last_client_path_success_at_unix_ms);
     sn_profile_management := s.(sn_profile_management) |}.

Definition enable : Mon unit :=
  on_keeper (modify (fun k => keeper_policy (enable_dnat k.(k_policy)) k)).
Definition disable : Mon unit := on_keeper (LeaseKeeper.enforce (disable_dnat config)).
Definition invalidate : Mon unit := on_keeper (invalidate_published_forward PhaseUnavailable).

(** Nothing is forwarded through a tunnel that is down; a firewall that cannot
    be replaced ends the task. *)
Definition close_forwards : Mon unit :=
  let* _ := on_manager mark_degraded in
  let* _ := disable in
  invalidate.

Definition HANDSHAKE_LIMIT : N := 180.

Definition is_recent (now : N) (handshake : option N) : bool :=
  match handshake with
  | Some value => negb (value =? 0)%N && (saturating_sub now value <? HANDSHAKE_LIMIT)%N
  | None => false
  end.

Definition nonzero (handshake : option N) : option N :=
  handshake ≫= fun value => if (value =? 0)%N then None else Some value.

Definition notify_if (changed : bool) : Mon unit := if changed then notify_port_change else ret tt.

Definition handshake_read (handshake : option N) : Mon unit :=
  let* ms := on_keeper unix_ms in
  let up := is_recent (ms / 1000) handshake in
  let* _ :=
    if up then (let* _ := on_manager mark_active in enable)
    else close_forwards in
  let* was_up := gets (fun s => s.(mo_keeper).(k_app).(as_tunnel).(tn_up)) in
  let* _ := update_app (with_tunnel up (nonzero handshake)) in
  let* _ := notify_if (negb (Bool.eqb was_up up)) in
  let* _ := report "wireguard.interface" Healthy Critical "wireguard.interface_present"
              "The WireGuard interface is present" None in
  let* _ := report "wireguard.handshake" (if up then Healthy else Domain.Failed) Critical
              (if up then "wireguard.handshake_recent" else "wireguard.handshake_stale")
              (if up then "A recent WireGuard handshake was observed"
               else "The WireGuard handshake is missing or stale") None in
  if up then
    let* _ := update_loop one_success in
    let* l := gets mo_loop in
    if (config.(c_recovery).(rc_success_threshold) <=? l.(lo_tunnel_successes))%N then
      let* _ := update_loop (with_attempt 0) in
      on_keeper (LeaseKeeper.mutate (publish_recovery recovery_status_default))
    else ret tt
  else update_loop one_failure.

Definition handshake_unreadable : Mon unit :=
  let* _ := close_forwards in
  let* was_up := gets (fun s => s.(mo_keeper).(k_app).(as_tunnel).(tn_up)) in
  let* _ := update_app tunnel_down in
  let* _ := notify_if was_up in
  let* _ := update_loop one_failure in
  report "wireguard.interface" Domain.Failed Critical "wireguard.interface_missing"
    "The WireGuard interface could not be inspected" None.

Definition sample_handshake : Mon unit :=
  let* handshake := attempt (on_manager (run (wireguard_handshake config.(c_wireguard).(wc_interface)))) in
  match handshake with
  | Ok handshake => handshake_read handshake
  | Err _ => handshake_unreadable
  end.

(** ** Recovery *)

Definition recovery_due (l : Loop) : bool :=
  config.(c_recovery).(rc_enabled) && config.(c_wireguard).(wc_manage)
  && (config.(c_recovery).(rc_failure_threshold) <=? l.(lo_tunnel_failures))%N.

Definition recovering (attempt next : N) : RecoveryStatus :=
  {| rs_active := true; rs_attempt := attempt; rs_reason_code := Some "wireguard.recovery_required";
     rs_next_attempt_at_unix_ms := Some next |}.

Definition recover_tunnel : Mon unit :=
  let* _ := update_app tunnel_down in
  let* _ := notify_port_change in
  let* _ := update_loop (fun l => with_attempt (saturating_add u32_MAX l.(lo_recovery_attempt) 1) l) in
  let* l := gets mo_loop in
  let attempt_number := l.(lo_recovery_attempt) in
  let maximum := config.(c_recovery).(rc_maximum_backoff_seconds) in
  let* jitter := random (jitter_bound attempt_number maximum) in
  let delay := retry_delay_seconds attempt_number maximum jitter in
  let* ms := on_keeper unix_ms in
  let next := saturating_add u64_MAX ms (saturating_mul u64_MAX delay 1000) in
  let* _ := on_keeper (LeaseKeeper.mutate (fun s =>
    publish_recovery (recovering attempt_number next) s)) in
  let* disabled := attempt disable in
  match disabled with
  | Err _ =>
      report "gateway.firewall" Domain.Failed Critical "firewall.reconciliation_failed"
        "The owned firewall could not be reconciled before tunnel recovery" (Some attempt_number)
  | Ok _ =>
      let* _ := invalidate in
      let* _ := notify_port_change in
      let* _ := on_manager (run (gw_ignore (perform (Sleep (delay * 1000))))) in
      let* recovered := attempt (on_manager (recover config)) in
      match recovered with
      | Ok _ =>
          let* _ := update_loop (with_failures 0) in
          report "gateway.routes" Healthy Critical "routes.reinstalled"
            "Gateway policy routes were reinstalled during recovery" (Some attempt_number)
      | Err _ =>
          let* _ := report "wireguard.interface" Domain.Failed Critical "wireguard.recovery_failed"
                      "The WireGuard recovery attempt failed" (Some attempt_number) in
          update_loop (with_failures config.(c_recovery).(rc_failure_threshold))
      end
  end.

(** A turn of the loop of [monitor_tunnel]. *)
Definition monitor_turn : Mon unit :=
  let* active := gets (fun s => has_active_profile s.(mo_profiles)) in
  if negb active then ret tt
  else
    let* _ := sample_traffic in
    let* l := gets mo_loop in
    if (l.(lo_samples_since_handshake) <? 10)%N
    then update_loop (with_samples (l.(lo_samples_since_handshake) + 1))
    else
      let* _ := update_loop (with_samples 0) in
      let* _ := sample_handshake in
      let* l := gets mo_loop in
      if recovery_due l then recover_tunnel else ret tt.
End monitor.
