(* ===== verification/TunnelMonitorProps.v ===== *)
(** The tunnel monitor: nothing is forwarded while the tunnel is down, recovery
    follows its thresholds and delays, and samples of traffic are bounded. *)

From S2P Require Import Prelude RustStr Net BTree Order State Domain Config ConfigProps Host Control Machine StateErr WireGuard Profiles Enforcement EnforcementProps Routes RoutesProps ProfileManager ProfileManagerProps LeaseKeeper LeaseKeeperProps TunnelMonitor.

(** ** Samples of a client's traffic *)

Definition bytes_of (sample : ClientTrafficSample) : N * N :=
  (sample.(cs_downloaded_bytes), sample.(cs_uploaded_bytes)).

(** Neighbours differ. *)
Definition changing (l : list ClientTrafficSample) : Prop :=
  forall i a b, l !! i = Some a -> l !! S i = Some b -> bytes_of a <> bytes_of b.

Lemma changing_tail l : changing l -> changing (tail l).
Proof. intros Hl i a b. destruct l as [|x l]; [done|]. apply (Hl (S i)). Qed.

Lemma changing_snoc l x :
  changing l -> (forall y, list.last l = Some y -> bytes_of y <> bytes_of x) -> changing (l ++ [x]).
Proof.
  intros Hl Hx i a b Ha Hb. apply lookup_app_Some in Hb as [Hb|[Hlen Hb]].
  - apply (Hl i); [|done]. apply lookup_lt_Some in Hb. by rewrite lookup_app_l in Ha by lia.
  - apply list_lookup_singleton_Some in Hb as [Hi <-].
    rewrite lookup_app_l in Ha by lia. apply Hx. rewrite last_lookup. by replace (pred (length l)) with i by lia.
Qed.

Lemma last_tail {A} (l : list A) y : list.last (tail l) = Some y -> list.last l = Some y.
Proof. by destruct l as [|x [|z l]]. Qed.

(** the history of a client's traffic holds at most 120 samples, each
    different from the one before it; its last sample is the current count, and
    a new sample only pushes out the oldest one. *)
Theorem traffic_history_bounded (traffic : ClientTrafficState) (now : N) :
  let history := traffic.(ct_history) in
  let after := (record_client_traffic_sample traffic now).(ct_history) in
  (length history <= CLIENT_TRAFFIC_HISTORY_CAPACITY)%nat -> changing history ->
  (length after <= CLIENT_TRAFFIC_HISTORY_CAPACITY)%nat /\ changing after
  /\ bytes_of <$> list.last after = Some (traffic.(ct_downloaded_bytes), traffic.(ct_uploaded_bytes))
  /\ (after = history \/ exists sample, sample.(cs_sampled_at_unix_ms) = now
        /\ (after = history ++ [sample]
            \/ length history = CLIENT_TRAFFIC_HISTORY_CAPACITY /\ after = tail history ++ [sample])).
Proof.
  cbv zeta. unfold record_client_traffic_sample, sample_changed. intros Hlen Hch.
  destruct (list.last (ct_history traffic)) as [y|] eqn:Hy.
  - destruct (negb _ || negb _) eqn:Hdiff.
    + assert (Hne : bytes_of y <> (ct_downloaded_bytes traffic, ct_uploaded_bytes traffic)).
      { unfold bytes_of. intros [= H1 H2]. rewrite H1, H2, !N.eqb_refl in Hdiff. discriminate Hdiff. }
      cbn [ct_history]. rewrite last_snoc. cbn.
      destruct (Nat.eqb_spec (length (ct_history traffic)) CLIENT_TRAFFIC_HISTORY_CAPACITY) as [Hfull|Hroom].
      * split_and!; [| |done|right; eexists; (split; [|right; split; [done|reflexivity]]); reflexivity].
        -- rewrite length_app. unfold CLIENT_TRAFFIC_HISTORY_CAPACITY in *.
           destruct (ct_history traffic); cbn in *; lia.
        -- apply changing_snoc; [by apply changing_tail|]. intros z Hz%last_tail. by simplify_eq.
      * split_and!; [| |done|right; eexists; (split; [|left; reflexivity]); reflexivity].
        -- rewrite length_app. cbn. lia.
        -- apply changing_snoc; [done|]. intros z Hz. by simplify_eq.
    + split_and!; [done|done| |by left]. rewrite Hy. cbn. apply orb_false_iff in Hdiff as [H1 H2].
      apply negb_false_iff, N.eqb_eq in H1, H2. unfold bytes_of. by rewrite H1, H2.
  - apply last_None in Hy. rewrite Hy. cbn.
    split_and!; [|by intros [] ? ?|done|right; eexists; (split; [|left; reflexivity]); reflexivity].
    unfold CLIENT_TRAFFIC_HISTORY_CAPACITY. lia.
Qed.

Definition example_traffic : ClientTrafficState :=
  {| ct_download_packets := 4; ct_downloaded_bytes := 900; ct_upload_packets := 2; ct_uploaded_bytes := 70;
     ct_sampled_at_unix_ms := Some 5%N;
     ct_history := replicate 1 {| cs_sampled_at_unix_ms := 4; cs_downloaded_bytes := 880; cs_uploaded_bytes := 70 |} |}.

Lemma traffic_history_bounded_witness :
  (length (ct_history (record_client_traffic_sample example_traffic 9)) <= 120)%nat
  /\ length (ct_history (record_client_traffic_sample example_traffic 9)) = 2%nat.
Proof.
  split; [|reflexivity].
  exact (proj1 (traffic_history_bounded example_traffic 9 ltac:(vm_compute; lia)
    ltac:(intros [|i] a b Ha Hb; discriminate Hb))).
Defined.

Example rates_example : calculate_rates (1000, 10)%N (4000, 11)%N {| du_secs := 1; du_nanos := 500000000 |} = (2000, 1)%N.
Proof. vm_compute. reflexivity. Qed.

(** ** What the keeper's operations do to the permission *)

Section gate.
Context `{!IpNetCrate, !Env, !ProfileFiles, !KeeperEnv, !MonitorEnv} (config : Config).
Implicit Types (k : Keeper) (s : Monitor) (p : DesiredPolicy).

(** Nothing may be forwarded and, as far as the coordinator installed it,
    nothing is. *)
Definition shut p : Prop :=
  p.(dnat_allowed) = false /\ p.(desired_dnat) = ∅ /\ (manages config = true -> p.(applied_dnat) = ∅).

Definition same_gate p p' : Prop := p'.(dnat_allowed) = p.(dnat_allowed) /\ (shut p -> shut p').

Lemma same_gate_refl p : same_gate p p.
Proof. by split. Qed.

Lemma same_gate_trans p1 p2 p3 : same_gate p1 p2 -> same_gate p2 p3 -> same_gate p1 p3.
Proof. intros [Ha Hsa] [Hb Hsb]. split; [congruence|auto]. Qed.

Lemma same_gate_op o p :
  (match o with EnableDnat | DisableDnat _ => false | _ => true end) = true ->
  same_gate p (EnforcementProps.run_op config o p).1.
Proof.
  intros Ho. destruct (EnforcementProps.run_op config o p) as [p' r] eqn:Hrun. cbn [fst].
  apply run_op_recorded in Hrun as (Hi & Ha & _).
  assert (Hal : p'.(dnat_allowed) = p.(dnat_allowed)).
  { apply (f_equal fst) in Hi. cbn in Hi. rewrite Hi. by destruct o. }
  split; [done|]. intros (Hallowed & Hd & Happ).
  assert (Hd' : p'.(desired_dnat) = ∅).
  { apply (f_equal snd) in Hi. cbn in Hi. rewrite Hi. destruct o; try discriminate Ho; try done; cbn.
    - by rewrite Hallowed.
    - rewrite Hd. apply delete_empty.
    - destruct (observe_kernel_locked _ _ _).2; [|done]. rewrite Hd. apply map_filter_empty. }
  unfold shut. rewrite Hal, Hd'. split_and!; [done|done|]. intros Hm.
  destruct Ha as [Ha|[_ Ha]]; rewrite Ha; [by apply Happ|done].
Qed.

(** A computation of the keeper that leaves the gate and the tunnel alone. *)
Definition gated {A} (m : K A) : Prop := forall k,
  same_gate k.(k_policy) (m k).1.(k_policy) /\ (m k).1.(k_app).(as_tunnel) = k.(k_app).(as_tunnel).

Lemma gated_pure {A} (m : K A) :
  (forall k, (m k).1.(k_policy) = k.(k_policy)) ->
  (forall k, (m k).1.(k_app).(as_tunnel) = k.(k_app).(as_tunnel)) -> gated m.
Proof. intros Hp Ht k. rewrite Hp, Ht. split; [apply same_gate_refl|done]. Qed.

Lemma gated_ret {A} (a : A) : gated (ret a). Proof. by apply gated_pure. Qed.
Lemma gated_fail {A} e : gated (fail (A := A) e). Proof. by apply gated_pure. Qed.
Lemma gated_gets {A} (f : Keeper -> A) : gated (gets f). Proof. by apply gated_pure. Qed.
Lemma gated_lift {A} (r : Result A string) : gated (lift r). Proof. by apply gated_pure. Qed.
Lemma gated_now : gated unix_ms. Proof. by apply gated_pure. Qed.
Lemma gated_observe o : gated (LeaseKeeper.observe o). Proof. by apply gated_pure. Qed.
Lemma gated_emit a b c : gated (LeaseKeeper.emit a b c). Proof. by apply gated_pure. Qed.
Lemma gated_mutate f : gated (LeaseKeeper.mutate f). Proof. by apply gated_pure. Qed.
Lemma gated_leases f : gated (update_leases f). Proof. by apply gated_pure. Qed.
Lemma gated_forwards f : gated (update_forwards f). Proof. by apply gated_pure. Qed.
Lemma gated_primary : gated (publish_primary_forward config). Proof. by apply gated_pure. Qed.
Lemma gated_error u e : gated (record_port_error u e). Proof. destruct u; by apply gated_pure. Qed.
Lemma gated_attempt {A} (m : K A) : gated m -> gated (attempt m).
Proof. intros Hm k. exact (Hm k). Qed.

Lemma gated_bind {A B} (m : K A) (f : A -> K B) : gated m -> (forall a, gated (f a)) -> gated (bind m f).
Proof.
  intros Hm Hf k. destruct (Hm k) as [Hg Ht]. unfold bind. destruct (m k) as [k1 [a|e]]; [|done].
  destruct (Hf a k1) as [Hg1 Ht1]. split; [by apply (same_gate_trans _ _ _ Hg)|]. cbn in *. congruence.
Qed.

Lemma gated_each {A} (f : A -> K unit) l : (forall x, gated (f x)) -> gated (each f l).
Proof. intros Hf. induction l as [|x l IH]; [apply gated_ret|]. by apply gated_bind. Qed.

Lemma gated_clear u : gated (LeaseKeeper.enforce (clear_dnat_for_usage config u)).
Proof. intros k. split; [|done]. exact (same_gate_op (ClearDnat u _) _ eq_refl). Qed.

Lemma gated_set u mapping slot :
  gated (LeaseKeeper.enforce (set_dnat_for_target config u (tunnel_dnat mapping slot.(ls_target)) slot.(ls_target))).
Proof. intros k. split; [|done]. exact (same_gate_op (SetDnat u _ slot.(ls_target) _) _ eq_refl). Qed.

Create HintDb gate discriminated.
#[local] Hint Resolve gated_ret gated_fail gated_gets gated_lift gated_now gated_observe gated_emit gated_mutate
  gated_leases gated_forwards gated_primary gated_error gated_attempt gated_bind gated_each gated_clear
  gated_set : gate.

(** Opens the definitions and case distinctions of a computation. *)
#[local] Ltac gate :=
  repeat first
    [ progress cbv beta iota zeta
    | solve [auto with gate]
    | apply gated_bind; [|intros ?]
    | apply gated_each; intros ?
    | match goal with |- gated (match ?x with _ => _ end) => destruct x end ].

Lemma gated_deactivate u phase : gated (deactivate_forward_for_usage config u phase).
Proof. unfold deactivate_forward_for_usage. gate. Qed.
#[local] Hint Resolve gated_deactivate : gate.

Lemma gated_forget u : gated (forget_usage u).
Proof. unfold forget_usage. gate. Qed.
#[local] Hint Resolve gated_forget : gate.

Lemma gated_deactivate_all phase : gated (deactivate_all_forwards config phase).
Proof. unfold deactivate_all_forwards. gate. Qed.

Lemma gated_reconcile : gated (reconcile_lease_targets config).
Proof. unfold reconcile_lease_targets, remove_lease, take_target. gate. Qed.

Lemma gated_handle public_ip result : gated (handle_result config public_ip result).
Proof. unfold handle_result, handle_mapping. gate. Qed.
#[local] Hint Resolve gated_deactivate_all gated_reconcile gated_handle : gate.

Lemma gated_renew public_ip : gated (renew_leases config public_ip).
Proof. unfold renew_leases, observe_installed_forwards. gate. Qed.
#[local] Hint Resolve gated_renew : gate.

Lemma gated_turn : gated (turn config).
Proof.
  unfold turn. gate.
Qed.

(** ** Turns of the monitor *)

(** Failures, recovery attempts and successes. *)
Definition tally s : N * N * N :=
  (s.(mo_loop).(lo_tunnel_failures), s.(mo_loop).(lo_recovery_attempt), s.(mo_loop).(lo_tunnel_successes)).

(** What the gate is about: the keeper's view, the policy and the counts. *)
Definition gate_view s : LeaseKeeperProps.View * DesiredPolicy * (N * N * N) :=
  (view s.(mo_keeper), s.(mo_keeper).(k_policy), tally s).

(** What was done on the machine. *)
Definition log s : list Event := s.(mo_profiles).(m_log).

(** A computation of the monitor that does not touch them. *)
Definition still {A} (m : Mon A) : Prop := forall s, gate_view (m s).1 = gate_view s /\ log s `prefix_of` log (m s).1.

Lemma wp_still {A} (m : Mon A) s (Q : Monitor -> Result A string -> Prop) :
  still m -> (forall s1 r, gate_view s1 = gate_view s -> Q s1 r) -> wp m s Q.
Proof. intros Hm HQ. apply HQ, Hm. Qed.

Lemma still_bind {A B} (m : Mon A) (f : A -> Mon B) : still m -> (forall a, still (f a)) -> still (bind m f).
Proof.
  intros Hm Hf s. specialize (Hm s). unfold bind. destruct (m s) as [s1 [a|e]]; [|done].
  destruct (Hf a s1) as [Hg Hl]. destruct Hm as [Hg1 Hl1]. split; [by rewrite Hg|by etrans].
Qed.

Lemma still_attempt {A} (m : Mon A) : still m -> still (attempt m).
Proof. intros Hm s. exact (Hm s). Qed.
Lemma still_ret {A} (a : A) : still (ret a). Proof. done. Qed.
Lemma still_gets {A} (f : Monitor -> A) : still (gets f). Proof. done. Qed.
Lemma still_previous x : still (update_loop (with_previous x)). Proof. done. Qed.
Lemma still_samples x : still (update_loop (with_samples x)). Proof. done. Qed.
Lemma still_notify : still notify_port_change. Proof. done. Qed.
Lemma still_instant : still now_instant. Proof. done. Qed.
Lemma still_random bound : still (random bound). Proof. done. Qed.
Lemma still_now : still (on_keeper unix_ms). Proof. done. Qed.
Lemma still_traffic traffic : still (update_app (with_traffic traffic)). Proof. done. Qed.
Lemma still_report id status impact reason message attempt :
  still (report id status impact reason message attempt).
Proof. intros s. split; [|done]. unfold gate_view. cbn. do 2 f_equal. apply quiet_observe. Qed.
Lemma still_mutate f :
  (forall x, sn_port_forwards (f x) = sn_port_forwards x) -> still (on_keeper (LeaseKeeper.mutate f)).
Proof.
  intros Hf s. split; [|done]. unfold gate_view, view, published. cbn. by rewrite Hf.
Qed.
(** A computation on the machine, whatever it does. *)
Lemma run_grows {A} (g : Gateway A) log0 : performs (fun _ => true) g -> log0 `prefix_of` (g log0).1.
Proof. intros Hg. destruct (Hg log0) as (tail & -> & _). by exists tail. Qed.

Lemma still_run {A} (g : Gateway A) : performs (fun _ => true) g -> still (on_manager (run g)).
Proof.
  intros Hg s. unfold on_manager, run, gate_view. cbn. split; [by destruct (mo_keeper s)|].
  unfold log. cbn. by apply run_grows.
Qed.

(** An operation of the manager that leaves the policy alone. *)
Lemma still_manager {A} (m : M A) :
  (forall x, m_policy (m x).1 = m_policy x /\ m_log x `prefix_of` m_log (m x).1) -> still (on_manager m).
Proof.
  intros Hm s. unfold on_manager, gate_view, log.
  destruct (Hm (set_policy (k_policy (mo_keeper s)) (mo_profiles s))) as [Hp Hl].
  destruct (m _) as [x r]. cbn in *. rewrite Hp. split; [by destruct (mo_keeper s)|done].
Qed.

Lemma still_mark lifecycle : still (on_manager (mark lifecycle)).
Proof. apply still_manager. intros x. unfold mark, bind, gets. cbn. by destruct (has_active_profile x). Qed.

Lemma performs_recycle profile : performs (fun _ => true) (recycle config profile).
Proof.
  unfold recycle, wireguard_up, wireguard_down, prepare_wireguard_profile, verify_tmpfs,
    configure_gateway_routes, configure_gateway_ipv6_routes, service_route, ip.
  repeat first [solve [auto with gateway] | apply performs_bind; [|intros ?] | apply performs_each; intros ?
               | match goal with |- performs _ (match ?x with _ => _ end) => destruct x end].
Qed.

Lemma still_recover : still (on_manager (recover config)).
Proof.
  apply still_manager. intros x. unfold recover, bind, gets, lift.
  generalize performs_recycle. generalize (recycle config). intros g Hg.
  cbn. destruct (m_active x) as [active|]; [|done].
  cbn. split; [done|]. by apply run_grows.
Qed.

#[local] Hint Resolve still_bind still_attempt still_ret still_gets still_previous still_samples still_notify still_instant
  still_random still_now still_traffic still_report still_mutate still_run still_mark still_recover : gate.

Lemma performs_counters interface : performs (fun _ => true) (read_interface_counters interface).
Proof.
  unfold read_interface_counters, counter_file.
  repeat (apply performs_bind; [solve [auto with gateway] || apply performs_bind; [auto with gateway|]|]; intros ?);
    try (destruct (parse_u64 _)); auto with gateway.
Qed.

Lemma performs_handshake interface : performs (fun _ => true) (wireguard_handshake interface).
Proof. apply performs_bind; [auto with gateway|]. intros []; auto with gateway. Qed.
#[local] Hint Resolve performs_counters performs_handshake : gate.

Lemma still_sample_traffic : still (sample_traffic config).
Proof.
  unfold sample_traffic. apply still_bind; [auto with gate|]. intros [counters|e]; [|auto with gate].
  do 4 (apply still_bind; [auto with gate|intros ?; cbv beta zeta]). auto 6 with gate.
Qed.

(** The state that the monitor keeps between turns. *)
Record gate_ok k : Prop := {
  gate_owned : owned (view k);
  gate_allowed : tunnel_up k = k.(k_policy).(dnat_allowed);
  gate_shut : tunnel_up k = false -> shut k.(k_policy) /\ forall u, ~ active_in (view k) u;
}.

Lemma gate_ok_still s s1 : gate_view s1 = gate_view s -> gate_ok s.(mo_keeper) -> gate_ok s1.(mo_keeper).
Proof.
  intros Hg [Ho Ha Hs]. pose proof (f_equal (fst ∘ fst) Hg) as Hv. pose proof (f_equal (snd ∘ fst) Hg) as Hp. cbn in Hv, Hp.
  assert (Ht : tunnel_up (mo_keeper s1) = tunnel_up (mo_keeper s)).
  { change (tn_up (v_tunnel (view (mo_keeper s1))) = tn_up (v_tunnel (view (mo_keeper s)))). by rewrite Hv. }
  split; rewrite ?Ht, ?Hv, ?Hp; done.
Qed.

(** Closing leaves no rule and no active forward, whatever was there. *)
Definition closed_gate (tunnel : TunnelState) k : Prop :=
  owned (view k) /\ shut k.(k_policy) /\ (forall u, ~ active_in (view k) u)
  /\ k.(k_app).(as_tunnel) = tunnel.

Lemma wp_disable s (Q : Monitor -> Result unit string -> Prop) :
  (forall s1 r, s1.(mo_loop) = s.(mo_loop) -> s1.(mo_profiles) = s.(mo_profiles) ->
     view s1.(mo_keeper) = view_rules (view s.(mo_keeper)) ∅ ->
     s1.(mo_keeper).(k_policy).(dnat_allowed) = false ->
     (r = Ok tt -> shut s1.(mo_keeper).(k_policy)) ->
     (shut s.(mo_keeper).(k_policy) -> shut s1.(mo_keeper).(k_policy)) -> Q s1 r) ->
  wp (disable config) s Q.
Proof.
  intros HQ. unfold wp, disable, on_keeper, LeaseKeeper.enforce. cbn [fst snd].
  set (k := mo_keeper s). destruct (disable_dnat config (nft_at (k_asked k)) (k_policy k)) as [p r] eqn:Hd.
  unfold disable_dnat in Hd. apply apply_recorded in Hd as (Hi & _ & Hf & Hok). cbn in Hi, Hf.
  injection Hi as Hallowed Hdesired. apply HQ; cbn; try done.
  - unfold view, view_rules, rules. cbn. by rewrite Hdesired.
  - intros ->. split_and!; [done|done|]. intros Hm. cbn. by rewrite (Hok Hm eq_refl).
  - intros (_ & _ & Happ). split_and!; [done|done|]. intros Hm. cbn.
    destruct Hf as [->|[_ ->]]; [by apply Happ|done].
Qed.

Lemma owned_no_rules v : owned v -> owned (view_rules v ∅).
Proof. apply owned_fewer_rules, map_empty_subseteq. Qed.

(** The forwards are invalidated: none is active any more. *)
Lemma wp_invalidate s (Q : Monitor -> Result unit string -> Prop) :
  owned (view s.(mo_keeper)) ->
  (forall s1, owned (view s1.(mo_keeper)) -> (forall u, ~ active_in (view s1.(mo_keeper)) u) ->
     s1.(mo_keeper).(k_policy) = s.(mo_keeper).(k_policy) ->
     s1.(mo_keeper).(k_app).(as_tunnel) = s.(mo_keeper).(k_app).(as_tunnel) ->
     s1.(mo_loop) = s.(mo_loop) -> s1.(mo_profiles) = s.(mo_profiles) -> Q s1 (Ok tt)) ->
  wp invalidate s Q.
Proof.
  intros Ho HQ. unfold wp, invalidate, on_keeper.
  assert (Hnone : forall u, ~ active_in (view (invalidate_published_forward PhaseUnavailable (mo_keeper s)).1) u).
  { intros u (f & Hf & Ha). by rewrite (invalidated_inactive PhaseUnavailable _ _ _ Hf) in Ha. }
  apply HQ; cbn [mo_keeper set_keeper fst]; [|exact Hnone|done..].
  destruct Ho as [_ Hr Ht]. split; [|exact Hr|exact Ht]. intros u f Hf Ha. destruct (Hnone u). by exists f.
Qed.

Lemma still_fields s s1 :
  gate_view s1 = gate_view s ->
  view s1.(mo_keeper) = view s.(mo_keeper) /\ s1.(mo_keeper).(k_policy) = s.(mo_keeper).(k_policy)
  /\ s1.(mo_keeper).(k_app).(as_tunnel) = s.(mo_keeper).(k_app).(as_tunnel) /\ tally s1 = tally s.
Proof.
  intros Hg. pose proof (f_equal (fst ∘ fst) Hg) as Hv. split_and!; [done|exact (f_equal (snd ∘ fst) Hg)| |exact (f_equal snd Hg)].
  exact (f_equal v_tunnel Hv).
Qed.

Lemma wp_close s (Q : Monitor -> Result unit string -> Prop) :
  owned (view s.(mo_keeper)) -> (forall s1 e, Q s1 (Err e)) ->
  (forall s1, closed_gate s.(mo_keeper).(k_app).(as_tunnel) s1.(mo_keeper) -> tally s1 = tally s -> Q s1 (Ok tt)) ->
  wp (close_forwards config) s Q.
Proof.
  intros Ho Hfail HQ. unfold close_forwards. apply wp_bind, wp_still; [apply still_mark|].
  intros s1 [[]|e] Hg1; [|apply Hfail]. apply still_fields in Hg1 as (Hv1 & _ & Ht1 & Hl1).
  apply wp_bind, wp_disable. intros s2 [[]|e] Hl2 _ Hv2 _ Hshut _; [|apply Hfail].
  apply wp_invalidate.
  { rewrite Hv2, Hv1. by apply owned_no_rules. }
  intros s3 Ho3 Hn3 Hp3 Ht3 Hl3 _. apply HQ.
  - split_and!; [done|rewrite Hp3; by apply Hshut|done|].
    rewrite Ht3. pose proof (f_equal v_tunnel Hv2) as Ht2. cbn in Ht2. congruence.
  - unfold tally in *. by rewrite Hl3, Hl2.
Qed.

(** Setting the state of the tunnel. *)
Lemma gate_ok_down k handshake :
  owned (view k) -> shut k.(k_policy) -> (forall u, ~ active_in (view k) u) ->
  gate_ok (with_app (with_tunnel false handshake k.(k_app)) k).
Proof. intros [Hs Hr Ht] Hshut Hn. split; [by split|by destruct Hshut|]. by intros _. Qed.

Lemma gate_ok_up k handshake :
  owned (view k) -> k.(k_policy).(dnat_allowed) = true ->
  gate_ok (with_app (with_tunnel true handshake k.(k_app)) k).
Proof. intros [Hs Hr Ht] Hal. split; [by split|symmetry; exact Hal|]. intros Hup. discriminate Hup. Qed.

(** What a sample of the handshake does to the counts. *)
Definition counted (up : bool) (before after : N * N * N) : Prop :=
  let '(failures, attempt, successes) := before in
  after =
    if up then
      let successes := saturating_add u32_MAX successes 1 in
      (0%N, if (config.(c_recovery).(rc_success_threshold) <=? successes)%N then 0%N else attempt, successes)
    else (saturating_add u32_MAX failures 1, attempt, 0%N).

Definition sampled (s s1 : Monitor) (r : Result unit string) : Prop :=
  r = Ok tt -> gate_ok s1.(mo_keeper) /\ counted (tunnel_up s1.(mo_keeper)) (tally s) (tally s1).

#[local] Hint Resolve still_recover : gate.

(** The rest of a sample after the state of the tunnel is set. *)
Lemma wp_still_Ok {A} (m : Mon A) s (Q : Monitor -> Result A string -> Prop) :
  still m -> (forall s1 e, Q s1 (Err e)) ->
  (forall s1 a, gate_view s1 = gate_view s -> Q s1 (Ok a)) -> wp m s Q.
Proof. intros Hm Hfail HQ. apply wp_still; [done|]. intros s1 [a|e] Hg; auto. Qed.

(** The rest of a sample, after the state of the tunnel is set. *)
Definition count_sample (up changed : bool) : Mon unit :=
  let* _ := notify_if changed in
  let* _ := report "wireguard.interface" Healthy Critical "wireguard.interface_present"
              "The WireGuard interface is present" None in
  let* _ := report "wireguard.handshake" (if up then Healthy else Domain.Failed) Critical
              (if up then "wireguard.handshake_recent" else "wireguard.handshake_stale")
              (if up then "A recent WireGuard handshake was observed"
               else "The WireGuard handshake is missing or stale") None in
  if up then
    let* _ := update_loop one_success in
    let* l := gets mo_loop in
    if (config.(c_recovery).(rc_success_threshold) <=? l.(lo_tunnel_successes))%N then
      let* _ := update_loop (with_attempt 0) in
      on_keeper (LeaseKeeper.mutate (publish_recovery recovery_status_default))
    else ret tt
  else update_loop one_failure.

Lemma still_notify_if changed : still (notify_if changed).
Proof. by destruct changed. Qed.
#[local] Hint Resolve still_notify_if : gate.

Lemma wp_count_sample up changed s s3 :
  gate_ok s3.(mo_keeper) -> tunnel_up s3.(mo_keeper) = up -> tally s3 = tally s ->
  wp (count_sample up changed) s3 (sampled s).
Proof.
  intros Hok3 Hup3 Hl3. unfold count_sample.
  apply wp_bind, wp_still_Ok; [auto with gate|done|]. intros s4 [] Hg4.
  apply wp_bind, wp_still_Ok; [auto with gate|done|]. intros s5 [] Hg5.
  apply wp_bind, wp_still_Ok; [auto with gate|done|]. intros s6 [] Hg6.
  rewrite Hg5, Hg4 in Hg6. clear s4 s5 Hg4 Hg5.
  pose proof (gate_ok_still _ _ Hg6 Hok3) as Hok6. apply still_fields in Hg6 as (_ & _ & Ht6 & Hl6).
  assert (Hup6 : tunnel_up s6.(mo_keeper) = up) by (unfold tunnel_up in *; by rewrite Ht6).
  rewrite Hl3 in Hl6. clear s3 Hok3 Hup3 Ht6 Hl3.
  destruct up.
  - apply wp_bind, wp_modify, wp_bind, wp_gets. cbn beta iota.
    unfold tally in Hl6. injection Hl6 as Hf Ha Hs.
    destruct (rc_success_threshold (c_recovery config) <=? _)%N eqn:Hth; cbn in Hth.
    + apply wp_bind, wp_modify. cbn beta iota.
      match goal with |- wp _ ?x _ => set (s7 := x) end.
      apply wp_still_Ok; [auto with gate|done|]. intros s8 [] Hg8 _.
      assert (gate_ok (mo_keeper s7)) as Hok7 by exact Hok6.
      split; [exact (gate_ok_still _ _ Hg8 Hok7)|]. apply still_fields in Hg8 as (_ & _ & Ht8 & Hl8).
      assert (Hup8 : tunnel_up s8.(mo_keeper) = true) by (unfold tunnel_up in *; by rewrite Ht8).
      rewrite Hup8, Hl8. cbn. by rewrite <- Hs, Hth.
    + intros _. split; [exact Hok6|]. cbn. rewrite Hup6. cbn. by rewrite <- Hs, Hth, <- Ha.
  - apply wp_modify. intros _. split; [exact Hok6|]. cbn. unfold tally in Hl6. injection Hl6 as Hf Ha Hs.
    rewrite Hup6. unfold tally. cbn. by rewrite Hf, Ha.
Qed.

Lemma wp_handshake_read handshake s :
  owned (view s.(mo_keeper)) -> wp (handshake_read config handshake) s (sampled s).
Proof.
  intros Ho. unfold handshake_read. apply wp_bind, wp_still_Ok; [auto with gate|done|]. intros s1 ms Hg1. cbv beta zeta.
  apply still_fields in Hg1 as (Hv1 & Hp1 & Ht1 & Hl1).
  set (up := is_recent _ _). apply wp_bind.
  assert (Hmid : wp (if up then (let* _ := on_manager mark_active in enable) else close_forwards config) s1
    (fun s2 r => r = Ok tt -> tally s2 = tally s1 /\ owned (view s2.(mo_keeper))
       /\ if up then s2.(mo_keeper).(k_policy).(dnat_allowed) = true
          else shut s2.(mo_keeper).(k_policy) /\ forall u, ~ active_in (view s2.(mo_keeper)) u)).
  { destruct up.
    - apply wp_bind, wp_still_Ok; [apply still_mark|done|]. intros s2 [] Hg2.
      apply still_fields in Hg2 as (Hv2 & Hp2 & Ht2 & Hl2). unfold wp, enable, on_keeper, modify. cbn. intros _.
      split_and!; [exact Hl2| |done]. change (owned (view (mo_keeper s2))). by rewrite Hv2, Hv1.
    - apply wp_close; [by rewrite Hv1|done|]. intros s2 (Ho2 & Hs2 & Hn2 & _) Hl2 _. by split_and!. }
  eapply wp_weaken; [|exact Hmid]. cbv beta. intros s2 [[]|e] Hs2; [|done]. destruct (Hs2 eq_refl) as (Hl2 & Ho2 & Hup).
  apply wp_bind, wp_gets, wp_bind, wp_modify. cbn beta iota.
  match goal with |- wp _ ?x _ => set (s3 := x) end.
  assert (Hok3 : gate_ok s3.(mo_keeper)).
  { destruct up; [by apply gate_ok_up|by destruct Hup; apply gate_ok_down]. }
  assert (Hup3 : tunnel_up s3.(mo_keeper) = up) by done.
  assert (Hl3 : tally s3 = tally s) by (change (tally s2 = tally s); congruence).
  by apply wp_count_sample.
Qed.

Lemma wp_handshake_unreadable s :
  owned (view s.(mo_keeper)) -> wp (handshake_unreadable config) s (sampled s).
Proof.
  intros Ho. unfold handshake_unreadable. apply wp_bind, wp_close; [done|done|].
  intros s1 (Ho1 & Hs1 & Hn1 & _) Hl1. apply wp_bind, wp_gets, wp_bind, wp_modify. cbn beta iota.
  match goal with |- wp _ ?x _ => set (s2 := x) end.
  assert (Hok2 : gate_ok s2.(mo_keeper)) by by apply gate_ok_down.
  assert (Hl2 : tally s2 = tally s) by exact Hl1. assert (Hup2 : tunnel_up s2.(mo_keeper) = false) by done.
  clearbody s2. apply wp_bind, wp_still_Ok; [auto with gate|done|]. intros s3 [] Hg3. apply wp_bind, wp_modify.
  match goal with |- wp _ ?x _ => set (s4 := x) end.
  apply wp_still_Ok; [auto with gate|done|]. intros s5 [] Hg5 _.
  assert (gate_ok (mo_keeper s4)) as Hok4 by exact (gate_ok_still _ _ Hg3 Hok2).
  split; [exact (gate_ok_still _ _ Hg5 Hok4)|].
  apply still_fields in Hg3 as (_ & _ & Ht3 & Hl3). apply still_fields in Hg5 as (_ & _ & Ht5 & Hl5).
  assert (Hup5 : tunnel_up (mo_keeper s5) = false).
  { unfold tunnel_up in *. rewrite Ht5. change (tn_up (as_tunnel (k_app (mo_keeper s3))) = false). by rewrite Ht3. }
  rewrite Hup5, Hl5. rewrite <- Hl2, <- Hl3. done.
Qed.

Lemma wp_sample_handshake s : owned (view s.(mo_keeper)) -> wp (sample_handshake config) s (sampled s).
Proof.
  intros Ho. unfold sample_handshake. apply wp_bind, wp_still; [auto with gate|]. intros s1 r Hg1.
  apply still_fields in Hg1 as (Hv1 & _ & _ & Hl1).
  assert (Hs : forall s2 r2, sampled s1 s2 r2 -> sampled s s2 r2) by (unfold sampled; by rewrite Hl1).
  destruct r as [[handshake|e]|e]; [| |done].
  - eapply wp_weaken; [exact Hs|]. apply wp_handshake_read. by rewrite Hv1.
  - eapply wp_weaken; [exact Hs|]. apply wp_handshake_unreadable. by rewrite Hv1.
Qed.

(** The tunnel is down and the gate is shut. *)
Definition down s : Prop := gate_ok s.(mo_keeper) /\ tunnel_up s.(mo_keeper) = false.

Lemma down_still s s1 : gate_view s1 = gate_view s -> down s -> down s1 /\ tally s1 = tally s.
Proof.
  intros Hg [Hok Hup]. split; [split|by apply still_fields in Hg as (_ & _ & _ & ?)].
  - by apply (gate_ok_still s).
  - apply still_fields in Hg as (_ & _ & Ht & _). unfold tunnel_up in *. by rewrite Ht.
Qed.

Lemma wp_down_still {A} (m : Mon A) s (Q : Monitor -> Result A string -> Prop) :
  down s -> still m ->
  (forall s1 r, down s1 -> tally s1 = tally s -> log s `prefix_of` log s1 -> Q s1 r) -> wp m s Q.
Proof.
  intros Hd Hm HQ. destruct (Hm s) as [Hg Hlog].
  destruct (down_still s _ Hg Hd) as [Hd1 Hl1]. by apply HQ.
Qed.

(** One that does not touch the machine either. *)
Lemma wp_down_calm {A} (m : Mon A) s (Q : Monitor -> Result A string -> Prop) :
  down s -> still m -> mo_profiles (m s).1 = mo_profiles s ->
  (forall s1 r, down s1 -> tally s1 = tally s -> log s1 = log s -> Q s1 r) -> wp m s Q.
Proof.
  intros Hd Hm Hp HQ. destruct (Hm s) as [Hg _]. destruct (down_still s _ Hg Hd) as [Hd1 Hl1].
  apply HQ; [done|done|]. unfold log. by rewrite Hp.
Qed.

(** The firewall is asked to install no rule: with the tunnel down that changes
    nothing that counts. *)
Lemma wp_down_disable s (Q : Monitor -> Result unit string -> Prop) :
  down s -> (forall s1 r, down s1 -> tally s1 = tally s -> log s1 = log s -> Q s1 r) -> wp (disable config) s Q.
Proof.
  intros [[Ho Ha Hs] Hup] HQ. apply wp_disable. intros s1 r Hl1 Hm1 Hv1 Hal1 _ Hshut1.
  destruct (Hs Hup) as [Hshut Hn].
  assert (Ht1 : tunnel_up s1.(mo_keeper) = false).
  { change (tn_up (v_tunnel (view (mo_keeper s1))) = false). by rewrite Hv1. }
  apply HQ; [|unfold tally; by rewrite Hl1|unfold log; by rewrite Hm1]. split; [|done]. split.
  - rewrite Hv1. by apply owned_no_rules.
  - by rewrite Ht1, Hal1.
  - intros _. split; [by apply Hshut1|]. rewrite Hv1. exact Hn.
Qed.

Lemma wp_down_invalidate s (Q : Monitor -> Result unit string -> Prop) :
  down s -> (forall s1, down s1 -> tally s1 = tally s -> log s1 = log s -> Q s1 (Ok tt)) -> wp invalidate s Q.
Proof.
  intros [[Ho Ha Hs] Hup] HQ. apply wp_invalidate; [done|]. intros s1 Ho1 Hn1 Hp1 Ht1 Hl1 Hm1.
  destruct (Hs Hup) as [Hshut _].
  assert (Hup1 : tunnel_up s1.(mo_keeper) = false) by (unfold tunnel_up in *; by rewrite Ht1).
  apply HQ; [|unfold tally; by rewrite Hl1|unfold log; by rewrite Hm1]. split; [|done]. split; [done| |].
  - by rewrite Hup1, Hp1, <- Ha.
  - intros _. by rewrite Hp1.
Qed.

Lemma down_loop l s : down s -> down (set_loop l s).
Proof. done. Qed.

Lemma still_mark_recovering attempt next :
  still (on_keeper (LeaseKeeper.mutate (fun x => publish_recovery (recovering attempt next) x))).
Proof. by apply still_mutate. Qed.

(** The attempt itself, after the wait. *)
Definition attempt_recovery (attempt : N) : Mon unit :=
  let* recovered := StateErr.attempt (on_manager (recover config)) in
  match recovered with
  | Ok _ =>
      let* _ := update_loop (with_failures 0) in
      report "gateway.routes" Healthy Critical "routes.reinstalled"
        "Gateway policy routes were reinstalled during recovery" (Some attempt)
  | Err _ =>
      let* _ := report "wireguard.interface" Domain.Failed Critical "wireguard.recovery_failed"
                  "The WireGuard recovery attempt failed" (Some attempt) in
      update_loop (with_failures config.(c_recovery).(rc_failure_threshold))
  end.

Lemma wp_attempt_recovery attempt s :
  down s ->
  wp (attempt_recovery attempt) s (fun s1 r => r = Ok tt ->
    down s1 /\ log s `prefix_of` log s1 /\ exists failures, tally s1 = (failures, (tally s).1.2, (tally s).2)
    /\ (failures = 0 \/ failures = config.(c_recovery).(rc_failure_threshold))%N).
Proof.
  intros Hd. apply wp_bind, wp_down_still; [done|auto with gate|]. intros s1 [[[]|e]|e] Hd1 Hl1 Hp1; [| |done].
  - apply wp_bind, wp_modify. match goal with |- wp _ ?x _ => set (s2 := x) end.
    assert (Hd2 : down s2) by done. apply wp_down_still; [done|auto with gate|].
    intros s3 [[]|e] Hd3 Hl3 Hp3; [|done]. intros _. split_and!; [done|by etrans|]. exists 0%N.
    split; [|by left]. rewrite Hl3, <- Hl1. reflexivity.
  - apply wp_bind, wp_down_still; [done|auto with gate|]. intros s2 [[]|e'] Hd2 Hl2 Hp2; [|done].
    apply wp_modify. intros _. split_and!; [done|by etrans|]. eexists. split; [|by right].
    rewrite <- Hl1, <- Hl2. reflexivity.
Qed.

(** A recovery keeps the gate shut and counts its attempt.  When the firewall
    refuses nothing else is done and the count of failures stays; otherwise the
    attempt comes after its delay, and it leaves no failure or as many as the
    threshold. *)
Definition recovered (s s1 : Monitor) : Prop :=
  let '(failures, attempt, successes) := tally s in
  let attempt := saturating_add u32_MAX attempt 1 in
  let maximum := config.(c_recovery).(rc_maximum_backoff_seconds) in
  exists failures', tally s1 = (failures', attempt, successes)
    /\ (failures' = failures /\ log s1 = log s
        \/ (exists asked reply rest, log s1 =
             log s ++ (Sleep (retry_delay_seconds attempt maximum
                                (random_upto asked (jitter_bound attempt maximum)) * 1000), reply) :: rest)
           /\ (failures' = 0 \/ failures' = config.(c_recovery).(rc_failure_threshold)))%N.

Lemma wp_random bound s (Q : Monitor -> Result N string -> Prop) :
  down s ->
  (forall s1, down s1 -> tally s1 = tally s -> log s1 = log s ->
     Q s1 (Ok (random_upto s.(mo_keeper).(k_asked) bound))) -> wp (random bound) s Q.
Proof.
  intros Hd HQ. destruct (down_still s _ (proj1 (still_random bound s)) Hd) as [Hd1 Hl1].
  exact (HQ _ Hd1 Hl1 eq_refl).
Qed.

Lemma wp_down_sleep milliseconds s (Q : Monitor -> Result unit string -> Prop) :
  down s ->
  (forall s1 reply, down s1 -> tally s1 = tally s -> log s1 = log s ++ [(Sleep milliseconds, reply)] ->
     Q s1 (Ok tt)) ->
  wp (on_manager (run (gw_ignore (perform (Sleep milliseconds))))) s Q.
Proof.
  intros Hd HQ. unfold wp.
  assert (Hs : still (on_manager (run (gw_ignore (perform (Sleep milliseconds)))))) by auto with gate gateway.
  destruct (down_still s _ (proj1 (Hs s)) Hd) as [Hd1 Hl1]. eapply HQ; [exact Hd1|exact Hl1|reflexivity].
Qed.

Lemma wp_recover_tunnel s :
  down s -> wp (recover_tunnel config) s (fun s1 r => r = Ok tt -> down s1 /\ recovered s s1).
Proof.
  intros Hd. unfold recover_tunnel. apply wp_bind, wp_modify. cbn beta iota.
  match goal with |- wp _ ?x _ => set (s1 := x) end.
  assert (down s1 /\ tally s1 = tally s /\ log s1 = log s) as (Hd1 & Hl1 & Hp1).
  { destruct Hd as [[Ho _ Hs] Hup]. destruct (Hs Hup). split; [|done]. split; [by apply gate_ok_down|done]. }
  clearbody s1. apply wp_bind, wp_down_calm; [done|auto with gate|done|]. intros s2 [[]|e] Hd2 Hl2 Hp2; [|done].
  apply wp_bind, wp_modify, wp_bind, wp_gets. cbn beta iota zeta.
  match goal with |- wp _ ?x _ => set (s3 := x) end.
  assert (Hd3 : down s3) by done. assert (Hp3 : log s3 = log s) by (change (log s2 = log s); congruence).
  assert (Hl3 : tally s3 = ((tally s).1.1, saturating_add u32_MAX (tally s).1.2 1, (tally s).2)).
  { rewrite <- Hl1, <- Hl2. reflexivity. }
  assert (Ha3 : lo_recovery_attempt (mo_loop s3) = saturating_add u32_MAX (tally s).1.2 1).
  { exact (f_equal (fun t => t.1.2) Hl3). }
  clearbody s3. rewrite Ha3. apply wp_bind, wp_random; [done|]. intros s4 Hd4 Hl4 Hp4. cbn beta iota zeta.
  set (jitter := random_upto _ _).
  apply wp_bind, wp_down_calm; [done|auto with gate|done|]. intros s5 [ms|e] Hd5 Hl5 Hp5; [|done].
  apply wp_bind, wp_down_calm; [done|apply still_mark_recovering|done|]. intros s6 [[]|e] Hd6 Hl6 Hp6; [|done].
  apply wp_bind, wp_attempt, wp_down_disable; [done|]. intros s7 [[]|e] Hd7 Hl7 Hp7; cbn beta iota;
    rewrite Hl6, Hl5, Hl4, Hl3 in Hl7; rewrite Hp6, Hp5, Hp4, Hp3 in Hp7; clear Hl3 Hl4 Hl5 Hl6 Hp3 Hp4 Hp5 Hp6 Hl1 Hl2 Hp1 Hp2.
  - apply wp_bind, wp_down_invalidate; [done|]. intros s8 Hd8 Hl8 Hp8.
    apply wp_bind, wp_down_calm; [done|auto with gate|done|]. intros s9 [[]|e] Hd9 Hl9 Hp9; [|done].
    apply wp_bind, wp_down_sleep; [done|]. intros s10 reply Hd10 Hl10 Hp10.
    eapply wp_weaken; [|by apply wp_attempt_recovery]. cbv beta. intros s11 r Hr Hok.
    destruct (Hr Hok) as (Hd11 & [rest Hp11] & failures & Hl11 & Hf). split; [done|].
    rewrite Hl10, Hl9, Hl8, Hl7 in Hl11. rewrite Hp10, Hp9, Hp8, Hp7, <- app_assoc in Hp11.
    unfold recovered. destruct (tally s) as [[f a] su]. exists failures. split; [exact Hl11|].
    right. split; [|exact Hf]. eexists _, reply, rest. exact Hp11.
  - apply wp_down_calm; [done|auto with gate|done|]. intros s8 r Hd8 Hl8 Hp8 _. split; [done|].
    rewrite Hl7 in Hl8. rewrite Hp7 in Hp8. unfold recovered. destruct (tally s) as [[f a] su]. exists f. auto.
Qed.

(** ** The counter of ticks between two samples of the handshake *)

Definition samples s : N := s.(mo_loop).(lo_samples_since_handshake).
Definition keeps_samples {A} (m : Mon A) : Prop := forall s, samples (m s).1 = samples s.

Lemma samples_bind {A B} (m : Mon A) (f : A -> Mon B) :
  keeps_samples m -> (forall a, keeps_samples (f a)) -> keeps_samples (bind m f).
Proof.
  intros Hm Hf s. specialize (Hm s). unfold bind. destruct (m s) as [s1 [a|e]]; [|done].
  by rewrite (Hf a s1).
Qed.

Lemma samples_ret {A} (a : A) : keeps_samples (ret a). Proof. done. Qed.
Lemma samples_gets {A} (f : Monitor -> A) : keeps_samples (gets f). Proof. done. Qed.
Lemma samples_attempt {A} (m : Mon A) : keeps_samples m -> keeps_samples (attempt m).
Proof. intros Hm s. exact (Hm s). Qed.
Lemma samples_keeper {A} (m : K A) : keeps_samples (on_keeper m). Proof. done. Qed.
Lemma samples_manager {A} (m : M A) : keeps_samples (on_manager m).
Proof. intros s. unfold on_manager. by destruct (m _). Qed.
Lemma samples_loop f :
  (forall l, (f l).(lo_samples_since_handshake) = l.(lo_samples_since_handshake)) -> keeps_samples (update_loop f).
Proof. intros Hf s. apply Hf. Qed.
Lemma samples_notify : keeps_samples notify_port_change. Proof. done. Qed.
Create HintDb samples discriminated.
#[local] Hint Resolve samples_ret samples_gets samples_attempt samples_keeper samples_manager samples_loop
  samples_notify : samples.

#[local] Ltac walk :=
  repeat first
    [ progress cbv beta iota zeta
    | solve [auto with samples]
    | apply samples_bind; [|intros ?]
    | match goal with |- keeps_samples (match ?x with _ => _ end) => destruct x end ].

Lemma samples_traffic : keeps_samples (sample_traffic config).
Proof. unfold sample_traffic, now_instant, update_app, report. walk. Qed.

Lemma samples_handshake : keeps_samples (sample_handshake config).
Proof.
  unfold sample_handshake, handshake_read, handshake_unreadable, close_forwards, enable, disable, invalidate,
    notify_if, update_app, report. walk.
Qed.

Lemma samples_recover : keeps_samples (recover_tunnel config).
Proof. unfold recover_tunnel, random, disable, invalidate, update_app, report. walk. Qed.

(** ** A turn *)

Definition due s : bool := has_active_profile s.(mo_profiles) && negb (samples s <? 10)%N.

(** What a turn that ends well does.  Without a profile it does nothing; unless
    a sample is due it only counts the tick; a sample counts a success or a
    failure, and a recovery follows when enough failures were counted. *)
Definition turned (s s1 : Monitor) : Prop :=
  if due s then
    samples s1 = 0%N /\ exists m, counted (tunnel_up s1.(mo_keeper)) (tally s) (tally m)
    /\ if recovery_due config m.(mo_loop) then tunnel_up s1.(mo_keeper) = false /\ recovered m s1 else s1 = m
  else tally s1 = tally s
       /\ samples s1 = (samples s + if has_active_profile s.(mo_profiles) then 1 else 0)%N.

Hypothesis threshold_positive : (1 <= config.(c_recovery).(rc_failure_threshold))%N.

(** After a sample with a recent handshake no recovery is due. *)
Lemma counted_up_not_due up s m :
  counted up (tally s) (tally m) -> recovery_due config m.(mo_loop) = true -> up = false.
Proof using threshold_positive.
  unfold counted, recovery_due. destruct up; [|done]. intros Hm [_ Hth]%andb_true_iff.
  apply (f_equal (fun t => t.1.1)) in Hm. cbn in Hm. rewrite Hm in Hth. apply N.leb_le in Hth. lia.
Qed.

Lemma wp_monitor_turn s :
  gate_ok s.(mo_keeper) ->
  wp (monitor_turn config) s (fun s1 r => r = Ok tt -> gate_ok s1.(mo_keeper) /\ turned s s1).
Proof using threshold_positive.
  intros Hok. unfold monitor_turn. apply wp_bind, wp_gets. cbv beta iota. unfold turned, due.
  destruct (has_active_profile (mo_profiles s)) eqn:Hactive; cbn [negb andb].
  2: { intros _. split; [done|]. split; [done|]. cbn. by rewrite N.add_0_r. }
  apply wp_bind. pose proof (still_sample_traffic s) as [Hg1 _]. pose proof (samples_traffic s) as Hs1. unfold wp at 1.
  destruct (sample_traffic config s) as [s1 [[]|e]]; cbn [fst snd] in *; [|done].
  pose proof (gate_ok_still _ _ Hg1 Hok) as Hok1. apply still_fields in Hg1 as (_ & _ & _ & Hl1).
  apply wp_bind, wp_gets. cbv beta iota. change (lo_samples_since_handshake (mo_loop s1)) with (samples s1).
  rewrite Hs1. destruct (samples s <? 10)%N; cbn [negb].
  { apply wp_modify. intros _. split; [done|]. split; [exact Hl1|]. cbn. by rewrite <- Hs1. }
  apply wp_bind, wp_modify. match goal with |- wp _ ?x _ => set (s2 := x) end.
  assert (Hl2 : tally s2 = tally s) by exact Hl1. assert (Hs2 : samples s2 = 0%N) by done.
  assert (Ho2 : owned (view s2.(mo_keeper))) by apply Hok1. clearbody s2.
  pose proof (samples_handshake s2) as Hs3.
  pose proof (wp_sample_handshake s2 Ho2) as Hsampled. unfold wp in Hsampled. apply wp_bind. unfold wp at 1.
  destruct (sample_handshake config s2) as [s3 [[]|e]]; cbn [fst snd] in *; [|done].
  destruct (Hsampled eq_refl) as [Hok3 Hcount]. rewrite Hs2 in Hs3. rewrite Hl2 in Hcount.
  apply wp_bind, wp_gets. cbv beta iota. destruct (recovery_due config (mo_loop s3)) eqn:Hdue.
  - pose proof (counted_up_not_due _ _ _ Hcount Hdue) as Hup. pose proof (samples_recover s3) as Hs4.
    pose proof (wp_recover_tunnel s3 (conj Hok3 Hup)) as Hrec. unfold wp in Hrec |- *.
    destruct (recover_tunnel config s3) as [s4 r]; cbn [fst snd] in *. intros Hr. destruct (Hrec Hr) as [[Hok4 Hup4] H4s].
    split; [done|]. split; [congruence|]. exists s3. rewrite Hdue. split; [|done]. by rewrite Hup4, <- Hup.
  - intros _. split; [done|]. split; [exact Hs3|]. exists s3. by rewrite Hdue.
Qed.

(** ** The gateway's tasks *)

(** The coordinator is used by another task. *)
Definition other_task (o : EnforcementProps.Op) : bool :=
  match o with ReconcileBase _ | ReconcileClients _ _ _ | SampleCounters _ => true | _ => false end.

Definition with_clients (clients : gmap string ClientState) (app : AppState) : AppState :=
  {| as_tunnel := app.(as_tunnel); as_traffic := app.(as_traffic); as_port_forward := app.(as_port_forward);
     as_port_forwards := app.(as_port_forwards); as_clients := clients; as_last_error := app.(as_last_error) |}.

(** At start the tunnel counts as down. *)
Definition gateway_start (app : AppState) (publisher : StatePublisher) (profiles : Manager) : Monitor :=
  {| mo_keeper := keeper_start (tunnel_down app) publisher; mo_profiles := profiles; mo_loop := loop_start;
     mo_port_changes := 0 |}.

Definition with_profiles (profiles : Manager) s : Monitor :=
  {| mo_keeper := s.(mo_keeper); mo_profiles := profiles; mo_loop := s.(mo_loop);
     mo_port_changes := s.(mo_port_changes) |}.

(** Turns of the monitor and of the keeper that end well (a task that fails
    ends the gateway), and what the other tasks do between them. *)
Inductive gateway_reachable : Monitor -> Prop :=
| gw_start app publisher profiles : gateway_reachable (gateway_start app publisher profiles)
| gw_monitor s s1 : gateway_reachable s -> monitor_turn config s = (s1, Ok tt) -> gateway_reachable s1
| gw_keeper s s1 : gateway_reachable s -> on_keeper (turn config) s = (s1, Ok tt) -> gateway_reachable s1
| gw_coordinator s o :
    gateway_reachable s -> other_task o = true ->
    gateway_reachable
      (set_keeper (with_policy (EnforcementProps.run_op config o s.(mo_keeper).(k_policy)).1 s.(mo_keeper)) s)
| gw_clients s clients :
    gateway_reachable s ->
    gateway_reachable (set_keeper (with_app (with_clients clients s.(mo_keeper).(k_app)) s.(mo_keeper)) s)
| gw_publisher s publisher :
    gateway_reachable s ->
    publisher.(sp_inner).(sn_port_forwards) = s.(mo_keeper).(k_publisher).(sp_inner).(sn_port_forwards) ->
    gateway_reachable (set_keeper (with_publisher publisher s.(mo_keeper)) s)
| gw_profiles s profiles : gateway_reachable s -> gateway_reachable (with_profiles profiles s).

Lemma gate_ok_keeper k k1 : gate_ok k -> turn config k = (k1, Ok tt) -> gate_ok k1.
Proof.
  intros [Ho Ha Hs] Hturn. pose proof (wp_turn config k Ho) as Hw. pose proof (gated_turn k) as [[Hal Hshut] Ht].
  unfold wp in Hw. rewrite Hturn in Hw, Hal, Hshut, Ht. cbn [fst snd] in *. destruct Hw as (Hk & _ & Hok).
  specialize (Hok tt eq_refl). assert (Hup : tunnel_up k1 = tunnel_up k) by (unfold tunnel_up; by rewrite Ht).
  split; [exact Hk|congruence|]. rewrite Hup. intros Hdown. rewrite Hdown in Hok. destruct (Hs Hdown) as [Hsk _].
  split; [by apply Hshut|apply Hok].
Qed.

Lemma gate_ok_coordinator k o :
  other_task o = true -> gate_ok k -> gate_ok (with_policy (EnforcementProps.run_op config o k.(k_policy)).1 k).
Proof.
  intros Hoth [Ho Ha Hs].
  destruct (same_gate_op o k.(k_policy)) as [Hal Hshut]; [by destruct o|].
  split.
  - refine (owned_fewer_rules (view k) _ (intends_fewer config o _ _) Ho). by destruct o.
  - change (tunnel_up k = dnat_allowed (EnforcementProps.run_op config o (k_policy k)).1). by rewrite Hal.
  - intros Hdown. destruct (Hs Hdown) as [Hsk Hn]. split; [by apply Hshut|exact Hn].
Qed.

Lemma reachable_gate s : gateway_reachable s -> gate_ok s.(mo_keeper).
Proof using threshold_positive.
  induction 1 as [app publisher profiles|s s1 _ IH Hturn|s s1 _ IH Hturn|s o _ IH Ho|s clients _ IH
                 |s publisher _ IH Hp|s profiles _ IH]; cbn [mo_keeper set_keeper gateway_start with_profiles].
  - split; [|done|].
    + exact (reachable_owned config _ (reach_start config _ _)).
    + intros _. split; [done|]. intros u (f & Hf & _). cbn in Hf. by rewrite lookup_empty in Hf.
  - pose proof (wp_monitor_turn s IH) as Hw. unfold wp in Hw. rewrite Hturn in Hw. by apply Hw.
  - unfold on_keeper in Hturn. destruct (turn config (mo_keeper s)) as [k1 r] eqn:Hk. cbn in Hturn.
    injection Hturn as <- ->. exact (gate_ok_keeper _ _ IH Hk).
  - by apply gate_ok_coordinator.
  - destruct IH as [[Hs Hr Ht] Ha Hsh]. split; [by split|exact Ha|exact Hsh].
  - destruct IH as [[Hs Hr Ht] Ha Hsh].
    assert (Hv : view (with_publisher publisher (mo_keeper s)) = view (mo_keeper s)).
    { unfold view, published. cbn. by rewrite Hp. }
    split; rewrite ?Hv; [by split|exact Ha|exact Hsh].
  - exact IH.
Qed.

(** ** Properties *)


(** the tunnel is recovered as configured.  On every reachable state a turn
    that ends well samples the handshake when ten ticks passed since the last
    sample, counts it as a success or a failure, and starts a recovery exactly
    when the failures counted reach the threshold and recovery is enabled: the
    attempt comes after the delay for its number, with the firewall closed
    before, and it leaves no failure or as many as the threshold, so that the
    next failed sample starts the next attempt. *)
Theorem recovery_follows_failures s s1 :
  gateway_reachable s -> monitor_turn config s = (s1, Ok tt) -> turned s s1.
Proof using threshold_positive.
  intros Hs%reachable_gate Hturn. pose proof (wp_monitor_turn s Hs) as Hw. unfold wp in Hw. rewrite Hturn in Hw.
  by apply Hw.
Qed.
End gate.

(** ** A run *)

#[local] Existing Instance CidrNet.crate.
#[local] Existing Instance all_well.
#[local] Existing Instance ProfileManagerProps.no_files.
#[local] Existing Instance LeaseKeeperProps.example_gateway.
#[local] Instance example_clocks : MonitorEnv := {| instant n := N.of_nat n; random_upto _ _ := 0%N |}.

(** A recovery after the first failure. *)
Definition eager_config : @Config CidrNet.crate :=
  let c := managed_config in
  {| c_listen := c.(c_listen); c_docker_socket := c.(c_docker_socket); c_network := c.(c_network);
     c_wireguard := c.(c_wireguard); c_port_forwarding := c.(c_port_forwarding); c_dns := c.(c_dns);
     c_probe := c.(c_probe); c_external_probe := c.(c_external_probe); c_identity := c.(c_identity);
     c_persistence := c.(c_persistence); c_otel := c.(c_otel); c_vpn_server := c.(c_vpn_server);
     c_recovery := Build_RecoveryConfig true 1 2 300; c_reconcile := c.(c_reconcile);
     c_kubernetes := c.(c_kubernetes) |}.

Definition monitor_start : Monitor := gateway_start example_app (publisher_new snapshot_default) applied.
Definition monitor_after : Monitor := (monitor_turn eager_config monitor_start).1.

Lemma example_monitor_turn : monitor_turn eager_config monitor_start = (monitor_after, Ok tt).
Proof.
  assert (Hok : is_ok (monitor_turn eager_config monitor_start).2 = true) by (vm_compute; reflexivity).
  unfold monitor_after. destruct (monitor_turn eager_config monitor_start) as [s1 [[]|e]]; [reflexivity|discriminate Hok].
Qed.

Lemma eager_threshold : (1 <= rc_failure_threshold (c_recovery eager_config))%N.
Proof. vm_compute. discriminate. Qed.

Lemma monitor_after_reachable : gateway_reachable eager_config monitor_after.
Proof. exact (gw_monitor _ _ _ (gw_start _ _ _ _) example_monitor_turn). Qed.


Lemma recovery_follows_failures_witness :
  due monitor_start = true /\ tally monitor_after = (0, 1, 0)%N
  /\ bool_decide (Sleep 2000 ∈ (log monitor_after).*1) = true
  /\ turned eager_config monitor_start monitor_after.
Proof.
  split; [vm_compute; reflexivity|]. split; [vm_compute; reflexivity|]. split; [vm_compute; reflexivity|].
  exact (recovery_follows_failures eager_config eager_threshold _ _ (gw_start _ _ _ _) example_monitor_turn).
Defined.
