(* ===== verification/Probe.v ===== *)
(** The monitor of the enrolled-path probe (src/src/probe.rs): what the report
    of the probe says about the client path, the external reachability and the
    verification of forwarded ports.

    A turn is a computation on the state the tasks share ([Keeper]).  What the
    probe answers over HTTP is an argument. *)

From S2P Require Import Prelude RustStr Net BTree State Domain Config Control Machine StateErr Enforcement LeaseKeeper.

Record ReportedExternalProbe : Type := {
  rp_status : string;
  rp_observed_at_unix_ms : N;
  rp_source_public_non_tailscale : option bool;
  rp_source_matches_claimed_ip : option bool;
  rp_tcp_port_reachable : option bool;
  rp_forwarded_port : option N;
  rp_lease_acquired_at_unix_ms : option N;
  rp_request_started_at_unix_ms : option N;
  rp_reason_code : string;
  rp_safe_message : string;
}.

Record ProbeResult : Type := {
  pr_observed_at_unix_ms : N;
  pr_udp_dns_ok : bool;
  pr_tcp_dns_ok : bool;
  pr_https_egress_ok : bool;
  pr_vpn_identity_ok : bool;
  pr_expected_identity : string;
  pr_reason_code : string;
  pr_safe_message : string;
  pr_external_probe : option ReportedExternalProbe;
  pr_external_probes : option (gmap string ReportedExternalProbe);
}.

(** What a request ends in: no response, an error status, a body that does not
    decode, or a report. *)
Inductive Answer : Type :=
| SendFailed (error : string)
| BadStatus (error : string)
| BadBody (error : string)
| Report (result : ProbeResult).

(** [u64::abs_diff] *)
Definition abs_diff (a b : N) : N := if (a <? b)%N then b - a else a - b.

(** ** Correlation of a report with a lease *)

Inductive PortVerification : Type := VerifiedPort | FailedPort | UnknownPort.

Definition fresh_at (now freshness_ms at_ : N) : bool := (abs_diff now at_ <=? freshness_ms)%N.

Definition correlate_port_verification (lease : PortForwardStatus) (probe : ReportedExternalProbe)
    (now freshness_ms : N) : PortVerification :=
  if negb lease.(ps_dnat_installed) then UnknownPort
  else match probe.(rp_request_started_at_unix_ms) with
  | None => UnknownPort
  | Some request_started_at =>
      let matching_mapping :=
        bool_decide (probe.(rp_forwarded_port) = lease.(ps_external_port))
        && bool_decide (probe.(rp_lease_acquired_at_unix_ms) = lease.(ps_lease_acquired_at_unix_ms))
        && match lease.(ps_lease_acquired_at_unix_ms) with
           | Some acquired_at => (acquired_at <=? request_started_at)%N
           | None => false
           end in
      let fresh :=
        fresh_at now freshness_ms request_started_at
        && fresh_at now freshness_ms probe.(rp_observed_at_unix_ms) in
      if negb matching_mapping || negb fresh then UnknownPort
      else
        let identity_confirmed :=
          bool_decide (probe.(rp_source_public_non_tailscale) = Some true)
          && negb (bool_decide (probe.(rp_source_matches_claimed_ip) = Some false)) in
        if String.eqb probe.(rp_status) "healthy"
           && String.eqb probe.(rp_reason_code) "external_probe.healthy" && identity_confirmed
           && bool_decide (probe.(rp_tcp_port_reachable) = Some true)
        then VerifiedPort
        else if String.eqb probe.(rp_status) "degraded"
           && String.eqb probe.(rp_reason_code) "external_probe.port_unreachable" && identity_confirmed
           && bool_decide (probe.(rp_tcp_port_reachable) = Some false)
        then FailedPort
        else UnknownPort
  end.

Definition set_verification (phase : PortForwardPhase) (verified : option bool) (lease : PortForwardStatus)
    : PortForwardStatus :=
  {| ps_phase := phase; ps_requested_target := lease.(ps_requested_target);
     ps_internal_port := lease.(ps_internal_port); ps_external_port := lease.(ps_external_port);
     ps_tcp_udp_agree := lease.(ps_tcp_udp_agree);
     ps_lease_acquired_at_unix_ms := lease.(ps_lease_acquired_at_unix_ms);
     ps_lease_expires_at_unix_ms := lease.(ps_lease_expires_at_unix_ms);
     ps_dnat_installed := lease.(ps_dnat_installed); ps_externally_verified := verified;
     ps_change_sequence := lease.(ps_change_sequence);
     ps_changed_at_unix_ms := lease.(ps_changed_at_unix_ms) |}.

(** No evidence: an installed lease is just installed. *)
Definition unverified (lease : PortForwardStatus) : PortForwardStatus :=
  set_verification (if lease.(ps_dnat_installed) then Installed else lease.(ps_phase)) None lease.

Definition apply_verification (probe : ReportedExternalProbe) (now freshness_ms : N)
    (lease : PortForwardStatus) : PortForwardStatus :=
  match correlate_port_verification lease probe now freshness_ms with
  | VerifiedPort => set_verification PhaseVerified (Some true) lease
  | FailedPort => set_verification VerificationFailed (Some false) lease
  | UnknownPort => unverified lease
  end.

(** ** The published result *)

Definition reported_status (probe : ReportedExternalProbe) : option ExternalProbeStatus :=
  if String.eqb probe.(rp_status) "healthy" then Some ExHealthy
  else if String.eqb probe.(rp_status) "degraded" then Some ExDegraded
  else if String.eqb probe.(rp_status) "unavailable" then Some ExUnavailable
  else None.

Definition is_stale (probe : ReportedExternalProbe) (now freshness_ms : N) : bool :=
  negb (fresh_at now freshness_ms probe.(rp_observed_at_unix_ms))
  || match probe.(rp_request_started_at_unix_ms) with
     | Some started_at => negb (fresh_at now freshness_ms started_at)
     | None => false
     end.

(** [canonical_probe_result]; the mutation of [observe_external_probe] assigns
    the same fields. *)
Definition canonical_probe_result (probe : ReportedExternalProbe) (now freshness_ms : N) : ExternalProbeResult :=
  let status := reported_status probe in
  let stale := is_stale probe now freshness_ms in
  let malformed := negb (bool_decide (is_Some status)) in
  let unavailable := stale || malformed in
  let available {A} (field : option A) : option A := if unavailable then None else field in
  {| er_status := if unavailable then ExUnavailable else default ExUnknown status;
     er_observed_at_unix_ms := Some probe.(rp_observed_at_unix_ms);
     er_source_public_non_tailscale := available probe.(rp_source_public_non_tailscale);
     er_source_matches_claimed_ip := available probe.(rp_source_matches_claimed_ip);
     er_tcp_port_reachable := available probe.(rp_tcp_port_reachable);
     er_forwarded_port := available probe.(rp_forwarded_port);
     er_lease_acquired_at_unix_ms := available probe.(rp_lease_acquired_at_unix_ms);
     er_request_started_at_unix_ms := available probe.(rp_request_started_at_unix_ms);
     er_reason_code := Some (if stale then "external_probe.unavailable"
                             else if malformed then "external_probe.invalid_response"
                             else probe.(rp_reason_code));
     er_safe_message :=
       Some (if stale then "The external probe evidence is stale; tunnel protection is unchanged"
             else if malformed then "The external probe returned an invalid status"
             else probe.(rp_safe_message)) |}.

(** [min_by_key] with keys 0 and 1: of equals the first wins. *)
Definition worst_result (results : list ExternalProbeResult) : option ExternalProbeResult :=
  let bad := List.filter (fun r => negb (bool_decide (r.(er_status) = ExHealthy))) results in
  match find (fun r => bool_decide (r.(er_status) = ExDegraded)) bad with
  | Some r => Some r
  | None => head bad
  end.

Definition aggregate_external_probe_check (results : gmap string ExternalProbeResult)
    : CheckStatus * string * string :=
  match worst_result (btree_values String.leb results) with
  | Some result =>
      (Degraded, default "external_probe.unavailable" result.(er_reason_code),
       default "External reachability could not be confirmed for every forwarded port" result.(er_safe_message))
  | None =>
      if (size results =? 0)%nat
      then (Degraded, "external_probe.unavailable", "The enrolled-path probe reported no external results")
      else (Healthy, "external_probe.healthy",
            "All " +:+ show_nat (size results)
            +:+ " forwarded-port usages were reachable from a public, non-Tailscale source")
  end.

(** ** The closures given to [mutate] *)

Definition with_probes (s : CanonicalSnapshot) (forward : PortForwardStatus)
    (forwards : gmap string PortForwardStatus) (probe : ExternalProbeResult)
    (probes : gmap string ExternalProbeResult) : CanonicalSnapshot :=
  {| sn_schema_version := s.(sn_schema_version); sn_sequence := s.(sn_sequence);
     sn_generated_at_unix_ms := s.(sn_generated_at_unix_ms); sn_protection := s.(sn_protection);
     sn_availability := s.(sn_availability); sn_checks := s.(sn_checks);
     sn_transitions := s.(sn_transitions); sn_port_forward := forward; sn_port_forwards := forwards;
     sn_recovery := s.(sn_recovery); sn_external_probe := probe; sn_external_probes := probes;
     sn_vpn_server := s.(sn_vpn_server); sn_isolation_policy := s.(sn_isolation_policy);
     sn_host_policy := s.(sn_host_policy); sn_topology := s.(sn_topology); sn_clients := s.(sn_clients);
     sn_traffic := s.(sn_traffic);
     sn_last_client_path_success_at_unix_ms := s.(sn_last_client_path_success_at_unix_ms);
     sn_profile_management := s.(sn_profile_management) |}.

Definition identity_of (lease : PortForwardStatus) : option N * option N :=
  (lease.(ps_external_port), lease.(ps_lease_acquired_at_unix_ms)).

Definition report_all (reports : gmap string ReportedExternalProbe) (now freshness_ms : N)
    (s : CanonicalSnapshot) : CanonicalSnapshot :=
  let probes := (fun report => canonical_probe_result report now freshness_ms) <$> reports in
  let forwards :=
    map_imap (fun usage_id lease =>
      let lease := unverified lease in
      Some (match reports !! usage_id with
            | Some report => apply_verification report now freshness_ms lease
            | None => lease
            end)) s.(sn_port_forwards) in
  match find (fun '(_, lease) => bool_decide (identity_of lease = identity_of s.(sn_port_forward)))
          (btree_iter String.leb forwards) with
  | Some (usage_id, lease) =>
      with_probes s lease forwards (default s.(sn_external_probe) (probes !! usage_id)) probes
  | None => with_probes s s.(sn_port_forward) forwards s.(sn_external_probe) probes
  end.

(** [iter_mut().find(..)] and a change of what it finds *)
Definition alter_first (f : string * PortForwardStatus -> bool) (g : PortForwardStatus -> PortForwardStatus)
    (forwards : gmap string PortForwardStatus) : gmap string PortForwardStatus :=
  match find f (btree_iter String.leb forwards) with
  | Some (usage_id, _) => alter g usage_id forwards
  | None => forwards
  end.

(** The primary forward takes [forward]; so does the installed lease that it
    stands for. *)
Definition report_primary (forward : PortForwardStatus) (probe : ExternalProbeResult) (s : CanonicalSnapshot)
    : CanonicalSnapshot :=
  let primary_identity := identity_of s.(sn_port_forward) in
  with_probes s forward
    (alter_first
       (fun '(_, status) => bool_decide (identity_of status = primary_identity) && status.(ps_dnat_installed))
       (set_verification forward.(ps_phase) forward.(ps_externally_verified))
       s.(sn_port_forwards))
    probe s.(sn_external_probes).

Definition report_one (report : ReportedExternalProbe) (now freshness_ms : N) (s : CanonicalSnapshot)
    : CanonicalSnapshot :=
  report_primary (apply_verification report now freshness_ms s.(sn_port_forward))
    (canonical_probe_result report now freshness_ms) s.

Definition unavailable_result (now : N) (reason_code safe_message : string) : ExternalProbeResult :=
  {| er_status := ExUnavailable; er_observed_at_unix_ms := Some now;
     er_source_public_non_tailscale := None; er_source_matches_claimed_ip := None;
     er_tcp_port_reachable := None; er_forwarded_port := None; er_lease_acquired_at_unix_ms := None;
     er_request_started_at_unix_ms := None; er_reason_code := Some reason_code;
     er_safe_message := Some safe_message |}.

Definition report_none (now : N) (reason_code safe_message : string) (s : CanonicalSnapshot)
    : CanonicalSnapshot :=
  report_primary (unverified s.(sn_port_forward)) (unavailable_result now reason_code safe_message) s.

Definition path_succeeded (at_ : N) (s : CanonicalSnapshot) : CanonicalSnapshot :=
  {| sn_schema_version := s.(sn_schema_version); sn_sequence := s.(sn_sequence);
     sn_generated_at_unix_ms := s.(sn_generated_at_unix_ms); sn_protection := s.(sn_protection);
     sn_availability := s.(sn_availability); sn_checks := s.(sn_checks);
     sn_transitions := s.(sn_transitions); sn_port_forward := s.(sn_port_forward);
     sn_port_forwards := s.(sn_port_forwards); sn_recovery := s.(sn_recovery);
     sn_external_probe := s.(sn_external_probe); sn_external_probes := s.(sn_external_probes);
     sn_vpn_server := s.(sn_vpn_server); sn_isolation_policy := s.(sn_isolation_policy);
     sn_host_policy := s.(sn_host_policy); sn_topology := s.(sn_topology); sn_clients := s.(sn_clients);
     sn_traffic := s.(sn_traffic); sn_last_client_path_success_at_unix_ms := Some at_;
     sn_profile_management := s.(sn_profile_management) |}.

(** ** The observations *)

Section probe.
Context `{!IpNetCrate, !KeeperEnv} (config : Config).

Definition check (id : string) (status : CheckStatus) (impact : Impact) (reason_code message : string) : K unit :=
  LeaseKeeper.observe
    {| ob_id := id; ob_status := status; ob_impact := impact; ob_reason_code := reason_code;
       ob_safe_message := message; ob_next_attempt_at_unix_ms := None; ob_recovery_attempt := None |}.

Definition snapshot : K CanonicalSnapshot := gets (fun s => s.(k_publisher).(sp_snapshots)).

Definition external_probe_freshness_ms : N :=
  saturating_mul u64_MAX
    (saturating_add u64_MAX
       (saturating_add u64_MAX config.(c_external_probe).(xp_interval_seconds)
          config.(c_external_probe).(xp_timeout_seconds))
       config.(c_probe).(pb_interval_seconds)) 1000.

Definition observe_unavailable : K unit :=
  check "client_path.egress" Degraded Advisory "probe.unavailable"
    "The enrolled-path probe is unavailable; tunnel protection is unchanged".

Definition observe_verification (total verified failed : nat) : K unit :=
  let status :=
    if (0 <? failed)%nat then Degraded
    else if (0 <? total)%nat && (verified =? total)%nat then Healthy else Unknown in
  let reason_code :=
    if (0 <? failed)%nat then "port_forward.verification_failed"
    else if (0 <? total)%nat && (verified =? total)%nat then "port_forward.externally_verified"
    else "port_forward.verification_unknown" in
  check "port_forward.verification" status Optional reason_code
    (show_nat verified +:+ " of " +:+ show_nat total +:+ " forwarded ports are reachable from the internet").

Definition verified_as (b : bool) (leases : list PortForwardStatus) : list PortForwardStatus :=
  List.filter (fun lease => bool_decide (lease.(ps_externally_verified) = Some b)) leases.

Definition observe_external_probes (reports : gmap string ReportedExternalProbe) (freshness_ms : N) : K unit :=
  let* now := unix_ms in
  let* _ := LeaseKeeper.mutate (report_all reports now freshness_ms) in
  let* s := snapshot in
  let leases := btree_values String.leb s.(sn_port_forwards) in
  let* _ := observe_verification (size s.(sn_port_forwards)) (length (verified_as true leases))
              (length (verified_as false leases)) in
  let '(status, reason_code, safe_message) := aggregate_external_probe_check s.(sn_external_probes) in
  check "external_probe" status Advisory reason_code safe_message.

Definition observe_external_probe (report : ReportedExternalProbe) (freshness_ms : N) : K unit :=
  let* now := unix_ms in
  let result := canonical_probe_result report now freshness_ms in
  let* _ := LeaseKeeper.mutate (report_one report now freshness_ms) in
  let* s := snapshot in
  let verification := s.(sn_port_forward).(ps_externally_verified) in
  let* _ :=
    check "port_forward.verification"
      (match verification with Some true => Healthy | Some false => Degraded | None => Unknown end) Optional
      (match verification with
       | Some true => "port_forward.externally_verified"
       | Some false => "port_forward.verification_failed"
       | None => "port_forward.verification_unknown"
       end)
      (match verification with
       | Some true => "The active forwarded-port mapping was reachable externally"
       | Some false => "The active forwarded-port mapping was explicitly unreachable"
       | None => "No fresh external evidence matches the active forwarded-port mapping"
       end) in
  check "external_probe" (if bool_decide (result.(er_status) = ExHealthy) then Healthy else Degraded) Advisory
    (default "" result.(er_reason_code)) (default "" result.(er_safe_message)).

Definition observe_external_probe_unavailable (reason_code safe_message : string) : K unit :=
  let* now := unix_ms in
  let* _ := LeaseKeeper.mutate (report_none now reason_code safe_message) in
  let* _ := check "port_forward.verification" Unknown Optional "port_forward.verification_unknown"
              "No fresh external evidence matches the active forwarded-port mapping" in
  check "external_probe" Degraded Advisory reason_code safe_message.

(** ** A turn of [monitor] *)

Definition identity_matches (result : ProbeResult) : bool :=
  negb config.(c_identity).(iv_enabled)
  || String.eqb (to_ascii_lowercase result.(pr_expected_identity))
       (to_ascii_lowercase (expected_value config.(c_identity).(iv_matcher))).

Definition if_external (m : K unit) : K unit :=
  if config.(c_external_probe).(xp_enabled) then m else ret tt.

Definition handle_report (result : ProbeResult) : K unit :=
  let dns_ok := result.(pr_udp_dns_ok) && result.(pr_tcp_dns_ok) in
  let* _ := check "client_path.dns" (if dns_ok then Healthy else Domain.Failed) Critical
              (if dns_ok then "probe.dns_healthy" else "probe.dns_failed")
              (if dns_ok then "UDP and TCP DNS succeeded through the enrolled path"
               else "DNS failed through the enrolled path") in
  let egress_ok := result.(pr_https_egress_ok) && result.(pr_vpn_identity_ok) in
  let matches := identity_matches result in
  let* _ := check "client_path.egress" (if egress_ok && matches then Healthy else Degraded) Advisory
              (if matches then result.(pr_reason_code) else "probe.identity_configuration_mismatch")
              (if matches then result.(pr_safe_message)
               else "The probe and daemon expected-identity settings differ") in
  let* _ := if dns_ok && egress_ok && matches
            then LeaseKeeper.mutate (path_succeeded result.(pr_observed_at_unix_ms)) else ret tt in
  if_external
    match result.(pr_external_probes), result.(pr_external_probe) with
    | Some reports, _ => observe_external_probes reports external_probe_freshness_ms
    | None, Some report => observe_external_probe report external_probe_freshness_ms
    | None, None =>
        observe_external_probe_unavailable "external_probe.unavailable"
          "The external probe is enabled but no result has been reported yet"
    end.

Definition probe_turn (answer : Answer) : K unit :=
  match answer with
  | Report result => handle_report result
  | BadBody _ =>
      let* _ := observe_unavailable in
      if_external (observe_external_probe_unavailable "external_probe.invalid_response"
        "The enrolled-path probe returned an invalid external result")
  | SendFailed _ | BadStatus _ =>
      let* _ := observe_unavailable in
      if_external (observe_external_probe_unavailable "external_probe.unavailable"
        "The enrolled-path probe is unavailable; external reachability is unknown")
  end.
End probe.
