(* ===== verification/ProbeProps.v ===== *)
(** The probe monitor: a forwarded port is published as verified only on fresh
    evidence for exactly its lease, and the checks agree with the results. *)

From S2P Require Import Prelude RustStr Net BTree Order State Domain Config ConfigProps Control Machine StateErr Enforcement EnforcementProps LeaseKeeper LeaseKeeperProps Probe.

(** ** Evidence *)

Lemma abs_diff_spec a b d : (abs_diff a b <= d)%N <-> (a <= b + d)%N /\ (b <= a + d)%N.
Proof. unfold abs_diff. destruct (N.ltb_spec a b); lia. Qed.

(** What a report must say about a lease for its port to count as reachable
    ([true]) or unreachable ([false]). *)
Record evidence (lease : PortForwardStatus) (report : ReportedExternalProbe) (now freshness_ms : N)
    (reachable : bool) : Prop := {
  ev_installed : lease.(ps_dnat_installed) = true;
  ev_port : report.(rp_forwarded_port) = lease.(ps_external_port);
  ev_lease : exists acquired started,
    lease.(ps_lease_acquired_at_unix_ms) = Some acquired
    /\ report.(rp_lease_acquired_at_unix_ms) = Some acquired
    /\ report.(rp_request_started_at_unix_ms) = Some started
    /\ (acquired <= started)%N /\ (now <= started + freshness_ms)%N /\ (started <= now + freshness_ms)%N;
  ev_observed : (now <= report.(rp_observed_at_unix_ms) + freshness_ms)%N
                /\ (report.(rp_observed_at_unix_ms) <= now + freshness_ms)%N;
  ev_public : report.(rp_source_public_non_tailscale) = Some true;
  ev_source : report.(rp_source_matches_claimed_ip) <> Some false;
  ev_tcp : report.(rp_tcp_port_reachable) = Some reachable;
  ev_verdict : (report.(rp_status), report.(rp_reason_code)) =
    if reachable then ("healthy", "external_probe.healthy") else ("degraded", "external_probe.port_unreachable");
}.

Definition verdict_of (v : PortVerification) : option bool :=
  match v with VerifiedPort => Some true | FailedPort => Some false | UnknownPort => None end.

Lemma correlate_spec lease report now freshness_ms b :
  verdict_of (correlate_port_verification lease report now freshness_ms) = Some b
  <-> evidence lease report now freshness_ms b.
Proof.
  unfold correlate_port_verification. split.
  - intros Hv. destruct (ps_dnat_installed lease) eqn:Hi; [|discriminate Hv]. cbn [negb] in Hv.
    destruct (rp_request_started_at_unix_ms report) as [started|] eqn:Hs; [|discriminate Hv].
    destruct (_ && _ && _) eqn:Hm; [|discriminate Hv]. cbn [negb orb] in Hv.
    destruct (_ && _) eqn:Hf in Hv; [|discriminate Hv]. cbn [negb] in Hv.
    destruct (ps_lease_acquired_at_unix_ms lease) as [acquired|] eqn:Ha; [|by rewrite andb_false_r in Hm].
    unfold fresh_at in Hf. simplify_bools. rewrite abs_diff_spec in *.
    assert (Hcommon : forall reachable,
      bool_decide (rp_source_public_non_tailscale report = Some true)
        && negb (bool_decide (rp_source_matches_claimed_ip report = Some false)) = true ->
      rp_tcp_port_reachable report = Some reachable ->
      (rp_status report, rp_reason_code report)
        = (if reachable then ("healthy", "external_probe.healthy") else ("degraded", "external_probe.port_unreachable")) ->
      evidence lease report now freshness_ms reachable).
    { intros reachable Hid Ht Hverdict. simplify_bools. decompose_all. split; try done.
      exists acquired, started. split_and!; congruence || done. }
    destruct (_ && _ && _ && _) eqn:Hok in Hv.
    + injection Hv as <-. simplify_bools. apply Hcommon; [|done|congruence].
      apply andb_true_iff. split; [by apply bool_decide_eq_true|by apply negb_true_iff, bool_decide_eq_false].
    + clear Hok. destruct (_ && _ && _ && _) eqn:Hbad in Hv; [|discriminate Hv].
      injection Hv as <-. simplify_bools. apply Hcommon; [|done|congruence].
      apply andb_true_iff. split; [by apply bool_decide_eq_true|by apply negb_true_iff, bool_decide_eq_false].
  - intros [Hi Hp (acquired & started & Ha & Ha' & Hs & Hle & Hn1 & Hn2) [Ho1 Ho2] Hpub Hsrc Ht Hverdict].
    rewrite Hi, Hs, Hp, Ha, Ha', Hpub, Ht, (bool_decide_eq_false_2 _ Hsrc). unfold fresh_at.
    rewrite !bool_decide_eq_true_2 by done.
    assert (forall x y d, (x <= y + d)%N -> (y <= x + d)%N -> (abs_diff x y <=? d)%N = true) as Hfresh.
    { intros x y d ? ?. by apply N.leb_le, abs_diff_spec. }
    rewrite !Hfresh by done. apply N.leb_le in Hle. rewrite Hle. cbn [negb andb orb].
    destruct b; injection Hverdict as -> ->; reflexivity.
Qed.

Lemma apply_verification_spec report now freshness_ms lease b :
  (apply_verification report now freshness_ms lease).(ps_externally_verified) = Some b
  <-> evidence lease report now freshness_ms b.
Proof.
  rewrite <- correlate_spec. unfold apply_verification.
  destruct (correlate_port_verification _ _ _ _); cbn; naive_solver.
Qed.

Lemma evidence_unverified lease report now freshness_ms b :
  evidence (unverified lease) report now freshness_ms b <-> evidence lease report now freshness_ms b.
Proof. split; intros []; by split. Qed.

(** The phase says the same as the verification. *)
Definition phase_agrees (lease : PortForwardStatus) : Prop :=
  (lease.(ps_externally_verified) = Some true <-> lease.(ps_phase) = PhaseVerified)
  /\ (lease.(ps_externally_verified) = Some false <-> lease.(ps_phase) = VerificationFailed).

(** A lease without a rule is in none of the phases of verification. *)
Definition phase_sane (lease : PortForwardStatus) : Prop :=
  lease.(ps_dnat_installed) = false -> lease.(ps_phase) <> PhaseVerified /\ lease.(ps_phase) <> VerificationFailed.

Lemma apply_verification_phase report now freshness_ms lease :
  phase_sane lease -> phase_agrees (apply_verification report now freshness_ms lease).
Proof.
  intros Hs. unfold apply_verification. destruct (correlate_port_verification _ _ _ _); [done..|].
  unfold phase_agrees, unverified. cbn. destruct (ps_dnat_installed lease) eqn:Hi; [done|].
  destruct (Hs Hi). naive_solver.
Qed.

(** ** The published leases *)

Lemma report_all_forward reports now freshness_ms s usage_id :
  (report_all reports now freshness_ms s).(sn_port_forwards) !! usage_id
  = (fun lease => match reports !! usage_id with
                  | Some report => apply_verification report now freshness_ms (unverified lease)
                  | None => unverified lease
                  end) <$> s.(sn_port_forwards) !! usage_id.
Proof.
  unfold report_all. set (forwards := map_imap _ _).
  assert (Hf : forwards !! usage_id
    = (fun lease => match reports !! usage_id with
                    | Some report => apply_verification report now freshness_ms (unverified lease)
                    | None => unverified lease end) <$> s.(sn_port_forwards) !! usage_id).
  { unfold forwards. rewrite map_lookup_imap. by destruct (sn_port_forwards s !! usage_id). }
  destruct (find _ _) as [[? ?]|]; exact Hf.
Qed.

Section probe.
Context `{!IpNetCrate, !KeeperEnv} (config : Config).
Implicit Types (k : Keeper).

Definition forward_of k usage_id : option PortForwardStatus := published k !! usage_id.

Lemma quiet_check id status impact reason message : quiet (check id status impact reason message).
Proof. apply quiet_observe. Qed.

Lemma published_view k k1 : view k1 = view k -> published k1 = published k.
Proof. intros Hv. exact (f_equal v_published Hv). Qed.

(** Publishing a change of the snapshot, then checks. *)
Lemma wp_published f (m : K unit) k (Q : Keeper -> Result unit string -> Prop) :
  quiet m ->
  (forall k1 r, published k1 = sn_port_forwards (f k.(k_publisher).(sp_inner)) -> Q k1 r) ->
  wp (let* _ := LeaseKeeper.mutate f in m) k Q.
Proof.
  intros Hm HQ. apply wp_bind, wp_mutate. intros k1 Hv1. apply keeper_wp_quiet; [exact Hm|].
  intros k2 r Hv2. apply HQ. rewrite (published_view k1 k2 Hv2). exact (f_equal v_published Hv1).
Qed.

Lemma quiet_if_external m : quiet m -> quiet (if_external config m).
Proof. unfold if_external. by destruct (xp_enabled _). Qed.

Lemma wp_observe_all reports freshness_ms k :
  wp (observe_external_probes reports freshness_ms) k (fun k1 _ =>
    published k1 = sn_port_forwards (report_all reports (clock k.(k_asked)) freshness_ms k.(k_publisher).(sp_inner))).
Proof.
  unfold observe_external_probes. apply wp_bind. unfold unix_ms, wp at 1. cbn [fst snd].
  apply wp_published; [|done]. apply keeper_quiet_bind; [done|]. intros s.
  apply keeper_quiet_bind; [apply quiet_check|]. intros _.
  destruct (aggregate_external_probe_check _) as [[status reason] message]. apply quiet_check.
Qed.

(** What a report of the usages makes of the published leases. *)
Definition judged (reports : gmap string ReportedExternalProbe) (now freshness_ms : N)
    (before after : gmap string PortForwardStatus) : Prop :=
  forall usage_id, after !! usage_id
    = (fun lease => match reports !! usage_id with
                    | Some report => apply_verification report now freshness_ms (unverified lease)
                    | None => unverified lease
                    end) <$> before !! usage_id.

Lemma wp_path_checks (result : ProbeResult) (m : K unit) k (Q : Keeper -> Result unit string -> Prop) :
  (forall k1, published k1 = published k -> wp m k1 Q) ->
  (forall k1 e, Q k1 (Err e)) ->
  wp (let* _ := check "client_path.dns"
                  (if result.(pr_udp_dns_ok) && result.(pr_tcp_dns_ok) then Healthy else Domain.Failed) Critical
                  (if result.(pr_udp_dns_ok) && result.(pr_tcp_dns_ok) then "probe.dns_healthy" else "probe.dns_failed")
                  (if result.(pr_udp_dns_ok) && result.(pr_tcp_dns_ok)
                   then "UDP and TCP DNS succeeded through the enrolled path"
                   else "DNS failed through the enrolled path") in
      let* _ := check "client_path.egress"
                  (if result.(pr_https_egress_ok) && result.(pr_vpn_identity_ok) && identity_matches config result
                   then Healthy else Degraded) Advisory
                  (if identity_matches config result then result.(pr_reason_code)
                   else "probe.identity_configuration_mismatch")
                  (if identity_matches config result then result.(pr_safe_message)
                   else "The probe and daemon expected-identity settings differ") in
      let* _ := if result.(pr_udp_dns_ok) && result.(pr_tcp_dns_ok)
                   && (result.(pr_https_egress_ok) && result.(pr_vpn_identity_ok)) && identity_matches config result
                then LeaseKeeper.mutate (path_succeeded result.(pr_observed_at_unix_ms)) else ret tt in m) k Q.
Proof.
  intros Hm Hfail. apply wp_bind, keeper_wp_quiet; [apply quiet_check|]. intros k1 [[]|e] Hv1; [|apply Hfail].
  apply wp_bind, keeper_wp_quiet; [apply quiet_check|]. intros k2 [[]|e] Hv2; [|apply Hfail]. apply wp_bind.
  assert (Hp2 : published k2 = published k) by by rewrite (published_view k1 k2 Hv2), (published_view k k1 Hv1).
  destruct (_ && _ && _).
  - apply wp_mutate. intros k3 Hv3. apply Hm. rewrite <- Hp2. exact (f_equal v_published Hv3).
  - by apply Hm.
Qed.

Lemma wp_report_usages result reports k :
  config.(c_external_probe).(xp_enabled) = true -> result.(pr_external_probes) = Some reports ->
  wp (probe_turn config (Report result)) k (fun k1 r =>
    r = Ok tt -> exists n, judged reports (clock n) (external_probe_freshness_ms config) (published k) (published k1)).
Proof.
  intros Hext Hreports. cbn [probe_turn]. unfold handle_report. cbv zeta. apply wp_path_checks; [|done].
  intros k1 Hp1. unfold if_external. rewrite Hext, Hreports.
  eapply wp_weaken; [|apply wp_observe_all]. cbv beta. intros k2 r Hp2 _. exists (k_asked k1). intros usage_id.
  rewrite Hp2, report_all_forward. fold (published k1). by rewrite Hp1.
Qed.


(** ** Advisory evidence *)

(** The checks that protection depends on. *)
Definition guards (s : CanonicalSnapshot) : option SubsystemCheck * option SubsystemCheck :=
  (s.(sn_checks) !! "gateway.firewall", s.(sn_checks) !! "gateway.routes").

Definition aggregated (s : CanonicalSnapshot) : Prop := s.(sn_protection) = derive_protection s.(sn_checks).

Definition inner k : CanonicalSnapshot := k.(k_publisher).(sp_inner).

(** A computation that reports, and changes neither the enforcement nor the
    published protection. *)
Definition advisory {A} (m : K A) : Prop := forall k,
  aggregated (inner k) -> aggregated (inner (m k).1) /\ guards (inner (m k).1) = guards (inner k)
  /\ (m k).1.(k_policy) = k.(k_policy) /\ (m k).1.(k_leases) = k.(k_leases) /\ (m k).1.(k_app) = k.(k_app)
  /\ exists a, (m k).2 = Ok a.

Lemma guards_protection s s1 : guards s = guards s1 -> derive_protection s.(sn_checks) = derive_protection s1.(sn_checks).
Proof. unfold guards, derive_protection. by intros [= -> ->]. Qed.

Lemma advisory_bind {A B} (m : K A) (f : A -> K B) : advisory m -> (forall a, advisory (f a)) -> advisory (bind m f).
Proof.
  intros Hm Hf k Hk. destruct (Hm k Hk) as (Ha & Hg & Hp & Hl & Happ & a & Hr). unfold bind.
  destruct (m k) as [k1 r]. cbn in *. subst r. destruct (Hf a k1 Ha) as (Ha1 & Hg1 & Hp1 & Hl1 & Happ1 & Hr1).
  split_and!; congruence || done.
Qed.

Lemma advisory_ret {A} (a : A) : advisory (ret a). Proof. intros k Hk. by split_and!; [..|eexists]. Qed.
Lemma advisory_now : advisory unix_ms. Proof. intros k Hk. by split_and!; [..|eexists]. Qed.
Lemma advisory_gets {A} (f : Keeper -> A) : advisory (gets f). Proof. intros k Hk. by split_and!; [..|eexists]. Qed.

Lemma advisory_mutate f :
  (forall s, sn_checks (f s) = sn_checks s) -> advisory (LeaseKeeper.mutate f).
Proof. intros Hf k _. unfold guards, inner. cbn. rewrite Hf. by split_and!; [..|eexists]. Qed.

Lemma advisory_check id status impact reason message :
  id <> "gateway.firewall" -> id <> "gateway.routes" -> advisory (check id status impact reason message).
Proof.
  intros Hfw Hrt k _. unfold guards, inner, aggregated. cbn. unfold Control.observe.
  destruct (observation_changed _ _ _); cbn; rewrite !lookup_insert_ne by done; by split_and!; [..|eexists].
Qed.

#[local] Ltac advisory_tac :=
  repeat first
    [ progress cbv beta iota zeta
    | lazymatch goal with
      | |- advisory (check _ _ _ _ _) => apply advisory_check; discriminate
      | |- advisory (bind _ _) => apply advisory_bind; [|intros ?]
      | |- advisory (ret _) => apply advisory_ret
      | |- advisory unix_ms => apply advisory_now
      | |- advisory (gets _) => apply advisory_gets
      end
    | match goal with |- advisory (match ?x with _ => _ end) => destruct x end ].

Lemma advisory_report_primary forward probe s : sn_checks (report_primary forward probe s) = sn_checks s.
Proof. done. Qed.

Lemma advisory_report_all reports now freshness_ms s : sn_checks (report_all reports now freshness_ms s) = sn_checks s.
Proof. unfold report_all. by destruct (find _ _) as [[? ?]|]. Qed.

Lemma advisory_turn answer : advisory (probe_turn config answer).
Proof.
  unfold probe_turn, handle_report, if_external, observe_unavailable, observe_external_probe_unavailable,
    observe_external_probe, observe_external_probes, observe_verification, snapshot.
  destruct answer as [e|e|e|result]; advisory_tac;
    (apply advisory_mutate; intros s; first [reflexivity | apply advisory_report_all]).
Qed.

(** the probe only reports.  Whatever it answers, a turn of its monitor ends
    well and leaves the enforcement, the leases and the gateway's state alone,
    and the published protection with the checks it is derived from as they
    were. *)
Theorem probe_is_advisory answer k :
  aggregated (inner k) ->
  exists k1, probe_turn config answer k = (k1, Ok tt)
    /\ k1.(k_policy) = k.(k_policy) /\ k1.(k_leases) = k.(k_leases) /\ k1.(k_app) = k.(k_app)
    /\ (inner k1).(sn_protection) = (inner k).(sn_protection).
Proof.
  intros Hk. destruct (advisory_turn answer k Hk) as (Ha & Hg & Hp & Hl & Happ & [] & Hr).
  exists (probe_turn config answer k).1. split; [by rewrite <- Hr; destruct (probe_turn config answer k)|].
  split_and!; [done..|]. rewrite Ha, Hk. by apply guards_protection.
Qed.
End probe.

(** ** Runs *)

#[local] Existing Instance CidrNet.crate.
#[local] Existing Instance LeaseKeeperProps.example_gateway.

Definition probed_config : @Config CidrNet.crate :=
  let c := example_config in
  {| c_listen := c.(c_listen); c_docker_socket := c.(c_docker_socket); c_network := c.(c_network);
     c_wireguard := c.(c_wireguard); c_port_forwarding := c.(c_port_forwarding); c_dns := c.(c_dns);
     c_probe := c.(c_probe);
     c_external_probe := Build_ExternalProbeConfig true "egressy" "https://probe.example" 10 5 None;
     c_identity := c.(c_identity); c_persistence := c.(c_persistence); c_otel := c.(c_otel);
     c_vpn_server := c.(c_vpn_server); c_recovery := c.(c_recovery); c_reconcile := c.(c_reconcile);
     c_kubernetes := c.(c_kubernetes) |}.

Definition example_lease (port : N) : PortForwardStatus :=
  {| ps_phase := Installed; ps_requested_target := Some "client"; ps_internal_port := Some 8080%N;
     ps_external_port := Some port; ps_tcp_udp_agree := Some true;
     ps_lease_acquired_at_unix_ms := Some 500%N; ps_lease_expires_at_unix_ms := Some 60500%N;
     ps_dnat_installed := true; ps_externally_verified := None; ps_change_sequence := 1;
     ps_changed_at_unix_ms := Some 500%N |}.

Definition example_report (port : N) : ReportedExternalProbe :=
  {| rp_status := "healthy"; rp_observed_at_unix_ms := 900; rp_source_public_non_tailscale := Some true;
     rp_source_matches_claimed_ip := Some true; rp_tcp_port_reachable := Some true;
     rp_forwarded_port := Some port; rp_lease_acquired_at_unix_ms := Some 500%N;
     rp_request_started_at_unix_ms := Some 800%N; rp_reason_code := "external_probe.healthy";
     rp_safe_message := "reachable" |}.

Definition example_result : ProbeResult :=
  {| pr_observed_at_unix_ms := 900; pr_udp_dns_ok := true; pr_tcp_dns_ok := true; pr_https_egress_ok := true;
     pr_vpn_identity_ok := true; pr_expected_identity := ""; pr_reason_code := "probe.path_healthy";
     pr_safe_message := "DNS and HTTPS succeeded through the enrolled path"; pr_external_probe := None;
     pr_external_probes := Some {[ "torrent" := example_report 40000; "web" := example_report 40001 ]} |}.

Definition probed_snapshot : CanonicalSnapshot :=
  with_probes snapshot_default (example_lease 40000)
    {[ "torrent" := example_lease 40000; "web" := example_lease 40001 ]} external_probe_default ∅.

Definition probed : Keeper := keeper_start example_app (publisher_new probed_snapshot).
Definition reported : Keeper := (probe_turn probed_config (Report example_result) probed).1.

Lemma probed_turn : probe_turn probed_config (Report example_result) probed = (reported, Ok tt).
Proof.
  assert (Hok : match (probe_turn probed_config (Report example_result) probed).2 with Ok _ => true | Err _ => false end = true)
    by (vm_compute; reflexivity).
  unfold reported. destruct (probe_turn probed_config (Report example_result) probed) as [k [[]|e]];
    [reflexivity|discriminate Hok].
Qed.

Lemma probed_sane usage_id lease : published probed !! usage_id = Some lease -> phase_sane lease.
Proof.
  change (published probed) with (sn_port_forwards probed_snapshot). cbn [probed_snapshot with_probes sn_port_forwards].
  intros [[_ <-]|[_ Hl]]%lookup_insert_Some; [by intros|].
  apply lookup_singleton_Some in Hl as [_ <-]. by intros.
Qed.


Lemma probe_is_advisory_witness :
  sn_protection (inner (probe_turn probed_config (SendFailed "refused") reported).1)
  = sn_protection (inner reported).
Proof.
  assert (Hagg : aggregated (inner reported)) by (vm_compute; reflexivity).
  destruct (probe_is_advisory probed_config (SendFailed "refused") reported Hagg) as (k1 & Hturn & _ & _ & _ & Hp).
  rewrite Hturn. exact Hp.
Defined.

(** When the probe no longer answers only the primary forward loses its
    verdict: the other leases stay published as verified. *)
Example stale_verdict_survives :
  let lost := (probe_turn probed_config (SendFailed "refused") reported).1 in
  (ps_externally_verified <$> published lost !! "torrent") = Some None
  /\ (ps_externally_verified <$> published lost !! "web") = Some (Some true)
  /\ (ps_phase <$> published lost !! "web") = Some PhaseVerified.
Proof. vm_compute. split_and!; reflexivity. Qed.
