(* ===== verification/Notifications.v ===== *)
(** Notification settings (the settings of src/src/notifications.rs): what an
    operator may store, how a request changes it, and what the API shows of it. *)

From S2P Require Import Prelude RustStr Net Domain Float64 Config.

Inductive NotificationProvider : Type := Discord | Slack | Telegram | Generic.
#[export] Instance NotificationProvider_eq_dec : EqDecision NotificationProvider.
Proof. solve_decision. Defined.

Definition as_database (p : NotificationProvider) : string :=
  match p with
  | Discord => "discord"
  | Slack => "slack"
  | Telegram => "telegram"
  | Generic => "generic"
  end.

Definition from_database (value : string) : NotificationProvider :=
  if String.eqb value "slack" then Slack
  else if String.eqb value "telegram" then Telegram
  else if String.eqb value "generic" then Generic
  else Discord.

Record NotificationSettings : Type := {
  no_enabled : bool;
  no_provider : NotificationProvider;
  no_webhook_url : option string;
  no_telegram_chat_id : option string;
  no_hmac_secret : option string;
  no_timeout_seconds : N;
  no_rtt_threshold_ms : f64;
  no_alert_stack_started : bool;
  no_alert_vpn_disconnected : bool;
  no_alert_vpn_reconnected : bool;
  no_alert_rtt_above_threshold : bool;
  no_alert_diagnostic_failed : bool;
  no_updated_at_unix_ms : N;
}.

(** [NotificationSettings::default] *)
Definition settings_default : NotificationSettings :=
  {| no_enabled := false; no_provider := Discord; no_webhook_url := None; no_telegram_chat_id := None;
     no_hmac_secret := None; no_timeout_seconds := 10; no_rtt_threshold_ms := Binary64.of_N 100;
     no_alert_stack_started := true; no_alert_vpn_disconnected := true; no_alert_vpn_reconnected := true;
     no_alert_rtt_above_threshold := true; no_alert_diagnostic_failed := true; no_updated_at_unix_ms := 0 |}.

Record NotificationSettingsInput : Type := {
  ni_enabled : bool;
  ni_provider : NotificationProvider;
  ni_webhook_url : string;
  ni_telegram_chat_id : string;
  ni_hmac_secret : string;
  ni_timeout_seconds : N;
  ni_rtt_threshold_ms : f64;
  ni_alert_stack_started : bool;
  ni_alert_vpn_disconnected : bool;
  ni_alert_vpn_reconnected : bool;
  ni_alert_rtt_above_threshold : bool;
  ni_alert_diagnostic_failed : bool;
}.

Record NotificationSettingsView : Type := {
  nv_enabled : bool;
  nv_provider : NotificationProvider;
  nv_destination : option string;
  nv_webhook_configured : bool;
  nv_telegram_chat_id_configured : bool;
  nv_hmac_secret_configured : bool;
  nv_timeout_seconds : N;
  nv_rtt_threshold_ms : f64;
  nv_alert_stack_started : bool;
  nv_alert_vpn_disconnected : bool;
  nv_alert_vpn_reconnected : bool;
  nv_alert_rtt_above_threshold : bool;
  nv_alert_diagnostic_failed : bool;
  nv_updated_at_unix_ms : N;
}.

Definition is_some {A} (o : option A) : bool := match o with Some _ => true | None => false end.

(** Present, and not only white space. *)
Definition filled (value : option string) : bool :=
  match value with Some value => negb (is_empty (trim value)) | None => false end.

Section settings.
Context `{!UrlCrate}.

Definition check_webhook (webhook_url : option string) : Result unit string :=
  let? raw := ok_or webhook_url "webhook_url is required when notifications are enabled" in
  let? _ := ensure (filled (Some raw)) "webhook_url is required when notifications are enabled" in
  let? url := ok_or (url_parse raw) "webhook_url is invalid" in
  ensure (String.eqb (url_scheme url) "https" && is_some (url_host_str url))
    "webhook_url must use HTTPS and include a hostname".

Definition validate (s : NotificationSettings) : Result unit string :=
  let? _ := ensure ((1 <=? s.(no_timeout_seconds))%N && (s.(no_timeout_seconds) <=? 30)%N)
    "timeout_seconds must be between 1 and 30" in
  let? _ := ensure
    (Binary64.is_finite s.(no_rtt_threshold_ms)
     && negb (Binary64.lt s.(no_rtt_threshold_ms) (Binary64.of_N 1))
     && negb (Binary64.lt (Binary64.of_N 60000) s.(no_rtt_threshold_ms)))
    "rtt_threshold_ms must be between 1 and 60000" in
  let? _ := if s.(no_enabled) || is_some s.(no_webhook_url) then check_webhook s.(no_webhook_url) else Ok tt in
  let? _ := ensure
    (negb (bool_decide (s.(no_provider) = Telegram) && (s.(no_enabled) || is_some s.(no_webhook_url))
           && negb (filled s.(no_telegram_chat_id))))
    "telegram_chat_id is required for Telegram" in
  ensure (negb (negb (bool_decide (s.(no_provider) = Generic)) && is_some s.(no_hmac_secret)))
    "hmac_secret is supported only for generic webhooks".

(** The trimmed text, unless it is empty. *)
Definition optional (value : string) : option string :=
  if is_empty (trim value) then None else Some (trim value).

Definition or_else {A} (o fallback : option A) : option A :=
  match o with Some _ => o | None => fallback end.

Definition merge (input : NotificationSettingsInput) (current : NotificationSettings) (now : N)
    : NotificationSettings :=
  {| no_enabled := input.(ni_enabled);
     no_provider := input.(ni_provider);
     no_webhook_url := or_else (optional input.(ni_webhook_url)) current.(no_webhook_url);
     no_telegram_chat_id :=
       if bool_decide (input.(ni_provider) = Telegram)
       then or_else (optional input.(ni_telegram_chat_id)) current.(no_telegram_chat_id) else None;
     no_hmac_secret :=
       if bool_decide (input.(ni_provider) = Generic)
       then or_else (optional input.(ni_hmac_secret)) current.(no_hmac_secret) else None;
     no_timeout_seconds := input.(ni_timeout_seconds);
     no_rtt_threshold_ms := input.(ni_rtt_threshold_ms);
     no_alert_stack_started := input.(ni_alert_stack_started);
     no_alert_vpn_disconnected := input.(ni_alert_vpn_disconnected);
     no_alert_vpn_reconnected := input.(ni_alert_vpn_reconnected);
     no_alert_rtt_above_threshold := input.(ni_alert_rtt_above_threshold);
     no_alert_diagnostic_failed := input.(ni_alert_diagnostic_failed);
     no_updated_at_unix_ms := now |}.

(** [format!("{}://{}/…", ..)], the ellipsis in UTF-8 *)
Definition ELLIPSIS : string := String "226" (String "128" (String "166" "")).

Definition mask_destination (raw : string) : option string :=
  url ← url_parse raw;
  host ← url_host_str url;
  Some (url_scheme url +:+ "://" +:+ host +:+ "/" +:+ ELLIPSIS).

(** [NotificationSettingsView::from] *)
Definition view_of (s : NotificationSettings) : NotificationSettingsView :=
  {| nv_enabled := s.(no_enabled);
     nv_provider := s.(no_provider);
     nv_destination := s.(no_webhook_url) ≫= mask_destination;
     nv_webhook_configured := is_some s.(no_webhook_url);
     nv_telegram_chat_id_configured := is_some s.(no_telegram_chat_id);
     nv_hmac_secret_configured := is_some s.(no_hmac_secret);
     nv_timeout_seconds := s.(no_timeout_seconds);
     nv_rtt_threshold_ms := s.(no_rtt_threshold_ms);
     nv_alert_stack_started := s.(no_alert_stack_started);
     nv_alert_vpn_disconnected := s.(no_alert_vpn_disconnected);
     nv_alert_vpn_reconnected := s.(no_alert_vpn_reconnected);
     nv_alert_rtt_above_threshold := s.(no_alert_rtt_above_threshold);
     nv_alert_diagnostic_failed := s.(no_alert_diagnostic_failed);
     nv_updated_at_unix_ms := s.(no_updated_at_unix_ms) |}.
End settings.

(** ** Lemmas *)

Lemma from_as_database p : from_database (as_database p) = p.
Proof. by destruct p. Qed.
