(* ===== verification/History.v ===== *)
(** Persistent history (src/src/history.rs): the SQLite database, its schema
    and migrations, the writer and its queue, and the queries.

    A connection is a state; each statement of the code is the operation that
    SQLite documents for it, finds its table and columns in the schema or fails,
    and may fail for any other reason ([Sqlite]).  SQLite's AVG is a parameter. *)

From S2P Require Import Prelude RustStr Net BTree Order State Domain Float64 Config StateErr Notifications.

Definition SCHEMA_VERSION : Z := 4.
Definition MAX_SAFE_TEXT : nat := 512.
Definition MAX_USAGE_QUERY_RANGE_MS : N := 366 * 86400000.

(** ** Conversions *)

(** The first [n] characters of UTF-8 text. *)
Fixpoint take_chars (n : nat) (s : list ascii) : list ascii :=
  match s with
  | [] => []
  | c :: s =>
      if utf8_cont c then c :: take_chars n s
      else match n with O => [] | S n => c :: take_chars n s end
  end.

Definition bounded (value : string) : string := of_chars (take_chars MAX_SAFE_TEXT (chars value)).

Definition to_i64 (value : N) : Z := Z.min i64_MAX (Z.of_N value).
Definition from_i64 (value : Z) : N := Z.to_N value.

Definition monotonic_delta (current previous : N) : N :=
  if (previous <=? current)%N then current - previous else current.

(** The name that the derived [Serialize] gives to a variant without fields,
    which serde_json prints between quotes and cannot fail to print. *)
Class EnumJson (A : Type) : Type := variant_name : A -> string.
Definition QUOTE : ascii := "034".
Definition enum_json `{!EnumJson A} (value : A) : string :=
  trim_matches (Ascii.eqb QUOTE) (String QUOTE (variant_name value +:+ String QUOTE "")).

#[export] Instance check_status_json : EnumJson CheckStatus := fun s =>
  match s with
  | Pending => "pending" | Healthy => "healthy" | Degraded => "degraded" | Failed => "failed"
  | Unknown => "unknown"
  end.
#[export] Instance phase_json : EnumJson PortForwardPhase := fun p =>
  match p with
  | PhaseDisabled => "disabled" | WaitingForTarget => "waiting_for_target" | Requested => "requested"
  | Leased => "leased" | Installed => "installed" | PhaseVerified => "verified"
  | TargetAmbiguous => "target_ambiguous" | LeaseLost => "lease_lost" | InstallFailed => "install_failed"
  | VerificationFailed => "verification_failed" | PhaseUnavailable => "unavailable"
  end.
#[export] Instance latency_status_json : EnumJson VpnServerLatencyStatus := fun s =>
  match s with
  | Measured => "measured" | Timeout => "timeout" | Unsupported => "unsupported"
  | ResolutionFailed => "resolution_failed" | LatencyUnavailable => "unavailable"
  end.

Definition usage_source (source : UsageIdentitySource) : string :=
  match source with
  | ExplicitLabel => "explicit_label"
  | ComposeService => "compose_service"
  | ContainerLifetime => "container_lifetime"
  end.

Definition parse_usage_source (source : string) : UsageIdentitySource :=
  if String.eqb source "explicit_label" then ExplicitLabel
  else if String.eqb source "compose_service" then ComposeService
  else ContainerLifetime.

(** ** What is recorded *)

Record UsageObservation : Type := {
  uo_sampled_at_unix_ms : N;
  uo_usage_id : string;
  uo_usage_id_source : UsageIdentitySource;
  uo_container_id : string;
  uo_ipv4_address : string;
  uo_name : string;
  uo_download_bytes : N;
  uo_upload_bytes : N;
  uo_download_packets : N;
  uo_upload_packets : N;
}.

Record PortForwardObservation : Type := {
  fo_timestamp_unix_ms : N;
  fo_usage_id : string;
  fo_phase : PortForwardPhase;
  fo_external_port : option N;
}.

Record VpnServerObservation : Type := {
  vo_timestamp_unix_ms : N;
  vo_configured_endpoint_host : string;
  vo_runtime_endpoint_address : string;
  vo_runtime_endpoint_port : N;
  vo_active : bool;
  vo_latency_status : VpnServerLatencyStatus;
  vo_rtt_ms : option f64;
}.

(** A reply channel is its number. *)
Inductive WriteCommand : Type :=
| Usage (observation : UsageObservation) (bucket_ms : N)
| WriteTransition (transition : Transition)
| PortForward (observation : PortForwardObservation)
| VpnServer (observation : VpnServerObservation)
| Flush (reply : nat)
| Shutdown (reply : nat).

(** ** The database *)

(** Download bytes, upload bytes, download packets and upload packets. *)
Record Counters : Type := { co_download_bytes : Z; co_upload_bytes : Z; co_download_packets : Z; co_upload_packets : Z }.

Definition map_counters (f : Z -> Z -> Z) (a b : Counters) : Counters :=
  {| co_download_bytes := f a.(co_download_bytes) b.(co_download_bytes);
     co_upload_bytes := f a.(co_upload_bytes) b.(co_upload_bytes);
     co_download_packets := f a.(co_download_packets) b.(co_download_packets);
     co_upload_packets := f a.(co_upload_packets) b.(co_upload_packets) |}.

(** A row of [usage_buckets] without its primary key (bucket_start_ms, usage_id). *)
Record BucketRow : Type := {
  bk_usage_id_source : string;
  bk_container_id : string;
  bk_name : string;
  bk_counters : Counters;
  bk_sample_count : Z;
  bk_last_sample_ms : Z;
}.

(** A row of [counter_baselines] without its primary key container_id. *)
Record BaselineRow : Type := {
  bl_usage_id : string;
  bl_ipv4_address : string;
  bl_counters : Counters;
  bl_last_sample_ms : Z;
}.

(** A row of [events] without its primary key id. *)
Record EventRow : Type := {
  ev_timestamp_ms : Z;
  ev_kind : string;
  ev_component : string;
  ev_from_status : option string;
  ev_to_status : option string;
  ev_reason_code : string;
  ev_safe_message : string;
  ev_external_port : option Z;
  ev_port_forward_phase : option string;
  ev_usage_id : option string;
}.

(** A row of [vpn_server_samples] without its primary key timestamp_ms. *)
Record SampleRow : Type := {
  sm_configured_endpoint_host : string;
  sm_runtime_endpoint_address : string;
  sm_runtime_endpoint_port : Z;
  sm_active : Z;
  sm_latency_status : string;
  sm_rtt_ms : option f64;
}.

(** The row of [notification_settings]. *)
Record SettingsRow : Type := {
  st_enabled : bool;
  st_provider : string;
  st_webhook_url : option string;
  st_telegram_chat_id : option string;
  st_hmac_secret : option string;
  st_timeout_seconds : Z;
  st_rtt_threshold_ms : f64;
  st_alert_stack_started : bool;
  st_alert_vpn_disconnected : bool;
  st_alert_vpn_reconnected : bool;
  st_alert_rtt_above_threshold : bool;
  st_alert_diagnostic_failed : bool;
  st_updated_at_ms : Z;
}.

Notation BucketKey := (Z * string)%type.

(** A column with its declaration. *)
Definition Column : Type := string * string.

(** The rows, the largest id that an event ever had ([AUTOINCREMENT]), and the
    schema: the declared columns of each table, and the indexes. *)
Record Database : Type := {
  db_user_version : Z;
  db_tables : gmap string (list Column);
  db_indexes : gmap string (string * list string);
  db_usage_buckets : gmap BucketKey BucketRow;
  db_baselines : gmap string BaselineRow;
  db_events : gmap Z EventRow;
  db_last_event_id : Z;
  db_samples : gmap Z SampleRow;
  db_settings : option SettingsRow;
}.

Definition empty_database : Database :=
  {| db_user_version := 0; db_tables := ∅; db_indexes := ∅; db_usage_buckets := ∅; db_baselines := ∅;
     db_events := ∅; db_last_event_id := 0; db_samples := ∅; db_settings := None |}.

Definition with_schema (version : Z) (tables : gmap string (list Column))
    (indexes : gmap string (string * list string)) (db : Database) : Database :=
  {| db_user_version := version; db_tables := tables; db_indexes := indexes;
     db_usage_buckets := db.(db_usage_buckets); db_baselines := db.(db_baselines); db_events := db.(db_events);
     db_last_event_id := db.(db_last_event_id); db_samples := db.(db_samples); db_settings := db.(db_settings) |}.
Definition with_buckets (buckets : gmap BucketKey BucketRow) (db : Database) : Database :=
  {| db_user_version := db.(db_user_version); db_tables := db.(db_tables); db_indexes := db.(db_indexes);
     db_usage_buckets := buckets; db_baselines := db.(db_baselines); db_events := db.(db_events);
     db_last_event_id := db.(db_last_event_id); db_samples := db.(db_samples); db_settings := db.(db_settings) |}.
Definition with_baselines (baselines : gmap string BaselineRow) (db : Database) : Database :=
  {| db_user_version := db.(db_user_version); db_tables := db.(db_tables); db_indexes := db.(db_indexes);
     db_usage_buckets := db.(db_usage_buckets); db_baselines := baselines; db_events := db.(db_events);
     db_last_event_id := db.(db_last_event_id); db_samples := db.(db_samples); db_settings := db.(db_settings) |}.
Definition with_events (events : gmap Z EventRow) (last : Z) (db : Database) : Database :=
  {| db_user_version := db.(db_user_version); db_tables := db.(db_tables); db_indexes := db.(db_indexes);
     db_usage_buckets := db.(db_usage_buckets); db_baselines := db.(db_baselines); db_events := events;
     db_last_event_id := last; db_samples := db.(db_samples); db_settings := db.(db_settings) |}.
Definition with_samples (samples : gmap Z SampleRow) (db : Database) : Database :=
  {| db_user_version := db.(db_user_version); db_tables := db.(db_tables); db_indexes := db.(db_indexes);
     db_usage_buckets := db.(db_usage_buckets); db_baselines := db.(db_baselines); db_events := db.(db_events);
     db_last_event_id := db.(db_last_event_id); db_samples := samples; db_settings := db.(db_settings) |}.
Definition with_settings (settings : option SettingsRow) (db : Database) : Database :=
  {| db_user_version := db.(db_user_version); db_tables := db.(db_tables); db_indexes := db.(db_indexes);
     db_usage_buckets := db.(db_usage_buckets); db_baselines := db.(db_baselines); db_events := db.(db_events);
     db_last_event_id := db.(db_last_event_id); db_samples := db.(db_samples); db_settings := settings |}.

(** ** The connection *)

(** Why the n-th call to SQLite or the file system fails, when it does, and
    what the clock shows at it.  [avg] is the aggregate AVG. *)
Class Sqlite : Type := {
  sql_error : nat -> option string;
  sql_clock : nat -> N;
  avg : list f64 -> option f64;
}.

Record Conn : Type := { cn_db : Database; cn_calls : nat }.
Definition H (A : Type) : Type := St Conn A.

Definition set_db (db : Database) (c : Conn) : Conn := {| cn_db := db; cn_calls := c.(cn_calls) |}.

Section history.
Context `{!Sqlite}.

(** Any call. *)
Definition call : H unit := fun c =>
  ({| cn_db := c.(cn_db); cn_calls := S c.(cn_calls) |},
   match sql_error c.(cn_calls) with None => Ok tt | Some e => Err e end).

Definition unix_ms : H N := gets (fun c => sql_clock c.(cn_calls)).

(** The schema has the table with these columns. *)
Definition has_columns (db : Database) (table : string) (columns : list string) : bool :=
  match db.(db_tables) !! table with
  | Some declared => forallb (fun column => bool_decide (column ∈ declared.*1)) columns
  | None => false
  end.

(** A statement on a table. *)
Definition statement (table : string) (columns : list string) (f : Database -> Result Database string) : H unit :=
  let* _ := call in
  fun c =>
    if has_columns c.(cn_db) table columns
    then match f c.(cn_db) with
         | Ok db => (set_db db c, Ok tt)
         | Err e => (c, Err e)
         end
    else (c, Err ("no such table or column: " +:+ table)).

Definition query {A} (table : string) (columns : list string) (f : Database -> A) : H A :=
  let* _ := call in
  fun c =>
    if has_columns c.(cn_db) table columns then (c, Ok (f c.(cn_db)))
    else (c, Err ("no such table or column: " +:+ table)).

(** [BEGIN], the body and [COMMIT]; dropping the transaction rolls it back. *)
Definition transaction {A} (body : H A) : H A := fun c =>
  let m := let* _ := call in let* a := body in let* _ := call in ret a in
  match m c with
  | (c1, Ok a) => (c1, Ok a)
  | (c1, Err e) => (set_db c.(cn_db) c1, Err e)
  end.

(** ** Schema *)

Definition create_table (table : string) (columns : list Column) : H unit :=
  let* _ := call in
  fun c =>
    let db := c.(cn_db) in
    match db.(db_tables) !! table with
    | Some _ => (c, Err ("table " +:+ table +:+ " already exists"))
    | None => (set_db (with_schema db.(db_user_version) (<[table := columns]> db.(db_tables)) db.(db_indexes) db) c,
               Ok tt)
    end.

Definition create_index (index table : string) (columns : list string) : H unit :=
  let* _ := call in
  fun c =>
    let db := c.(cn_db) in
    if bool_decide (is_Some (db.(db_indexes) !! index)) then (c, Err ("index " +:+ index +:+ " already exists"))
    else if has_columns db table columns
    then (set_db (with_schema db.(db_user_version) db.(db_tables) (<[index := (table, columns)]> db.(db_indexes)) db) c,
          Ok tt)
    else (c, Err ("no such table or column: " +:+ table)).

Definition add_column (table : string) (column : Column) : H unit :=
  let* _ := call in
  fun c =>
    let db := c.(cn_db) in
    match db.(db_tables) !! table with
    | Some columns =>
        if has_columns db table [column.1] then (c, Err ("duplicate column name: " +:+ column.1))
        else (set_db (with_schema db.(db_user_version) (<[table := columns ++ [column]]> db.(db_tables))
                        db.(db_indexes) db) c, Ok tt)
    | None => (c, Err ("no such table: " +:+ table))
    end.

Definition user_version : H Z :=
  let* _ := call in gets (fun c => c.(cn_db).(db_user_version)).

Definition set_user_version (version : Z) : H unit :=
  let* _ := call in
  modify (fun c => set_db (with_schema version c.(cn_db).(db_tables) c.(cn_db).(db_indexes) c.(cn_db)) c).

Definition usage_buckets_columns : list Column :=
  [("bucket_start_ms", "INTEGER NOT NULL"); ("usage_id", "TEXT NOT NULL"); ("usage_id_source", "TEXT NOT NULL");
   ("container_id", "TEXT NOT NULL"); ("name", "TEXT NOT NULL"); ("download_bytes", "INTEGER NOT NULL");
   ("upload_bytes", "INTEGER NOT NULL"); ("download_packets", "INTEGER NOT NULL");
   ("upload_packets", "INTEGER NOT NULL"); ("sample_count", "INTEGER NOT NULL");
   ("last_sample_ms", "INTEGER NOT NULL")].

Definition counter_baselines_columns : list Column :=
  [("container_id", "TEXT PRIMARY KEY"); ("usage_id", "TEXT NOT NULL"); ("ipv4_address", "TEXT NOT NULL");
   ("download_bytes", "INTEGER NOT NULL"); ("upload_bytes", "INTEGER NOT NULL");
   ("download_packets", "INTEGER NOT NULL"); ("upload_packets", "INTEGER NOT NULL");
   ("last_sample_ms", "INTEGER NOT NULL")].

(** Before version 4 without [usage_id]. *)
Definition events_columns_3 : list Column :=
  [("id", "INTEGER PRIMARY KEY AUTOINCREMENT"); ("timestamp_ms", "INTEGER NOT NULL"); ("kind", "TEXT NOT NULL");
   ("component", "TEXT NOT NULL"); ("from_status", "TEXT"); ("to_status", "TEXT");
   ("reason_code", "TEXT NOT NULL"); ("safe_message", "TEXT NOT NULL"); ("external_port", "INTEGER");
   ("port_forward_phase", "TEXT")].
Definition events_columns : list Column := events_columns_3 ++ [("usage_id", "TEXT")].

Definition vpn_server_samples_columns : list Column :=
  [("timestamp_ms", "INTEGER PRIMARY KEY"); ("configured_endpoint_host", "TEXT NOT NULL");
   ("runtime_endpoint_address", "TEXT NOT NULL"); ("runtime_endpoint_port", "INTEGER NOT NULL");
   ("active", "INTEGER NOT NULL"); ("latency_status", "TEXT NOT NULL"); ("rtt_ms", "REAL")].

Definition notification_settings_columns : list Column :=
  [("id", "INTEGER PRIMARY KEY CHECK (id = 1)"); ("enabled", "INTEGER NOT NULL"); ("provider", "TEXT NOT NULL");
   ("webhook_url", "TEXT"); ("telegram_chat_id", "TEXT"); ("hmac_secret", "TEXT");
   ("timeout_seconds", "INTEGER NOT NULL"); ("rtt_threshold_ms", "REAL NOT NULL");
   ("alert_stack_started", "INTEGER NOT NULL"); ("alert_vpn_disconnected", "INTEGER NOT NULL");
   ("alert_vpn_reconnected", "INTEGER NOT NULL"); ("alert_rtt_above_threshold", "INTEGER NOT NULL");
   ("alert_diagnostic_failed", "INTEGER NOT NULL"); ("updated_at_ms", "INTEGER NOT NULL")].

Definition create_schema : H unit :=
  transaction (
    let* _ := create_table "usage_buckets" usage_buckets_columns in
    let* _ := create_index "usage_buckets_usage_time" "usage_buckets" ["usage_id"; "bucket_start_ms"] in
    let* _ := create_table "counter_baselines" counter_baselines_columns in
    let* _ := create_table "events" events_columns in
    let* _ := create_index "events_time" "events" ["timestamp_ms"; "id"] in
    let* _ := create_table "vpn_server_samples" vpn_server_samples_columns in
    let* _ := create_table "notification_settings" notification_settings_columns in
    set_user_version 4).

Definition migrate_1 : H unit :=
  transaction (
    let* _ := create_table "vpn_server_samples" vpn_server_samples_columns in
    set_user_version 2).

Definition migrate_2 : H unit :=
  transaction (
    let* _ := create_table "notification_settings" notification_settings_columns in
    set_user_version 3).

Definition migrate_3 : H unit :=
  transaction (
    let* _ := add_column "events" ("usage_id", "TEXT") in
    set_user_version 4).

Definition migrate : H unit :=
  let* version := user_version in
  if (SCHEMA_VERSION <? version)%Z
  then fail ("history database schema " +:+ pretty version +:+ " is newer than supported " +:+ pretty SCHEMA_VERSION)
  else
    let* _ :=
      if (version =? 0)%Z then create_schema
      else if (version =? 1)%Z then migrate_1 else ret tt in
    let* version := user_version in
    let* _ := if (version =? 2)%Z then migrate_2 else ret tt in
    let* version := user_version in
    if (version =? 3)%Z then migrate_3 else ret tt.

(** Each candidate file that exists is one call. *)
Definition secure_database_files : H unit := each (fun _ => call) [""; "-wal"; "-shm"].

(** [Connection::open], the busy timeout, the two pragmas *)
Definition open_connection : H unit :=
  let* _ := call in
  let* _ := call in
  let* _ := call in
  let* _ := call in
  let* _ := migrate in
  secure_database_files.

(** ** Writes *)

Definition baseline_columns : list string := counter_baselines_columns.*1.
Definition bucket_columns : list string := usage_buckets_columns.*1.

Definition observed_counters (o : UsageObservation) : N * N * N * N :=
  (o.(uo_download_bytes), o.(uo_upload_bytes), o.(uo_download_packets), o.(uo_upload_packets)).

Definition counters_row (c : N * N * N * N) : Counters :=
  let '(a, b, c, d) := c in
  {| co_download_bytes := to_i64 a; co_upload_bytes := to_i64 b; co_download_packets := to_i64 c;
     co_upload_packets := to_i64 d |}.

Definition same_incarnation (o : UsageObservation) (row : BaselineRow) : bool :=
  String.eqb row.(bl_usage_id) o.(uo_usage_id) && String.eqb row.(bl_ipv4_address) o.(uo_ipv4_address).

(** What an observation adds to what was counted before. *)
Definition usage_delta (o : UsageObservation) (previous : option BaselineRow) : N * N * N * N :=
  match previous with
  | Some row =>
      if same_incarnation o row
      then (monotonic_delta o.(uo_download_bytes) (from_i64 row.(bl_counters).(co_download_bytes)),
            monotonic_delta o.(uo_upload_bytes) (from_i64 row.(bl_counters).(co_upload_bytes)),
            monotonic_delta o.(uo_download_packets) (from_i64 row.(bl_counters).(co_download_packets)),
            monotonic_delta o.(uo_upload_packets) (from_i64 row.(bl_counters).(co_upload_packets)))
      else observed_counters o
  | None => observed_counters o
  end.

Definition baseline_row (o : UsageObservation) : BaselineRow :=
  {| bl_usage_id := bounded o.(uo_usage_id); bl_ipv4_address := bounded o.(uo_ipv4_address);
     bl_counters := counters_row (observed_counters o); bl_last_sample_ms := to_i64 o.(uo_sampled_at_unix_ms) |}.

(** The new row of a bucket; a sum beyond the width of an integer is a REAL,
    of which MIN takes the largest integer.  The sample count of a row grows
    by one a write. *)
Definition bucket_row (o : UsageObservation) (delta : N * N * N * N) (previous : option BucketRow) : BucketRow :=
  let added := counters_row delta in
  {| bk_usage_id_source := usage_source o.(uo_usage_id_source);
     bk_container_id := bounded o.(uo_container_id);
     bk_name := bounded o.(uo_name);
     bk_counters := match previous with
                    | Some row => map_counters (fun a b => Z.min i64_MAX (a + b)) row.(bk_counters) added
                    | None => added
                    end;
     bk_sample_count := match previous with Some row => row.(bk_sample_count) + 1 | None => 1 end;
     bk_last_sample_ms := to_i64 o.(uo_sampled_at_unix_ms) |}.

Definition bucket_start (o : UsageObservation) (bucket_ms : N) : N :=
  (o.(uo_sampled_at_unix_ms) - o.(uo_sampled_at_unix_ms) mod bucket_ms)%N.

Definition bucket_key (o : UsageObservation) (bucket_ms : N) : BucketKey :=
  (to_i64 (bucket_start o bucket_ms), bounded o.(uo_usage_id)).

Definition is_zero (delta : N * N * N * N) : bool := bool_decide (delta = (0, 0, 0, 0)%N).

Definition write_usage (o : UsageObservation) (bucket_ms : N) : H unit :=
  transaction (
    let* previous := query "counter_baselines" baseline_columns
      (fun db => db.(db_baselines) !! bounded o.(uo_container_id)) in
    let delta := usage_delta o previous in
    let* _ := statement "counter_baselines" baseline_columns (fun db =>
      Ok (with_baselines (<[bounded o.(uo_container_id) := baseline_row o]> db.(db_baselines)) db)) in
    if is_zero delta then ret tt
    else
      statement "usage_buckets" bucket_columns (fun db =>
        Ok (with_buckets
              (partial_alter (fun previous => Some (bucket_row o delta previous)) (bucket_key o bucket_ms)
                 db.(db_usage_buckets)) db))).

(** [AUTOINCREMENT]: the id is one more than every id before. *)
Definition insert_event (row : EventRow) (db : Database) : Result Database string :=
  let? _ := ensure (db.(db_last_event_id) <? i64_MAX)%Z "database or disk is full" in
  let id := (db.(db_last_event_id) + 1)%Z in
  Ok (with_events (<[id := row]> db.(db_events)) id db).

Definition transition_row (t : Transition) : EventRow :=
  {| ev_timestamp_ms := to_i64 t.(ts_timestamp_unix_ms); ev_kind := "transition";
     ev_component := bounded t.(ts_component); ev_from_status := Some (enum_json t.(ts_from_status));
     ev_to_status := Some (enum_json t.(ts_to_status)); ev_reason_code := bounded t.(ts_reason_code);
     ev_safe_message := bounded t.(ts_safe_message); ev_external_port := None; ev_port_forward_phase := None;
     ev_usage_id := None |}.

Definition write_transition (t : Transition) : H unit :=
  statement "events" ["timestamp_ms"; "kind"; "component"; "from_status"; "to_status"; "reason_code"; "safe_message"]
    (insert_event (transition_row t)).

Definition port_forward_row (o : PortForwardObservation) : EventRow :=
  let phase := enum_json o.(fo_phase) in
  {| ev_timestamp_ms := to_i64 o.(fo_timestamp_unix_ms); ev_kind := "port_forward"; ev_component := "port_forward";
     ev_from_status := None; ev_to_status := None; ev_reason_code := "port_forward.lifecycle_changed";
     ev_safe_message :=
       match o.(fo_external_port) with
       | Some port => "Forwarded-port lifecycle changed to " +:+ phase +:+ " on port " +:+ show_N port
       | None => "Forwarded-port lifecycle changed to " +:+ phase
       end;
     ev_external_port := Z.of_N <$> o.(fo_external_port); ev_port_forward_phase := Some phase;
     ev_usage_id := Some (bounded o.(fo_usage_id)) |}.

Definition write_port_forward (o : PortForwardObservation) : H unit :=
  statement "events"
    ["timestamp_ms"; "kind"; "component"; "reason_code"; "safe_message"; "external_port"; "port_forward_phase"; "usage_id"]
    (insert_event (port_forward_row o)).

(** A NaN is stored as NULL. *)
Definition real (x : f64) : option f64 := if Binary64.is_nan x then None else Some x.

Definition sample_row (o : VpnServerObservation) : SampleRow :=
  {| sm_configured_endpoint_host := bounded o.(vo_configured_endpoint_host);
     sm_runtime_endpoint_address := bounded o.(vo_runtime_endpoint_address);
     sm_runtime_endpoint_port := Z.of_N o.(vo_runtime_endpoint_port);
     sm_active := if o.(vo_active) then 1 else 0; sm_latency_status := enum_json o.(vo_latency_status);
     sm_rtt_ms := o.(vo_rtt_ms) ≫= real |}.

Definition sample_columns : list string := vpn_server_samples_columns.*1.

Definition write_vpn_server (o : VpnServerObservation) : H unit :=
  statement "vpn_server_samples" sample_columns (fun db =>
    Ok (with_samples (<[to_i64 o.(vo_timestamp_unix_ms) := sample_row o]> db.(db_samples)) db)).

(** ** Retention *)

Definition cutoff (retention_days now : N) : Z :=
  to_i64 (saturating_sub now (saturating_mul u64_MAX retention_days 86400000)).

(** The four deletions of [prune] and [prune_transaction]. *)
Definition prune (retention_days : N) : H unit :=
  let* now := unix_ms in
  let limit := cutoff retention_days now in
  let* _ := statement "usage_buckets" ["bucket_start_ms"] (fun db =>
    Ok (with_buckets (filter (fun '(key, _) => ~ (key.1 < limit)%Z) db.(db_usage_buckets)) db)) in
  let* _ := statement "events" ["timestamp_ms"] (fun db =>
    Ok (with_events (filter (fun '(_, row) => ~ (row.(ev_timestamp_ms) < limit)%Z) db.(db_events))
          db.(db_last_event_id) db)) in
  let* _ := statement "counter_baselines" ["last_sample_ms"] (fun db =>
    Ok (with_baselines (filter (fun '(_, row) => ~ (row.(bl_last_sample_ms) < limit)%Z) db.(db_baselines)) db)) in
  statement "vpn_server_samples" ["timestamp_ms"] (fun db =>
    Ok (with_samples (filter (fun '(at_, _) => ~ (at_ < limit)%Z) db.(db_samples)) db)).

Definition prune_transaction (retention_days : N) : H unit := transaction (prune retention_days).

(** [PRAGMA wal_checkpoint(PASSIVE)] *)
Definition checkpoint : H unit := call.

(** ** Notification settings *)

Definition settings_columns : list string := notification_settings_columns.*1.

(** A [u64] beyond the width of an integer cannot be bound, nor a negative
    integer be read; a NaN is NULL, which the column refuses. *)
Definition settings_row (n : NotificationSettings) : Result SettingsRow string :=
  let? _ := ensure (Z.of_N n.(no_updated_at_unix_ms) <=? i64_MAX)%Z "out of range integral type conversion attempted" in
  let? threshold := ok_or (real n.(no_rtt_threshold_ms)) "NOT NULL constraint failed" in
  Ok {| st_enabled := n.(no_enabled); st_provider := as_database n.(no_provider);
        st_webhook_url := n.(no_webhook_url); st_telegram_chat_id := n.(no_telegram_chat_id);
        st_hmac_secret := n.(no_hmac_secret); st_timeout_seconds := Z.of_N n.(no_timeout_seconds);
        st_rtt_threshold_ms := threshold; st_alert_stack_started := n.(no_alert_stack_started);
        st_alert_vpn_disconnected := n.(no_alert_vpn_disconnected);
        st_alert_vpn_reconnected := n.(no_alert_vpn_reconnected);
        st_alert_rtt_above_threshold := n.(no_alert_rtt_above_threshold);
        st_alert_diagnostic_failed := n.(no_alert_diagnostic_failed);
        st_updated_at_ms := Z.of_N n.(no_updated_at_unix_ms) |}.

(** [row.get::<_, u32>] and the like *)
Definition get_uint (max : N) (value : Z) : Result N string :=
  let? _ := ensure ((0 <=? value)%Z && (value <=? Z.of_N max)%Z) "integer out of range" in
  Ok (Z.to_N value).

Definition settings_of_row (row : SettingsRow) : Result NotificationSettings string :=
  let? timeout := get_uint u32_MAX row.(st_timeout_seconds) in
  let? updated := get_uint u64_MAX row.(st_updated_at_ms) in
  Ok {| no_enabled := row.(st_enabled); no_provider := from_database row.(st_provider);
        no_webhook_url := row.(st_webhook_url); no_telegram_chat_id := row.(st_telegram_chat_id);
        no_hmac_secret := row.(st_hmac_secret); no_timeout_seconds := timeout;
        no_rtt_threshold_ms := row.(st_rtt_threshold_ms); no_alert_stack_started := row.(st_alert_stack_started);
        no_alert_vpn_disconnected := row.(st_alert_vpn_disconnected);
        no_alert_vpn_reconnected := row.(st_alert_vpn_reconnected);
        no_alert_rtt_above_threshold := row.(st_alert_rtt_above_threshold);
        no_alert_diagnostic_failed := row.(st_alert_diagnostic_failed); no_updated_at_unix_ms := updated |}.

Definition read_notification_settings : H NotificationSettings :=
  let* _ := open_connection in
  let* row := query "notification_settings" settings_columns db_settings in
  match row with
  | Some row => lift (settings_of_row row)
  | None => ret settings_default
  end.

Definition write_notification_settings (settings : NotificationSettings) : H unit :=
  let* _ := open_connection in
  let* _ := statement "notification_settings" settings_columns (fun db =>
    let? row := settings_row settings in Ok (with_settings (Some row) db)) in
  secure_database_files.

(** ** Queries *)

Definition range_error (label : string) : string :=
  label +:+ " range must be positive and no longer than 366 days".

(** The range asked for at time [now]; [query_usage] and the other queries
    repeat it when they run. *)
Definition normalized_range (now : N) (from to : option N) (default_range_ms : N) (label : string)
    : Result (N * N) string :=
  let to := N.min (default now to) (saturating_add u64_MAX now 60000) in
  let from := default (saturating_sub to default_range_ms) from in
  if (to <=? from)%N || (MAX_USAGE_QUERY_RANGE_MS <? to - from)%N then Err (range_error label)
  else Ok (from, to).

Definition bucket_of (default_bucket_ms : N) (bucket_seconds : option N) : N :=
  saturating_mul u64_MAX (default (default_bucket_ms / 1000)%N bucket_seconds) 1000.

Definition validate_bucket (default_bucket_ms : N) (bucket_seconds : option N) : Result N string :=
  let bucket_ms := bucket_of default_bucket_ms bucket_seconds in
  if (bucket_ms <? default_bucket_ms)%N || negb (bucket_ms mod default_bucket_ms =? 0)%N
  then Err "bucket_seconds must be a multiple of the configured storage bucket"
  else Ok bucket_ms.

(** [clamp], as the number of a [LIMIT] *)
Definition clamp (lo hi n : N) : nat := N.to_nat (N.min hi (N.max lo n)).

(** [(x / ?1) * ?1] *)
Definition grouped (bucket_ms x : Z) : Z := (Z.quot x bucket_ms * bucket_ms)%Z.

(** [GROUP BY]: the rows of each key. *)
Definition group_by `{Countable K} {A} (key : A -> K) (rows : list A) : gmap K (list A) :=
  foldr (fun row m => partial_alter (fun old => Some (row :: default [] old)) (key row) m) ∅ rows.

(** SUM of integers: an overflow is an error of the statement. *)
Definition sum_rows {A} (f : A -> Z) (rows : list A) : Result Z string :=
  let total := foldr (fun row acc => f row + acc)%Z 0%Z rows in
  let? _ := ensure (total <=? i64_MAX)%Z "integer overflow" in
  Ok total.

Definition max_text (values : list string) : string :=
  foldr (fun a b => if String.leb a b then b else a) "" values.

Record UsageHistoryPoint : Type := {
  up_bucket_start_unix_ms : N;
  up_usage_id : string;
  up_usage_id_source : UsageIdentitySource;
  up_name : string;
  up_download_bytes : N;
  up_upload_bytes : N;
  up_download_packets : N;
  up_upload_packets : N;
  up_sample_count : N;
}.

Definition usage_point (entry : BucketKey * list (BucketKey * BucketRow)) : Result UsageHistoryPoint string :=
  let '((bucket, usage_id), rows) := entry in
  let sum f := sum_rows (fun row : BucketKey * BucketRow => f row.2) rows in
  let? download_bytes := sum (fun row => row.(bk_counters).(co_download_bytes)) in
  let? upload_bytes := sum (fun row => row.(bk_counters).(co_upload_bytes)) in
  let? download_packets := sum (fun row => row.(bk_counters).(co_download_packets)) in
  let? upload_packets := sum (fun row => row.(bk_counters).(co_upload_packets)) in
  let? sample_count := sum bk_sample_count in
  Ok {| up_bucket_start_unix_ms := from_i64 bucket; up_usage_id := usage_id;
        up_usage_id_source := parse_usage_source (max_text ((fun row => row.2.(bk_usage_id_source)) <$> rows));
        up_name := max_text ((fun row => row.2.(bk_name)) <$> rows);
        up_download_bytes := from_i64 download_bytes; up_upload_bytes := from_i64 upload_bytes;
        up_download_packets := from_i64 download_packets; up_upload_packets := from_i64 upload_packets;
        up_sample_count := from_i64 sample_count |}.

(** [ORDER BY grouped_bucket ASC, usage_id ASC] *)
Definition key_leb : BucketKey -> BucketKey -> bool := lex_leb Z.leb String.leb.

(** The rows of the WHERE clause, in the order of the primary key. *)
Definition selected_buckets (from to : Z) (usage_id : option string) (db : Database) : list (BucketKey * BucketRow) :=
  List.filter (fun '(key, _) =>
      (from <=? key.1)%Z && (key.1 <? to)%Z
      && match usage_id with Some id => String.eqb key.2 id | None => true end)
    (btree_iter key_leb db.(db_usage_buckets)).

Definition usage_groups (bucket_ms from to : Z) (usage_id : option string) (db : Database)
    : list (BucketKey * list (BucketKey * BucketRow)) :=
  btree_iter key_leb
    (group_by (fun row : BucketKey * BucketRow => (grouped bucket_ms row.1.1, row.1.2))
       (selected_buckets from to usage_id db)).

Record UsageHistoryQuery : Type := {
  uq_from_unix_ms : option N;
  uq_to_unix_ms : option N;
  uq_bucket_seconds : option N;
  uq_usage_id : option string;
  uq_limit : option N;
}.

Record UsageHistoryResponse : Type := {
  ur_from_unix_ms : N;
  ur_to_unix_ms : N;
  ur_bucket_seconds : N;
  ur_points : list UsageHistoryPoint;
  ur_truncated : bool;
}.

(** Groups after the limit are not computed. *)
Definition query_usage (default_bucket_ms : N) (q : UsageHistoryQuery) : H UsageHistoryResponse :=
  let* now := unix_ms in
  let* range := lift (normalized_range now q.(uq_from_unix_ms) q.(uq_to_unix_ms) 86400000 "history") in
  let* bucket_ms := lift (validate_bucket default_bucket_ms q.(uq_bucket_seconds)) in
  let limit := clamp 1 10000 (default 5000%N q.(uq_limit)) in
  let* _ := open_connection in
  let* groups := query "usage_buckets" bucket_columns (fun db =>
    take (limit + 1) (usage_groups (to_i64 bucket_ms) (to_i64 range.1) (to_i64 range.2) q.(uq_usage_id) db)) in
  let* points := lift (mapM_res usage_point groups) in
  ret {| ur_from_unix_ms := range.1; ur_to_unix_ms := range.2; ur_bucket_seconds := bucket_ms / 1000;
         ur_points := take limit points; ur_truncated := (limit <? length points)%nat |}.

Record HistoricalEvent : Type := {
  he_id : N;
  he_timestamp_unix_ms : N;
  he_kind : string;
  he_component : string;
  he_from_status : option string;
  he_to_status : option string;
  he_reason_code : string;
  he_safe_message : string;
  he_external_port : option N;
  he_port_forward_phase : option string;
  he_usage_id : option string;
}.

Definition historical_event (entry : Z * EventRow) : Result HistoricalEvent string :=
  let '(id, row) := entry in
  let? port := match row.(ev_external_port) with
               | Some port => let? port := get_uint u16_MAX port in Ok (Some port)
               | None => Ok None
               end in
  Ok {| he_id := from_i64 id; he_timestamp_unix_ms := from_i64 row.(ev_timestamp_ms); he_kind := row.(ev_kind);
        he_component := row.(ev_component); he_from_status := row.(ev_from_status);
        he_to_status := row.(ev_to_status); he_reason_code := row.(ev_reason_code);
        he_safe_message := row.(ev_safe_message); he_external_port := port;
        he_port_forward_phase := row.(ev_port_forward_phase); he_usage_id := row.(ev_usage_id) |}.

Record EventHistoryQuery : Type := {
  eq_from_unix_ms : option N;
  eq_to_unix_ms : option N;
  eq_before_id : option N;
  eq_limit : option N;
}.

Record EventHistoryResponse : Type := {
  er_events : list HistoricalEvent;
  er_next_before_id : option N;
}.

(** The rows of the WHERE clause, [ORDER BY id DESC]. *)
Definition selected_events (from to before : Z) (db : Database) : list (Z * EventRow) :=
  List.filter (fun '(id, row) =>
      (from <=? row.(ev_timestamp_ms))%Z && (row.(ev_timestamp_ms) <? to)%Z && (id <? before)%Z)
    (rev (btree_iter Z.leb db.(db_events))).

Definition query_events (q : EventHistoryQuery) : H EventHistoryResponse :=
  let* now := unix_ms in
  let* range := lift (normalized_range now q.(eq_from_unix_ms) q.(eq_to_unix_ms) (30 * 86400000) "event") in
  let limit := clamp 1 500 (default 100%N q.(eq_limit)) in
  let before := default u64_MAX q.(eq_before_id) in
  let* _ := open_connection in
  let* rows := query "events" (events_columns.*1) (fun db =>
    take (limit + 1) (selected_events (to_i64 range.1) (to_i64 range.2) (to_i64 before) db)) in
  let* events := lift (mapM_res historical_event rows) in
  let has_more := (limit <? length events)%nat in
  let events := take limit events in
  ret {| er_events := events;
         er_next_before_id := if has_more then he_id <$> list.last events else None |}.

Record VpnServerHistoryQuery : Type := {
  vq_from_unix_ms : option N;
  vq_to_unix_ms : option N;
  vq_bucket_seconds : option N;
  vq_limit : option N;
}.

Record VpnServerHistoryPoint : Type := {
  vp_bucket_start_unix_ms : N;
  vp_configured_endpoint_host : string;
  vp_runtime_endpoint_address : string;
  vp_runtime_endpoint_port : N;
  vp_active_sample_count : N;
  vp_sample_count : N;
  vp_measured_sample_count : N;
  vp_minimum_rtt_ms : option f64;
  vp_average_rtt_ms : option f64;
  vp_maximum_rtt_ms : option f64;
}.

Record VpnServerHistoryResponse : Type := {
  vr_from_unix_ms : N;
  vr_to_unix_ms : N;
  vr_bucket_seconds : N;
  vr_points : list VpnServerHistoryPoint;
  vr_truncated : bool;
}.

(** MIN and MAX of reals; of equal values the first. *)
Definition fold_first {A} (f : A -> A -> A) (values : list A) : option A :=
  match values with [] => None | x :: values => Some (foldl f x values) end.

Definition vpn_point (entry : Z * list (Z * SampleRow)) : Result VpnServerHistoryPoint string :=
  let '(bucket, rows) := entry in
  let rtts := omap (fun row => row.2.(sm_rtt_ms)) rows in
  let? port := get_uint u16_MAX (foldr Z.max 0%Z ((fun row => row.2.(sm_runtime_endpoint_port)) <$> rows)) in
  let? active := sum_rows (fun row => row.2.(sm_active)) rows in
  Ok {| vp_bucket_start_unix_ms := from_i64 bucket;
        vp_configured_endpoint_host := max_text ((fun row => row.2.(sm_configured_endpoint_host)) <$> rows);
        vp_runtime_endpoint_address := max_text ((fun row => row.2.(sm_runtime_endpoint_address)) <$> rows);
        vp_runtime_endpoint_port := port;
        vp_active_sample_count := from_i64 active;
        vp_sample_count := N.of_nat (length rows);
        vp_measured_sample_count := N.of_nat (length rtts);
        vp_minimum_rtt_ms := fold_first (fun a b => if Binary64.lt b a then b else a) rtts;
        vp_average_rtt_ms := avg rtts;
        vp_maximum_rtt_ms := fold_first (fun a b => if Binary64.lt a b then b else a) rtts |}.

Definition sample_groups (bucket_ms from to : Z) (db : Database) : list (Z * list (Z * SampleRow)) :=
  btree_iter Z.leb
    (group_by (fun row : Z * SampleRow => grouped bucket_ms row.1)
       (List.filter (fun '(at_, _) => (from <=? at_)%Z && (at_ <? to)%Z) (btree_iter Z.leb db.(db_samples)))).

Definition query_vpn_server (default_bucket_ms : N) (q : VpnServerHistoryQuery) : H VpnServerHistoryResponse :=
  let* now := unix_ms in
  let* range := lift (normalized_range now q.(vq_from_unix_ms) q.(vq_to_unix_ms) 86400000 "VPN-server history") in
  let* bucket_ms := lift (validate_bucket default_bucket_ms q.(vq_bucket_seconds)) in
  let limit := clamp 1 10000 (default 5000%N q.(vq_limit)) in
  let* _ := open_connection in
  let* groups := query "vpn_server_samples" sample_columns (fun db =>
    take (limit + 1) (sample_groups (to_i64 bucket_ms) (to_i64 range.1) (to_i64 range.2) db)) in
  let* points := lift (mapM_res vpn_point groups) in
  ret {| vr_from_unix_ms := range.1; vr_to_unix_ms := range.2; vr_bucket_seconds := bucket_ms / 1000;
         vr_points := take limit points; vr_truncated := (limit <? length points)%nat |}.

(** [HistoryQueryError] *)
Inductive HistoryQueryError : Type := Invalid (message : string) | QueryUnavailable (error : string).

(** The parameters are validated first, and the query runs in a task. *)
Definition validated {A} (check : N -> Result unit string) (m : H A) : Conn -> Conn * Result A HistoryQueryError := fun c =>
  match check (sql_clock c.(cn_calls)) with
  | Err e => (c, Err (Invalid e))
  | Ok _ => let '(c, r) := m c in (c, map_err QueryUnavailable r)
  end.

Definition validate_usage_query (default_bucket_ms : N) (q : UsageHistoryQuery) (now : N) : Result unit string :=
  let? _ := normalized_range now q.(uq_from_unix_ms) q.(uq_to_unix_ms) 86400000 "history" in
  let? _ := validate_bucket default_bucket_ms q.(uq_bucket_seconds) in
  Ok tt.

Definition validate_event_query (q : EventHistoryQuery) (now : N) : Result unit string :=
  let? _ := normalized_range now q.(eq_from_unix_ms) q.(eq_to_unix_ms) (30 * 86400000) "event" in Ok tt.

Definition validate_vpn_server_query (default_bucket_ms : N) (q : VpnServerHistoryQuery) (now : N) : Result unit string :=
  let? _ := normalized_range now q.(vq_from_unix_ms) q.(vq_to_unix_ms) 86400000 "VPN-server history" in
  let? _ := validate_bucket default_bucket_ms q.(vq_bucket_seconds) in
  Ok tt.

Definition usage_history (bucket_ms : N) (q : UsageHistoryQuery) :=
  validated (validate_usage_query bucket_ms q) (query_usage bucket_ms q).
Definition event_history (q : EventHistoryQuery) := validated (validate_event_query q) (query_events q).
Definition vpn_server_history (bucket_ms : N) (q : VpnServerHistoryQuery) :=
  validated (validate_vpn_server_query bucket_ms q) (query_vpn_server bucket_ms q).

(** ** The writer *)

Definition PRUNE_EVERY : N := 10000.

(** The thread's connection and count, and the replies it sent. *)
Record Writer : Type := {
  wr_conn : Conn;
  wr_commands_since_prune : N;
  wr_replies : list (nat * Result unit string);
}.

Definition W (A : Type) : Type := St Writer A.

Definition on_conn {A} (m : H A) : W A := fun w =>
  let '(c, r) := m w.(wr_conn) in
  ({| wr_conn := c; wr_commands_since_prune := w.(wr_commands_since_prune); wr_replies := w.(wr_replies) |}, r).
Definition set_since_prune (n : N) : W unit := modify (fun w =>
  {| wr_conn := w.(wr_conn); wr_commands_since_prune := n; wr_replies := w.(wr_replies) |}).
Definition send_reply (reply : nat) (result : Result unit string) : W unit := modify (fun w =>
  {| wr_conn := w.(wr_conn); wr_commands_since_prune := w.(wr_commands_since_prune);
     wr_replies := w.(wr_replies) ++ [(reply, result)] |}).

Definition write_command (command : WriteCommand) : H unit :=
  match command with
  | Usage observation bucket_ms => write_usage observation bucket_ms
  | WriteTransition transition => write_transition transition
  | PortForward observation => write_port_forward observation
  | VpnServer observation => write_vpn_server observation
  | Flush _ | Shutdown _ => ret tt
  end.

(** One turn of [writer_loop]: whether the loop goes on. *)
Definition writer_turn (retention_days : N) (command : WriteCommand) : W bool :=
  match command with
  | Flush reply =>
      let* result := attempt (on_conn checkpoint) in
      let* _ := send_reply reply result in
      ret true
  | Shutdown reply =>
      let* result := attempt (on_conn checkpoint) in
      let* _ := send_reply reply result in
      ret false
  | _ =>
      let* _ := on_conn (write_command command) in
      let* count := gets wr_commands_since_prune in
      let* _ :=
        if (PRUNE_EVERY <=? count + 1)%N then
          let* _ := on_conn (prune_transaction retention_days) in set_since_prune 0
        else set_since_prune (count + 1) in
      ret true
  end.

Fixpoint writer_loop (retention_days : N) (commands : list WriteCommand) : W unit :=
  match commands with
  | [] => ret tt
  | command :: commands =>
      let* continue := writer_turn retention_days command in
      if continue then writer_loop retention_days commands else ret tt
  end.

(** The thread's start: the connection, the first pruning. *)
Definition start_writer (retention_days : N) : H Writer :=
  let* _ := open_connection in
  let* _ := prune retention_days in
  fun c => (c, Ok {| wr_conn := c; wr_commands_since_prune := 0; wr_replies := [] |}).

(** ** The queue

    The sending half with its bounded queue, and the thread while it runs. *)
Record HistoryStore : Type := {
  hs_capacity : nat;
  hs_retention_days : N;
  hs_bucket_ms : N;
  hs_queue : list WriteCommand;
  hs_dropped_writes : N;
  hs_running : bool;
  hs_writer : Writer;
}.

Definition with_queue (queue : list WriteCommand) (s : HistoryStore) : HistoryStore :=
  {| hs_capacity := s.(hs_capacity); hs_retention_days := s.(hs_retention_days);
     hs_bucket_ms := s.(hs_bucket_ms); hs_queue := queue; hs_dropped_writes := s.(hs_dropped_writes);
     hs_running := s.(hs_running); hs_writer := s.(hs_writer) |}.

(** [open], when the thread answers in time. *)
Definition open_store (p : PersistenceConfig) (c : Conn) : Result HistoryStore string :=
  match start_writer p.(ps_retention_days) c with
  | (_, Ok writer) =>
      Ok {| hs_capacity := N.to_nat p.(ps_writer_capacity); hs_retention_days := p.(ps_retention_days);
            hs_bucket_ms := saturating_mul u64_MAX p.(ps_bucket_seconds) 1000; hs_queue := [];
            hs_dropped_writes := 0; hs_running := true; hs_writer := writer |}
  | (_, Err e) => Err e
  end.

Definition try_send (command : WriteCommand) (s : HistoryStore) : HistoryStore * bool :=
  if s.(hs_running) && (length s.(hs_queue) <? s.(hs_capacity))%nat
  then (with_queue (s.(hs_queue) ++ [command]) s, true)
  else ({| hs_capacity := s.(hs_capacity); hs_retention_days := s.(hs_retention_days);
           hs_bucket_ms := s.(hs_bucket_ms); hs_queue := s.(hs_queue);
           hs_dropped_writes := wrapping_add 64 s.(hs_dropped_writes) 1; hs_running := s.(hs_running);
           hs_writer := s.(hs_writer) |}, false).

Definition record_usage (o : UsageObservation) (s : HistoryStore) : HistoryStore * bool :=
  try_send (Usage o s.(hs_bucket_ms)) s.
Definition record_transition (t : Transition) : HistoryStore -> HistoryStore * bool := try_send (WriteTransition t).
Definition record_port_forward (o : PortForwardObservation) : HistoryStore -> HistoryStore * bool :=
  try_send (PortForward o).
Definition record_vpn_server (o : VpnServerObservation) : HistoryStore -> HistoryStore * bool :=
  try_send (VpnServer o).

(** The send of [barrier] waits for room; [None] is the error of a queue whose
    receiver is gone, and the wait is a step that is not taken. *)
Definition barrier (shutdown : bool) (reply : nat) (s : HistoryStore) : option HistoryStore :=
  if s.(hs_running) && (length s.(hs_queue) <? s.(hs_capacity))%nat
  then Some (with_queue (s.(hs_queue) ++ [if shutdown then Shutdown reply else Flush reply]) s)
  else None.

(** The thread takes the next command; when its loop ends the receiver is
    dropped, with what is still queued. *)
Definition write_next (s : HistoryStore) : option HistoryStore :=
  match s.(hs_running), s.(hs_queue) with
  | true, command :: queue =>
      let '(writer, r) := writer_turn s.(hs_retention_days) command s.(hs_writer) in
      let goes_on := match r with Ok continue => continue | Err _ => false end in
      Some {| hs_capacity := s.(hs_capacity); hs_retention_days := s.(hs_retention_days);
              hs_bucket_ms := s.(hs_bucket_ms); hs_queue := if goes_on then queue else [];
              hs_dropped_writes := s.(hs_dropped_writes); hs_running := goes_on; hs_writer := writer |}
  | _, _ => None
  end.
End history.
