(* ===== verification/HistoryProps.v ===== *)
(** The accounting of traffic in the persistent history: every byte a container's
    counters moved is in the buckets of its usage identity, once. *)

From S2P Require Import Prelude RustStr Net BTree Order State Domain Float64 Config StateErr Notifications History.

(** ** Statements and transactions *)

Section calls.
Context `{!Sqlite}.

(** [m] leaves the database [f db], or fails and leaves it as it was. *)
Definition does {A} (m : H A) (f : Database -> Database) : Prop := forall c,
  match (m c).2 with
  | Ok _ => (m c).1.(cn_db) = f c.(cn_db)
  | Err _ => (m c).1.(cn_db) = c.(cn_db)
  end.

(** [m] reads [f db], or fails, and leaves the database as it was. *)
Definition reads {A} (m : H A) (f : Database -> A) : Prop := forall c,
  (m c).1.(cn_db) = c.(cn_db) /\ forall a, (m c).2 = Ok a -> a = f c.(cn_db).

Lemma call_does : does call id.
Proof. intros c. unfold call. cbn. by destruct (sql_error _). Qed.

Lemma statement_does table columns (f : Database -> Database) :
  does (statement table columns (fun db => Ok (f db))) f.
Proof.
  intros c. unfold statement, bind, call. cbn. destruct (sql_error _); [done|]. cbn.
  by destruct (has_columns _ _ _).
Qed.

Lemma query_reads {A} table columns (f : Database -> A) : reads (query table columns f) f.
Proof.
  intros c. unfold query, bind, call. cbn. destruct (sql_error _); [done|]. cbn.
  destruct (has_columns _ _ _); [|done]. split; [done|]. by intros a [= <-].
Qed.

(** A successful run of [m] leaves [f db]. *)
Definition yields {A} (m : H A) (f : Database -> Database) : Prop := forall c c1 a,
  m c = (c1, Ok a) -> c1.(cn_db) = f c.(cn_db).

Lemma does_yields {A} (m : H A) f : does m f -> yields m f.
Proof. intros Hm c c1 a Hr. specialize (Hm c). by rewrite Hr in Hm. Qed.

Lemma yields_ret {A} (a : A) : yields (ret a) id.
Proof. by intros c c1 b [= <- <-]. Qed.

Lemma yields_bind {A B} (m : H A) (k : A -> H B) f g :
  yields m f -> (forall a, yields (k a) g) -> yields (bind m k) (fun db => g (f db)).
Proof.
  intros Hm Hk c c2 b. unfold bind. destruct (m c) as [c1 [a|e]] eqn:Hr; [|done].
  intros Hr2. erewrite Hk by exact Hr2. by erewrite Hm by exact Hr.
Qed.

Lemma yields_query {A B} table columns (q : Database -> A) (k : A -> H B) g :
  (forall a, yields (k a) (g a)) ->
  yields (bind (query table columns q) k) (fun db => g (q db) db).
Proof.
  intros Hk c c2 b. unfold bind. destruct (query_reads table columns q c) as [Hdb Hv].
  destruct (query table columns q c) as [c1 [a|e]]; [|done]. cbn in Hdb, Hv.
  intros Hr. erewrite Hk by exact Hr. by rewrite Hdb, (Hv a).
Qed.

Lemma yields_ext {A} (m : H A) f g : yields m f -> (forall db, f db = g db) -> yields m g.
Proof. intros Hm Hfg c c1 a Hr. rewrite <- Hfg. eauto. Qed.

Lemma transaction_does {A} (body : H A) f : yields body f -> does (transaction body) f.
Proof.
  intros Hb c. unfold transaction, bind, ret, call. cbn. destruct (sql_error _); [done|]. cbn.
  destruct (body _) as [c1 [a|e]] eqn:Hr; cbn; [|done].
  destruct (sql_error c1.(cn_calls)); cbn; [done|]. by erewrite Hb by exact Hr.
Qed.

Lemma does_bind {A B} (m : H A) (k : A -> H B) f :
  does m id -> (forall a, does (k a) f) -> does (bind m k) f.
Proof.
  intros Hm Hk c. unfold bind. specialize (Hm c). destruct (m c) as [c1 [a|e]]; cbn in *; [|done].
  specialize (Hk a c1). by rewrite Hm in Hk.
Qed.
End calls.

(** ** Accounting *)

(** The four counters. *)
Inductive Field : Type := DownloadBytes | UploadBytes | DownloadPackets | UploadPackets.

Definition observed (f : Field) (o : UsageObservation) : N :=
  match f with
  | DownloadBytes => o.(uo_download_bytes)
  | UploadBytes => o.(uo_upload_bytes)
  | DownloadPackets => o.(uo_download_packets)
  | UploadPackets => o.(uo_upload_packets)
  end.

Definition stored (f : Field) (c : Counters) : Z :=
  match f with
  | DownloadBytes => c.(co_download_bytes)
  | UploadBytes => c.(co_upload_bytes)
  | DownloadPackets => c.(co_download_packets)
  | UploadPackets => c.(co_upload_packets)
  end.

(** What the buckets hold for a usage identity. *)
Definition of_usage (f : Field) (usage : string) (key : BucketKey) (row : BucketRow) : Z :=
  if decide (key.2 = usage) then stored f row.(bk_counters) else 0%Z.
Definition bucket_total (f : Field) (usage : string) (buckets : gmap BucketKey BucketRow) : Z :=
  map_sum (of_usage f usage) buckets.
Definition usage_total (f : Field) (usage : string) (db : Database) : Z :=
  bucket_total f usage db.(db_usage_buckets).

(** The traffic between consecutive readings of a counter that may restart from
    zero, the first reading counted from [last]. *)
Fixpoint metered (last : N) (readings : list N) : N :=
  match readings with
  | [] => 0
  | r :: readings => monotonic_delta r last + metered r readings
  end.

Definition reading_of (f : Field) (container : string) (command : WriteCommand) : option N :=
  match command with
  | Usage o _ => if decide (o.(uo_container_id) = container) then Some (observed f o) else None
  | _ => None
  end.
Definition readings (f : Field) (container : string) (commands : list WriteCommand) : list N :=
  omap (reading_of f container) commands.

Lemma metered_snoc last rs r :
  metered last (rs ++ [r]) = (metered last rs + monotonic_delta r (default last (list.last rs)))%N.
Proof.
  revert last. induction rs as [|x rs IH]; intros last; cbn [metered app].
  { change (default last (list.last [])) with last. lia. }
  rewrite IH. destruct rs as [|y rs].
  { change (default x (list.last [])) with x. change (default last (list.last [x])) with x. lia. }
  change (list.last (x :: y :: rs)) with (list.last (y :: rs)).
  assert (default x (list.last (y :: rs)) = default last (list.last (y :: rs))) as ->.
  { destruct (list.last (y :: rs)) eqn:E; [done|]. by apply list.last_None in E. }
  lia.
Qed.

Lemma metered_app_le last rs rs' : (metered last rs <= metered last (rs ++ rs'))%N.
Proof. revert last. induction rs as [|r rs IH]; intros last; cbn; [lia|]. specialize (IH r). lia. Qed.

(** A counter that does not restart: its last reading. *)
Lemma metered_monotone last rs :
  StronglySorted N.le (last :: rs) -> (last + metered last rs)%N = default last (list.last rs).
Proof.
  revert last. induction rs as [|r rs IH]; intros last Hs; [apply N.add_0_r|].
  apply StronglySorted_inv in Hs as [Hs Hle]. apply Forall_inv in Hle. specialize (IH r Hs).
  cbn [metered]. unfold monotonic_delta. destruct (N.leb_spec last r); [|lia].
  assert (default last (list.last (r :: rs)) = default r (list.last rs)) as -> by (destruct rs as [|y rs]; [done|]; change (list.last (r :: y :: rs)) with (list.last (y :: rs));
      destruct (list.last (y :: rs)) eqn:E; [done|]; by apply list.last_None in E).
  lia.
Qed.

Lemma bucket_total_alter f usage key (g : option BucketRow -> BucketRow) m :
  bucket_total f usage (partial_alter (fun old => Some (g old)) key m)
  = (bucket_total f usage m
     + if decide (key.2 = usage)
       then stored f (g (m !! key)).(bk_counters)
            - default 0 ((fun row => stored f row.(bk_counters)) <$> m !! key)
       else 0)%Z.
Proof.
  unfold bucket_total. rewrite map_sum_alter. f_equal. unfold of_usage.
  destruct (m !! key); cbn; by case_decide.
Qed.

Definition nonneg (f : Field) (usage : string) (m : gmap BucketKey BucketRow) : Prop :=
  forall (key : BucketKey) row, m !! key = Some row -> key.2 = usage -> (0 <= stored f row.(bk_counters))%Z.

Lemma nonneg_of_usage f usage m :
  nonneg f usage m -> forall k v, m !! k = Some v -> (0 <= of_usage f usage k v)%Z.
Proof. intros Hn k v Hk. unfold of_usage. case_decide as Hu; [by apply (Hn k v)|done]. Qed.

Lemma bucket_total_nonneg f usage m : nonneg f usage m -> (0 <= bucket_total f usage m)%Z.
Proof. intros Hn. by apply map_sum_nonneg, nonneg_of_usage. Qed.

Lemma bucket_total_ge f usage m key row :
  nonneg f usage m -> m !! key = Some row -> key.2 = usage ->
  (stored f row.(bk_counters) <= bucket_total f usage m)%Z.
Proof.
  intros Hn Hkey Hu. pose proof (map_sum_ge _ m key row (nonneg_of_usage _ _ _ Hn) Hkey) as Hge.
  unfold of_usage at 1 in Hge. by rewrite decide_True in Hge.
Qed.

(** What a successful [write_usage] does. *)
Definition add_to_bucket (o : UsageObservation) (bucket_ms : N) (delta : N * N * N * N) (db : Database) : Database :=
  if is_zero delta then db
  else with_buckets
         (partial_alter (fun previous => Some (bucket_row o delta previous)) (bucket_key o bucket_ms)
            db.(db_usage_buckets)) db.
Definition set_baseline (o : UsageObservation) (db : Database) : Database :=
  with_baselines (<[bounded o.(uo_container_id) := baseline_row o]> db.(db_baselines)) db.
Definition usage_effect (o : UsageObservation) (bucket_ms : N) (db : Database) : Database :=
  add_to_bucket o bucket_ms (usage_delta o (db.(db_baselines) !! bounded o.(uo_container_id))) (set_baseline o db).

Lemma write_usage_does `{!Sqlite} o bucket_ms : does (write_usage o bucket_ms) (usage_effect o bucket_ms).
Proof.
  apply transaction_does.
  apply (yields_query _ _ _ _ (fun previous db => add_to_bucket o bucket_ms (usage_delta o previous) (set_baseline o db))).
  intros previous. apply (yields_bind _ _ (set_baseline o) (add_to_bucket o bucket_ms (usage_delta o previous))).
  - apply does_yields, (statement_does _ _ (set_baseline o)).
  - intros _. unfold add_to_bucket. destruct (is_zero _); [apply yields_ret|].
    apply does_yields, (statement_does _ _ (fun db => with_buckets _ db)).
Qed.

(** The delta of a counter. *)
Definition pick (f : Field) (delta : N * N * N * N) : N :=
  let '(a, b, c, d) := delta in
  match f with DownloadBytes => a | UploadBytes => b | DownloadPackets => c | UploadPackets => d end.

Lemma stored_counters_row f delta : stored f (counters_row delta) = to_i64 (pick f delta).
Proof. destruct delta as [[[a b] c] d]. by destruct f. Qed.
Lemma pick_observed f o : pick f (observed_counters o) = observed f o.
Proof. by destruct f. Qed.
Lemma stored_map f g a b : stored f (map_counters g a b) = g (stored f a) (stored f b).
Proof. by destruct f. Qed.
Lemma pick_zero f delta : is_zero delta = true -> pick f delta = 0%N.
Proof. unfold is_zero. intros Hd%bool_decide_eq_true. subst delta. by destruct f. Qed.

Lemma to_i64_id n : (Z.of_N n <= i64_MAX)%Z -> to_i64 n = Z.of_N n.
Proof. unfold to_i64. lia. Qed.

Lemma pick_usage_delta f o row :
  pick f (usage_delta o (Some row))
  = if same_incarnation o row then monotonic_delta (observed f o) (from_i64 (stored f row.(bl_counters)))
    else observed f o.
Proof. cbn [usage_delta]. destruct (same_incarnation o row); [by destruct f|apply pick_observed]. Qed.

Section accounting.
(** A container that is observed with one usage identity and one address, which
    nothing else has. *)
Context (container usage address : string).

Definition the_only (commands : list WriteCommand) : Prop := forall o bucket_ms, Usage o bucket_ms ∈ commands ->
  (o.(uo_container_id) = container -> o.(uo_usage_id) = usage /\ o.(uo_ipv4_address) = address)
  /\ (o.(uo_container_id) <> container -> bounded o.(uo_container_id) <> container /\ bounded o.(uo_usage_id) <> usage).

Definition only_command (command : WriteCommand) : bool :=
  match command with
  | Usage o _ =>
      if bool_decide (o.(uo_container_id) = container)
      then bool_decide (o.(uo_usage_id) = usage) && bool_decide (o.(uo_ipv4_address) = address)
      else bool_decide (bounded o.(uo_container_id) <> container) && bool_decide (bounded o.(uo_usage_id) <> usage)
  | _ => true
  end.

Lemma the_only_intro commands : forallb only_command commands = true -> the_only commands.
Proof.
  intros Hall o b Ho. rewrite forallb_elem in Hall. specialize (Hall _ Ho). cbn in Hall.
  case_bool_decide; simplify_bools; split; done || auto.
Qed.

Definition short : Prop := bounded container = container /\ bounded usage = usage /\ bounded address = address.

Definition is_observation (command : WriteCommand) : bool :=
  match command with Usage o _ => bool_decide (o.(uo_container_id) = container) | _ => false end.

(** The database after the commands [written]. *)
Record accounted (written : list WriteCommand) (db : Database) : Prop := {
  ac_baseline :
    match db.(db_baselines) !! container with
    | Some row => row.(bl_usage_id) = usage /\ row.(bl_ipv4_address) = address
        /\ (forall f, Some (stored f row.(bl_counters)) = to_i64 <$> list.last (readings f container written))
    | None => forall f, readings f container written = []
    end;
  ac_nonneg : forall f, nonneg f usage db.(db_usage_buckets);
  ac_total : forall f, usage_total f usage db = Z.of_N (metered 0 (readings f container written));
}.

Lemma readings_snoc f written command :
  readings f container (written ++ [command])
  = readings f container written ++ match reading_of f container command with Some r => [r] | None => [] end.
Proof. unfold readings. rewrite omap_app. cbn. by destruct (reading_of _ _ _). Qed.

Lemma accounted_other written db db1 command :
  accounted written db -> is_observation command = false ->
  db1.(db_baselines) !! container = db.(db_baselines) !! container ->
  (forall key, key.2 = usage -> db1.(db_usage_buckets) !! key = db.(db_usage_buckets) !! key) ->
  (forall f, usage_total f usage db1 = usage_total f usage db) ->
  accounted (written ++ [command]) db1.
Proof.
  intros [Hb Hn Ht] Hc Hbase Hkeys Htot.
  assert (forall f, readings f container (written ++ [command]) = readings f container written) as Hr.
  { intros f. rewrite readings_snoc. destruct command; cbn; rewrite ?app_nil_r; try done.
    unfold is_observation in Hc. apply bool_decide_eq_false in Hc. by rewrite decide_False, app_nil_r. }
  split.
  - rewrite Hbase. destruct (db_baselines db !! container) as [row|].
    + destruct Hb as (? & ? & Hf). split; [done|]. split; [done|]. intros f. by rewrite Hr.
    + intros f. by rewrite Hr.
  - intros f key row Hk Hu. rewrite Hkeys in Hk by done. by apply (Hn f key row).
  - intros f. by rewrite Htot, Hr.
Qed.

Lemma reading_bound last rs : (default last (list.last rs) <= last + metered last rs)%N.
Proof.
  induction rs as [|r rs IH] using rev_ind; [cbn; lia|].
  rewrite list.last_snoc, metered_snoc. change (default last (Some r)) with r. unfold monotonic_delta. destruct (N.leb_spec (default last (list.last rs)) r); lia.
Qed.

Definition fits (f : Field) (commands : list WriteCommand) : Prop :=
  (Z.of_N (metered 0 (readings f container commands)) <= i64_MAX)%Z.

(** What an observation of the container adds. *)
Lemma observation_delta written db o bucket_ms f :
  short -> accounted written db -> fits f (written ++ [Usage o bucket_ms]) ->
  o.(uo_container_id) = container -> o.(uo_usage_id) = usage -> o.(uo_ipv4_address) = address ->
  pick f (usage_delta o (db.(db_baselines) !! container))
  = monotonic_delta (observed f o) (default 0%N (list.last (readings f container written))).
Proof.
  intros (Hsc & Hsu & Hsa) [Hb Hn Ht] Hfit Hc Hu Ha.
  assert (Z.of_N (metered 0 (readings f container written)) <= i64_MAX)%Z as Hfit0.
  { unfold fits in Hfit. rewrite readings_snoc in Hfit.
    pose proof (metered_app_le 0 (readings f container written)
      match reading_of f container (Usage o bucket_ms) with Some r => [r] | None => [] end). lia. }
  pose proof (reading_bound 0 (readings f container written)) as Hbound.
  destruct (db_baselines db !! container) as [row|].
  - destruct Hb as (Hbu & Hba & Hbf). rewrite pick_usage_delta. unfold same_incarnation.
    rewrite Hbu, Hba, Hu, Ha, !String.eqb_refl. cbn [andb].
    specialize (Hbf f). destruct (list.last (readings f container written)) as [r|]; [|done].
    cbn in Hbf, Hbound |- *. apply (inj Some) in Hbf. rewrite Hbf, to_i64_id by lia.
    unfold from_i64. by rewrite N2Z.id.
  - cbn [usage_delta]. rewrite pick_observed, Hb. cbn. unfold monotonic_delta.
    case_match; simplify_bools; lia.
Qed.

Lemma add_to_bucket_total f o bucket_ms delta db :
  nonneg f usage db.(db_usage_buckets) -> bounded o.(uo_usage_id) = usage ->
  (usage_total f usage db + Z.of_N (pick f delta) <= i64_MAX)%Z ->
  usage_total f usage (add_to_bucket o bucket_ms delta db) = (usage_total f usage db + Z.of_N (pick f delta))%Z
  /\ nonneg f usage (add_to_bucket o bucket_ms delta db).(db_usage_buckets).
Proof.
  intros Hn Hu Hfit. unfold add_to_bucket. destruct (is_zero delta) eqn:Hz.
  { rewrite (pick_zero f _ Hz). split; [lia|done]. }
  pose proof (bucket_total_nonneg _ _ _ Hn) as Hpos. unfold usage_total in *. cbn [with_buckets db_usage_buckets].
  assert (forall row, db_usage_buckets db !! bucket_key o bucket_ms = Some row ->
    (0 <= stored f row.(bk_counters) /\ stored f row.(bk_counters) + Z.of_N (pick f delta) <= i64_MAX)%Z) as Hold.
  { intros row Hrow. pose proof (bucket_total_ge f usage _ _ row Hn Hrow Hu). split; [|lia].
    by apply (Hn _ row Hrow). }
  assert (stored f (counters_row delta) = Z.of_N (pick f delta)) as Hadd.
  { rewrite stored_counters_row. apply to_i64_id. lia. }
  split.
  - rewrite bucket_total_alter, decide_True by done. f_equal.
    destruct (db_usage_buckets db !! bucket_key o bucket_ms) as [row|]; cbn [bucket_row bk_counters];
      cbn [fmap option_fmap option_map from_option id]; [|lia].
    destruct (Hold row eq_refl). rewrite stored_map, Hadd, Z.min_r by lia. lia.
  - intros key row Hk Hkey. destruct (decide (bucket_key o bucket_ms = key)) as [<-|Hne].
    + rewrite lookup_partial_alter_eq in Hk. apply (inj Some) in Hk. subst row. cbn [bucket_row bk_counters].
      destruct (db_usage_buckets db !! bucket_key o bucket_ms) as [row|]; [|lia].
      destruct (Hold row eq_refl). rewrite stored_map, Hadd, Z.min_r by lia. lia.
    + rewrite lookup_partial_alter_ne in Hk by done. by apply (Hn key row).
Qed.

Lemma accounted_observation written db o bucket_ms :
  short -> accounted written db -> (forall f, fits f (written ++ [Usage o bucket_ms])) ->
  o.(uo_container_id) = container -> o.(uo_usage_id) = usage -> o.(uo_ipv4_address) = address ->
  accounted (written ++ [Usage o bucket_ms]) (usage_effect o bucket_ms db).
Proof.
  intros Hs Hac Hfit Hc Hu Ha. pose proof Hs as (Hsc & Hsu & Hsa).
  assert (forall f, readings f container (written ++ [Usage o bucket_ms])
    = readings f container written ++ [observed f o]) as Hr.
  { intros f. rewrite readings_snoc. cbn. by rewrite decide_True. }
  assert (forall f, metered 0 (readings f container (written ++ [Usage o bucket_ms]))
    = metered 0 (readings f container written)
      + pick f (usage_delta o (db.(db_baselines) !! container)))%N as Hm.
  { intros f. rewrite Hr, metered_snoc. f_equal. symmetry. by apply (observation_delta written db o bucket_ms). }
  assert (forall f, Z.of_N (observed f o) <= i64_MAX)%Z as Hobs.
  { intros f. specialize (Hfit f). unfold fits in Hfit.
    pose proof (reading_bound 0 (readings f container (written ++ [Usage o bucket_ms]))) as Hle.
    rewrite Hr, list.last_snoc, <- Hr in Hle. cbn in Hle. lia. }
  destruct Hac as [Hb Hn Ht]. unfold usage_effect. rewrite Hc, Hsc.
  set (delta := usage_delta o (db_baselines db !! container)) in *.
  assert (forall f, usage_total f usage (add_to_bucket o bucket_ms delta (set_baseline o db))
      = (usage_total f usage db + Z.of_N (pick f delta))%Z
    /\ nonneg f usage (add_to_bucket o bucket_ms delta (set_baseline o db)).(db_usage_buckets)) as Hadd.
  { intros f. apply (add_to_bucket_total f o bucket_ms delta (set_baseline o db)).
    - apply Hn.
    - by rewrite Hu, Hsu.
    - change (usage_total f usage (set_baseline o db)) with (usage_total f usage db).
      specialize (Hfit f). unfold fits in Hfit. rewrite Hm in Hfit. rewrite Ht. lia. }
  split.
  - replace (db_baselines (add_to_bucket o bucket_ms delta (set_baseline o db)))
      with (db_baselines (set_baseline o db)) by (unfold add_to_bucket; by destruct (is_zero delta)).
    cbn [set_baseline with_baselines db_baselines]. rewrite Hc, Hsc, lookup_insert_eq.
    cbn [baseline_row bl_usage_id bl_ipv4_address bl_counters]. rewrite Hu, Hsu, Ha, Hsa.
    split; [done|]. split; [done|]. intros f. rewrite Hr, list.last_snoc, stored_counters_row, pick_observed. done.
  - intros f. apply Hadd.
  - intros f. rewrite Hm. destruct (Hadd f) as [-> _]. rewrite Ht. lia.
Qed.

Lemma accounted_elsewhere written db o bucket_ms :
  accounted written db -> o.(uo_container_id) <> container ->
  bounded o.(uo_container_id) <> container -> bounded o.(uo_usage_id) <> usage ->
  accounted (written ++ [Usage o bucket_ms]) (usage_effect o bucket_ms db).
Proof.
  intros Hac Hc Hbc Hbu. apply (accounted_other _ db); [done|..].
  - unfold is_observation. by apply bool_decide_eq_false.
  - unfold usage_effect, add_to_bucket. destruct (is_zero _); cbn; by rewrite lookup_insert_ne.
  - intros key Hkey. unfold usage_effect, add_to_bucket. destruct (is_zero _); cbn; [done|].
    apply lookup_partial_alter_ne. intros <-. done.
  - intros f. unfold usage_effect, add_to_bucket. destruct (is_zero _); [done|].
    unfold usage_total. cbn [with_buckets db_usage_buckets]. rewrite bucket_total_alter.
    rewrite decide_False by done. cbn [set_baseline with_baselines db_usage_buckets]. lia.
Qed.

Section writer.
Context `{!Sqlite} (retention_days : N).

Definition usage_tables (db : Database) := (db.(db_baselines), db.(db_usage_buckets)).
Definition leaves_usage {A} (m : H A) : Prop := forall c, usage_tables (m c).1.(cn_db) = usage_tables c.(cn_db).

Lemma statement_leaves_usage table columns f :
  (forall db db1, f db = Ok db1 -> usage_tables db1 = usage_tables db) -> leaves_usage (statement table columns f).
Proof.
  intros Hf c. unfold statement, bind, call. cbn. destruct (sql_error _); [done|]. cbn.
  destruct (has_columns _ _ _); [|done]. destruct (f c.(cn_db)) as [db1|e] eqn:E; [|done]. by apply Hf.
Qed.

Lemma insert_event_usage row db db1 : insert_event row db = Ok db1 -> usage_tables db1 = usage_tables db.
Proof. unfold insert_event. intros Hi. res_steps. by subst db1. Qed.

Lemma write_command_leaves_usage command :
  (forall o bucket_ms, command <> Usage o bucket_ms) -> leaves_usage (write_command command).
Proof.
  intros Hc. destruct command; try done.
  - by specialize (Hc observation bucket_ms).
  - apply statement_leaves_usage, insert_event_usage.
  - apply statement_leaves_usage, insert_event_usage.
  - apply statement_leaves_usage. by intros db db1 [= <-].
Qed.

Definition db_of (w : Writer) : Database := w.(wr_conn).(cn_db).

Lemma accounted_unchanged written db db1 command :
  (forall o bucket_ms, command <> Usage o bucket_ms) -> usage_tables db1 = usage_tables db ->
  accounted written db -> accounted (written ++ [command]) db1.
Proof.
  intros Hc [=Hb Hu] Hac. apply (accounted_other _ db); try done.
  - destruct command; try done. by specialize (Hc observation bucket_ms).
  - by rewrite Hb.
  - intros key _. by rewrite Hu.
  - intros f. unfold usage_total. by rewrite Hu.
Qed.

(** The outcome of a write. *)
Lemma write_command_accounts written command c :
  short -> the_only (written ++ [command]) -> (forall f, fits f (written ++ [command])) -> accounted written c.(cn_db) ->
  let '(c1, r) := write_command command c in
  match r with
  | Ok _ => accounted (written ++ [command]) c1.(cn_db)
  | Err _ => accounted written c1.(cn_db)
  end.
Proof.
  intros Hs Honly Hfit Hac.
  assert ((exists o bucket_ms, command = Usage o bucket_ms) \/ forall o bucket_ms, command <> Usage o bucket_ms)
    as [(o & bucket_ms & ->)|Hc] by (destruct command; eauto).
  - pose proof (write_usage_does o bucket_ms c) as Hd. cbn [write_command].
    destruct (write_usage o bucket_ms c) as [c1 [[]|e]]; cbn in Hd; rewrite Hd; [|done].
    destruct (Honly o bucket_ms) as [Hin Hout]; [apply elem_of_app; right; left|].
    destruct (decide (o.(uo_container_id) = container)) as [Heq|Hne].
    + destruct (Hin Heq). by apply accounted_observation.
    + destruct (Hout Hne). by apply accounted_elsewhere.
  - pose proof (write_command_leaves_usage command Hc c) as Hl.
    destruct (write_command command c) as [c1 [[]|e]]; cbn in Hl; [by apply (accounted_unchanged _ c.(cn_db))|].
    destruct Hac as [Hb Hn Ht]. revert Hl. intros [=Hlb Hlu]. split.
    + by rewrite Hlb.
    + by rewrite Hlu.
    + intros f. unfold usage_total. rewrite Hlu. apply Ht.
Qed.

Lemma writer_turn_accounts written command w :
  short -> the_only (written ++ [command]) -> (forall f, fits f (written ++ [command])) ->
  accounted written (db_of w) -> (w.(wr_commands_since_prune) + 1 < PRUNE_EVERY)%N ->
  let '(w1, r) := writer_turn retention_days command w in
  match r with
  | Ok continue => accounted (written ++ [command]) (db_of w1)
      /\ (w1.(wr_commands_since_prune) <= w.(wr_commands_since_prune) + 1)%N
      /\ (continue = false -> exists reply, command = Shutdown reply)
  | Err _ => accounted written (db_of w1)
  end.
Proof.
  intros Hs Honly Hfit Hac Hprune.
  pose proof (write_command_accounts written command w.(wr_conn) Hs Honly Hfit Hac) as Hw.
  assert ((exists reply, command = Flush reply \/ command = Shutdown reply)
    \/ forall reply, command <> Flush reply /\ command <> Shutdown reply) as [[reply Hc]|Hc].
  { destruct command; try (right; intros reply'; by split); left; exists reply; auto. }
  - assert (usage_tables (checkpoint w.(wr_conn)).1.(cn_db) = usage_tables (db_of w)) as Hu.
    { done. }
    destruct Hc as [-> | ->]; cbn [writer_turn]; unfold bind, attempt, on_conn, send_reply, modify, ret;
      destruct (checkpoint w.(wr_conn)) as [c1 r]; cbn in Hu |- *;
      (split; [by apply (accounted_unchanged _ (db_of w))|split; [lia|]]); [done|by exists reply].
  - replace (writer_turn retention_days command w) with
      ((let* _ := on_conn (write_command command) in
        let* count := gets wr_commands_since_prune in
        let* _ :=
          if (PRUNE_EVERY <=? count + 1)%N then
            let* _ := on_conn (prune_transaction retention_days) in set_since_prune 0
          else set_since_prune (count + 1) in
        ret true) w)
      by (destruct command; try done; by destruct (Hc reply)).
    unfold bind, on_conn, gets. destruct (write_command command w.(wr_conn)) as [c1 [[]|e]]; [|done].
    cbn [fst snd wr_commands_since_prune]. destruct (N.leb_spec PRUNE_EVERY (w.(wr_commands_since_prune) + 1)); [lia|].
    cbn. split; [done|]. split; [lia|done].
Qed.

Lemma the_only_prefix l1 l2 : the_only (l1 ++ l2) -> the_only l1.
Proof. intros Hl o b Ho. apply (Hl o b). apply elem_of_app. by left. Qed.

Lemma fits_prefix f l1 l2 : fits f (l1 ++ l2) -> fits f l1.
Proof.
  unfold fits, readings. rewrite omap_app.
  pose proof (metered_app_le 0 (omap (reading_of f container) l1) (omap (reading_of f container) l2)). lia.
Qed.

Lemma writer_loop_accounts written commands w :
  short -> the_only (written ++ commands) -> (forall f, fits f (written ++ commands)) ->
  accounted written (db_of w) -> (w.(wr_commands_since_prune) + N.of_nat (length commands) < PRUNE_EVERY)%N ->
  let '(w1, r) := writer_loop retention_days commands w in
  exists executed rest, commands = executed ++ rest /\ accounted (written ++ executed) (db_of w1)
    /\ match r with
       | Ok _ => rest = [] \/ exists reply, list.last executed = Some (Shutdown reply)
       | Err _ => rest <> []
       end.
Proof.
  revert written w. induction commands as [|command commands IH]; intros written w Hs Honly Hfit Hac Hprune.
  { exists [], []. split; [done|]. split; [by rewrite app_nil_r|by left]. }
  assert (written ++ command :: commands = (written ++ [command]) ++ commands) as Happ by (by rewrite <- app_assoc).
  cbn [length] in Hprune. cbn [writer_loop]. unfold bind.
  assert (the_only (written ++ [command]) /\ forall f, fits f (written ++ [command])) as [Honly1 Hfit1].
  { rewrite Happ in Honly, Hfit. split; [by eapply the_only_prefix|]. intros f. by eapply fits_prefix. }
  pose proof (writer_turn_accounts written command w Hs Honly1 Hfit1 Hac ltac:(lia)) as Hturn.
  destruct (writer_turn retention_days command w) as [w1 [continue|e]].
  - destruct Hturn as (Hac1 & Hle & Hstop).
    destruct continue; cbn [writer_loop ret].
    + specialize (IH (written ++ [command]) w1 Hs). rewrite <- Happ in IH. specialize (IH Honly Hfit Hac1 ltac:(lia)).
      destruct (writer_loop retention_days commands w1) as [w2 r].
      destruct IH as (executed & rest & -> & Hac2 & Hr).
      exists (command :: executed), rest. rewrite <- app_assoc in Hac2. split; [done|]. split; [done|].
      destruct r; [|done]. destruct Hr as [?|[reply Hl]]; [by left|]. right. exists reply.
      by destruct executed.
    + unfold ret. exists [command], commands. split; [done|]. split; [done|]. right.
      destruct Hstop as [reply ->]; [done|]. by exists reply.
  - exists [], (command :: commands). by rewrite app_nil_r.
Qed.
End writer.
End accounting.

Definition nothing_recorded (container usage : string) (db : Database) : Prop :=
  db.(db_baselines) !! container = None /\ forall (key : BucketKey), key.2 = usage -> db.(db_usage_buckets) !! key = None.


(** *** A witness *)

Definition sqlite_works : Sqlite :=
  {| sql_error := fun _ => None; sql_clock := fun _ => 1700000000000%N; avg := fun _ => None |}.
#[local] Existing Instance sqlite_works.

Definition example_conn : Conn := (open_connection {| cn_db := empty_database; cn_calls := 0 |}).1.
Definition example_writer : Writer :=
  {| wr_conn := example_conn; wr_commands_since_prune := 0; wr_replies := [] |}.

Definition example_observation (at_ : N) (usage container : string) (bytes : N) : UsageObservation :=
  {| uo_sampled_at_unix_ms := 1700000000000 + at_; uo_usage_id := usage; uo_usage_id_source := ExplicitLabel;
     uo_container_id := container; uo_ipv4_address := "10.89.0.5"; uo_name := usage;
     uo_download_bytes := bytes; uo_upload_bytes := 2 * bytes; uo_download_packets := 1; uo_upload_packets := 1 |}.

Definition example_commands : list WriteCommand :=
  [Usage (example_observation 0 "torrent" "c1" 100) 60000; Usage (example_observation 5000 "web" "c2" 7) 60000;
   Usage (example_observation 70000 "torrent" "c1" 250) 60000; Flush 1;
   Usage (example_observation 75000 "torrent" "c1" 40) 60000].


Example example_totals :
  let w1 := (writer_loop 30 example_commands example_writer).1 in
  usage_total DownloadBytes "torrent" (db_of w1) = 290%Z /\ usage_total UploadBytes "web" (db_of w1) = 14%Z
  /\ size (db_usage_buckets (db_of w1)) = 3%nat.
Proof. by vm_compute. Qed.

