(* ===== verification/HistoryPages.v ===== *)
(** Opening the history database, and paging through its events. *)

From S2P Require Import Prelude RustStr Net BTree Order State Domain Float64 Config StateErr Notifications History HistoryProps.

#[local] Existing Instance sqlite_works.

(** ** Opening the database *)

Section opening.
Context `{!Sqlite}.

Lemma call_shape c : (call c).1.(cn_db) = c.(cn_db).
Proof. done. Qed.

(** A computation that leaves the database. *)
Definition leaves_db {A} (m : H A) : Prop := forall c, (m c).1.(cn_db) = c.(cn_db).

Lemma leaves_ret {A} (a : A) : leaves_db (ret a).
Proof. done. Qed.
Lemma leaves_fail {A} e : leaves_db (fail (A := A) e).
Proof. done. Qed.
Lemma leaves_lift {A} (r : Result A string) : leaves_db (lift r).
Proof. done. Qed.
Lemma leaves_gets {A} (f : Conn -> A) : leaves_db (gets f).
Proof. done. Qed.
Lemma leaves_call : leaves_db call.
Proof. done. Qed.
Lemma leaves_bind {A B} (m : H A) (k : A -> H B) :
  leaves_db m -> (forall a, leaves_db (k a)) -> leaves_db (bind m k).
Proof.
  intros Hm Hk c. unfold bind. specialize (Hm c). destruct (m c) as [c1 [a|e]]; cbn in Hm; [|done].
  by rewrite (Hk a c1).
Qed.
Lemma leaves_query {A} table columns (f : Database -> A) : leaves_db (query table columns f).
Proof. intros c. apply query_reads. Qed.
Lemma leaves_each {A} (f : A -> H unit) l : (forall x, leaves_db (f x)) -> leaves_db (each f l).
Proof. intros Hf. induction l as [|x l IH]; [apply leaves_ret|]. by apply leaves_bind. Qed.

(** On a current database [migrate] only looks. *)
Lemma migrate_current c :
  c.(cn_db).(db_user_version) = SCHEMA_VERSION -> (migrate c).1.(cn_db) = c.(cn_db).
Proof.
  intros Hv. unfold migrate, user_version, bind, call, gets. cbn.
  destruct (sql_error c.(cn_calls)); [done|]. cbn. rewrite Hv. cbn.
  destruct (sql_error _); [done|]. cbn. rewrite Hv. cbn.
  destruct (sql_error _); [done|]. cbn. rewrite Hv. done.
Qed.

Lemma open_current c :
  c.(cn_db).(db_user_version) = SCHEMA_VERSION -> (open_connection c).1.(cn_db) = c.(cn_db).
Proof.
  intros Hv. unfold open_connection.
  do 4 (unfold bind at 1, call at 1; cbn [cn_calls cn_db]; destruct (sql_error _); [done|]).
  unfold bind at 1. pose proof (migrate_current {| cn_db := c.(cn_db); cn_calls := S (S (S (S c.(cn_calls)))) |} Hv) as Hm.
  destruct (migrate _) as [c1 [[]|e]]; cbn in Hm; [|done].
  rewrite <- Hm. apply leaves_each. intros _. apply leaves_call.
Qed.

(** *** When no call fails *)

Definition quiet : Prop := forall n, sql_error n = None.

(** [m] ends well. *)
Definition succeeds {A} (m : H A) c : Prop := exists a, (m c).2 = Ok a.

Lemma call_quiet c : quiet -> (call c).2 = Ok tt.
Proof. intros Hq. unfold call. cbn. by rewrite Hq. Qed.

Lemma query_quiet {A} table columns (f : Database -> A) c :
  quiet -> has_columns c.(cn_db) table columns = true -> (query table columns f c).2 = Ok (f c.(cn_db)).
Proof. intros Hq Hc. unfold query, bind, call. cbn. rewrite Hq. cbn. by rewrite Hc. Qed.

Lemma secure_quiet c : quiet -> (secure_database_files c).2 = Ok tt.
Proof. intros Hq. unfold secure_database_files, each, bind, call. cbn. by rewrite !Hq. Qed.

Lemma open_quiet c :
  quiet -> c.(cn_db).(db_user_version) = SCHEMA_VERSION -> (open_connection c).2 = Ok tt.
Proof.
  intros Hq Hv. unfold open_connection.
  do 4 (unfold bind at 1, call at 1; cbn [cn_calls cn_db]; rewrite Hq).
  unfold bind at 1, migrate, user_version. unfold bind, call, gets. cbn. rewrite !Hq. cbn. rewrite Hv. cbn.
  rewrite !Hq. cbn. rewrite Hv. cbn. rewrite !Hq. cbn. rewrite Hv. cbn. by rewrite !Hq.
Qed.
End opening.

(** ** Pages of events *)

(** A client that asks for the next page until there is none. *)
Section pages.
Context `{!Sqlite}.

Definition before_id (q : EventHistoryQuery) (before : option N) : EventHistoryQuery :=
  {| eq_from_unix_ms := q.(eq_from_unix_ms); eq_to_unix_ms := q.(eq_to_unix_ms); eq_before_id := before;
     eq_limit := q.(eq_limit) |}.

(** [None] when there are more than [pages] pages. *)
Fixpoint follow (pages : nat) (q : EventHistoryQuery) : H (option (list HistoricalEvent)) :=
  match pages with
  | O => ret None
  | S pages =>
      let* page := query_events q in
      match page.(er_next_before_id) with
      | None => ret (Some page.(er_events))
      | Some next =>
          let* rest := follow pages (before_id q (Some next)) in
          ret (app page.(er_events) <$> rest)
      end
  end.

Definition descending (l : list (Z * EventRow)) : Prop := StronglySorted (fun a b => (b.1 < a.1)%Z) l.

Lemma keys_increasing {V} (m : gmap Z V) :
  StronglySorted (fun a b => (a.1 < b.1)%Z) (btree_iter Z.leb m).
Proof.
  pose proof (NoDup_btree_keys Z.leb m) as Hnd. unfold btree_keys in Hnd.
  assert (StronglySorted (fun a b : Z * V => Z.leb a.1 b.1 = true) (btree_iter Z.leb m)) as Hs.
  { apply sort_by_sorted; intros; [apply leb_total|by eapply leb_trans]. }
  induction Hs as [|x l Hl IH Hx]; constructor; cbn in Hnd; apply list.NoDup_cons in Hnd as [Hnin Hnd].
  - by apply IH.
  - rewrite list.Forall_forall in Hx |- *. intros y Hy. specialize (Hx y Hy). apply Z.leb_le in Hx.
    enough (x.1 <> y.1) by lia. intros Heq. apply Hnin. rewrite Heq. by apply list_elem_of_fmap_2.
Qed.

Lemma StronglySorted_rev {A} (R : A -> A -> Prop) l : StronglySorted R l -> StronglySorted (flip R) (rev l).
Proof.
  induction 1 as [|x l Hl IH Hx]; cbn; [constructor|]. apply StronglySorted_app_2; [|done|repeat constructor].
  intros y z Hy ->%list_elem_of_singleton. rewrite list.Forall_forall in Hx. apply Hx.
  by rewrite list_elem_of_In, in_rev, <- list_elem_of_In.
Qed.

Lemma StronglySorted_bfilter {A} (R : A -> A -> Prop) (f : A -> bool) l :
  StronglySorted R l -> StronglySorted R (List.filter f l).
Proof.
  induction 1 as [|x l Hl IH Hx]; cbn; [constructor|]. destruct (f x); [|done]. constructor; [done|].
  rewrite list.Forall_forall in Hx |- *. intros y [Hy _]%elem_of_bfilter. auto.
Qed.

Lemma selected_descending from to before db : descending (selected_events from to before db).
Proof. apply StronglySorted_bfilter, (StronglySorted_rev _ _ (keys_increasing _)). Qed.

Lemma bfilter_bfilter {A} (f g : A -> bool) l : List.filter f (List.filter g l) = List.filter (fun x => g x && f x) l.
Proof. induction l as [|x l IH]; cbn; [done|]. destruct (g x); cbn; [destruct (f x)|]; by rewrite IH. Qed.

Lemma bfilter_ext {A} (f g : A -> bool) l : (forall x, x ∈ l -> f x = g x) -> List.filter f l = List.filter g l.
Proof.
  induction l as [|x l IH]; intros Hfg; cbn; [done|]. rewrite (Hfg x) by left.
  rewrite IH; [done|]. intros y Hy. apply Hfg. by right.
Qed.

(** What comes after [x] in a descending list. *)
Lemma descending_below l1 x l2 :
  descending (l1 ++ x :: l2) -> List.filter (fun e : Z * EventRow => (e.1 <? x.1)%Z) (l1 ++ x :: l2) = l2.
Proof.
  intros Hd. rewrite List.filter_app. cbn. rewrite Z.ltb_irrefl.
  assert (forall e, e ∈ l1 -> (x.1 < e.1)%Z) as Habove.
  { intros e He. apply (StronglySorted_app_1_elem_of _ _ _ e x Hd); [done|left]. }
  assert (forall e, e ∈ l2 -> (e.1 < x.1)%Z) as Hbelow.
  { apply StronglySorted_app_1_r in Hd. apply StronglySorted_inv in Hd as [_ Hd]. by rewrite list.Forall_forall in Hd. }
  rewrite (bfilter_ext _ (fun _ => false) l1), (bfilter_ext _ (fun _ => true) l2).
  - clear. induction l1; cbn; [|done]. induction l2; cbn; by f_equal.
  - intros e He. apply Z.ltb_lt. auto.
  - intros e He. apply Z.ltb_ge. specialize (Habove e He). lia.
Qed.

(** The rows below the last row of a page are the rows after the page. *)
Lemma next_page from to before db n x :
  list.last (take n (selected_events from to before db)) = Some x ->
  selected_events from to x.1 db = drop n (selected_events from to before db).
Proof.
  intros Hx. apply list.last_Some in Hx as [l1 Hl].
  pose proof (take_drop n (selected_events from to before db)) as Hsplit. rewrite Hl, <- app_assoc in Hsplit.
  cbn in Hsplit. pose proof (selected_descending from to before db) as Hd. rewrite <- Hsplit in Hd.
  assert (x ∈ selected_events from to before db) as Hin by (rewrite <- Hsplit; apply elem_of_app; right; left).
  rewrite <- (descending_below _ _ _ Hd), Hsplit. unfold selected_events at 2. rewrite bfilter_bfilter.
  unfold selected_events. apply bfilter_ext. intros [id row] _. cbn.
  apply elem_of_bfilter in Hin as [_ Hin]. destruct x as [xid xrow]. cbn in Hin |- *. simplify_bools.
  destruct (_ <=? _)%Z, (_ <? to)%Z; cbn; try done.
  destruct (Z.ltb_spec id xid), (Z.ltb_spec id before); cbn; try done; lia.
Qed.

(** The schema is the current one, and every event can be shown. *)
Record events_readable (db : Database) : Prop := {
  rd_version : db.(db_user_version) = SCHEMA_VERSION;
  rd_columns : has_columns db "events" (events_columns.*1) = true;
  rd_rows : forall id row, db.(db_events) !! id = Some row ->
    (0 <= id < i64_MAX)%Z /\ match row.(ev_external_port) with Some port => (0 <= port <= 65535)%Z | None => True end;
}.

Definition row_readable (entry : Z * EventRow) : bool :=
  (0 <=? entry.1)%Z && (entry.1 <? i64_MAX)%Z
  && match entry.2.(ev_external_port) with Some port => (0 <=? port)%Z && (port <=? 65535)%Z | None => true end.

Lemma rows_readable (events : gmap Z EventRow) : forallb row_readable (map_to_list events) = true ->
  forall id row, events !! id = Some row ->
    (0 <= id < i64_MAX)%Z /\ match row.(ev_external_port) with Some port => (0 <= port <= 65535)%Z | None => True end.
Proof.
  rewrite forallb_elem. intros Hall id row Hrow. specialize (Hall (id, row)).
  rewrite elem_of_map_to_list in Hall. specialize (Hall Hrow). unfold row_readable in Hall. cbn in Hall.
  destruct (ev_external_port row); simplify_bools; split; lia.
Qed.

Lemma readable_event db id row : events_readable db -> db.(db_events) !! id = Some row ->
  exists e, historical_event (id, row) = Ok e /\ to_i64 e.(he_id) = id.
Proof.
  intros Hdb Hrow. destruct (rd_rows db Hdb id row Hrow) as [Hid Hport]. unfold historical_event, get_uint.
  assert (to_i64 (from_i64 id) = id) by (unfold to_i64, from_i64; lia).
  destruct (ev_external_port row) as [port|]; cbn; [|eauto].
  destruct (Z.leb_spec 0 port); [|lia]. cbn. change (Z.of_N u16_MAX) with 65535%Z.
  destruct (Z.leb_spec port 65535); [|lia]. cbn. eauto.
Qed.

Lemma selected_stored from to before db id row :
  (id, row) ∈ selected_events from to before db -> db.(db_events) !! id = Some row.
Proof.
  unfold selected_events. intros [Hin _]%elem_of_bfilter. apply elem_of_btree_iter with (leb := Z.leb).
  by rewrite list_elem_of_In, in_rev, <- list_elem_of_In.
Qed.

Lemma readable_events db l : events_readable db ->
  (forall entry, entry ∈ l -> db.(db_events) !! entry.1 = Some entry.2) ->
  exists es, mapM_res historical_event l = Ok es /\ (fun e => to_i64 e.(he_id)) <$> es = l.*1.
Proof.
  intros Hdb. induction l as [|[id row] l IH]; intros Hl; [by exists []|].
  destruct (readable_event db id row Hdb) as (e & He & Hid); [apply (Hl (id, row)); left|].
  destruct IH as (es & Hes & Hids); [intros entry Hin; apply Hl; by right|].
  exists (e :: es). cbn [mapM_res]. rewrite He, Hes. cbn. by rewrite Hid, Hids.
Qed.

Lemma mapM_res_app {A B E} (f : A -> Result B E) l1 l2 ys1 ys2 :
  mapM_res f l1 = Ok ys1 -> mapM_res f l2 = Ok ys2 -> mapM_res f (l1 ++ l2) = Ok (ys1 ++ ys2).
Proof. rewrite !mapM_res_Ok. apply Forall2_app. Qed.

Definition page_limit (q : EventHistoryQuery) : nat := clamp 1 500 (default 100%N q.(eq_limit)).
Definition before_of (q : EventHistoryQuery) : Z := to_i64 (default u64_MAX q.(eq_before_id)).

Lemma query_events_quiet q c from to :
  quiet -> events_readable c.(cn_db) ->
  (forall n, normalized_range (sql_clock n) q.(eq_from_unix_ms) q.(eq_to_unix_ms) (30 * 86400000) "event" = Ok (from, to)) ->
  let selected := selected_events (to_i64 from) (to_i64 to) (before_of q) c.(cn_db) in
  forall es, mapM_res historical_event (take (page_limit q + 1) selected) = Ok es ->
  exists c1, query_events q c = (c1, Ok {|
      er_events := take (page_limit q) es;
      er_next_before_id :=
        if (page_limit q <? length es)%nat then he_id <$> list.last (take (page_limit q) es) else None |})
    /\ c1.(cn_db) = c.(cn_db).
Proof.
  intros Hq Hdb Hrange selected es Hes. unfold query_events, unix_ms.
  unfold bind at 1, gets. cbn. unfold bind at 1, lift. rewrite Hrange. unfold bind at 1.
  pose proof (open_quiet c Hq (rd_version _ Hdb)) as Hok. pose proof (open_current c (rd_version _ Hdb)) as Hcur.
  destruct (open_connection c) as [c1 r]. cbn in Hok, Hcur. subst r. unfold bind at 1.
  assert (has_columns (cn_db c1) "events" (events_columns.*1) = true) as Hcols by (rewrite Hcur; apply Hdb).
  pose proof (fun f => query_quiet (A := list (Z * EventRow)) "events" (events_columns.*1) f c1 Hq Hcols) as Hquery.
  match goal with |- context [query "events" _ ?f] =>
    specialize (Hquery f); pose proof (leaves_query "events" (events_columns.*1) f c1) as Hleaves end.
  destruct (query "events" _ _ c1) as [c2 r]. cbn in Hquery, Hleaves. subst r. rewrite Hcur.
  cbn [fst snd]. fold (page_limit q) (before_of q). fold selected. unfold bind, ret. rewrite Hes.
  exists c2. split; [done|]. by rewrite Hleaves.
Qed.

Lemma follow_complete pages before q c from to :
  quiet -> events_readable c.(cn_db) ->
  (forall n, normalized_range (sql_clock n) q.(eq_from_unix_ms) q.(eq_to_unix_ms) (30 * 86400000) "event" = Ok (from, to)) ->
  let selected := selected_events (to_i64 from) (to_i64 to) (before_of (before_id q before)) c.(cn_db) in
  length selected < pages ->
  exists c1 es, follow pages (before_id q before) c = (c1, Ok (Some es))
    /\ mapM_res historical_event selected = Ok es /\ (fun e => to_i64 e.(he_id)) <$> es = selected.*1.
Proof.
  intros Hq. revert before c. induction pages as [|pages IH]; intros before c Hdb Hrange selected Hlen; [lia|].
  assert (forall entry, entry ∈ selected -> db_events (cn_db c) !! entry.1 = Some entry.2) as Hstored.
  { intros [id row]. apply selected_stored. }
  set (limit := page_limit q).
  assert (0 < limit) as Hpos by (unfold limit, page_limit, clamp; lia).
  destruct (readable_events (cn_db c) (take (limit + 1) selected) Hdb) as (es & Hes & Hids).
  { intros entry Hin. apply Hstored. rewrite <- (take_drop (limit + 1)), elem_of_app. by left. }
  destruct (query_events_quiet (before_id q before) c from to Hq Hdb Hrange es Hes) as (c1 & Hpage & Hc1).
  change (page_limit (before_id q before)) with limit in Hpage.
  cbn [follow]. unfold bind at 1. rewrite Hpage. cbn [er_next_before_id er_events].
  assert (length es = length (take (limit + 1) selected)) as Hles.
  { rewrite <- (length_fmap (fun e => to_i64 e.(he_id))), Hids. apply length_fmap. }
  destruct (Nat.ltb_spec limit (length es)) as [Hmore|Hdone].
  - rewrite length_take in Hles.
    destruct (list.last (take limit es)) as [e|] eqn:Hlast; cycle 1.
    { apply list.last_None in Hlast. apply (f_equal length) in Hlast. rewrite length_take in Hlast. cbn in Hlast. lia. }
    assert (take (limit + 1) selected = take limit selected ++ take 1 (drop limit selected)) as Htake.
    { by rewrite take_take_drop. }
    assert ((fun e => to_i64 e.(he_id)) <$> take limit es = (take limit selected).*1) as Hids1.
    { rewrite !fmap_take, Hids, fmap_take, take_take. f_equal. lia. }
    assert (exists x, list.last (take limit selected) = Some x /\ to_i64 e.(he_id) = x.1) as (x & Hx & Hex).
    { apply (f_equal list.last) in Hids1. rewrite !fmap_last, Hlast in Hids1.
      destruct (list.last (take limit selected)) as [x|]; [|done]. exists x. cbn in Hids1. by apply (inj Some) in Hids1. }
    pose proof (next_page _ _ _ _ _ _ Hx) as Hnext.
    cbn [fmap option_fmap option_map].
    specialize (IH (Some e.(he_id)) c1). rewrite Hc1 in IH. specialize (IH Hdb Hrange).
    change (before_of (before_id q (Some (he_id e)))) with (to_i64 e.(he_id)) in IH.
    rewrite Hex, Hnext in IH. destruct IH as (c2 & rest & Hfollow & Hrest & Hrids).
    { rewrite length_drop. fold selected. lia. }
    unfold bind. change (before_id (before_id q before) (Some (he_id e))) with (before_id q (Some (he_id e))).
    rewrite Hfollow. unfold ret. exists c2, (take limit es ++ rest). split; [done|].
    rewrite <- (take_drop limit selected). split.
    + apply mapM_res_app; [|done]. apply mapM_res_Ok in Hes. rewrite Htake in Hes.
      apply mapM_res_Ok. apply Forall2_app_inv_l in Hes as (ys1 & ys2 & H1' & _ & ->).
      rewrite take_app_length'; [done|]. apply Forall2_length in H1'. rewrite <- H1', length_take. lia.
    + rewrite !fmap_app, Hids1. by rewrite Hrids.
  - rewrite length_take in Hles. assert (take (limit + 1) selected = selected) as Hall by (apply take_ge; lia).
    rewrite Hall in Hes, Hids. unfold ret. exists c1, es. rewrite take_ge by lia. done.
Qed.
End pages.

(** C24: paging through the event history is complete.  A client that asks for
    the events of a past range and follows [next_before_id] reaches the last
    page after at most one page per event, and has then seen every event of the
    range exactly once, newest first. *)
Theorem events_paged_completely `{!Sqlite} q c from to :
  quiet -> events_readable c.(cn_db) ->
  (forall n, normalized_range (sql_clock n) q.(eq_from_unix_ms) q.(eq_to_unix_ms) (30 * 86400000) "event" = Ok (from, to)) ->
  q.(eq_before_id) = None ->
  exists c1 es,
    follow (S (size c.(cn_db).(db_events))) q c = (c1, Ok (Some es))
    /\ NoDup (he_id <$> es) /\ StronglySorted (fun e e' => (e'.(he_id) < e.(he_id))%N) es
    /\ forall e, e ∈ es <-> exists id row, c.(cn_db).(db_events) !! id = Some row
         /\ (to_i64 from <= row.(ev_timestamp_ms) < to_i64 to)%Z /\ historical_event (id, row) = Ok e.
Proof.
  intros Hq Hdb Hrange Hbefore.
  assert (before_id q None = q) as Hid by (destruct q; cbn in Hbefore; by subst).
  destruct (follow_complete (S (size c.(cn_db).(db_events))) None q c from to Hq Hdb Hrange)
    as (c1 & es & Hfollow & Hes & Hids).
  { unfold selected_events. eapply Nat.le_lt_trans; [apply List.filter_length_le|].
    rewrite length_rev, length_btree_iter. lia. }
  rewrite Hid in Hfollow, Hes, Hids. set (selected := selected_events _ _ _ _) in *.
  assert (before_of q = i64_MAX) as Hmax by (unfold before_of; by rewrite Hbefore).
  exists c1, es. split; [done|].
  assert (StronglySorted (fun e e' => (e'.(he_id) < e.(he_id))%N) es) as Hsorted.
  { pose proof (selected_descending (to_i64 from) (to_i64 to) (before_of q) (cn_db c)) as Hd. fold selected in Hd.
    clearbody selected. clear - Hd Hids. revert selected Hids Hd. induction es as [|e es IH]; intros sel Hids Hd; [constructor|].
    destruct sel as [|x sel]; [done|]. cbn in Hids. apply StronglySorted_inv in Hd as [Hd Hx].
    assert (to_i64 e.(he_id) = x.1 /\ (fun e => to_i64 e.(he_id)) <$> es = sel.*1) as [He Hrest] by (split; congruence).
    constructor; [by eapply IH|]. rewrite list.Forall_forall in Hx. apply list.Forall_forall. intros e' He'.
    assert (to_i64 e'.(he_id) ∈ sel.*1) as Hin.
    { rewrite <- Hrest. by apply (list_elem_of_fmap_2 (fun e => to_i64 e.(he_id))). }
    apply list_elem_of_fmap in Hin as (y & Hy & Hyin). specialize (Hx y Hyin).
    rewrite <- He, <- Hy in Hx. unfold to_i64 in Hx. lia. }
  split; [|split; [done|]].
  { clear - Hsorted. induction Hsorted as [|e es Hs IH He]; cbn; constructor; [|done].
    intros (e' & Heq & Hin)%list_elem_of_fmap. rewrite list.Forall_forall in He. specialize (He e' Hin). lia. }
  intros e. apply mapM_res_Ok in Hes. split.
  - intros He. apply list_elem_of_lookup in He as [i Hi].
    destruct (Forall2_lookup_r _ _ _ _ _ Hes Hi) as ([id row] & Hsel & Hev).
    apply list_elem_of_lookup_2 in Hsel. exists id, row.
    split; [by eapply selected_stored|]. split; [|done].
    unfold selected, selected_events in Hsel. apply elem_of_bfilter in Hsel as [_ Hsel]. simplify_bools. lia.
  - intros (id & row & Hrow & Hrow_range & Hev).
    assert ((id, row) ∈ selected) as Hsel.
    { unfold selected, selected_events. apply elem_of_bfilter. split.
      - rewrite list_elem_of_In, <- in_rev, <- list_elem_of_In. by apply elem_of_btree_iter.
      - destruct (rd_rows _ Hdb id row Hrow) as [Hidr _]. rewrite Hmax.
        destruct (Z.leb_spec (to_i64 from) (ev_timestamp_ms row)), (Z.ltb_spec (ev_timestamp_ms row) (to_i64 to)),
          (Z.ltb_spec id i64_MAX); cbn; done || lia. }
    apply list_elem_of_lookup in Hsel as [i Hi].
    destruct (Forall2_lookup_l _ _ _ _ _ Hes Hi) as (e' & He' & Hev').
    rewrite Hev in Hev'. apply (inj Ok) in Hev'. subst e'. by apply list_elem_of_lookup_2 in He'.
Qed.

Definition example_transition (at_ : N) : Transition :=
  {| ts_sequence := at_; ts_timestamp_unix_ms := 1699999000000 + at_; ts_component := "dns";
     ts_from_status := Healthy; ts_to_status := Failed; ts_reason_code := "dns.failed"; ts_safe_message := "no answer";
     ts_recovery_attempt := None |}.

Definition example_events : Conn :=
  (writer_loop 30 (WriteTransition <$> (example_transition <$> [0; 1; 2; 500000; 4; 5]%N)) example_writer).1.(wr_conn).

Definition example_query : EventHistoryQuery :=
  {| eq_from_unix_ms := Some 1699999000001%N; eq_to_unix_ms := Some 1699999000100%N; eq_before_id := None;
     eq_limit := Some 2%N |}.

Lemma events_paged_completely_witness :
  exists c1 es,
    follow (S (size example_events.(cn_db).(db_events))) example_query example_events = (c1, Ok (Some es))
    /\ NoDup (he_id <$> es) /\ StronglySorted (fun e e' => (e'.(he_id) < e.(he_id))%N) es
    /\ forall e, e ∈ es <-> exists id row, example_events.(cn_db).(db_events) !! id = Some row
         /\ (to_i64 1699999000001 <= row.(ev_timestamp_ms) < to_i64 1699999000100)%Z
         /\ historical_event (id, row) = Ok e.
Proof.
  apply (events_paged_completely example_query example_events).
  - by intros n.
  - split; [by vm_compute|by vm_compute|]. apply rows_readable. by vm_compute.
  - intros n. by vm_compute.
  - done.
Defined.

Example example_pages :
  match (follow 7 example_query example_events).2 with
  | Ok (Some es) => he_id <$> es = [6; 5; 3; 2]%N
  | _ => False
  end.
Proof. by vm_compute. Qed.

