(* ===== verification/HistorySchema.v ===== *)
(** The schema of the history database: migrations from every version, and what
    the tables hold. *)

From S2P Require Import Prelude RustStr Net BTree Order State Domain Float64 Config StateErr Notifications History HistoryProps HistoryPages.

(** ** Migrations *)

(** The schemas: what [create_schema] makes today, and what it was before each
    migration. *)
Definition tables_at (version : Z) : gmap string (list Column) :=
  if (version =? 0)%Z then ∅
  else
    let tables : gmap string (list Column) :=
      list_to_map [("usage_buckets", usage_buckets_columns); ("counter_baselines", counter_baselines_columns);
                   ("events", if (version <? 4)%Z then events_columns_3 else events_columns)] in
    let tables := if (version <? 2)%Z then tables
                  else <["vpn_server_samples" := vpn_server_samples_columns]> tables in
    if (version <? 3)%Z then tables
    else <["notification_settings" := notification_settings_columns]> tables.

Definition indexes_at (version : Z) : gmap string (string * list string) :=
  if (version =? 0)%Z then ∅
  else list_to_map [("usage_buckets_usage_time", ("usage_buckets", ["usage_id"; "bucket_start_ms"]));
                    ("events_time", ("events", ["timestamp_ms"; "id"]))].

(** The rows of [db] under the schema of a version. *)
Definition at_version (version : Z) (db : Database) : Database :=
  with_schema version (tables_at version) (indexes_at version) db.

Section migrations.
Context `{!Sqlite}.

Lemma yields_create_table table columns :
  yields (create_table table columns)
    (fun db => with_schema db.(db_user_version) (<[table := columns]> db.(db_tables)) db.(db_indexes) db).
Proof.
  intros c c1 a. unfold create_table, bind, call. cbn. destruct (sql_error _); [done|].
  cbn. destruct (db_tables (cn_db c) !! table); [done|]. by intros [= <- <-].
Qed.

Lemma yields_create_index index table columns :
  yields (create_index index table columns)
    (fun db => with_schema db.(db_user_version) db.(db_tables) (<[index := (table, columns)]> db.(db_indexes)) db).
Proof.
  intros c c1 a. unfold create_index, bind, call. cbn. destruct (sql_error _); [done|].
  cbn. case_bool_decide; [done|]. destruct (has_columns _ _ _); [|done]. by intros [= <- <-].
Qed.

Definition column_added (table : string) (column : Column) (db : Database) : Database :=
  match db.(db_tables) !! table with
  | Some columns =>
      with_schema db.(db_user_version) (<[table := columns ++ [column]]> db.(db_tables)) db.(db_indexes) db
  | None => db
  end.

Lemma yields_add_column table column : yields (add_column table column) (column_added table column).
Proof.
  intros c c1 a. unfold add_column, column_added, bind, call. cbn. destruct (sql_error _); [done|].
  cbn. destruct (db_tables (cn_db c) !! table); [|done].
  destruct (has_columns _ _ _); [done|]. by intros [= <- <-].
Qed.

Lemma yields_set_user_version version :
  yields (set_user_version version) (fun db => with_schema version db.(db_tables) db.(db_indexes) db).
Proof.
  intros c c1 a. unfold set_user_version, bind, call, modify. cbn. destruct (sql_error _); [done|]. by intros [= <- <-].
Qed.

Create HintDb yields discriminated.
Hint Resolve yields_create_table yields_create_index yields_add_column yields_set_user_version yields_bind : yields.

(** The migration of a version, and the version it leads to. *)
Definition migration (version : Z) : H unit :=
  if (version =? 0)%Z then create_schema
  else if (version =? 1)%Z then migrate_1
  else if (version =? 2)%Z then migrate_2
  else if (version =? 3)%Z then migrate_3 else ret tt.
Definition migrated (version : Z) : Z :=
  if (version =? 0)%Z then 4 else if (version <? 4)%Z then version + 1 else version.

Lemma version_cases version : (0 <= version <= 4)%Z ->
  version = 0%Z \/ version = 1%Z \/ version = 2%Z \/ version = 3%Z \/ version = 4%Z.
Proof. lia. Qed.

Lemma with_schema_twice v t i v' t' i' db : with_schema v t i (with_schema v' t' i' db) = with_schema v t i db.
Proof. done. Qed.

Lemma migration_does version db c : (0 <= version <= 4)%Z -> c.(cn_db) = at_version version db ->
  match (migration version c).2 with
  | Ok _ => (migration version c).1.(cn_db) = at_version (migrated version) db
  | Err _ => (migration version c).1.(cn_db) = c.(cn_db)
  end.
Proof.
  intros Hv Hc.
  enough (exists f, does (migration version) f /\ f c.(cn_db) = at_version (migrated version) db) as (f & Hf & Hdb).
  { specialize (Hf c). by rewrite Hdb in Hf. }
  destruct (version_cases version Hv) as [->|[->|[->|[->| ->]]]]; cbn [migration Z.eqb Pos.eqb].
  5: { exists id. split; [|done]. intros c'. done. }
  all: eexists; split; [apply transaction_does; eauto 10 with yields|].
  all: rewrite Hc; by vm_compute.
Qed.

(** A stage of [migrate]: the version is read, and its migration run if it is
    one of [due]. *)
Definition stage (due : Z -> bool) : H unit :=
  let* version := user_version in
  if due version then migration version else ret tt.

Definition first_stage (version : Z) : H unit :=
  if ((version =? 0) || (version =? 1))%Z then migration version else ret tt.

Lemma bind_ext {A B} (m m' : H A) (k k' : A -> H B) c :
  (forall c, m c = m' c) -> (forall a c, k a c = k' a c) -> bind m k c = bind m' k' c.
Proof. intros Hm Hk. unfold bind. rewrite Hm. destruct (m' c) as [c1 [a|e]]; [apply Hk|done]. Qed.

Lemma bind_assoc {A B C} (m : H A) (k : A -> H B) (l : B -> H C) c :
  bind m (fun a => bind (k a) l) c = bind (bind m k) l c.
Proof. unfold bind. destruct (m c) as [c1 [a|e]]; [|done]. by destruct (k a c1) as [c2 [b|e]]. Qed.

Lemma migrate_stages c :
  migrate c
  = (let* version := user_version in
     if (SCHEMA_VERSION <? version)%Z
     then fail ("history database schema " +:+ pretty version +:+ " is newer than supported " +:+ pretty SCHEMA_VERSION)
     else
       let* _ := first_stage version in
       let* _ := stage (Z.eqb 2) in
       stage (Z.eqb 3)) c.
Proof.
  unfold migrate. apply bind_ext; [done|]. intros version c1. destruct (SCHEMA_VERSION <? version)%Z; [done|].
  apply bind_ext.
  { intros c2. unfold first_stage, migration. by destruct (Z.eqb_spec version 0), (Z.eqb_spec version 1). }
  intros _ c2. unfold stage at 1. rewrite <- bind_assoc. apply bind_ext; [done|]. intros v c3. apply bind_ext.
  { intros c4. rewrite Z.eqb_sym. by destruct (Z.eqb_spec 2 v) as [<-|]. }
  intros _ c4. apply bind_ext; [done|]. intros v' c5. rewrite Z.eqb_sym. by destruct (Z.eqb_spec 3 v') as [<-|].
Qed.

(** From a version on, of the versions the code knows. *)
Definition stands (low : Z) (db : Database) c : Prop :=
  exists version, (low <= version <= 4)%Z /\ c.(cn_db) = at_version version db.

Lemma user_version_reads db version c : c.(cn_db) = at_version version db ->
  (user_version c).1.(cn_db) = c.(cn_db) /\ forall v, (user_version c).2 = Ok v -> v = version.
Proof.
  intros Hc. unfold user_version, bind, call, gets. cbn. destruct (sql_error _); [done|]. cbn.
  split; [done|]. intros v [= <-]. by rewrite Hc.
Qed.

Lemma stage_stands low db c : (1 < low)%Z -> stands low db c ->
  match (stage (Z.eqb low) c).2 with
  | Ok _ => stands (Z.min 4 (low + 1)) db (stage (Z.eqb low) c).1
  | Err _ => stands low db (stage (Z.eqb low) c).1
  end.
Proof.
  intros Hlow (version & Hv & Hc). unfold stage, bind. destruct (user_version_reads db version c Hc) as [Hdb Hread].
  destruct (user_version c) as [c1 [v|e]]; cbn in *; [|exists version; by rewrite Hdb].
  rewrite (Hread v eq_refl). rewrite <- Hdb in Hc. destruct (Z.eqb_spec low version) as [<-|Hne]; cycle 1.
  { unfold ret. cbn. exists version. split; [lia|done]. }
  pose proof (migration_does low db c1 ltac:(lia) Hc) as Hm.
  destruct (migration low c1) as [c2 [[]|e]]; cbn in Hm |- *.
  - exists (migrated low). split; [|done]. unfold migrated.
    destruct (Z.eqb_spec low 0); [lia|]. destruct (Z.ltb_spec low 4); lia.
  - exists low. split; [lia|]. by rewrite Hm.
Qed.

(** [m] ends well from the database [db], and leaves [db1]. *)
Definition finishes {A} (m : H A) (db db1 : Database) : Prop := forall c, c.(cn_db) = db ->
  exists c1 a, m c = (c1, Ok a) /\ c1.(cn_db) = db1.

Lemma finishes_bind {A B} (m : H A) (k : A -> H B) db db1 db2 :
  finishes m db db1 -> (forall a, finishes (k a) db1 db2) -> finishes (bind m k) db db2.
Proof.
  intros Hm Hk c Hc. destruct (Hm c Hc) as (c1 & a & Hr & Hc1). destruct (Hk a c1 Hc1) as (c2 & b & Hr2 & Hc2).
  exists c2, b. unfold bind. by rewrite Hr.
Qed.

Lemma finishes_ret {A} (a : A) db : finishes (ret a) db db.
Proof. intros c Hc. by exists c, a. Qed.

Section quiet.
Hypothesis Hquiet : quiet.

Lemma finishes_create_table table columns db : db.(db_tables) !! table = None ->
  finishes (create_table table columns) db
    (with_schema db.(db_user_version) (<[table := columns]> db.(db_tables)) db.(db_indexes) db).
Proof.
  intros Ht c <-. unfold create_table, bind, call. cbn. rewrite Hquiet. cbn.
  destruct (db_tables (cn_db c) !! table) eqn:E; [congruence|]. eauto.
Qed.

Lemma finishes_create_index index table columns db :
  db.(db_indexes) !! index = None -> has_columns db table columns = true ->
  finishes (create_index index table columns) db
    (with_schema db.(db_user_version) db.(db_tables) (<[index := (table, columns)]> db.(db_indexes)) db).
Proof.
  intros Hi Hcols c <-. unfold create_index, bind, call. cbn. rewrite Hquiet. cbn.
  case_bool_decide as Hs; [destruct Hs; congruence|]. rewrite Hcols. eauto.
Qed.

Lemma finishes_add_column table column columns db :
  db.(db_tables) !! table = Some columns -> has_columns db table [column.1] = false ->
  finishes (add_column table column) db
    (with_schema db.(db_user_version) (<[table := columns ++ [column]]> db.(db_tables)) db.(db_indexes) db).
Proof.
  intros Ht Hcols c <-. unfold add_column, bind, call. cbn. rewrite Hquiet. cbn.
  destruct (db_tables (cn_db c) !! table) eqn:E; [|congruence]. cbn [fst] in Hcols. rewrite Hcols. simplify_eq. eauto.
Qed.

Lemma finishes_set_user_version version db :
  finishes (set_user_version version) db (with_schema version db.(db_tables) db.(db_indexes) db).
Proof. intros c <-. unfold set_user_version, bind, call, modify. cbn. rewrite Hquiet. cbn. eauto. Qed.

Lemma finishes_transaction {A} (body : H A) db db1 : finishes body db db1 -> finishes (transaction body) db db1.
Proof.
  intros Hb c Hc. unfold transaction, bind, call, ret. cbn. rewrite Hquiet. cbn.
  destruct (Hb {| cn_db := cn_db c; cn_calls := S (cn_calls c) |} Hc) as (c1 & a & Hr & Hc1).
  rewrite Hr, Hquiet. cbn. eauto.
Qed.

Ltac finish :=
  lazymatch goal with
  | |- finishes (bind _ _) _ _ => eapply finishes_bind; [finish|intros _; finish]
  | |- finishes (set_user_version _) _ _ => apply finishes_set_user_version
  | |- finishes (create_table _ _) _ _ => apply finishes_create_table; reflexivity
  | |- finishes (create_index _ _ _) _ _ => apply finishes_create_index; [reflexivity|by vm_compute]
  | |- finishes (add_column _ _) _ _ => eapply finishes_add_column; [reflexivity|by vm_compute]
  end.

Lemma migration_finishes version db : (0 <= version <= 4)%Z -> exists db1, finishes (migration version) (at_version version db) db1.
Proof.
  intros Hv.
  destruct (version_cases version Hv) as [->|[->|[->|[->| ->]]]]; cbn [migration Z.eqb Pos.eqb];
    eexists; [apply finishes_transaction; finish..|apply finishes_ret].
Qed.

Lemma stage_quiet due db version c : (0 <= version <= 4)%Z -> c.(cn_db) = at_version version db ->
  (stage due c).2 = Ok tt.
Proof.
  intros Hv Hc. unfold stage, user_version, bind, call, gets. cbn. rewrite Hquiet. cbn. rewrite Hc. cbn.
  destruct (due version); [|done]. destruct (migration_finishes version db Hv) as [db1 Hf].
  by destruct (Hf {| cn_db := cn_db c; cn_calls := S (cn_calls c) |} Hc) as (c1 & [] & Hr & _); rewrite Hc in Hr; rewrite Hr.
Qed.
End quiet.

Section advances.
Context (db : Database).

(** From [low] on the computation reaches [high] on, or fails where it stood or
    further. *)
Definition advances (low high : Z) (m : H unit) : Prop := forall c version,
  (low <= version <= 4)%Z -> c.(cn_db) = at_version version db ->
  match m c with
  | (c1, Ok _) => stands (Z.max version high) db c1
  | (c1, Err _) => stands version db c1
  end.

Lemma stands_weaken low low' c : (low <= low')%Z -> stands low' db c -> stands low db c.
Proof. intros Hle (v & Hv & Hc). exists v. split; [lia|done]. Qed.

Lemma advances_bind low mid high m k :
  advances low mid m -> advances mid high k -> advances low high (bind m (fun _ => k)).
Proof.
  intros Hm Hk c v Hv Hc. specialize (Hm c v Hv Hc). unfold bind. destruct (m c) as [c1 [[]|e]]; [|done].
  destruct Hm as (v1 & Hv1 & Hc1). specialize (Hk c1 v1 ltac:(lia) Hc1).
  destruct (k c1) as [c2 [[]|e]]; (eapply stands_weaken; [|exact Hk]); lia.
Qed.

Lemma advances_migration version (c : Conn) : (0 <= version <= 4)%Z -> c.(cn_db) = at_version version db ->
  match migration version c with
  | (c1, Ok _) => c1.(cn_db) = at_version (migrated version) db
  | (c1, Err _) => stands version db c1
  end.
Proof.
  intros Hv Hc. pose proof (migration_does version db c Hv Hc) as Hm.
  destruct (migration version c) as [c1 [[]|e]]; [done|]. exists version. cbn in Hm. split; [lia|congruence].
Qed.

Lemma advances_stage low : (1 < low)%Z -> advances low (Z.min 4 (low + 1)) (stage (Z.eqb low)).
Proof.
  intros Hlow c version Hv Hc. unfold stage, bind. destruct (user_version_reads db version c Hc) as [Hdb Hread].
  rewrite Hc in Hdb. destruct (user_version c) as [c1 [v|e]]; cbn [fst snd] in Hdb, Hread; [|by exists version; split; [lia|]].
  rewrite (Hread v eq_refl). destruct (Z.eqb_spec low version) as [<-|Hne].
  - pose proof (advances_migration low c1 ltac:(lia) Hdb) as Hm.
    destruct (migration low c1) as [c2 [[]|e]]; [|done]. exists (migrated low). split; [|done].
    unfold migrated. destruct (Z.eqb_spec low 0), (Z.ltb_spec low 4); lia.
  - exists version. split; [lia|done].
Qed.

Lemma advances_first version c : (0 <= version <= 4)%Z -> c.(cn_db) = at_version version db ->
  match first_stage version c with
  | (c1, Ok _) => stands (Z.max 2 version) db c1
  | (c1, Err _) => stands version db c1
  end.
Proof.
  intros Hv Hc. pose proof (advances_migration version c Hv Hc) as Hm. unfold first_stage.
  destruct (Z.eqb_spec version 0) as [->|Hn0]; [|destruct (Z.eqb_spec version 1) as [->|Hn1]]; cbn [orb].
  - destruct (migration 0 c) as [c1 [[]|e]]; [|done]. exists 4%Z. split; [lia|done].
  - destruct (migration 1 c) as [c1 [[]|e]]; [|done]. exists 2%Z. split; [lia|done].
  - exists version. split; [lia|done].
Qed.

Lemma migrate_stands version c : (0 <= version <= 4)%Z -> c.(cn_db) = at_version version db ->
  match migrate c with
  | (c1, Ok _) => c1.(cn_db) = at_version 4 db
  | (c1, Err _) => stands version db c1
  end.
Proof.
  intros Hv Hc. rewrite migrate_stages. unfold bind at 1.
  destruct (user_version_reads db version c Hc) as [Hdb Hread]. rewrite Hc in Hdb.
  destruct (user_version c) as [c1 [v|e]]; cbn [fst snd] in Hdb, Hread; [|by exists version; split; [lia|]].
  rewrite (Hread v eq_refl). unfold SCHEMA_VERSION. destruct (Z.ltb_spec 4 version) as [Hn|_]; [lia|].
  unfold bind at 1. pose proof (advances_first version c1 Hv Hdb) as Hfirst.
  destruct (first_stage version c1) as [c2 [[]|e]]; [|done]. destruct Hfirst as (v2 & Hv2 & Hc2).
  pose proof (advances_bind 2 3 4 _ _ (advances_stage 2 ltac:(lia)) (advances_stage 3 ltac:(lia)) c2 v2 ltac:(lia) Hc2) as Hrest.
  destruct (bind (stage (Z.eqb 2)) _ c2) as [c3 [[]|e]].
  - destruct Hrest as (v3 & Hv3 & Hc3). by assert (v3 = 4)%Z as -> by lia.
  - eapply stands_weaken; [|exact Hrest]. lia.
Qed.

Lemma first_quiet version c : quiet -> (0 <= version <= 4)%Z -> c.(cn_db) = at_version version db ->
  (first_stage version c).2 = Ok tt.
Proof.
  intros Hq Hv Hc. unfold first_stage. destruct (_ || _); [|done].
  destruct (migration_finishes Hq version db Hv) as [db1 Hf]. by destruct (Hf c Hc) as (c1 & [] & -> & _).
Qed.

Lemma migrate_quiet version c : quiet -> (0 <= version <= 4)%Z -> c.(cn_db) = at_version version db ->
  (migrate c).2 = Ok tt.
Proof.
  intros Hq Hv Hc. rewrite migrate_stages. unfold bind at 1.
  destruct (user_version_reads db version c Hc) as [Hdb Hread]. rewrite Hc in Hdb.
  assert ((user_version c).2 = Ok version) as Hok.
  { unfold user_version, bind, call, gets. cbn. rewrite Hq. cbn. by rewrite Hc. }
  destruct (user_version c) as [c1 r]; cbn [fst snd] in Hdb, Hok. subst r.
  unfold SCHEMA_VERSION. destruct (Z.ltb_spec 4 version) as [Hn|_]; [lia|].
  unfold bind at 1. pose proof (advances_first version c1 Hv Hdb) as Hfirst.
  pose proof (first_quiet version c1 Hq Hv Hdb) as Hfq.
  destruct (first_stage version c1) as [c2 r]. cbn in Hfq. subst r. destruct Hfirst as (v2 & Hv2 & Hc2).
  unfold bind at 1. pose proof (advances_stage 2 ltac:(lia) c2 v2 ltac:(lia) Hc2) as Hs.
  pose proof (stage_quiet Hq (Z.eqb 2) db v2 c2 ltac:(lia) Hc2) as Hsq.
  destruct (stage (Z.eqb 2) c2) as [c3 r]. cbn in Hsq. subst r. destruct Hs as (v3 & Hv3 & Hc3).
  apply (stage_quiet Hq (Z.eqb 3) db v3 c3); [lia|done].
Qed.
End advances.
End migrations.

(** C13: every known version of the database reaches the same schema.  Whichever
    version the file has and wherever a statement fails, a migration leaves the
    rows as they are and the schema of exactly one version, the same or a later
    one, from which the next start goes on; it ends well only with the current
    schema, and always does when no statement fails.  A newer file is refused
    and left as it is. *)
Theorem migrations_converge `{!Sqlite} version db c :
  (0 <= version)%Z -> c.(cn_db) = at_version version db ->
  let '(c1, r) := migrate c in
  ((version <= SCHEMA_VERSION)%Z ->
    (exists reached, (version <= reached <= SCHEMA_VERSION)%Z /\ c1.(cn_db) = at_version reached db
       /\ (r = Ok tt -> reached = SCHEMA_VERSION))
    /\ (quiet -> r = Ok tt))
  /\ ((SCHEMA_VERSION < version)%Z -> c1.(cn_db) = c.(cn_db) /\ exists e, r = Err e).
Proof.
  intros Hv Hc. destruct (migrate c) as [c1 r] eqn:Hr. split; intros Hver; unfold SCHEMA_VERSION in Hver.
  - pose proof (migrate_stands db version c ltac:(lia) Hc) as Hs. split.
    + rewrite Hr in Hs. destruct r as [[]|e].
      * exists 4%Z. split; [unfold SCHEMA_VERSION; lia|done].
      * destruct Hs as (v & Hv1 & Hc1). by exists v.
    + intros Hq. pose proof (migrate_quiet db version c Hq ltac:(lia) Hc) as Hok. by rewrite Hr in Hok.
  - rewrite migrate_stages in Hr. unfold bind at 1 in Hr.
    destruct (user_version_reads db version c Hc) as [Hdb Hread].
    destruct (user_version c) as [c2 [v|e]]; cbn [fst snd] in Hdb, Hread; [|injection Hr as <- <-; eauto].
    rewrite (Hread v eq_refl) in Hr. unfold SCHEMA_VERSION in Hr. destruct (Z.ltb_spec 4 version) as [_|]; [|lia].
    unfold fail in Hr. injection Hr as <- <-. eauto.
Qed.

#[local] Existing Instance sqlite_works.

Lemma migrations_converge_witness :
  let c := {| cn_db := at_version 1 (cn_db example_conn); cn_calls := 0 |} in
  let '(c1, r) := migrate c in
  ((1 <= SCHEMA_VERSION)%Z ->
    (exists reached, (1 <= reached <= SCHEMA_VERSION)%Z /\ c1.(cn_db) = at_version reached (cn_db example_conn)
       /\ (r = Ok tt -> reached = SCHEMA_VERSION))
    /\ (quiet -> r = Ok tt))
  /\ ((SCHEMA_VERSION < 1)%Z -> c1.(cn_db) = c.(cn_db) /\ exists e, r = Err e).
Proof.
  apply (migrations_converge 1 (cn_db example_conn) {| cn_db := at_version 1 (cn_db example_conn); cn_calls := 0 |});
    done.
Defined.
