(* ===== verification/HistoryData.v ===== *)
(** What the tables of the history hold: the types of their rows as an invariant
    of everything that writes, and the sums the queries return. *)

From S2P Require Import Prelude RustStr Net BTree Order State Domain Float64 Config StateErr Notifications History HistoryProps HistoryPages HistorySchema.

#[local] Existing Instance sqlite_works.

(** ** Well-typed rows *)

Definition valid_int (z : Z) : Prop := (0 <= z <= i64_MAX)%Z.

Definition bucket_typed (key : BucketKey) (row : BucketRow) : Prop :=
  valid_int key.1 /\ (forall f, valid_int (stored f row.(bk_counters))) /\ (1 <= row.(bk_sample_count))%Z
  /\ exists source, row.(bk_usage_id_source) = usage_source source.

Definition baseline_typed (row : BaselineRow) : Prop :=
  (forall f, valid_int (stored f row.(bl_counters))) /\ valid_int row.(bl_last_sample_ms).

Definition port_typed (port : Z) : Prop := (0 <= port <= 65535)%Z.

Definition event_typed (row : EventRow) : Prop :=
  valid_int row.(ev_timestamp_ms) /\ match row.(ev_external_port) with Some port => port_typed port | None => True end.

Definition sample_typed (row : SampleRow) : Prop :=
  port_typed row.(sm_runtime_endpoint_port) /\ (row.(sm_active) = 0 \/ row.(sm_active) = 1)%Z.

Record rows_typed (db : Database) : Prop := {
  rt_buckets : forall key row, db.(db_usage_buckets) !! key = Some row -> bucket_typed key row;
  rt_baselines : forall container row, db.(db_baselines) !! container = Some row -> baseline_typed row;
  rt_events : forall id row, db.(db_events) !! id = Some row -> (0 < id <= db.(db_last_event_id))%Z /\ event_typed row;
  rt_last : valid_int db.(db_last_event_id);
  rt_samples : forall at_ row, db.(db_samples) !! at_ = Some row -> valid_int at_ /\ sample_typed row;
  rt_settings : forall row, db.(db_settings) = Some row -> exists n, settings_of_row row = Ok n;
}.

(** The rows are well typed, in the current schema. *)
Definition well_typed (db : Database) : Prop := db = at_version SCHEMA_VERSION db /\ rows_typed db.

(** Rust's [u16] and [u32] *)
Definition command_typed (command : WriteCommand) : Prop :=
  match command with
  | PortForward o => match o.(fo_external_port) with Some port => (port <= u16_MAX)%N | None => True end
  | VpnServer o => (o.(vo_runtime_endpoint_port) <= u16_MAX)%N
  | _ => True
  end.

Lemma to_i64_valid n : valid_int (to_i64 n).
Proof. unfold valid_int, to_i64, i64_MAX. lia. Qed.
#[local] Hint Resolve to_i64_valid : core.

Section preserves.
Context `{!Sqlite}.

Definition preserves {A} (P : Database -> Prop) (m : H A) : Prop := forall c, P c.(cn_db) -> P (m c).1.(cn_db).

Lemma preserves_leaves {A} P (m : H A) : leaves_db m -> preserves P m.
Proof. intros Hm c Hc. by rewrite Hm. Qed.

Lemma preserves_bind {A B} P (m : H A) (k : A -> H B) :
  preserves P m -> (forall a, preserves P (k a)) -> preserves P (bind m k).
Proof.
  intros Hm Hk c Hc. specialize (Hm c Hc). unfold bind. destruct (m c) as [c1 [a|e]]; [by apply Hk|done].
Qed.

Lemma preserves_statement P table columns f :
  (forall db db1, P db -> f db = Ok db1 -> P db1) -> preserves P (statement table columns f).
Proof.
  intros Hf c Hc. unfold statement, bind, call. cbn. destruct (sql_error _); [done|]. cbn.
  destruct (has_columns _ _ _); [|done]. destruct (f c.(cn_db)) as [db1|e] eqn:E; [|done]. by eapply Hf.
Qed.

Lemma preserves_transaction {A} P (body : H A) : preserves P body -> preserves P (transaction body).
Proof.
  intros Hb c Hc. unfold transaction, bind, call, ret. cbn. destruct (sql_error _); [done|]. cbn.
  specialize (Hb {| cn_db := cn_db c; cn_calls := S (cn_calls c) |} Hc). destruct (body _) as [c1 [a|e]]; cbn in *; [|done].
  by destruct (sql_error _).
Qed.

Lemma preserves_call P : preserves P call.
Proof. apply preserves_leaves, leaves_call. Qed.
Lemma preserves_unix_ms P : preserves P unix_ms.
Proof. apply preserves_leaves, leaves_gets. Qed.
Lemma preserves_query {A} P table columns (f : Database -> A) : preserves P (query table columns f).
Proof. apply preserves_leaves, leaves_query. Qed.
Lemma preserves_ret {A} P (a : A) : preserves P (ret a).
Proof. by intros c Hc. Qed.
Lemma preserves_fail {A} P e : preserves P (fail (A := A) e).
Proof. by intros c Hc. Qed.
Lemma preserves_lift {A} P (r : Result A string) : preserves P (lift r).
Proof. by intros c Hc. Qed.
Lemma preserves_secure P : preserves P secure_database_files.
Proof. apply preserves_leaves, leaves_each. intros _. apply leaves_call. Qed.
Lemma preserves_if {A} P (b : bool) (m k : H A) : preserves P m -> preserves P k -> preserves P (if b then m else k).
Proof. by destruct b. Qed.

Lemma on_conn_preserves {A} P (m : H A) w : preserves P m -> P (db_of w) -> P (db_of (on_conn m w).1).
Proof. intros Hm Hw. unfold on_conn, db_of. specialize (Hm _ Hw). by destruct (m (wr_conn w)) as [c1 r]. Qed.

Lemma writer_turn_preserves P retention_days command w :
  preserves P (write_command command) -> preserves P (prune retention_days) ->
  P (db_of w) -> P (db_of (writer_turn retention_days command w).1).
Proof.
  intros Hc Hp Hw. pose proof (on_conn_preserves P _ w Hc Hw) as Hwrite.
  destruct command as [o bucket_ms|t|o|o|reply|reply]; cbn [writer_turn];
    [| | | |by apply (on_conn_preserves P checkpoint w (preserves_call _) Hw)..];
    unfold bind at 1; (destruct (on_conn _ w) as [w1 [[]|e]]; [|done]); cbn [fst] in Hwrite;
    unfold bind, gets; cbn [fst snd];
    (destruct (PRUNE_EVERY <=? _)%N; [|done]);
    pose proof (on_conn_preserves P _ w1 (preserves_transaction _ _ Hp) Hwrite) as Hpruned;
    unfold prune_transaction; by destruct (on_conn _ w1) as [w2 [[]|e]].
Qed.

Lemma writer_loop_preserves P retention_days commands w :
  (forall command, command ∈ commands -> preserves P (write_command command)) -> preserves P (prune retention_days) ->
  P (db_of w) -> P (db_of (writer_loop retention_days commands w).1).
Proof.
  intros Hc Hp. revert w. induction commands as [|command commands IH]; intros w Hw; [done|].
  cbn [writer_loop]. unfold bind.
  pose proof (writer_turn_preserves P retention_days command w (Hc command ltac:(left)) Hp Hw) as Hturn.
  destruct (writer_turn retention_days command w) as [w1 [[]|e]]; [|done..].
  apply IH; [|done]. intros c Hin. apply Hc. by right.
Qed.
End preserves.

Create HintDb preserves discriminated.
#[export] Hint Resolve preserves_bind preserves_statement preserves_transaction preserves_call preserves_unix_ms
  preserves_query preserves_ret preserves_fail preserves_lift preserves_secure preserves_if : preserves.

(** The changes of the statements keep the rows well typed. *)
Lemma well_typed_schema db : well_typed db -> db = at_version SCHEMA_VERSION db.
Proof. by intros []. Qed.

Lemma well_typed_version db : well_typed db -> db.(db_user_version) = SCHEMA_VERSION.
Proof. intros [Hs _]. exact (f_equal db_user_version Hs). Qed.

Lemma well_typed_rows db db1 :
  well_typed db ->
  (db_user_version db1, db_tables db1, db_indexes db1) = (db_user_version db, db_tables db, db_indexes db) ->
  rows_typed db1 -> well_typed db1.
Proof.
  intros [Hs _] Heq Hrows. split; [|done]. destruct db1; cbn in Heq. injection Heq as -> -> ->.
  unfold at_version, with_schema; cbn. rewrite Hs. done.
Qed.

Lemma well_typed_buckets db buckets : well_typed db ->
  (forall key row, buckets !! key = Some row -> bucket_typed key row) -> well_typed (with_buckets buckets db).
Proof. intros Hdb Hb. apply (well_typed_rows db); [done..|]. destruct Hdb as [_ []]. by split. Qed.
Lemma well_typed_baselines db baselines : well_typed db ->
  (forall container row, baselines !! container = Some row -> baseline_typed row) ->
  well_typed (with_baselines baselines db).
Proof. intros Hdb Hb. apply (well_typed_rows db); [done..|]. destruct Hdb as [_ []]. by split. Qed.
Lemma well_typed_samples db samples : well_typed db ->
  (forall at_ row, samples !! at_ = Some row -> valid_int at_ /\ sample_typed row) ->
  well_typed (with_samples samples db).
Proof. intros Hdb Hb. apply (well_typed_rows db); [done..|]. destruct Hdb as [_ []]. by split. Qed.
Lemma well_typed_settings db settings : well_typed db ->
  (forall row, settings = Some row -> exists n, settings_of_row row = Ok n) -> well_typed (with_settings settings db).
Proof. intros Hdb Hb. apply (well_typed_rows db); [done..|]. destruct Hdb as [_ []]. by split. Qed.
Lemma well_typed_events db events last : well_typed db ->
  (forall id row, events !! id = Some row -> (0 < id <= last)%Z /\ event_typed row) -> valid_int last ->
  well_typed (with_events events last db).
Proof. intros Hdb Hb Hl. apply (well_typed_rows db); [done..|]. destruct Hdb as [_ []]. by split. Qed.

Section writes.
Context `{!Sqlite}.

Lemma counters_row_typed delta f : valid_int (stored f (counters_row delta)).
Proof. by rewrite stored_counters_row. Qed.

Lemma bucket_row_typed o bucket_ms delta old :
  (forall row, old = Some row -> bucket_typed (bucket_key o bucket_ms) row) ->
  bucket_typed (bucket_key o bucket_ms) (bucket_row o delta old).
Proof.
  intros Hold. split; [apply to_i64_valid|]. cbn [bucket_row bk_counters bk_sample_count bk_usage_id_source].
  split; [|split].
  - intros f. pose proof (counters_row_typed delta f) as Hd. destruct old as [row|]; [|done].
    destruct (Hold row eq_refl) as (_ & Hc & _). specialize (Hc f). rewrite stored_map.
    unfold valid_int, i64_MAX in *. lia.
  - destruct old as [row|]; [|lia]. destruct (Hold row eq_refl) as (_ & _ & Hs & _). lia.
  - by exists o.(uo_usage_id_source).
Qed.

Lemma write_usage_typed o bucket_ms : preserves well_typed (write_usage o bucket_ms).
Proof.
  apply preserves_transaction, preserves_bind; [apply preserves_query|]. intros previous.
  apply preserves_bind; [apply preserves_statement|intros _; apply preserves_if; [apply preserves_ret|apply preserves_statement]].
  - intros db db1 Hdb [= <-]. apply well_typed_baselines; [done|]. intros container row Hrow.
    apply lookup_insert_Some in Hrow as [[_ <-]|[_ Hrow]]; [|by apply (rt_baselines db (proj2 Hdb) container)].
    split; [|apply to_i64_valid]. intros f. apply counters_row_typed.
  - intros db db1 Hdb [= <-]. apply well_typed_buckets; [done|]. intros key row Hrow.
    apply lookup_partial_alter_Some in Hrow as [[<- [= <-]]|[_ Hrow]]; [|by apply (rt_buckets db (proj2 Hdb))].
    apply bucket_row_typed. intros row. apply (rt_buckets db (proj2 Hdb)).
Qed.

Lemma insert_event_typed row : event_typed row -> forall db db1, well_typed db -> insert_event row db = Ok db1 -> well_typed db1.
Proof.
  intros Hrow db db1 Hdb Hi. unfold insert_event in Hi. apply res_bind_Ok in Hi as (u & Hlt & Hi).
  apply ensure_Ok, Z.ltb_lt in Hlt. injection Hi as <-.
  pose proof (rt_last db (proj2 Hdb)) as Hlast. unfold valid_int in *.
  apply well_typed_events; [done| |unfold valid_int; lia].
  intros id row' Hin. apply lookup_insert_Some in Hin as [[<- <-]|[_ Hin]]; [split; [lia|done]|].
  destruct (rt_events db (proj2 Hdb) id row' Hin). split; [lia|done].
Qed.

Lemma write_command_typed command : command_typed command -> preserves well_typed (write_command command).
Proof.
  intros Hc. destruct command as [o bucket_ms|t|o|o|reply|reply]; cbn [write_command command_typed] in *.
  - apply write_usage_typed.
  - apply preserves_statement, insert_event_typed. split; [apply to_i64_valid|done].
  - apply preserves_statement, insert_event_typed. split; [apply to_i64_valid|]. cbn.
    destruct (fo_external_port o); [|done]. unfold port_typed, u16_MAX in *. cbn. lia.
  - apply preserves_statement. intros db db1 Hdb [= <-]. apply well_typed_samples; [done|]. intros at_ row Hrow.
    apply lookup_insert_Some in Hrow as [[<- <-]|[_ Hrow]]; [|by apply (rt_samples db (proj2 Hdb))].
    split; [apply to_i64_valid|]. split; cbn; [unfold port_typed, u16_MAX in *; lia|]. destruct (vo_active o); auto.
  - apply preserves_ret.
  - apply preserves_ret.
Qed.

Lemma prune_typed retention_days : preserves well_typed (prune retention_days).
Proof.
  unfold prune. apply preserves_bind; [apply preserves_unix_ms|]. intros now.
  repeat (apply preserves_bind; [apply preserves_statement|intros _]); try apply preserves_statement;
    intros db db1 Hdb [= <-]; pose proof (proj2 Hdb) as Hrows.
  - apply well_typed_buckets; [done|]. intros key row [Hrow _]%map_lookup_filter_Some. by apply (rt_buckets db).
  - apply well_typed_events; [done| |apply (rt_last db Hrows)].
    intros id row [Hrow _]%map_lookup_filter_Some. by apply (rt_events db).
  - apply well_typed_baselines; [done|]. intros container row [Hrow _]%map_lookup_filter_Some. by apply (rt_baselines db Hrows container).
  - apply well_typed_samples; [done|]. intros at_ row [Hrow _]%map_lookup_filter_Some. by apply (rt_samples db).
Qed.

Definition settings_typed (n : NotificationSettings) : Prop := (n.(no_timeout_seconds) <= u32_MAX)%N.

Lemma get_uint_of_N max n : (n <= max)%N -> get_uint max (Z.of_N n) = Ok n.
Proof.
  intros Hle. unfold get_uint. destruct (Z.leb_spec 0 (Z.of_N n)), (Z.leb_spec (Z.of_N n) (Z.of_N max)); try lia.
  cbn. by rewrite N2Z.id.
Qed.

(** What is stored of settings is read back as it was. *)
Lemma settings_row_read n row : settings_typed n -> settings_row n = Ok row -> settings_of_row row = Ok n.
Proof.
  intros Ht Hrow. unfold settings_row in Hrow. apply res_bind_Ok in Hrow as (u & Hle & Hrow).
  apply ensure_Ok, Z.leb_le in Hle. apply res_bind_Ok in Hrow as (x & Hx & Hrow). apply ok_or_Ok in Hx.
  injection Hrow as <-. unfold settings_of_row; cbn. rewrite !get_uint_of_N, from_as_database; cbn.
  - unfold real in Hx. destruct (Binary64.is_nan _); [done|]. injection Hx as <-. by destruct n.
  - unfold i64_MAX, u64_MAX in *. lia.
  - done.
Qed.

Lemma settings_row_Ok n : (Z.of_N n.(no_updated_at_unix_ms) <= i64_MAX)%Z ->
  Binary64.is_nan n.(no_rtt_threshold_ms) = false -> exists row, settings_row n = Ok row.
Proof.
  intros Hu Hn. unfold settings_row, real. rewrite Hn. rewrite (proj2 (Z.leb_le _ _)) by done. cbn. eauto.
Qed.

Lemma open_well_typed : preserves well_typed open_connection.
Proof.
  intros c Hc. rewrite open_current; [done|]. by apply well_typed_version.
Qed.

Lemma write_settings_typed n : settings_typed n -> preserves well_typed (write_notification_settings n).
Proof.
  intros Hn. apply preserves_bind; [apply open_well_typed|intros _].
  apply preserves_bind; [|intros _; apply preserves_secure]. apply preserves_statement.
  intros db db1 Hdb Hr. apply res_bind_Ok in Hr as (row & Hrow & Hr). injection Hr as <-.
  apply well_typed_settings; [done|]. intros row' [= <-]. exists n. by apply settings_row_read.
Qed.

Lemma writer_turn_typed retention_days command w : command_typed command -> well_typed (db_of w) ->
  well_typed (db_of (writer_turn retention_days command w).1).
Proof.
  intros Hc. apply writer_turn_preserves; [by apply write_command_typed|apply prune_typed].
Qed.
End writes.

(** ** The store *)

(** A file that this or an earlier version of the program wrote. *)
Definition history_file (db : Database) : Prop :=
  exists version, (0 <= version <= SCHEMA_VERSION)%Z /\ db = at_version version db /\ rows_typed db.

Definition with_conn (c : Conn) (s : HistoryStore) : HistoryStore :=
  {| hs_capacity := s.(hs_capacity); hs_retention_days := s.(hs_retention_days); hs_bucket_ms := s.(hs_bucket_ms);
     hs_queue := s.(hs_queue); hs_dropped_writes := s.(hs_dropped_writes); hs_running := s.(hs_running);
     hs_writer := {| wr_conn := c; wr_commands_since_prune := s.(hs_writer).(wr_commands_since_prune);
                     wr_replies := s.(hs_writer).(wr_replies) |} |}.

(** What the tasks of the program do with a store, in any order; the API's own
    connection writes the settings. *)
Inductive store_reachable `{!Sqlite} (p : PersistenceConfig) : HistoryStore -> Prop :=
| reach_open c s : history_file c.(cn_db) -> open_store p c = Ok s -> store_reachable p s
| reach_send command s : command_typed command -> store_reachable p s -> store_reachable p (try_send command s).1
| reach_barrier shutdown reply s s1 : barrier shutdown reply s = Some s1 -> store_reachable p s -> store_reachable p s1
| reach_write s s1 : write_next s = Some s1 -> store_reachable p s -> store_reachable p s1
| reach_settings n s : settings_typed n -> store_reachable p s ->
    store_reachable p (with_conn (write_notification_settings n s.(hs_writer).(wr_conn)).1 s).

Definition store_db (s : HistoryStore) : Database := db_of s.(hs_writer).

Lemma rows_typed_at version db : rows_typed db -> rows_typed (at_version version db).
Proof. by intros []. Qed.

Lemma open_file_typed `{!Sqlite} c u c1 : history_file c.(cn_db) -> open_connection c = (c1, Ok u) -> well_typed c1.(cn_db).
Proof.
  intros (version & Hv & Hfile & Hrows) Hopen. unfold open_connection in Hopen.
  do 4 (unfold bind at 1, call at 1 in Hopen; cbn [cn_calls cn_db] in Hopen; destruct (sql_error _) in Hopen; [done|]).
  unfold bind at 1 in Hopen.
  pose proof (migrate_stands c.(cn_db) version {| cn_db := c.(cn_db); cn_calls := S (S (S (S c.(cn_calls)))) |} Hv Hfile) as Hm.
  destruct (migrate _) as [c2 [[]|e]]; [|done].
  pose proof (preserves_secure well_typed c2) as Hsec. rewrite Hopen in Hsec. apply Hsec. rewrite Hm.
  split; [done|by apply rows_typed_at].
Qed.

(** C14: the history is well typed, always.  Whatever the tasks record, drop,
    flush or prune, whichever statements fail and from whichever known version
    the file was opened, the database has the current schema, every row has the
    types the queries read (numbers of 63 bits, ports, sources, settings), and
    the queue holds no more than its capacity. *)
Theorem store_well_typed `{!Sqlite} p s : store_reachable p s ->
  well_typed (store_db s) /\ length s.(hs_queue) <= s.(hs_capacity) /\ Forall command_typed s.(hs_queue)
  /\ s.(hs_capacity) = N.to_nat p.(ps_writer_capacity).
Proof.
  induction 1 as [c s Hfile Hopen|command s Hc _ IH|shutdown reply s s1 Hb _ IH
    |s s1 Hw _ IH|n s Hn _ IH].
  - unfold open_store in Hopen. destruct (start_writer _ c) as [c1 [w|e]] eqn:Hstart; [|done]. injection Hopen as <-.
    split; [|cbn; by split; [lia|split]]. unfold store_db; cbn.
    unfold start_writer, bind in Hstart. destruct (open_connection c) as [c2 [u|e]] eqn:Ho; [|done].
    apply open_file_typed in Ho; [|done]. pose proof (prune_typed p.(ps_retention_days) c2 Ho) as Hp.
    destruct (prune _ c2) as [c3 [u'|e]]; [|done]. injection Hstart as _ <-. exact Hp.
  - destruct IH as (Hdb & Hlen & Hq & Hcap). unfold try_send.
    destruct (hs_running s); cbn [andb]; [|done]. destruct (Nat.ltb_spec (length s.(hs_queue)) s.(hs_capacity)); [|done].
    cbn. rewrite length_app; cbn. split; [done|]. split; [lia|]. split; [|done]. apply Forall_app_2; [done|by repeat constructor].
  - destruct IH as (Hdb & Hlen & Hq & Hcap). unfold barrier in Hb.
    destruct (hs_running s); cbn [andb] in Hb; [|done].
    destruct (Nat.ltb_spec (length s.(hs_queue)) s.(hs_capacity)); [|done]. injection Hb as <-.
    cbn. rewrite length_app; cbn. split; [done|]. split; [lia|]. split; [|done]. apply Forall_app_2; [done|].
    repeat constructor. by destruct shutdown.
  - destruct IH as (Hdb & Hlen & Hq & Hcap). unfold write_next in Hw. destruct (hs_running s); [|done].
    destruct (hs_queue s) as [|command queue] eqn:Hqueue; [done|]. apply list.Forall_cons in Hq as [Hc Hq].
    pose proof (writer_turn_typed s.(hs_retention_days) command s.(hs_writer) Hc Hdb) as Ht.
    destruct (writer_turn _ command _) as [w r]. injection Hw as <-. cbn in Hlen |- *. split; [exact Ht|].
    destruct r as [[]|e]; cbn; (split; [lia|]); by split.
  - destruct IH as (Hdb & Hlen & Hq & Hcap). split; [|done]. by apply (write_settings_typed n Hn).
Qed.

Definition example_persistence : PersistenceConfig :=
  {| ps_enabled := true; ps_path := "/var/lib/egressy/history.db"; ps_retention_days := 30; ps_bucket_seconds := 60;
     ps_writer_capacity := 16 |}.
Definition empty_conn : Conn := {| cn_db := empty_database; cn_calls := 0 |}.
Definition opened : HistoryStore :=
  match open_store example_persistence empty_conn with
  | Ok s => s
  | Err _ => {| hs_capacity := 0; hs_retention_days := 0; hs_bucket_ms := 0; hs_queue := []; hs_dropped_writes := 0;
                hs_running := false; hs_writer := example_writer |}
  end.
Definition recorded : HistoryStore := (try_send (Usage (example_observation 0 "torrent" "c1" 100) 60000) opened).1.
Definition written : HistoryStore := default recorded (write_next recorded).

Lemma store_well_typed_witness :
  well_typed (store_db written) /\ length written.(hs_queue) <= written.(hs_capacity)
  /\ Forall command_typed written.(hs_queue) /\ written.(hs_capacity) = N.to_nat 16.
Proof.
  apply (store_well_typed example_persistence written). apply (reach_write _ recorded); [by vm_compute|].
  apply reach_send; [done|]. apply (reach_open _ empty_conn); [|by vm_compute].
  exists 0%Z. split; [done|]. split; [by vm_compute|]. by split.
Defined.

(** ** Settings *)

Section settings.
Context `{!Sqlite}.

Definition settings_are (row : option SettingsRow) (db : Database) : Prop :=
  db.(db_user_version) = SCHEMA_VERSION /\ db.(db_settings) = row.

Lemma write_command_settings row command : preserves (settings_are row) (write_command command).
Proof.
  assert (forall event db db1, settings_are row db -> insert_event event db = Ok db1 -> settings_are row db1) as Hev.
  { intros event db db1 Hdb Hi. apply res_bind_Ok in Hi as (u & _ & Hi). by injection Hi as <-. }
  destruct command; cbn [write_command]; eauto with preserves.
  - apply preserves_transaction, preserves_bind; [apply preserves_query|]. intros previous.
    apply preserves_bind; [|intros _; apply preserves_if; [apply preserves_ret|]];
      apply preserves_statement; by intros db db1 Hdb [= <-].
  - apply preserves_statement. by intros db db1 Hdb [= <-].
Qed.

Lemma prune_settings row retention_days : preserves (settings_are row) (prune retention_days).
Proof.
  unfold prune. apply preserves_bind; [apply preserves_unix_ms|]. intros now.
  repeat (apply preserves_bind; [apply preserves_statement|intros _]); try apply preserves_statement;
    by intros db db1 Hdb [= <-].
Qed.


Lemma saved_settings n c c1 : c.(cn_db).(db_user_version) = SCHEMA_VERSION ->
  write_notification_settings n c = (c1, Ok tt) ->
  exists row, settings_row n = Ok row /\ settings_are (Some row) c1.(cn_db).
Proof.
  intros Hv Hw. unfold write_notification_settings, bind at 1 in Hw. pose proof (open_current c Hv) as Ho.
  destruct (open_connection c) as [c2 [[]|e]]; [|done]. cbn in Ho. unfold bind at 1 in Hw.
  destruct (statement _ _ _ c2) as [c3 [[]|e]] eqn:Hs; [|done].
  assert (c1.(cn_db) = c3.(cn_db)) as ->.
  { pose proof (leaves_each (fun _ : string => call) [""; "-wal"; "-shm"] (fun _ => leaves_call) c3) as Hl.
    unfold secure_database_files in Hw. by rewrite Hw in Hl. }
  unfold statement, bind, call in Hs. cbn in Hs. destruct (sql_error _); [done|]. cbn in Hs.
  destruct (has_columns _ _ _); [|done]. destruct (settings_row n) as [row|e]; [|done]. cbn in Hs.
  injection Hs as <-. exists row. split; [done|]. cbn. by rewrite Ho.
Qed.

Lemma read_settings_of row c : settings_are (Some row) c.(cn_db) ->
  match (read_notification_settings c).2 with
  | Ok n => settings_of_row row = Ok n
  | Err _ => True
  end.
Proof.
  intros [Hv Hrow]. unfold read_notification_settings, bind at 1. pose proof (open_current c Hv) as Ho.
  destruct (open_connection c) as [c2 [[]|e]]; [|done]. cbn in Ho. unfold bind.
  pose proof (query_reads "notification_settings" settings_columns db_settings c2) as [_ Hq].
  destruct (query _ _ _ c2) as [c3 [r|e]]; [|done]. cbn in Hq. rewrite (Hq r eq_refl), Ho, Hrow.
  cbn. by destruct (settings_of_row row).
Qed.
End settings.

(** C31: notification settings survive.  Settings that were saved are what every
    later reading returns, whatever the writer recorded or pruned in between. *)
Theorem settings_round_trip `{!Sqlite} n retention_days commands w c1 w1 c2 r :
  (db_of w).(db_user_version) = SCHEMA_VERSION -> settings_typed n ->
  write_notification_settings n w.(wr_conn) = (c1, Ok tt) ->
  writer_loop retention_days commands
    {| wr_conn := c1; wr_commands_since_prune := w.(wr_commands_since_prune); wr_replies := w.(wr_replies) |} = (w1, r) ->
  forall n', read_notification_settings w1.(wr_conn) = (c2, Ok n') -> n' = n.
Proof.
  intros Hv Hn Hw Hloop n' Hread. destruct (saved_settings n _ c1 Hv Hw) as (row & Hrow & Hset).
  pose proof (writer_loop_preserves (settings_are (Some row)) retention_days commands
    {| wr_conn := c1; wr_commands_since_prune := w.(wr_commands_since_prune); wr_replies := w.(wr_replies) |}
    (fun command _ => write_command_settings (Some row) command) (prune_settings (Some row) retention_days) Hset) as Hkept.
  rewrite Hloop in Hkept. pose proof (read_settings_of row w1.(wr_conn) Hkept) as Hr. rewrite Hread in Hr. cbn in Hr.
  rewrite (settings_row_read n row Hn Hrow) in Hr. congruence.
Qed.

Definition example_settings : NotificationSettings :=
  {| no_enabled := true; no_provider := Telegram; no_webhook_url := Some "https://hook.example/x";
     no_telegram_chat_id := Some "-100"; no_hmac_secret := None; no_timeout_seconds := 5;
     no_rtt_threshold_ms := Binary64.of_N 250; no_alert_stack_started := true; no_alert_vpn_disconnected := false;
     no_alert_vpn_reconnected := true; no_alert_rtt_above_threshold := true; no_alert_diagnostic_failed := false;
     no_updated_at_unix_ms := 1700000000000 |}.

Definition settings_saved : Conn := (write_notification_settings example_settings example_conn).1.
Definition settings_later : Writer :=
  (writer_loop 30 example_commands {| wr_conn := settings_saved; wr_commands_since_prune := 0; wr_replies := [] |}).1.

Lemma settings_round_trip_witness :
  match (read_notification_settings settings_later.(wr_conn)).2 with
  | Ok n' => n' = example_settings
  | Err _ => False
  end.
Proof.
  destruct (read_notification_settings settings_later.(wr_conn)) as [c2 [n'|e]] eqn:Hread;
    [|by vm_compute in Hread].
  apply (settings_round_trip example_settings 30 example_commands example_writer settings_saved settings_later c2
           (writer_loop 30 example_commands
              {| wr_conn := settings_saved; wr_commands_since_prune := 0; wr_replies := [] |}).2).
  - by vm_compute.
  - by vm_compute.
  - by vm_compute.
  - unfold settings_later. apply surjective_pairing.
  - exact Hread.
Defined.

(** ** Sums of a query *)

Section grouping.
Context `{Countable K} {A : Type} (key : A -> K).

Lemma group_by_nil : group_by key [] = ∅.
Proof. done. Qed.

Lemma group_by_cons row rows :
  group_by key (row :: rows) = partial_alter (fun old => Some (row :: default [] old)) (key row) (group_by key rows).
Proof. done. Qed.

Lemma group_by_key rows k l row : group_by key rows !! k = Some l -> row ∈ l -> key row = k.
Proof.
  revert k l. induction rows as [|r rows IH]; intros k l; [by rewrite group_by_nil, lookup_empty|]. rewrite group_by_cons.
  intros Hl Hin. apply lookup_partial_alter_Some in Hl as [[<- [= <-]]|[_ Hl]]; [|by eapply IH].
  apply elem_of_cons in Hin as [->|Hin]; [done|].
  destruct (group_by key rows !! key r) as [l|] eqn:E; cbn in Hin; [by eapply IH|by apply elem_of_nil in Hin].
Qed.

Lemma group_by_sum (w : K -> A -> Z) rows :
  map_sum (fun k l => list_sum (w k) l) (group_by key rows) = list_sum (fun row => w (key row) row) rows.
Proof.
  induction rows as [|row rows IH]; [done|].
  rewrite group_by_cons, map_sum_alter, list_sum_cons, IH, list_sum_cons.
  destruct (group_by key rows !! key row); cbn [fmap option_fmap option_map from_option id]; [lia|].
  change (list_sum (w (key row)) []) with 0%Z. lia.
Qed.
End grouping.

Definition point_field (f : Field) (p : UsageHistoryPoint) : N :=
  match f with
  | DownloadBytes => p.(up_download_bytes)
  | UploadBytes => p.(up_upload_bytes)
  | DownloadPackets => p.(up_download_packets)
  | UploadPackets => p.(up_upload_packets)
  end.

Definition point_key (p : UsageHistoryPoint) : BucketKey := (Z.of_N p.(up_bucket_start_unix_ms), p.(up_usage_id)).

Definition point_of (f : Field) (usage : string) (p : UsageHistoryPoint) : Z :=
  if decide (p.(up_usage_id) = usage) then Z.of_N (point_field f p) else 0%Z.

(** What the rows of a range hold for a usage identity, of those asked for. *)
Definition range_total (f : Field) (usage : string) (from to : Z) (asked : option string) (db : Database) : Z :=
  map_sum (fun (key : BucketKey) row =>
    if (from <=? key.1)%Z && (key.1 <? to)%Z && match asked with Some id => String.eqb key.2 id | None => true end
    then of_usage f usage key row else 0%Z) db.(db_usage_buckets).

Lemma sum_rows_Ok {A} (f : A -> Z) rows total : sum_rows f rows = Ok total -> total = list_sum f rows.
Proof. unfold sum_rows. intros Hs. res_steps. done. Qed.

Lemma usage_point_spec entry p f : (forall row, row ∈ entry.2 -> 0 <= stored f row.2.(bk_counters))%Z ->
  usage_point entry = Ok p ->
  p.(up_usage_id) = entry.1.2 /\ p.(up_bucket_start_unix_ms) = from_i64 entry.1.1
  /\ Z.of_N (point_field f p) = list_sum (fun row => stored f row.2.(bk_counters)) entry.2.
Proof.
  destruct entry as [[bucket usage] rows]. cbn [fst snd]. intros Hpos Hp. unfold usage_point in Hp.
  apply res_bind_Ok in Hp as (a & Ha & Hp). apply res_bind_Ok in Hp as (b & Hb & Hp).
  apply res_bind_Ok in Hp as (c & Hc & Hp). apply res_bind_Ok in Hp as (d & Hd & Hp).
  apply res_bind_Ok in Hp as (n & Hn & Hp). injection Hp as <-. cbn. split; [done|]. split; [done|].
  pose proof (list_sum_nonneg _ _ Hpos) as Hnn. apply sum_rows_Ok in Ha, Hb, Hc, Hd. unfold from_i64.
  destruct f; cbn [point_field up_download_bytes up_upload_bytes up_download_packets up_upload_packets]; unfold from_i64; rewrite Z2N.id; subst; done.
Qed.

Lemma usage_groups_entry bucket_ms from to asked db entry : well_typed db ->
  entry ∈ usage_groups bucket_ms from to asked db -> forall row, row ∈ entry.2 ->
  db.(db_usage_buckets) !! row.1 = Some row.2 /\ (grouped bucket_ms row.1.1, row.1.2) = entry.1.
Proof.
  intros Hdb Hentry row Hrow. destruct entry as [k l]. apply elem_of_btree_iter in Hentry.
  pose proof (group_by_key _ _ _ _ _ Hentry Hrow) as Hkey. split; [|done]. cbn in Hrow.
  assert (row ∈ selected_buckets from to asked db) as Hsel.
  { clear - Hentry Hrow. revert k l Hentry Hrow. induction (selected_buckets from to asked db) as [|r rows IH]; intros k l.
    - by rewrite group_by_nil, lookup_empty.
    - rewrite group_by_cons. intros Hl Hin.
      apply lookup_partial_alter_Some in Hl as [[_ [= <-]]|[_ Hl]]; [|right; by eapply IH].
      apply elem_of_cons in Hin as [->|Hin]; [left|right].
      destruct (group_by _ rows !! _) as [l'|] eqn:E; cbn in Hin; [by eapply IH|by apply elem_of_nil in Hin]. }
  unfold selected_buckets in Hsel. apply elem_of_bfilter in Hsel as [Hin _]. destruct row as [key row].
  by apply elem_of_btree_iter in Hin.
Qed.

Lemma usage_groups_sum f usage bucket_ms from to asked db : well_typed db ->
  list_sum (fun entry => if decide (entry.1.2 = usage)
                         then list_sum (fun row => stored f row.2.(bk_counters)) entry.2 else 0%Z)
    (usage_groups bucket_ms from to asked db)
  = range_total f usage from to asked db.
Proof.
  intros Hdb. unfold usage_groups.
  set (w := fun (k : BucketKey) (row : BucketKey * BucketRow) =>
    if decide (k.2 = usage) then stored f row.2.(bk_counters) else 0%Z).
  transitivity (map_sum (fun k l => list_sum (w k) l)
    (group_by (fun row : BucketKey * BucketRow => (grouped bucket_ms row.1.1, row.1.2)) (selected_buckets from to asked db))).
  { rewrite <- (btree_iter_sum key_leb). apply list_sum_ext. intros [k l] _. cbn [fst snd]. unfold w.
    case_decide; [done|]. by induction l. }
  rewrite group_by_sum. unfold selected_buckets. rewrite list_sum_filter. unfold range_total.
  rewrite <- (btree_iter_sum key_leb). apply list_sum_ext. intros [key row] _. cbn. unfold w, of_usage. cbn.
  destruct (_ && _); [|done]. done.
Qed.

Definition key_before (a b : BucketKey) : Prop := key_leb a b = true /\ a <> b.

Lemma groups_sorted bucket_ms from to asked db :
  StronglySorted key_before (usage_groups bucket_ms from to asked db).*1.
Proof.
  unfold usage_groups. generalize (group_by (fun row : BucketKey * BucketRow => (grouped bucket_ms row.1.1, row.1.2))
    (selected_buckets from to asked db)). intros m.
  pose proof (NoDup_btree_keys key_leb m) as Hnd. unfold btree_keys in Hnd.
  assert (StronglySorted (fun a b : BucketKey * list (BucketKey * BucketRow) => key_leb a.1 b.1 = true) (btree_iter key_leb m)) as Hs.
  { apply sort_by_sorted; intros; [apply leb_total|by eapply leb_trans]. }
  induction Hs as [|x l Hl IH Hx]; cbn in Hnd |- *; [constructor|]. apply list.NoDup_cons in Hnd as [Hnin Hnd].
  constructor; [by apply IH|]. rewrite list.Forall_forall in Hx. apply list.Forall_forall.
  intros k Hk. split; [|congruence]. apply list_elem_of_fmap in Hk as (y & -> & Hy). by apply Hx.
Qed.

Lemma StronglySorted_take {A} (R : A -> A -> Prop) n l : StronglySorted R l -> StronglySorted R (take n l).
Proof. intros Hl. rewrite <- (take_drop n l) in Hl. by apply StronglySorted_app_1_l in Hl. Qed.

(** The points of the groups, with what they hold. *)
Lemma points_spec bucket_ms from to asked db groups points : well_typed db ->
  (forall entry, entry ∈ groups -> entry ∈ usage_groups bucket_ms from to asked db) -> (0 < bucket_ms)%Z ->
  mapM_res usage_point groups = Ok points ->
  point_key <$> points = groups.*1
  /\ forall f usage, list_sum (point_of f usage) points
     = list_sum (fun entry => if decide (entry.1.2 = usage)
                              then list_sum (fun row => stored f row.2.(bk_counters)) entry.2 else 0%Z) groups.
Proof.
  intros Hdb Hin Hms. revert points. induction groups as [|entry groups IH]; intros points Hp.
  { injection Hp as <-. done. }
  apply res_bind_Ok in Hp as (p & Hp & Hrest). apply res_bind_Ok in Hrest as (ps & Hps & Hrest). injection Hrest as <-.
  destruct (IH (fun e He => Hin e ltac:(by right)) ps Hps) as [Hkeys Hsums].
  pose proof (usage_groups_entry _ _ _ _ _ _ Hdb (Hin entry ltac:(left))) as Hrows.
  assert (forall f row, row ∈ entry.2 -> 0 <= stored f row.2.(bk_counters))%Z as Hpos.
  { intros f row Hrow. destruct (Hrows row Hrow) as [Hst _].
    apply (rt_buckets db (proj2 Hdb)) in Hst as (_ & Hc & _). apply Hc. }
  assert (0 <= entry.1.1)%Z as Hstart.
  { specialize (Hin entry ltac:(left)). destruct entry as [k l]. apply elem_of_btree_iter in Hin.
    destruct l as [|row l].
    - cbn. exfalso. revert Hin. clear. generalize (selected_buckets from to asked db). intros rows.
      induction rows as [|r rows IH]; [by rewrite group_by_nil, lookup_empty|].
      rewrite group_by_cons. intros Hl. by apply lookup_partial_alter_Some in Hl as [[_ [=]]|[_ Hl]].
    - destruct (Hrows row ltac:(left)) as [Hst Hk]. cbn in Hk |- *. rewrite <- Hk. cbn.
      apply (rt_buckets db (proj2 Hdb)) in Hst as ((Hv & _) & _). unfold grouped.
      pose proof (Z.quot_pos row.1.1 bucket_ms ltac:(lia) ltac:(lia)). nia. }
  split.
  - rewrite !fmap_cons, Hkeys. f_equal. unfold point_key.
    destruct (usage_point_spec entry p DownloadBytes (Hpos DownloadBytes) Hp) as (-> & -> & _).
    unfold from_i64. rewrite Z2N.id by done. by destruct entry as [[? ?] ?].
  - intros f usage. rewrite !list_sum_cons, Hsums. f_equal. unfold point_of.
    destruct (usage_point_spec entry p f (Hpos f) Hp) as (-> & _ & ->). done.
Qed.

(** C32: a usage query neither loses nor repeats traffic.  Of a well typed
    database, an answer lists its points in order, without two for one bucket
    and usage identity, no more than the limit; and when it is not truncated the
    points of a usage identity sum, in each of the four counters, to what the
    stored buckets of the range hold for it. *)
Theorem usage_query_exact `{!Sqlite} default_bucket_ms q c c1 response :
  well_typed c.(cn_db) -> (0 < default_bucket_ms)%N ->
  query_usage default_bucket_ms q c = (c1, Ok response) ->
  StronglySorted key_before (point_key <$> response.(ur_points))
  /\ length response.(ur_points) <= clamp 1 10000 (default 5000%N q.(uq_limit))
  /\ (response.(ur_truncated) = false -> forall f usage,
        list_sum (point_of f usage) response.(ur_points)
        = range_total f usage (to_i64 response.(ur_from_unix_ms)) (to_i64 response.(ur_to_unix_ms)) q.(uq_usage_id)
            c.(cn_db)).
Proof.
  intros Hdb Hpos Hq. unfold query_usage in Hq. set (limit := clamp 1 10000 (default 5000%N q.(uq_limit))) in *.
  apply bind_Ok in Hq as (c0 & now & [-> ->]%gets_Ok & Hq).
  apply bind_Ok in Hq as (c0 & [from to] & [-> _]%lift_Ok & Hq).
  apply bind_Ok in Hq as (c0 & bucket_ms & [-> Hb]%lift_Ok & Hq).
  assert (0 < to_i64 bucket_ms)%Z as Hms.
  { unfold validate_bucket in Hb. destruct (N.ltb_spec (bucket_of default_bucket_ms q.(uq_bucket_seconds)) default_bucket_ms); [done|].
    destruct (negb _); [done|]. injection Hb as <-. unfold to_i64, i64_MAX. lia. }
  apply bind_Ok in Hq as (c2 & u & Hopen & Hq).
  pose proof (open_current c (well_typed_version _ Hdb)) as Ho. rewrite Hopen in Ho. cbn in Ho.
  apply bind_Ok in Hq as (c3 & groups & Hgroups & Hq). apply bind_Ok in Hq as (c4 & points & [-> Hpoints]%lift_Ok & Hq).
  apply ret_Ok in Hq as [-> ->]. cbn [ur_points ur_truncated ur_from_unix_ms ur_to_unix_ms fst snd] in *.
  pose proof (query_reads "usage_buckets" bucket_columns (fun db =>
    take (limit + 1) (usage_groups (to_i64 bucket_ms) (to_i64 from) (to_i64 to) q.(uq_usage_id) db)) c2) as [_ Hread].
  rewrite Hgroups in Hread. specialize (Hread groups eq_refl). cbn beta in Hread. rewrite Ho in Hread.
  set (all := usage_groups (to_i64 bucket_ms) (to_i64 from) (to_i64 to) q.(uq_usage_id) c.(cn_db)) in *.
  assert (forall entry, entry ∈ groups -> entry ∈ all) as Hsub.
  { intros entry He. subst groups. rewrite <- (take_drop (limit + 1) all), elem_of_app. by left. }
  destruct (points_spec _ _ _ _ _ _ _ Hdb Hsub Hms Hpoints) as [Hkeys Hsums].
  assert (length points = length groups) as Hlen.
  { by rewrite <- (length_fmap point_key), Hkeys, length_fmap. }
  split; [|split].
  - rewrite fmap_take, Hkeys. apply StronglySorted_take. subst groups. rewrite fmap_take. apply StronglySorted_take, groups_sorted.
  - rewrite length_take. lia.
  - intros Htr f usage. apply Nat.ltb_ge in Htr. rewrite take_ge by lia. rewrite Hsums, <- (usage_groups_sum _ _ (to_i64 bucket_ms)) by done.
    fold all. assert (groups = all) as ->; [|done]. subst groups. apply take_ge.
    rewrite Hlen, length_take in Htr. lia.
Qed.

Definition usage_query : UsageHistoryQuery :=
  {| uq_from_unix_ms := Some 1699999000000%N; uq_to_unix_ms := Some 1700000060000%N;
     uq_bucket_seconds := Some 3600%N;
     uq_usage_id := None; uq_limit := None |}.
Definition usage_recorded : Conn := (writer_loop 30 example_commands example_writer).1.(wr_conn).

Lemma usage_recorded_typed : well_typed usage_recorded.(cn_db).
Proof.
  unfold usage_recorded. change (well_typed (db_of (writer_loop 30 example_commands example_writer).1)).
  apply writer_loop_preserves.
  - intros command Hc. apply write_command_typed. unfold example_commands in Hc.
    rewrite !elem_of_cons, elem_of_nil in Hc. by decompose_all; subst.
  - apply prune_typed.
  - apply (open_file_typed empty_conn tt example_conn); [|by vm_compute].
    exists 0%Z. split; [done|]. split; [by vm_compute|]. by split.
Qed.

Lemma usage_query_exact_witness :
  match (query_usage 60000 usage_query usage_recorded).2 with
  | Ok response =>
      StronglySorted key_before (point_key <$> response.(ur_points))
      /\ length response.(ur_points) <= clamp 1 10000 (default 5000%N usage_query.(uq_limit))
      /\ (response.(ur_truncated) = false -> forall f usage,
            list_sum (point_of f usage) response.(ur_points)
            = range_total f usage (to_i64 response.(ur_from_unix_ms)) (to_i64 response.(ur_to_unix_ms)) usage_query.(uq_usage_id)
                usage_recorded.(cn_db))
  | Err _ => False
  end.
Proof.
  destruct (query_usage 60000 usage_query usage_recorded) as [c1 [response|e]] eqn:Hq; [|by vm_compute in Hq].
  cbn [snd]. exact (usage_query_exact 60000 usage_query usage_recorded c1 response usage_recorded_typed eq_refl Hq).
Defined.

Example usage_query_points :
  match (query_usage 60000 usage_query usage_recorded).2 with
  | Ok response => (fun p => (p.(up_usage_id), p.(up_download_bytes), p.(up_sample_count))) <$> response.(ur_points)
                   = [("torrent", 290, 3); ("web", 7, 1)]%N
  | Err _ => False
  end.
Proof. by vm_compute. Qed.
