(* ===== verification/HistoryQueue.v ===== *)
(** The queue of the history store (src/src/history.rs): whatever the
    interleaving of the tasks that send and the thread that writes, the database
    ends as if the accepted commands had been written one after the other. *)

From S2P Require Import Prelude BTree State Domain Float64 Config StateErr Notifications History HistoryProps HistoryData.

Section queue.
Context `{!Sqlite}.

(** What happens to a store: a task sends without waiting, a task sends a barrier,
    the thread takes the next command. *)
Inductive QueueOp : Type :=
  | Send (command : WriteCommand)
  | Barrier (shutdown : bool) (reply : nat)
  | Write.

Definition queue_op (s : HistoryStore) (op : QueueOp) : HistoryStore :=
  match op with
  | Send command => (try_send command s).1
  | Barrier shutdown reply => default s (barrier shutdown reply s)
  | Write => default s (write_next s)
  end.

Definition accepted (s : HistoryStore) (op : QueueOp) : list WriteCommand :=
  match op with
  | Send command => if (try_send command s).2 then [command] else []
  | Barrier shutdown reply =>
      if is_some (barrier shutdown reply s) then [if shutdown then Shutdown reply else Flush reply] else []
  | Write => []
  end.

Definition refused (s : HistoryStore) (op : QueueOp) : N :=
  match op with Send command => if (try_send command s).2 then 0 else 1 | _ => 0 end.

Fixpoint queue_run (ops : list QueueOp) (s : HistoryStore) : HistoryStore * list WriteCommand * N :=
  match ops with
  | [] => (s, [], 0%N)
  | op :: ops =>
      let '(s1, commands, losses) := queue_run ops (queue_op s op) in
      (s1, accepted s op ++ commands, (refused s op + losses)%N)
  end.

(** The thread works the queue off. *)
Definition drain (s : HistoryStore) : HistoryStore := Nat.iter (length s.(hs_queue)) (fun s => queue_op s Write) s.

(** ** The loop, command by command *)

Fixpoint continues (retention_days : N) (commands : list WriteCommand) (w : Writer) : option Writer :=
  match commands with
  | [] => Some w
  | command :: commands =>
      match writer_turn retention_days command w with
      | (w1, Ok true) => continues retention_days commands w1
      | _ => None
      end
  end.

Lemma continues_app retention_days l k w :
  continues retention_days (l ++ k) w = continues retention_days l w ≫= continues retention_days k.
Proof.
  revert w. induction l as [|command l IH]; intros w; [done|]. cbn [app continues].
  destruct (writer_turn _ _ _) as [w1 [[]|]]; [apply IH|done|done].
Qed.

Lemma writer_loop_continues retention_days l k w w1 : continues retention_days l w = Some w1 ->
  writer_loop retention_days (l ++ k) w = writer_loop retention_days k w1.
Proof.
  revert w. induction l as [|command l IH]; intros w; cbn [continues app]; [by intros [= ->]|].
  destruct (writer_turn retention_days command w) as [w2 [[]|]] eqn:Ht; [|done|done]. intros Hc.
  cbn [writer_loop]. unfold bind. rewrite Ht. by apply IH.
Qed.

Lemma writer_loop_stops retention_days command k w w1 r : writer_turn retention_days command w = (w1, r) ->
  r <> Ok true -> (writer_loop retention_days (command :: k) w).1 = w1.
Proof. intros Ht Hr. cbn [writer_loop]. unfold bind. rewrite Ht. by destruct r as [[]|]. Qed.

(** Where a store stands that was given [commands] from the state [w]. *)
Definition on_track (w : Writer) (commands : list WriteCommand) (s : HistoryStore) : Prop :=
  if s.(hs_running) then
    exists written, commands = written ++ s.(hs_queue) /\ continues s.(hs_retention_days) written w = Some s.(hs_writer)
  else s.(hs_queue) = [] /\ (forall more, (writer_loop s.(hs_retention_days) (commands ++ more) w).1 = s.(hs_writer)).

Lemma on_track_write w commands s : on_track w commands s -> on_track w commands (queue_op s Write).
Proof.
  unfold on_track, queue_op, write_next. destruct (hs_running s) eqn:Hrun; [|cbn; by rewrite Hrun].
  intros (written & Hcommands & Hcont). destruct (hs_queue s) as [|command queue] eqn:Hq; [cbn; rewrite Hrun, Hq; eauto|].
  destruct (writer_turn (hs_retention_days s) command (hs_writer s)) as [w1 r] eqn:Ht. cbn.
  destruct r as [[]|e]; cbn.
  - exists (written ++ [command]). split; [by rewrite <- app_assoc|]. rewrite continues_app, Hcont. cbn. by rewrite Ht.
  - split; [done|]. intros more. rewrite Hcommands, <- app_assoc. cbn [app].
    rewrite (writer_loop_continues _ _ _ _ _ Hcont). by eapply writer_loop_stops.
  - split; [done|]. intros more. rewrite Hcommands, <- app_assoc. cbn [app].
    rewrite (writer_loop_continues _ _ _ _ _ Hcont). by eapply writer_loop_stops.
Qed.

Lemma on_track_push w commands s command : hs_running s = true -> on_track w commands s ->
  on_track w (commands ++ [command]) (with_queue (s.(hs_queue) ++ [command]) s).
Proof.
  unfold on_track, with_queue. cbn. intros ->. intros (written & -> & Hcont). exists written.
  split; [by rewrite app_assoc|done].
Qed.

Lemma on_track_op w commands s op : on_track w commands s -> on_track w (commands ++ accepted s op) (queue_op s op).
Proof.
  intros Hs. destruct op as [command|shutdown reply|]; cbn [accepted queue_op].
  - unfold try_send. destruct (hs_running s) eqn:Hrun; cbn [andb]; [destruct (_ <? _)%nat; cbn [fst snd]|cbn [fst snd]].
    + by apply on_track_push.
    + rewrite app_nil_r. unfold on_track in *; cbn. by rewrite Hrun in *.
    + rewrite app_nil_r. unfold on_track in *; cbn. by rewrite Hrun in *.
  - unfold barrier. destruct (hs_running s) eqn:Hrun; cbn [andb]; [destruct (_ <? _)%nat|]; cbn [is_some default];
      rewrite ?app_nil_r; try done. by apply on_track_push.
  - rewrite app_nil_r. by apply on_track_write.
Qed.

Lemma queue_op_constants s op :
  (queue_op s op).(hs_retention_days) = s.(hs_retention_days)
  /\ (queue_op s op).(hs_dropped_writes) = ((s.(hs_dropped_writes) + refused s op) mod 2 ^ 64)%N
     \/ refused s op = 0%N /\ (queue_op s op).(hs_retention_days) = s.(hs_retention_days)
        /\ (queue_op s op).(hs_dropped_writes) = s.(hs_dropped_writes).
Proof.
  destruct op as [command|shutdown reply|]; cbn.
  - unfold try_send. destruct (_ && _); cbn; [by right|by left].
  - right. unfold barrier. destruct (_ && _); by cbn.
  - right. unfold write_next. destruct (hs_running s), (hs_queue s) as [|command queue]; try done.
    by destruct (writer_turn _ _ _) as [w1 r].
Qed.

Lemma queue_run_track ops w commands s : on_track w commands s ->
  let '(s1, more, losses) := queue_run ops s in
  on_track w (commands ++ more) s1 /\ s1.(hs_retention_days) = s.(hs_retention_days)
  /\ (s.(hs_dropped_writes) < 2 ^ 64 -> s1.(hs_dropped_writes) = (s.(hs_dropped_writes) + losses) mod 2 ^ 64)%N.
Proof.
  revert commands s. induction ops as [|op ops IH]; intros commands s Hs; cbn [queue_run].
  - rewrite app_nil_r. split; [done|]. split; [done|]. intros Hlt. by rewrite N.add_0_r, N.mod_small.
  - specialize (IH (commands ++ accepted s op) (queue_op s op) (on_track_op _ _ _ _ Hs)).
    destruct (queue_run ops _) as [[s1 more] losses]. destruct IH as (Htrack & Hret & Hdrop).
    rewrite <- app_assoc in Htrack. split; [done|].
    destruct (queue_op_constants s op) as [[Hr Hd]|(Hz & Hr & Hd)]; rewrite Hr in Hret; (split; [done|]); intros Hlt.
    + rewrite Hdrop, Hd by (rewrite Hd; apply N.mod_lt; lia). rewrite N.Div0.add_mod_idemp_l. f_equal. lia.
    + rewrite Hdrop, Hd, Hz by (by rewrite Hd). f_equal.
Qed.

Lemma stopped_stays s n : s.(hs_running) = false -> Nat.iter n (fun s => queue_op s Write) s = s.
Proof.
  intros Hs. induction n as [|n IH]; [done|]. cbn [Nat.iter nat_rect]. fold (Nat.iter n (fun s => queue_op s Write) s).
  rewrite IH. unfold queue_op, write_next. by rewrite Hs.
Qed.

Lemma on_track_drained w commands s : (s.(hs_running) = true -> s.(hs_queue) = []) -> on_track w commands s ->
  s.(hs_queue) = [] /\ s.(hs_writer) = (writer_loop s.(hs_retention_days) commands w).1.
Proof.
  unfold on_track. destruct (hs_running s); intros Hq Hs.
  - specialize (Hq eq_refl). destruct Hs as (written & -> & Hcont). by rewrite (writer_loop_continues _ _ _ _ _ Hcont), Hq.
  - destruct Hs as [Hempty Hs]. specialize (Hs []). by rewrite app_nil_r in Hs.
Qed.

Lemma drained n w commands s : length s.(hs_queue) = n -> on_track w commands s ->
  let s1 := Nat.iter n (fun s => queue_op s Write) s in
  s1.(hs_queue) = [] /\ s1.(hs_writer) = (writer_loop s.(hs_retention_days) commands w).1.
Proof.
  revert s. induction n as [|n IH]; intros s Hn Hs.
  - apply nil_length_inv in Hn. by apply on_track_drained.
  - cbv zeta. rewrite Nat.iter_succ_r. pose proof (on_track_write _ _ _ Hs) as Hs1.
    assert (Hret : (queue_op s Write).(hs_retention_days) = s.(hs_retention_days)).
    { by destruct (queue_op_constants s Write) as [[? _]|(_ & ? & _)]. }
    rewrite <- Hret. destruct (hs_running (queue_op s Write)) eqn:Hrun1.
    + apply IH; [|done]. revert Hrun1 Hn. unfold queue_op, write_next.
      destruct (hs_running s) eqn:Hrun; [|cbn; by rewrite Hrun].
      destruct (hs_queue s) as [|command queue]; [done|].
      destruct (writer_turn _ _ _) as [w1 [[]|]]; cbn; [|done|done]. intros _. lia.
    + rewrite stopped_stays by done. by apply on_track_drained; [rewrite Hrun1|].
Qed.

(** C11: the history is written in order.  In whatever order tasks send commands and
    barriers and the thread works, a store that the thread then works off ends
    in the state of the sequential loop over the commands that were accepted,
    with an empty queue, and it has counted exactly the commands it refused. *)
Theorem queue_refines_writer ops s :
  s.(hs_running) = true -> s.(hs_queue) = [] -> (s.(hs_dropped_writes) < 2 ^ 64)%N ->
  let '(s1, commands, losses) := queue_run ops s in
  (drain s1).(hs_writer) = (writer_loop s.(hs_retention_days) commands s.(hs_writer)).1
  /\ (drain s1).(hs_queue) = []
  /\ s1.(hs_dropped_writes) = ((s.(hs_dropped_writes) + losses) mod 2 ^ 64)%N.
Proof.
  intros Hrun Hq Hdrop.
  assert (Hs : on_track s.(hs_writer) [] s) by (unfold on_track; rewrite Hrun, Hq; by exists []).
  pose proof (queue_run_track ops _ _ _ Hs) as Hx. destruct (queue_run ops s) as [[s1 commands] losses].
  destruct Hx as (Htrack & Hret & Hd). cbn [app] in Htrack.
  destruct (drained _ _ _ s1 eq_refl Htrack) as [Hempty Hw]. unfold drain. rewrite Hempty, Hw, Hret.
  split; [done|]. split; [done|]. by apply Hd.
Qed.
End queue.

(** ** A run *)

#[local] Existing Instance sqlite_works.

Definition queue_ops : list QueueOp :=
  [Send (Usage (example_observation 0 "torrent" "c1" 100) 60000); Write;
   Send (Usage (example_observation 5000 "web" "c2" 7) 60000); Barrier false 1; Write;
   Send (Usage (example_observation 70000 "torrent" "c1" 250) 60000); Barrier true 2; Write; Write;
   Send (Usage (example_observation 75000 "torrent" "c1" 40) 60000); Write;
   Send (Usage (example_observation 80000 "torrent" "c1" 60) 60000)].

(** The last observation comes after the thread shut down: it is refused. *)
Example queue_run_losses : (queue_run queue_ops opened).2 = 1%N.
Proof. vm_compute. reflexivity. Qed.

Lemma queue_refines_writer_witness :
  let '(s1, commands, losses) := queue_run queue_ops opened in
  (drain s1).(hs_writer) = (writer_loop 30 commands opened.(hs_writer)).1 /\ (drain s1).(hs_queue) = []
  /\ s1.(hs_dropped_writes) = ((opened.(hs_dropped_writes) + losses) mod 2 ^ 64)%N.
Proof. apply (queue_refines_writer queue_ops opened); by vm_compute. Defined.
