(* ===== verification/NotificationManager.v ===== *)
(** The notification manager (src/src/notifications.rs): the settings in use, the
    queue of alerts, which events raise one, and its delivery.

    An operation is a step on [Notifier].  The webhook client is a parameter;
    the database is the [Conn] of the history store, when there is one. *)

From S2P Require Import Prelude RustStr Net Domain State Float64 Config StateErr Notifications History HistoryProps HistoryPages ConfigDefaults HistorySchema HistoryData.

Definition QUEUE_CAPACITY : nat := 64.

Record Notification : Type := {
  nt_title : string;
  nt_body : string;
  nt_idempotency_key : string;
}.

Record Notifier : Type := {
  nm_settings : NotificationSettings;
  nm_queue : list Notification;
}.

Definition set_settings (settings : NotificationSettings) (m : Notifier) : Notifier :=
  {| nm_settings := settings; nm_queue := m.(nm_queue) |}.

(** [try_send]; a full queue drops the alert. *)
Definition enqueue (n : Notification) (m : Notifier) : Notifier :=
  if (length m.(nm_queue) <? QUEUE_CAPACITY)%nat
  then {| nm_settings := m.(nm_settings); nm_queue := m.(nm_queue) ++ [n] |} else m.

(** ** The events that raise an alert *)

Definition stack_started (now : N) (m : Notifier) : Notifier :=
  if m.(nm_settings).(no_enabled) && m.(nm_settings).(no_alert_stack_started)
  then enqueue {| nt_title := "Stack Started";
                  nt_body := "Egressy started and installed its fail-closed gateway policy.";
                  nt_idempotency_key := "stack-started-" +:+ show_N now |} m
  else m.

Definition HANDSHAKE : string := "wireguard.handshake".

(** The alert of a transition. *)
Definition transition_alert (s : NotificationSettings) (t : Transition) : option Notification :=
  let key := "transition-" +:+ show_N t.(ts_sequence) in
  let is_handshake := String.eqb t.(ts_component) HANDSHAKE in
  let from_failed := bool_decide (t.(ts_from_status) = Failed) in
  let to_failed := bool_decide (t.(ts_to_status) = Failed) in
  if is_handshake && negb from_failed && to_failed && s.(no_alert_vpn_disconnected)
  then Some {| nt_title := "VPN Disconnected"; nt_body := "The WireGuard handshake is missing or stale.";
               nt_idempotency_key := key |}
  else if is_handshake && from_failed && bool_decide (t.(ts_to_status) = Healthy) && s.(no_alert_vpn_reconnected)
  then Some {| nt_title := "VPN Reconnected"; nt_body := "A recent WireGuard handshake was observed again.";
               nt_idempotency_key := key |}
  else if negb is_handshake && negb from_failed && to_failed && s.(no_alert_diagnostic_failed)
  then Some {| nt_title := t.(ts_component) +:+ " diagnostic failed"; nt_body := t.(ts_safe_message);
               nt_idempotency_key := key |}
  else None.

Definition transition (t : Transition) (m : Notifier) : Notifier :=
  if m.(nm_settings).(no_enabled) then
    match transition_alert m.(nm_settings) t with Some n => enqueue n m | None => m end
  else m.

(** The loop of [monitor_transitions]; the events that the channel skipped are
    not among them. *)
Definition monitor_transitions (ts : list Transition) (m : Notifier) : Notifier := foldl (fun m t => transition t m) m ts.

Definition rtt_alert (s : NotificationSettings) (rtt_ms : f64) (now : N) : Notification :=
  {| nt_title := "VPN RTT threshold exceeded";
     nt_body := "Underlay RTT to the active VPN endpoint is " +:+ Binary64.show1 rtt_ms
                +:+ " ms, above the configured " +:+ Binary64.show1 s.(no_rtt_threshold_ms) +:+ " ms threshold.";
     nt_idempotency_key := "rtt-high-" +:+ show_N now |}.

(** The new value of [was_above] is the second result. *)
Definition rtt_sample (rtt_ms : f64) (now : N) (was_above : bool) (m : Notifier) : Notifier * bool :=
  let s := m.(nm_settings) in
  let above := Binary64.lt s.(no_rtt_threshold_ms) rtt_ms in
  (if s.(no_enabled) && s.(no_alert_rtt_above_threshold) && above && negb was_above
   then enqueue (rtt_alert s rtt_ms now) m else m,
   above).

(** ** Delivery *)

(** The request that the client of the omnihook crate is asked to make. *)
Inductive Payload : Type :=
| DiscordPayload | SlackPayload
| TelegramPayload (chat_id : string) (disable_web_preview : bool)
| GenericPayload (key : string).

Record Delivery : Type := {
  dv_url : string;
  dv_timeout_seconds : N;
  dv_secret : option string;
  dv_payload : Payload;
  dv_title : string;
  dv_body : string;
}.

Section manager.
Context `{!UrlCrate, !Sqlite} (deliver : Delivery -> Result unit string).

Definition delivery (s : NotificationSettings) (n : Notification) : Result Delivery string :=
  let? url := ok_or s.(no_webhook_url) "webhook destination is not configured" in
  let? _ := ok_or (url_parse url) "invalid url" in
  Ok {| dv_url := url; dv_timeout_seconds := s.(no_timeout_seconds);
        dv_secret := if bool_decide (s.(no_provider) = Generic) then s.(no_hmac_secret) else None;
        dv_payload :=
          match s.(no_provider) with
          | Discord => DiscordPayload
          | Slack => SlackPayload
          | Telegram => TelegramPayload (default "" s.(no_telegram_chat_id)) true
          | Generic => GenericPayload n.(nt_idempotency_key)
          end;
        dv_title := n.(nt_title); dv_body := n.(nt_body) |}.

Definition send_with_settings (s : NotificationSettings) (n : Notification) : Result unit string :=
  let? d := delivery s n in deliver d.

(** A turn of [delivery_worker]: the alert that was taken, with the result of
    its delivery. *)
Definition deliver_next (m : Notifier) : option (Notifier * (Notification * Result unit string)) :=
  match m.(nm_queue) with
  | n :: queue => Some ({| nm_settings := m.(nm_settings); nm_queue := queue |},
                        (n, send_with_settings m.(nm_settings) n))
  | [] => None
  end.

(** ** Settings *)

(** [start]: the stored settings, or the defaults when they cannot be read. *)
Definition start (history : option Conn) : Notifier :=
  {| nm_settings :=
       match history with
       | Some c => match (read_notification_settings c).2 with Ok s => s | Err _ => settings_default end
       | None => settings_default
       end;
     nm_queue := [] |}.

Definition view (m : Notifier) : NotificationSettingsView := view_of m.(nm_settings).

Definition update (input : NotificationSettingsInput) (now : N) (history : option Conn) (m : Notifier)
    : Notifier * option Conn * Result NotificationSettingsView string :=
  let settings := merge input m.(nm_settings) now in
  match validate settings with
  | Err e => (m, history, Err e)
  | Ok _ =>
      match history with
      | None => (m, None, Err "notification settings require enabled local persistence")
      | Some c =>
          match write_notification_settings settings c with
          | (c, Err e) => (m, Some c, Err e)
          | (c, Ok _) => (set_settings settings m, Some c, Ok (view (set_settings settings m)))
          end
      end
  end.

Definition test (now : N) (m : Notifier) : Result unit string :=
  let s := m.(nm_settings) in
  let? _ := validate s in
  let? _ := ensure (is_some s.(no_webhook_url)) "configure a webhook destination first" in
  send_with_settings s
    {| nt_title := "Egressy test notification"; nt_body := "Omnihook delivery is configured successfully.";
       nt_idempotency_key := "egressy-test-" +:+ show_N now |}.
End manager.

(** * Properties

    Theorems about the notification manager: changes of the settings are all or
    nothing, and round-trip-time alerts mark crossings of the threshold. *)


#[local] Existing Instance sqlite_works.

Section settings.
Context `{!UrlCrate, !Sqlite}.

Lemma validate_timeout s : validate s = Ok tt -> (1 <= s.(no_timeout_seconds) <= 30)%N.
Proof. unfold validate. intros Hv. apply res_bind_Ok in Hv as (u & Hv & _). apply ensure_Ok in Hv. simplify_bools. lia. Qed.

Lemma validate_typed s : validate s = Ok tt -> settings_typed s.
Proof. intros Hv%validate_timeout. unfold settings_typed, u32_MAX. lia. Qed.

Lemma validate_secret s : validate s = Ok tt -> s.(no_provider) <> Generic -> s.(no_hmac_secret) = None.
Proof.
  unfold validate. intros Hv Hp. repeat (apply res_bind_Ok in Hv as (? & _ & Hv)). apply ensure_Ok in Hv.
  rewrite bool_decide_false in Hv by done. by destruct (no_hmac_secret s).
Qed.

Lemma validate_destination s url : validate s = Ok tt -> s.(no_webhook_url) = Some url ->
  exists parsed host, url_parse url = Some parsed /\ url_scheme parsed = "https" /\ url_host_str parsed = Some host.
Proof.
  unfold validate. intros Hv Hu. do 2 apply res_bind_Ok in Hv as (? & _ & Hv). apply res_bind_Ok in Hv as ([] & Hw & _).
  rewrite Hu, orb_true_r in Hw. unfold check_webhook in Hw. res_steps. simplify_eq.
  destruct (url_host_str _) as [host|] eqn:Hh; [|done]. eauto 6.
Qed.
End settings.

(** a change of the notification settings is all or nothing.  Accepted, the
    settings in use are the ones every later start reads from the database; they
    name an HTTPS host when they name a destination, carry the secret of no
    other provider, and keep the stored destination when the request leaves it
    blank.  Refused or not stored, the settings in use stay as they were. *)
Theorem update_all_or_nothing `{!UrlCrate, !Sqlite} input now c m :
  c.(cn_db).(db_user_version) = SCHEMA_VERSION ->
  match update input now (Some c) m with
  | (m1, Some c1, Ok shown) =>
      shown = view m1 /\ m1.(nm_queue) = m.(nm_queue) /\ m1.(nm_settings) = merge input m.(nm_settings) now
      /\ (forall c2 s, read_notification_settings c1 = (c2, Ok s) -> nm_settings (start (Some c1)) = m1.(nm_settings))
      /\ (forall url, m1.(nm_settings).(no_webhook_url) = Some url ->
           exists parsed host, url_parse url = Some parsed /\ url_scheme parsed = "https" /\ url_host_str parsed = Some host)
      /\ (m1.(nm_settings).(no_provider) <> Generic -> m1.(nm_settings).(no_hmac_secret) = None)
      /\ (m1.(nm_settings).(no_provider) <> Telegram -> m1.(nm_settings).(no_telegram_chat_id) = None)
      /\ (trim input.(ni_webhook_url) = "" -> m1.(nm_settings).(no_webhook_url) = m.(nm_settings).(no_webhook_url))
  | (m1, h, Err _) => m1 = m /\ is_Some h
  | _ => False
  end.
Proof.
  intros Hv. unfold update. set (s := merge input m.(nm_settings) now).
  destruct (validate s) as [[]|e] eqn:Hval; [|by eauto].
  destruct (write_notification_settings s c) as [c1 [[]|e]] eqn:Hw; [|by eauto].
  destruct (saved_settings s c c1 Hv Hw) as (row & Hrow & Hset).
  split; [done|]. split; [done|]. split; [done|]. split; [|split; [|split; [|split]]].
  - intros c2 s' Hr. pose proof (read_settings_of row c1 Hset) as Hread. unfold start. cbn [nm_settings].
    rewrite Hr in Hread |- *. cbn in Hread |- *. rewrite (settings_row_read s row (validate_typed s Hval) Hrow) in Hread.
    congruence.
  - intros url. by apply validate_destination.
  - by apply validate_secret.
  - cbn. intros Hp. by rewrite bool_decide_false.
  - cbn. intros Ht. unfold optional. by rewrite Ht.
Qed.

(** A URL parser for the witness: the scheme and the host of [scheme://host/..]. *)
Definition simple_url : UrlCrate :=
  {| Url := string * string;
     url_parse := fun s => '(scheme, rest) ← split_at_sub "://" s; Some (scheme, default "" (head (split_char "/" rest)));
     url_scheme := fst; url_host_str := fun u => if is_empty u.2 then None else Some u.2 |}.
#[local] Existing Instance simple_url.

Definition example_input : NotificationSettingsInput :=
  {| ni_enabled := true; ni_provider := Generic; ni_webhook_url := " https://hook.example/abc ";
     ni_telegram_chat_id := "42"; ni_hmac_secret := "s3cret"; ni_timeout_seconds := 10;
     ni_rtt_threshold_ms := Binary64.of_N 150; ni_alert_stack_started := true; ni_alert_vpn_disconnected := true;
     ni_alert_vpn_reconnected := true; ni_alert_rtt_above_threshold := true; ni_alert_diagnostic_failed := true |}.
Definition example_notifier : Notifier := start (Some example_conn).

Lemma update_all_or_nothing_witness :
  example_conn.(cn_db).(db_user_version) = SCHEMA_VERSION
  /\ match update example_input 1700000000000 (Some example_conn) example_notifier with
     | (m1, Some c1, Ok shown) =>
         shown = view m1 /\ m1.(nm_queue) = example_notifier.(nm_queue)
         /\ m1.(nm_settings) = merge example_input example_notifier.(nm_settings) 1700000000000
         /\ (forall c2 s, read_notification_settings c1 = (c2, Ok s) -> nm_settings (start (Some c1)) = m1.(nm_settings))
         /\ (forall url, m1.(nm_settings).(no_webhook_url) = Some url ->
              exists parsed host, url_parse url = Some parsed /\ url_scheme parsed = "https" /\ url_host_str parsed = Some host)
         /\ (m1.(nm_settings).(no_provider) <> Generic -> m1.(nm_settings).(no_hmac_secret) = None)
         /\ (m1.(nm_settings).(no_provider) <> Telegram -> m1.(nm_settings).(no_telegram_chat_id) = None)
         /\ (trim example_input.(ni_webhook_url) = "" ->
              m1.(nm_settings).(no_webhook_url) = example_notifier.(nm_settings).(no_webhook_url))
     | (m1, h, Err _) => m1 = example_notifier /\ is_Some h
     | _ => False
     end.
Proof.
  split; [by vm_compute|].
  apply (update_all_or_nothing example_input 1700000000000 example_conn example_notifier). by vm_compute.
Defined.

Example update_accepted :
  match (update example_input 1700000000000 (Some example_conn) example_notifier).2 with
  | Ok shown => shown.(nv_destination) = Some ("https://hook.example/" +:+ ELLIPSIS) /\ shown.(nv_hmac_secret_configured) = true
  | Err _ => False
  end.
Proof. by vm_compute. Qed.

(** ** Round-trip-time alerts *)

(** The samples of the monitor, with their times. *)
Fixpoint rtt_samples (samples : list (f64 * N)) (was_above : bool) (m : Notifier) : Notifier * bool :=
  match samples with
  | [] => (m, was_above)
  | (rtt_ms, now) :: samples => let '(m, above) := rtt_sample rtt_ms now was_above m in rtt_samples samples above m
  end.

(** The samples above the threshold whose predecessor was not. *)
Fixpoint crossings (threshold : f64) (samples : list (f64 * N)) (was_above : bool) : list (f64 * N) :=
  match samples with
  | [] => []
  | (rtt_ms, now) :: samples =>
      let above := Binary64.lt threshold rtt_ms in
      (if above && negb was_above then [(rtt_ms, now)] else []) ++ crossings threshold samples above
  end.

(** While the queue has room there is one alert for each crossing, in order,
    and none while the round-trip time stays high. *)
Lemma rtt_alerts_are_crossings samples was_above m :
  m.(nm_settings).(no_enabled) = true -> m.(nm_settings).(no_alert_rtt_above_threshold) = true ->
  length m.(nm_queue) + length samples <= QUEUE_CAPACITY ->
  (rtt_samples samples was_above m).1.(nm_queue)
  = m.(nm_queue) ++ ((fun sample => rtt_alert m.(nm_settings) sample.1 sample.2)
                      <$> crossings m.(nm_settings).(no_rtt_threshold_ms) samples was_above).
Proof.
  revert was_above m. induction samples as [|[rtt now] samples IH]; intros was_above m He Ha Hroom; cbn.
  { by rewrite app_nil_r. }
  rewrite He, Ha. cbn [length] in Hroom. cbn [andb].
  destruct (Binary64.lt _ rtt && negb was_above); cbn [app fmap list_fmap].
  - unfold enqueue. destruct (Nat.ltb_spec (length (nm_queue m)) QUEUE_CAPACITY); [|lia].
    rewrite IH; [|done|done|cbn; rewrite length_app; cbn; lia]. cbn. by rewrite <- app_assoc.
  - apply IH; [done|done|lia].
Qed.
