(* ===== verification/Telemetry.v ===== *)
(** The telemetry (src/src/telemetry.rs, and monitor_telemetry of
    src/src/runtime.rs): what the exporters count, how the count becomes a check,
    the metrics that are recorded, and the set-up of the three signals.

    The OpenTelemetry crates that batch, encode and send are not modelled: an
    export is its outcome, a recorded metric a [Measurement]. *)

From S2P Require Import Prelude RustStr Net State Domain Config Control History StrFacts.

(** ** Export counters *)

Record ExportStatus : Type := {
  ex_successful_exports : N;
  ex_failed_exports : N;
  ex_last_success : N;
  ex_last_failure : N;
}.

Definition ExportStatus_default : ExportStatus :=
  {| ex_successful_exports := 0; ex_failed_exports := 0; ex_last_success := 0; ex_last_failure := 0 |}.

Definition nonzero (value : N) : option N := if (value =? 0)%N then None else Some value.

Definition last_success_unix_ms (s : ExportStatus) : option N := nonzero s.(ex_last_success).
Definition last_failure_unix_ms (s : ExportStatus) : option N := nonzero s.(ex_last_failure).

(** [ExportStatus::success] and [ExportStatus::failure], at the instant [now]. *)
Definition success (now : N) (s : ExportStatus) : ExportStatus :=
  {| ex_successful_exports := wrapping_add 64 s.(ex_successful_exports) 1;
     ex_failed_exports := s.(ex_failed_exports);
     ex_last_success := now; ex_last_failure := s.(ex_last_failure) |}.
Definition failure (now : N) (s : ExportStatus) : ExportStatus :=
  {| ex_successful_exports := s.(ex_successful_exports);
     ex_failed_exports := wrapping_add 64 s.(ex_failed_exports) 1;
     ex_last_success := s.(ex_last_success); ex_last_failure := now |}.

(** The tracking exporters: the collector's answer is counted and passed on. *)
Definition export {E} (now : N) (result : Result unit E) (s : ExportStatus) : ExportStatus * Result unit E :=
  (match result with Ok _ => success now s | Err _ => failure now s end, result).

(** ** Metrics *)

Inductive MetricValue : Type := U64 (value : N) | F64 (value : f64).

Record Measurement : Type := {
  me_instrument : string;
  me_value : MetricValue;
  me_attributes : list (string * string);
}.

Definition bounded_attribute (value : string) : string := of_chars (take_chars 128 (chars value)).

Definition record_client (usage_id : string) (download_bytes upload_bytes download_packets upload_packets : N)
    : list Measurement :=
  flat_map (fun '(direction, bytes, packets) =>
    let attributes := [("egressy.usage.id", bounded_attribute usage_id); ("network.io.direction", direction)] in
    [{| me_instrument := "egressy.client.traffic.bytes"; me_value := U64 bytes; me_attributes := attributes |};
     {| me_instrument := "egressy.client.traffic.packets"; me_value := U64 packets; me_attributes := attributes |}])
    [("download", download_bytes, download_packets); ("upload", upload_bytes, upload_packets)].

Definition record_export_status (s : ExportStatus) : list Measurement :=
  [{| me_instrument := "egressy.otel.exports.success"; me_value := U64 s.(ex_successful_exports); me_attributes := [] |};
   {| me_instrument := "egressy.otel.exports.failure"; me_value := U64 s.(ex_failed_exports); me_attributes := [] |}].

Definition record_vpn_server_rtt (endpoint_family : string) (rtt_ms : f64) : list Measurement :=
  [{| me_instrument := "egressy.vpn_server.endpoint.rtt"; me_value := F64 rtt_ms;
      me_attributes := [("network.type", bounded_attribute endpoint_family)] |}].

(** ** The monitor *)

(** [Option::is_none_or] *)
Definition is_none_or {A} (f : A -> bool) (o : option A) : bool :=
  match o with None => true | Some a => f a end.

Definition failed_after_success (s : ExportStatus) : bool :=
  match last_failure_unix_ms s with
  | None => false
  | Some failed => is_none_or (fun success => (success <? failed)%N) (last_success_unix_ms s)
  end.

Definition export_failed (s : ExportStatus) (observed_failures : N) : bool :=
  failed_after_success s || (observed_failures <? s.(ex_failed_exports))%N.

Definition telemetry_observation (s : ExportStatus) (observed_failures : N) : Observation :=
  let failed := export_failed s observed_failures in
  let succeeded := (0 <? s.(ex_successful_exports))%N in
  {| ob_id := "telemetry.otel";
     ob_status := if failed then Degraded else if succeeded then Healthy else Unknown;
     ob_impact := Optional;
     ob_reason_code :=
       if failed then "otel.export_failed" else if succeeded then "otel.export_succeeded" else "otel.awaiting_export";
     ob_safe_message :=
       if failed then "One or more OTEL exports failed; local operation continues"
       else if succeeded then "OTEL export has succeeded"
       else "OTEL is enabled and awaiting the first export result";
     ob_next_attempt_at_unix_ms := None; ob_recovery_attempt := None |}.

(** The publisher, the counters, the loop's own [observed_failures] and what the
    meter was given. *)
Record Telemetry : Type := {
  te_publisher : StatePublisher;
  te_status : ExportStatus;
  te_observed_failures : N;
  te_recorded : list Measurement;
}.

Definition telemetry_start (publisher : StatePublisher) : Telemetry :=
  {| te_publisher := publisher; te_status := ExportStatus_default; te_observed_failures := 0; te_recorded := [] |}.

(** A turn of [monitor_telemetry]. *)
Definition telemetry_turn (now : N) (t : Telemetry) : Telemetry :=
  {| te_publisher := observe t.(te_publisher) (telemetry_observation t.(te_status) t.(te_observed_failures)) now;
     te_status := t.(te_status); te_observed_failures := t.(te_status).(ex_failed_exports);
     te_recorded := t.(te_recorded) ++ record_export_status t.(te_status) |}.

(** ** Set-up *)

Definition signal_endpoint (base signal : string) : string :=
  if ends_with base ("/v1/" +:+ signal) then base else base +:+ "/v1/" +:+ signal.

(** [str::trim_end_matches] of one character *)
Definition trim_end_matches (c : ascii) (s : string) : string :=
  String.rev (trim_start_matches (Ascii.eqb c) (String.rev s)).

Definition HEADER_SYNTAX : string := "OTEL header entries must use name=value syntax".
Definition HEADER_UNSAFE : string := "OTEL header entry is empty, unsafe, or too long".

Definition header_char (c : ascii) : bool := is_ascii_alphanumeric c || Ascii.eqb c "-".

Definition header_unsafe (name value : string) : bool :=
  is_empty name || is_empty value
  || (128 <? String.length name)%nat || (4096 <? String.length value)%nat
  || negb (str_forallb header_char name)
  || str_existsb (fun c => Ascii.eqb c "013" || Ascii.eqb c "010") value.

(** One entry of the headers file. *)
Definition header_entry (headers : gmap string string) (entry : string) : Result (gmap string string) string :=
  let entry := trim entry in
  if is_empty entry then Ok headers
  else
    match split_once "=" entry with
    | None => Err HEADER_SYNTAX
    | Some (name, value) =>
        let name := trim name in
        let value := trim value in
        if header_unsafe name value then Err HEADER_UNSAFE else Ok (<[name := value]> headers)
    end.

Definition parse_headers (raw : string) : Result (gmap string string) string :=
  foldM_res header_entry ∅ (flat_map (split_char ",") (lines raw)).

Definition load_headers (read : string -> Result string string) (path : option string)
    : Result (gmap string string) string :=
  match path with
  | None => Ok ∅
  | Some path =>
      let? raw := map_err (fun e => "reading protected OTEL headers file: " +:+ e) (read path) in
      parse_headers raw
  end.

Record Signal : Type := { si_endpoint : string; si_timeout_seconds : N; si_headers : gmap string string }.
Record TelemetryLayers : Type := { tl_traces : Signal; tl_metrics : Signal; tl_logs : Signal; tl_service_name : string }.

(** [build], as far as it configures the exporters. *)
Definition build (read : string -> Result string string) (config : OtelConfig)
    : Result (option TelemetryLayers) string :=
  if negb config.(ot_enabled) then Ok None
  else
    let? headers := load_headers read config.(ot_headers_path) in
    let endpoint := trim_end_matches "/" config.(ot_endpoint) in
    let signal name := {| si_endpoint := signal_endpoint endpoint name;
                          si_timeout_seconds := config.(ot_timeout_seconds); si_headers := headers |} in
    Ok (Some {| tl_traces := signal "traces"; tl_metrics := signal "metrics"; tl_logs := signal "logs";
                tl_service_name := config.(ot_service_name) |}).

(** * Properties

    The telemetry: the headers that are accepted, and what the check says about
    the exports. *)


(** ** Headers *)

Definition header_ok (name value : string) : Prop :=
  header_unsafe name value = false /\ trimmed value /\ lacks "," value = true.

Definition print_header (header : string * string) : string := header.1 +:+ "=" +:+ header.2.
Definition print_headers (headers : gmap string string) : string := unlines (print_header <$> map_to_list headers).

Lemma header_unsafe_false name value : header_unsafe name value = false ->
  name <> "" /\ str_forallb header_char name = true /\ lacks "013" value = true /\ lacks "010" value = true.
Proof.
  unfold header_unsafe, is_empty. rewrite !orb_false_iff, negb_false_iff. intros (((((Hn & _) & _) & _) & Hc) & Hv).
  split; [by apply String.eqb_neq|]. split; [done|]. clear - Hv. unfold str_existsb in Hv.
  induction value as [|a value IH]; [done|]. cbn in Hv. apply orb_false_iff in Hv as [Ha Hv].
  apply orb_false_iff in Ha as [H13 H10]. apply IH in Hv as [IH13 IH10].
  split; apply lacks_cons; (split; [|done]); by apply Ascii.eqb_neq.
Qed.

Lemma header_char_visible c : header_char c = true -> visible c = true.
Proof. destruct c as [[] [] [] [] [] [] [] []]; vm_compute; congruence. Qed.

Lemma header_name_trimmed name : str_forallb header_char name = true -> trimmed name.
Proof. intros H. apply visible_trimmed. revert H. apply str_forallb_impl, header_char_visible. Qed.

Lemma ws_suffix_before_visible s c t : s <> "" -> visible c = true -> ws_suffix s = None ->
  ws_suffix (s +:+ String c t) = None.
Proof.
  intros Hne Hc Hs. destruct s as [|a [|b [|d s]]]; [done|..]; rewrite ?str_app_cons, ?str_app_nil_l in *;
    cbn -[ws1 ws2 ws3 N_of_ascii] in *; destruct (ws1 (N_of_ascii a)); try done;
    unfold visible, in_range in Hc; simplify_bools.
  - assert (ws2 (N_of_ascii c) (N_of_ascii a) = false) as ->.
    { unfold ws2. by rewrite (proj2 (N.eqb_neq (N_of_ascii c) 194)) by lia. }
    destruct t as [|d t]; [done|]. unfold ws3.
    assert ((128 <=? N_of_ascii c)%N = false) as Hle by (apply N.leb_gt; lia).
    rewrite ?(proj2 (N.eqb_neq (N_of_ascii c) _)) by lia. by rewrite ?andb_false_r.
  - destruct (ws2 _ _); [done|]. unfold ws3. by rewrite !(proj2 (N.eqb_neq (N_of_ascii c) _)) by lia.
  - destruct (ws2 _ _); [done|]. by destruct (ws3 _ _ _).
Qed.

Lemma print_header_trimmed name value : name <> "" -> str_forallb header_char name = true ->
  value <> "" -> trimmed value -> trimmed (print_header (name, value)).
Proof.
  intros Hne Hname Hv [_ Hs]. unfold print_header; cbn. split.
  - destruct name as [|c name]; [done|]. rewrite str_app_cons. apply visible_ws_prefix, header_char_visible.
    by apply andb_true_iff in Hname as [? _].
  - rewrite !str_rev_app, str_app_assoc. apply ws_suffix_before_visible; [|done|done].
    intros Hr. apply Hv. by rewrite <- (str_rev_involutive value), Hr.
Qed.

Lemma header_ok_printed name value : header_ok name value ->
  line_ok (print_header (name, value)) /\ split_char "," (print_header (name, value)) = [print_header (name, value)]
  /\ forall headers, header_entry headers (print_header (name, value)) = Ok (<[name := value]> headers).
Proof.
  intros (Hu & Ht & Hcomma). pose proof (header_unsafe_false _ _ Hu) as (Hne & Hname & Hcr & Hnl).
  assert (Hv : value <> "").
  { intros ->. unfold header_unsafe in Hu. cbn in Hu. by rewrite orb_true_r in Hu. }
  assert (Hlacks : forall c, header_char c = false -> lacks c name = true).
  { intros c Hc. by apply (str_forallb_lacks header_char). }
  pose proof (print_header_trimmed name value Hne Hname Hv Ht) as Htrim.
  split_and!.
  - split; [|by apply trimmed_strip_cr]. unfold print_header; cbn [fst snd].
    by rewrite !lacks_app, Hnl, Hlacks.
  - apply split_char_lacks. unfold print_header; cbn [fst snd]. by rewrite !lacks_app, Hcomma, Hlacks.
  - intros headers. unfold header_entry. rewrite (trim_id _ Htrim).
    assert (is_empty (print_header (name, value)) = false) as ->.
    { unfold is_empty. apply String.eqb_neq. unfold print_header; cbn. by destruct name. }
    unfold print_header; cbn [fst snd]. change ("=" +:+ value) with (String "=" value).
    rewrite split_once_app by by apply Hlacks. rewrite (trim_id _ (header_name_trimmed _ Hname)), (trim_id _ Ht).
    by rewrite Hu.
Qed.

Lemma entries_printed l headers : Forall (fun h => header_ok h.1 h.2) l ->
  foldM_res header_entry headers (flat_map (split_char ",") (print_header <$> l))
  = Ok (foldl (fun m h => <[h.1 := h.2]> m) headers l).
Proof.
  intros Hl. revert headers. induction Hl as [|[name value] l Hh Hl IH]; intros headers; [done|].
  destruct (header_ok_printed name value Hh) as (_ & Hsplit & Hentry). cbn [fmap list_fmap flat_map]. rewrite Hsplit.
  cbn [app foldM_res]. rewrite Hentry. apply IH.
Qed.

Lemma foldl_inserts (l : list (string * string)) (m : gmap string string) : NoDup l.*1 ->
  foldl (fun m h => <[h.1 := h.2]> m) m l = list_to_map l ∪ m.
Proof.
  revert m. induction l as [|[k v] l IH]; intros m Hnd; [cbn; by rewrite (left_id_L ∅ (∪))|].
  cbn in Hnd |- *. apply list.NoDup_cons in Hnd as [Hk Hnd]. rewrite IH by done.
  rewrite <- insert_union_l. symmetry. by apply insert_union_r, not_elem_of_list_to_map.
Qed.

Lemma parse_printed m : map_Forall header_ok m -> parse_headers (print_headers m) = Ok m.
Proof.
  intros Hm. assert (Hl : Forall (fun h => header_ok h.1 h.2) (map_to_list m)).
  { apply list.Forall_forall. intros [k v] Hin%elem_of_map_to_list. by apply Hm. }
  unfold parse_headers, print_headers. rewrite lines_unlines.
  - rewrite entries_printed by done. f_equal. rewrite foldl_inserts by apply NoDup_fst_map_to_list.
    by rewrite list_to_map_to_list, map_union_empty.
  - rewrite list.Forall_fmap. eapply list.Forall_impl; [exact Hl|]. intros [k v] Hh. by apply header_ok_printed.
Qed.

Lemma header_entry_ok headers entry headers1 : lacks "," entry = true ->
  map_Forall header_ok headers -> header_entry headers entry = Ok headers1 -> map_Forall header_ok headers1.
Proof.
  intros Hentry Hheaders. unfold header_entry. destruct (is_empty _); [by intros [= <-]|].
  destruct (split_once "=" (trim entry)) as [[name value]|] eqn:Hs; [|done].
  destruct (header_unsafe _ _) eqn:Hu; [done|]. intros [= <-]. apply map_Forall_insert_2; [|done].
  split; [done|]. split; [apply trim_trimmed|]. apply lacks_trim.
  by apply (split_once_lacks _ _ _ _ _ Hs), lacks_trim.
Qed.

Lemma parsed_ok raw headers : parse_headers raw = Ok headers -> map_Forall header_ok headers.
Proof.
  unfold parse_headers. apply (foldM_res_ind_in (fun m => map_Forall header_ok m)); [|apply map_Forall_empty].
  intros m entry m1 Hin Hm. apply header_entry_ok; [|done]. apply list_elem_of_In, in_flat_map in Hin as (line & _ & Hin).
  apply list_elem_of_In in Hin. by eapply split_char_pieces_lack.
Qed.

(** the headers file.  The header maps that can be configured are exactly those
    of safe entries (an alphanumeric name of at most 128 bytes; a value of at most
    4096 bytes without line breaks or commas, and without surrounding white
    space), and printing such a map one entry a line and loading it again gives
    the same map. *)
Theorem headers_round_trip headers :
  ((exists raw, parse_headers raw = Ok headers) <-> map_Forall header_ok headers)
  /\ (parse_headers (print_headers headers) = Ok headers <-> map_Forall header_ok headers).
Proof.
  assert (Hprint : parse_headers (print_headers headers) = Ok headers <-> map_Forall header_ok headers).
  { split; [apply parsed_ok|apply parse_printed]. }
  split; [|done]. split; [intros [raw Hraw]; by eapply parsed_ok|]. intros Hm. exists (print_headers headers).
  by apply parse_printed.
Qed.

(** ** What the check says *)

Inductive TelemetryEvent : Type :=
  | Exported (at_ : N) (ok : bool)
  | Turned (at_ : N).

Definition exported (outcome : N * bool) (s : ExportStatus) : ExportStatus :=
  (export outcome.1 (if outcome.2 then Ok tt else Err tt) s).1.

Definition telemetry_step (t : Telemetry) (e : TelemetryEvent) : Telemetry :=
  match e with
  | Exported at_ ok =>
      {| te_publisher := t.(te_publisher); te_status := exported (at_, ok) t.(te_status);
         te_observed_failures := t.(te_observed_failures); te_recorded := t.(te_recorded) |}
  | Turned at_ => telemetry_turn at_ t
  end.

Definition telemetry_run (events : list TelemetryEvent) (t : Telemetry) : Telemetry := foldl telemetry_step t events.

Definition exports (events : list TelemetryEvent) : list (N * bool) :=
  omap (fun e => match e with Exported at_ ok => Some (at_, ok) | Turned _ => None end) events.

(** Clocks that do not go back, and fewer exports than a u64 counts. *)
Definition timely (l : list (N * bool)) : Prop :=
  StronglySorted N.le l.*1 /\ Forall (fun at_ => 0 < at_)%N l.*1 /\ (N.of_nat (length l) < 2 ^ 64)%N.

Definition times (ok : bool) (l : list (N * bool)) : list N :=
  omap (fun '(at_, ok1) => if Bool.eqb ok ok1 then Some at_ else None) l.

Definition status_of (l : list (N * bool)) : ExportStatus := foldl (fun s x => exported x s) ExportStatus_default l.

Definition last_time (l : list N) : N := default 0%N (list.last l).

Lemma times_snoc ok l at_ ok1 : times ok (l ++ [(at_, ok1)]) = times ok l ++ (if Bool.eqb ok ok1 then [at_] else []).
Proof. unfold times. rewrite omap_app. cbn. by destruct (Bool.eqb ok ok1). Qed.

Lemma length_times ok l : length (times ok l) <= length l.
Proof. unfold times. induction l as [|[at_ ok1] l IH]; [done|]. cbn. destruct (Bool.eqb ok ok1); cbn; lia. Qed.

Lemma status_of_spec l : (N.of_nat (length l) < 2 ^ 64)%N ->
  status_of l = {| ex_successful_exports := N.of_nat (length (times true l));
                   ex_failed_exports := N.of_nat (length (times false l));
                   ex_last_success := last_time (times true l); ex_last_failure := last_time (times false l) |}.
Proof.
  induction l as [|[at_ ok] l IH] using rev_ind; [done|]. rewrite length_app; cbn. intros Hlen.
  unfold status_of in *. rewrite foldl_app, IH by lia. rewrite !times_snoc.
  pose proof (length_times true l). pose proof (length_times false l).
  assert (Hwrap : forall n, (n <= length l)%nat -> wrapping_add 64 (N.of_nat n) 1 = N.of_nat (n + 1)).
  { intros n Hn. unfold wrapping_add. rewrite N.mod_small by lia. lia. }
  cbn [foldl]. unfold exported, export, success, failure, last_time.
  destruct ok; cbn [Bool.eqb fst snd ex_successful_exports ex_failed_exports ex_last_success ex_last_failure];
    rewrite ?app_nil_r, ?length_app, ?last_snoc, ?Hwrap by done; done.
Qed.

Lemma last_time_max l x : StronglySorted N.le l -> x ∈ l -> (x <= last_time l)%N.
Proof.
  induction l as [|y l IH] using rev_ind; [by rewrite elem_of_nil|]. intros Hs Hx. unfold last_time. rewrite last_snoc. cbn.
  apply elem_of_app in Hx as [Hx| ->%list_elem_of_singleton]; [|done].
  clear IH. induction l as [|z l IH]; [by apply elem_of_nil in Hx|].
  apply StronglySorted_inv in Hs as [Hs Hz]. apply elem_of_cons in Hx as [->|Hx]; [|by apply IH].
  rewrite list.Forall_forall in Hz. apply Hz. set_solver.
Qed.

Lemma last_time_in l : l <> [] -> last_time l ∈ l.
Proof.
  destruct l as [|y l _] using rev_ind; [done|]. intros _. unfold last_time. rewrite last_snoc. cbn. set_solver.
Qed.

Lemma times_elem ok l at_ : at_ ∈ times ok l <-> (at_, ok) ∈ l.
Proof.
  unfold times. rewrite list_elem_of_omap. split.
  - intros ([at1 ok1] & Hin & Heq). destruct (Bool.eqb ok ok1) eqn:E; [|done]. apply Bool.eqb_prop in E as ->. by injection Heq as ->.
  - intros Hin. exists (at_, ok). split; [done|]. by rewrite Bool.eqb_reflx.
Qed.

Lemma times_sorted ok l : StronglySorted N.le l.*1 -> StronglySorted N.le (times ok l).
Proof.
  induction l as [|[at_ ok1] l IH]; [constructor|]. cbn. intros [Hs Hall]%StronglySorted_inv.
  destruct (Bool.eqb ok ok1); [|by apply IH]. constructor; [by apply IH|].
  apply list.Forall_forall. intros x Hx. rewrite list.Forall_forall in Hall. apply Hall.
  apply list_elem_of_fmap. exists (x, ok). split; [done|]. by apply times_elem.
Qed.

(** A failure that no success followed. *)
Definition outlived (l : list (N * bool)) : Prop :=
  exists at_, (at_, false) ∈ l /\ forall at1, (at1, true) ∈ l -> (at1 < at_)%N.

Lemma failed_after_success_spec l : timely l -> failed_after_success (status_of l) = true <-> outlived l.
Proof.
  intros (Hs & Hpos & Hlen). rewrite status_of_spec by done.
  unfold failed_after_success, last_failure_unix_ms, last_success_unix_ms, nonzero; cbn.
  assert (Hp : forall ok at_, (at_, ok) ∈ l -> (0 < at_)%N).
  { intros ok at_ Hin. rewrite list.Forall_forall in Hpos. apply Hpos, list_elem_of_fmap. by exists (at_, ok). }
  assert (Hlast : forall ok, times ok l = [] /\ last_time (times ok l) = 0%N
    \/ (0 < last_time (times ok l))%N /\ (last_time (times ok l), ok) ∈ l).
  { intros ok. destruct (times ok l) as [|x t] eqn:E; [by left|]. right.
    assert (Hin : (last_time (x :: t), ok) ∈ l) by (rewrite <- times_elem, E; by apply last_time_in).
    split; [by eapply Hp|done]. }
  assert (Hmax : forall ok at_, (at_, ok) ∈ l -> (at_ <= last_time (times ok l))%N).
  { intros ok at_ Hin. apply last_time_max; [by apply times_sorted|]. by apply times_elem. }
  destruct (Hlast false) as [[Hnone ->]|[Hf Hfin]]; cbn [N.eqb].
  - split; [done|]. intros (at_ & Hin & _). apply times_elem in Hin. by rewrite Hnone, elem_of_nil in Hin.
  - rewrite (proj2 (N.eqb_neq (last_time (times false l)) 0)) by lia.
    destruct (Hlast true) as [[Hnone ->]|[Hok Hokin]]; cbn [N.eqb is_none_or].
    + split; [|done]. intros _. exists (last_time (times false l)). split; [done|]. intros at1 Hin.
      apply times_elem in Hin. by rewrite Hnone, elem_of_nil in Hin.
    + rewrite (proj2 (N.eqb_neq (last_time (times true l)) 0)) by lia. cbn [is_none_or]. rewrite N.ltb_lt. split.
      * intros Hlt. exists (last_time (times false l)). split; [done|]. intros at1 Hin%Hmax. lia.
      * intros (at_ & Hin & Hall). apply Hmax in Hin. specialize (Hall _ Hokin). lia.
Qed.

Lemma run_status events t : te_status (telemetry_run events t) = foldl (fun s x => exported x s) t.(te_status) (exports events).
Proof.
  revert t. induction events as [|e events IH]; intros t; [done|].
  change (telemetry_run (e :: events) t) with (telemetry_run events (telemetry_step t e)). rewrite IH. by destruct e.
Qed.

Lemma run_exports batch t :
  te_observed_failures (telemetry_run ((fun x => Exported x.1 x.2) <$> batch) t) = t.(te_observed_failures).
Proof. revert t. induction batch as [|x batch IH]; intros t; [done|]. by etrans; [apply (IH (telemetry_step t (Exported x.1 x.2)))|]. Qed.

Lemma exports_batch batch : exports ((fun x => Exported x.1 x.2) <$> batch) = batch.
Proof. induction batch as [|[at_ ok] batch IH]; [done|]. cbn. by f_equal. Qed.

Lemma exports_app l k : exports (l ++ k) = exports l ++ exports k.
Proof. apply omap_app. Qed.

Lemma observe_status p o now :
  sc_status <$> (observe p o now).(sp_inner).(sn_checks) !! o.(ob_id) = Some o.(ob_status).
Proof. by rewrite observe_checks, lookup_insert_eq. Qed.

(** The failures that the monitor knew of at its last turn. *)
Lemma run_observed before publisher : (N.of_nat (length (exports before)) < 2 ^ 64)%N ->
  before = [] \/ (exists at_, list.last before = Some (Turned at_)) ->
  te_observed_failures (telemetry_run before (telemetry_start publisher)) = N.of_nat (length (times false (exports before))).
Proof.
  intros Hlen [->|[at_ Hlast]]; [done|]. destruct before as [|e before _] using rev_ind; [done|].
  rewrite last_snoc in Hlast. injection Hlast as ->. rewrite exports_app in *. cbn in *. rewrite app_nil_r in *.
  unfold telemetry_run. rewrite foldl_app. cbn. fold (telemetry_run before (telemetry_start publisher)).
  rewrite run_status. cbn. fold (status_of (exports before)). by rewrite status_of_spec.
Qed.

(** What the monitor sees after a batch of exports. *)
Lemma batch_failed before batch :
  let l := exports before ++ batch in timely l ->
  export_failed (status_of l) (N.of_nat (length (times false (exports before)))) = true
  <-> (exists at_, (at_, false) ∈ batch) \/ outlived l.
Proof.
  intros l Htimely. unfold export_failed. rewrite orb_true_iff, failed_after_success_spec by done.
  assert (Hgrew : (N.of_nat (length (times false (exports before))) <? ex_failed_exports (status_of l))%N = true
    <-> exists at_, (at_, false) ∈ batch).
  { rewrite status_of_spec, N.ltb_lt by apply Htimely. cbn. subst l. unfold times at 2. rewrite omap_app, length_app.
    fold (times false (exports before)) (times false batch). setoid_rewrite <- times_elem.
    destruct (times false batch) as [|x k]; cbn; split; try lia.
    - intros [at_ Hin]. by apply elem_of_nil in Hin.
    - intros _. exists x. set_solver. }
  rewrite Hgrew. tauto.
Qed.

Lemma batch_succeeded l : timely l ->
  (0 <? ex_successful_exports (status_of l))%N = true <-> exists at_, (at_, true) ∈ l.
Proof.
  intros Htimely. rewrite status_of_spec, N.ltb_lt by apply Htimely. cbn. setoid_rewrite <- times_elem.
  destruct (times true l) as [|x k]; cbn; split; try lia.
  - intros [at_ Hin]. by apply elem_of_nil in Hin.
  - intros _. exists x. set_solver.
Qed.

Lemma turn_observes before batch now publisher :
  before = [] \/ (exists at_, list.last before = Some (Turned at_)) ->
  timely (exports before ++ batch) ->
  sc_status <$> (telemetry_run (before ++ ((fun x => Exported x.1 x.2) <$> batch) ++ [Turned now])
                   (telemetry_start publisher)).(te_publisher).(sp_inner).(sn_checks) !! "telemetry.otel"
  = Some (telemetry_observation (status_of (exports before ++ batch))
            (N.of_nat (length (times false (exports before))))).(ob_status).
Proof.
  intros Hbefore (_ & _ & Hlen). rewrite length_app in Hlen.
  set (t0 := telemetry_run (before ++ ((fun x => Exported x.1 x.2) <$> batch)) (telemetry_start publisher)).
  assert (Hst : t0.(te_status) = status_of (exports before ++ batch)).
  { subst t0. by rewrite run_status, exports_app, exports_batch. }
  assert (Hobs : t0.(te_observed_failures) = N.of_nat (length (times false (exports before)))).
  { subst t0. unfold telemetry_run. rewrite foldl_app. fold (telemetry_run before (telemetry_start publisher)).
    fold (telemetry_run ((fun x => Exported x.1 x.2) <$> batch) (telemetry_run before (telemetry_start publisher))).
    rewrite run_exports, run_observed; [done|lia|done]. }
  rewrite app_assoc. unfold telemetry_run at 1. rewrite foldl_app. fold t0. rewrite <- Hst, <- Hobs. apply observe_status.
Qed.

(** what the check of the exporters says.  Between two turns of the monitor any
    exports end well or badly; at a turn the check is degraded exactly when an
    export of this interval failed or a failure is newer than every success, it
    is healthy when neither holds and some export succeeded, and unknown exactly
    when nothing was exported yet. *)
Theorem export_verdict before batch now publisher :
  before = [] \/ (exists at_, list.last before = Some (Turned at_)) ->
  timely (exports before ++ batch) ->
  let l := exports before ++ batch in
  let t := telemetry_run (before ++ ((fun x => Exported x.1 x.2) <$> batch) ++ [Turned now]) (telemetry_start publisher) in
  let status := sc_status <$> t.(te_publisher).(sp_inner).(sn_checks) !! "telemetry.otel" in
  let failing := (exists at_, (at_, false) ∈ batch) \/ outlived l in
  (status = Some Degraded <-> failing)
  /\ (status = Some Healthy <-> ~ failing /\ exists at_, (at_, true) ∈ l)
  /\ (status = Some Unknown <-> l = []).
Proof.
  intros Hbefore Htimely l t status failing.
  pose proof (turn_observes before batch now publisher Hbefore Htimely : status = _) as ->.
  pose proof (batch_failed before batch Htimely : _ <-> failing) as Hfail.
  pose proof (batch_succeeded l Htimely) as Hgood. assert (Hout : outlived l -> failing) by (by right). clearbody failing. subst t. fold l in Hfail |- *.
  assert (Hnil : l = [] <-> ~ failing /\ ~ exists at_, (at_, true) ∈ l).
  { split.
    - intros Hl. rewrite <- Hfail, <- Hgood. unfold l in Hl |- *. apply app_eq_nil in Hl as [-> ->]. done.
    - intros [Hnf Hng]. destruct (list.last l) as [[at_ ok]|] eqn:Hl; [|by apply last_None in Hl].
      assert (Hin : (at_, ok) ∈ l) by by eapply last_Some_elem_of.
      destruct ok; [destruct Hng; eauto|]. destruct Hnf. apply Hout.
      exists at_. split; [done|]. intros at1 Hin1. destruct Hng. eauto. }
  rewrite Hnil. cbn [ob_status telemetry_observation].
  destruct (export_failed _ _); [|destruct (0 <? _)%N]; split_and!; split; try done; naive_solver.
Qed.

(** ** A run *)

Definition export_events : list TelemetryEvent :=
  [Turned 1; Exported 10 true; Exported 20 false; Turned 30; Exported 40 true; Turned 45; Turned 60].

Definition otel_verdict (events : list TelemetryEvent) : option CheckStatus :=
  sc_status <$> (telemetry_run events (telemetry_start (publisher_new snapshot_default))).(te_publisher).(sp_inner).(sn_checks)
    !! "telemetry.otel".

Example export_verdicts :
  otel_verdict (take 1 export_events) = Some Unknown /\ otel_verdict (take 4 export_events) = Some Degraded
  /\ otel_verdict (take 6 export_events) = Some Healthy /\ otel_verdict export_events = Some Healthy.
Proof. vm_compute. split_and!; reflexivity. Qed.

Lemma export_verdict_witness :
  otel_verdict (take 4 export_events) = Some Degraded
  <-> (exists at_, (at_, false) ∈ [(10, true); (20, false)]%N) \/ outlived [(10, true); (20, false)]%N.
Proof.
  pose proof (export_verdict [Turned 1] [(10, true); (20, false)]%N 30 (publisher_new snapshot_default)) as Hx.
  apply Hx.
  - right. by exists 1%N.
  - split; [repeat (constructor; try done)|]. split; [repeat constructor|vm_compute; reflexivity].
Defined.

(** ** The endpoints *)

(** A base that already names a signal is used as it is for that signal only. *)
Example signal_base_is_kept :
  signal_endpoint "https://c:4318/v1/traces" "traces" = "https://c:4318/v1/traces"
  /\ signal_endpoint "https://c:4318/v1/traces" "metrics" = "https://c:4318/v1/traces/v1/metrics".
Proof. split; reflexivity. Qed.
