(* ===== verification/VpnServer.v ===== *)
(** Reporting on the VPN server (src/src/vpn_server.rs, and monitor_vpn_server of
    src/src/runtime.rs): what the profile says about the peer, the endpoint the
    interface really uses, and the advisory latency to it.

    Programs answer as in [Machine]; how ping ends is [PingEnv].  What a program
    prints is taken as UTF-8. *)

From S2P Require Import Prelude RustStr Net BTree State Domain Float64 Config Control Machine StateErr WireGuard Profiles Enforcement Routes ProfileManager LeaseKeeper TunnelMonitor Notifications History NotificationManager.

Definition RECENT_SAMPLE_CAPACITY : nat := 20.

Record ConfiguredPeer : Type := {
  cp_endpoint_host : string;
  cp_endpoint_port : N;
  cp_address_family : string;
  cp_allowed_ips_posture : string;
  cp_provider_inferred : option string;
  cp_region_inferred : option string;
  cp_inference_source : option string;
  cp_inference_confidence : option string;
}.

(** ** The latency window *)

Record LatencyWindow : Type := { lw_samples : list (option f64); lw_total_samples : N }.
Definition window_default : LatencyWindow := {| lw_samples := []; lw_total_samples := 0 |}.

(** [LatencyWindow::record] *)
Definition record_sample (sample : option f64) (w : LatencyWindow) : LatencyWindow :=
  let kept := if (length w.(lw_samples) =? RECENT_SAMPLE_CAPACITY)%nat then tail w.(lw_samples) else w.(lw_samples) in
  {| lw_samples := kept ++ [sample]; lw_total_samples := saturating_add u64_MAX w.(lw_total_samples) 1 |}.

Definition sum_f64 (l : list f64) : f64 := foldl Binary64.add (Binary64.of_N 0) l.
Definition count_f64 {A} (l : list A) : f64 := Binary64.of_N (N.of_nat (length l)).

(** [Iterator::reduce] *)
Definition reduce {A} (f : A -> A -> A) (l : list A) : option A :=
  match l with [] => None | x :: l => Some (foldl f x l) end.

(** [LatencyWindow::state] *)
Definition window_state (w : LatencyWindow) (status : VpnServerLatencyStatus) (sampled_at : N) : VpnServerLatency :=
  let measured := omap (fun sample : option f64 => sample) w.(lw_samples) in
  {| vl_status := status;
     vl_sampled_at_unix_ms := Some sampled_at;
     vl_latest_rtt_ms := list.last w.(lw_samples) ≫= fun sample => sample;
     vl_recent_min_rtt_ms := reduce Binary64.fmin measured;
     vl_recent_average_rtt_ms :=
       match measured with [] => None | _ => Some (Binary64.div (sum_f64 measured) (count_f64 measured)) end;
     vl_recent_max_rtt_ms := reduce Binary64.fmax measured;
     vl_loss_ratio :=
       match w.(lw_samples) with
       | [] => None
       | _ => Some (Binary64.div (count_f64 (List.filter (fun sample => negb (is_some sample)) w.(lw_samples)))
                      (count_f64 w.(lw_samples)))
       end;
     vl_sample_count := w.(lw_total_samples) |}.

(** ** The configured peer *)

Definition parse_endpoint (endpoint : string) : Result (string * N) string :=
  match parse_socket endpoint with
  | Some socket => Ok (show_ip (socket_ip socket), socket_port socket)
  | None =>
      let? split := ok_or (rsplit_once ":" endpoint) "WireGuard Endpoint must contain a port" in
      let '(host, port) := split in
      let host := trim_matches (fun c => Ascii.eqb c "[" || Ascii.eqb c "]") host in
      let? _ := ensure
        (negb (is_empty host) && (String.length host <=? 253)%nat
         && str_forallb (fun c => is_ascii_alphanumeric c || Ascii.eqb c "-" || Ascii.eqb c "." || Ascii.eqb c ":") host)
        "WireGuard Endpoint host is empty, unsafe, or too long" in
      let? port := ok_or (parse_u16 port) "invalid port" in
      Ok (to_ascii_lowercase host, port)
  end.

Definition summarize_allowed_ips (value : string) : string :=
  let entries := List.filter (fun entry => negb (is_empty entry)) (trim <$> split_char "," value) in
  let ipv4_default := existsb (String.eqb "0.0.0.0/0") entries in
  let ipv6_default := existsb (String.eqb "::/0") entries in
  if ipv4_default then if ipv6_default then "ipv4_ipv6_default" else "ipv4_default"
  else if ipv6_default then "ipv6_default"
  else match entries with [] => "unspecified" | _ => "restricted_prefixes" end.

Definition infer_endpoint (host : string) : option string * option string * option string * option string :=
  let lower := to_ascii_lowercase host in
  if ends_with lower ".protonvpn.net" || ends_with lower ".protonvpn.com" then
    let first := default "" (head (split_char "." lower)) in
    let region :=
      match head (split_char "-" first) with
      | Some value =>
          if (String.length value =? 2)%nat && str_forallb is_ascii_alphabetic value
          then Some (to_ascii_uppercase value) else None
      | None => None
      end in
    (Some "Proton VPN", region, Some "configured_endpoint_hostname", Some "low")
  else (None, None, None, None).

(** The variables of the loop over the lines of a profile. *)
Record PeerScan : Type := {
  pn_in_peer : bool;
  pn_peer_count : nat;
  pn_endpoint : option string;
  pn_allowed_ips : option string;
}.

Definition scan_line (scan : PeerScan) (raw_line : string) : PeerScan :=
  let line := trim (default "" (head (split_char "#" raw_line))) in
  if String.eqb (to_ascii_lowercase line) "[peer]"
  then {| pn_in_peer := true; pn_peer_count := S scan.(pn_peer_count); pn_endpoint := scan.(pn_endpoint);
          pn_allowed_ips := scan.(pn_allowed_ips) |}
  else if starts_with line "["
  then {| pn_in_peer := false; pn_peer_count := scan.(pn_peer_count); pn_endpoint := scan.(pn_endpoint);
          pn_allowed_ips := scan.(pn_allowed_ips) |}
  else if negb scan.(pn_in_peer) then scan
  else
    match split_once "=" line with
    | None => scan
    | Some (key, value) =>
        let key := to_ascii_lowercase (trim key) in
        if String.eqb key "endpoint"
        then {| pn_in_peer := scan.(pn_in_peer); pn_peer_count := scan.(pn_peer_count);
                pn_endpoint := Some (trim value); pn_allowed_ips := scan.(pn_allowed_ips) |}
        else if String.eqb key "allowedips"
        then {| pn_in_peer := scan.(pn_in_peer); pn_peer_count := scan.(pn_peer_count);
                pn_endpoint := scan.(pn_endpoint); pn_allowed_ips := Some (trim value) |}
        else scan
    end.

Definition address_family (host : string) : string :=
  match parse_ip host with
  | Some (IpAddr_V4 _) => "ipv4"
  | Some (IpAddr_V6 _) => "ipv6"
  | None => "hostname"
  end.

Definition parse_wireguard_profile (profile : string) : Result ConfiguredPeer string :=
  let scan := foldl scan_line
    {| pn_in_peer := false; pn_peer_count := 0; pn_endpoint := None; pn_allowed_ips := None |} (lines profile) in
  let? _ := ensure (scan.(pn_peer_count) =? 1)%nat
    "exactly one WireGuard peer is required for VPN-server reporting" in
  let? endpoint := ok_or scan.(pn_endpoint) "peer has no Endpoint" in
  let? hp := parse_endpoint endpoint in
  let '(host, port) := hp in
  let '(provider, region, source, confidence) := infer_endpoint host in
  Ok {| cp_endpoint_host := host; cp_endpoint_port := port; cp_address_family := address_family host;
        cp_allowed_ips_posture := summarize_allowed_ips (default "" scan.(pn_allowed_ips));
        cp_provider_inferred := provider; cp_region_inferred := region; cp_inference_source := source;
        cp_inference_confidence := confidence |}.

Definition configured_status (peer : ConfiguredPeer) : VpnServerStatus :=
  {| vs_configured_endpoint_host := Some peer.(cp_endpoint_host);
     vs_configured_endpoint_port := Some peer.(cp_endpoint_port);
     vs_configured_address_family := Some peer.(cp_address_family);
     vs_allowed_ips_posture := peer.(cp_allowed_ips_posture);
     vs_runtime_endpoint_address := None; vs_runtime_endpoint_port := None;
     vs_provider_inferred := peer.(cp_provider_inferred); vs_region_inferred := peer.(cp_region_inferred);
     vs_inference_source := peer.(cp_inference_source);
     vs_inference_confidence := peer.(cp_inference_confidence); vs_active := false;
     vs_latest_handshake_unix := None; vs_handshake_age_seconds := None; vs_observed_at_unix_ms := None;
     vs_latency := latency_default |}.

(** [configured_peer_from_profile], [ProfileManager::configured_peer] *)
Definition peer_of_profile `{!IpNetCrate} (profile : WireGuardProfile) : option ConfiguredPeer :=
  res_ok (parse_wireguard_profile (render profile)).

(** ** The runtime endpoint and its latency *)

Inductive ProbeResult : Type :=
| ProbeMeasured (rtt_ms : f64) | ProbeTimeout | ProbeUnsupported | ProbeResolutionFailed | ProbeUnavailable.

(** [ProbeResult::status] *)
Definition probe_status (r : ProbeResult) : VpnServerLatencyStatus :=
  match r with
  | ProbeMeasured _ => Measured
  | ProbeTimeout => Timeout
  | ProbeUnsupported => Unsupported
  | ProbeResolutionFailed => ResolutionFailed
  | ProbeUnavailable => LatencyUnavailable
  end.

(** [ProbeResult::rtt] *)
Definition probe_rtt (r : ProbeResult) : option f64 :=
  match r with ProbeMeasured value => Some value | _ => None end.

Fixpoint find_map {A B} (f : A -> option B) (l : list A) : option B :=
  match l with
  | [] => None
  | x :: l => match f x with Some y => Some y | None => find_map f l end
  end.

Definition parse_ping_rtt (output : string) : option f64 :=
  find_map (fun line =>
    value ← find_map (fun field => strip_prefix field "time=") (split_whitespace line);
    Binary64.parse_f64 value) (lines output).

(** How ping ends under the timeout. *)
Inductive Ping : Type :=
| PingDone (output : string)
| PingExit (code : option Z)
| PingNotFound
| PingError (error : string)
| PingTimedOut.

Class PingEnv : Type := ping_ends : list Event -> list string -> Ping.

Section gateway.
Context `{!Env, !PingEnv}.

Definition runtime_endpoint (interface : string) : Gateway SocketAddr :=
  step r := perform (RunProgram "wg" ["show"; interface; "endpoints"]) in
  match r with
  | NotRun e => gw_fail e
  | Machine.Failed _ => gw_fail "wg endpoint query failed"
  | Done output =>
      let endpoints := List.filter (fun value => negb (String.eqb value "(none)"))
        (omap (fun line => split_whitespace line !! 1%nat) (lines output)) in
      match endpoints with
      | [value] =>
          match parse_socket value with
          | Some socket => gw_ret socket
          | None => gw_fail "runtime WireGuard endpoint is malformed"
          end
      | _ => gw_fail "runtime WireGuard endpoint is missing or ambiguous"
      end
  end.

Definition perform_ping (args : list string) : Gateway Ping := fun log =>
  let ends := ping_ends log args in
  (log ++ [(RunProgram "ping" args, match ends with PingDone output => Done output | _ => Machine.Failed "" end)], Ok ends).

Definition probe_endpoint (endpoint : SocketAddr) (tunnel_interface : string) (timeout_ms : N) : Gateway ProbeResult :=
  let address := show_ip (socket_ip endpoint) in
  step route := perform (RunProgram "ip" ["route"; "get"; address]) in
  match route with
  | NotRun e => gw_fail e
  | Machine.Failed _ => gw_ret ProbeResolutionFailed
  | Done route =>
      if existsb (String.eqb tunnel_interface) (split_whitespace route)
      then gw_fail "refusing to probe the WireGuard endpoint through the tunnel itself"
      else
        let timeout_seconds := show_N (saturating_add u64_MAX (N.max (timeout_ms / 1000) 1) 1) in
        step ends := perform_ping ["-n"; "-c"; "1"; "-W"; timeout_seconds; address] in
        match ends with
        | PingDone output =>
            match parse_ping_rtt output with
            | Some rtt => gw_ret (ProbeMeasured rtt)
            | None => gw_fail "ping succeeded without a parseable RTT"
            end
        | PingExit (Some 1%Z) => gw_ret ProbeTimeout
        | PingExit _ => gw_ret ProbeUnsupported
        | PingNotFound => gw_ret ProbeUnsupported
        | PingError e => gw_fail e
        | PingTimedOut => gw_ret ProbeTimeout
        end
  end.
End gateway.

(** ** The monitor *)

(** The state the monitor shares, and the variables of its loop. *)
Record Observer `{!IpNetCrate} : Type := {
  ob_keeper : Keeper;
  ob_log : list Event;
  ob_active : option WireGuardProfile;
  ob_history : option HistoryStore;
  ob_notifier : Notifier;
  ob_window : LatencyWindow;
  ob_previous_endpoint : option SocketAddr;
  ob_rtt_above : bool;
}.

Section monitor.
Context `{!IpNetCrate, !Env, !PingEnv, !KeeperEnv} (config : Config).

Definition O (A : Type) : Type := St Observer A.

Definition shared {A} (m : K A) : O A := fun s =>
  let '(k, r) := m s.(ob_keeper) in
  ({| ob_keeper := k; ob_log := s.(ob_log); ob_active := s.(ob_active); ob_history := s.(ob_history);
      ob_notifier := s.(ob_notifier); ob_window := s.(ob_window);
      ob_previous_endpoint := s.(ob_previous_endpoint); ob_rtt_above := s.(ob_rtt_above) |}, r).
Definition programs {A} (m : Gateway A) : O A := fun s =>
  let '(log, r) := m s.(ob_log) in
  ({| ob_keeper := s.(ob_keeper); ob_log := log; ob_active := s.(ob_active); ob_history := s.(ob_history);
      ob_notifier := s.(ob_notifier); ob_window := s.(ob_window);
      ob_previous_endpoint := s.(ob_previous_endpoint); ob_rtt_above := s.(ob_rtt_above) |}, r).
Definition set_window (f : LatencyWindow -> LatencyWindow) : O unit := modify (fun s =>
  {| ob_keeper := s.(ob_keeper); ob_log := s.(ob_log); ob_active := s.(ob_active); ob_history := s.(ob_history);
     ob_notifier := s.(ob_notifier); ob_window := f s.(ob_window);
     ob_previous_endpoint := s.(ob_previous_endpoint); ob_rtt_above := s.(ob_rtt_above) |}).
Definition set_endpoint (endpoint : SocketAddr) : O unit := modify (fun s =>
  {| ob_keeper := s.(ob_keeper); ob_log := s.(ob_log); ob_active := s.(ob_active); ob_history := s.(ob_history);
     ob_notifier := s.(ob_notifier); ob_window := s.(ob_window);
     ob_previous_endpoint := Some endpoint; ob_rtt_above := s.(ob_rtt_above) |}).
Definition sample_rtt (rtt_ms : f64) : O unit :=
  let* now := shared LeaseKeeper.unix_ms in
  modify (fun s =>
    let '(notifier, above) := rtt_sample rtt_ms now s.(ob_rtt_above) s.(ob_notifier) in
    {| ob_keeper := s.(ob_keeper); ob_log := s.(ob_log); ob_active := s.(ob_active); ob_history := s.(ob_history);
       ob_notifier := notifier; ob_window := s.(ob_window);
       ob_previous_endpoint := s.(ob_previous_endpoint); ob_rtt_above := above |}).
Definition record_history (o : VpnServerObservation) : O unit := modify (fun s =>
  {| ob_keeper := s.(ob_keeper); ob_log := s.(ob_log); ob_active := s.(ob_active);
     ob_history := (fun store => (record_vpn_server o store).1) <$> s.(ob_history);
     ob_notifier := s.(ob_notifier); ob_window := s.(ob_window);
     ob_previous_endpoint := s.(ob_previous_endpoint); ob_rtt_above := s.(ob_rtt_above) |}).

Definition set_vpn_server (v : VpnServerStatus) (s : CanonicalSnapshot) : CanonicalSnapshot :=
  {| sn_schema_version := s.(sn_schema_version); sn_sequence := s.(sn_sequence);
     sn_generated_at_unix_ms := s.(sn_generated_at_unix_ms); sn_protection := s.(sn_protection);
     sn_availability := s.(sn_availability); sn_checks := s.(sn_checks);
     sn_transitions := s.(sn_transitions); sn_port_forward := s.(sn_port_forward);
     sn_port_forwards := s.(sn_port_forwards); sn_recovery := s.(sn_recovery);
     sn_external_probe := s.(sn_external_probe); sn_external_probes := s.(sn_external_probes);
     sn_vpn_server := v; sn_isolation_policy := s.(sn_isolation_policy);
     sn_host_policy := s.(sn_host_policy); sn_topology := s.(sn_topology); sn_clients := s.(sn_clients);
     sn_traffic := s.(sn_traffic);
     sn_last_client_path_success_at_unix_ms := s.(sn_last_client_path_success_at_unix_ms);
     sn_profile_management := s.(sn_profile_management) |}.

(** What both closures of the monitor assign; the peer and the endpoint only
    when the endpoint is known. *)
Definition observed_server (now_ms : N) (handshake : option N) (active : bool)
    (known : option (ConfiguredPeer * SocketAddr)) (latency : VpnServerLatency) (v : VpnServerStatus) : VpnServerStatus :=
  {| vs_configured_endpoint_host :=
       match known with Some (peer, _) => Some peer.(cp_endpoint_host) | None => v.(vs_configured_endpoint_host) end;
     vs_configured_endpoint_port :=
       match known with Some (peer, _) => Some peer.(cp_endpoint_port) | None => v.(vs_configured_endpoint_port) end;
     vs_configured_address_family := v.(vs_configured_address_family);
     vs_allowed_ips_posture := v.(vs_allowed_ips_posture);
     vs_runtime_endpoint_address :=
       match known with
       | Some (_, endpoint) => Some (show_ip (socket_ip endpoint)) | None => v.(vs_runtime_endpoint_address) end;
     vs_runtime_endpoint_port :=
       match known with Some (_, endpoint) => Some (socket_port endpoint) | None => v.(vs_runtime_endpoint_port) end;
     vs_provider_inferred := v.(vs_provider_inferred); vs_region_inferred := v.(vs_region_inferred);
     vs_inference_source := v.(vs_inference_source); vs_inference_confidence := v.(vs_inference_confidence);
     vs_active := active; vs_latest_handshake_unix := handshake;
     vs_handshake_age_seconds := (fun value => saturating_sub (now_ms / 1000) value) <$> handshake;
     vs_observed_at_unix_ms := Some now_ms; vs_latency := latency |}.

Definition check_latency (status : CheckStatus) (reason_code message : string) : O unit :=
  shared (LeaseKeeper.observe
    {| ob_id := "vpn_server.latency"; ob_status := status; ob_impact := Optional; ob_reason_code := reason_code;
       ob_safe_message := message; ob_next_attempt_at_unix_ms := None; ob_recovery_attempt := None |}).

Definition latency_reason (status : VpnServerLatencyStatus) : string :=
  match status with
  | Measured => "vpn_server.latency_measured"
  | Timeout => "vpn_server.icmp_timeout"
  | Unsupported => "vpn_server.icmp_unsupported"
  | ResolutionFailed => "vpn_server.route_unavailable"
  | LatencyUnavailable => "vpn_server.probe_unavailable"
  end.

(** The branch of a known endpoint. *)
Definition observe_endpoint (peer : ConfiguredPeer) (now_ms : N) (handshake : option N) (active : bool)
    (endpoint : SocketAddr) : O unit :=
  let* previous := gets ob_previous_endpoint in
  let* _ :=
    match previous with
    | Some previous =>
        if bool_decide (previous = endpoint) then ret tt
        else shared (LeaseKeeper.emit "vpn_server.endpoint" "vpn_server.endpoint_changed" "The runtime WireGuard peer endpoint changed")
    | None => ret tt
    end in
  let* _ := set_endpoint endpoint in
  let* result :=
    if config.(c_vpn_server).(vs_latency_probe_enabled) then
      let* r := attempt (programs (probe_endpoint endpoint config.(c_wireguard).(wc_interface)
                                     config.(c_vpn_server).(vs_timeout_ms))) in
      ret (match r with Ok result => result | Err _ => ProbeUnavailable end)
    else ret ProbeUnsupported in
  let* _ := set_window (record_sample (probe_rtt result)) in
  let* _ := match probe_rtt result with Some rtt => sample_rtt rtt | None => ret tt end in
  let* window := gets ob_window in
  let latency := window_state window (probe_status result) now_ms in
  let* _ := shared (LeaseKeeper.mutate (fun s =>
    set_vpn_server (observed_server now_ms handshake active (Some (peer, endpoint)) latency s.(sn_vpn_server)) s)) in
  let* _ := record_history
    {| vo_timestamp_unix_ms := now_ms; vo_configured_endpoint_host := peer.(cp_endpoint_host);
       vo_runtime_endpoint_address := show_ip (socket_ip endpoint); vo_runtime_endpoint_port := socket_port endpoint;
       vo_active := active; vo_latency_status := probe_status result; vo_rtt_ms := probe_rtt result |} in
  check_latency (if bool_decide (probe_status result = Measured) then Healthy else Unknown)
    (latency_reason (probe_status result))
    (if bool_decide (probe_status result = Measured)
     then "Underlay latency to the active WireGuard endpoint was measured"
     else "WireGuard endpoint latency is unavailable; tunnel health is independent").

Definition endpoint_unavailable (now_ms : N) (handshake : option N) (active : bool) : O unit :=
  let* _ := set_window (record_sample None) in
  let* window := gets ob_window in
  let* _ := shared (LeaseKeeper.mutate (fun s =>
    set_vpn_server (observed_server now_ms handshake active None
                      (window_state window LatencyUnavailable now_ms) s.(sn_vpn_server)) s)) in
  check_latency Unknown "vpn_server.endpoint_unavailable"
    "The runtime WireGuard endpoint is unavailable for advisory latency sampling".

(** A turn of the loop. *)
Definition vpn_server_turn : O unit :=
  let* profile := gets ob_active in
  match profile ≫= peer_of_profile with
  | None => ret tt
  | Some peer =>
      let* now_ms := shared LeaseKeeper.unix_ms in
      let* read := attempt (programs (wireguard_handshake config.(c_wireguard).(wc_interface))) in
      let handshake := match read with Ok handshake => handshake | Err _ => None end in
      let active := is_recent (now_ms / 1000) handshake in
      let* endpoint := attempt (programs (runtime_endpoint config.(c_wireguard).(wc_interface))) in
      match endpoint with
      | Ok endpoint => observe_endpoint peer now_ms handshake active endpoint
      | Err _ => endpoint_unavailable now_ms handshake active
      end
  end.
End monitor.
