(* ===== verification/VpnServerProps.v ===== *)
(** The monitor of the VPN server: it never pings the endpoint through the
    tunnel, it only reports, and its latency figures are those of the last
    samples. *)

From S2P Require Import Prelude RustStr Net BTree Order State Domain Float64 Config ConfigProps Control Machine StateErr WireGuard WireGuardProps Profiles Enforcement Routes ProfileManager LeaseKeeper LeaseKeeperProps TunnelMonitor Probe ProbeProps Notifications History NotificationManager VpnServer.

(** ** The latency window *)

Definition last_n {A} (n : nat) (l : list A) : list A := drop (length l - n) l.

Lemma tail_drop {A} n (l : list A) : tail (drop n l) = drop (S n) l.
Proof. revert n. induction l as [|x l IH]; intros [|n]; [done..|by destruct l|apply IH]. Qed.

Lemma last_n_snoc {A} n (l : list A) x :
  last_n (S n) (l ++ [x])
  = (if (length (last_n (S n) l) =? S n)%nat then tail (last_n (S n) l) else last_n (S n) l) ++ [x].
Proof.
  unfold last_n. rewrite length_app, length_drop. cbn [length].
  destruct (Nat.eqb_spec (length l - (length l - S n)) (S n)).
  - replace (length l + 1 - S n) with (S (length l - S n)) by lia.
    rewrite tail_drop, drop_app_le by lia. done.
  - replace (length l + 1 - S n) with 0 by lia. by replace (length l - S n) with 0 by lia.
Qed.

Definition window_of (samples : list (option f64)) : LatencyWindow :=
  foldl (fun w sample => record_sample sample w) window_default samples.

Lemma window_of_samples samples :
  window_of samples
  = {| lw_samples := last_n RECENT_SAMPLE_CAPACITY samples;
       lw_total_samples := N.min u64_MAX (N.of_nat (length samples)) |}.
Proof.
  induction samples as [|sample samples IH] using rev_ind; [done|].
  unfold window_of in *. rewrite foldl_app, IH. cbn [foldl]. unfold record_sample. cbn [lw_samples lw_total_samples].
  f_equal; [symmetry; apply last_n_snoc|].
  rewrite length_app. cbn [length]. unfold saturating_add. lia.
Qed.

(** the published latency summarises exactly the last twenty samples: the
    latest round-trip time is that of the last sample, the loss ratio counts the
    samples without an answer among those twenty, and the number of samples
    counts all of them up to the bound of its type. *)
Theorem latency_of_last_samples samples status at_ms :
  let recent := last_n RECENT_SAMPLE_CAPACITY samples in
  let latency := window_state (window_of samples) status at_ms in
  length recent = Nat.min RECENT_SAMPLE_CAPACITY (length samples)
  /\ latency.(vl_status) = status /\ latency.(vl_sampled_at_unix_ms) = Some at_ms
  /\ latency.(vl_latest_rtt_ms) = list.last samples ≫= id
  /\ latency.(vl_loss_ratio)
     = (if bool_decide (samples = []) then None
        else Some (Binary64.div (count_f64 (List.filter (fun sample => negb (is_some sample)) recent)) (count_f64 recent)))
  /\ (latency.(vl_recent_average_rtt_ms) = None <-> Forall (fun sample => sample = None) recent)
  /\ latency.(vl_sample_count) = N.min u64_MAX (N.of_nat (length samples)).
Proof.
  cbv zeta. rewrite window_of_samples. unfold window_state. cbn -[last_n N.min u64_MAX].
  assert (Hlen : length (last_n RECENT_SAMPLE_CAPACITY samples) = Nat.min RECENT_SAMPLE_CAPACITY (length samples)).
  { unfold last_n. rewrite length_drop. lia. }
  split_and!; try done.
  - destruct samples as [|sample samples _] using rev_ind; [done|].
    by rewrite (last_n_snoc 19), !last_snoc.
  - destruct (last_n _ samples) eqn:Hl.
    + apply (f_equal length) in Hl. rewrite Hlen in Hl. by destruct samples.
    + destruct samples; [done|]. by rewrite bool_decide_false by done.
  - clear Hlen. induction (last_n _ samples) as [|[x|] l IH]; cbn; [by split|split; [done|]|].
    + intros Hf. inversion Hf as [|? ? Hx _]. discriminate Hx.
    + rewrite list.Forall_cons. naive_solver.
Qed.

(** ** Pings outside the tunnel *)

(** Every ping follows a look at the route to its address which does not leave
    through the tunnel. *)
Definition pings_bypass (tunnel : string) (log : list Event) : Prop :=
  forall before args r after, log = before ++ (RunProgram "ping" args, r) :: after ->
    exists before0 address route,
      before = before0 ++ [(RunProgram "ip" ["route"; "get"; address], Done route)]
      /\ list.last args = Some address /\ tunnel ∉ split_whitespace route.

Definition is_ping (a : Action) : bool :=
  match a with RunProgram program _ => String.eqb program "ping" | _ => false end.

Lemma snoc_split {A} (l : list A) x before y after :
  l ++ [x] = before ++ y :: after ->
  (after = [] /\ x = y /\ l = before) \/ exists after0, l = before ++ y :: after0.
Proof.
  destruct after as [|z after _] using rev_ind.
  - intros [-> [= ->]]%app_inj_tail. by left.
  - rewrite app_comm_cons, app_assoc. intros [-> ->]%app_inj_tail. eauto.
Qed.

Lemma pings_bypass_other tunnel log a r :
  is_ping a = false -> pings_bypass tunnel log -> pings_bypass tunnel (log ++ [(a, r)]).
Proof.
  intros Ha Hlog before args r0 after Heq. apply snoc_split in Heq as [(_ & Hp & _)|[after0 Heq]]; [|eauto].
  injection Hp as -> ->. discriminate Ha.
Qed.

Lemma pings_bypass_ping tunnel log address route args r :
  tunnel ∉ split_whitespace route -> list.last args = Some address ->
  pings_bypass tunnel (log ++ [(RunProgram "ip" ["route"; "get"; address], Done route)]) ->
  pings_bypass tunnel
    ((log ++ [(RunProgram "ip" ["route"; "get"; address], Done route)]) ++ [(RunProgram "ping" args, r)]).
Proof.
  intros Ht Hargs Hlog before args0 r0 after Heq.
  apply snoc_split in Heq as [(-> & Hp & Hl)|[after0 Heq]]; [|eauto].
  injection Hp as <- <-. eauto 10.
Qed.

Lemma not_existsb_elem x l : existsb (String.eqb x) l = false -> x ∉ l.
Proof.
  intros He Hin. apply not_true_iff_false in He. apply He, existsb_exists. exists x.
  split; [by apply list_elem_of_In|apply String.eqb_refl].
Qed.

Section monitor.
Context `{!IpNetCrate, !Env, !PingEnv, !KeeperEnv} (config : Config).

#[local] Notation tunnel := (config.(c_wireguard).(wc_interface)).

Lemma endpoint_probe_bypasses endpoint timeout_ms : keeps (pings_bypass tunnel) (probe_endpoint endpoint tunnel timeout_ms).
Proof.
  intros log Hlog. unfold probe_endpoint, gw_bind, perform.
  destruct (reply log _) as [e|e|route] eqn:Hr; [by apply pings_bypass_other..|].
  assert (Hlog1 := pings_bypass_other tunnel log (RunProgram "ip" ["route"; "get"; show_ip (socket_ip endpoint)])
    (Done route) eq_refl Hlog).
  destruct (existsb _ _) eqn:He; [exact Hlog1|]. apply not_existsb_elem in He.
  unfold perform_ping. cbv zeta.
  assert (Hping : forall r, pings_bypass tunnel ((log ++ [(RunProgram "ip" ["route"; "get"; show_ip (socket_ip endpoint)], Done route)])
     ++ [(RunProgram "ping" ["-n"; "-c"; "1"; "-W"; show_N (saturating_add u64_MAX (N.max (timeout_ms / 1000) 1) 1);
            show_ip (socket_ip endpoint)], r)])) by (intros r; by apply pings_bypass_ping).
  destruct (ping_ends _ _) as [output|[[|[]|]|]| | |]; try apply Hping.
  destruct (parse_ping_rtt output); apply Hping.
Qed.

Lemma quiet_bypasses {A} (m : Gateway A) : performs (fun a => negb (is_ping a)) m -> keeps (pings_bypass tunnel) m.
Proof.
  intros Hm. apply (performs_triple _ _ _ Hm). intros log a r Ha. apply pings_bypass_other. by destruct (is_ping a).
Qed.

(** ** Only reports *)

(** What a step of the monitor leaves alone, and what it keeps. *)
Record reports_only (s s1 : Observer) : Prop := {
  ro_pings : pings_bypass tunnel s.(ob_log) -> pings_bypass tunnel s1.(ob_log);
  ro_keeper : aggregated (inner s.(ob_keeper)) ->
    aggregated (inner s1.(ob_keeper)) /\ guards (inner s1.(ob_keeper)) = guards (inner s.(ob_keeper));
  ro_policy : s1.(ob_keeper).(k_policy) = s.(ob_keeper).(k_policy);
  ro_leases : s1.(ob_keeper).(k_leases) = s.(ob_keeper).(k_leases);
  ro_app : s1.(ob_keeper).(k_app) = s.(ob_keeper).(k_app);
  ro_active : s1.(ob_active) = s.(ob_active);
  ro_family : (inner s1.(ob_keeper)).(sn_vpn_server).(vs_configured_address_family)
              = (inner s.(ob_keeper)).(sn_vpn_server).(vs_configured_address_family);
  ro_posture : (inner s1.(ob_keeper)).(sn_vpn_server).(vs_allowed_ips_posture)
               = (inner s.(ob_keeper)).(sn_vpn_server).(vs_allowed_ips_posture);
  ro_window : length s.(ob_window).(lw_samples) <= RECENT_SAMPLE_CAPACITY ->
    length s1.(ob_window).(lw_samples) <= RECENT_SAMPLE_CAPACITY;
}.

#[export] Instance reports_only_preorder : PreOrder reports_only.
Proof.
  split; [by intros s; split|]. intros s s1 s2 Hr1 Hr2. destruct Hr1, Hr2.
  split; try (etrans; eassumption || (symmetry; eassumption)); try congruence; auto.
  intros Ha. destruct (ro_keeper0 Ha) as [Ha1 Hg1]. destruct (ro_keeper1 Ha1) as [Ha2 Hg2]. split; congruence || done.
Qed.

Definition reporting {A} (m : O A) : Prop := forall s, reports_only s (m s).1 /\ exists a, (m s).2 = Ok a.

Lemma vs_reporting_bind {A B} (m : O A) (f : A -> O B) :
  reporting m -> (forall a, reporting (f a)) -> reporting (bind m f).
Proof.
  intros Hm Hf s. destruct (Hm s) as [Hs (a & Ha)]. unfold bind. destruct (m s) as [s1 r]. cbn in *. subst r.
  destruct (Hf a s1) as [Hs1 Hr]. split; [by etrans|done].
Qed.

Lemma vs_reporting_ret {A} (a : A) : reporting (ret a).
Proof. intros s. split; [done|by eexists]. Qed.
Lemma vs_reporting_gets {A} (f : Observer -> A) : reporting (gets f).
Proof. intros s. split; [done|by eexists]. Qed.
Lemma vs_reporting_modify f : (forall s, reports_only s (f s)) -> reporting (modify f).
Proof. intros Hf s. split; [apply Hf|by eexists]. Qed.

Lemma vs_reporting_programs {A} (m : Gateway A) : keeps (pings_bypass tunnel) m -> reporting (attempt (programs m)).
Proof.
  intros Hm s. unfold attempt, programs. specialize (Hm s.(ob_log)).
  split; [|destruct (m _); by eexists]. destruct (m s.(ob_log)) as [log r]. cbn. split; cbn; try done.
  intros Hlog. specialize (Hm Hlog). by destruct r.
Qed.

(** What the monitor does with the shared publisher. *)
Lemma vs_reporting_published (g : StatePublisher -> N -> StatePublisher) :
  (forall p now, aggregated p.(sp_inner) ->
     aggregated (g p now).(sp_inner) /\ guards (g p now).(sp_inner) = guards p.(sp_inner)) ->
  (forall p now,
     (g p now).(sp_inner).(sn_vpn_server).(vs_configured_address_family)
       = p.(sp_inner).(sn_vpn_server).(vs_configured_address_family)
     /\ (g p now).(sp_inner).(sn_vpn_server).(vs_allowed_ips_posture)
       = p.(sp_inner).(sn_vpn_server).(vs_allowed_ips_posture)) ->
  reporting (shared (let* now := LeaseKeeper.unix_ms in
                     modify (fun s => with_publisher (g s.(k_publisher) now) s))).
Proof.
  intros Ha Hf s. split; [|by eexists].
  destruct (Hf s.(ob_keeper).(k_publisher) (clock s.(ob_keeper).(k_asked))) as [Hf1 Hf2].
  split; cbn; try done. apply Ha.
Qed.

Lemma vs_reporting_now : reporting (shared LeaseKeeper.unix_ms).
Proof. intros s. split; [by split|by eexists]. Qed.

Lemma vs_reporting_mutate f :
  (forall s, sn_checks (f s) = sn_checks s
    /\ (f s).(sn_vpn_server).(vs_configured_address_family) = s.(sn_vpn_server).(vs_configured_address_family)
    /\ (f s).(sn_vpn_server).(vs_allowed_ips_posture) = s.(sn_vpn_server).(vs_allowed_ips_posture)) ->
  reporting (shared (LeaseKeeper.mutate f)).
Proof.
  intros Hf. apply (vs_reporting_published (fun p now => Control.mutate p f now)).
  - intros p now _. unfold guards. cbn. by destruct (Hf p.(sp_inner)) as (-> & _ & _).
  - intros p now. apply Hf.
Qed.

Lemma vs_reporting_emit component reason_code message : reporting (shared (LeaseKeeper.emit component reason_code message)).
Proof.
  apply (vs_reporting_published (fun p now => Control.emit p component reason_code message now)); by intros p now.
Qed.

Lemma vs_reporting_check status reason_code message : reporting (check_latency status reason_code message).
Proof.
  unfold check_latency.
  apply (vs_reporting_published (fun p now => Control.observe p _ now)).
  - intros p now _. unfold guards, aggregated. cbn. unfold Control.observe.
    destruct (observation_changed _ _ _); cbn; by rewrite !lookup_insert_ne by done.
  - intros p now. unfold Control.observe. by destruct (observation_changed _ _ _).
Qed.

Lemma record_sample_bounded sample w :
  length w.(lw_samples) <= RECENT_SAMPLE_CAPACITY ->
  length (record_sample sample w).(lw_samples) <= RECENT_SAMPLE_CAPACITY.
Proof.
  intros Hw. unfold record_sample. cbn [lw_samples]. rewrite length_app. cbn [length].
  destruct (Nat.eqb_spec (length (lw_samples w)) RECENT_SAMPLE_CAPACITY) as [He|]; [|lia].
  destruct (lw_samples w); cbn in *; unfold RECENT_SAMPLE_CAPACITY in *; lia.
Qed.

Lemma vs_reporting_turn : reporting (vpn_server_turn config).
Proof.
  assert (Hhandshake : performs (fun a => negb (is_ping a)) (wireguard_handshake tunnel)).
  { unfold wireguard_handshake. apply performs_bind; [by apply performs_perform|]. intros []; auto with gateway. }
  assert (Hendpoint : performs (fun a => negb (is_ping a)) (runtime_endpoint tunnel)).
  { unfold runtime_endpoint. apply performs_bind; [by apply performs_perform|]. intros []; auto with gateway.
    destruct (List.filter _ _) as [|? []]; auto with gateway. destruct (parse_socket _); auto with gateway. }
  assert (Hprobe := endpoint_probe_bypasses).
  unfold vpn_server_turn, observe_endpoint, endpoint_unavailable, set_window, set_endpoint, sample_rtt, record_history.
  repeat first
    [ progress cbv beta iota zeta
    | lazymatch goal with
      | |- reporting (bind _ _) => apply vs_reporting_bind; [|intros ?]
      | |- reporting (ret _) => apply vs_reporting_ret
      | |- reporting (gets _) => apply vs_reporting_gets
      | |- reporting (shared LeaseKeeper.unix_ms) => apply vs_reporting_now
      | |- reporting (shared (LeaseKeeper.emit _ _ _)) => apply vs_reporting_emit
      | |- reporting (shared (LeaseKeeper.mutate _)) => apply vs_reporting_mutate; by intros ?
      | |- reporting (check_latency _ _ _) => apply vs_reporting_check
      | |- reporting (attempt (programs _)) => apply vs_reporting_programs; auto using quiet_bypasses
      | |- reporting (modify _) => apply vs_reporting_modify; intros ?
      | |- reports_only _ (let '(_, _) := ?p in _) => destruct p
      | |- reports_only _ _ => by split; cbn -[record_sample]; auto using record_sample_bounded
      end
    | match goal with |- reporting (match ?x with _ => _ end) => destruct x end ].
Qed.

(** latency is measured outside the tunnel.  Over any number of turns, and
    whatever the programs answer, every ping that the monitor runs comes right
    after a query of the route to the same address which succeeded and does not
    name the tunnel interface. *)
Theorem latency_probe_bypasses_tunnel n s :
  s.(ob_log) = [] ->
  pings_bypass tunnel (Nat.iter n (fun s => (vpn_server_turn config s).1) s).(ob_log).
Proof.
  intros Hlog.
  assert (Hiter : reports_only s (Nat.iter n (fun s => (vpn_server_turn config s).1) s)).
  { induction n as [|n IH]; [done|]. etrans; [exact IH|]. apply vs_reporting_turn. }
  apply (ro_pings _ _ Hiter). rewrite Hlog. intros before args r after Heq. by destruct before.
Qed.

(** the monitor of the server only reports.  A turn ends well whatever the
    programs answer, leaves the enforcement, the leases, the gateway's state and
    the active profile alone, and with them the published protection and the
    checks it is derived from; it does not refresh what is published of the
    profile's address family and allowed addresses either. *)
Theorem vpn_server_is_advisory s :
  aggregated (inner s.(ob_keeper)) ->
  exists s1, vpn_server_turn config s = (s1, Ok tt)
    /\ s1.(ob_keeper).(k_policy) = s.(ob_keeper).(k_policy)
    /\ s1.(ob_keeper).(k_leases) = s.(ob_keeper).(k_leases)
    /\ s1.(ob_keeper).(k_app) = s.(ob_keeper).(k_app)
    /\ s1.(ob_active) = s.(ob_active)
    /\ (inner s1.(ob_keeper)).(sn_protection) = (inner s.(ob_keeper)).(sn_protection)
    /\ (inner s1.(ob_keeper)).(sn_vpn_server).(vs_configured_address_family)
       = (inner s.(ob_keeper)).(sn_vpn_server).(vs_configured_address_family)
    /\ (inner s1.(ob_keeper)).(sn_vpn_server).(vs_allowed_ips_posture)
       = (inner s.(ob_keeper)).(sn_vpn_server).(vs_allowed_ips_posture).
Proof.
  intros Hs. destruct (vs_reporting_turn s) as [Hr ([] & Hok)]. exists (vpn_server_turn config s).1.
  split; [by rewrite <- Hok; destruct (vpn_server_turn config s)|]. destruct Hr.
  split_and!; try done. destruct (ro_keeper0 Hs) as [Ha Hg]. rewrite Ha, Hs. by apply guards_protection.
Qed.
End monitor.

(** ** A run *)

#[local] Existing Instance CidrNet.crate.
#[local] Existing Instance LeaseKeeperProps.example_gateway.

#[local] Instance example_answers : Env := fun _ a =>
  match a with
  | RunProgram "wg" [_; _; "latest-handshakes"] => Done ("key" +:+ String "009" EmptyString +:+ "1")
  | RunProgram "wg" [_; _; "endpoints"] => Done ("key" +:+ String "009" EmptyString +:+ "203.0.113.7:51820")
  | RunProgram "ip" _ => Done "203.0.113.7 via 10.0.0.1 dev eth0 src 10.0.0.9"
  | _ => NotRun "not found"
  end.
#[local] Instance example_ping : PingEnv := fun _ _ => PingDone "64 bytes from 203.0.113.7: icmp_seq=1 ttl=57 time=12.5 ms".

Definition probing_config : @Config CidrNet.crate :=
  let c := example_config in
  {| c_listen := c.(c_listen); c_docker_socket := c.(c_docker_socket); c_network := c.(c_network);
     c_wireguard := c.(c_wireguard); c_port_forwarding := c.(c_port_forwarding); c_dns := c.(c_dns);
     c_probe := c.(c_probe); c_external_probe := c.(c_external_probe); c_identity := c.(c_identity);
     c_persistence := c.(c_persistence); c_otel := c.(c_otel);
     c_vpn_server := {| vs_latency_probe_enabled := true; vs_interval_seconds := 30; vs_timeout_ms := 2000 |};
     c_recovery := c.(c_recovery); c_reconcile := c.(c_reconcile); c_kubernetes := c.(c_kubernetes) |}.

Definition observer_start : Observer := {|
  ob_keeper := keeper_start example_app (publisher_new snapshot_default); ob_log := [];
  ob_active := Some sample_profile; ob_history := None;
  ob_notifier := {| nm_settings := settings_default; nm_queue := [] |}; ob_window := window_default;
  ob_previous_endpoint := None; ob_rtt_above := false |}.

Example observer_measures :
  let s1 := (vpn_server_turn probing_config observer_start).1 in
  let v := (inner s1.(ob_keeper)).(sn_vpn_server) in
  v.(vs_latency).(vl_status) = Measured
  /\ v.(vs_latency).(vl_latest_rtt_ms) = Binary64.parse_f64 "12.5"
  /\ v.(vs_configured_endpoint_host) = Some "vpn.example.net"
  /\ v.(vs_runtime_endpoint_address) = Some "203.0.113.7"
  /\ map fst s1.(ob_log) =
       [RunProgram "wg" ["show"; "wg0"; "latest-handshakes"]; RunProgram "wg" ["show"; "wg0"; "endpoints"];
        RunProgram "ip" ["route"; "get"; "203.0.113.7"];
        RunProgram "ping" ["-n"; "-c"; "1"; "-W"; "3"; "203.0.113.7"]].
Proof. vm_compute. split_and!; reflexivity. Qed.

Lemma latency_probe_bypasses_tunnel_witness :
  observer_start.(ob_log) = []
  /\ pings_bypass probing_config.(c_wireguard).(wc_interface)
       (Nat.iter 3 (fun s => (vpn_server_turn probing_config s).1) observer_start).(ob_log).
Proof. split; [reflexivity|]. apply (latency_probe_bypasses_tunnel probing_config 3 observer_start eq_refl). Defined.

Lemma vpn_server_is_advisory_witness :
  aggregated (inner observer_start.(ob_keeper))
  /\ (inner (vpn_server_turn probing_config observer_start).1.(ob_keeper)).(sn_protection)
     = (inner observer_start.(ob_keeper)).(sn_protection).
Proof.
  assert (Ha : aggregated (inner observer_start.(ob_keeper))) by (vm_compute; reflexivity). split; [exact Ha|].
  destruct (vpn_server_is_advisory probing_config observer_start Ha) as (s1 & Hturn & _ & _ & _ & _ & Hp & _).
  rewrite Hturn. exact Hp.
Defined.
