(* ===== verification/AdminAuth.v ===== *)
(** Authentication of the administrative requests (the [AdminAuth] of
    src/src/web.rs): the bearer token, the sessions that a login opens, and the
    check of the origin.

    A request brings its headers; the readings of the clock, the random bytes
    of a session and what a file holds are given by the environment. *)

From S2P Require Import Prelude RustStr Net State Domain Config Machine WireGuard Profiles ProfileManager Notifications.

(** The codes of the http crate that the handlers answer with. *)
Inductive StatusCode : Type :=
| OK | CREATED | NO_CONTENT | BAD_REQUEST | UNAUTHORIZED | FORBIDDEN | UNPROCESSABLE_ENTITY
| INTERNAL_SERVER_ERROR | BAD_GATEWAY | SERVICE_UNAVAILABLE.
#[export] Instance StatusCode_eq_dec : EqDecision StatusCode.
Proof. solve_decision. Defined.

(** ** Headers *)

(** The http crate's map: the names are in lower case, a value is bytes. *)
Definition HeaderMap : Type := list (string * string).

(** [headers.get(name)]: the first value of the name. *)
Definition header_get (headers : HeaderMap) (name : string) : option string :=
  snd <$> find (fun field => String.eqb field.1 name) headers.

(** [HeaderValue::to_str] *)
Definition to_str (value : string) : option string :=
  if str_forallb (fun c => in_range 32 126 c || Ascii.eqb c "009") value then Some value else None.

Definition header_str (headers : HeaderMap) (name : string) : option string := header_get headers name ≫= to_str.

(** [url.port()]; [None] also stands for the default port of the scheme. *)
Class UrlPort `{!UrlCrate} : Type := url_port : Url -> option N.

(** [URL_SAFE_NO_PAD.encode] of the base64 crate *)
Class Base64Crate : Type := base64_url_encode : list N -> string.

(** ** Comparison of secrets *)

Definition bytes_of (s : string) : list N := N_of_ascii <$> chars s.

Definition constant_time_equal (left right : list N) : bool :=
  if negb (length left =? length right)%nat then false
  else (foldl (fun difference '(l, r) => N.lor difference (N.lxor l r)) 0 (zip left right) =? 0)%N.

(** ** State *)

Record AdminAuth : Type := {
  aa_token : option string;
  aa_trusted_origins : list string;
  (** the instants, in nanoseconds, at which the sessions expire *)
  aa_sessions : gmap string N;
}.

Definition with_sessions (sessions : gmap string N) (a : AdminAuth) : AdminAuth :=
  {| aa_token := a.(aa_token); aa_trusted_origins := a.(aa_trusted_origins); aa_sessions := sessions |}.

(** 8 hours *)
Definition SESSION_LIFETIME : N := 8 * 60 * 60 * 1000000000.

Section load.
Context `{!Env, !ProfileFiles}.

Definition read_protected_token (path : string) : Gateway string := fun log =>
  match metadata log path with
  | NotFound => (log, Err "not found")
  | MetadataError e => (log, Err e)
  | MetadataIs is_file len mode =>
      if negb is_file || (4096 <? len)%N
      then (log, Err "admin token must be a regular file no larger than 4 KiB")
      else if negb (N.land mode 63 =? 0)%N
      then (log, Err "admin token must not be readable by group or others")
      else
        (step contents := file_op (ReadFile path) in
         let token := trim contents in
         if (String.length token <? 32)%nat || (512 <? String.length token)%nat
         then gw_fail "admin token must contain 32-512 characters"
         else gw_ret token) log
  end.

(** [AdminAuth::load] *)
Definition load_auth (config : WireGuardConfig) : Gateway AdminAuth :=
  step token :=
    match config.(wc_admin_token_path) with
    | Some path => step token := read_protected_token path in gw_ret (Some token)
    | None => gw_ret None
    end in
  gw_ret {| aa_token := token; aa_trusted_origins := config.(wc_trusted_origins); aa_sessions := ∅ |}.
End load.

Section auth.
Context `{!UrlCrate, !UrlPort, !Base64Crate}.

Definition check_token (a : AdminAuth) (supplied : string) : Result unit StatusCode :=
  let? expected := ok_or a.(aa_token) FORBIDDEN in
  ensure (constant_time_equal (bytes_of supplied) (bytes_of expected)) UNAUTHORIZED.

(** Whether the origin names the host that the request was sent to. *)
Definition same_origin (origin : string) (direct_host : option string) : bool :=
  match url_parse origin with
  | None => false
  | Some url =>
      match url_host_str url with
      | None => false
      | Some host =>
          let authority := match url_port url with Some port => host +:+ ":" +:+ show_N port | None => host end in
          bool_decide (direct_host = Some authority)
      end
  end.

Definition check_origin (a : AdminAuth) (headers : HeaderMap) : Result unit StatusCode :=
  match header_str headers "origin" with
  | None => Ok tt
  | Some origin =>
      ensure (same_origin origin (header_str headers "host") || existsb (String.eqb origin) a.(aa_trusted_origins))
        FORBIDDEN
  end.

Definition session_name (random : list N) : string := base64_url_encode random.

Definition login (a : AdminAuth) (supplied : string) (headers : HeaderMap) (random : list N) (now : N)
    : AdminAuth * Result string StatusCode :=
  match check_origin a headers with
  | Err e => (a, Err e)
  | Ok _ =>
      match check_token a supplied with
      | Err e => (a, Err e)
      | Ok _ =>
          let session := session_name random in
          (with_sessions (<[session := (now + SESSION_LIFETIME)%N]> a.(aa_sessions)) a, Ok session)
      end
  end.

Definition logout (a : AdminAuth) (session : option string) : AdminAuth :=
  match session with
  | Some session => with_sessions (base.delete session a.(aa_sessions)) a
  | None => a
  end.

(** The session that a cookie header names. *)
Fixpoint cookie_session (parts : list string) : option string :=
  match parts with
  | [] => None
  | part :: parts =>
      match strip_prefix (trim part) "egressy_session=" with
      | Some session => Some session
      | None => cookie_session parts
      end
  end.

Definition request_session (headers : HeaderMap) : option string :=
  cookie ← header_str headers "cookie"; cookie_session (split_char ";" cookie).

Definition bearer (headers : HeaderMap) : option string :=
  value ← header_str headers "authorization"; strip_prefix value "Bearer ".

(** The last part of [authorize], without a live session. *)
Definition authorize_bearer (a : AdminAuth) (headers : HeaderMap) : Result unit StatusCode :=
  let? supplied := ok_or (bearer headers) UNAUTHORIZED in
  let? _ := check_token a supplied in
  check_origin a headers.

(** The clock is read once for all the sessions. *)
Definition authorize (a : AdminAuth) (headers : HeaderMap) (now : N) : AdminAuth * Result unit StatusCode :=
  match request_session headers with
  | None => (a, authorize_bearer a headers)
  | Some session =>
      let live := filter (fun entry : string * N => (now < entry.2)%N) a.(aa_sessions) in
      let a := with_sessions live a in
      (a, if bool_decide (is_Some (live !! session)) then check_origin a headers else authorize_bearer a headers)
  end.
End auth.
