(* ===== verification/DnsMetrics.v ===== *)
(** The DNS counters as Prometheus text (prometheus_metrics of src/src/dns.rs). *)

From S2P Require Import Prelude RustStr.

(** The process-wide atomics of src/src/dns.rs. *)
Record DnsCounters : Type := {
  UDP_QUERIES : N;
  UDP_ATTEMPTS : N;
  UDP_TIMEOUTS : N;
  UDP_EXHAUSTED : N;
  TCP_FALLBACKS : N;
  TCP_FALLBACK_SUCCESSES : N;
  LOCAL_ANSWERS : N;
  CACHE_HITS : N;
  CACHE_MISSES : N;
  QUERIES_REFUSED_GLOBAL : N;
  QUERIES_REFUSED_PER_CLIENT : N;
  RESOLUTION_HEALTHY : N;
}.

Definition no_counters : DnsCounters :=
  {| UDP_QUERIES := 0; UDP_ATTEMPTS := 0; UDP_TIMEOUTS := 0; UDP_EXHAUSTED := 0; TCP_FALLBACKS := 0;
     TCP_FALLBACK_SUCCESSES := 0; LOCAL_ANSWERS := 0; CACHE_HITS := 0; CACHE_MISSES := 0;
     QUERIES_REFUSED_GLOBAL := 0; QUERIES_REFUSED_PER_CLIENT := 0; RESOLUTION_HEALTHY := u64_MAX |}.

(** The two comment lines of a metric. *)
Definition metric_head (name help kind : string) : string :=
  "# HELP " +:+ name +:+ " " +:+ help +:+ NL +:+ "# TYPE " +:+ name +:+ " " +:+ kind +:+ NL.

Definition counter (name help : string) (value : N) : string :=
  metric_head name help "counter" +:+ name +:+ " " +:+ show_N value +:+ NL.

Definition resolution_health_metric (c : DnsCounters) : string :=
  if (c.(RESOLUTION_HEALTHY) =? u64_MAX)%N then ""
  else metric_head "egressy_dns_resolution_healthy"
         "Debounced in-tunnel resolution health, 1 healthy 0 degraded." "gauge"
       +:+ "egressy_dns_resolution_healthy " +:+ show_N c.(RESOLUTION_HEALTHY) +:+ NL.

Definition refused (limit : string) (value : N) : string :=
  "egressy_dns_queries_refused_total{limit=" +:+ DQ +:+ limit +:+ DQ +:+ "} " +:+ show_N value +:+ NL.

Definition prometheus_metrics (c : DnsCounters) : string :=
  concat_str
    [counter "egressy_dns_udp_queries_total" "Client UDP DNS queries received." c.(UDP_QUERIES);
     counter "egressy_dns_upstream_udp_attempts_total" "Upstream UDP DNS attempts." c.(UDP_ATTEMPTS);
     counter "egressy_dns_upstream_udp_timeouts_total" "Upstream UDP DNS attempt timeouts." c.(UDP_TIMEOUTS);
     counter "egressy_dns_upstream_udp_exhausted_total" "Queries that exhausted all upstream UDP attempts."
       c.(UDP_EXHAUSTED);
     counter "egressy_dns_upstream_tcp_fallbacks_total" "TCP fallbacks after UDP truncation or failure."
       c.(TCP_FALLBACKS);
     counter "egressy_dns_upstream_tcp_fallback_successes_total" "Successful TCP fallbacks."
       c.(TCP_FALLBACK_SUCCESSES);
     counter "egressy_dns_local_answers_total" "Queries answered from enrolled-bridge names without forwarding."
       c.(LOCAL_ANSWERS);
     counter "egressy_dns_cache_hits_total" "Queries served from the response cache." c.(CACHE_HITS);
     counter "egressy_dns_cache_misses_total" "Queries the response cache could not serve." c.(CACHE_MISSES);
     metric_head "egressy_dns_queries_refused_total" "Queries refused by admission control, by limit." "counter";
     refused "global" c.(QUERIES_REFUSED_GLOBAL); refused "per_client" c.(QUERIES_REFUSED_PER_CLIENT);
     resolution_health_metric c].
