(* ===== verification/Web.v ===== *)
(** The HTTP interface (src/src/web.rs): the state that the handlers share, a
    definition for each handler, and what they answer.

    An answer is its code, its cookie and its body as a value; the routing, the
    extraction of the parameters and the JSON encoding are the axum and serde
    crates'.  The stream of events is not modelled. *)

From S2P Require Import Prelude RustStr Net BTree State Isolation HostPolicy WireGuard Profiles Domain Float64 Config Nft Host Control Machine StateErr Enforcement ProfileManager Notifications History NotificationManager AdminAuth DnsMetrics.

(** What the environment gives to a request: the two clocks, and what the
    operations that it may call draw and ask. *)
Record Ambient : Type := {
  am_instant : N;
  am_now : N;
  am_session : list N;
  am_nonce : string;
  am_random : list N;
  am_nft : Nft;
}.

Section web.
Context `{!IpNetCrate, !StoreEnv, !Env, !ProfileFiles, !UrlCrate, !UrlPort, !Base64Crate, !Sqlite}
  (config : Config) (deliver : Delivery -> Result unit string).

(** [WebState], with the counters that the metrics read. *)
Record WebState : Type := {
  ws_legacy : AppState;
  ws_publisher : StatePublisher;
  (** the bucket length of the store, and its connection *)
  ws_history : option (N * Conn);
  ws_profiles : Manager;
  ws_auth : AdminAuth;
  ws_notifications : Notifier;
  ws_dns : DnsCounters;
}.

Inductive Body : Type :=
| NoBody
| TextBody (text : string)
| IndexPage
| OpenApiDocument
| AppStateBody (state : AppState)
| SnapshotBody (snapshot : CanonicalSnapshot)
| IsolationPolicyBody (policy : IsolationPolicy)
| HostPolicyBody (policy : HostPolicy)
| ManagementBody (status : ProfileManagementStatus)
| RedactedBody (profile : RedactedProfile)
| ProfileErrorBody (error : ProfileError)
| RevisionBody (revision : ManagedRevision)
| ApplyBody (result : ApplyResult)
| NotificationsBody (view : NotificationSettingsView)
| UsageBody (response : UsageHistoryResponse)
| EventsBody (response : EventHistoryResponse)
| VpnServerBody (response : VpnServerHistoryResponse)
| ErrorBody (error : string) (message : option string).

Record Response : Type := {
  rs_status : StatusCode;
  rs_cookie : option string;
  rs_body : Body;
}.

Definition answer (status : StatusCode) (body : Body) : Response :=
  {| rs_status := status; rs_cookie := None; rs_body := body |}.

Definition set_auth (auth : AdminAuth) (s : WebState) : WebState :=
  {| ws_legacy := s.(ws_legacy); ws_publisher := s.(ws_publisher); ws_history := s.(ws_history);
     ws_profiles := s.(ws_profiles); ws_auth := auth; ws_notifications := s.(ws_notifications);
     ws_dns := s.(ws_dns) |}.
Definition set_profiles (profiles : Manager) (s : WebState) : WebState :=
  {| ws_legacy := s.(ws_legacy); ws_publisher := s.(ws_publisher); ws_history := s.(ws_history);
     ws_profiles := profiles; ws_auth := s.(ws_auth); ws_notifications := s.(ws_notifications);
     ws_dns := s.(ws_dns) |}.
Definition set_history (history : option (N * Conn)) (s : WebState) : WebState :=
  {| ws_legacy := s.(ws_legacy); ws_publisher := s.(ws_publisher); ws_history := history;
     ws_profiles := s.(ws_profiles); ws_auth := s.(ws_auth); ws_notifications := s.(ws_notifications);
     ws_dns := s.(ws_dns) |}.
Definition set_publisher (publisher : StatePublisher) (s : WebState) : WebState :=
  {| ws_legacy := s.(ws_legacy); ws_publisher := publisher; ws_history := s.(ws_history);
     ws_profiles := s.(ws_profiles); ws_auth := s.(ws_auth); ws_notifications := s.(ws_notifications);
     ws_dns := s.(ws_dns) |}.
Definition set_notifications (notifications : Notifier) (s : WebState) : WebState :=
  {| ws_legacy := s.(ws_legacy); ws_publisher := s.(ws_publisher); ws_history := s.(ws_history);
     ws_profiles := s.(ws_profiles); ws_auth := s.(ws_auth); ws_notifications := notifications;
     ws_dns := s.(ws_dns) |}.

Definition Handler : Type := WebState -> WebState * Response.

(** ** Sessions *)

Definition handle_login (token : string) (headers : HeaderMap) (am : Ambient) : Handler := fun s =>
  let '(auth, r) := login s.(ws_auth) token headers am.(am_session) am.(am_instant) in
  (set_auth auth s,
   match r with
   | Ok session =>
       {| rs_status := NO_CONTENT;
          rs_cookie := Some ("egressy_session=" +:+ session +:+ "; HttpOnly; SameSite=Strict; Path=/; Max-Age=28800");
          rs_body := NoBody |}
   | Err status => answer status NoBody
   end).

Definition handle_logout (headers : HeaderMap) : Handler := fun s =>
  (set_auth (logout s.(ws_auth) (request_session headers)) s,
   {| rs_status := NO_CONTENT;
      rs_cookie := Some "egressy_session=; HttpOnly; SameSite=Strict; Path=/; Max-Age=0"; rs_body := NoBody |}).

(** ** Profiles *)

(** The guard that the handlers of the profiles begin with. *)
Definition guarded (headers : HeaderMap) (am : Ambient) (handler : Handler) : Handler := fun s =>
  let '(auth, r) := authorize s.(ws_auth) headers am.(am_instant) in
  let s := set_auth auth s in
  match r with
  | Err status => (s, answer status NoBody)
  | Ok _ => handler s
  end.

(** An operation of the profile manager, and the answer to its result. *)
Definition on_profiles {A} (m : M A) (respond : Result A string -> Response) : Handler := fun s =>
  let '(profiles, r) := m s.(ws_profiles) in (set_profiles profiles s, respond r).

Definition safe_profile_error (status : StatusCode) : Response :=
  answer status (ErrorBody "profile_operation_failed"
    (Some "The profile operation failed; enrolled traffic remains fail closed")).

Definition respond_with {A} (success : StatusCode) (body : A -> Body) (failure : StatusCode) (r : Result A string)
    : Response :=
  match r with Ok a => answer success (body a) | Err _ => safe_profile_error failure end.

Definition profile_status : Handler := fun s => (s, answer OK (ManagementBody s.(ws_profiles).(m_status))).

Definition validate_profile (headers : HeaderMap) (profile : string) (am : Ambient) : Handler :=
  guarded headers am (on_profiles (ProfileManager.validate profile) (fun r =>
    match r with
    | Ok (Ok redacted) => answer OK (RedactedBody redacted)
    | Ok (Err error) => answer UNPROCESSABLE_ENTITY (ProfileErrorBody error)
    | Err _ => answer INTERNAL_SERVER_ERROR NoBody
    end)).

Definition stage_profile (headers : HeaderMap) (profile : string) (am : Ambient) : Handler :=
  guarded headers am (on_profiles (stage profile am.(am_nonce) am.(am_random) am.(am_now))
    (respond_with CREATED RevisionBody BAD_REQUEST)).

Definition import_mounted_profile (headers : HeaderMap) (am : Ambient) : Handler :=
  guarded headers am (on_profiles (stage_mounted_profile config am.(am_nonce) am.(am_random) am.(am_now))
    (respond_with CREATED RevisionBody BAD_REQUEST)).

Definition edit_profile (headers : HeaderMap) (input : StructuredProfileInput) (am : Ambient) : Handler :=
  guarded headers am (on_profiles (stage_edit input am.(am_nonce) am.(am_random) am.(am_now))
    (respond_with CREATED RevisionBody BAD_REQUEST)).

Definition activate_profile_source (headers : HeaderMap) (source : ProfileSource) (am : Ambient) : Handler :=
  guarded headers am (on_profiles (activate_source config source am.(am_nft))
    (respond_with OK ApplyBody BAD_GATEWAY)).

Definition apply_profile (headers : HeaderMap) (revision : string) (am : Ambient) : Handler :=
  guarded headers am (on_profiles (apply config revision am.(am_nft) am.(am_now))
    (respond_with OK ApplyBody BAD_GATEWAY)).

Definition delete_profile (headers : HeaderMap) (revision : string) (am : Ambient) : Handler :=
  guarded headers am (on_profiles (ProfileManager.delete revision) (respond_with NO_CONTENT (fun _ => NoBody) BAD_REQUEST)).

(** ** Notifications *)

Definition notification_settings : Handler := fun s =>
  (s, answer OK (NotificationsBody (NotificationManager.view s.(ws_notifications)))).

Definition update_notification_settings (input : NotificationSettingsInput) (am : Ambient) : Handler := fun s =>
  let '(notifications, history, r) :=
    NotificationManager.update input am.(am_now) (snd <$> s.(ws_history)) s.(ws_notifications) in
  (set_notifications notifications
     (set_history (match s.(ws_history), history with Some (bucket, _), Some c => Some (bucket, c) | h, _ => h end) s),
   match r with
   | Ok view => answer OK (NotificationsBody view)
   | Err error => answer BAD_REQUEST (ErrorBody "invalid_notification_settings" (Some error))
   end).

Definition test_notification (am : Ambient) : Handler := fun s =>
  (s, match NotificationManager.test deliver am.(am_now) s.(ws_notifications) with
      | Ok _ => answer NO_CONTENT NoBody
      | Err _ => answer BAD_GATEWAY (ErrorBody "notification_delivery_failed" None)
      end).

(** ** History *)

Definition history_lost (am : Ambient) (s : WebState) : WebState :=
  set_publisher
    (Control.observe s.(ws_publisher)
       {| ob_id := "history.persistence"; ob_status := Degraded; ob_impact := Advisory;
          ob_reason_code := "history.database_unavailable";
          ob_safe_message := "App-owned history is unavailable; current-state operation continues";
          ob_next_attempt_at_unix_ms := None; ob_recovery_attempt := None |} am.(am_now))
    (set_history None s).

Definition history_response {A} (query : N -> Conn -> Conn * Result A HistoryQueryError) (body : A -> Body)
    (am : Ambient) : Handler := fun s =>
  match s.(ws_history) with
  | None => (s, answer SERVICE_UNAVAILABLE (ErrorBody "history_unavailable" None))
  | Some (bucket_ms, c) =>
      match query bucket_ms c with
      | (c, Ok response) => (set_history (Some (bucket_ms, c)) s, answer OK (body response))
      | (c, Err (Invalid message)) =>
          (set_history (Some (bucket_ms, c)) s, answer BAD_REQUEST (ErrorBody "invalid_history_query" (Some message)))
      | (c, Err (QueryUnavailable _)) =>
          (history_lost am s, answer SERVICE_UNAVAILABLE (ErrorBody "history_unavailable" None))
      end
  end.

Definition handle_usage_history (q : UsageHistoryQuery) : Ambient -> Handler :=
  history_response (fun bucket_ms => usage_history bucket_ms q) UsageBody.
Definition handle_event_history (q : EventHistoryQuery) : Ambient -> Handler :=
  history_response (fun _ => event_history q) EventsBody.
Definition handle_vpn_server_history (q : VpnServerHistoryQuery) : Ambient -> Handler :=
  history_response (fun bucket_ms => vpn_server_history bucket_ms q) VpnServerBody.

(** ** Status and metrics *)

Definition with_profile_management (status : ProfileManagementStatus) (s : CanonicalSnapshot) : CanonicalSnapshot :=
  {| sn_schema_version := s.(sn_schema_version); sn_sequence := s.(sn_sequence);
     sn_generated_at_unix_ms := s.(sn_generated_at_unix_ms); sn_protection := s.(sn_protection);
     sn_availability := s.(sn_availability); sn_checks := s.(sn_checks); sn_transitions := s.(sn_transitions);
     sn_port_forward := s.(sn_port_forward); sn_port_forwards := s.(sn_port_forwards);
     sn_recovery := s.(sn_recovery); sn_external_probe := s.(sn_external_probe);
     sn_external_probes := s.(sn_external_probes); sn_vpn_server := s.(sn_vpn_server);
     sn_isolation_policy := s.(sn_isolation_policy); sn_host_policy := s.(sn_host_policy);
     sn_topology := s.(sn_topology); sn_clients := s.(sn_clients); sn_traffic := s.(sn_traffic);
     sn_last_client_path_success_at_unix_ms := s.(sn_last_client_path_success_at_unix_ms);
     sn_profile_management := status |}.

Definition v1_status : Handler := fun s => (s, answer OK (AppStateBody s.(ws_legacy))).
Definition v2_status : Handler := fun s =>
  (s, answer OK (SnapshotBody (with_profile_management s.(ws_profiles).(m_status) s.(ws_publisher).(sp_snapshots)))).
Definition isolation_policy : Handler := fun s =>
  (s, answer OK (IsolationPolicyBody s.(ws_publisher).(sp_snapshots).(sn_isolation_policy))).
Definition host_policy : Handler := fun s =>
  (s, answer OK (HostPolicyBody s.(ws_publisher).(sp_snapshots).(sn_host_policy))).

(** [str::replace] of a character *)
Fixpoint replace_char (c : ascii) (by_ s : string) : string :=
  match s with
  | EmptyString => EmptyString
  | String a s => if Ascii.eqb a c then by_ +:+ replace_char c by_ s else String a (replace_char c by_ s)
  end.

Definition BACKSLASH : string := String "092" EmptyString.

Definition prometheus_label_value (value : string) : string :=
  replace_char "034" (BACKSLASH +:+ DQ)
    (replace_char "010" (BACKSLASH +:+ "n") (replace_char "092" (BACKSLASH +:+ BACKSLASH) value)).

(** A sample of a client, for one direction. *)
Definition client_sample (metric id direction : string) (value : N) : string :=
  metric +:+ "{container_id=" +:+ DQ +:+ id +:+ DQ +:+ ",direction=" +:+ DQ +:+ direction +:+ DQ +:+ "} "
  +:+ show_N value +:+ NL.

Definition client_samples (metric : string) (download upload : ClientTrafficState -> N) (client : ClientState) : string :=
  let id := prometheus_label_value client.(cl_container_id) in
  client_sample metric id "download" (download client.(cl_traffic))
  +:+ client_sample metric id "upload" (upload client.(cl_traffic)).

Definition metrics_text (clients : gmap string ClientState) (dns : DnsCounters) : string :=
  metric_head "egressy_client_traffic_bytes_total" "Per-client traffic observed by gateway nftables." "counter"
  +:+ concat_str (client_samples "egressy_client_traffic_bytes_total" ct_downloaded_bytes ct_uploaded_bytes
                    <$> btree_values String.leb clients)
  +:+ metric_head "egressy_client_traffic_packets_total" "Per-client packets observed by gateway nftables." "counter"
  +:+ concat_str (client_samples "egressy_client_traffic_packets_total" ct_download_packets ct_upload_packets
                    <$> btree_values String.leb clients)
  +:+ prometheus_metrics dns.

Definition metrics : Handler := fun s =>
  (s, answer OK (TextBody (metrics_text s.(ws_publisher).(sp_snapshots).(sn_clients) s.(ws_dns)))).

Definition text_status (ok : bool) (success failure : string) : Response :=
  answer (if ok then OK else SERVICE_UNAVAILABLE) (TextBody (if ok then success else failure)).

Definition health : Handler := fun s =>
  (s, text_status s.(ws_legacy).(as_tunnel).(tn_up) ("ok" +:+ NL) ("tunnel down" +:+ NL)).
Definition liveness : Handler := fun s => (s, text_status true ("ok" +:+ NL) ("unreachable" +:+ NL)).

Definition is_ready (snapshot : CanonicalSnapshot) : bool :=
  match snapshot.(sn_availability) with Starting | Unavailable => false | _ => true end
  && forallb (fun check => negb (bool_decide (check.(sc_status) = Domain.Failed)))
       (List.filter (fun check => bool_decide (check.(sc_impact) = Critical))
          (btree_values String.leb snapshot.(sn_checks))).

Definition readiness : Handler := fun s =>
  (s, if bool_decide (s.(ws_profiles).(m_status).(pm_lifecycle) = Unconfigured)
      then text_status true ("ready: unconfigured" +:+ NL) ("unreachable" +:+ NL)
      else text_status (is_ready s.(ws_publisher).(sp_snapshots)) ("ready" +:+ NL) ("data_plane_not_ready" +:+ NL)).

Definition index : Handler := fun s => (s, answer OK IndexPage).
Definition openapi : Handler := fun s => (s, answer OK OpenApiDocument).

(** ** Routing *)

Inductive Request : Type :=
| Index | V1Status | V2Status | GetIsolationPolicy | GetHostPolicy
| Login (token : string) | Logout
| GetProfiles | StageProfile (profile : string) | ImportMounted | ValidateProfile (profile : string)
| EditProfile (input : StructuredProfileInput) | ActivateSource (source : ProfileSource)
| ApplyProfile (revision : string) | DeleteProfile (revision : string)
| GetUsageHistory (q : UsageHistoryQuery) | GetEventHistory (q : EventHistoryQuery)
| GetVpnServerHistory (q : VpnServerHistoryQuery)
| GetNotifications | PutNotifications (input : NotificationSettingsInput) | TestNotification
| GetOpenApi | GetMetrics | Healthz | Livez | Readyz.

(** [router] *)
Definition route (request : Request) (headers : HeaderMap) (am : Ambient) : Handler :=
  match request with
  | Index => index
  | V1Status => v1_status
  | V2Status => v2_status
  | GetIsolationPolicy => isolation_policy
  | GetHostPolicy => host_policy
  | Login token => handle_login token headers am
  | Logout => handle_logout headers
  | GetProfiles => profile_status
  | StageProfile profile => stage_profile headers profile am
  | ImportMounted => import_mounted_profile headers am
  | ValidateProfile profile => validate_profile headers profile am
  | EditProfile input => edit_profile headers input am
  | ActivateSource source => activate_profile_source headers source am
  | ApplyProfile revision => apply_profile headers revision am
  | DeleteProfile revision => delete_profile headers revision am
  | GetUsageHistory q => handle_usage_history q am
  | GetEventHistory q => handle_event_history q am
  | GetVpnServerHistory q => handle_vpn_server_history q am
  | GetNotifications => notification_settings
  | PutNotifications input => update_notification_settings input am
  | TestNotification => test_notification am
  | GetOpenApi => openapi
  | GetMetrics => metrics
  | Healthz => health
  | Livez => liveness
  | Readyz => readiness
  end.
End web.
