(* ===== verification/WebProps.v ===== *)
(** The HTTP interface: who may change the profiles, what readiness means, what
    a lost history does, and the escaping of the metrics. *)

From S2P Require Import Prelude RustStr StrFacts Net BTree State Isolation HostPolicy WireGuard WireGuardProps Profiles Domain Float64 Config ConfigProps Nft Host Control Machine StateErr Routes RoutesProps Enforcement EnforcementProps ProfileManager ProfileManagerProps LeaseKeeper LeaseKeeperProps Probe ProbeProps Notifications History HistoryProps NotificationManager AdminAuth DnsMetrics Web.

(** ** Comparison of secrets *)

Lemma lor_fold_zero (l : list (N * N)) acc :
  foldl (fun difference '(x, y) => N.lor difference (N.lxor x y)) acc l = 0%N
  <-> acc = 0%N /\ Forall (fun p => p.1 = p.2) l.
Proof.
  revert acc. induction l as [|[x y] l IH]; intros acc; cbn [foldl].
  - split; [done|]. by intros [? _].
  - rewrite IH, list.Forall_cons, N.lor_eq_0_iff, N.lxor_eq_0_iff. cbn. naive_solver.
Qed.

Lemma constant_time_equal_spec left right : constant_time_equal left right = true <-> left = right.
Proof.
  unfold constant_time_equal. destruct (Nat.eqb_spec (length left) (length right)) as [Hlen|Hlen]; cbn [negb].
  - rewrite N.eqb_eq, lor_fold_zero. split.
    + intros [_ Hz]. revert right Hlen Hz. induction left as [|x left IH]; intros [|y right] Hlen Hz; try done.
      cbn in Hz. apply list.Forall_cons in Hz as [Hx Hz]. cbn in *. f_equal; [done|]. apply IH; [lia|done].
    + intros <-. split; [done|]. clear Hlen. induction left; cbn; by constructor.
  - split; [done|]. intros <-. done.
Qed.

Lemma bytes_of_inj s t : bytes_of s = bytes_of t -> s = t.
Proof.
  unfold bytes_of, chars. intros He. apply list_fmap_eq_inj in He.
  - rewrite <- (String.string_of_list_ascii_of_string s), He. apply String.string_of_list_ascii_of_string.
  - intros a b Hab. by rewrite <- (Ascii.ascii_N_embedding a), Hab, Ascii.ascii_N_embedding.
Qed.

Section auth.
Context `{!UrlCrate, !UrlPort, !Base64Crate}.

Lemma check_token_Ok a supplied : check_token a supplied = Ok tt <-> a.(aa_token) = Some supplied.
Proof.
  unfold check_token. destruct (aa_token a) as [expected|]; cbn; [|done].
  rewrite ensure_Ok, constant_time_equal_spec. split; [by intros ->%bytes_of_inj|by intros [= ->]].
Qed.

Lemma login_spec a supplied headers random now :
  let '(a1, r) := login a supplied headers random now in
  match r with
  | Ok session => check_origin a headers = Ok tt /\ a.(aa_token) = Some supplied /\ session = session_name random
                  /\ a1 = with_sessions (<[session := (now + SESSION_LIFETIME)%N]> a.(aa_sessions)) a
  | Err _ => a1 = a
  end.
Proof.
  unfold login. destruct (check_origin a headers) as [[]|]; [|done].
  destruct (check_token a supplied) as [[]|] eqn:Ht; [|done]. by apply check_token_Ok in Ht.
Qed.

(** A request that is authorised brings the token, or a live session. *)
Lemma authorize_spec a headers now :
  let '(a1, r) := authorize a headers now in
  (r = Ok tt -> check_origin a headers = Ok tt
     /\ ((exists token, bearer headers = Some token /\ a.(aa_token) = Some token)
         \/ exists session expires, request_session headers = Some session
              /\ a.(aa_sessions) !! session = Some expires /\ (now < expires)%N))
  /\ a1.(aa_token) = a.(aa_token) /\ a1.(aa_trusted_origins) = a.(aa_trusted_origins)
  /\ a1.(aa_sessions) ⊆ a.(aa_sessions).
Proof.
  assert (Hbearer : forall a1, a1.(aa_token) = a.(aa_token) -> a1.(aa_trusted_origins) = a.(aa_trusted_origins) ->
    authorize_bearer a1 headers = Ok tt ->
    check_origin a headers = Ok tt /\ exists token, bearer headers = Some token /\ a.(aa_token) = Some token).
  { intros a1 Ht Ho. unfold authorize_bearer. intros Hok. res_steps.
    match goal with H : check_token _ _ = Ok ?u |- _ => destruct u; apply check_token_Ok in H as Htok end.
    unfold check_origin in *. rewrite Ho in Hok. rewrite Ht in Htok. eauto. }
  unfold authorize. destruct (request_session headers) as [session|] eqn:Hs.
  - split_and!; [|done..|cbn; apply map_filter_subseteq].
    case_bool_decide as Hlive.
    + intros Ho. split; [exact Ho|]. right. destruct Hlive as [expires Hlive].
      apply map_lookup_filter_Some in Hlive as [Hl He]. eauto.
    + intros Hb. apply Hbearer in Hb; [|done..]. naive_solver.
  - split_and!; [|done..]. intros Hb. apply Hbearer in Hb; [|done..]. naive_solver.
Qed.
End auth.

(** ** Requests in order *)

(** A request with what the environment gives to it. *)
Record Arrival : Type := {
  av_request : Request;
  av_headers : HeaderMap;
  av_ambient : Ambient;
}.

Section web.
Context `{!IpNetCrate, !StoreEnv, !Env, !ProfileFiles, !UrlCrate, !UrlPort, !Base64Crate, !Sqlite}
  (config : Config) (deliver : Delivery -> Result unit string).

(** The handlers' steps, and those of the other tasks, which share everything
    but the sessions. *)
Inductive WebStep : Type :=
| Serve (a : Arrival)
| Elsewhere (f : WebState -> WebState).

Definition serve (a : Arrival) (s : WebState) : WebState * Response :=
  route config deliver a.(av_request) a.(av_headers) a.(av_ambient) s.

Definition web_step (s : WebState) (x : WebStep) : WebState :=
  match x with
  | Serve a => (serve a s).1
  | Elsewhere f => set_auth s.(ws_auth) (f s)
  end.

Definition web_run (steps : list WebStep) (s : WebState) : WebState := foldl web_step s steps.

(** The arrival is a login with the administrator's token that opens [session]. *)
Definition opens (auth : AdminAuth) (session : string) (a : Arrival) : Prop :=
  exists token, a.(av_request) = Login token /\ auth.(aa_token) = Some token
    /\ check_origin auth a.(av_headers) = Ok tt /\ session_name a.(av_ambient).(am_session) = session.

Definition closes (session : string) (x : WebStep) : Prop :=
  match x with
  | Serve a => a.(av_request) = Logout /\ request_session a.(av_headers) = Some session
  | Elsewhere _ => False
  end.

(** A login at [opened] opened the session, and no logout ended it since. *)
Definition session_open (auth : AdminAuth) (steps : list WebStep) (session : string) (opened : N) : Prop :=
  exists before a after, steps = before ++ Serve a :: after
    /\ opens auth session a /\ a.(av_ambient).(am_instant) = opened /\ Forall (fun x => ~ closes session x) after.

(** What lets a request through: the token itself, or a session that a login
    opened less than eight hours ago; and an origin that is trusted. *)
Definition entitled (auth : AdminAuth) (steps : list WebStep) (a : Arrival) : Prop :=
  check_origin auth a.(av_headers) = Ok tt
  /\ ((exists token, bearer a.(av_headers) = Some token /\ auth.(aa_token) = Some token)
      \/ exists session opened, request_session a.(av_headers) = Some session
           /\ session_open auth steps session opened
           /\ (a.(av_ambient).(am_instant) < opened + SESSION_LIFETIME)%N).

Definition same_credentials (a a1 : AdminAuth) : Prop :=
  a1.(aa_token) = a.(aa_token) /\ a1.(aa_trusted_origins) = a.(aa_trusted_origins).

Lemma check_origin_same a a1 headers : same_credentials a a1 -> check_origin a1 headers = check_origin a headers.
Proof. unfold check_origin. by intros [_ ->]. Qed.

(** What a request does to the sessions. *)
Definition auth_effect (s : WebState) (a : Arrival) (auth1 : AdminAuth) : Prop :=
  same_credentials s.(ws_auth) auth1
  /\ forall session expires, auth1.(aa_sessions) !! session = Some expires ->
       ~ closes session (Serve a)
       /\ (s.(ws_auth).(aa_sessions) !! session = Some expires
           \/ opens s.(ws_auth) session a /\ expires = (a.(av_ambient).(am_instant) + SESSION_LIFETIME)%N).

Lemma effect_none s a auth1 :
  auth1 = s.(ws_auth) -> (forall session, ~ closes session (Serve a)) -> auth_effect s a auth1.
Proof. intros -> Hc. split; [done|]. intros session expires Hs. split; [apply Hc|by left]. Qed.

Lemma on_profiles_auth {A} (m : M A) respond s : (on_profiles m respond s).1.(ws_auth) = s.(ws_auth).
Proof. unfold on_profiles. by destruct (m s.(ws_profiles)). Qed.

Lemma guarded_spec (handler : Handler) headers am s :
  (forall s, (handler s).1.(ws_auth) = s.(ws_auth)) ->
  (guarded headers am handler s).1.(ws_auth) = (authorize s.(ws_auth) headers am.(am_instant)).1
  /\ ((authorize s.(ws_auth) headers am.(am_instant)).2 <> Ok tt ->
      (guarded headers am handler s).1.(ws_profiles) = s.(ws_profiles)
      /\ exists status, (authorize s.(ws_auth) headers am.(am_instant)).2 = Err status
                        /\ (guarded headers am handler s).2 = answer status NoBody).
Proof.
  intros Hh. unfold guarded. destruct (authorize _ _ _) as [a1 [[]|status]]; cbn; [|naive_solver].
  rewrite Hh. naive_solver.
Qed.

(** The requests that act on the profiles: their handlers are guarded. *)
Definition profile_request (r : Request) : bool :=
  match r with
  | StageProfile _ | ImportMounted | ValidateProfile _ | EditProfile _ | ActivateSource _ | ApplyProfile _
  | DeleteProfile _ => true
  | _ => false
  end.

Lemma profile_request_guarded a s :
  profile_request a.(av_request) = true ->
  (serve a s).1.(ws_auth) = (authorize s.(ws_auth) a.(av_headers) a.(av_ambient).(am_instant)).1
  /\ ((authorize s.(ws_auth) a.(av_headers) a.(av_ambient).(am_instant)).2 <> Ok tt ->
      (serve a s).1.(ws_profiles) = s.(ws_profiles)
      /\ exists status, (authorize s.(ws_auth) a.(av_headers) a.(av_ambient).(am_instant)).2 = Err status
                        /\ (serve a s).2 = answer status NoBody).
Proof.
  unfold serve. destruct (av_request a); intros Hr; try discriminate Hr; cbn [route];
    apply guarded_spec; intros s1; apply on_profiles_auth.
Qed.

Lemma history_response_keeps {A} (query : N -> Conn -> Conn * Result A HistoryQueryError) body am s :
  (history_response query body am s).1.(ws_auth) = s.(ws_auth)
  /\ (history_response query body am s).1.(ws_profiles) = s.(ws_profiles).
Proof.
  unfold history_response. destruct (ws_history s) as [[bucket c]|]; [|done].
  by destruct (query bucket c) as [c1 [|[]]].
Qed.

Lemma update_settings_keeps input am s :
  (update_notification_settings input am s).1.(ws_auth) = s.(ws_auth)
  /\ (update_notification_settings input am s).1.(ws_profiles) = s.(ws_profiles).
Proof. unfold update_notification_settings. by destruct (NotificationManager.update _ _ _ _) as [[? ?] ?]. Qed.

(** Every other request leaves the profiles alone. *)
Lemma other_request_profiles a s :
  profile_request a.(av_request) = false -> (serve a s).1.(ws_profiles) = s.(ws_profiles).
Proof.
  unfold serve. destruct (av_request a); intros Hr; try discriminate Hr; cbn [route]; try done.
  - unfold handle_login. by destruct (login _ _ _ _ _).
  - apply history_response_keeps.
  - apply history_response_keeps.
  - apply history_response_keeps.
  - apply update_settings_keeps.
Qed.

Lemma serve_effect a s : auth_effect s a (serve a s).1.(ws_auth).
Proof.
  destruct (profile_request (av_request a)) eqn:Hp.
  - destruct (profile_request_guarded a s Hp) as [-> _].
    pose proof (authorize_spec s.(ws_auth) a.(av_headers) a.(av_ambient).(am_instant)) as Ha.
    destruct (authorize _ _ _) as [a1 r]. destruct Ha as (_ & Ht & Ho & Hs). split; [done|].
    intros session expires Hl. split; [|left; by eapply lookup_weaken]. intros [Hq _]. by rewrite Hq in Hp.
  - unfold serve. destruct (av_request a) eqn:Hq; try discriminate Hp; cbn [route];
      try (apply effect_none; [apply history_response_keeps || apply update_settings_keeps || reflexivity
                              |intros session [Hc _]; congruence]).
    + unfold handle_login.
      pose proof (login_spec s.(ws_auth) token a.(av_headers) a.(av_ambient).(am_session) a.(av_ambient).(am_instant)) as Hl.
      destruct (login _ _ _ _ _) as [a1 [session|]]; cbn.
      * destruct Hl as (Ho & Ht & -> & ->). split; [done|]. intros session1 expires. cbn.
        intros [[<- <-]|[_ Hl]]%lookup_insert_Some; (split; [by intros [Hc _]; rewrite Hc in Hq|]); [|by left].
        right. split; [|done]. by exists token.
      * subst a1. apply effect_none; [done|]. intros session [Hc _]. congruence.
    + unfold handle_logout, logout. cbn. destruct (request_session _) as [ended|] eqn:Hs.
      * split; [done|]. intros session expires. cbn. intros [Hne Hl]%lookup_delete_Some.
        split; [|by left]. intros [_ Hc]. congruence.
      * apply effect_none; [done|]. intros session [_ Hc]. congruence.
Qed.

Lemma session_open_snoc auth steps x session opened :
  ~ closes session x -> session_open auth steps session opened -> session_open auth (steps ++ [x]) session opened.
Proof.
  intros Hx (before & a & after & -> & Ho & Ht & Hafter). exists before, a, (after ++ [x]).
  split_and!; [by rewrite <- app_assoc|done..|]. apply Forall_app_2; [done|]. by constructor.
Qed.

Lemma opens_same auth auth1 session a : same_credentials auth auth1 -> opens auth1 session a -> opens auth session a.
Proof.
  intros Hc (token & Hr & Ht & Ho & Hs). exists token. rewrite <- (check_origin_same auth auth1) by done.
  destruct Hc as [<- _]. done.
Qed.

Lemma sessions_were_opened s0 steps :
  s0.(ws_auth).(aa_sessions) = ∅ ->
  same_credentials s0.(ws_auth) (web_run steps s0).(ws_auth)
  /\ forall session expires, (web_run steps s0).(ws_auth).(aa_sessions) !! session = Some expires ->
       exists opened, session_open s0.(ws_auth) steps session opened /\ expires = (opened + SESSION_LIFETIME)%N.
Proof.
  intros Hempty. induction steps as [|x steps [IHc IHs]] using rev_ind.
  { split; [done|]. intros session expires. cbn. by rewrite Hempty, lookup_empty. }
  unfold web_run in *. rewrite foldl_app. cbn [foldl]. destruct x as [a|f]; cbn [web_step].
  - destruct (serve_effect a (foldl web_step s0 steps)) as [Hc Hs].
    split; [split; (etrans; [apply Hc|apply IHc])|].
    intros session expires Hl. destruct (Hs session expires Hl) as [Hclose [Hold|[Ho ->]]].
    + destruct (IHs session expires Hold) as (opened & Ho & ->). exists opened. split; [|done].
      by apply session_open_snoc.
    + exists a.(av_ambient).(am_instant). split; [|done]. exists steps, a, []. split_and!; try done.
      by eapply opens_same.
  - split; [done|]. intros session expires Hl. destruct (IHs session expires Hl) as (opened & Ho & ->).
    exists opened. split; [|done]. apply session_open_snoc; [by intros []|done].
Qed.

(** C4: only the administrator changes the profiles.  After any requests, and
    whatever the other tasks do between them, a request that leaves the profile
    manager in another state is one of the operations on profiles, comes from a
    trusted origin, and carries the administrator's token or a session that a
    login with that token opened less than eight hours before and that no logout
    has ended; any other request for such an operation is answered with the
    refusal alone. *)
Theorem profile_changes_are_authorised s0 steps a :
  s0.(ws_auth).(aa_sessions) = ∅ ->
  let s := web_run steps s0 in
  ((serve a s).1.(ws_profiles) <> s.(ws_profiles) ->
     profile_request a.(av_request) = true /\ entitled s0.(ws_auth) steps a)
  /\ (profile_request a.(av_request) = true -> ~ entitled s0.(ws_auth) steps a ->
      (serve a s).1.(ws_profiles) = s.(ws_profiles) /\ exists status, (serve a s).2 = answer status NoBody).
Proof.
  intros Hempty s. destruct (sessions_were_opened s0 steps Hempty) as [Hc Hs]. fold s in Hc, Hs.
  assert (Hentitled : (authorize s.(ws_auth) a.(av_headers) a.(av_ambient).(am_instant)).2 = Ok tt ->
    entitled s0.(ws_auth) steps a).
  { intros Hok. pose proof (authorize_spec s.(ws_auth) a.(av_headers) a.(av_ambient).(am_instant)) as Ha.
    destruct (authorize _ _ _) as [a1 r]. cbn in Hok. destruct Ha as [Ha _]. specialize (Ha Hok).
    rewrite (check_origin_same s0.(ws_auth)) in Ha by done. destruct Ha as [Ho Hcred]. split; [done|].
    destruct Hc as [Ht _]. rewrite Ht in Hcred. destruct Hcred as [Hcred|(session & expires & Hr & Hl & He)]; [by left|].
    right. destruct (Hs session expires Hl) as (opened & Hopen & ->). eauto 10. }
  split.
  - intros Hne. destruct (profile_request (av_request a)) eqn:Hp.
    + split; [done|]. apply Hentitled. destruct (profile_request_guarded a s Hp) as [_ Hrefused].
      destruct (authorize _ _ _).2 as [[]|status]; [done|]. destruct (Hrefused ltac:(done)) as [He _]. done.
    + by rewrite other_request_profiles in Hne.
  - intros Hp Hnot. destruct (profile_request_guarded a s Hp) as [_ Hrefused].
    destruct Hrefused as [Hsame (status & _ & Hanswer)]; [tauto|]. eauto.
Qed.

(** ** Readiness *)

(** readiness.  The gateway answers that it is ready exactly when it has no
    profile yet, or when its availability is neither starting nor unavailable
    and no critical check has failed. *)
Theorem readiness_meaning a s :
  a.(av_request) = Readyz ->
  (serve a s).1 = s
  /\ ((serve a s).2.(rs_status) = OK <->
      s.(ws_profiles).(m_status).(pm_lifecycle) = Unconfigured
      \/ (s.(ws_publisher).(sp_snapshots).(sn_availability) <> Starting
          /\ s.(ws_publisher).(sp_snapshots).(sn_availability) <> Unavailable
          /\ forall id check, s.(ws_publisher).(sp_snapshots).(sn_checks) !! id = Some check ->
               check.(sc_impact) = Critical -> check.(sc_status) <> Domain.Failed)).
Proof.
  intros Ha. unfold serve. rewrite Ha. split; [done|]. cbn [route readiness snd].
  assert (Hchecks : forall checks : gmap string SubsystemCheck,
    forallb (fun check => negb (bool_decide (check.(sc_status) = Domain.Failed)))
      (List.filter (fun check => bool_decide (check.(sc_impact) = Critical)) (btree_values String.leb checks)) = true
    <-> forall id check, checks !! id = Some check -> check.(sc_impact) = Critical -> check.(sc_status) <> Domain.Failed).
  { intros checks. rewrite forallb_forall. setoid_rewrite filter_In. setoid_rewrite negb_true_iff.
    setoid_rewrite bool_decide_eq_false. setoid_rewrite bool_decide_eq_true. setoid_rewrite <- list_elem_of_In.
    setoid_rewrite elem_of_btree_values. naive_solver. }
  case_bool_decide as Hu; cbn; [by split; [left|]|].
  assert (Hor : forall b, (if b : bool then OK else SERVICE_UNAVAILABLE) = OK <-> b = true) by (by intros []).
  rewrite Hor. unfold is_ready. rewrite andb_true_iff, Hchecks.
  destruct (sn_availability _); naive_solver.
Qed.

(** ** Losing the history *)

Definition is_history_request (r : Request) : bool :=
  match r with GetUsageHistory _ | GetEventHistory _ | GetVpnServerHistory _ => true | _ => false end.

(** What a history request leaves, given what the store answered. *)
Definition contained (s s1 : WebState) (status : StatusCode) : Prop :=
  match status with
  | OK => s1.(ws_publisher) = s.(ws_publisher) /\ is_Some s1.(ws_history)
  | BAD_REQUEST => s1 = s
  | SERVICE_UNAVAILABLE =>
      s1.(ws_history) = None
      /\ (s.(ws_history) = None -> s1 = s)
      /\ (is_Some s.(ws_history) -> exists check,
            s1.(ws_publisher).(sp_inner).(sn_checks) !! "history.persistence" = Some check
            /\ check.(sc_status) = Degraded /\ check.(sc_impact) = Advisory
            /\ check.(sc_reason_code) = "history.database_unavailable")
      /\ (aggregated s.(ws_publisher).(sp_inner) ->
          s1.(ws_publisher).(sp_inner).(sn_protection) = s.(ws_publisher).(sp_inner).(sn_protection))
  | _ => False
  end.

Lemma history_response_contained {A} check (m : N -> H A) body am s :
  let '(s1, r) := history_response (fun bucket => validated (check bucket) (m bucket)) body am s in
  s1.(ws_legacy) = s.(ws_legacy) /\ s1.(ws_profiles) = s.(ws_profiles) /\ s1.(ws_auth) = s.(ws_auth)
  /\ s1.(ws_notifications) = s.(ws_notifications) /\ s1.(ws_dns) = s.(ws_dns)
  /\ contained s s1 r.(rs_status).
Proof.
  unfold history_response. destruct (ws_history s) as [[bucket c]|] eqn:Hh.
  - unfold validated. destruct (check bucket _); [|].
    + destruct (m bucket c) as [c1 [a|e]]; cbn; split_and!; try (done || (intros; congruence)).
      * intros _. unfold Control.observe.
        destruct (observation_changed _ _ _); cbn; rewrite lookup_insert_eq; by eexists.
      * intros Hagg. unfold Control.observe. destruct (observation_changed _ _ _); cbn; rewrite Hagg;
          unfold derive_protection; by rewrite !lookup_insert_ne by done.
    + cbn. split_and!; try done. by destruct s; cbn in *; subst.
  - cbn. split_and!; try done. rewrite Hh. by intros [? [=]].
Qed.

(** losing the history is contained.  A history request never touches the
    profiles, the sessions, the notifications or the gateway's state; a query
    that is refused changes nothing at all; one that the database fails answers
    503, makes every later history request answer 503, marks the persistence
    check degraded, and leaves the protection as it was. *)
Theorem history_failure_contained a s :
  is_history_request a.(av_request) = true ->
  let '(s1, r) := serve a s in
  s1.(ws_legacy) = s.(ws_legacy) /\ s1.(ws_profiles) = s.(ws_profiles) /\ s1.(ws_auth) = s.(ws_auth)
  /\ s1.(ws_notifications) = s.(ws_notifications) /\ s1.(ws_dns) = s.(ws_dns)
  /\ contained s s1 r.(rs_status).
Proof.
  unfold serve. destruct (av_request a); intros Hr; try discriminate Hr; cbn [route].
  - apply (history_response_contained (fun bucket => validate_usage_query bucket q) (fun bucket => query_usage bucket q)).
  - apply (history_response_contained (fun _ => validate_event_query q) (fun _ => query_events q)).
  - apply (history_response_contained (fun bucket => validate_vpn_server_query bucket q)
             (fun bucket => query_vpn_server bucket q)).
Qed.

(** Checking a profile publishes the lifecycle of a working gateway, whatever
    it was. *)
Lemma validation_hides_degraded a s profile active :
  a.(av_request) = ValidateProfile profile ->
  s.(ws_profiles).(m_active) = Some active ->
  (authorize s.(ws_auth) a.(av_headers) a.(av_ambient).(am_instant)).2 = Ok tt ->
  (serve a s).1.(ws_profiles).(m_status).(pm_lifecycle) = LifecycleActive.
Proof.
  unfold serve. intros -> Hactive Hok. cbn [route]. unfold validate_profile, guarded.
  destruct (authorize _ _ _) as [a1 r]. cbn in Hok. subst r. unfold on_profiles, ProfileManager.validate. cbn.
  by rewrite Hactive.
Qed.
End web.

(** ** Escaping of the metrics *)

Definition escape_char (c : ascii) : string :=
  if Ascii.eqb c "092" then BACKSLASH +:+ BACKSLASH
  else if Ascii.eqb c "010" then BACKSLASH +:+ "n"
  else if Ascii.eqb c "034" then BACKSLASH +:+ DQ
  else String c EmptyString.

Lemma replace_char_app c by_ s t : replace_char c by_ (s +:+ t) = replace_char c by_ s +:+ replace_char c by_ t.
Proof.
  induction s as [|a s IH]; [done|]. rewrite str_app_cons. cbn [replace_char]. rewrite IH.
  destruct (Ascii.eqb a c); [by rewrite str_app_assoc|by rewrite str_app_cons].
Qed.

Lemma label_value_cons c s : prometheus_label_value (String c s) = escape_char c +:+ prometheus_label_value s.
Proof.
  unfold prometheus_label_value. change (String c s) with (String c EmptyString +:+ s). rewrite !replace_char_app.
  f_equal. unfold escape_char. destruct (Ascii.eqb_spec c "092") as [->|H1]; [done|].
  cbn. rewrite (proj2 (Ascii.eqb_neq _ _) H1).
  destruct (Ascii.eqb_spec c "010") as [->|H2]; cbn; [done|]. rewrite (proj2 (Ascii.eqb_neq _ _) H2).
  destruct (Ascii.eqb_spec c "034") as [->|H3]; cbn; [done|]. by rewrite (proj2 (Ascii.eqb_neq _ _) H3).
Qed.

(** A label value as the Prometheus text format reads it, up to its closing
    quote; a line break or an unknown escape ends the reading. *)
Fixpoint read_label (s : string) : option (string * string) :=
  match s with
  | EmptyString => None
  | String c s1 =>
      if Ascii.eqb c "034" then Some (EmptyString, s1)
      else if Ascii.eqb c "010" then None
      else if Ascii.eqb c "092" then
        match s1 with
        | String e s2 =>
            let decoded :=
              if Ascii.eqb e "092" then Some "092"%char
              else if Ascii.eqb e "n" then Some "010"%char
              else if Ascii.eqb e "034" then Some "034"%char else None in
            match decoded, read_label s2 with
            | Some d, Some (value, rest) => Some (String d value, rest)
            | _, _ => None
            end
        | EmptyString => None
        end
      else match read_label s1 with Some (value, rest) => Some (String c value, rest) | None => None end
  end.

Lemma read_label_escape c t :
  read_label (escape_char c +:+ t)
  = match read_label t with Some (value, rest) => Some (String c value, rest) | None => None end.
Proof.
  unfold escape_char. destruct (Ascii.eqb_spec c "092") as [->|H1]; [reflexivity|].
  destruct (Ascii.eqb_spec c "010") as [->|H2]; [reflexivity|].
  destruct (Ascii.eqb_spec c "034") as [->|H3]; [reflexivity|].
  change (String c EmptyString +:+ t) with (String c t). cbn [read_label].
  by rewrite (proj2 (Ascii.eqb_neq _ _) H3), (proj2 (Ascii.eqb_neq _ _) H2), (proj2 (Ascii.eqb_neq _ _) H1).
Qed.

(** no container can forge a metric.  Whatever its identifier holds, a
    reader of the exposition gets from its sample's line the identifier, the
    direction and the value that were written. *)
Theorem label_round_trip metric id direction value rest :
  exists labels, client_sample metric (prometheus_label_value id) direction value +:+ rest
    = metric +:+ "{container_id=" +:+ DQ +:+ labels
  /\ read_label labels
     = Some (id, ",direction=" +:+ DQ +:+ direction +:+ DQ +:+ "} " +:+ show_N value +:+ NL +:+ rest).
Proof.
  unfold client_sample. eexists. rewrite !str_app_assoc. split; [reflexivity|].
  induction id as [|c id IH]; [done|].
  by rewrite label_value_cons, str_app_assoc, read_label_escape, IH.
Qed.

(** ** A run *)

#[local] Existing Instance CidrNet.crate.
#[local] Existing Instance Profiles.sample_env.
#[local] Existing Instance all_well.
#[local] Existing Instance no_files.
#[local] Existing Instance sqlite_works.

#[local] Instance web_urls : UrlCrate :=
  {| Url := string; url_parse s := strip_prefix s "https://"; url_scheme _ := "https"; url_host_str u := Some u |}.
#[local] Instance web_ports : UrlPort := fun _ => None.
#[local] Instance web_base64 : Base64Crate := fun bytes => of_chars (ascii_of_N <$> bytes).

Definition web_start : WebState :=
  {| ws_legacy := example_app; ws_publisher := publisher_new snapshot_default;
     ws_history := None; ws_profiles := ProfileManagerProps.stored;
     ws_auth := {| aa_token := Some "0123456789abcdef0123456789abcdef"; aa_trusted_origins := ["https://admin"];
                   aa_sessions := ∅ |};
     ws_notifications := {| nm_settings := settings_default; nm_queue := [] |}; ws_dns := no_counters |}.

Definition ambient (instant : N) : Ambient :=
  {| am_instant := instant; am_now := 3000; am_session := [115; 49]%N; am_nonce := "yyyyyyyyyyyyyyyyyyyyyyyy";
     am_random := [9; 8; 7; 6; 5; 4; 3; 2; 1; 0; 1; 2]%N; am_nft := example_nft |}.

Definition no_delivery (d : Delivery) : Result unit string := Err "unreachable".

Definition login_arrival : Arrival :=
  {| av_request := Login "0123456789abcdef0123456789abcdef"; av_headers := [("origin", "https://admin")];
     av_ambient := ambient 1000 |}.
Definition stage_arrival (instant : N) : Arrival :=
  {| av_request := StageProfile sample_source;
     av_headers := [("cookie", "theme=dark; egressy_session=s1"); ("origin", "https://admin")];
     av_ambient := ambient instant |}.

Definition revisions_shown (s : WebState) : nat := length s.(ws_profiles).(m_status).(pm_revisions).

Example session_lives_eight_hours :
  let s := web_run managed_config no_delivery [Serve login_arrival] web_start in
  let served t := serve managed_config no_delivery (stage_arrival t) s in
  (rs_status (served 2000%N).2, revisions_shown (served 2000%N).1) = (CREATED, S (revisions_shown s))
  /\ (rs_status (served (1000 + SESSION_LIFETIME)%N).2, revisions_shown (served (1000 + SESSION_LIFETIME)%N).1)
     = (UNAUTHORIZED, revisions_shown s).
Proof. vm_compute. split; reflexivity. Qed.

Lemma profile_changes_are_authorised_witness :
  let s := web_run managed_config no_delivery [Serve login_arrival] web_start in
  (serve managed_config no_delivery (stage_arrival 2000) s).1.(ws_profiles) <> s.(ws_profiles)
  /\ entitled web_start.(ws_auth) [Serve login_arrival] (stage_arrival 2000).
Proof.
  intros s.
  assert (Hne : (serve managed_config no_delivery (stage_arrival 2000) s).1.(ws_profiles) <> s.(ws_profiles)).
  { intros He. apply (f_equal (fun m => Nat.eqb (length m.(m_status).(pm_revisions)) 1)) in He.
    vm_compute in He. discriminate He. }
  split; [exact Hne|].
  pose proof (profile_changes_are_authorised managed_config no_delivery web_start [Serve login_arrival]
                (stage_arrival 2000) eq_refl) as Hx.
  apply (proj1 Hx Hne).
Defined.

Lemma readiness_meaning_witness :
  (serve managed_config no_delivery
     {| av_request := Readyz; av_headers := []; av_ambient := ambient 0 |} web_start).1 = web_start.
Proof.
  apply (readiness_meaning managed_config no_delivery
           {| av_request := Readyz; av_headers := []; av_ambient := ambient 0 |} web_start eq_refl).
Defined.

Definition with_history : WebState := set_history (Some (60000%N, HistoryProps.example_conn)) web_start.
Definition history_arrival : Arrival :=
  {| av_request := GetEventHistory {| eq_from_unix_ms := None; eq_to_unix_ms := None; eq_before_id := None;
       eq_limit := None |};
     av_headers := []; av_ambient := ambient 0 |}.

Lemma history_failure_contained_witness :
  is_history_request history_arrival.(av_request) = true
  /\ (serve managed_config no_delivery history_arrival with_history).1.(ws_profiles) = with_history.(ws_profiles).
Proof.
  split; [reflexivity|].
  pose proof (history_failure_contained managed_config no_delivery history_arrival with_history eq_refl) as Hx.
  destruct (serve managed_config no_delivery history_arrival with_history) as [s1 r]. apply Hx.
Defined.
