(* ===== verification/Reconciler.v ===== *)
(** The reconciler (reconcile_docker of src/src/runtime.rs): from the containers
    and pods that Docker and Kubernetes list to the enrolled clients, the
    firewall, the names that the DNS forwarder answers and the isolation policy.

    A turn of its loop is a computation on [Reconciler], the state shared with
    the lease keeper and the loop's own variables; what the two inventories
    answer in a turn is [TurnInput]. *)

From S2P Require Import Prelude RustStr Net BTree State Isolation HostPolicy PortForward Docker Kubernetes Domain Config Nft Host Control Machine StateErr Enforcement LeaseKeeper Probe.

#[export] Instance PortForwardTargetInput_eq_dec : EqDecision PortForwardTargetInput.
Proof. solve_decision. Defined.

Record Reconciler : Type := {
  rc_keeper : Keeper;
  rc_pods : KubernetesSnapshot;
  (** the instant of the last good listing, in nanoseconds *)
  rc_pods_listed_at : option N;
  (** what the DNS forwarder is given *)
  rc_local_names : gmap string Ipv4Addr;
  rc_port_changes : N;
}.

Definition snapshot_empty : KubernetesSnapshot := {| ks_clients := ∅; ks_candidates := [] |}.

(** What the inventories answer, and the instant of the turn. *)
Record TurnInput : Type := {
  tn_instant : N;
  tn_listing : Result KubernetesSnapshot string;
  tn_network : Result NetworkInspect string;
  tn_containers : Result (list Container) string;
  tn_bridge_containers : Result (list Container) string;
}.

Definition pod_listing_expired (listed_at : option N) (max_stale now : N) : bool :=
  match listed_at with
  | None => true
  | Some listed_at => (max_stale <? saturating_sub now listed_at)%N
  end.

Section reconciler.
Context `{!IpNetCrate, !KeeperEnv} (config : Config).

Definition R (A : Type) : Type := St Reconciler A.

Definition on_keeper {A} (m : K A) : R A := fun s =>
  let '(k, r) := m s.(rc_keeper) in
  ({| rc_keeper := k; rc_pods := s.(rc_pods); rc_pods_listed_at := s.(rc_pods_listed_at);
      rc_local_names := s.(rc_local_names); rc_port_changes := s.(rc_port_changes) |}, r).
Definition set_pods (pods : KubernetesSnapshot) : R unit := modify (fun s =>
  {| rc_keeper := s.(rc_keeper); rc_pods := pods; rc_pods_listed_at := s.(rc_pods_listed_at);
     rc_local_names := s.(rc_local_names); rc_port_changes := s.(rc_port_changes) |}).
Definition set_listed_at (now : N) : R unit := modify (fun s =>
  {| rc_keeper := s.(rc_keeper); rc_pods := s.(rc_pods); rc_pods_listed_at := Some now;
     rc_local_names := s.(rc_local_names); rc_port_changes := s.(rc_port_changes) |}).
Definition send_local_names (names : gmap string Ipv4Addr) : R unit := modify (fun s =>
  {| rc_keeper := s.(rc_keeper); rc_pods := s.(rc_pods); rc_pods_listed_at := s.(rc_pods_listed_at);
     rc_local_names := names; rc_port_changes := s.(rc_port_changes) |}).
Definition notify_port_change : R unit := modify (fun s =>
  {| rc_keeper := s.(rc_keeper); rc_pods := s.(rc_pods); rc_pods_listed_at := s.(rc_pods_listed_at);
     rc_local_names := s.(rc_local_names); rc_port_changes := (s.(rc_port_changes) + 1) mod 2 ^ 64 |}).

Definition report (id : string) (status : CheckStatus) (impact : Impact) (reason_code message : string) : R unit :=
  on_keeper (check id status impact reason_code message).

(** ** Pods *)

Definition MAX_STALE : N := config.(c_kubernetes).(kc_max_stale_seconds) * 1000000000.

Definition reconcile_pods (input : TurnInput) : R unit :=
  match input.(tn_listing) with
  | Ok snapshot =>
      let* _ := set_pods snapshot in
      let* _ := set_listed_at input.(tn_instant) in
      report "kubernetes.discovery" Healthy Advisory "kubernetes.discovery_fresh" "Kubernetes pod inventory is fresh"
  | Err error =>
      let* listed_at := gets rc_pods_listed_at in
      let expired := pod_listing_expired listed_at MAX_STALE input.(tn_instant) in
      let* _ := if expired then set_pods snapshot_empty else ret tt in
      report "kubernetes.discovery" Degraded Advisory
        (if expired then "kubernetes.discovery_expired" else "kubernetes.discovery_failed")
        (if expired
         then "Kubernetes pod inventory is older than kubernetes.max_stale_seconds; every pod is dropped until a listing succeeds"
         else "Kubernetes pod inventory could not be refreshed; the last listing is kept")
  end.

(** ** The Docker network *)

Definition observer : DockerObserver :=
  {| ob_network_name := config.(c_network).(nc_name); ob_subnet := config.(c_network).(nc_subnet);
     ob_ipv6_subnet := i6_subnet <$> ipv6_routing config.(c_network);
     ob_max_port_forward_leases := N.to_nat config.(c_port_forwarding).(pc_max_leases) |}.

Definition report_reservation (network : NetworkObservation) : R unit :=
  if network.(no_gateway_address_reserved) then ret tt
  else report "topology.network_gateway_reservation" Degraded Advisory "topology.gateway_address_not_reserved"
         "The enrolled Docker network can allocate the gateway's own address to another container, which prevents the gateway starting after a restart".

Definition report_network_ipv6 (network : NetworkObservation) : R unit :=
  match ipv6_routing config.(c_network) with
  | Some _ =>
      let ready := network.(no_ipv6_enabled) && network.(no_ipv6_subnet_matches) && network.(no_ipv6_gateway_attached) in
      report "topology.network_ipv6" (if ready then Healthy else Degraded) Advisory
        (if ready then "topology.network_ipv6_ready" else "topology.network_ipv6_mismatch")
        (if ready then "The enrolled Docker network matches network.ipv6 and the gateway is attached"
         else "network.ipv6 is enabled, but the enrolled Docker network lacks IPv6, the configured subnet, or the gateway's address; enrolled IPv6 stays blocked")
  | None =>
      if network.(no_ipv6_enabled)
      then report "topology.network_ipv6" Degraded Advisory "topology.network_ipv6_enabled"
             "The enrolled Docker network has IPv6 enabled while network.ipv6 is off; enrolled IPv6 is rejected"
      else ret tt
  end.

Definition reconcile_network (input : TurnInput) : R unit :=
  match input.(tn_network) with
  | Ok inspected =>
      let network := inspect_network observer inspected config.(c_network).(nc_gateway_ip)
                       (i6_gateway_ip <$> ipv6_routing config.(c_network)) in
      let matches := network.(no_exists) && network.(no_subnet_matches) && network.(no_gateway_attached) in
      let* _ := report "topology.docker_network" (if matches then Healthy else Domain.Failed) Critical
        (if matches then "topology.network_matches" else "topology.network_mismatch")
        (if matches then "Docker network subnet and gateway attachment match configuration"
         else "Docker network subnet or gateway attachment does not match configuration") in
      let* _ := report_reservation network in
      report_network_ipv6 network
  | Err error =>
      report "topology.docker_network" Domain.Failed Critical "topology.network_missing"
        "The configured Docker network could not be inspected"
  end.

(** ** Clients *)

(** [clients.extend(pods)]: a pod's entry replaces a container's. *)
Definition merged_clients (containers : list Container) (pods : KubernetesSnapshot) : gmap string ClientState :=
  let clients := Docker.discover observer containers in
  if config.(c_kubernetes).(kc_enabled)
  then apply_port_forward_constraints (pods.(ks_clients) ∪ clients)
         (N.to_nat config.(c_port_forwarding).(pc_max_leases))
  else clients.

Definition with_traffic (traffic : ClientTrafficState) (c : ClientState) : ClientState :=
  {| cl_container_id := c.(cl_container_id); cl_usage_id := c.(cl_usage_id);
     cl_usage_id_source := c.(cl_usage_id_source); cl_name := c.(cl_name);
     cl_ipv4_address := c.(cl_ipv4_address); cl_port_forward_target := c.(cl_port_forward_target);
     cl_target_port := c.(cl_target_port); cl_compliant := c.(cl_compliant);
     cl_compliance_message := c.(cl_compliance_message); cl_running := c.(cl_running);
     cl_ipv6_address := c.(cl_ipv6_address); cl_networks := c.(cl_networks);
     cl_port_forward_label_valid := c.(cl_port_forward_label_valid); cl_route_intent := c.(cl_route_intent);
     cl_traffic := traffic |}.

(** A client that kept its address keeps its traffic. *)
Definition keep_traffic (existing : gmap string ClientState) (id : string) (client : ClientState) : ClientState :=
  match existing !! id with
  | Some old => if (old.(cl_ipv4_address) =? client.(cl_ipv4_address))%N then with_traffic old.(cl_traffic) client else client
  | None => client
  end.

Definition adopt_traffic (existing clients : gmap string ClientState) : gmap string ClientState :=
  map_imap (fun id client => Some (keep_traffic existing id client)) clients.

Definition reconcile_enforced (clients : gmap string ClientState) : K unit := fun s =>
  let '(policy, r) := reconcile_clients config clients (nft_at s.(k_asked)) (nft_at (S s.(k_asked))) s.(k_policy) in
  ({| k_app := s.(k_app); k_publisher := s.(k_publisher); k_policy := policy; k_leases := s.(k_leases);
      k_asked := S (S s.(k_asked)) |}, r).

Definition set_app_clients (clients : gmap string ClientState) (app : AppState) : AppState :=
  {| as_tunnel := app.(as_tunnel); as_traffic := app.(as_traffic); as_port_forward := app.(as_port_forward);
     as_port_forwards := app.(as_port_forwards); as_clients := clients; as_last_error := app.(as_last_error) |}.

(** The names of the running clients; of two clients of one name, the last in
    the order of identifiers. *)
Definition local_names (clients : gmap string ClientState) : gmap string Ipv4Addr :=
  list_to_map (rev (omap (fun client =>
    if client.(cl_running) && negb (is_empty client.(cl_name))
    then Some (to_ascii_lowercase client.(cl_name), client.(cl_ipv4_address)) else None)
    (btree_values String.leb clients))).

Definition set_snapshot_clients (clients : gmap string ClientState) (s : CanonicalSnapshot) : CanonicalSnapshot :=
  {| sn_schema_version := s.(sn_schema_version); sn_sequence := s.(sn_sequence);
     sn_generated_at_unix_ms := s.(sn_generated_at_unix_ms); sn_protection := s.(sn_protection);
     sn_availability := s.(sn_availability); sn_checks := s.(sn_checks); sn_transitions := s.(sn_transitions);
     sn_port_forward := s.(sn_port_forward); sn_port_forwards := s.(sn_port_forwards);
     sn_recovery := s.(sn_recovery); sn_external_probe := s.(sn_external_probe);
     sn_external_probes := s.(sn_external_probes); sn_vpn_server := s.(sn_vpn_server);
     sn_isolation_policy := s.(sn_isolation_policy); sn_host_policy := s.(sn_host_policy);
     sn_topology := s.(sn_topology); sn_clients := clients; sn_traffic := s.(sn_traffic);
     sn_last_client_path_success_at_unix_ms := s.(sn_last_client_path_success_at_unix_ms);
     sn_profile_management := s.(sn_profile_management) |}.

(** What the checks look at. *)
Record Findings : Type := {
  fd_has_ipv6 : bool;
  fd_invalid_labels : bool;
  fd_stopped : bool;
  fd_route_mismatch : bool;
  fd_route_unknown : bool;
  fd_ineligible : bool;
  fd_client_count : nat;
  fd_target_count : nat;
}.

Definition findings_of (clients : gmap string ClientState) : Findings :=
  let any (p : ClientState -> bool) := existsb p (btree_values String.leb clients) in
  {| fd_has_ipv6 := any (fun c => is_some c.(cl_ipv6_address));
     fd_invalid_labels := any (fun c => negb c.(cl_port_forward_label_valid));
     fd_stopped := any (fun c => negb c.(cl_running));
     fd_route_mismatch := any (fun c => bool_decide (c.(cl_route_intent).(ri_status) = Mismatch));
     fd_route_unknown := any (fun c => bool_decide (c.(cl_route_intent).(ri_status) = RouteUnknown));
     fd_ineligible := any (fun c => c.(cl_port_forward_target) && negb c.(cl_compliant));
     fd_client_count := size clients;
     fd_target_count :=
       length (List.filter (fun c => c.(cl_port_forward_target) && c.(cl_compliant)) (btree_values String.leb clients)) |}.

Definition report_route_intent (f : Findings) : R unit :=
  report "topology.route_intent"
    (if f.(fd_route_mismatch) then Degraded else if f.(fd_route_unknown) then Unknown else Healthy) Advisory
    (if f.(fd_route_mismatch) then "route_intent.alternate_selected"
     else if f.(fd_route_unknown) then "route_intent.unknown"
     else if (f.(fd_client_count) =? 0)%nat then "route_intent.no_clients" else "route_intent.egress_selected")
    (if f.(fd_route_mismatch) then "Docker declares an alternate IPv4 default for one or more enrolled clients; effective routes are not runtime-attested"
     else if f.(fd_route_unknown) then "Docker gateway metadata is insufficient for one or more enrolled clients; effective routes are not runtime-attested"
     else if (f.(fd_client_count) =? 0)%nat then "No enrolled clients require a declared-route observation"
     else "Docker declares the egress network as the IPv4 default for all enrolled clients; effective routes are not runtime-attested").

Definition report_client_ipv6 (f : Findings) : R unit :=
  let routed := is_some (ipv6_routing config.(c_network)) in
  report "topology.client_ipv6" (if f.(fd_has_ipv6) && negb routed then Degraded else Healthy) Advisory
    (if f.(fd_has_ipv6) then if routed then "topology.client_ipv6_routed" else "topology.client_ipv6_unsupported"
     else "topology.client_ipv4_only")
    (if f.(fd_has_ipv6) then
       if routed then "Enrolled client IPv6 addresses are routed through the tunnel or fail closed"
       else "An enrolled client has an IPv6 address while network.ipv6 is off; its IPv6 is rejected"
     else "No enrolled client IPv6 address was discovered").

Definition report_target_selection (f : Findings) : R unit :=
  report "port_forward.target_selection" (if f.(fd_invalid_labels) || f.(fd_ineligible) then Degraded else Healthy) Optional
    (if f.(fd_invalid_labels) then "port_forward.target_port_invalid"
     else if f.(fd_ineligible) then "port_forward.target_ineligible" else "port_forward.target_valid")
    (if f.(fd_invalid_labels) then "A forwarding target has a missing or invalid target-port label"
     else if f.(fd_ineligible) then "One or more forwarding targets are ineligible because of a duplicate target port, duplicate usage ID, lease cap, or routing compliance"
     else if (f.(fd_target_count) =? 0)%nat then "No forwarding target is currently eligible"
     else "Forwarding target labels are valid and within the configured lease limit").

Definition report_lifecycle (f : Findings) : R unit :=
  report "topology.client_lifecycle" (if f.(fd_stopped) then Degraded else Healthy) Advisory
    (if f.(fd_stopped) then "topology.client_not_running" else "topology.clients_running")
    (if f.(fd_stopped) then "One or more enrolled containers are not running"
     else "All discovered enrolled containers are running").

(** The first half of a good listing: the clients with the traffic that is known
    of them, and whether the inputs of port forwarding changed. *)
Definition prepared (containers : list Container) (s : Reconciler) : gmap string ClientState * bool :=
  let current := s.(rc_keeper).(k_app).(as_clients) in
  let clients := adopt_traffic current (merged_clients containers s.(rc_pods)) in
  (clients, negb (bool_decide (port_forward_target_inputs current = port_forward_target_inputs clients))).

(** The second half, once the firewall has been replaced. *)
Definition committed (clients : gmap string ClientState) (port_inputs_changed : bool) : R unit :=
  let* _ := on_keeper (modify (fun k => with_app (set_app_clients clients k.(k_app)) k)) in
  let* _ := if port_inputs_changed then notify_port_change else ret tt in
  let f := findings_of clients in
  let* _ := send_local_names (local_names clients) in
  let* _ := on_keeper (LeaseKeeper.mutate (set_snapshot_clients clients)) in
  let* _ := report "docker.discovery" Healthy Advisory "docker.discovery_fresh" "Docker enrollment inventory is fresh" in
  let* _ := report_route_intent f in
  let* _ := report_client_ipv6 f in
  let* _ := report_target_selection f in
  let* _ := report_lifecycle f in
  report "topology.configured" Healthy Critical "topology.config_consistent"
    "Configured subnet, gateway, bridge, and policy table are internally consistent".

Definition reconcile_inventory (input : TurnInput) : R unit :=
  match input.(tn_containers) with
  | Ok containers =>
      let* p := gets (prepared containers) in
      let '(clients, port_inputs_changed) := p in
      let* _ := on_keeper (reconcile_enforced clients) in
      committed clients port_inputs_changed
  | Err error =>
      let* _ := on_keeper (modify (fun k =>
        with_app (set_last_error ("Docker discovery failed: " +:+ error) k.(k_app)) k)) in
      report "docker.discovery" Degraded Advisory "docker.discovery_failed"
        "Docker enrollment inventory could not be refreshed"
  end.

(** ** The isolation policy *)

Definition isolation_policy_of (containers : list Container) (pods : KubernetesSnapshot) (now : N) : IsolationPolicy :=
  let candidates := sort_by candidate_leb (discover_isolation_candidates observer containers ++ pods.(ks_candidates)) in
  let policy := build_policy config.(c_network).(nc_name) config.(c_network).(nc_host_bridge)
                  config.(c_network).(nc_subnet) candidates now in
  {| ip_schema_version := policy.(ip_schema_version); ip_generated_at_unix_ms := policy.(ip_generated_at_unix_ms);
     ip_network := policy.(ip_network); ip_bridge := policy.(ip_bridge); ip_subnet := policy.(ip_subnet);
     ip_eligible_for_enforcement := policy.(ip_eligible_for_enforcement);
     ip_reason_code := policy.(ip_reason_code); ip_safe_message := policy.(ip_safe_message);
     ip_issues := policy.(ip_issues); ip_participants := policy.(ip_participants);
     ip_ipv6_subnet := (fun v => ipv6net_show v.(i6_subnet)) <$> ipv6_routing config.(c_network);
     ip_bound_range :=
       if config.(c_kubernetes).(kc_enabled)
       then ipv4net_show <$> config.(c_kubernetes).(kc_address_range) else policy.(ip_bound_range);
     ip_gateway_address :=
       if config.(c_kubernetes).(kc_enabled) then Some config.(c_network).(nc_gateway_ip)
       else policy.(ip_gateway_address);
     ip_rejected := policy.(ip_rejected) |}.

Definition set_isolation (posture : string) (policy : IsolationPolicy) (s : CanonicalSnapshot) : CanonicalSnapshot :=
  {| sn_schema_version := s.(sn_schema_version); sn_sequence := s.(sn_sequence);
     sn_generated_at_unix_ms := s.(sn_generated_at_unix_ms); sn_protection := s.(sn_protection);
     sn_availability := s.(sn_availability); sn_checks := s.(sn_checks); sn_transitions := s.(sn_transitions);
     sn_port_forward := s.(sn_port_forward); sn_port_forwards := s.(sn_port_forwards);
     sn_recovery := s.(sn_recovery); sn_external_probe := s.(sn_external_probe);
     sn_external_probes := s.(sn_external_probes); sn_vpn_server := s.(sn_vpn_server);
     sn_isolation_policy := policy; sn_host_policy := s.(sn_host_policy);
     sn_topology :=
       {| tp_network := s.(sn_topology).(tp_network); tp_subnet := s.(sn_topology).(tp_subnet);
          tp_gateway_address := s.(sn_topology).(tp_gateway_address);
          tp_host_bridge := s.(sn_topology).(tp_host_bridge); tp_policy_table := s.(sn_topology).(tp_policy_table);
          tp_client_ipv6_supported := s.(sn_topology).(tp_client_ipv6_supported);
          tp_default_route_verifiable := s.(sn_topology).(tp_default_route_verifiable);
          tp_declared_route_intent_observable := s.(sn_topology).(tp_declared_route_intent_observable);
          tp_client_isolation := posture |};
     sn_clients := s.(sn_clients); sn_traffic := s.(sn_traffic);
     sn_last_client_path_success_at_unix_ms := s.(sn_last_client_path_success_at_unix_ms);
     sn_profile_management := s.(sn_profile_management) |}.

Definition reconcile_isolation (input : TurnInput) : R unit :=
  match input.(tn_bridge_containers) with
  | Ok containers =>
      let* pods := gets rc_pods in
      let* now := on_keeper LeaseKeeper.unix_ms in
      let policy := isolation_policy_of containers pods now in
      let complete := policy.(ip_eligible_for_enforcement) in
      let has_participants := negb (length policy.(ip_participants) =? 0)%nat in
      let* _ := on_keeper (LeaseKeeper.mutate (set_isolation
        (if complete then "policy_complete_agent_mode_external"
         else if has_participants then "policy_incomplete_audit_only" else "no_running_participants") policy)) in
      report "topology.client_isolation"
        (if complete then Healthy else if has_participants then Degraded else Unknown) Advisory
        (if complete then "isolation.policy_complete"
         else if has_participants then "isolation.policy_incomplete" else "isolation.no_participants")
        (if complete then "Every running bridge participant has a complete isolation identity and allow-list"
         else if has_participants then "Bridge isolation policy is incomplete; enforce mode must degrade to audit"
         else "No running IPv4 bridge participants were discovered")
  | Err error =>
      report "topology.client_isolation" Degraded Advisory "isolation.inventory_unavailable"
        "Bridge isolation inventory could not be refreshed"
  end.

(** A turn of the loop; only a failure to replace the firewall ends it. *)
Definition reconcile_turn (input : TurnInput) : R unit :=
  let* _ := if config.(c_kubernetes).(kc_enabled) then reconcile_pods input else ret tt in
  let* _ := reconcile_network input in
  let* _ := reconcile_inventory input in
  reconcile_isolation input.
End reconciler.
