(* ===== verification/ReconcilerProps.v ===== *)
(** The reconciler: stale pods are dropped, the clients of a turn reach every
    reader together or not at all, and only running clients have names. *)

From S2P Require Import Prelude RustStr Net BTree State Isolation HostPolicy PortForward Docker Kubernetes Domain Config ConfigProps Nft Host Control Machine StateErr Enforcement EnforcementProps LeaseKeeper LeaseKeeperProps Probe Reconciler.

(** ** Steps that only report *)

(** What a report leaves alone. *)
Record same_core (s s1 : Reconciler) : Prop := {
  sc_app : s1.(rc_keeper).(k_app) = s.(rc_keeper).(k_app);
  sc_policy : s1.(rc_keeper).(k_policy) = s.(rc_keeper).(k_policy);
  sc_published : s1.(rc_keeper).(k_publisher).(sp_inner).(sn_clients) = s.(rc_keeper).(k_publisher).(sp_inner).(sn_clients);
  sc_pods : s1.(rc_pods) = s.(rc_pods);
  sc_listed : s1.(rc_pods_listed_at) = s.(rc_pods_listed_at);
  sc_names : s1.(rc_local_names) = s.(rc_local_names);
  sc_changes : s1.(rc_port_changes) = s.(rc_port_changes);
}.

#[export] Instance same_core_preorder : PreOrder same_core.
Proof.
  split; [by intros s; split|]. intros s s1 s2 Hr1 Hr2. destruct Hr1, Hr2. split; congruence.
Qed.

Section reconciler.
Context `{!IpNetCrate, !KeeperEnv} (config : Config).

Definition reporting {A} (m : R A) : Prop := forall s, same_core s (m s).1 /\ exists a, (m s).2 = Ok a.

Lemma reporting_bind {A B} (m : R A) (f : A -> R B) :
  reporting m -> (forall a, reporting (f a)) -> reporting (bind m f).
Proof.
  intros Hm Hf s. destruct (Hm s) as [Hs (a & Ha)]. unfold bind. destruct (m s) as [s1 r]. cbn in *. subst r.
  destruct (Hf a s1) as [Hs1 Hr]. split; [by etrans|done].
Qed.

Lemma reporting_ret {A} (a : A) : reporting (ret a).
Proof. intros s. split; [done|by eexists]. Qed.
Lemma reporting_gets {A} (f : Reconciler -> A) : reporting (gets f).
Proof. intros s. split; [done|by eexists]. Qed.

Lemma observe_keeps_clients p o now : (Control.observe p o now).(sp_inner).(sn_clients) = p.(sp_inner).(sn_clients).
Proof. unfold Control.observe. by destruct (observation_changed _ _ _). Qed.

Lemma reporting_report id status impact reason message : reporting (report id status impact reason message).
Proof. intros s. split; [|by eexists]. split; try done. apply observe_keeps_clients. Qed.

Lemma reporting_now : reporting (on_keeper LeaseKeeper.unix_ms).
Proof. intros s. split; [by split|by eexists]. Qed.

Lemma reporting_mutate f :
  (forall s, sn_clients (f s) = sn_clients s) -> reporting (on_keeper (LeaseKeeper.mutate f)).
Proof. intros Hf s. split; [|by eexists]. split; try done. apply Hf. Qed.

Create HintDb reports discriminated.
#[local] Hint Resolve reporting_ret reporting_gets reporting_report reporting_now : reports.

Lemma reporting_network input : reporting (reconcile_network config input).
Proof.
  unfold reconcile_network, report_reservation, report_network_ipv6. destruct (tn_network input); [|auto with reports].
  apply reporting_bind; [auto with reports|intros _].
  apply reporting_bind; [destruct (no_gateway_address_reserved _); auto with reports|intros _].
  destruct (ipv6_routing _); [auto with reports|]. destruct (no_ipv6_enabled _); auto with reports.
Qed.

Lemma reporting_isolation input : reporting (reconcile_isolation config input).
Proof.
  unfold reconcile_isolation. destruct (tn_bridge_containers input); [|auto with reports].
  apply reporting_bind; [auto with reports|intros pods]. apply reporting_bind; [auto with reports|intros now].
  cbv zeta. apply reporting_bind; [by apply reporting_mutate|intros _]. auto with reports.
Qed.

(** A report after a step that ended well. *)
Lemma after_reporting {A B} (m : R A) (f : A -> R B) s :
  (forall a, reporting (f a)) -> same_core (m s).1 (bind m f s).1
  /\ ((exists b, (bind m f s).2 = Ok b) <-> exists a, (m s).2 = Ok a).
Proof.
  intros Hf. unfold bind. destruct (m s) as [s1 [a|e]]; cbn.
  - destruct (Hf a s1) as [Hs Hr]. split; [done|]. split; [by eexists|done].
  - split; [done|]. by split; intros [? [=]].
Qed.

Lemma bind_step {A B} (m : R A) (f : A -> R B) s s1 a : m s = (s1, Ok a) -> bind m f s = f a s1.
Proof. unfold bind. by intros ->. Qed.

Lemma bind_fail {A B} (m : R A) (f : A -> R B) s s1 e : m s = (s1, Err e) -> bind m f s = (s1, Err e).
Proof. unfold bind. by intros ->. Qed.

(** ** Pods *)

Definition pods_spec (input : TurnInput) (s : Reconciler) : KubernetesSnapshot * option N :=
  match input.(tn_listing) with
  | Ok snapshot => (snapshot, Some input.(tn_instant))
  | Err _ =>
      (if pod_listing_expired s.(rc_pods_listed_at) (MAX_STALE config) input.(tn_instant) then snapshot_empty else s.(rc_pods),
       s.(rc_pods_listed_at))
  end.

Definition with_pods (p : KubernetesSnapshot * option N) (s : Reconciler) : Reconciler :=
  {| rc_keeper := s.(rc_keeper); rc_pods := p.1; rc_pods_listed_at := p.2;
     rc_local_names := s.(rc_local_names); rc_port_changes := s.(rc_port_changes) |}.

Lemma reconcile_pods_spec input s :
  same_core (with_pods (pods_spec input s) s) (reconcile_pods config input s).1
  /\ exists u, (reconcile_pods config input s).2 = Ok u.
Proof.
  unfold reconcile_pods, pods_spec. destruct (tn_listing input) as [snapshot|error].
  - apply (reporting_report _ _ _ _ _ (with_pods (snapshot, Some (tn_instant input)) s)).
  - cbn [bind gets]. destruct (pod_listing_expired _ _ _).
    + apply (reporting_report _ _ _ _ _ (with_pods (snapshot_empty, rc_pods_listed_at s) s)).
    + replace (with_pods (rc_pods s, rc_pods_listed_at s) s) with s by (by destruct s).
      apply (reporting_report _ _ _ _ _ s).
Qed.

(** Where the turn stands when it turns to the containers. *)
Definition pods_phase (input : TurnInput) (s : Reconciler) : Reconciler :=
  if config.(c_kubernetes).(kc_enabled) then with_pods (pods_spec input s) s else s.

Lemma before_inventory input s :
  exists s1, same_core (pods_phase input s) s1
    /\ reconcile_turn config input s
       = (let* _ := reconcile_inventory config input in reconcile_isolation config input) s1.
Proof.
  unfold reconcile_turn, pods_phase.
  assert (Hp : exists s1, same_core (if kc_enabled (c_kubernetes config) then with_pods (pods_spec input s) s else s) s1
    /\ (if kc_enabled (c_kubernetes config) then reconcile_pods config input else ret tt) s = (s1, Ok tt)).
  { destruct (kc_enabled _).
    - destruct (reconcile_pods_spec input s) as [Hs ([] & Hr)]. exists (reconcile_pods config input s).1.
      split; [done|]. rewrite <- Hr. by destruct (reconcile_pods config input s).
    - by exists s. }
  destruct Hp as (s1 & Hs1 & Heq). destruct (reporting_network input s1) as [Hs2 ([] & Hr)].
  exists (reconcile_network config input s1).1. split; [by etrans|].
  rewrite (bind_step _ _ _ _ _ Heq).
  apply (bind_step (reconcile_network config input)
           (fun _ => let* _ := reconcile_inventory config input in reconcile_isolation config input) s1 _ tt).
  rewrite <- Hr.
  by destruct (reconcile_network config input s1).
Qed.

(** ** Clients *)

Lemma reporting_committed_tail f :
  reporting (let* _ := report "docker.discovery" Healthy Advisory "docker.discovery_fresh" "Docker enrollment inventory is fresh" in
             let* _ := report_route_intent f in
             let* _ := report_client_ipv6 config f in
             let* _ := report_target_selection f in
             let* _ := report_lifecycle f in
             report "topology.configured" Healthy Critical "topology.config_consistent"
               "Configured subnet, gateway, bridge, and policy table are internally consistent").
Proof. repeat (apply reporting_bind; [apply reporting_report|intros _]). apply reporting_report. Qed.

Definition pods_held (s : Reconciler) : KubernetesSnapshot * option N := (s.(rc_pods), s.(rc_pods_listed_at)).

Lemma same_core_pods s s1 : same_core s s1 -> pods_held s1 = pods_held s.
Proof. intros [_ _ _ Hk Hl _ _]. unfold pods_held. by rewrite Hk, Hl. Qed.

(** What a good listing leaves. *)
Record committed_to (clients : gmap string ClientState) (changed : bool) (s s1 : Reconciler) : Prop := {
  ct_clients : s1.(rc_keeper).(k_app).(as_clients) = clients;
  ct_published : s1.(rc_keeper).(k_publisher).(sp_inner).(sn_clients) = clients;
  ct_names : s1.(rc_local_names) = local_names clients;
  ct_changes : s1.(rc_port_changes) = if changed then ((s.(rc_port_changes) + 1) mod 2 ^ 64)%N else s.(rc_port_changes);
  ct_policy : s1.(rc_keeper).(k_policy) = s.(rc_keeper).(k_policy);
  ct_pods : pods_held s1 = pods_held s;
}.

Lemma committed_spec clients changed s :
  committed_to clients changed s (committed config clients changed s).1
  /\ exists u, (committed config clients changed s).2 = Ok u.
Proof.
  unfold committed. cbv zeta.
  pose proof (reporting_committed_tail (findings_of clients)) as Htail.
  set (tail := let* _ := report "docker.discovery" _ _ _ _ in _) in *. clearbody tail.
  unfold bind, on_keeper, modify, notify_port_change, send_local_names, ret.
  destruct changed; cbn;
    match goal with |- context [tail ?s0] => destruct (Htail s0) as [[Ha Hp Hc Hk Hl Hn Hg] Hr] end;
    (split; [split; [by rewrite Ha|by rewrite Hc|by rewrite Hn|by rewrite Hg|by rewrite Hp|unfold pods_held; by rewrite Hk, Hl]|exact Hr]).
Qed.

Lemma prepared_same containers s s1 : same_core s s1 -> prepared config containers s1 = prepared config containers s.
Proof. intros [Ha _ _ Hk _ _ _]. unfold prepared. by rewrite Ha, Hk. Qed.

(** Everything that another task reads of the clients. *)
Definition readable (s : Reconciler) :=
  (s.(rc_keeper).(k_app).(as_clients), s.(rc_keeper).(k_publisher).(sp_inner).(sn_clients),
   s.(rc_local_names), s.(rc_port_changes)).

(** What a turn leaves of the clients, given how it ended. *)
Definition turn_outcome (input : TurnInput) (s s1 : Reconciler) (r : Result unit string) : Prop :=
  let s0 := pods_phase input s in
  match input.(tn_containers) with
  | Err _ => r = Ok tt /\ readable s1 = readable s /\ s1.(rc_keeper).(k_policy) = s.(rc_keeper).(k_policy)
  | Ok containers =>
      let '(clients, changed) := prepared config containers s0 in
      exists at_start at_end,
        let enforced := reconcile_clients config clients at_start at_end s.(rc_keeper).(k_policy) in
        s1.(rc_keeper).(k_policy) = enforced.1
        /\ match enforced.2 with
           | Ok _ => r = Ok tt
               /\ readable s1 = (clients, clients, local_names clients,
                                 if changed then ((s.(rc_port_changes) + 1) mod 2 ^ 64)%N else s.(rc_port_changes))
           | Err e => r = Err e /\ readable s1 = readable s
           end
  end.

Lemma same_core_readable s s1 : same_core s s1 -> readable s1 = readable s.
Proof. intros [Ha _ Hc _ _ Hn Hg]. unfold readable. by rewrite Ha, Hc, Hn, Hg. Qed.

Lemma pods_phase_core input s :
  readable (pods_phase input s) = readable s /\ (pods_phase input s).(rc_keeper) = s.(rc_keeper).
Proof. unfold pods_phase. by destruct (kc_enabled _). Qed.

Definition with_keeper (k : Keeper) (s : Reconciler) : Reconciler :=
  {| rc_keeper := k; rc_pods := s.(rc_pods); rc_pods_listed_at := s.(rc_pods_listed_at);
     rc_local_names := s.(rc_local_names); rc_port_changes := s.(rc_port_changes) |}.

(** The state after the firewall was replaced, or was not. *)
Definition enforced_state (policy : DesiredPolicy) (s : Reconciler) : Reconciler :=
  with_keeper {| k_app := s.(rc_keeper).(k_app); k_publisher := s.(rc_keeper).(k_publisher); k_policy := policy;
                 k_leases := s.(rc_keeper).(k_leases); k_asked := S (S s.(rc_keeper).(k_asked)) |} s.

Lemma enforced_step clients s : exists at_start at_end,
  let enforced := reconcile_clients config clients at_start at_end s.(rc_keeper).(k_policy) in
  on_keeper (reconcile_enforced config clients) s = (enforced_state enforced.1 s, enforced.2).
Proof.
  exists (nft_at s.(rc_keeper).(k_asked)), (nft_at (S s.(rc_keeper).(k_asked))). cbv zeta.
  unfold on_keeper, reconcile_enforced. by destruct (reconcile_clients _ _ _ _ _) as [policy r].
Qed.

Lemma inventory_outcome input s s1 :
  same_core (pods_phase input s) s1 ->
  turn_outcome input s (reconcile_inventory config input s1).1 (reconcile_inventory config input s1).2
  /\ pods_held (reconcile_inventory config input s1).1 = pods_held (pods_phase input s).
Proof.
  intros Hcore. destruct (pods_phase_core input s) as [Hread Hkeep].
  assert (Hread1 : readable s1 = readable s) by (rewrite <- Hread; by apply same_core_readable).
  assert (Hpolicy : k_policy (rc_keeper s1) = k_policy (rc_keeper s)) by (by rewrite (sc_policy _ _ Hcore), Hkeep).
  rewrite <- (same_core_pods _ _ Hcore). unfold reconcile_inventory, turn_outcome.
  destruct (tn_containers input) as [containers|error].
  - rewrite <- (prepared_same containers _ _ Hcore).
    rewrite (bind_step (gets (prepared config containers)) _ s1 s1 _ eq_refl).
    destruct (prepared config containers s1) as [clients changed].
    destruct (enforced_step clients s1) as (at_start & at_end & Henf). rewrite Hpolicy in Henf.
    destruct (reconcile_clients config clients at_start at_end _) as [policy [[]|e]] eqn:He; cbn [fst snd] in Henf.
    + rewrite (bind_step _ _ _ _ _ Henf).
      destruct (committed_spec clients changed (enforced_state policy s1)) as [[Hc Hp Hn Hg Hk Hpods] ([] & Hr)].
      split; [|exact Hpods]. exists at_start, at_end. rewrite He. cbn [fst snd].
      split; [exact Hk|]. split; [exact Hr|]. unfold readable. rewrite Hc, Hp, Hn, Hg.
      unfold readable in Hread1. by injection Hread1 as _ _ _ <-.
    + rewrite (bind_fail _ _ _ _ _ Henf). cbn [fst snd]. split; [|done]. exists at_start, at_end. by rewrite He.
  - match goal with |- context [bind (on_keeper (modify ?f)) _ s1] =>
      rewrite !(bind_step (on_keeper (modify f)) _ s1 (with_keeper (f s1.(rc_keeper)) s1) tt eq_refl) end.
    match goal with |- context [report ?a ?b ?c ?d ?e ?s2] =>
      destruct (reporting_report a b c d e s2) as [Hs ([] & Hr)] end.
    split; [|by rewrite (same_core_pods _ _ Hs)]. split; [exact Hr|]. split; [|by rewrite (sc_policy _ _ Hs)].
    rewrite <- Hread1. by rewrite (same_core_readable _ _ Hs).
Qed.

Lemma turn_outcome_pods input s :
  turn_outcome input s (reconcile_turn config input s).1 (reconcile_turn config input s).2
  /\ pods_held (reconcile_turn config input s).1 = pods_held (pods_phase input s).
Proof.
  destruct (before_inventory input s) as (s0 & Hcore & ->).
  destruct (inventory_outcome input s s0 Hcore) as [Hout Hpods].
  pose proof (after_reporting (reconcile_inventory config input) (fun _ => reconcile_isolation config input) s0
                (fun _ => reporting_isolation input)) as [Hs Hr].
  assert (Herr : forall e, (reconcile_inventory config input s0).2 = Err e ->
    ((let* _ := reconcile_inventory config input in reconcile_isolation config input) s0).2 = Err e).
  { intros e. unfold bind. by destruct (reconcile_inventory config input s0) as [s1 [|]]. }
  destruct ((let* _ := reconcile_inventory config input in reconcile_isolation config input) s0) as [s2 r2].
  cbn [fst snd] in *. split; [|by rewrite (same_core_pods _ _ Hs)].
  revert Hout. unfold turn_outcome. rewrite <- (same_core_readable _ _ Hs), <- (sc_policy _ _ Hs).
  assert (Hok : (reconcile_inventory config input s0).2 = Ok tt -> r2 = Ok tt).
  { intros Hi. destruct (proj2 Hr) as [[] Hb]; [by exists tt|done]. }
  destruct (tn_containers input) as [containers|error]; [|intros (Hi & Hread & Hp); auto].
  destruct (prepared config containers _) as [clients changed]. intros (at_start & at_end & Hp & Hres).
  exists at_start, at_end. split; [done|].
  destruct (reconcile_clients _ _ _ _ _) as [policy [u|e]]; destruct Hres as [Hi Hread]; cbn [snd]; auto.
Qed.


(** ** Freshness of the pods *)

Definition rc_run (inputs : list TurnInput) (s : Reconciler) : Reconciler :=
  foldl (fun s input => (reconcile_turn config input s).1) s inputs.

Definition listed (inputs : list TurnInput) (pods : KubernetesSnapshot) (at_ : N) : Prop :=
  exists input, input ∈ inputs /\ input.(tn_listing) = Ok pods /\ input.(tn_instant) = at_.

(** C19: a pod that Kubernetes no longer lists is dropped in bounded time.  After
    any turns, well or badly ended, the pods in use are none, or those of a
    listing that succeeded at most [kubernetes.max_stale_seconds] before the last
    turn. *)
Theorem pod_inventory_fresh inputs input s :
  config.(c_kubernetes).(kc_enabled) = true ->
  s.(rc_pods) = snapshot_empty -> s.(rc_pods_listed_at) = None ->
  let s1 := rc_run (inputs ++ [input]) s in
  s1.(rc_pods) = snapshot_empty
  \/ exists at_, listed (inputs ++ [input]) s1.(rc_pods) at_
       /\ (input.(tn_instant) <= at_ + config.(c_kubernetes).(kc_max_stale_seconds) * 1000000000)%N.
Proof.
  intros Hk Hpods Hlisted s1.
  assert (Hinv : forall l, let s2 := rc_run l s in
    match s2.(rc_pods_listed_at) with
    | None => s2.(rc_pods) = snapshot_empty
    | Some at_ => s2.(rc_pods) = snapshot_empty \/ listed l s2.(rc_pods) at_
    end).
  { intros l. induction l as [|x l IH] using rev_ind; [cbn; by rewrite Hlisted|].
    cbv zeta in *. unfold rc_run in *. rewrite foldl_app. cbn [foldl].
    set (s2 := foldl _ s l) in *. destruct (turn_outcome_pods x s2) as [_ Hheld].
    injection Hheld as -> ->. unfold pods_phase. rewrite Hk. unfold pods_spec, with_pods.
    destruct (tn_listing x) as [snapshot|error] eqn:Hx; cbn [rc_pods rc_pods_listed_at fst snd].
    - right. exists x. split_and!; [set_solver|done|done].
    - destruct (rc_pods_listed_at s2) as [at_|]; [|done].
      destruct (pod_listing_expired _ _ _); [by left|]. destruct IH as [IH|(y & Hy & Hly & Hat)]; [by left|].
      right. exists y. split_and!; [set_solver|done|done]. }
  subst s1. specialize (Hinv inputs). unfold rc_run in *. cbv zeta in Hinv. rewrite foldl_app. cbn [foldl].
  set (s2 := foldl _ s inputs) in *.
  destruct (turn_outcome_pods input s2) as [_ Hheld]. injection Hheld as -> _. unfold pods_phase. rewrite Hk.
  unfold pods_spec, with_pods. destruct (tn_listing input) as [snapshot|error] eqn:Hx; cbn [rc_pods fst].
  - right. exists input.(tn_instant). split; [|lia]. exists input. split_and!; [set_solver|done|done].
  - unfold pod_listing_expired. destruct (rc_pods_listed_at s2) as [at_|]; [|by left].
    destruct (N.ltb_spec (MAX_STALE config) (saturating_sub (tn_instant input) at_)) as [|Hle]; [by left|].
    destruct Hinv as [Hinv|(y & Hy & Hly & Hat)]; [by left|]. right. exists at_. split.
    + exists y. split_and!; [set_solver|done|done].
    + unfold saturating_sub, MAX_STALE in Hle. lia.
Qed.

(** ** Names *)

Definition named (client : ClientState) : option (string * Ipv4Addr) :=
  if client.(cl_running) && negb (is_empty client.(cl_name))
  then Some (to_ascii_lowercase client.(cl_name), client.(cl_ipv4_address)) else None.

Lemma named_Some client name address :
  named client = Some (name, address) <->
  client.(cl_running) = true /\ client.(cl_name) <> "" /\ to_ascii_lowercase client.(cl_name) = name
  /\ client.(cl_ipv4_address) = address.
Proof.
  unfold named, is_empty. destruct (cl_running client); cbn; [|naive_solver].
  destruct (String.eqb_spec client.(cl_name) ""); cbn; naive_solver.
Qed.

Lemma local_names_entry clients entry :
  entry ∈ rev (omap named (btree_values String.leb clients))
  <-> exists id client, clients !! id = Some client /\ named client = Some entry.
Proof.
  rewrite list_elem_of_In, <- in_rev, <- list_elem_of_In, list_elem_of_omap.
  setoid_rewrite elem_of_btree_values. naive_solver.
Qed.

(** the forwarder resolves running clients only.  After a turn that listed the
    containers and replaced the firewall, a name resolves exactly when it is the
    lower-case name of a running client, and then to the address of such a
    client. *)
Theorem names_of_running_clients input s containers s1 :
  input.(tn_containers) = Ok containers -> reconcile_turn config input s = (s1, Ok tt) ->
  let clients := s1.(rc_keeper).(k_app).(as_clients) in
  let answers name address := exists id client, clients !! id = Some client /\ client.(cl_running) = true
    /\ client.(cl_name) <> "" /\ to_ascii_lowercase client.(cl_name) = name /\ client.(cl_ipv4_address) = address in
  (forall name address, s1.(rc_local_names) !! name = Some address -> answers name address)
  /\ forall name, is_Some (s1.(rc_local_names) !! name) <-> exists address, answers name address.
Proof.
  intros Hc Hturn. destruct (turn_outcome_pods input s) as [Hout _]. rewrite Hturn in Hout. cbn [fst snd] in Hout.
  unfold turn_outcome in Hout. rewrite Hc in Hout.
  destruct (prepared config containers _) as [clients changed]. destruct Hout as (at_start & at_end & _ & Hres).
  destruct (reconcile_clients _ _ _ _ _) as [policy [u|e]]; destruct Hres as [Hr Hread]; [|discriminate Hr].
  unfold readable in Hread. injection Hread as -> _ -> _. cbv zeta.
  assert (Hin : forall name address, (name, address) ∈ rev (omap named (btree_values String.leb clients)) <->
    exists id client, clients !! id = Some client /\ client.(cl_running) = true
      /\ client.(cl_name) <> "" /\ to_ascii_lowercase client.(cl_name) = name /\ client.(cl_ipv4_address) = address).
  { intros name address. rewrite local_names_entry. by setoid_rewrite named_Some. }
  change (local_names clients) with (list_to_map (M := gmap string Ipv4Addr) (rev (omap named (btree_values String.leb clients)))).
  split.
  - intros name address Hl%elem_of_list_to_map_2. by apply Hin.
  - intros name. rewrite <- not_eq_None_Some, <- not_elem_of_list_to_map. split.
    + intros Hn. destruct (decide (name ∈ (rev (omap named (btree_values String.leb clients))).*1)) as [He|]; [|done].
      apply list_elem_of_fmap in He as ([name1 address] & -> & He). exists address. by apply Hin.
    + intros [address Ha] Hn. apply Hn, list_elem_of_fmap. exists (name, address). split; [done|]. by apply Hin.
Qed.

(** ** Checks that are never withdrawn *)

Definition RESERVATION : string := "topology.network_gateway_reservation".

Definition reported_unreserved (s : Reconciler) : Prop :=
  exists check, s.(rc_keeper).(k_publisher).(sp_inner).(sn_checks) !! RESERVATION = Some check
                /\ check.(sc_status) = Degraded.

Definition latched {A} (m : R A) : Prop := forall s, reported_unreserved s -> reported_unreserved (m s).1.

Lemma latched_bind {A B} (m : R A) (f : A -> R B) : latched m -> (forall a, latched (f a)) -> latched (bind m f).
Proof. intros Hm Hf s Hs. unfold bind. specialize (Hm s Hs). destruct (m s) as [s1 [a|e]]; [by apply Hf|done]. Qed.
Lemma latched_ret {A} (a : A) : latched (ret a). Proof. by intros s. Qed.
Lemma latched_gets {A} (f : Reconciler -> A) : latched (gets f). Proof. by intros s. Qed.
Lemma latched_modify f : (forall s, (f s).(rc_keeper) = s.(rc_keeper)) -> latched (modify f).
Proof. intros Hf s. unfold reported_unreserved, modify. cbn. by rewrite Hf. Qed.
Lemma latched_now : latched (on_keeper LeaseKeeper.unix_ms). Proof. by intros s. Qed.
Lemma latched_keeper f :
  (forall k, (f k).(k_publisher) = k.(k_publisher)) -> latched (on_keeper (modify f)).
Proof. intros Hf s. unfold reported_unreserved, on_keeper, modify. cbn. by rewrite Hf. Qed.
Lemma latched_mutate f : (forall s, sn_checks (f s) = sn_checks s) -> latched (on_keeper (LeaseKeeper.mutate f)).
Proof. intros Hf s. unfold reported_unreserved, on_keeper. cbn. by rewrite Hf. Qed.
Lemma latched_enforced clients : latched (on_keeper (reconcile_enforced config clients)).
Proof.
  intros s. unfold reported_unreserved, on_keeper, reconcile_enforced.
  by destruct (reconcile_clients _ _ _ _ _) as [policy r].
Qed.
Lemma latched_report id status impact reason message :
  (id = RESERVATION -> status = Degraded) -> latched (report id status impact reason message).
Proof.
  intros Hid s (check & Hc & Hst). unfold reported_unreserved. cbn. unfold Control.observe.
  destruct (decide (id = RESERVATION)) as [->|Hne].
  - destruct (observation_changed _ _ _); cbn; rewrite lookup_insert_eq; eexists; (split; [done|]); by apply Hid.
  - destruct (observation_changed _ _ _); cbn; rewrite lookup_insert_ne by done; eauto.
Qed.

(** Once reported, a gateway address that Docker could hand out stays reported:
    no turn of the reconciler observes that check again as anything else. *)
Lemma reservation_never_withdrawn input : latched (reconcile_turn config input).
Proof.
  unfold reconcile_turn, reconcile_pods, reconcile_network, report_reservation, report_network_ipv6,
    reconcile_inventory, committed, reconcile_isolation, report_route_intent, report_client_ipv6,
    report_target_selection, report_lifecycle, set_pods, set_listed_at, notify_port_change, send_local_names.
  repeat first
    [ progress cbv beta iota zeta
    | lazymatch goal with
      | |- latched (bind _ _) => apply latched_bind; [|intros ?]
      | |- latched (ret _) => apply latched_ret
      | |- latched (gets _) => apply latched_gets
      | |- latched (modify _) => apply latched_modify; by intros ?
      | |- latched (report _ _ _ _ _) => apply latched_report; (discriminate || reflexivity)
      | |- latched (on_keeper LeaseKeeper.unix_ms) => apply latched_now
      | |- latched (on_keeper (LeaseKeeper.mutate _)) => apply latched_mutate; by intros ?
      | |- latched (on_keeper (reconcile_enforced _ _)) => apply latched_enforced
      | |- latched (on_keeper (modify _)) => apply latched_keeper; by intros ?
      end
    | match goal with |- latched (match ?x with _ => _ end) => destruct x end ].
Qed.

(** ** Samples between the two halves of a turn *)

(** The clients that a turn stores carry the traffic that it read before it
    replaced the firewall: a sample that is stored in between, which [s1] is the
    state after, is lost. *)
Lemma sample_between_is_lost containers s s1 id old client :
  let '(clients, changed) := prepared config containers s in
  s.(rc_keeper).(k_app).(as_clients) !! id = Some old ->
  merged_clients config containers s.(rc_pods) !! id = Some client ->
  old.(cl_ipv4_address) = client.(cl_ipv4_address) ->
  cl_traffic <$> (committed config clients changed s1).1.(rc_keeper).(k_app).(as_clients) !! id = Some old.(cl_traffic).
Proof.
  unfold prepared. intros Hold Hclient Haddress.
  match goal with |- context [committed config ?clients ?changed s1] =>
    destruct (committed_spec clients changed s1) as [[-> _ _ _ _ _] _] end.
  unfold adopt_traffic. rewrite map_lookup_imap, Hclient. cbn. unfold keep_traffic.
  by rewrite Hold, Haddress, N.eqb_refl.
Qed.
End reconciler.

(** ** A run *)

#[local] Existing Instance CidrNet.crate.
#[local] Existing Instance LeaseKeeperProps.example_gateway.

Definition pods_config : @Config CidrNet.crate :=
  let c := example_config in
  {| c_listen := c.(c_listen); c_docker_socket := c.(c_docker_socket); c_network := c.(c_network);
     c_wireguard := c.(c_wireguard); c_port_forwarding := c.(c_port_forwarding); c_dns := c.(c_dns);
     c_probe := c.(c_probe); c_external_probe := c.(c_external_probe); c_identity := c.(c_identity);
     c_persistence := c.(c_persistence); c_otel := c.(c_otel); c_vpn_server := c.(c_vpn_server);
     c_recovery := c.(c_recovery); c_reconcile := c.(c_reconcile);
     c_kubernetes :=
       {| kc_enabled := true; kc_node_name := "node"; kc_network_attachment := "egressy"; kc_namespaces := ["default"];
          kc_address_range := None; kc_api_url := None; kc_token_path := "/token"; kc_ca_path := "/ca";
          kc_timeout_seconds := 5; kc_max_stale_seconds := 60 |} |}.

Definition some_pods : KubernetesSnapshot := {| ks_clients := example_clients; ks_candidates := [] |}.
Definition listing (at_seconds : N) (result : Result KubernetesSnapshot string) : TurnInput :=
  {| tn_instant := at_seconds * 1000000000; tn_listing := result; tn_network := Err "no such network";
     tn_containers := Ok []; tn_bridge_containers := Ok [] |}.

Definition reconciler_start : Reconciler :=
  {| rc_keeper := keeper_start example_app (publisher_new snapshot_default); rc_pods := snapshot_empty;
     rc_pods_listed_at := None; rc_local_names := ∅; rc_port_changes := 0 |}.

(** The pods stay for a minute after the last good listing. *)
Example stale_pods_are_dropped :
  let held turns := size (rc_run pods_config turns reconciler_start).(rc_keeper).(k_app).(as_clients) in
  held [listing 0 (Ok some_pods)] = size example_clients
  /\ held [listing 0 (Ok some_pods); listing 60 (Err "unreachable")] = size example_clients
  /\ held [listing 0 (Ok some_pods); listing 61 (Err "unreachable")] = 0%nat.
Proof. vm_compute. split_and!; reflexivity. Qed.

Lemma pod_inventory_fresh_witness :
  let s1 := rc_run pods_config ([listing 0 (Ok some_pods)] ++ [listing 60 (Err "unreachable")]) reconciler_start in
  s1.(rc_pods) = snapshot_empty
  \/ exists at_, listed ([listing 0 (Ok some_pods)] ++ [listing 60 (Err "unreachable")]) s1.(rc_pods) at_
       /\ (tn_instant (listing 60 (Err "unreachable"))
           <= at_ + pods_config.(c_kubernetes).(kc_max_stale_seconds) * 1000000000)%N.
Proof.
  apply (pod_inventory_fresh pods_config [listing 0 (Ok some_pods)] (listing 60 (Err "unreachable")) reconciler_start
           eq_refl eq_refl eq_refl).
Defined.

Definition reconciled : Reconciler := (reconcile_turn pods_config (listing 0 (Ok some_pods)) reconciler_start).1.

Lemma reconciled_turn : reconcile_turn pods_config (listing 0 (Ok some_pods)) reconciler_start = (reconciled, Ok tt).
Proof.
  assert (Hok : match (reconcile_turn pods_config (listing 0 (Ok some_pods)) reconciler_start).2 with
                | Ok _ => true | Err _ => false end = true) by (vm_compute; reflexivity).
  unfold reconciled. destruct (reconcile_turn _ _ _) as [s1 [[]|e]]; [reflexivity|discriminate Hok].
Qed.

Lemma names_of_running_clients_witness :
  forall name, is_Some (reconciled.(rc_local_names) !! name) ->
  exists id client, reconciled.(rc_keeper).(k_app).(as_clients) !! id = Some client /\ client.(cl_running) = true.
Proof.
  intros name Hname.
  destruct (names_of_running_clients pods_config (listing 0 (Ok some_pods)) reconciler_start [] reconciled eq_refl
              reconciled_turn) as [_ Hx].
  apply Hx in Hname as (address & id & client & Hc & Hr & _). eauto.
Defined.
