(* ===== verification/Supervision.v ===== *)
(** The recording tasks (monitor_client_traffic, supervise_history and
    record_history of src/src/runtime.rs): what they hand to the history store,
    and how a store that fails is replaced while the program goes on.

    The store and its writer thread are those of [History].  The supervisor
    waits for the thread in the middle of a turn, so its turn is the steps of
    [history_step]; a turn of the sampler and a reaction of the recorder are
    taken whole. *)

From S2P Require Import Prelude RustStr Net BTree State Isolation HostPolicy PortForward Domain Float64 Config Nft Host Control Machine StateErr WireGuard Profiles Enforcement Routes ProfileManager LeaseKeeper TunnelMonitor Probe History Telemetry Docker Kubernetes Reconciler.

Definition check_of (id : string) (status : CheckStatus) (impact : Impact) (reason_code message : string) : Observation :=
  {| ob_id := id; ob_status := status; ob_impact := impact; ob_reason_code := reason_code;
     ob_safe_message := message; ob_next_attempt_at_unix_ms := None; ob_recovery_attempt := None |}.

(** [if let Some(store) = history.read().await.clone()]: the clone sends into the
    same queue. *)
Definition to_store (f : HistoryStore -> HistoryStore * bool) (history : option HistoryStore) : option HistoryStore :=
  (fun store => (f store).1) <$> history.

(** ** The traffic of the clients *)

Record Sampler : Type := {
  sa_keeper : Keeper;
  sa_history : option HistoryStore;
  sa_metrics : list Measurement;
}.

Definition usage_observation (now : N) (container_id : string) (client : ClientState) (totals : ClientCounterTotals)
    : UsageObservation :=
  {| uo_sampled_at_unix_ms := now; uo_usage_id := client.(cl_usage_id);
     uo_usage_id_source := client.(cl_usage_id_source); uo_container_id := container_id;
     uo_ipv4_address := show_ipv4 client.(cl_ipv4_address); uo_name := client.(cl_name);
     uo_download_bytes := totals.(tot_downloaded_bytes); uo_upload_bytes := totals.(tot_uploaded_bytes);
     uo_download_packets := totals.(tot_download_packets); uo_upload_packets := totals.(tot_upload_packets) |}.

Section sampler.
Context `{!IpNetCrate, !KeeperEnv} (config : Config).

Definition T (A : Type) : Type := St Sampler A.

Definition keeping {A} (m : K A) : T A := fun s =>
  let '(k, r) := m s.(sa_keeper) in
  ({| sa_keeper := k; sa_history := s.(sa_history); sa_metrics := s.(sa_metrics) |}, r).

(** One pair of the loop over the counters. *)
Definition sample_client (now : N) (sample : string * ClientCounterTotals) : T unit :=
  let '(container_id, totals) := sample in
  let* clients := gets (fun s => s.(sa_keeper).(k_app).(as_clients)) in
  match clients !! container_id with
  | None => ret tt
  | Some client =>
      modify (fun s =>
        {| sa_keeper := with_app (set_app_clients (<[container_id := with_totals now totals client]> clients)
                                    s.(sa_keeper).(k_app)) s.(sa_keeper);
           sa_history := to_store (record_usage (usage_observation now container_id client totals)) s.(sa_history);
           sa_metrics := s.(sa_metrics) ++
             record_client client.(cl_usage_id) totals.(tot_downloaded_bytes) totals.(tot_uploaded_bytes)
               totals.(tot_download_packets) totals.(tot_upload_packets) |})
  end.

Definition traffic_turn : T unit :=
  let* sampled := attempt (keeping (enforce (sample_client_counters config))) in
  match sampled with
  | Ok counters =>
      let* now := keeping LeaseKeeper.unix_ms in
      let* _ := each (sample_client now) (btree_iter String.leb counters) in
      let* clients := gets (fun s => s.(sa_keeper).(k_app).(as_clients)) in
      let* _ := keeping (LeaseKeeper.mutate (set_snapshot_clients clients)) in
      keeping (LeaseKeeper.observe (check_of "traffic.clients" Healthy Advisory "traffic.client_counters_sampled"
        "Per-client nftables counters were sampled"))
  | Err _ =>
      keeping (LeaseKeeper.observe (check_of "traffic.clients" Degraded Advisory "traffic.client_counters_unavailable"
        "Per-client nftables counters are unavailable"))
  end.
End sampler.

(** ** The recorder *)

Record Recorder : Type := {
  re_history : option HistoryStore;
  re_last_port_sequences : gmap string N;
}.

(** What wakes the recorder: a transition that the channel still held, or the
    latest snapshot. *)
Inductive RecorderInput : Type :=
  | TransitionSeen (t : Transition)
  | SnapshotSeen (s : CanonicalSnapshot).

Definition port_observation (snapshot : CanonicalSnapshot) (usage_id : string) (status : PortForwardStatus)
    : PortForwardObservation :=
  {| fo_timestamp_unix_ms := default snapshot.(sn_generated_at_unix_ms) status.(ps_changed_at_unix_ms);
     fo_usage_id := usage_id; fo_phase := status.(ps_phase); fo_external_port := status.(ps_external_port) |}.

Definition sequences_of (s : CanonicalSnapshot) : gmap string N := ps_change_sequence <$> s.(sn_port_forwards).

Definition recorder_start (history : option HistoryStore) (s : CanonicalSnapshot) : Recorder :=
  {| re_history := history; re_last_port_sequences := sequences_of s |}.

Section recorder.
Context `{!Sqlite}.

(** One forward of a snapshot, with the store at hand. *)
Definition record_forward (snapshot : CanonicalSnapshot) (state : HistoryStore * gmap string N)
    (forward : string * PortForwardStatus) : HistoryStore * gmap string N :=
  let '(store, last) := state in
  let '(usage_id, status) := forward in
  if (status.(ps_change_sequence) =? 0)%N || bool_decide (last !! usage_id = Some status.(ps_change_sequence))
  then (store, last)
  else ((record_port_forward (port_observation snapshot usage_id status) store).1,
        <[usage_id := status.(ps_change_sequence)]> last).

Definition recorder_step (r : Recorder) (input : RecorderInput) : Recorder :=
  match input with
  | TransitionSeen t =>
      {| re_history := to_store (record_transition t) r.(re_history);
         re_last_port_sequences := r.(re_last_port_sequences) |}
  | SnapshotSeen snapshot =>
      match r.(re_history) with
      | None => r
      | Some store =>
          let '(store, last) := foldl (record_forward snapshot) (store, r.(re_last_port_sequences))
                                  (btree_iter String.leb snapshot.(sn_port_forwards)) in
          {| re_history := Some store; re_last_port_sequences := last |}
      end
  end.
End recorder.

(** ** The supervisor *)

Definition PERSISTENCE : string := "history.persistence".

Definition flushed_observation (dropped : N) : Observation :=
  let none := (dropped =? 0)%N in
  check_of PERSISTENCE (if none then Healthy else Degraded) Advisory
    (if none then "history.database_ready" else "history.writer_dropped_samples")
    (if none then "App-owned history database is ready"
     else "The bounded history writer dropped one or more observations").
Definition failed_observation : Observation :=
  check_of PERSISTENCE Degraded Advisory "history.writer_unavailable"
    "App-owned history writer failed; current-state operation continues".
Definition recovered_observation : Observation :=
  check_of PERSISTENCE Healthy Advisory "history.database_recovered" "App-owned history database recovered".

(** The shared store, the supervisor's wait for a reply, and the publisher. *)
Record Supervised : Type := {
  su_history : option HistoryStore;
  su_waiting : option nat;
  su_publisher : StatePublisher;
}.

Section supervisor.
Context `{!Sqlite} (config : PersistenceConfig).

Definition report_history (o : Observation) (now : N) (history : option HistoryStore) (s : Supervised) : Supervised :=
  {| su_history := history; su_waiting := None; su_publisher := Control.observe s.(su_publisher) o now |}.

(** The two results of [store.flush().await]. *)
Definition flush_succeeded (now : N) (store : HistoryStore) (s : Supervised) : Supervised :=
  report_history (flushed_observation store.(hs_dropped_writes)) now (Some store) s.
Definition flush_failed (now : N) (s : Supervised) : Supervised := report_history failed_observation now None s.

(** The other branch of the turn: a new store, when the database opens. *)
Definition reopen (now : N) (c : Conn) (s : Supervised) : Supervised :=
  match open_store config c with
  | Ok store => report_history recovered_observation now (Some store) s
  | Err _ => s
  end.

Definition with_store (store : HistoryStore) (s : Supervised) : Supervised :=
  {| su_history := Some store; su_waiting := s.(su_waiting); su_publisher := s.(su_publisher) |}.

Definition await_reply (reply : nat) (store : HistoryStore) (s : Supervised) : Supervised :=
  {| su_history := Some store; su_waiting := Some reply; su_publisher := s.(su_publisher) |}.

Definition fresh_reply (reply : nat) (store : HistoryStore) : Prop :=
  reply ∉ store.(hs_writer).(wr_replies).*1
  /\ forall command, command ∈ store.(hs_queue) -> command <> Flush reply /\ command <> Shutdown reply.

(** Who takes a step: a task that records, the writer thread, the supervisor. *)
Inductive Actor : Type := Task | WriterThread | Supervisor.

Definition is_observation (command : WriteCommand) : bool :=
  match command with Flush _ | Shutdown _ => false | _ => true end.

Inductive history_step : Actor -> Supervised -> Supervised -> Prop :=
  | step_record s store command :
      s.(su_history) = Some store -> is_observation command = true ->
      history_step Task s (with_store (try_send command store).1 s)
  | step_write s store store1 :
      s.(su_history) = Some store -> write_next store = Some store1 ->
      history_step WriterThread s (with_store store1 s)
  | step_flush s store store1 reply :
      s.(su_waiting) = None -> s.(su_history) = Some store -> fresh_reply reply store ->
      barrier false reply store = Some store1 ->
      history_step Supervisor s (await_reply reply store1 s)
  | step_unsent s store now :
      s.(su_waiting) = None -> s.(su_history) = Some store -> store.(hs_running) = false ->
      history_step Supervisor s (flush_failed now s)
  | step_replied s store reply now :
      s.(su_waiting) = Some reply -> s.(su_history) = Some store -> (reply, Ok tt) ∈ store.(hs_writer).(wr_replies) ->
      history_step Supervisor s (flush_succeeded now store s)
  | step_refused s store reply error now :
      s.(su_waiting) = Some reply -> s.(su_history) = Some store -> (reply, Err error) ∈ store.(hs_writer).(wr_replies) ->
      history_step Supervisor s (flush_failed now s)
  (** the thread is gone, or five seconds went by *)
  | step_no_reply s store reply now :
      s.(su_waiting) = Some reply -> s.(su_history) = Some store -> reply ∉ store.(hs_writer).(wr_replies).*1 ->
      history_step Supervisor s (flush_failed now s)
  | step_reopen s now c :
      s.(su_waiting) = None -> s.(su_history) = None ->
      history_step Supervisor s (reopen now c s).
End supervisor.
