(* ===== verification/SupervisionProps.v ===== *)
(** The recording tasks: samples reach every reader, the queue of the history
    refines a sequential writer, port changes are recorded once, and a history
    that failed is replaced. *)

From S2P Require Import Prelude RustStr Net BTree State Isolation HostPolicy PortForward Domain Float64 Config Nft Host Control Machine StateErr WireGuard Profiles Enforcement Routes ProfileManager LeaseKeeper TunnelMonitor Probe History Telemetry Docker Kubernetes Reconciler Supervision HistoryProps HistoryData.

(** ** Samples *)

(** The counters whose client is known, in the order of the identifiers. *)
Definition counted (clients : gmap string ClientState) (samples : list (string * ClientCounterTotals))
    : list (string * ClientState * ClientCounterTotals) :=
  omap (fun '(id, totals) => (fun client => (id, client, totals)) <$> clients !! id) samples.

Definition sampled (now : N) (clients : gmap string ClientState) (samples : list (string * ClientCounterTotals))
    : gmap string ClientState :=
  foldl (fun m '(id, totals) => alter (with_totals now totals) id m) clients samples.

Definition usage_recorded (now : N) (known : list (string * ClientState * ClientCounterTotals))
    (history : option HistoryStore) : option HistoryStore :=
  foldl (fun h '(id, client, totals) => to_store (record_usage (usage_observation now id client totals)) h) history known.

Definition metered (known : list (string * ClientState * ClientCounterTotals)) : list Measurement :=
  flat_map (fun '(id, client, totals) =>
    record_client client.(cl_usage_id) totals.(tot_downloaded_bytes) totals.(tot_uploaded_bytes)
      totals.(tot_download_packets) totals.(tot_upload_packets)) known.

Lemma counted_insert clients samples id client : id ∉ samples.*1 ->
  counted (<[id := client]> clients) samples = counted clients samples.
Proof.
  unfold counted. induction samples as [|[id1 totals] samples IH]; [done|]. cbn. intros Hid.
  apply not_elem_of_cons in Hid as [Hne Hid]. rewrite lookup_insert_ne, IH by done. done.
Qed.

Lemma sampled_lookup now clients samples id : NoDup samples.*1 ->
  sampled now clients samples !! id
  = match list_to_map (M := gmap string ClientCounterTotals) samples !! id, clients !! id with
    | Some totals, Some client => Some (with_totals now totals client)
    | _, client => client
    end.
Proof.
  unfold sampled. revert clients. induction samples as [|[id1 totals] samples IH]; intros clients Hnd; [done|].
  cbn in Hnd |- *. apply list.NoDup_cons in Hnd as [Hid Hnd]. rewrite IH by done.
  destruct (decide (id = id1)) as [->|Hne].
  - rewrite lookup_insert_eq, lookup_alter_eq.
    rewrite (not_elem_of_list_to_map_1 _ _ Hid). by destruct (clients !! id1).
  - by rewrite lookup_insert_ne, lookup_alter_ne.
Qed.

Lemma btree_iter_map {V} (m : gmap string V) :
  NoDup (btree_iter String.leb m).*1 /\ list_to_map (M := gmap string V) (btree_iter String.leb m) = m.
Proof.
  assert (Hperm : btree_iter String.leb m ≡ₚ map_to_list m) by apply sort_by_perm.
  assert (Hnd : NoDup (btree_iter String.leb m).*1) by (rewrite Hperm; apply NoDup_fst_map_to_list).
  split; [done|]. rewrite <- (list_to_map_to_list m) at 2. by apply list_to_map_proper.
Qed.

Section sampler.
Context `{!IpNetCrate, !KeeperEnv} (config : Config).

Definition sampled_state (now : N) (samples : list (string * ClientCounterTotals)) (s : Sampler) : Sampler :=
  let clients := s.(sa_keeper).(k_app).(as_clients) in
  {| sa_keeper := with_app (set_app_clients (sampled now clients samples) s.(sa_keeper).(k_app)) s.(sa_keeper);
     sa_history := usage_recorded now (counted clients samples) s.(sa_history);
     sa_metrics := s.(sa_metrics) ++ metered (counted clients samples) |}.

Lemma sampled_state_nil now s : sampled_state now [] s = s.
Proof. destruct s as [[[] ? ? ? ?] h m]. unfold sampled_state, with_app, set_app_clients. cbn. by rewrite app_nil_r. Qed.

Lemma each_sample now samples s : NoDup samples.*1 ->
  each (sample_client now) samples s = (sampled_state now samples s, Ok tt).
Proof.
  revert s. induction samples as [|[id totals] samples IH]; intros s Hnd; [by rewrite sampled_state_nil|].
  cbn in Hnd. apply list.NoDup_cons in Hnd as [Hid Hnd]. cbn [each]. unfold bind at 1, sample_client at 1, bind at 1, gets at 1.
  destruct (as_clients (k_app (sa_keeper s)) !! id) as [client|] eqn:Hc.
  - cbn [modify]. rewrite IH by done. unfold sampled_state; cbn [sa_keeper sa_history sa_metrics k_app with_app set_app_clients as_clients].
    unfold counted at 3 4. cbn [omap list_omap]. rewrite Hc. cbn [fmap option_fmap option_map].
    fold (counted (as_clients (k_app (sa_keeper s))) samples). rewrite (counted_insert _ _ _ _ Hid).
    unfold sampled at 2. cbn [foldl]. fold (sampled now (alter (with_totals now totals) id (as_clients (k_app (sa_keeper s)))) samples).
    assert (alter (with_totals now totals) id (as_clients (k_app (sa_keeper s)))
            = <[id := with_totals now totals client]> (as_clients (k_app (sa_keeper s)))) as ->.
    { apply map_eq. intros j. destruct (decide (j = id)) as [->|Hne].
      - by rewrite lookup_alter_eq, lookup_insert_eq, Hc.
      - by rewrite lookup_alter_ne, lookup_insert_ne. }
    by rewrite <- app_assoc.
  - cbn [ret]. rewrite IH by done. unfold sampled_state, counted at 3 4. cbn [omap list_omap]. rewrite Hc. cbn [fmap option_fmap option_map].
    fold (counted (as_clients (k_app (sa_keeper s))) samples). unfold sampled at 2. cbn [foldl].
    assert (alter (with_totals now totals) id (as_clients (k_app (sa_keeper s))) = as_clients (k_app (sa_keeper s))) as ->.
    { apply map_eq. intros j. destruct (decide (j = id)) as [->|Hne]; [by rewrite lookup_alter_eq, Hc|by rewrite lookup_alter_ne]. }
    done.
Qed.

End sampler.

(** ** Changes of the forwarded ports *)

Definition send_all (commands : list WriteCommand) (history : option HistoryStore) : option HistoryStore :=
  foldl (fun h command => to_store (try_send command) h) history commands.

Lemma send_all_app l k history : send_all (l ++ k) history = send_all k (send_all l history).
Proof. apply foldl_app. Qed.

Lemma to_store_Some f (store : HistoryStore) : to_store f (Some store) = Some (f store).1.
Proof. done. Qed.

(** [changes previous l]: the values of [l] whose number is not the one before. *)
Fixpoint changes {A} (previous : option N) (l : list (N * A)) : list A :=
  match l with
  | [] => []
  | (n, x) :: l => if bool_decide (previous = Some n) then changes previous l else x :: changes (Some n) l
  end.

Definition is_new (last : gmap string N) (forward : string * PortForwardStatus) : bool :=
  negb ((forward.2.(ps_change_sequence) =? 0)%N || bool_decide (last !! forward.1 = Some forward.2.(ps_change_sequence))).

(** What a reaction of the recorder sends. *)
Definition sends (r : Recorder) (input : RecorderInput) : list WriteCommand :=
  match input with
  | TransitionSeen t => [WriteTransition t]
  | SnapshotSeen snapshot =>
      (fun '(usage_id, status) => PortForward (port_observation snapshot usage_id status))
        <$> List.filter (is_new r.(re_last_port_sequences)) (btree_iter String.leb snapshot.(sn_port_forwards))
  end.

Definition noted (last : gmap string N) (forwards : list (string * PortForwardStatus)) : gmap string N :=
  foldl (fun m forward => <[forward.1 := forward.2.(ps_change_sequence)]> m) last (List.filter (is_new last) forwards).

Lemma filter_is_new_insert last usage_id sequence forwards : usage_id ∉ forwards.*1 ->
  List.filter (is_new (<[usage_id := sequence]> last)) forwards = List.filter (is_new last) forwards.
Proof.
  induction forwards as [|[id status] forwards IH]; [done|]. cbn [fmap list_fmap fst List.filter].
  intros [Hne Hid]%not_elem_of_cons. rewrite IH by done. unfold is_new at 1 3; cbn. by rewrite lookup_insert_ne.
Qed.

Lemma record_forwards snapshot forwards store last : NoDup forwards.*1 ->
  (let '(store1, last1) := foldl (record_forward snapshot) (store, last) forwards in (Some store1, last1))
  = (send_all ((fun '(usage_id, status) => PortForward (port_observation snapshot usage_id status))
                 <$> List.filter (is_new last) forwards) (Some store), noted last forwards).
Proof.
  revert store last. induction forwards as [|[id status] forwards IH]; intros store last Hnd; [done|].
  cbn in Hnd. apply list.NoDup_cons in Hnd as [Hid Hnd]. unfold noted. cbn [foldl List.filter].
  unfold record_forward at 2, is_new at 1 4; cbn [fst snd].
  destruct (_ || _); cbn [negb]; [by apply IH|].
  specialize (IH (record_port_forward (port_observation snapshot id status) store).1
                (<[id := ps_change_sequence status]> last) Hnd). rewrite IH.
  unfold noted. rewrite filter_is_new_insert by done. done.
Qed.

Lemma recorder_step_sends r input :
  (recorder_step r input).(re_history) = send_all (sends r input) r.(re_history)
  /\ (recorder_step r input).(re_last_port_sequences)
     = match r.(re_history), input with
       | Some _, SnapshotSeen snapshot => noted r.(re_last_port_sequences) (btree_iter String.leb snapshot.(sn_port_forwards))
       | _, _ => r.(re_last_port_sequences)
       end.
Proof.
  assert (Hnone : forall l, send_all l None = None) by (intros l; induction l; [done|assumption]).
  destruct input as [t|snapshot]; cbn -[send_all]; [by destruct (re_history r)|].
  destruct (re_history r) as [store|] eqn:Hh; [|by rewrite Hnone].
  destruct (btree_iter_map snapshot.(sn_port_forwards)) as [Hnd _].
  pose proof (record_forwards snapshot _ store r.(re_last_port_sequences) Hnd) as Hf.
  destruct (foldl _ _ _) as [store1 last1]. by injection Hf as -> ->.
Qed.

(** The recorder and the rest of the program, which replaces the store. *)
Inductive RecorderEvent : Type :=
  | Woken (input : RecorderInput)
  | StoreReplaced (history : option HistoryStore).

Definition recorder_event (state : Recorder * list WriteCommand) (e : RecorderEvent) : Recorder * list WriteCommand :=
  let '(r, sent) := state in
  match e with
  | Woken input => (recorder_step r input, sent ++ (if is_some r.(re_history) then sends r input else []))
  | StoreReplaced history => ({| re_history := history; re_last_port_sequences := r.(re_last_port_sequences) |}, sent)
  end.

(** The port observations of [usage] that were sent. *)
Definition of_usage (usage : string) (sent : list WriteCommand) : list PortForwardObservation :=
  omap (fun command => match command with
                       | PortForward o => if String.eqb o.(fo_usage_id) usage then Some o else None
                       | _ => None
                       end) sent.

Definition transitions_of (sent : list WriteCommand) : list Transition :=
  omap (fun command => match command with WriteTransition t => Some t | _ => None end) sent.

(** What snapshots said of [usage] while there was a store. *)
Definition said (usage : string) (snapshot : CanonicalSnapshot) : list (N * PortForwardObservation) :=
  match snapshot.(sn_port_forwards) !! usage with
  | Some status =>
      if (status.(ps_change_sequence) =? 0)%N then []
      else [(status.(ps_change_sequence), port_observation snapshot usage status)]
  | None => []
  end.

Fixpoint seen {A} (f : RecorderInput -> list A) (available : bool) (events : list RecorderEvent) : list A :=
  match events with
  | [] => []
  | Woken input :: events => (if available then f input else []) ++ seen f available events
  | StoreReplaced history :: events => seen f (is_some history) events
  end.

Definition said_of (usage : string) (input : RecorderInput) : list (N * PortForwardObservation) :=
  match input with SnapshotSeen snapshot => said usage snapshot | TransitionSeen _ => [] end.
Definition transition_of (input : RecorderInput) : list Transition :=
  match input with TransitionSeen t => [t] | SnapshotSeen _ => [] end.

Lemma noted_lookup last forwards usage : NoDup forwards.*1 ->
  noted last forwards !! usage
  = match list_to_map (M := gmap string PortForwardStatus) forwards !! usage with
    | Some status => if is_new last (usage, status) then Some status.(ps_change_sequence) else last !! usage
    | None => last !! usage
    end.
Proof.
  revert last. induction forwards as [|[id status] forwards IH]; intros last Hnd; [done|].
  cbn in Hnd. apply list.NoDup_cons in Hnd as [Hid Hnd]. unfold noted. cbn [List.filter].
  assert (Hnoted : noted (if is_new last (id, status) then <[id := ps_change_sequence status]> last else last) forwards
    = foldl (fun m forward => <[forward.1 := forward.2.(ps_change_sequence)]> m) last
        (if is_new last (id, status) then (id, status) :: List.filter (is_new last) forwards else List.filter (is_new last) forwards)).
  { unfold noted. destruct (is_new last (id, status)); [|done]. by rewrite filter_is_new_insert. }
  rewrite <- Hnoted, IH by done. cbn [list_to_map foldr fst snd]. destruct (decide (usage = id)) as [->|Hne].
  - rewrite (not_elem_of_list_to_map_1 _ _ Hid), lookup_insert_eq. destruct (is_new last (id, status)); [|done].
    by rewrite lookup_insert_eq.
  - rewrite lookup_insert_ne by done. destruct (list_to_map forwards !! usage) as [status1|].
    + clear Hnoted. destruct (is_new last (id, status)) in |- *; [|done].
      unfold is_new; cbn [fst snd]. by rewrite lookup_insert_ne.
    + destruct (is_new last (id, status)); [|done]. by rewrite lookup_insert_ne.
Qed.

Lemma of_usage_sends snapshot last forwards usage : NoDup forwards.*1 ->
  of_usage usage ((fun '(usage_id, status) => PortForward (port_observation snapshot usage_id status))
                    <$> List.filter (is_new last) forwards)
  = match list_to_map (M := gmap string PortForwardStatus) forwards !! usage with
    | Some status => if is_new last (usage, status) then [port_observation snapshot usage status] else []
    | None => []
    end.
Proof.
  induction forwards as [|[id status] forwards IH]; intros Hnd; [done|].
  cbn in Hnd. apply list.NoDup_cons in Hnd as [Hid Hnd]. cbn [List.filter list_to_map foldr fst snd].
  destruct (decide (usage = id)) as [->|Hne].
  - rewrite lookup_insert_eq. rewrite (not_elem_of_list_to_map_1 _ _ Hid) in IH.
    destruct (is_new last (id, status)); [|by apply IH]. cbn. rewrite String.eqb_refl. f_equal. by apply IH.
  - rewrite lookup_insert_ne by done. rewrite <- IH by done.
    destruct (is_new last (id, status)); [|done]. cbn. by rewrite (proj2 (String.eqb_neq id usage)).
Qed.

Lemma recorder_events_spec events r sent usage :
  let '(r1, sent1) := foldl recorder_event (r, sent) events in
  of_usage usage sent1
  = of_usage usage sent ++ changes (r.(re_last_port_sequences) !! usage) (seen (said_of usage) (is_some r.(re_history)) events)
  /\ transitions_of sent1 = transitions_of sent ++ seen transition_of (is_some r.(re_history)) events.
Proof.
  revert r sent. induction events as [|[input|history] events IH]; intros r sent; cbn [foldl recorder_event seen].
  - by rewrite !app_nil_r.
  - specialize (IH (recorder_step r input) (sent ++ (if is_some r.(re_history) then sends r input else []))).
    destruct (foldl _ _ _) as [r1 sent1]. destruct IH as [-> ->].
    destruct (recorder_step_sends r input) as [Hhist ->].
    assert (is_some (re_history (recorder_step r input)) = is_some r.(re_history)) as ->.
    { rewrite Hhist. clear. unfold send_all. generalize (sends r input). intros l.
      induction l as [|c l IHl] using rev_ind; [done|]. rewrite foldl_app. cbn. rewrite <- IHl. by destruct (foldl _ _ l). }
    unfold of_usage at 1, transitions_of at 1. rewrite !omap_app. fold (of_usage usage sent) (transitions_of sent).
    rewrite <- !app_assoc. destruct (re_history r) as [store|]; cbn [is_some]; [|done].
    destruct input as [t|snapshot]; cbn [sends said_of transition_of app]; [done|].
    destruct (btree_iter_map snapshot.(sn_port_forwards)) as [Hnd Hmap].
    match goal with |- context [omap _ ?l ++ changes _ _] => fold (of_usage usage l) end.
    rewrite of_usage_sends, noted_lookup, Hmap by done. split.
    + f_equal. unfold said, is_new; cbn [fst snd]. destruct (sn_port_forwards snapshot !! usage) as [status|]; [|done].
      destruct (ps_change_sequence status =? 0)%N; cbn [orb negb app changes]; [done|].
      by destruct (bool_decide _).
    + f_equal. generalize (List.filter (is_new (re_last_port_sequences r)) (btree_iter String.leb (sn_port_forwards snapshot))).
      intros l. match goal with |- ?a ++ _ = _ => assert (a = []) as ->; [|done] end.
      induction l as [|[id status] l IHl]; [done|]. exact IHl.
  - specialize (IH {| re_history := history; re_last_port_sequences := re_last_port_sequences r |} sent).
    destruct (foldl _ _ _) as [r1 sent1]. exact IH.
Qed.

(** C30: every change of a forwarded port is recorded once.  However the recorder is
    woken and however often the store is lost and replaced, what it hands to the
    store of a usage are the states, among those it saw while there was a store,
    whose number is neither zero nor the number before; the first change after an
    outage is recorded late, with the time of the change, and not lost.  A
    transition is handed over when it is seen, if there is a store then. *)
Theorem port_changes_recorded_once history s0 events usage :
  let '(r, sent) := foldl recorder_event (recorder_start history s0, []) events in
  of_usage usage sent = changes (sequences_of s0 !! usage) (seen (said_of usage) (is_some history) events)
  /\ transitions_of sent = seen transition_of (is_some history) events
  /\ forall r1 input, (recorder_step r1 input).(re_history) = send_all (sends r1 input) r1.(re_history).
Proof.
  pose proof (recorder_events_spec events (recorder_start history s0) [] usage) as Hx.
  destruct (foldl _ _ _) as [r sent]. destruct Hx as [-> ->]. split; [done|]. split; [done|].
  intros r1 input. apply recorder_step_sends.
Qed.

(** ** Supervision of the history *)

Section supervisor.
Context `{!Sqlite} (config : PersistenceConfig).

(** How many steps of the supervisor are left until a store runs again. *)
Definition rank (s : Supervised) : nat :=
  match s.(su_history) with
  | None => 1
  | Some store => if store.(hs_running) then 0 else if is_some s.(su_waiting) then 3 else 2
  end.

(** The supervisor waits only while there is a store. *)
Definition waits_for_store (s : Supervised) : Prop := is_some s.(su_waiting) = true -> is_some s.(su_history) = true.

Lemma step_waits actor s s1 : history_step config actor s s1 -> waits_for_store s -> waits_for_store s1.
Proof.
  unfold waits_for_store. intros Hstep Hw. destruct Hstep; cbn; try done.
  unfold reopen. by destruct (open_store config c).
Qed.

Lemma write_next_running store store1 : write_next store = Some store1 -> store.(hs_running) = true.
Proof. unfold write_next. by destruct (hs_running store). Qed.

Lemma barrier_running b reply store store1 : barrier b reply store = Some store1 -> store.(hs_running) = true.
Proof. unfold barrier. by destruct (hs_running store). Qed.

Lemma try_send_running command store : (try_send command store).1.(hs_running) = store.(hs_running).
Proof. unfold try_send. by destruct (_ && _). Qed.

Lemma open_store_running c store : open_store config c = Ok store -> store.(hs_running) = true.
Proof. unfold open_store. destruct (start_writer _ c) as [c1 [w|e]]; [|done]. by intros [= <-]. Qed.

(** The supervisor has a step whenever it is not waiting for room in the queue of
    a thread that works. *)
Lemma supervisor_enabled s : waits_for_store s -> 0 < rank s -> exists s1, history_step config Supervisor s s1.
Proof.
  unfold rank, waits_for_store. destruct (su_history s) as [store|] eqn:Hh; intros Hw Hr.
  - destruct (hs_running store) eqn:Hrun; [lia|]. destruct (su_waiting s) as [reply|] eqn:Hwait.
    + destruct (decide (reply ∈ store.(hs_writer).(wr_replies).*1)) as [Hin|Hout].
      * apply list_elem_of_fmap in Hin as ([reply1 [[]|e]] & -> & Hin); eexists; [by eapply (step_replied _ _ _ _ 0)|].
        by eapply (step_refused _ _ _ _ _ 0).
      * eexists. by eapply (step_no_reply _ _ _ _ 0).
    + eexists. by eapply (step_unsent _ _ _ 0).
  - destruct (su_waiting s) eqn:Hwait; [by specialize (Hw eq_refl)|].
    eexists. by apply (step_reopen _ _ 0 {| cn_db := empty_database; cn_calls := 0 |}).
Qed.

(** C23: a history that failed is replaced.  While no thread runs, no step of a
    task takes the program further away from a running store, the supervisor
    always has a step, and each of its steps gets closer to one or is an attempt
    to open a database that does not open; three steps suffice.  A turn
    that it starts and that changes anything reports the history as healthy
    exactly when a store runs. *)
Theorem failed_history_is_replaced actor s s1 :
  waits_for_store s -> 0 < rank s -> history_step config actor s s1 ->
  waits_for_store s1 /\ rank s <= 3 /\ rank s1 <= rank s
  /\ (exists s2, history_step config Supervisor s s2)
  /\ (actor = Supervisor -> rank s1 < rank s \/ s1 = s /\ exists c error, open_store config c = Err error)
  /\ (actor = Supervisor -> s.(su_waiting) = None -> s1 <> s ->
      exists status, sc_status <$> s1.(su_publisher).(sp_inner).(sn_checks) !! PERSISTENCE = Some status
        /\ (status = Healthy <-> rank s1 = 0)).
Proof.
  intros Hw Hr Hstep. split; [by eapply step_waits|].
  split; [unfold rank; destruct (su_history s) as [store|]; [destruct (hs_running store), (is_some (su_waiting s)); lia|lia]|].
  assert (Hob : forall o now p, sc_status <$> (Control.observe p o now).(sp_inner).(sn_checks) !! o.(ob_id) = Some o.(ob_status)).
  { intros o now p. unfold Control.observe. destruct (observation_changed _ _ _); cbn; by rewrite lookup_insert_eq. }
  assert (Hen : exists s2, history_step config Supervisor s s2) by by apply supervisor_enabled.
  unfold rank in *. destruct Hstep as [s store command Hh Hc|s store store1 Hh Hn|s store store1 reply Hwait Hh Hf Hb
    |s store now Hwait Hh Hrun|s store reply now Hwait Hh Hin|s store reply error now Hwait Hh Hin
    |s store reply now Hwait Hh Hout|s now c Hwait Hh]; rewrite Hh in *.
  - cbn. rewrite try_send_running. by repeat split.
  - rewrite (write_next_running _ _ Hn) in Hr. lia.
  - rewrite (barrier_running _ _ _ _ Hb) in Hr. lia.
  - rewrite Hrun, Hwait in *. cbn [is_some su_history flush_failed report_history su_publisher]. repeat split; try lia; try done.
    intros _ _ _. eexists. split; [apply (Hob failed_observation)|]. done.
  - destruct (hs_running store) eqn:Hrun; [lia|]. rewrite Hwait in *. cbn. rewrite Hrun. repeat split; try lia; try done.
  - destruct (hs_running store) eqn:Hrun; [lia|]. rewrite Hwait in *. cbn. repeat split; try lia; try done.
  - destruct (hs_running store) eqn:Hrun; [lia|]. rewrite Hwait in *. cbn. repeat split; try lia; try done.
  - unfold reopen. destruct (open_store config c) as [store|error] eqn:Ho.
    + cbn [su_history report_history su_publisher]. rewrite (open_store_running _ _ Ho). repeat split; try lia; try done.
      intros _ _ _. eexists. split; [apply (Hob recovered_observation)|]. done.
    + rewrite Hh. repeat split; try lia; try done.
      * intros _. right. eauto.
Qed.
End supervisor.

(** ** A failure of the history *)

#[local] Existing Instance HistoryProps.sqlite_works.

(** The thread has stopped; two observations were refused since. *)
Definition stopped_store : HistoryStore :=
  {| hs_capacity := 16; hs_retention_days := 30; hs_bucket_ms := 60000; hs_queue := []; hs_dropped_writes := 2;
     hs_running := false; hs_writer := HistoryProps.example_writer |}.
Definition failing : Supervised :=
  {| su_history := Some stopped_store; su_waiting := None; su_publisher := publisher_new snapshot_default |}.
Definition empty_file : Conn := {| cn_db := empty_database; cn_calls := 0 |}.
Definition replaced : Supervised := reopen HistoryData.example_persistence 20 empty_file (flush_failed 10 failing).

Lemma failed_history_is_replaced_witness :
  rank (flush_failed 10 failing) < rank failing
  /\ exists status, sc_status <$> (flush_failed 10 failing).(su_publisher).(sp_inner).(sn_checks) !! PERSISTENCE = Some status
       /\ (status = Healthy <-> rank (flush_failed 10 failing) = 0).
Proof.
  destruct (failed_history_is_replaced HistoryData.example_persistence Supervisor failing (flush_failed 10 failing))
    as (_ & _ & _ & _ & Hless & Hcheck).
  - done.
  - vm_compute. lia.
  - by apply (step_unsent HistoryData.example_persistence failing stopped_store 10).
  - split; [|apply Hcheck; [done|done|vm_compute; congruence]].
    destruct (Hless eq_refl) as [|[Hsame _]]; [done|]. exfalso. revert Hsame. vm_compute. congruence.
Defined.

(** The losses are counted in the store: with the store that replaces it the check
    is healthy, though observations were refused and none was written since. *)
Example losses_are_forgotten :
  hs_dropped_writes <$> failing.(su_history) = Some 2%N
  /\ hs_dropped_writes <$> replaced.(su_history) = Some 0%N
  /\ sc_status <$> replaced.(su_publisher).(sp_inner).(sn_checks) !! PERSISTENCE = Some Healthy.
Proof. vm_compute. split_and!; reflexivity. Qed.
