(* ===== verification/Runtime.v ===== *)
(** The program as a whole (run of src/src/runtime.rs, and src/src/main.rs): what
    is set up in which order, which failures end the start, and how everything
    is stopped.

    The start is a computation on [Startup].  What the machine, Docker, the
    database and the clock answer is [World] and the classes of the components.
    The tasks that are spawned are the loops of the other files; here a task is
    its name in the set of those that run.  Tasks that were already spawned can
    run while the start goes on; of these none runs ip or wg-quick. *)

From S2P Require Import Prelude RustStr Net NetFacts BTree State Isolation HostPolicy Domain Float64 Config Nft Host Control Machine StateErr WireGuard Profiles Enforcement Routes ProfileManager LeaseKeeper TunnelMonitor Notifications History NotificationManager VpnServer AdminAuth Supervision.

Inductive Task : Type :=
  | HttpServer | DockerTask | TunnelTask | PortTask | ProbeTask | ClientTrafficTask | DnsTask
  | HistorySupervisor | HistoryRecorder | NotificationMonitor | TelemetryMonitor | VpnServerTask.
#[export] Instance Task_eq_dec : EqDecision Task.
Proof. solve_decision. Defined.

Record World : Type := {
  (** the store of profiles, when a key is configured and it opens *)
  wo_store : option Table;
  wo_nft : Nft;
  (** the file of the history *)
  wo_history : Conn;
  wo_telemetry : bool;
  (** how connecting to Docker and to Kubernetes ([Kubernetes.connect]) ends *)
  wo_docker : Result unit string;
  wo_kubernetes : Result unit string;
  wo_bind : Result unit string;
  wo_clock : nat -> N;
}.

Record Startup `{!IpNetCrate} : Type := {
  ru_manager : Manager;
  ru_publisher : StatePublisher;
  ru_app : AppState;
  ru_history : option HistoryStore;
  ru_notifier : Notifier;
  ru_auth : option AdminAuth;
  ru_tasks : list Task;
  ru_asked : nat;
}.

Definition app_default : AppState :=
  {| as_tunnel := {| tn_interface := ""; tn_up := false; tn_latest_handshake_unix := None |};
     as_traffic := traffic_default; as_port_forward := port_forward_default; as_port_forwards := ∅;
     as_clients := ∅; as_last_error := None |}.

Section run.
Context `{!IpNetCrate, !UrlCrate, !Files, !StoreEnv, !Env, !ProfileFiles, !Sqlite} (config : Config) (w : World).

Definition RT (A : Type) : Type := St Startup A.

Definition on_manager {A} (m : M A) : RT A := fun s =>
  let '(manager, r) := m s.(ru_manager) in
  ({| ru_manager := manager; ru_publisher := s.(ru_publisher); ru_app := s.(ru_app); ru_history := s.(ru_history);
      ru_notifier := s.(ru_notifier); ru_auth := s.(ru_auth); ru_tasks := s.(ru_tasks); ru_asked := s.(ru_asked) |}, r).
Definition now : RT N := fun s =>
  ({| ru_manager := s.(ru_manager); ru_publisher := s.(ru_publisher); ru_app := s.(ru_app); ru_history := s.(ru_history);
      ru_notifier := s.(ru_notifier); ru_auth := s.(ru_auth); ru_tasks := s.(ru_tasks); ru_asked := S s.(ru_asked) |},
   Ok (w.(wo_clock) s.(ru_asked))).
Definition say (id : string) (status : CheckStatus) (impact : Impact) (reason_code message : string) : RT unit :=
  let* now := now in
  modify (fun s =>
    {| ru_manager := s.(ru_manager);
       ru_publisher := Control.observe s.(ru_publisher) (check_of id status impact reason_code message) now;
       ru_app := s.(ru_app); ru_history := s.(ru_history); ru_notifier := s.(ru_notifier); ru_auth := s.(ru_auth);
       ru_tasks := s.(ru_tasks); ru_asked := s.(ru_asked) |}).
Definition with_tasks (f : list Task -> list Task) : RT unit := modify (fun s =>
  {| ru_manager := s.(ru_manager); ru_publisher := s.(ru_publisher); ru_app := s.(ru_app); ru_history := s.(ru_history);
     ru_notifier := s.(ru_notifier); ru_auth := s.(ru_auth); ru_tasks := f s.(ru_tasks); ru_asked := s.(ru_asked) |}).
Definition spawn (tasks : list Task) : RT unit := with_tasks (fun running => running ++ tasks).
Definition set_history (f : option HistoryStore -> option HistoryStore) : RT unit := modify (fun s =>
  {| ru_manager := s.(ru_manager); ru_publisher := s.(ru_publisher); ru_app := s.(ru_app); ru_history := f s.(ru_history);
     ru_notifier := s.(ru_notifier); ru_auth := s.(ru_auth); ru_tasks := s.(ru_tasks); ru_asked := s.(ru_asked) |}).
Definition set_notifier (f : Notifier -> Notifier) : RT unit := modify (fun s =>
  {| ru_manager := s.(ru_manager); ru_publisher := s.(ru_publisher); ru_app := s.(ru_app); ru_history := s.(ru_history);
     ru_notifier := f s.(ru_notifier); ru_auth := s.(ru_auth); ru_tasks := s.(ru_tasks); ru_asked := s.(ru_asked) |}).
Definition set_auth (auth : AdminAuth) : RT unit := modify (fun s =>
  {| ru_manager := s.(ru_manager); ru_publisher := s.(ru_publisher); ru_app := s.(ru_app); ru_history := s.(ru_history);
     ru_notifier := s.(ru_notifier); ru_auth := Some auth; ru_tasks := s.(ru_tasks); ru_asked := s.(ru_asked) |}).
Definition set_interface (interface : string) : RT unit := modify (fun s =>
  {| ru_manager := s.(ru_manager); ru_publisher := s.(ru_publisher);
     ru_app := {| as_tunnel := {| tn_interface := interface; tn_up := s.(ru_app).(as_tunnel).(tn_up);
                                  tn_latest_handshake_unix := s.(ru_app).(as_tunnel).(tn_latest_handshake_unix) |};
                  as_traffic := s.(ru_app).(as_traffic); as_port_forward := s.(ru_app).(as_port_forward);
                  as_port_forwards := s.(ru_app).(as_port_forwards); as_clients := s.(ru_app).(as_clients);
                  as_last_error := s.(ru_app).(as_last_error) |};
     ru_history := s.(ru_history); ru_notifier := s.(ru_notifier); ru_auth := s.(ru_auth);
     ru_tasks := s.(ru_tasks); ru_asked := s.(ru_asked) |}).

(** ** The state at the start *)

Definition active_profile : option WireGuardProfile :=
  match (boot_profile config w.(wo_store) []).2 with Ok profile => profile | Err _ => None end.

Definition initial_topology : TopologyStatus :=
  {| tp_network := config.(c_network).(nc_name); tp_subnet := ipv4net_show config.(c_network).(nc_subnet);
     tp_gateway_address := show_ipv4 config.(c_network).(nc_gateway_ip);
     tp_host_bridge := config.(c_network).(nc_host_bridge); tp_policy_table := config.(c_network).(nc_route_table);
     tp_client_ipv6_supported := is_some (ipv6_routing config.(c_network));
     tp_default_route_verifiable := topology_default.(tp_default_route_verifiable);
     tp_declared_route_intent_observable := topology_default.(tp_declared_route_intent_observable);
     tp_client_isolation := topology_default.(tp_client_isolation) |}.

Definition initial_snapshot (now : N) : CanonicalSnapshot :=
  let d := snapshot_default in
  {| sn_schema_version := d.(sn_schema_version); sn_sequence := d.(sn_sequence);
     sn_generated_at_unix_ms := d.(sn_generated_at_unix_ms); sn_protection := d.(sn_protection);
     sn_availability := d.(sn_availability); sn_checks := d.(sn_checks); sn_transitions := d.(sn_transitions);
     sn_port_forward := d.(sn_port_forward); sn_port_forwards := d.(sn_port_forwards); sn_recovery := d.(sn_recovery);
     sn_external_probe := d.(sn_external_probe); sn_external_probes := d.(sn_external_probes);
     sn_vpn_server := default vpn_server_default (configured_status <$> (active_profile ≫= peer_of_profile));
     sn_isolation_policy := d.(sn_isolation_policy); sn_host_policy := host_policy config now;
     sn_topology := initial_topology; sn_clients := d.(sn_clients); sn_traffic := d.(sn_traffic);
     sn_last_client_path_success_at_unix_ms := d.(sn_last_client_path_success_at_unix_ms);
     sn_profile_management := d.(sn_profile_management) |}.

Definition startup_of (manager : Manager) : Startup :=
  {| ru_manager := manager; ru_publisher := publisher_new (initial_snapshot (w.(wo_clock) 0)); ru_app := app_default;
     ru_history := None; ru_notifier := NotificationManager.start None; ru_auth := None; ru_tasks := []; ru_asked := 1 |}.

(** ** The phases *)

Definition start_history : RT unit :=
  if config.(c_persistence).(ps_enabled) then
    let* _ :=
      match open_store config.(c_persistence) w.(wo_history) with
      | Ok store =>
          let* _ := set_history (fun _ => Some store) in
          say PERSISTENCE Healthy Advisory "history.database_ready" "App-owned history database is ready"
      | Err _ =>
          say PERSISTENCE Degraded Advisory "history.database_unavailable"
            "App-owned history is unavailable; current-state operation continues"
      end in
    spawn [HistorySupervisor; HistoryRecorder]
  else
    say PERSISTENCE Unknown Advisory "history.disabled" "App-owned history is disabled by configuration".

Definition start_notifications : RT unit :=
  let* history := gets ru_history in
  let* _ := set_notifier (fun _ => NotificationManager.start ((fun store => store.(hs_writer).(wr_conn)) <$> history)) in
  spawn [NotificationMonitor].

Definition first_reports : RT unit :=
  let firewall := config.(c_reconcile).(rn_apply_gateway_firewall) in
  let* _ := say "telemetry.otel" (if w.(wo_telemetry) then Unknown else Healthy) Optional
              (if w.(wo_telemetry) then "otel.awaiting_export" else "otel.disabled")
              (if w.(wo_telemetry) then "OTEL is enabled and awaiting the first export result"
               else "OTEL export is disabled") in
  let* _ := say "gateway.firewall" (if firewall then Healthy else Unknown) Critical
              (if firewall then "firewall.policy_installed" else "firewall.verification_disabled")
              (if firewall then "The owned fail-closed firewall policy is installed"
               else "Firewall application and verification are disabled") in
  say "gateway.routes" Unknown Critical "routes.awaiting_profile" "Gateway routes are awaiting an active profile".

(** The connections, the listener and the credentials; a failure ends the start. *)
Definition serve : RT unit :=
  let* _ := lift w.(wo_docker) in
  let* _ := if config.(c_kubernetes).(kc_enabled) then lift w.(wo_kubernetes) else ret tt in
  let* _ := lift (ok_or (parse_socket config.(c_listen)) "invalid socket address syntax") in
  let* _ := lift w.(wo_bind) in
  let* auth := on_manager (run (load_auth config.(c_wireguard))) in
  let* _ := set_auth auth in
  let* _ := spawn [HttpServer] in
  let* now := now in
  set_notifier (stack_started now).

Definition start_tunnel : RT unit :=
  if config.(c_wireguard).(wc_manage) then
    match active_profile with
    | Some profile =>
        let* up := attempt (on_manager (run (wireguard_up config profile))) in
        match up with
        | Ok _ => say "gateway.routes" Healthy Critical "routes.policy_installed"
                    "Gateway source-policy routes were installed"
        | Err _ => on_manager mark_degraded
        end
    | None => ret tt
    end
  else ret tt.

Definition start_dns : RT unit :=
  if config.(c_dns).(dc_enabled) then
    let* _ := lift (ok_or (parse_socket config.(c_dns).(dc_listen)) "invalid socket address syntax") in
    let* _ := say "dns.listener" Healthy Critical "dns.listener_started" "UDP and TCP DNS listeners started" in
    spawn [DnsTask]
  else ret tt.

Definition start_components : RT unit :=
  let* _ := start_history in
  let* _ := start_notifications in
  let* _ := if w.(wo_telemetry) then spawn [TelemetryMonitor] else ret tt in
  let* _ := spawn [VpnServerTask] in
  let* _ := first_reports in
  let* _ := set_interface config.(c_wireguard).(wc_interface) in
  let* _ := serve in
  let* _ := start_tunnel in
  let* _ := spawn [DockerTask; TunnelTask; PortTask; ProbeTask; ClientTrafficTask] in
  start_dns.

(** The start of [run]: [None] is a start that ended before there was anything
    to stop. *)
Definition startup : option Startup * Result unit string :=
  match Config.validate config with
  | Err e => (None, Err e)
  | Ok _ =>
      match reconcile_base config w.(wo_nft) DesiredPolicy_default with
      | (_, Err e) => (None, Err e)
      | (policy, Ok _) =>
          let '(manager, r) := boot config w.(wo_store) policy in
          match r with
          | Err e => (Some (startup_of manager), Err e)
          | Ok _ => let '(s, r) := start_components (startup_of manager) in (Some s, r)
          end
      end
  end.

(** ** The end *)

(** [stop_task]: the task is aborted and its end awaited; one that has ended is
    left alone. *)
Definition stop (task : Task) : RT unit :=
  with_tasks (List.filter (fun running => negb (bool_decide (running = task)))).

Definition stop_order : list Task :=
  [DockerTask; PortTask; ProbeTask; ClientTrafficTask; DnsTask; TunnelTask; HistorySupervisor; HistoryRecorder;
   TelemetryMonitor; VpnServerTask; NotificationMonitor; HttpServer].

(** [store.shutdown()]: the last command of the queue. *)
Definition shut_history (reply : nat) : RT unit :=
  set_history (option_map (fun store => default store (barrier true reply store))).

Definition teardown : RT unit :=
  if config.(c_wireguard).(wc_manage) then on_manager (run (wireguard_down config)) else ret tt.

Definition shutdown (reply : nat) : RT unit :=
  let* _ := each stop stop_order in
  let* _ := shut_history reply in
  teardown.

(** [run]: the start, the task or signal that ends the program, with its result,
    and the end.  A failed start returns at once. *)
Definition run_program (ended : Result unit string) (reply : nat) : option Startup * Result unit string :=
  match startup with
  | (Some s, Ok _) => (Some (shutdown reply s).1, ended)
  | (s, Err e) => (s, Err e)
  | (None, Ok _) => (None, Ok tt)
  end.

(** ** Commands of the program *)

Inductive Command : Type := Run | CheckConfig | RenderHostSetup | RenderGatewayFirewall.

Inductive Output : Type :=
  | Printed (text : string)
  | Ran (s : option Startup) (r : Result unit string).

(** [main], with the configuration that was loaded and how telemetry was built. *)
Definition main (telemetry : Result unit string) (command : Command) (ended : Result unit string) (reply : nat)
    : Result Output string :=
  let? _ := Config.validate config in
  let? _ := telemetry in
  match command with
  | Run => let '(s, r) := run_program ended reply in Ok (Ran s r)
  | CheckConfig => Ok (Printed ("configuration is valid" +:+ NL))
  | RenderHostSetup => Ok (Printed (render_host_setup config))
  | RenderGatewayFirewall => Ok (Printed (render_gateway_firewall config [] []))
  end.
End run.
