(* ===== verification/RuntimeProps.v ===== *)
(** The program as a whole: no program runs before the firewall stands, what was
    set up is taken down, and protection is published only when it was reached. *)

From S2P Require Import Prelude RustStr Net NetFacts BTree State Isolation HostPolicy Domain Float64 Config ConfigProps Nft Host Control Machine StateErr WireGuard Profiles Enforcement Routes ProfileManager LeaseKeeper TunnelMonitor Notifications History NotificationManager VpnServer AdminAuth Supervision Runtime EnforcementProps HistoryProps HistoryData ProfileManagerProps RoutesProps.

Definition is_program (a : Action) : bool := match a with RunProgram _ _ => true | _ => false end.
Definition no_program (a : Action) : bool := negb (is_program a).

(** [later log log1]: nothing but files, the store and waiting was added. *)
Definition later (log log1 : list Event) : Prop :=
  exists tail, log1 = log ++ tail /\ Forall (fun e => no_program e.1 = true) tail.

#[local] Instance later_preorder : PreOrder later.
Proof.
  split; [intros log; exists []; by rewrite app_nil_r|].
  intros l1 l2 l3 (t1 & -> & H1) (t2 & -> & H2). exists (t1 ++ t2). split; [by rewrite app_assoc|by apply Forall_app_2].
Qed.

(** A computation whose end stands in [R] to its start. *)
Definition frame {S A} (R : S -> S -> Prop) (m : St S A) : Prop := forall s, R s (m s).1.

Lemma frame_bind {S A B} (R : S -> S -> Prop) `{!PreOrder R} (m : St S A) (f : A -> St S B) :
  frame R m -> (forall a, frame R (f a)) -> frame R (bind m f).
Proof.
  intros Hm Hf s. unfold bind. specialize (Hm s). destruct (m s) as [s1 [a|e]]; [|done]. etrans; [exact Hm|apply Hf].
Qed.
Lemma frame_ret {S A} (R : S -> S -> Prop) `{!PreOrder R} (a : A) : frame R (ret a).
Proof. intros s. done. Qed.
Lemma frame_lift {S A} (R : S -> S -> Prop) `{!PreOrder R} (r : Result A string) : frame R (lift r).
Proof. intros s. done. Qed.
Lemma frame_gets {S A} (R : S -> S -> Prop) `{!PreOrder R} (f : S -> A) : frame R (gets f).
Proof. intros s. done. Qed.
Lemma frame_modify {S} (R : S -> S -> Prop) (f : S -> S) : (forall s, R s (f s)) -> frame R (modify f).
Proof. intros Hf s. apply Hf. Qed.
Lemma frame_attempt {S A} (R : S -> S -> Prop) (m : St S A) : frame R m -> frame R (attempt m).
Proof. intros Hm s. apply Hm. Qed.

Section run.
Context `{!IpNetCrate, !UrlCrate, !Files, !StoreEnv, !Env, !ProfileFiles, !Sqlite} (config : Config) (w : World).

Definition manager_later (s s1 : Manager) : Prop := later s.(m_log) s1.(m_log).
#[local] Instance manager_later_preorder : PreOrder manager_later.
Proof. split; [intros s; apply later_preorder|intros s1 s2 s3; apply later_preorder]. Qed.

Definition startup_later (s s1 : Startup) : Prop := manager_later s.(ru_manager) s1.(ru_manager).
#[local] Instance startup_later_preorder : PreOrder startup_later.
Proof. split; [intros s; apply later_preorder|intros s1 s2 s3; apply later_preorder]. Qed.

Lemma frame_run {A} (g : Gateway A) : performs no_program g -> frame manager_later (run g).
Proof. intros Hg s. destruct (Hg s.(m_log)) as (tail & Heq & Hok). exists tail. split; [exact Heq|done]. Qed.

Lemma frame_query {A} missing operation (f : Table -> Table * Result A string) : frame manager_later (ProfileManager.query missing operation f).
Proof.
  unfold ProfileManager.query. apply frame_bind; [apply _|apply frame_gets, _|intros store].
  apply frame_bind; [apply _|apply frame_lift, _|intros table].
  apply frame_bind; [apply _|by apply frame_run, performs_perform|intros r].
  destruct r; try (by intros s; apply later_preorder).
Qed.

Create HintDb frames discriminated.
#[local] Hint Resolve frame_ret frame_lift frame_gets frame_query frame_attempt : frames.
#[local] Hint Extern 1 (PreOrder _) => apply _ : frames.

Lemma frame_initialize : frame manager_later (initialize config).
Proof.
  unfold initialize, refresh_revisions, set_revisions, set_shown, publish_dns.
  repeat first
    [ lazymatch goal with
      | |- frame _ (bind _ _) => apply frame_bind; [apply _| |intros ?]
      | |- frame _ (modify _) => apply frame_modify; intros s; apply later_preorder
      end
    | solve [auto with frames]
    | match goal with |- frame _ (match ?x with _ => _ end) => destruct x end ].
Qed.

Lemma performs_at {A} (m : Gateway A) log : performs no_program m -> later log (m log).1.
Proof. intros Hm. apply (Hm log). Qed.

Lemma performs_mounted : performs no_program (load_mounted_profile config).
Proof.
  assert (Hparsed : forall source, performs no_program
    (match parse source with Ok p => gw_ret (Some p) | Err e => gw_fail e.(pe_message) end)).
  { intros source. destruct (parse source); auto with gateway. }
  unfold load_mounted_profile. destruct (wc_config_base64_path _) as [path|]; [|destruct (wc_config_path _) as [path|]].
  - apply performs_bind; [auto with gateway|intros encoded]. destruct (base64_decode _); auto with gateway.
  - intros log. destruct (metadata log path) as [|e|is_file len mode]; try apply later_preorder.
    destruct (negb is_file || _); [apply later_preorder|]. destruct (negb _); [apply later_preorder|].
    apply performs_at. auto with gateway.
  - auto with gateway.
Qed.

Lemma performs_auth wireguard : performs no_program (load_auth wireguard).
Proof.
  assert (Hread : forall path, performs no_program (read_protected_token path)).
  { intros path log. unfold read_protected_token. destruct (metadata log path) as [|e|is_file len mode]; try apply later_preorder.
    destruct (negb is_file || _); [apply later_preorder|]. destruct (negb _); [apply later_preorder|].
    apply performs_at, performs_bind; [auto with gateway|intros contents]. cbv zeta.
    destruct (_ || _); auto with gateway. }
  unfold load_auth. apply performs_bind; [destruct (wc_admin_token_path _); auto with gateway|auto with gateway].
Qed.

Lemma boot_quiet store policy : later [] (boot config store policy).1.(m_log).
Proof.
  unfold boot. destruct (boot_profile config store []) as [log profile] eqn:Hboot.
  assert (Hlog : later [] log).
  { unfold boot_profile in Hboot. destruct (config.(c_wireguard).(wc_source)), store as [table|].
    1,2: pose proof (performs_at _ [] performs_mounted) as Hm; destruct (load_mounted_profile config []) as [log1 found];
      injection Hboot as <- _; exact Hm.
    all: cbn in Hboot; injection Hboot as <- _.
    2: apply later_preorder.
    eexists. split; [reflexivity|by repeat constructor]. }
  etrans; [exact Hlog|]. apply (frame_initialize (new config store policy (match profile with Ok p => p | Err _ => None end) log)).
Qed.

(** ** The phases *)

Lemma frame_on_manager {A} (m : M A) : frame manager_later m -> frame startup_later (on_manager m).
Proof. intros Hm s. unfold on_manager. specialize (Hm s.(ru_manager)). by destruct (m s.(ru_manager)) as [manager r]. Qed.

Lemma frame_now : frame startup_later (Runtime.now w). Proof. intros s. apply later_preorder. Qed.
Lemma frame_say id status impact reason message : frame startup_later (say w id status impact reason message).
Proof. apply frame_bind; [apply _|apply frame_now|intros at_]. apply frame_modify. intros s. apply later_preorder. Qed.

#[local] Hint Resolve frame_on_manager frame_now frame_say frame_run performs_auth : frames.

Ltac frames :=
  repeat first
    [ lazymatch goal with
      | |- frame _ (bind _ _) => apply frame_bind; [apply _| |intros ?]
      | |- frame _ (modify _) => apply frame_modify; intros ?; apply later_preorder
      end
    | solve [auto with frames]
    | match goal with |- frame _ (match ?x with _ => _ end) => destruct x end ].

(** Everything that comes before the tunnel. *)
Definition before_tunnel : RT unit :=
  let* _ := start_history config w in
  let* _ := start_notifications in
  let* _ := if w.(wo_telemetry) then spawn [TelemetryMonitor] else ret tt in
  let* _ := spawn [VpnServerTask] in
  let* _ := first_reports config w in
  let* _ := set_interface config.(c_wireguard).(wc_interface) in
  serve config w.

Definition after_tunnel : RT unit :=
  let* _ := spawn [DockerTask; TunnelTask; PortTask; ProbeTask; ClientTrafficTask] in
  start_dns config w.

Lemma start_phases s :
  start_components config w s = (let* _ := before_tunnel in let* _ := start_tunnel config w in after_tunnel) s.
Proof.
  unfold start_components, before_tunnel, after_tunnel, bind.
  destruct (start_history config w s) as [s1 [u1|e1]]; [|done]. destruct (start_notifications s1) as [s2 [u2|e2]]; [|done].
  destruct (wo_telemetry w); cbn [spawn with_tasks modify ret].
  all: destruct (first_reports config w _) as [s5 [u5|e5]]; [|done].
  all: cbn [set_interface modify]; by destruct (serve config w _) as [s7 [u7|e7]].
Qed.

Lemma frame_before : frame startup_later before_tunnel.
Proof.
  unfold before_tunnel, start_history, start_notifications, first_reports, serve, spawn, with_tasks, set_history, set_notifier,
    set_auth, set_interface. frames.
Qed.

(** What follows the tunnel cannot fail, because the address of the forwarder was
    validated. *)
Lemma after_tunnel_ok s : Config.validate config = Ok tt ->
  exists s1, after_tunnel s = (s1, Ok tt) /\ s1.(ru_manager) = s.(ru_manager).
Proof.
  intros Hv%validate_passes. pose proof (p_addresses _ Hv) as Ha. unfold validate_addresses in Ha.
  apply res_bind_Ok in Ha as (? & _ & Ha). apply res_bind_Ok in Ha as (address & Hl%ok_or_Ok & _).
  unfold after_tunnel, bind at 1, start_dns. cbn [spawn with_tasks modify].
  destruct (dc_enabled _); [|eexists; by split]. unfold bind at 1, lift. rewrite Hl. cbn [ok_or].
  eexists. by split.
Qed.

(** How the phase of the tunnel ends. *)
Inductive TunnelStart : Type := NoTunnel | TunnelUp | TunnelFailed.

Definition tunnel_start (log : list Event) : TunnelStart :=
  if config.(c_wireguard).(wc_manage) then
    match active_profile config w with
    | Some profile => match (wireguard_up config profile log).2 with Ok _ => TunnelUp | Err _ => TunnelFailed end
    | None => NoTunnel
    end
  else NoTunnel.

Definition status_at (s : Startup) (id : string) : option CheckStatus :=
  sc_status <$> s.(ru_publisher).(sp_inner).(sn_checks) !! id.

Lemma status_said s id status impact reason message j :
  status_at (say w id status impact reason message s).1 j = if bool_decide (j = id) then Some status else status_at s j.
Proof.
  unfold status_at. cbn. rewrite observe_checks.
  case_bool_decide as Hj; [subst j; by rewrite lookup_insert_eq|by rewrite lookup_insert_ne].
Qed.

Definition derived (s : Startup) : Prop :=
  s.(ru_publisher).(sp_inner).(sn_protection) = derive_protection s.(ru_publisher).(sp_inner).(sn_checks).

Lemma derived_said id status impact reason message s : derived (say w id status impact reason message s).1.
Proof. unfold derived. cbn. unfold Control.observe. by destruct (observation_changed _ _ _). Qed.

Lemma start_tunnel_spec s :
  exists s1, start_tunnel config w s = (s1, Ok tt)
    /\ match tunnel_start s.(ru_manager).(m_log) with
       | NoTunnel => s1 = s
       | TunnelUp => config.(c_wireguard).(wc_manage) = true /\ status_at s1 "gateway.routes" = Some Healthy
           /\ (forall id, id <> "gateway.routes" -> status_at s1 id = status_at s id) /\ derived s1
       | TunnelFailed => config.(c_wireguard).(wc_manage) = true /\ s1.(ru_publisher) = s.(ru_publisher)
       end.
Proof.
  unfold start_tunnel, tunnel_start. destruct (wc_manage _); [|by eexists].
  destruct (active_profile config w) as [profile|]; [|by eexists].
  unfold bind at 1, attempt, on_manager at 1, run at 1. cbn [fst snd].
  destruct (wireguard_up config profile (m_log (ru_manager s))) as [log [u|e]]; cbn [fst snd].
  - match goal with |- context [say w ?a ?b ?c ?d ?e ?s0] => set (s2 := s0) end.
    eexists. split; [reflexivity|]. split; [done|]. split.
    + etrans; [apply (status_said s2)|]. by rewrite bool_decide_eq_true_2.
    + split; [|apply derived_said]. intros id Hid. etrans; [apply (status_said s2)|]. by rewrite bool_decide_eq_false_2.
  - unfold on_manager, mark_degraded, mark, bind, gets. cbn [fst snd].
    destruct (has_active_profile _); eexists; (split; [reflexivity|by split]).
Qed.

(** ** The firewall comes first *)

Lemma observe_no_clients items : foldl observe_counter ∅ items = ∅.
Proof. induction items as [|[counter|] items IH]; [done| |done]. cbn. by rewrite map_imap_empty. Qed.

Lemma observe_default nft p u : observe_kernel_locked config nft DesiredPolicy_default = (p, Ok u) -> p = DesiredPolicy_default.
Proof.
  unfold observe_kernel_locked. destruct (negb _); [by intros [= <-]|]. destruct (table_exists _) as [[]|]; [|by intros [= <-]|done].
  destruct (nft_list_counters nft) as [e|e|[items|]]; try done. cbn [clients DesiredPolicy_default].
  rewrite observe_no_clients. by intros [= <-].
Qed.

(** A base policy that was applied is in the kernel. *)
Lemma base_loaded nft policy : config.(c_reconcile).(rn_apply_gateway_firewall) = true ->
  reconcile_base config nft DesiredPolicy_default = (policy, Ok tt) ->
  exists existed, nft.(nft_load) (Enforcement.transaction config existed DesiredPolicy_default) = Done tt.
Proof.
  intros Happly. unfold reconcile_base, Enforcement.apply_locked, manages. rewrite Happly. cbn [negb].
  destruct (observe_kernel_locked config nft _) as [p [[]|e]] eqn:Hp; [|done]. apply observe_default in Hp as ->.
  destruct (table_exists nft.(nft_exists_at_load)) as [existed|]; [|done].
  destruct (nft_load _ _) as [e|e|[]] eqn:Hload; [done|done|]. intros _. by exists existed.
Qed.

Lemma accepted_applies : Config.validate config = Ok tt -> config.(c_reconcile).(rn_apply_gateway_firewall) = true.
Proof.
  intros Hv%validate_passes. pose proof (p_loops _ Hv) as Hc. unfold validate_loops in Hc.
  apply res_bind_Ok in Hc as (_ & _ & Hc). by apply res_bind_Ok in Hc as (_ & ?%ensure_Ok & _).
Qed.

(** A start by its phases. *)
Lemma startup_cases :
  match startup config w with
  | (None, _) => True
  | (Some s, r) =>
      Config.validate config = Ok tt
      /\ (exists existed, w.(wo_nft).(nft_load) (Enforcement.transaction config existed DesiredPolicy_default) = Done tt)
      /\ ((exists e, r = Err e /\ later [] s.(ru_manager).(m_log))
          \/ exists s0 s1, later [] s0.(ru_manager).(m_log)
               /\ (exists s00, before_tunnel s00 = (s0, Ok tt)) /\ start_tunnel config w s0 = (s1, Ok tt)
               /\ after_tunnel s1 = (s, Ok tt) /\ s.(ru_manager) = s1.(ru_manager) /\ r = Ok tt)
  end.
Proof.
  unfold startup. destruct (Config.validate config) as [[]|e] eqn:Hv; [|done].
  destruct (reconcile_base config _ _) as [policy [[]|e]] eqn:Hbase; [|done].
  pose proof (base_loaded _ _ (accepted_applies Hv) Hbase) as Hload.
  pose proof (boot_quiet w.(wo_store) policy) as Hboot. destruct (boot config w.(wo_store) policy) as [manager [[]|e]].
  - rewrite start_phases. unfold bind at 1. pose proof (frame_before (startup_of config w manager)) as Hframe.
    destruct (before_tunnel (startup_of config w manager)) as [s0 [[]|e]] eqn:Hbefore; cbn [fst] in Hframe.
    + destruct (start_tunnel_spec s0) as (s1 & Htunnel & _). unfold bind. rewrite Htunnel.
      destruct (after_tunnel_ok s1 Hv) as (s2 & Hafter & Hm). rewrite Hafter. split; [done|]. split; [done|]. right.
      exists s0, s1. split; [etrans; [exact Hboot|exact Hframe]|]. by split; [eauto|].
    + split; [done|]. split; [done|]. left. exists e. split; [done|]. etrans; [exact Hboot|exact Hframe].
  - split; [done|]. split; [done|]. left. by exists e.
Qed.

(** ** The end *)

Lemma each_stop tasks s : exists s1, each stop tasks s = (s1, Ok tt)
  /\ s1.(ru_manager) = s.(ru_manager) /\ s1.(ru_history) = s.(ru_history) /\ s1.(ru_publisher) = s.(ru_publisher)
  /\ forall t, t ∈ s1.(ru_tasks) <-> t ∈ s.(ru_tasks) /\ t ∉ tasks.
Proof.
  revert s. induction tasks as [|task tasks IH]; intros s.
  - exists s. split_and!; try done. intros t. set_solver.
  - cbn [each]. unfold bind, stop, with_tasks, modify.
    destruct (IH {| ru_manager := s.(ru_manager); ru_publisher := s.(ru_publisher); ru_app := s.(ru_app);
                    ru_history := s.(ru_history); ru_notifier := s.(ru_notifier); ru_auth := s.(ru_auth);
                    ru_tasks := List.filter (fun running => negb (bool_decide (running = task))) s.(ru_tasks);
                    ru_asked := s.(ru_asked) |}) as (s1 & Hs1 & Hm & Hh & Hp & Ht).
    exists s1. split; [exact Hs1|]. split_and!; [done|done|done|]. intros t. rewrite Ht. cbn.
    rewrite elem_of_bfilter, negb_true_iff, bool_decide_eq_false, not_elem_of_cons. tauto.
Qed.

(** What the end leaves. *)
Lemma shutdown_spec reply s : exists s1, shutdown config reply s = (s1, Ok tt)
  /\ s1.(ru_tasks) = []
  /\ s1.(ru_history) = option_map (fun store => default store (barrier true reply store)) s.(ru_history)
  /\ s1.(ru_publisher) = s.(ru_publisher)
  /\ (if config.(c_wireguard).(wc_manage)
      then exists r, s1.(ru_manager).(m_log)
                     = s.(ru_manager).(m_log) ++ [(RunProgram "wg-quick" ["down"; runtime_path config], r)]
      else s1.(ru_manager).(m_log) = s.(ru_manager).(m_log)).
Proof.
  unfold shutdown, bind at 1. destruct (each_stop stop_order s) as (s1 & -> & Hm & Hh & Hp & Ht).
  assert (Hempty : s1.(ru_tasks) = []).
  { destruct (ru_tasks s1) as [|t tasks]; [done|]. destruct (proj1 (Ht t) ltac:(by left)) as [_ Hno]. destruct Hno.
    destruct t; vm_compute; set_solver. }
  unfold shut_history, set_history, bind, modify, teardown. destruct (wc_manage _).
  - unfold on_manager, run. cbn. eexists. split; [reflexivity|]. cbn. split; [done|]. split; [by rewrite Hh|]. split; [done|].
    rewrite <- Hm. unfold command, gw_bind, perform. cbn. destruct (Machine.reply _ _); eexists; reflexivity.
  - eexists. split; [reflexivity|]. cbn. split; [done|]. split; [by rewrite Hh|]. split; [done|]. by rewrite Hm.
Qed.

Lemma later_no_program log e : later [] log -> e ∈ log -> is_program e.1 = false.
Proof.
  intros (tail & -> & Hok) Hin. rewrite list.Forall_forall in Hok. specialize (Hok e Hin). by apply negb_true_iff.
Qed.


(** ** What is published at the start *)

Lemma status_is_at s id status :
  status_is (s.(ru_publisher).(sp_inner).(sn_checks) !! id) status = bool_decide (status_at s id = Some status).
Proof.
  unfold status_is, status_at. destruct (_ !! id) as [check|]; cbn; [|by rewrite bool_decide_eq_false_2].
  apply bool_decide_ext. naive_solver.
Qed.

Lemma protection_at s : derived s ->
  s.(ru_publisher).(sp_inner).(sn_protection)
  = (if bool_decide (status_at s "gateway.firewall" = Some Healthy) && bool_decide (status_at s "gateway.routes" = Some Healthy)
     then Enforced
     else if bool_decide (status_at s "gateway.firewall" = Some Domain.Failed) then Violated
     else if bool_decide (status_at s "gateway.routes" = Some Domain.Failed) then Violated
     else ProtectionUnknown).
Proof. intros ->. unfold derive_protection. by rewrite !status_is_at. Qed.

Definition same_publisher (s s1 : Startup) : Prop := s1.(ru_publisher) = s.(ru_publisher).
#[local] Instance same_publisher_preorder : PreOrder same_publisher.
Proof. split; [by intros s|intros s1 s2 s3 Ha Hb; unfold same_publisher in *; congruence]. Qed.

Lemma performs_up profile : performs (fun _ => true) (wireguard_up config profile).
Proof.
  unfold wireguard_up, prepare_wireguard_profile, verify_tmpfs, configure_gateway_routes, configure_gateway_ipv6_routes,
    service_route, ip.
  repeat first [solve [auto with gateway] | apply performs_bind; [|intros ?] | apply performs_each; intros ?
               | match goal with |- performs _ (match ?x with _ => _ end) => destruct x end].
Qed.

Lemma tunnel_log s : s.(ru_manager).(m_log) `prefix_of` (start_tunnel config w s).1.(ru_manager).(m_log).
Proof.
  unfold start_tunnel. destruct (wc_manage _); [|done]. destruct (active_profile config w) as [profile|]; [|done].
  destruct (performs_up profile s.(ru_manager).(m_log)) as (tail & Hlog & _).
  unfold bind, attempt, on_manager, run. cbn [fst snd].
  destruct (wireguard_up config profile (m_log (ru_manager s))) as [log [u|e]]; cbn [fst snd] in *; subst log.
  - exists tail. reflexivity.
  - unfold mark_degraded, mark, bind, gets. cbn [fst snd ru_manager].
    destruct (has_active_profile _); exists tail; reflexivity.
Qed.

(** The reports of the first half. *)
Lemma before_tunnel_reports s s1 : before_tunnel s = (s1, Ok tt) ->
  derived s1 /\ status_at s1 "gateway.routes" = Some Unknown
  /\ status_at s1 "gateway.firewall" = Some (if config.(c_reconcile).(rn_apply_gateway_firewall) then Healthy else Unknown).
Proof.
  unfold before_tunnel. rewrite bind_Ok. intros (s2 & ? & _ & H). rewrite bind_Ok in H. destruct H as (s3 & ? & _ & H).
  rewrite bind_Ok in H. destruct H as (s4 & ? & _ & H). rewrite bind_Ok in H. destruct H as (s5 & ? & _ & H).
  rewrite bind_Ok in H. destruct H as (s6 & ? & Hreports & H). rewrite bind_Ok in H. destruct H as (s7 & ? & Hinterface & Hserve).
  assert (Hsame : s1.(ru_publisher) = s6.(ru_publisher)).
  { injection Hinterface as <- _. assert (Hframe : frame same_publisher (serve config w)).
    { unfold serve, on_manager, Runtime.now, set_auth, spawn, with_tasks, set_notifier.
      repeat first
        [ lazymatch goal with
          | |- frame _ (bind _ _) => apply frame_bind; [apply _| |intros ?]
          | |- frame _ (modify _) => by apply frame_modify
          | |- frame _ (lift _) => apply frame_lift, _
          | |- frame _ (ret _) => apply frame_ret, _
          | |- frame _ (fun s => _) => intros ?; cbn; repeat case_match; by simplify_eq
          end
        | match goal with |- frame _ (match ?x with _ => _ end) => destruct x end ]. }
    match type of Hserve with serve _ _ ?s0 = _ => specialize (Hframe s0) end. rewrite Hserve in Hframe. exact Hframe. }
  unfold derived, status_at. rewrite Hsame. revert Hreports. unfold first_reports.
  rewrite bind_Ok. intros (s8 & ? & _ & H). rewrite bind_Ok in H. destruct H as (s9 & ? & Hfirewall & Hroutes).
  assert (Hs9 : s9 = (say w "gateway.firewall" (if config.(c_reconcile).(rn_apply_gateway_firewall) then Healthy else Unknown) Critical
    (if config.(c_reconcile).(rn_apply_gateway_firewall) then "firewall.policy_installed" else "firewall.verification_disabled")
    (if config.(c_reconcile).(rn_apply_gateway_firewall) then "The owned fail-closed firewall policy is installed"
     else "Firewall application and verification are disabled") s8).1) by (by rewrite Hfirewall).
  assert (Hs6 : s6 = (say w "gateway.routes" Unknown Critical "routes.awaiting_profile"
                        "Gateway routes are awaiting an active profile" s9).1) by (by rewrite Hroutes).
  rewrite Hs6. split; [apply derived_said|]. fold (status_at (say w "gateway.routes" Unknown Critical "routes.awaiting_profile"
                        "Gateway routes are awaiting an active profile" s9).1 "gateway.routes").
  rewrite status_said, bool_decide_eq_true_2 by done. split; [done|].
  fold (status_at (say w "gateway.routes" Unknown Critical "routes.awaiting_profile"
                        "Gateway routes are awaiting an active profile" s9).1 "gateway.firewall").
  rewrite status_said, bool_decide_eq_false_2, Hs9, status_said, bool_decide_eq_true_2 by done. done.
Qed.

Lemma after_tunnel_reports s s1 : after_tunnel s = (s1, Ok tt) ->
  (forall id, id <> "dns.listener" -> status_at s1 id = status_at s id) /\ (derived s -> derived s1).
Proof.
  unfold after_tunnel, start_dns, bind at 1. cbn [spawn with_tasks modify].
  destruct (dc_enabled _); [|by intros [= <-]]. unfold bind at 1, lift. destruct (ok_or _ _) as [address|]; [|done].
  match goal with |- context [say w ?a ?b ?c ?d ?e] => unfold bind; destruct (say w a b c d e _) as [s2 [u|]] eqn:Hsay end; [|done].
  cbn [spawn with_tasks modify]. intros [= <-].
  match type of Hsay with say w ?a ?b ?c ?d ?e ?s0 = _ =>
    pose proof (fun j => status_said s0 a b c d e j) as Hstatus; pose proof (derived_said a b c d e s0) as Hderived end.
  rewrite Hsay in Hstatus, Hderived. cbn [fst] in *. split; [|by intros _].
  intros id Hid. etrans; [apply (Hstatus id)|]. by rewrite bool_decide_eq_false_2.
Qed.

(** C21: protection is published when it was reached.  After a start that ends well
    the published checks say that the firewall is installed, and the routes are
    healthy, and with them the protection enforced, exactly when a profile was
    there and the interface came up with its routes; otherwise the protection
    is unknown, and no program was run but for the attempt. *)
Theorem published_at_start s :
  startup config w = (Some s, Ok tt) ->
  exists log, later [] log /\ log `prefix_of` s.(ru_manager).(m_log)
    /\ status_at s "gateway.firewall" = Some Healthy
    /\ match tunnel_start log with
       | TunnelUp => status_at s "gateway.routes" = Some Healthy
           /\ s.(ru_publisher).(sp_inner).(sn_protection) = Enforced
       | start => status_at s "gateway.routes" = Some Unknown
           /\ s.(ru_publisher).(sp_inner).(sn_protection) = ProtectionUnknown
           /\ (start = NoTunnel -> later [] s.(ru_manager).(m_log))
       end.
Proof.
  intros Hs. pose proof startup_cases as Hstart. rewrite Hs in Hstart.
  destruct Hstart as (Hv & _ & [(e & [=] & _)|(s0 & s1 & Hlog & [s00 Hbefore] & Htunnel & Hafter & Hm & _)]).
  destruct (before_tunnel_reports _ _ Hbefore) as (Hd & Hroutes & Hfirewall). rewrite (accepted_applies Hv) in Hfirewall.
  pose proof (tunnel_log s0) as Hprefix. rewrite Htunnel in Hprefix. cbn [fst] in Hprefix.
  destruct (start_tunnel_spec s0) as (s1' & Heq & Hcase). rewrite Htunnel in Heq. injection Heq as <-.
  exists s0.(ru_manager).(m_log). split; [done|]. split; [by rewrite Hm|].
  destruct (after_tunnel_reports s1 s Hafter) as [Hsame Hderived].
  destruct (tunnel_start _).
  - subst s1. rewrite (protection_at s (Hderived Hd)), !Hsame, Hfirewall, Hroutes by done. by rewrite Hm.
  - destruct Hcase as (_ & Hup & Hother & Hd1). by rewrite (protection_at s (Hderived Hd1)), !Hsame, Hup, Hother, Hfirewall by done.
  - destruct Hcase as [_ Hpub].
    assert (Hst : forall id, status_at s1 id = status_at s0 id) by (intros id; unfold status_at; by rewrite Hpub).
    assert (Hd1 : derived s1) by (unfold derived; by rewrite Hpub).
    rewrite (protection_at s (Hderived Hd1)), !Hsame, !Hst, Hfirewall, Hroutes by done. by split_and!.
Qed.
End run.

(** ** A start *)

#[local] Existing Instance CidrNet.crate.
#[local] Existing Instance Profiles.sample_env.
#[local] Existing Instance RoutesProps.all_well.
#[local] Existing Instance ProfileManagerProps.no_files.
#[local] Existing Instance HistoryProps.sqlite_works.
#[local] Existing Instance ConfigProps.example_urls.
#[local] Existing Instance ConfigProps.example_files.

Definition run_config : @Config CidrNet.crate :=
  let c := example_config in
  {| c_listen := c.(c_listen); c_docker_socket := c.(c_docker_socket); c_network := c.(c_network);
     c_wireguard := Build_WireGuardConfig "wg0" GuiManaged None None true
       "/var/lib/egressy/profiles.sqlite3" (Some "/run/secrets/key") None [];
     c_port_forwarding := c.(c_port_forwarding); c_dns := c.(c_dns); c_probe := c.(c_probe);
     c_external_probe := c.(c_external_probe); c_identity := c.(c_identity);
     c_persistence := c.(c_persistence); c_otel := c.(c_otel); c_vpn_server := c.(c_vpn_server);
     c_recovery := c.(c_recovery); c_reconcile := c.(c_reconcile); c_kubernetes := c.(c_kubernetes) |}.

(** A machine on which everything works, with the store of profiles given. *)
Definition working_world (store : option Table) : World :=
  {| wo_store := store; wo_nft := example_nft; wo_history := HistoryData.empty_conn; wo_telemetry := false;
     wo_docker := Ok tt; wo_kubernetes := Ok tt; wo_bind := Ok tt; wo_clock := fun n => (1700000000000 + N.of_nat n)%N |}.

Definition started (store : option Table) : option Startup := (startup run_config (working_world store)).1.

Definition protection_of (s : option Startup) : option Protection :=
  (fun s => s.(ru_publisher).(sp_inner).(sn_protection)) <$> s.

(** With a stored profile the start ends protected, without one it waits. *)
Example started_protected : protection_of (started applied.(m_store)) = Some Enforced.
Proof. vm_compute. reflexivity. Qed.
Example started_waiting : protection_of (started (Some ∅)) = Some ProtectionUnknown.
Proof. vm_compute. reflexivity. Qed.

Definition running : Startup :=
  match started applied.(m_store) with
  | Some s => s
  | None => startup_of run_config (working_world None) booted
  end.

Lemma running_started : startup run_config (working_world applied.(m_store)) = (Some running, Ok tt).
Proof.
  assert (Hok : match startup run_config (working_world applied.(m_store)) with (Some _, Ok _) => true | _ => false end = true)
    by (vm_compute; reflexivity).
  revert Hok. unfold running, started. generalize (startup run_config (working_world applied.(m_store))).
  intros [[s|] [[]|e]] Hok; [reflexivity|discriminate Hok..].
Qed.

Lemma published_at_start_witness :
  exists log, later [] log /\ log `prefix_of` running.(ru_manager).(m_log)
    /\ status_at running "gateway.firewall" = Some Healthy.
Proof.
  destruct (published_at_start run_config (working_world applied.(m_store)) running running_started)
    as (log & Hlater & Hprefix & Hfirewall & _).
  exists log. split; [exact Hlater|]. split; [exact Hprefix|exact Hfirewall].
Defined.

Definition stopped : Startup := (shutdown run_config 7 running).1.

Definition programs (log : list Event) : list Action := List.filter is_program log.*1.

(** The last commands of the run. *)
Example last_programs : list.last (programs stopped.(ru_manager).(m_log)) = Some (RunProgram "wg-quick" ["down"; "/run/egressy/wg0.conf"])
  /\ bool_decide (RunProgram "wg-quick" ["up"; "/run/egressy/wg0.conf"] ∈ programs running.(ru_manager).(m_log)) = true.
Proof. vm_compute. split; reflexivity. Qed.

Lemma running_program : exists e, e ∈ stopped.(ru_manager).(m_log) /\ is_program e.1 = true.
Proof.
  assert (H : existsb (fun e => is_program e.1) stopped.(ru_manager).(m_log) = true) by (vm_compute; reflexivity).
  apply existsb_exists in H as (e & Hin%list_elem_of_In & He). eauto.
Qed.

Lemma run_of_running : run_program run_config (working_world applied.(m_store)) (Ok tt) 7 = (Some stopped, Ok tt).
Proof. unfold run_program, stopped. rewrite running_started. reflexivity. Qed.

