(* ===== verification/EgressyProbe.v ===== *)
(** The probe on the enrolled path (src/src/bin/egressy-probe.rs): its
    configuration, the DNS and identity checks, the external verification of the
    forwarded ports, and the status that the gateway reads.

    What the network answers is an argument of each check; serde_json, the url
    crate and the resolver are parameters. *)

From S2P Require Import Prelude RustStr Net BTree State Config AdminAuth.

(** ** The environment *)

(** [std::env::var] *)
Inductive Var : Type := VarSet (value : string) | VarNotPresent | VarNotUnicode.
Class EnvVars : Type := env_var : string -> Var.

(** [std::fs::read_to_string] *)
Class TextFiles : Type := read_text : string -> Result string string.

(** The parts of [serde_json::Value] that the identity checks use. *)
Class JsonCrate : Type := {
  Json : Type;
  json_parse : string -> option Json;
  json_get : Json -> string -> option Json;
  json_as_str : Json -> option string;
  json_as_bool : Json -> option bool;
}.

(** [Url::port_or_known_default] *)
Class UrlKnownPort `{!UrlCrate} : Type := url_port_or_known_default : Url -> option N.

Definition MAX_IDENTITY_RESPONSE_BYTES : nat := 16 * 1024.
Definition FIELDS : list string := ["asn_org"; "as_name"; "org"; "mullvad_exit_ip"].

Section settings.
Context `{!EnvVars, !TextFiles, !UrlCrate}.

Definition env (name fallback : string) : string :=
  match env_var name with VarSet value => value | _ => fallback end.

Definition env_bool (name : string) (fallback : bool) : Result bool string :=
  match env_var name with
  | VarSet value =>
      let value := to_ascii_lowercase value in
      if existsb (String.eqb value) ["1"; "true"; "yes"; "on"] then Ok true
      else if existsb (String.eqb value) ["0"; "false"; "no"; "off"] then Ok false
      else Err (name +:+ " must be true or false")
  | VarNotPresent => Ok fallback
  | VarNotUnicode => Err "environment variable was not valid unicode"
  end.

Definition load_identity_matcher : Result IdentityMatcher string :=
  let kind := env "EGRESSY_PROBE_IDENTITY_MATCHER_TYPE" "json_string_contains" in
  if String.eqb kind "plain_text_contains"
  then Ok (PlainTextContains (env "EGRESSY_PROBE_IDENTITY_MATCHER_VALUE" "Datacamp"))
  else if String.eqb kind "json_string_contains" then
    let fields := trim <$> split_char "," (env "EGRESSY_PROBE_IDENTITY_MATCHER_FIELDS" "asn_org,as_name,org") in
    let? _ := ensure
      (negb (bool_decide (fields = []) || existsb (fun field => negb (existsb (String.eqb field) FIELDS)) fields))
      "identity matcher field is not allowlisted" in
    Ok (JsonStringContains fields (env "EGRESSY_PROBE_IDENTITY_MATCHER_VALUE" "Datacamp"))
  else if String.eqb kind "json_boolean" then
    let field := env "EGRESSY_PROBE_IDENTITY_MATCHER_FIELD" "mullvad_exit_ip" in
    let? _ := ensure (existsb (String.eqb field) FIELDS) "identity matcher field is not allowlisted" in
    let? value := env_bool "EGRESSY_PROBE_IDENTITY_MATCHER_VALUE" true in
    Ok (JsonBoolean field value)
  else Err "unsupported identity matcher type".

Record ExternalProbeConfig : Type := {
  xc_instance_id : string;
  xc_url : Url;
  xc_interval_seconds : N;
  xc_timeout_seconds : N;
  xc_token : option string;
  xc_state_url : string;
}.

Definition load_external_probe_token : Result string string :=
  let? token :=
    match env_var "EGRESSY_EXTERNAL_PROBE_TOKEN" with
    | VarSet token => Ok token
    | _ =>
        match env_var "EGRESSY_EXTERNAL_PROBE_TOKEN_PATH" with
        | VarSet path =>
            map_err (fun _ => "failed to read EGRESSY_EXTERNAL_PROBE_TOKEN_PATH " +:+ path) (read_text path)
        | _ => Err "EGRESSY_EXTERNAL_PROBE_TOKEN or EGRESSY_EXTERNAL_PROBE_TOKEN_PATH is required"
        end
    end in
  let token := trim token in
  let? _ := ensure (negb (is_empty token)) "external probe token must not be empty" in
  Ok token.

Definition is_some_ip (host : string) : bool :=
  match parse_ip host with Some _ => true | None => false end.

Definition load_external_probe_config : Result (option ExternalProbeConfig) string :=
  if negb (eq_ignore_ascii_case (env "EGRESSY_EXTERNAL_PROBE_ENABLED" "false") "true") then Ok None
  else
    let? url := ok_or (url_parse (env "EGRESSY_EXTERNAL_PROBE_URL" "")) "invalid EGRESSY_EXTERNAL_PROBE_URL" in
    let? _ := ensure (String.eqb (url_scheme url) "https") "EGRESSY_EXTERNAL_PROBE_URL must use https" in
    let? host := ok_or (url_host_str url) "EGRESSY_EXTERNAL_PROBE_URL must include a hostname" in
    let? _ := ensure (negb (is_some_ip host))
      "EGRESSY_EXTERNAL_PROBE_URL must use a DNS hostname, not a raw IP" in
    let? _ := ensure (negb (ends_with host ".ts.net"))
      "EGRESSY_EXTERNAL_PROBE_URL must not use a Tailscale hostname" in
    let? interval := ok_or (parse_u64 (env "EGRESSY_EXTERNAL_PROBE_INTERVAL_SECONDS" "10"))
      "invalid EGRESSY_EXTERNAL_PROBE_INTERVAL_SECONDS" in
    let? timeout := ok_or (parse_u64 (env "EGRESSY_EXTERNAL_PROBE_TIMEOUT_SECONDS" "5"))
      "invalid EGRESSY_EXTERNAL_PROBE_TIMEOUT_SECONDS" in
    let? _ := ensure (negb (interval =? 0)%N)
      "EGRESSY_EXTERNAL_PROBE_INTERVAL_SECONDS must be greater than zero" in
    let? _ := ensure (negb ((timeout =? 0)%N || (interval <=? timeout)%N))
      "EGRESSY_EXTERNAL_PROBE_TIMEOUT_SECONDS must be greater than zero and shorter than the interval" in
    let? token := load_external_probe_token in
    Ok (Some {| xc_instance_id := env "EGRESSY_EXTERNAL_PROBE_INSTANCE_ID" "egressy"; xc_url := url;
                xc_interval_seconds := interval; xc_timeout_seconds := timeout; xc_token := Some token;
                xc_state_url := env "EGRESSY_EXTERNAL_PROBE_STATE_URL" "http://172.30.0.2:8080/api/v1/status" |}).

(** What [main] reads before it starts the checks. *)
Record ProbeSettings : Type := {
  pb_listen : SocketAddr;
  pb_dns : SocketAddr;
  pb_identity_enabled : bool;
  pb_identity_url : string;
  pb_identity_interval_seconds : N;
  pb_identity_matcher : IdentityMatcher;
  pb_expected_identity : string;
  pb_token : option string;
}.

Definition load_settings : Result ProbeSettings string :=
  let? listen := ok_or (parse_socket (env "EGRESSY_PROBE_LISTEN" "0.0.0.0:8081")) "invalid socket address syntax" in
  let? dns := ok_or (parse_socket (env "EGRESSY_PROBE_DNS" "172.30.0.2:53")) "invalid socket address syntax" in
  let? identity_enabled := env_bool "EGRESSY_PROBE_IDENTITY_ENABLED" false in
  let? interval := ok_or (parse_u64 (env "EGRESSY_PROBE_IDENTITY_INTERVAL_SECONDS" "300")) "invalid digit found in string" in
  let? _ := ensure (negb (interval =? 0)%N) "EGRESSY_PROBE_IDENTITY_INTERVAL_SECONDS must be greater than zero" in
  let? matcher := load_identity_matcher in
  Ok {| pb_listen := listen; pb_dns := dns; pb_identity_enabled := identity_enabled;
        pb_identity_url := env "EGRESSY_PROBE_IDENTITY_URL" "https://ifconfig.co/json";
        pb_identity_interval_seconds := interval; pb_identity_matcher := matcher;
        pb_expected_identity := if identity_enabled then expected_value matcher else "";
        pb_token := match env_var "EGRESSY_PROBE_TOKEN" with VarSet token => Some token | _ => None end |}.
End settings.

(** ** The status *)

Record ExternalProbeStatus : Type := {
  xs_status : string;
  xs_observed_at_unix_ms : N;
  xs_source_public_non_tailscale : option bool;
  xs_source_matches_claimed_ip : option bool;
  xs_tcp_port_reachable : option bool;
  xs_forwarded_port : option N;
  xs_lease_acquired_at_unix_ms : option N;
  xs_request_started_at_unix_ms : option N;
  xs_reason_code : string;
  xs_safe_message : string;
}.

Record ProbeStatus : Type := {
  pt_observed_at_unix_ms : N;
  pt_udp_dns_ok : bool;
  pt_tcp_dns_ok : bool;
  pt_https_egress_ok : bool;
  pt_vpn_identity_ok : bool;
  pt_expected_identity : string;
  pt_duration_ms : N;
  pt_reason_code : string;
  pt_safe_message : string;
  pt_observed_public_ip : option Ipv4Addr;
  pt_external_probe : option ExternalProbeStatus;
  pt_external_probes : gmap string ExternalProbeStatus;
}.

Definition status_default : ProbeStatus :=
  {| pt_observed_at_unix_ms := 0; pt_udp_dns_ok := false; pt_tcp_dns_ok := false; pt_https_egress_ok := false;
     pt_vpn_identity_ok := false; pt_expected_identity := ""; pt_duration_ms := 0; pt_reason_code := "";
     pt_safe_message := ""; pt_observed_public_ip := None; pt_external_probe := None; pt_external_probes := ∅ |}.

Definition all_ok (s : ProbeStatus) : bool :=
  s.(pt_udp_dns_ok) && s.(pt_tcp_dns_ok) && s.(pt_https_egress_ok) && s.(pt_vpn_identity_ok).

Definition update_path_summary (s : ProbeStatus) : ProbeStatus :=
  {| pt_observed_at_unix_ms := s.(pt_observed_at_unix_ms); pt_udp_dns_ok := s.(pt_udp_dns_ok);
     pt_tcp_dns_ok := s.(pt_tcp_dns_ok); pt_https_egress_ok := s.(pt_https_egress_ok);
     pt_vpn_identity_ok := s.(pt_vpn_identity_ok); pt_expected_identity := s.(pt_expected_identity);
     pt_duration_ms := s.(pt_duration_ms);
     pt_reason_code := if all_ok s then "probe.path_healthy" else "probe.path_degraded";
     pt_safe_message :=
       if all_ok s then "DNS and HTTPS succeeded through the enrolled path"
       else "One or more enrolled-path checks failed";
     pt_observed_public_ip := s.(pt_observed_public_ip); pt_external_probe := s.(pt_external_probe);
     pt_external_probes := s.(pt_external_probes) |}.

(** The handler of /status. *)
Definition status (token : option string) (headers : HeaderMap) (s : ProbeStatus) : Result ProbeStatus StatusCode :=
  match token with
  | Some token =>
      if bool_decide ((value ← header_str headers "authorization"; strip_prefix value "Bearer ") = Some token)
      then Ok s else Err UNAUTHORIZED
  | None => Ok s
  end.

(** ** DNS *)

Definition dns_query : list N :=
  [69; 71; 1; 0; 0; 1; 0; 0; 0; 0; 0; 0; 7; 101; 120; 97; 109; 112; 108; 101; 3; 99; 111; 109; 0; 0; 1; 0; 1]%N.

Definition validate_response (query response : list N) : Result unit string :=
  ensure (negb ((length response <? 12)%nat || negb (bool_decide (take 2 response = take 2 query))
                || (N.land (default 0 (response !! 2%nat)) 128 =? 0)%N))
    "invalid DNS response".

(** The datagram that came back, of which the buffer holds 512 bytes, or the
    error or timeout. *)
Definition udp_dns (query : list N) (received : Result (list N) string) : Result unit string :=
  let? response := received in validate_response query (take 512 response).

(** The message that the server announced and sent. *)
Definition tcp_dns (query : list N) (received : Result (list N) string) : Result unit string :=
  let? response := received in validate_response query response.

Definition res_is_ok {A E} (r : Result A E) : bool := match r with Ok _ => true | Err _ => false end.

Definition observe_dns (expected_identity : string) (udp tcp : Result (list N) string) (now elapsed_ms : N)
    (s : ProbeStatus) : ProbeStatus :=
  update_path_summary
    {| pt_observed_at_unix_ms := now; pt_udp_dns_ok := res_is_ok (udp_dns dns_query udp);
       pt_tcp_dns_ok := res_is_ok (tcp_dns dns_query tcp); pt_https_egress_ok := s.(pt_https_egress_ok);
       pt_vpn_identity_ok := s.(pt_vpn_identity_ok); pt_expected_identity := expected_identity;
       pt_duration_ms := elapsed_ms; pt_reason_code := s.(pt_reason_code); pt_safe_message := s.(pt_safe_message);
       pt_observed_public_ip := s.(pt_observed_public_ip); pt_external_probe := s.(pt_external_probe);
       pt_external_probes := s.(pt_external_probes) |}.

(** ** Identity *)

(** What a GET of the identity endpoint ends in: no response or an error status,
    or the announced length and the chunks of the body, which may break off. *)
Inductive IdentityAnswer : Type :=
| IdentityFailed
| IdentityBody (content_length : option N) (chunks : list string) (broken : bool).

(** The loop over the chunks. *)
Fixpoint read_chunks (body : string) (chunks : list string) (broken : bool) : option string :=
  match chunks with
  | [] => if broken then None else Some body
  | chunk :: chunks =>
      if (String.length body + String.length chunk <=? MAX_IDENTITY_RESPONSE_BYTES)%nat
      then read_chunks (body +:+ chunk) chunks broken
      else None
  end.

Section identity.
Context `{!JsonCrate}.

(** [std::str::from_utf8(body)?.trim()] *)
Definition text_of (body : string) : option string := if utf8_valid body then Some (trim body) else None.

Definition identity_observed_ip (body : string) : option Ipv4Addr :=
  text ← text_of body;
  document ← json_parse text;
  ip ← json_get document "ip";
  ip ← json_as_str ip;
  parse_ipv4 ip.

Definition contains_ignoring_case (text value : string) : bool :=
  str_contains (to_ascii_lowercase text) (to_ascii_lowercase value).

(** [None] is the error. *)
Definition identity_body_matches (body : string) (matcher : IdentityMatcher) : option bool :=
  text ← text_of body;
  match matcher with
  | PlainTextContains value => Some (contains_ignoring_case text value)
  | JsonStringContains fields value =>
      document ← json_parse text;
      Some (existsb (fun field =>
        match json_get document field ≫= json_as_str with
        | Some observed => contains_ignoring_case observed value
        | None => false
        end) fields)
  | JsonBoolean field value =>
      document ← json_parse text;
      Some (bool_decide (json_get document field ≫= json_as_bool = Some value))
  end.

Definition check_identity (answer : IdentityAnswer) (matcher : IdentityMatcher) : bool * bool * option Ipv4Addr :=
  match answer with
  | IdentityFailed => (false, false, None)
  | IdentityBody content_length chunks broken =>
      if match content_length with
         | Some length => (N.of_nat MAX_IDENTITY_RESPONSE_BYTES <? length)%N | None => false end
      then (true, false, None)
      else
        match read_chunks "" chunks broken with
        | None => (true, false, None)
        | Some body =>
            match identity_body_matches body matcher with
            | Some matches => (true, matches, identity_observed_ip body)
            | None => (true, false, identity_observed_ip body)
            end
        end
  end.

Definition observe_identity (expected_identity : string) (matcher : IdentityMatcher) (answer : IdentityAnswer)
    (now elapsed_ms : N) (s : ProbeStatus) : ProbeStatus :=
  let '(https_egress_ok, vpn_identity_ok, observed_public_ip) := check_identity answer matcher in
  update_path_summary
    {| pt_observed_at_unix_ms := now; pt_udp_dns_ok := s.(pt_udp_dns_ok); pt_tcp_dns_ok := s.(pt_tcp_dns_ok);
       pt_https_egress_ok := https_egress_ok; pt_vpn_identity_ok := vpn_identity_ok;
       pt_expected_identity := expected_identity; pt_duration_ms := elapsed_ms;
       pt_reason_code := s.(pt_reason_code); pt_safe_message := s.(pt_safe_message);
       pt_observed_public_ip := match observed_public_ip with Some ip => Some ip | None => s.(pt_observed_public_ip) end;
       pt_external_probe := s.(pt_external_probe); pt_external_probes := s.(pt_external_probes) |}.
End identity.

(** [run_checks] without the identity check *)
Definition skip_identity (s : ProbeStatus) : ProbeStatus :=
  {| pt_observed_at_unix_ms := s.(pt_observed_at_unix_ms); pt_udp_dns_ok := s.(pt_udp_dns_ok);
     pt_tcp_dns_ok := s.(pt_tcp_dns_ok); pt_https_egress_ok := true; pt_vpn_identity_ok := true;
     pt_expected_identity := s.(pt_expected_identity); pt_duration_ms := s.(pt_duration_ms);
     pt_reason_code := s.(pt_reason_code); pt_safe_message := s.(pt_safe_message);
     pt_observed_public_ip := s.(pt_observed_public_ip); pt_external_probe := s.(pt_external_probe);
     pt_external_probes := s.(pt_external_probes) |}.

(** ** The external verification *)

(** [Ipv4Addr]'s predicates *)
Definition ipv4_octet (n : N) (ip : Ipv4Addr) : N := (ip / 2 ^ (8 * (3 - n))) mod 256.
Definition is_private (ip : Ipv4Addr) : bool :=
  (ipv4_octet 0 ip =? 10)%N
  || (ipv4_octet 0 ip =? 172)%N && (16 <=? ipv4_octet 1 ip)%N && (ipv4_octet 1 ip <=? 31)%N
  || (ipv4_octet 0 ip =? 192)%N && (ipv4_octet 1 ip =? 168)%N.
Definition is_ipv4_loopback (ip : Ipv4Addr) : bool := (ipv4_octet 0 ip =? 127)%N.
Definition is_link_local (ip : Ipv4Addr) : bool := (ipv4_octet 0 ip =? 169)%N && (ipv4_octet 1 ip =? 254)%N.
Definition is_ipv4_multicast (ip : Ipv4Addr) : bool := (224 <=? ipv4_octet 0 ip)%N && (ipv4_octet 0 ip <=? 239)%N.

(** [Ipv6Addr::is_unique_local] *)
Definition is_unique_local (ip : Ipv6Addr) : bool := (N.land (first_segment ip) 65024 =? 64512)%N.

Definition is_disallowed_probe_ip (ip : IpAddr) : bool :=
  match ip with
  | IpAddr_V4 ip =>
      is_private ip || is_ipv4_loopback ip || is_link_local ip || is_ipv4_multicast ip || (ip =? 0)%N
      || (1681915904 <=? ip)%N && (ip <=? 1686110207)%N
  | IpAddr_V6 ip =>
      is_loopback ip || is_multicast ip || (ip =? 0)%N || is_unique_local ip || is_unicast_link_local ip
  end.

Definition validate_resolved_addresses (addresses : list SocketAddr) : Result unit string :=
  match addresses with
  | [] => Err "hostname did not resolve to any addresses"
  | _ => ensure (forallb (fun address => negb (is_disallowed_probe_ip (socket_ip address))) addresses)
           "resolved to a disallowed address"
  end.

Section pinned.
Context `{!UrlCrate, !UrlKnownPort}.

(** [lookup] is the resolver's answer for the host and port. *)
Definition resolve_public_addresses (url : Url) (lookup : string -> N -> Result (list SocketAddr) string)
    : Result (list SocketAddr) string :=
  let? host := ok_or (url_host_str url) "external probe URL must include a hostname" in
  let? port := ok_or (url_port_or_known_default url) "external probe URL must use a known port" in
  let? addresses := lookup host port in
  let? _ := validate_resolved_addresses addresses in
  Ok addresses.

(** A client connects to the addresses only; building one may fail. *)
Definition build_pinned_external_client (url : Url) (lookup : string -> N -> Result (list SocketAddr) string)
    (built : Result unit string) : Result (list SocketAddr) string :=
  let? _ := ok_or (url_host_str url) "external probe URL must include a hostname" in
  let? addresses := resolve_public_addresses url lookup in
  let? _ := map_err (fun _ => "building pinned external probe client") built in
  Ok addresses.
End pinned.

Record GatewayPortForward : Type := {
  gp_active : bool;
  gp_public_ip : option Ipv4Addr;
  gp_port : option N;
  gp_lease_acquired_at_unix_ms : option N;
}.
Record GatewayStatus : Type := {
  gs_port_forward : GatewayPortForward;
  gs_port_forwards : gmap string GatewayPortForward;
}.

Record PortForwardClaim : Type := {
  pc_public_ip : option Ipv4Addr;
  pc_forwarded_port : option N;
  pc_lease_acquired_at_unix_ms : option N;
}.
Definition claim_default : PortForwardClaim :=
  {| pc_public_ip := None; pc_forwarded_port := None; pc_lease_acquired_at_unix_ms := None |}.

Record GatewayClaims : Type := {
  gc_primary : PortForwardClaim;
  gc_leases : gmap string PortForwardClaim;
}.
Definition claims_default : GatewayClaims := {| gc_primary := claim_default; gc_leases := ∅ |}.

Definition option_zip {A B} (a : option A) (b : option B) : option (A * B) :=
  match a, b with Some a, Some b => Some (a, b) | _, _ => None end.

Definition extract_port_forward_claim (status : GatewayPortForward) : PortForwardClaim :=
  if negb status.(gp_active) then claim_default
  else
    let mapping := option_zip status.(gp_port) status.(gp_lease_acquired_at_unix_ms) in
    {| pc_public_ip :=
         ip ← status.(gp_public_ip); if is_disallowed_probe_ip (IpAddr_V4 ip) then None else Some ip;
       pc_forwarded_port := fst <$> mapping; pc_lease_acquired_at_unix_ms := snd <$> mapping |}.

Definition extract_port_forward_claims (status : GatewayStatus) : GatewayClaims :=
  {| gc_primary := extract_port_forward_claim status.(gs_port_forward);
     gc_leases := omap (fun lease =>
       let claim := extract_port_forward_claim lease in
       (fun _ => claim) <$> claim.(pc_forwarded_port)) status.(gs_port_forwards) |}.

Record ExternalProbeRequest : Type := {
  xq_instance_id : string;
  xq_request_id : string;
  xq_timestamp_unix_ms : N;
  xq_claimed_public_ip : option Ipv4Addr;
  xq_forwarded_port : option N;
}.

Record ExternalProbeResponse : Type := {
  xr_observed_at_unix_ms : N;
  xr_source_public_non_tailscale : bool;
  xr_source_matches_claimed_ip : option bool;
  xr_tcp_port_reachable : option bool;
  xr_reason_code : string;
  xr_safe_message : string;
}.

(** What a POST to the endpoint ends in; [None] is a body that does not decode. *)
Inductive EndpointAnswer : Type :=
| EndpointReply (status : N) (body : option ExternalProbeResponse)
| EndpointTimeout
| EndpointError.

(** [StatusCode::is_redirection] *)
Definition redirect_is_rejected (status : N) : bool := (300 <=? status)%N && (status <? 400)%N.
(** [error_for_status] *)
Definition is_error_status (status : N) : bool := (400 <=? status)%N && (status <? 600)%N.

Definition unwrap_or_true (b : option bool) : bool := match b with Some b => b | None => true end.

Definition map_external_response (response : ExternalProbeResponse) (claim : PortForwardClaim)
    (request_started_at_unix_ms : N) : ExternalProbeStatus :=
  let checks_passed := response.(xr_source_public_non_tailscale)
    && unwrap_or_true response.(xr_source_matches_claimed_ip) && unwrap_or_true response.(xr_tcp_port_reachable) in
  {| xs_status :=
       if String.eqb response.(xr_reason_code) "external_probe.healthy" && checks_passed then "healthy"
       else if negb checks_passed then "degraded" else "unavailable";
     xs_observed_at_unix_ms := response.(xr_observed_at_unix_ms);
     xs_source_public_non_tailscale := Some response.(xr_source_public_non_tailscale);
     xs_source_matches_claimed_ip := response.(xr_source_matches_claimed_ip);
     xs_tcp_port_reachable := response.(xr_tcp_port_reachable);
     xs_forwarded_port := claim.(pc_forwarded_port);
     xs_lease_acquired_at_unix_ms := claim.(pc_lease_acquired_at_unix_ms);
     xs_request_started_at_unix_ms := Some request_started_at_unix_ms;
     xs_reason_code := response.(xr_reason_code); xs_safe_message := response.(xr_safe_message) |}.

Definition unavailable_external_probe (reason_code safe_message : string) (now : N) : ExternalProbeStatus :=
  {| xs_status := "unavailable"; xs_observed_at_unix_ms := now; xs_source_public_non_tailscale := None;
     xs_source_matches_claimed_ip := None; xs_tcp_port_reachable := None; xs_forwarded_port := None;
     xs_lease_acquired_at_unix_ms := None; xs_request_started_at_unix_ms := None;
     xs_reason_code := reason_code; xs_safe_message := safe_message |}.

Definition reclassify_unenrolled_probe (observed : ExternalProbeStatus)
    (claimed_public_ip probe_public_ip : option Ipv4Addr) : ExternalProbeStatus :=
  if negb (String.eqb observed.(xs_reason_code) "external_probe.claimed_ip_mismatch") then observed
  else
    match claimed_public_ip, probe_public_ip with
    | Some claimed, Some probe =>
        if (probe =? claimed)%N then observed
        else
          {| xs_status := observed.(xs_status); xs_observed_at_unix_ms := observed.(xs_observed_at_unix_ms);
             xs_source_public_non_tailscale := observed.(xs_source_public_non_tailscale);
             xs_source_matches_claimed_ip := observed.(xs_source_matches_claimed_ip);
             xs_tcp_port_reachable := observed.(xs_tcp_port_reachable);
             xs_forwarded_port := observed.(xs_forwarded_port);
             xs_lease_acquired_at_unix_ms := observed.(xs_lease_acquired_at_unix_ms);
             xs_request_started_at_unix_ms := observed.(xs_request_started_at_unix_ms);
             xs_reason_code := "external_probe.probe_not_enrolled";
             xs_safe_message := "The probe is not on the enrolled path, so it cannot validate client egress" |}
    | _, _ => observed
    end.

(** The request of a claim. *)
Definition claim_request (instance_id usage_id : string) (claim : PortForwardClaim) (started : N) : ExternalProbeRequest :=
  {| xq_instance_id := instance_id +:+ ":" +:+ usage_id;
     xq_request_id := "external-probe-" +:+ usage_id +:+ "-" +:+ show_N started;
     xq_timestamp_unix_ms := started; xq_claimed_public_ip := claim.(pc_public_ip);
     xq_forwarded_port := claim.(pc_forwarded_port) |}.

(** What the endpoint answered, as a status. *)
Definition endpoint_status (answer : EndpointAnswer) (claim : PortForwardClaim) (started now : N) : ExternalProbeStatus :=
  match answer with
  | EndpointReply status body =>
      if redirect_is_rejected status then
        unavailable_external_probe "external_probe.redirect_rejected"
          "The external probe endpoint attempted a redirect" now
      else if is_error_status status then
        unavailable_external_probe
          (if (status =? 401)%N then "external_probe.auth_failed" else "external_probe.http_failed")
          "The external probe request failed" now
      else
        match body with
        | Some response => map_external_response response claim started
        | None => unavailable_external_probe "external_probe.invalid_response"
                    "The external probe returned an invalid response" now
        end
  | EndpointTimeout => unavailable_external_probe "external_probe.timeout"
      "The external probe is unavailable; tunnel protection is unchanged" now
  | EndpointError => unavailable_external_probe "external_probe.unavailable"
      "The external probe is unavailable; tunnel protection is unchanged" now
  end.

Definition update_external_probes (external_probes : gmap string ExternalProbeStatus)
    (primary : option ExternalProbeStatus) (s : ProbeStatus) : ProbeStatus :=
  {| pt_observed_at_unix_ms := s.(pt_observed_at_unix_ms); pt_udp_dns_ok := s.(pt_udp_dns_ok);
     pt_tcp_dns_ok := s.(pt_tcp_dns_ok); pt_https_egress_ok := s.(pt_https_egress_ok);
     pt_vpn_identity_ok := s.(pt_vpn_identity_ok); pt_expected_identity := s.(pt_expected_identity);
     pt_duration_ms := s.(pt_duration_ms); pt_reason_code := s.(pt_reason_code);
     pt_safe_message := s.(pt_safe_message); pt_observed_public_ip := s.(pt_observed_public_ip);
     pt_external_probe := primary; pt_external_probes := external_probes |}.

(** ** A turn of the external verification *)

(** What the environment answers in a turn: the clock at the start and at the end
    of the request of each usage, and the endpoint. *)
Record TurnAnswers : Type := {
  ta_now : N;
  ta_started : string -> N;
  ta_ended : string -> N;
  ta_endpoint : list SocketAddr -> ExternalProbeRequest -> EndpointAnswer;
}.

Section turn.
Context `{!UrlCrate, !UrlKnownPort} (config : ExternalProbeConfig).

(** [addresses] are those that the client may connect to. *)
Definition probe_external_claim (addresses : list SocketAddr) (answers : TurnAnswers) (usage_id : string)
    (claim : PortForwardClaim) (probe_public_ip : option Ipv4Addr) : ExternalProbeStatus :=
  let started := answers.(ta_started) usage_id in
  let answer := answers.(ta_endpoint) addresses (claim_request config.(xc_instance_id) usage_id claim started) in
  reclassify_unenrolled_probe (endpoint_status answer claim started (answers.(ta_ended) usage_id))
    claim.(pc_public_ip) probe_public_ip.

Definition invalid_endpoint (now : N) : ExternalProbeStatus :=
  unavailable_external_probe "external_probe.invalid_endpoint"
    "The external probe endpoint did not resolve to a public non-Tailscale address" now.

Definition same_mapping (claim : PortForwardClaim) (observation : ExternalProbeStatus) : bool :=
  bool_decide (observation.(xs_forwarded_port) = claim.(pc_forwarded_port))
  && bool_decide (observation.(xs_lease_acquired_at_unix_ms) = claim.(pc_lease_acquired_at_unix_ms)).

(** A turn of [run_external_checks]: the client for the public endpoint, and the
    gateway's state, each of which may not be had. *)
Definition external_turn (client : Result (list SocketAddr) string) (gateway : Result GatewayStatus string)
    (answers : TurnAnswers) (s : ProbeStatus) : ProbeStatus :=
  match client with
  | Err _ => update_external_probes ∅ (Some (invalid_endpoint answers.(ta_now))) s
  | Ok addresses =>
      let claims :=
        match gateway with Ok status => extract_port_forward_claims status | Err _ => claims_default end in
      let observations :=
        map_imap (fun usage_id claim =>
          Some (probe_external_claim addresses answers usage_id claim s.(pt_observed_public_ip)))
          claims.(gc_leases) in
      update_external_probes observations
        (find (same_mapping claims.(gc_primary)) (btree_values String.leb observations)) s
  end.
End turn.
