(* ===== verification/EgressyProbeProps.v ===== *)
(** The enrolled-path probe: its summary, its configuration, where it connects,
    and the path from the endpoint's answer to the gateway's verdict. *)

From S2P Require Import Prelude RustStr Net BTree Order State Domain Config LeaseKeeperProps AdminAuth Probe ProbeProps EgressyProbe.

Section probe.
Context `{!UrlCrate, !UrlKnownPort, !JsonCrate, !EnvVars, !TextFiles}.

(** ** The summary *)

(** The steps of the three tasks of the probe. *)
Inductive ProbeStep : Type :=
| DnsChecked (expected_identity : string) (udp tcp : Result (list N) string) (now elapsed_ms : N)
| IdentityChecked (expected_identity : string) (matcher : IdentityMatcher) (answer : IdentityAnswer) (now elapsed_ms : N)
| IdentitySkipped
| ExternallyChecked (config : ExternalProbeConfig) (client : Result (list SocketAddr) string)
    (gateway : Result GatewayStatus string) (answers : TurnAnswers).

Definition probe_step (s : ProbeStatus) (x : ProbeStep) : ProbeStatus :=
  match x with
  | DnsChecked expected udp tcp now elapsed => observe_dns expected udp tcp now elapsed s
  | IdentityChecked expected matcher answer now elapsed => observe_identity expected matcher answer now elapsed s
  | IdentitySkipped => skip_identity s
  | ExternallyChecked config client gateway answers => external_turn config client gateway answers s
  end.

(** What the last DNS check that a run made found, and what its last identity
    check found, or that there is none. *)
Fixpoint last_dns (steps : list ProbeStep) : bool * bool :=
  match steps with
  | [] => (false, false)
  | DnsChecked _ udp tcp _ _ :: _ => (res_is_ok (udp_dns dns_query udp), res_is_ok (tcp_dns dns_query tcp))
  | _ :: steps => last_dns steps
  end.
Fixpoint last_identity (steps : list ProbeStep) : bool * bool :=
  match steps with
  | [] => (false, false)
  | IdentityChecked _ matcher answer _ _ :: _ => (check_identity answer matcher).1
  | IdentitySkipped :: _ => (true, true)
  | _ :: steps => last_identity steps
  end.

Definition summary_sound (s : ProbeStatus) : Prop :=
  s.(pt_reason_code) = "probe.path_healthy" -> all_ok s = true.

Lemma update_path_summary_sound s : summary_sound (update_path_summary s).
Proof.
  unfold summary_sound. change (all_ok (update_path_summary s)) with (all_ok s).
  cbn [update_path_summary pt_reason_code]. by destruct (all_ok s).
Qed.

Lemma external_turn_path config client gateway answers s :
  let s1 := external_turn config client gateway answers s in
  s1.(pt_udp_dns_ok) = s.(pt_udp_dns_ok) /\ s1.(pt_tcp_dns_ok) = s.(pt_tcp_dns_ok)
  /\ s1.(pt_https_egress_ok) = s.(pt_https_egress_ok) /\ s1.(pt_vpn_identity_ok) = s.(pt_vpn_identity_ok)
  /\ s1.(pt_reason_code) = s.(pt_reason_code) /\ s1.(pt_observed_public_ip) = s.(pt_observed_public_ip).
Proof. unfold external_turn. by destruct client. Qed.

(** the probe reports a healthy path only on its own evidence.  Whatever its
    three tasks do, in any order, a published healthy path means that the last
    DNS check was answered over UDP and over TCP and that the last identity
    check, when there is one, reached the endpoint and matched. *)
Theorem path_healthy_sound steps :
  let s := foldl probe_step status_default steps in
  s.(pt_reason_code) = "probe.path_healthy" ->
  last_dns (rev steps) = (true, true) /\ last_identity (rev steps) = (true, true).
Proof.
  intros s Hs.
  assert (Hinv : summary_sound s
    /\ (s.(pt_udp_dns_ok), s.(pt_tcp_dns_ok)) = last_dns (rev steps)
    /\ (s.(pt_https_egress_ok), s.(pt_vpn_identity_ok)) = last_identity (rev steps)).
  { subst s. clear Hs. induction steps as [|x steps IH] using rev_ind; [done|].
    rewrite foldl_app, rev_app_distr. cbn [foldl rev app].
    destruct IH as (Hsum & Hdns & Hid). destruct x as [expected udp tcp now elapsed|expected matcher answer now elapsed| |config client gateway answers];
      cbn [probe_step last_dns last_identity].
    - split_and!; [apply update_path_summary_sound|done|done].
    - unfold observe_identity. destruct (check_identity answer matcher) as [[https identity] ip].
      split_and!; [apply update_path_summary_sound|done|done].
    - split_and!; [|done|done]. unfold summary_sound, all_ok, skip_identity in *. cbn. intros Hr.
      specialize (Hsum Hr). simplify_bools. by rewrite !andb_true_r, andb_true_iff.
    - destruct (external_turn_path config client gateway answers (foldl probe_step status_default steps))
        as (Hu & Ht & Hh & Hv & Hr & _).
      unfold summary_sound, all_ok in *. by rewrite Hu, Ht, Hh, Hv, Hr. }
  destruct Hinv as (Hsum & <- & <-). specialize (Hsum Hs). unfold all_ok in Hsum. simplify_bools. decompose_all.
  split; congruence.
Qed.

(** ** Where the probe connects *)

(** The IPv4 ranges that the probe must not connect to, as first and last
    address: private, loopback, link-local, multicast, carrier-grade NAT (which
    Tailscale uses), and the unspecified address. *)
Definition disallowed_ranges : list (N * N) :=
  [(0x0A000000, 0x0AFFFFFF); (0xAC100000, 0xAC1FFFFF); (0xC0A80000, 0xC0A8FFFF); (0x7F000000, 0x7FFFFFFF);
   (0xA9FE0000, 0xA9FEFFFF); (0xE0000000, 0xEFFFFFFF); (0x64400000, 0x647FFFFF); (0, 0)]%N.

Lemma ipv4_octets ip :
  (ip < 2 ^ 32)%N ->
  exists a b c, ip = (a * 16777216 + b * 65536 + c)%N /\ (a < 256)%N /\ (b < 256)%N /\ (c < 65536)%N
    /\ ipv4_octet 0 ip = a /\ ipv4_octet 1 ip = b.
Proof.
  intros Hip. change (2 ^ 32)%N with 4294967296%N in Hip.
  exists (ip / 16777216)%N, ((ip / 65536) mod 256)%N, (ip mod 65536)%N. unfold ipv4_octet.
  change (2 ^ (8 * (3 - 0)))%N with 16777216%N. change (2 ^ (8 * (3 - 1)))%N with 65536%N.
  pose proof (N.div_mod' ip 65536) as Hd. pose proof (N.div_mod' (ip / 65536) 256) as Hd2.
  rewrite N.Div0.div_div in Hd2. change (65536 * 256)%N with 16777216%N in Hd2.
  split_and!; [lia| |by apply N.mod_lt|by apply N.mod_lt| |done].
  - apply N.Div0.div_lt_upper_bound. lia.
  - apply N.mod_small, N.Div0.div_lt_upper_bound. lia.
Qed.

Lemma disallowed_ipv4_spec ip :
  (ip < 2 ^ 32)%N ->
  is_disallowed_probe_ip (IpAddr_V4 ip) = true <-> Exists (fun r => (r.1 <= ip <= r.2)%N) disallowed_ranges.
Proof.
  intros Hip. destruct (ipv4_octets ip Hip) as (a & b & c & -> & Ha & Hb & Hc & Ho0 & Ho1).
  unfold is_disallowed_probe_ip, is_private, is_ipv4_loopback, is_link_local, is_ipv4_multicast. rewrite Ho0, Ho1.
  rewrite !orb_true_iff, !andb_true_iff, !N.eqb_eq, !N.leb_le. unfold disallowed_ranges.
  rewrite !Exists_cons, Exists_nil. cbn [fst snd]. clear Ho0 Ho1 Hip. split.
  - intros Hd. repeat destruct Hd as [Hd|Hd]; lia.
  - intros Hd. repeat destruct Hd as [Hd|Hd]; lia.
Qed.

(** the probe connects to public IPv4 addresses only.  What the hosts at private,
    loopback, link-local, multicast, shared or unspecified IPv4 addresses would
    answer has no influence on any turn: when the resolver names one of them among
    the addresses of the endpoint, no request is made at all. *)
Theorem external_probe_contacts_public config url lookup built gateway answers answers1 s :
  (forall host port addresses, lookup host port = Ok addresses ->
     forall a ip, a ∈ addresses -> socket_ip a = IpAddr_V4 ip -> (ip < 2 ^ 32)%N) ->
  answers1.(ta_now) = answers.(ta_now) -> answers1.(ta_started) = answers.(ta_started) ->
  answers1.(ta_ended) = answers.(ta_ended) ->
  (forall addresses request,
     addresses <> [] ->
     (forall a ip, a ∈ addresses -> socket_ip a = IpAddr_V4 ip ->
        ~ Exists (fun r => (r.1 <= ip <= r.2)%N) disallowed_ranges) ->
     answers1.(ta_endpoint) addresses request = answers.(ta_endpoint) addresses request) ->
  external_turn config (build_pinned_external_client url lookup built) gateway answers1 s
  = external_turn config (build_pinned_external_client url lookup built) gateway answers s.
Proof.
  intros Hv4 Hnow Hstarted Hended Hendpoint. unfold external_turn.
  destruct (build_pinned_external_client url lookup built) as [addresses|e] eqn:Hb; [|by rewrite Hnow].
  unfold build_pinned_external_client, resolve_public_addresses in Hb. res_steps. subst.
  assert (Hsame : forall request, answers1.(ta_endpoint) addresses request = answers.(ta_endpoint) addresses request).
  { intros request. match goal with H : lookup _ _ = Ok _ |- _ => specialize (Hv4 _ _ _ H) end.
    match goal with H : validate_resolved_addresses _ = _ |- _ => rename H into Hvalid end.
    apply Hendpoint; [by intros ->|]. intros a ip Ha Hip.
    rewrite <- disallowed_ipv4_spec by (by apply (Hv4 a)). rewrite <- Hip.
    destruct addresses as [|a0 addresses]; [by apply not_elem_of_nil in Ha|].
    unfold validate_resolved_addresses in Hvalid. apply ensure_Ok in Hvalid.
    rewrite forallb_elem in Hvalid. specialize (Hvalid a Ha). by destruct (is_disallowed_probe_ip _). }
  cbv zeta.
  rewrite (map_imap_ext _ (fun usage_id claim =>
    Some (probe_external_claim config addresses answers usage_id claim (pt_observed_public_ip s))) _
    (gc_leases match gateway with Ok status => extract_port_forward_claims status | Err _ => claims_default end)); [done|].
  intros usage_id. destruct (_ !! usage_id); [|done]. cbn. unfold probe_external_claim.
  by rewrite Hstarted, Hended, Hsame.
Qed.

(** ** From the endpoint to the gateway's verdict *)

(** The gateway's state as the probe reads it, and the probe's observation as the
    gateway reads it: the JSON of both keeps these fields. *)
Definition port_forward_of (f : PortForwardState) : GatewayPortForward :=
  {| gp_active := f.(pf_active); gp_public_ip := f.(pf_public_ip); gp_port := f.(pf_port);
     gp_lease_acquired_at_unix_ms := f.(pf_lease_acquired_at_unix_ms) |}.
Definition gateway_status_of (app : State.AppState) : GatewayStatus :=
  {| gs_port_forward := port_forward_of app.(as_port_forward);
     gs_port_forwards := port_forward_of <$> app.(as_port_forwards) |}.
Definition report_of (x : ExternalProbeStatus) : ReportedExternalProbe :=
  {| rp_status := x.(xs_status); rp_observed_at_unix_ms := x.(xs_observed_at_unix_ms);
     rp_source_public_non_tailscale := x.(xs_source_public_non_tailscale);
     rp_source_matches_claimed_ip := x.(xs_source_matches_claimed_ip);
     rp_tcp_port_reachable := x.(xs_tcp_port_reachable); rp_forwarded_port := x.(xs_forwarded_port);
     rp_lease_acquired_at_unix_ms := x.(xs_lease_acquired_at_unix_ms);
     rp_request_started_at_unix_ms := x.(xs_request_started_at_unix_ms);
     rp_reason_code := x.(xs_reason_code); rp_safe_message := x.(xs_safe_message) |}.

Lemma reclassify_same observed claimed probe b :
  (reclassify_unenrolled_probe observed claimed probe).(xs_tcp_port_reachable) = Some b ->
  observed.(xs_tcp_port_reachable) = Some b
  /\ (reclassify_unenrolled_probe observed claimed probe).(xs_forwarded_port) = observed.(xs_forwarded_port)
  /\ (reclassify_unenrolled_probe observed claimed probe).(xs_lease_acquired_at_unix_ms)
     = observed.(xs_lease_acquired_at_unix_ms)
  /\ (reclassify_unenrolled_probe observed claimed probe).(xs_request_started_at_unix_ms)
     = observed.(xs_request_started_at_unix_ms)
  /\ (reclassify_unenrolled_probe observed claimed probe).(xs_source_public_non_tailscale)
     = observed.(xs_source_public_non_tailscale)
  /\ ((reclassify_unenrolled_probe observed claimed probe).(xs_reason_code) = observed.(xs_reason_code)
      \/ (reclassify_unenrolled_probe observed claimed probe).(xs_reason_code) = "external_probe.probe_not_enrolled").
Proof.
  unfold reclassify_unenrolled_probe. destruct (negb _); [by auto 10|].
  destruct claimed as [claimed|], probe as [probe|]; try by auto 10. destruct (probe =? claimed)%N; by auto 10.
Qed.

(** Only a reply of the endpoint says whether the port was reachable. *)
Lemma endpoint_status_reply answer claim started now b :
  (endpoint_status answer claim started now).(xs_tcp_port_reachable) = Some b ->
  exists status response, answer = EndpointReply status (Some response)
    /\ redirect_is_rejected status = false /\ is_error_status status = false
    /\ endpoint_status answer claim started now = map_external_response response claim started.
Proof.
  destruct answer as [status body| |]; cbn [endpoint_status]; [|done|done].
  destruct (redirect_is_rejected status) eqn:Hr; [done|]. destruct (is_error_status status) eqn:He; [done|].
  destruct body as [response|]; [|done]. eauto 10.
Qed.

(** C17: a verdict of the gateway about a forwarded port comes from the endpoint.
    When the gateway takes a port for verified, or for failed, from what a turn
    of the probe reported, then at that turn the gateway's own state had an
    active forward of that usage with this very port and lease, the probe asked
    the endpoint about this port after the lease was acquired, and the endpoint
    answered without a redirect or an error that it was, or was not, reachable
    from a public source. *)
Theorem verdict_end_to_end config addresses app answers s usage_id observation lease now freshness_ms b :
  (external_turn config (Ok addresses) (Ok (gateway_status_of app)) answers s).(pt_external_probes) !! usage_id
    = Some observation ->
  verdict_of (correlate_port_verification lease (report_of observation) now freshness_ms) = Some b ->
  let started := answers.(ta_started) usage_id in
  exists forward port acquired status response,
    app.(as_port_forwards) !! usage_id = Some forward
    /\ forward.(pf_active) = true /\ forward.(pf_port) = Some port
    /\ forward.(pf_lease_acquired_at_unix_ms) = Some acquired
    /\ lease.(ps_external_port) = Some port /\ lease.(ps_lease_acquired_at_unix_ms) = Some acquired
    /\ (acquired <= started)%N
    /\ answers.(ta_endpoint) addresses
         (claim_request config.(xc_instance_id) usage_id (extract_port_forward_claim (port_forward_of forward)) started)
       = EndpointReply status (Some response)
    /\ redirect_is_rejected status = false /\ is_error_status status = false
    /\ response.(xr_source_public_non_tailscale) = true /\ response.(xr_tcp_port_reachable) = Some b
    /\ response.(xr_reason_code) = (if b then "external_probe.healthy" else "external_probe.port_unreachable").
Proof.
  cbn [external_turn pt_external_probes update_external_probes]. rewrite map_lookup_imap.
  unfold extract_port_forward_claims. cbn [gc_leases gateway_status_of gs_port_forwards].
  rewrite lookup_omap, lookup_fmap. destruct (as_port_forwards app !! usage_id) as [forward|] eqn:Hf; [|done].
  cbn [fmap option_fmap option_map mbind option_bind].
  destruct (pc_forwarded_port (extract_port_forward_claim (port_forward_of forward))) as [port|] eqn:Hp; [|done].
  cbn [fmap option_fmap option_map mbind option_bind]. intros [= <-]. rewrite correlate_spec.
  intros [_ Hport (acquired & started & Ha & Ha' & Hs & Hle & _) _ Hpub _ Htcp Hverdict].
  unfold probe_external_claim in *. cbn [report_of rp_tcp_port_reachable rp_forwarded_port rp_reason_code
    rp_lease_acquired_at_unix_ms rp_request_started_at_unix_ms rp_source_public_non_tailscale rp_status] in *.
  destruct (reclassify_same _ _ _ _ Htcp) as (Htcp1 & Hfp & Hla & Hst & Hsrc & Hreason).
  rewrite Hfp in Hport. rewrite Hla in Ha'. rewrite Hst in Hs. rewrite Hsrc in Hpub.
  destruct (endpoint_status_reply _ _ _ _ _ Htcp1) as (status & response & Hanswer & Hr & He & Hmap).
  rewrite Hmap in *. cbn in Hport, Ha', Hs, Hpub, Htcp1, Hreason. injection Hs as <-. injection Hpub as Hpub.
  assert (Hclaim : forward.(pf_active) = true /\ forward.(pf_port) = Some port
    /\ forward.(pf_lease_acquired_at_unix_ms) = Some acquired).
  { unfold extract_port_forward_claim, port_forward_of in Hp, Ha'. cbn in Hp, Ha'.
    destruct (pf_active forward); [|done]. cbn in Hp, Ha'.
    destruct (pf_port forward), (pf_lease_acquired_at_unix_ms forward); cbn in Hp, Ha'; try done. }
  exists forward, port, acquired, status, response. destruct Hclaim as (Hc1 & Hc2 & Hc3).
  split_and!; try done; [congruence|].
  apply (f_equal snd) in Hverdict. cbn [snd] in Hverdict.
  destruct Hreason as [Hreason|Hreason]; rewrite Hreason in Hverdict; by destruct b.
Qed.

(** ** Configuration *)

(** an accepted configuration of the external verification is usable: the
    endpoint is an https URL whose host text is neither an address nor a
    Tailscale name, the timeout ends before the next turn starts, and there is a
    token, without surrounding blanks. *)
Theorem external_config_sound config :
  load_external_probe_config = Ok (Some config) ->
  (exists host, url_scheme config.(xc_url) = "https" /\ url_host_str config.(xc_url) = Some host
     /\ parse_ip host = None /\ ends_with host ".ts.net" = false)
  /\ (0 < config.(xc_timeout_seconds) < config.(xc_interval_seconds))%N
  /\ exists token, config.(xc_token) = Some (trim token) /\ trim token <> "".
Proof.
  unfold load_external_probe_config, load_external_probe_token. destruct (negb _); [done|]. intros Hload. res_steps.
  match goal with H : Some _ = Some config |- _ => injection H as <- end. cbn.
  repeat match goal with H : negb _ = true |- _ => apply negb_true_iff in H end. simplify_bools.
  split_and!.
  - match goal with H : url_host_str _ = Some ?h |- _ => exists h end. unfold is_some_ip in *.
    split_and!; try done. by destruct (parse_ip _).
  - lia.
  - lia.
  - match goal with H : is_empty (trim ?t) = false |- _ =>
      exists t; split; [congruence|intros He; by rewrite He in H] end.
Qed.
End probe.

(** The check of the resolved addresses lets an IPv4 address through when the
    resolver gives it in its IPv6-mapped form. *)
Example mapped_address_allowed :
  option_map is_disallowed_probe_ip (parse_ip "10.0.0.1") = Some true
  /\ option_map is_disallowed_probe_ip (parse_ip "::ffff:10.0.0.1") = Some false.
Proof. vm_compute. split; reflexivity. Qed.

(** The text of an IPv6 host of a URL keeps its brackets, so it is not taken for
    an address. *)
Example bracketed_address_allowed : is_some_ip "[2001:db8::1]" = false /\ is_some_ip "2001:db8::1" = true.
Proof. vm_compute. split; reflexivity. Qed.

(** ** A run *)

#[local] Instance run_urls : UrlCrate :=
  {| Url := string; url_parse s := strip_prefix s "https://"; url_scheme _ := "https"; url_host_str u := Some u |}.
#[local] Instance run_ports : UrlKnownPort := fun _ => Some 443%N.
#[local] Instance run_json : JsonCrate :=
  {| Json := unit; json_parse _ := None; json_get _ _ := None; json_as_str _ := None; json_as_bool _ := None |}.
#[local] Instance run_env : EnvVars := fun name =>
  match name with
  | "EGRESSY_EXTERNAL_PROBE_ENABLED" => VarSet "true"
  | "EGRESSY_EXTERNAL_PROBE_URL" => VarSet "https://probe.example"
  | "EGRESSY_EXTERNAL_PROBE_TOKEN" => VarSet " secret "
  | _ => VarNotPresent
  end.
#[local] Instance run_files : TextFiles := fun _ => Err "no such file".

Definition dns_reply : list N := take 2 dns_query ++ [129; 128; 0; 1; 0; 1; 0; 0; 0; 0]%N.
Definition healthy_steps : list ProbeStep :=
  [DnsChecked "" (Err "timed out") (Ok dns_reply) 1 5; IdentitySkipped; DnsChecked "" (Ok dns_reply) (Ok dns_reply) 2 3].

Lemma path_healthy_sound_witness :
  pt_reason_code (foldl probe_step status_default healthy_steps) = "probe.path_healthy"
  /\ last_dns (rev healthy_steps) = (true, true).
Proof.
  assert (Hs : pt_reason_code (foldl probe_step status_default healthy_steps) = "probe.path_healthy") by reflexivity.
  split; [exact Hs|]. apply (path_healthy_sound healthy_steps Hs).
Defined.

Lemma external_config_sound_witness :
  exists config, load_external_probe_config = Ok (Some config) /\ exists token, config.(xc_token) = Some (trim token).
Proof.
  destruct load_external_probe_config as [[config|]|e] eqn:Hl.
  - exists config. split; [reflexivity|]. destruct (external_config_sound config Hl) as (_ & _ & token & Ht & _). eauto.
  - vm_compute in Hl. discriminate Hl.
  - vm_compute in Hl. discriminate Hl.
Defined.

Definition run_config : ExternalProbeConfig :=
  {| xc_instance_id := "egressy"; xc_url := "probe.example"; xc_interval_seconds := 10; xc_timeout_seconds := 5;
     xc_token := Some "secret"; xc_state_url := "http://172.30.0.2:8080/api/v1/status" |}.
Definition run_reply : ExternalProbeResponse :=
  {| xr_observed_at_unix_ms := 1000; xr_source_public_non_tailscale := true; xr_source_matches_claimed_ip := Some true;
     xr_tcp_port_reachable := Some true; xr_reason_code := "external_probe.healthy"; xr_safe_message := "ok" |}.
Definition run_answers : TurnAnswers :=
  {| ta_now := 990; ta_started _ := 995%N; ta_ended _ := 1001%N; ta_endpoint _ _ := EndpointReply 200 (Some run_reply) |}.

Definition inside : SocketAddr := SocketAddr_V4 167772161 443.
Definition other_answers : TurnAnswers :=
  {| ta_now := 990; ta_started _ := 995%N; ta_ended _ := 1001%N;
     ta_endpoint addresses _ :=
       if bool_decide (inside ∈ addresses) then EndpointTimeout else EndpointReply 200 (Some run_reply) |}.
Definition run_gateway : Result GatewayStatus string :=
  Ok {| gs_port_forward := {| gp_active := false; gp_public_ip := None; gp_port := None; gp_lease_acquired_at_unix_ms := None |};
        gs_port_forwards := {[ "web" := {| gp_active := true; gp_public_ip := Some 134744072%N; gp_port := Some 4000%N;
                                           gp_lease_acquired_at_unix_ms := Some 500%N |} ]} |}.

Lemma external_probe_contacts_public_witness :
  let client := build_pinned_external_client "probe.example" (fun _ _ => Ok [inside]) (Ok tt) in
  external_turn run_config client run_gateway other_answers status_default
  = external_turn run_config client run_gateway run_answers status_default.
Proof.
  apply (external_probe_contacts_public run_config "probe.example" (fun _ _ => Ok [inside]) (Ok tt) run_gateway
           run_answers other_answers status_default); [|reflexivity..|].
  - intros _ _ addresses [= <-] a ip Ha. apply list_elem_of_singleton in Ha as ->. by intros [= <-].
  - intros addresses request _ Hallowed. cbn [other_answers ta_endpoint]. case_bool_decide as Hin; [|reflexivity].
    exfalso. apply (Hallowed inside 167772161%N Hin eq_refl). left. split; discriminate.
Defined.

Definition run_app : AppState :=
  let app := LeaseKeeperProps.example_app in
  {| as_tunnel := app.(as_tunnel); as_traffic := app.(as_traffic); as_port_forward := app.(as_port_forward);
     as_port_forwards :=
       {[ "web" := {| pf_active := true; pf_public_ip := Some 134744072%N; pf_port := Some 4000%N; pf_target := Some "web";
                      pf_target_port := Some 80%N; pf_expires_in_seconds := Some 60%N;
                      pf_lease_acquired_at_unix_ms := Some 500%N |} ]};
     as_clients := app.(as_clients); as_last_error := None |}.

Lemma verdict_end_to_end_witness :
  exists observation,
    (external_turn run_config (Ok [SocketAddr_V4 134744072 443]) (Ok (gateway_status_of run_app)) run_answers
       status_default).(pt_external_probes) !! "web" = Some observation
    /\ exists forward, run_app.(as_port_forwards) !! "web" = Some forward /\ forward.(pf_active) = true.
Proof.
  destruct (pt_external_probes (external_turn run_config (Ok [SocketAddr_V4 134744072 443])
              (Ok (gateway_status_of run_app)) run_answers status_default) !! "web") as [observation|] eqn:Ho.
  - exists observation. split; [reflexivity|].
    assert (Hv : verdict_of (correlate_port_verification (example_lease 4000) (report_of observation) 1100 30000) = Some true).
    { revert Ho. vm_compute. intros [= <-]. reflexivity. }
    destruct (verdict_end_to_end run_config [SocketAddr_V4 134744072 443] run_app run_answers status_default "web" observation
                (example_lease 4000) 1100 30000 true Ho Hv) as (forward & _ & _ & _ & _ & Hf & Hactive & _).
    eauto.
  - vm_compute in Ho. discriminate Ho.
Defined.
