(* ===== verification/DnsMessage.v ===== *)
(** The DNS messages the gateway reads and writes.

    The wire codec and the domain names belong to the hickory-proto crate: they
    are the parameters [Hickory].  The records below are the public fields of
    its message types that the gateway reads or assigns, the remaining ones
    being carried along in [msg_rest]. *)

From S2P Require Import Prelude RustStr Net.

Inductive MessageType : Type := Query | Response.
Inductive ResponseCode : Type := NoError | ServFail | NXDomain | Refused | OtherCode (code : N).

#[export] Instance MessageType_eq_dec : EqDecision MessageType.
Proof. solve_decision. Defined.
#[export] Instance ResponseCode_eq_dec : EqDecision ResponseCode.
Proof. solve_decision. Defined.

(** Record types and classes by their wire numbers. *)
Notation RecordType := N (only parsing).
Notation DNSClass := N (only parsing).
Definition RecordType_A : RecordType := 1.

Inductive RData (D : Type) : Type :=
| RDataA (address : Ipv4Addr)
| RDataSOA (minimum : N) (soa_rest : D)
| RDataOther (data : D).
Arguments RDataA {D} address.
Arguments RDataSOA {D} minimum soa_rest.
Arguments RDataOther {D} data.

Record Metadata : Type := {
  md_id : N;
  md_message_type : MessageType;
  md_op_code : N;
  md_authoritative : bool;
  md_truncation : bool;
  md_recursion_desired : bool;
  md_recursion_available : bool;
  md_response_code : ResponseCode;
}.

Record Question (Nm : Type) : Type := {
  q_name : Nm;
  query_type : RecordType;
  query_class : DNSClass;
}.
Arguments q_name {Nm} _. Arguments query_type {Nm} _. Arguments query_class {Nm} _.
Arguments Build_Question {Nm} _ _ _.

Record RR (Nm D : Type) : Type := {
  rr_name : Nm;
  rr_ttl : N;
  rr_data : RData D;
}.
Arguments rr_name {Nm D} _. Arguments rr_ttl {Nm D} _. Arguments rr_data {Nm D} _.
Arguments Build_RR {Nm D} _ _ _.

Record MessageOf (Nm D E R : Type) : Type := {
  metadata : Metadata;
  queries : list (Question Nm);
  answers : list (RR Nm D);
  authorities : list (RR Nm D);
  edns : option E;
  msg_rest : R;
}.
Arguments metadata {Nm D E R} _. Arguments queries {Nm D E R} _.
Arguments answers {Nm D E R} _. Arguments authorities {Nm D E R} _.
Arguments edns {Nm D E R} _. Arguments msg_rest {Nm D E R} _.
Arguments Build_MessageOf {Nm D E R} _ _ _ _ _ _.

(** What the crate provides: names and their presentation, the codec, an empty
    response to a transaction. *)
Class Hickory : Type := {
  Name : Type;
  OtherData : Type;
  Edns : Type;
  Rest : Type;
  to_ascii : Name -> string;
  from_vec : list N -> option (MessageOf Name OtherData Edns Rest);
  to_vec : MessageOf Name OtherData Edns Rest -> option (list N);
  message_response : N -> N -> MessageOf Name OtherData Edns Rest;
}.

Notation Message := (MessageOf Name OtherData Edns Rest).
Notation Record_ := (RR Name OtherData).

(** [Message::response] is an empty response to the given transaction. *)
Class HickoryLaws `{Hickory} : Prop := {
  message_response_id : forall id op, md_id (metadata (message_response id op)) = id;
  message_response_op : forall id op, md_op_code (metadata (message_response id op)) = op;
  message_response_type : forall id op,
    md_message_type (metadata (message_response id op)) = Response;
  message_response_truncation : forall id op,
    md_truncation (metadata (message_response id op)) = false;
  message_response_queries : forall id op, queries (message_response id op) = [];
  message_response_answers : forall id op, answers (message_response id op) = [];
  message_response_authorities : forall id op, authorities (message_response id op) = [];
  message_response_edns : forall id op, edns (message_response id op) = None;
}.

#[export] Hint Rewrite @message_response_id @message_response_op @message_response_type
  @message_response_truncation @message_response_queries @message_response_answers
  @message_response_authorities @message_response_edns using (exact _) : egressy_rw.

(** Assignments to the fields of a message. *)
Definition with_metadata {Nm D E R} (m : MessageOf Nm D E R) (md : Metadata)
    : MessageOf Nm D E R :=
  {| metadata := md; queries := queries m; answers := answers m;
     authorities := authorities m; edns := edns m; msg_rest := msg_rest m |}.

Definition with_sections {Nm D E R} (m : MessageOf Nm D E R) (qs : list (Question Nm))
    (ans auth : list (RR Nm D)) (e : option E) : MessageOf Nm D E R :=
  {| metadata := metadata m; queries := qs; answers := ans;
     authorities := auth; edns := e; msg_rest := msg_rest m |}.

(** A concrete crate for the witnesses: the messages of one table, each encoded
    by its position. *)
Definition toy_message (id : N) (ty : MessageType) (code : ResponseCode)
    (qs : list (Question string)) (ans auth : list (RR string unit))
    : MessageOf string unit unit unit :=
  {| metadata := {| md_id := id; md_message_type := ty; md_op_code := 0;
                    md_authoritative := false; md_truncation := false;
                    md_recursion_desired := true; md_recursion_available := false;
                    md_response_code := code |};
     queries := qs; answers := ans; authorities := auth; edns := None; msg_rest := tt |}.

#[export] Instance Metadata_eq_dec : EqDecision Metadata.
Proof. solve_decision. Defined.
#[export] Instance RData_eq_dec `{EqDecision D} : EqDecision (RData D).
Proof. solve_decision. Defined.
#[export] Instance Question_eq_dec `{EqDecision Nm} : EqDecision (Question Nm).
Proof. solve_decision. Defined.
#[export] Instance RR_eq_dec `{EqDecision Nm, EqDecision D} : EqDecision (RR Nm D).
Proof. solve_decision. Defined.
#[export] Instance Message_eq_dec `{EqDecision Nm, EqDecision D, EqDecision E, EqDecision R} :
  EqDecision (MessageOf Nm D E R).
Proof. solve_decision. Defined.

(** The encodings a table of messages gives: a message is the two bytes of its
    number in the table, twelve bytes long like a header. *)
Definition toy_encode (table : list (MessageOf string unit unit unit))
    (m : MessageOf string unit unit unit) : option (list N) :=
  i ← fst <$> list_find (m =.) table; Some (N.of_nat i :: replicate 11 0%N).

Definition toy (table : list (MessageOf string unit unit unit)) : Hickory := {|
  Name := string; OtherData := unit; Edns := unit; Rest := unit;
  to_ascii := id;
  from_vec := fun bytes => i ← head bytes; table !! N.to_nat i;
  to_vec := toy_encode table;
  message_response := fun id op =>
    with_metadata (toy_message id Response NoError [] [] [])
      {| md_id := id; md_message_type := Response; md_op_code := op;
         md_authoritative := false; md_truncation := false;
         md_recursion_desired := false; md_recursion_available := false;
         md_response_code := NoError |};
|}.

#[export] Instance toy_laws table : @HickoryLaws (toy table).
Proof. by split. Qed.
