(* ===== verification/DnsCache.v ===== *)
(** The bounded response cache of the forwarder (src/src/dns_cache.rs).

    [Instant]s and [Duration]s are nanoseconds, TTLs seconds.  The order in
    which the hash map is iterated, which decides between equally good victims
    of an eviction, is the parameter [iter]. *)

From S2P Require Import Prelude RustStr Net DnsMessage.

Definition MAX_TTL : N := from_secs 300.
Definition MIN_TTL : N := from_secs 1.

Record Key : Type := {
  k_upstream : SocketAddr;
  k_name : string;
  k_record_type : RecordType;
  k_dns_class : DNSClass;
}.

#[export] Instance Key_eq_dec : EqDecision Key.
Proof. solve_decision. Defined.
#[export] Instance Key_countable : Countable Key.
Proof.
  apply (inj_countable'
    (fun k => (k.(k_upstream), k.(k_name), k.(k_record_type), k.(k_dns_class)))
    (fun '(u, n, t, c) => {| k_upstream := u; k_name := n; k_record_type := t; k_dns_class := c |})).
  by intros [].
Defined.

Section Cache.
Context {hickory : Hickory}.

Record Entry : Type := {
  e_response : Message;
  e_stored_at : N;
  e_ttl : N;
}.

Notation Entries := (gmap Key Entry).

Record DnsCache : Type := {
  entries : Entries;
  capacity : nat;
}.

Definition new (capacity : nat) : DnsCache := {| entries := ∅; capacity := Nat.max capacity 1 |}.

Definition key_for (request : Message) (upstream : SocketAddr) : option Key :=
  match queries request with
  | [question] =>
      Some {| k_upstream := upstream;
              k_name := to_ascii_lowercase (to_ascii (q_name question));
              k_record_type := query_type question;
              k_dns_class := query_class question |}
  | _ => None
  end.

(** [iter().min()] *)
Definition list_min (l : list N) : option N :=
  match l with [] => None | x :: l => Some (foldl N.min x l) end.

Definition soa_ttl (record : Record_) : option N :=
  match rr_data record with
  | RDataSOA minimum _ => Some (N.min (rr_ttl record) minimum)
  | _ => None
  end.

Definition negative_ttl_seconds (response : Message) : option N :=
  list_min (omap soa_ttl (authorities response)).

Definition cacheable_ttl (response : Message) : option N :=
  if negb (bool_decide (md_message_type (metadata response) = Response))
     || md_truncation (metadata response) then None
  else
    seconds ←
      match md_response_code (metadata response) with
      | NoError =>
          match answers response with
          | [] => negative_ttl_seconds response
          | _ :: _ => list_min (rr_ttl <$> answers response)
          end
      | NXDomain => negative_ttl_seconds response
      | _ => None
      end;
    let ttl := N.min (from_secs seconds) MAX_TTL in
    if (MIN_TTL <=? ttl)%N then Some ttl else None.

Definition with_ttl (ttl : N) (record : Record_) : Record_ :=
  {| rr_name := rr_name record; rr_ttl := ttl; rr_data := rr_data record |}.

(** The message a hit is answered with. *)
Definition served (request response : Message) (remaining : N) : Message :=
  with_sections
    (with_metadata response
      {| md_id := md_id (metadata request);
         md_message_type := md_message_type (metadata response);
         md_op_code := md_op_code (metadata response);
         md_authoritative := md_authoritative (metadata response);
         md_truncation := md_truncation (metadata response);
         md_recursion_desired := md_recursion_desired (metadata request);
         md_recursion_available := md_recursion_available (metadata response);
         md_response_code := md_response_code (metadata response) |})
    (queries request)
    (with_ttl remaining <$> answers response)
    (with_ttl remaining <$> authorities response)
    (edns response).

Definition with_entries (c : DnsCache) (m : Entries) : DnsCache :=
  {| entries := m; capacity := c.(capacity) |}.

Definition lookup (c : DnsCache) (query : list N) (upstream : SocketAddr) (now : N)
    : DnsCache * option (list N) :=
  match (request ← from_vec query; key ← key_for request upstream;
         entry ← c.(entries) !! key; Some (request, key, entry)) with
  | None => (c, None)
  | Some (request, key, entry) =>
      let elapsed := saturating_duration_since now entry.(e_stored_at) in
      if (entry.(e_ttl) <=? elapsed)%N
      then (with_entries c (delete key c.(entries)), None)
      else
        let remaining := (as_secs (entry.(e_ttl) - elapsed) mod 2 ^ 32)%N in
        (c, to_vec (served request entry.(e_response) remaining))
  end.

Variable iter : Entries -> list (Key * Entry).

Definition expired (now : N) (e : Entry) : bool :=
  (e.(e_ttl) <=? saturating_duration_since now e.(e_stored_at))%N.

(** [min_by_key]: the first of the smallest. *)
Fixpoint oldest (l : list (Key * Entry)) : option (Key * Entry) :=
  match l with
  | [] => None
  | x :: l =>
      match oldest l with
      | None => Some x
      | Some y => Some (if (x.2.(e_stored_at) <=? y.2.(e_stored_at))%N then x else y)
      end
  end.

Definition victim (m : Entries) (now : N) : option Key :=
  match List.find (fun ke => expired now ke.2) (iter m) with
  | Some ke => Some ke.1
  | None => fst <$> oldest (iter m)
  end.

Definition evict_one (m : Entries) (now : N) : Entries :=
  match victim m now with Some key => delete key m | None => m end.

Definition contains_key (m : Entries) (key : Key) : bool := bool_decide (is_Some (m !! key)).

(** The entry a response would be kept as, or [None] where [store] returns. *)
Definition cacheable (query response : list N) (upstream : SocketAddr) (now : N)
    : option (Key * Entry) :=
  request ← from_vec query;
  parsed ← from_vec response;
  key ← key_for request upstream;
  ttl ← cacheable_ttl parsed;
  Some (key, {| e_response := parsed; e_stored_at := now; e_ttl := ttl |}).

Definition store (c : DnsCache) (query response : list N) (upstream : SocketAddr) (now : N)
    : DnsCache :=
  match cacheable query response upstream now with
  | None => c
  | Some (key, entry) =>
      let m := if (c.(capacity) <=? size c.(entries))%nat && negb (contains_key c.(entries) key)
               then evict_one c.(entries) now else c.(entries) in
      with_entries c (<[key := entry]> m)
  end.

(** The life of a cache: the calls the forwarder makes, in their order. *)
Inductive Op : Type :=
| OpLookup (query : list N) (upstream : SocketAddr) (now : N)
| OpStore (query response : list N) (upstream : SocketAddr) (now : N).

Definition step (c : DnsCache) (op : Op) : DnsCache :=
  match op with
  | OpLookup query upstream now => (lookup c query upstream now).1
  | OpStore query response upstream now => store c query response upstream now
  end.

Definition run (c : DnsCache) (ops : list Op) : DnsCache := foldl step c ops.

(** ** The specification: what was last told about each question, forever. *)

Definition spec_step (m : Entries) (op : Op) : Entries :=
  match op with
  | OpLookup _ _ _ => m
  | OpStore query response upstream now =>
      match cacheable query response upstream now with
      | Some (key, entry) => <[key := entry]> m
      | None => m
      end
  end.

Definition spec (ops : list Op) : Entries := foldl spec_step ∅ ops.

(** ** Lemmas *)

Lemma foldl_min_le l x y : (y ∈ x :: l)%N -> (foldl N.min x l <= y)%N.
Proof.
  revert x y; induction l as [|z l IH]; intros x y; simpl.
  - intros ->%list_elem_of_singleton. lia.
  - pose proof (IH (N.min x z) (N.min x z) ltac:(left)).
    rewrite !elem_of_cons. intros [->|[->|Hy]]; [lia|lia|].
    apply IH. by right.
Qed.

Lemma foldl_min_elem l x : foldl N.min x l ∈ x :: l.
Proof.
  revert x; induction l as [|y l IH]; intros x; simpl; [by left|].
  specialize (IH (N.min x y)). rewrite !elem_of_cons in IH |- *.
  destruct (N.min_spec x y) as [[_ Hm]|[_ Hm]]; rewrite Hm in IH |- *;
    destruct IH as [IH|IH]; rewrite ?elem_of_cons; auto.
Qed.

Lemma list_min_elem l n : list_min l = Some n -> n ∈ l.
Proof. destruct l as [|x l]; [done|]. intros [= <-]. apply foldl_min_elem. Qed.

Lemma list_min_le l n y : list_min l = Some n -> y ∈ l -> (n <= y)%N.
Proof. destruct l as [|x l]; [done|]. intros [= <-] Hy. by apply foldl_min_le. Qed.

Lemma evict_one_subseteq m now : evict_one m now ⊆ m.
Proof. unfold evict_one. destruct (victim m now); [apply delete_subseteq|done]. Qed.

Lemma lookup_entries_subseteq c q u now : (lookup c q u now).1.(entries) ⊆ c.(entries).
Proof. unfold lookup. repeat case_match; simpl; try done. apply delete_subseteq. Qed.

Lemma lookup_capacity c q u now : (lookup c q u now).1.(capacity) = c.(capacity).
Proof. unfold lookup. by repeat case_match. Qed.

Lemma store_capacity c q r u now : (store c q r u now).(capacity) = c.(capacity).
Proof. unfold store. by repeat case_match. Qed.

Lemma step_capacity c op : (step c op).(capacity) = c.(capacity).
Proof. destruct op; [apply lookup_capacity | apply store_capacity]. Qed.

Lemma run_capacity ops c : (run c ops).(capacity) = c.(capacity).
Proof.
  revert c; induction ops as [|op ops IH]; intros c; [done|].
  change (run c (op :: ops)) with (run (step c op) ops). by rewrite IH, step_capacity.
Qed.

(** The step of the cache refines that of the specification. *)
Lemma step_refines c m op :
  c.(entries) ⊆ m -> (step c op).(entries) ⊆ spec_step m op.
Proof.
  intros Hm. destruct op as [q u now|q r u now]; simpl.
  - etrans; [apply lookup_entries_subseteq | done].
  - unfold store. destruct (cacheable _ _ _ _) as [[key entry]|]; simpl; [|done].
    apply insert_mono. case_match; [etrans; [apply evict_one_subseteq|done] | done].
Qed.

Lemma run_refines_from ops c m :
  c.(entries) ⊆ m -> (run c ops).(entries) ⊆ foldl spec_step m ops.
Proof.
  revert c m; induction ops as [|op ops IH]; intros c m Hm; [done|].
  simpl. by apply IH, step_refines.
Qed.

Lemma run_refines n ops : (run (new n) ops).(entries) ⊆ spec ops.
Proof. apply run_refines_from. apply map_empty_subseteq. Qed.

(** Whatever the specification knows was told by a store, with nothing newer. *)
Lemma spec_step_lookup m op key entry :
  spec_step m op !! key = Some entry ->
  m !! key = Some entry
  \/ exists q r u now, op = OpStore q r u now /\ cacheable q r u now = Some (key, entry).
Proof.
  destruct op as [q u now|q r u now]; simpl; [by left|].
  destruct (cacheable q r u now) as [[key' entry']|] eqn:Hc; [|by left].
  intros [[-> ->]|[_ ?]]%lookup_insert_Some; [right; eauto 10 | by left].
Qed.

Lemma spec_from_store ops key entry :
  spec ops !! key = Some entry ->
  exists q r u now, OpStore q r u now ∈ ops /\ cacheable q r u now = Some (key, entry).
Proof.
  unfold spec. induction ops as [|op ops IH] using rev_ind; [done|].
  rewrite foldl_app. simpl. intros [Hk|(q & r & u & now & -> & Hc)]%spec_step_lookup.
  - destruct (IH Hk) as (q & r & u & now & Hin & Hc).
    exists q, r, u, now. split; [|done]. apply elem_of_app. by left.
  - exists q, r, u, now. split; [|done]. apply elem_of_app. right. by left.
Qed.

(** What a cacheable response is kept for. *)
Lemma cacheable_ttl_bounds r ttl :
  cacheable_ttl r = Some ttl -> (MIN_TTL <= ttl <= MAX_TTL)%N.
Proof.
  unfold cacheable_ttl. case_match; [done|]. intros (s & _ & Hs)%bind_Some.
  case_match; simplify_eq. simplify_bools. lia.
Qed.

Lemma cacheable_ttl_answers r ttl a :
  cacheable_ttl r = Some ttl -> md_response_code (metadata r) = NoError -> a ∈ answers r ->
  (ttl <= from_secs (rr_ttl a))%N.
Proof.
  unfold cacheable_ttl. case_match; [done|]. intros (s & Hsec & Hs)%bind_Some Hcode Ha.
  rewrite Hcode in Hsec. case_match; simplify_eq.
  destruct (answers r) as [|a' l] eqn:Hans; [by apply not_elem_of_nil in Ha|].
  assert (s <= rr_ttl a)%N; [|unfold from_secs, NANOS_PER_SEC; lia].
  eapply list_min_le; [done|]. by apply list_elem_of_fmap_2.
Qed.

Lemma cacheable_ttl_negative r ttl :
  cacheable_ttl r = Some ttl ->
  md_response_code (metadata r) = NXDomain \/ answers r = [] ->
  exists soa minimum rest, soa ∈ authorities r /\ rr_data soa = RDataSOA minimum rest
    /\ (ttl <= from_secs (rr_ttl soa))%N /\ (ttl <= from_secs minimum)%N.
Proof.
  unfold cacheable_ttl. case_match; [done|]. intros (s & Hsec & Hs)%bind_Some Hneg.
  case_match; simplify_eq.
  assert (negative_ttl_seconds r = Some s) as Hn by (destruct Hneg; repeat case_match; congruence).
  unfold negative_ttl_seconds in Hn.
  assert (s ∈ omap soa_ttl (authorities r)) as (soa & Hin & Hsoa)%list_elem_of_omap.
  { by apply list_min_elem. }
  unfold soa_ttl in Hsoa. destruct (rr_data soa) as [|minimum rest|] eqn:Hd; simplify_eq.
  exists soa, minimum, rest. repeat split; [done|done| |]; unfold from_secs, NANOS_PER_SEC; lia.
Qed.

Lemma cacheable_ttl_response r ttl :
  cacheable_ttl r = Some ttl ->
  md_message_type (metadata r) = Response /\ md_truncation (metadata r) = false
  /\ (md_response_code (metadata r) = NoError \/ md_response_code (metadata r) = NXDomain).
Proof.
  unfold cacheable_ttl. case_match; [done|]. simplify_bools.
  intros (s & Hsec & _)%bind_Some. repeat split; [done|done|].
  destruct (md_response_code _); first [discriminate | auto].
Qed.

(** What a hit hands out, and why it may. *)
Lemma lookup_Some c q u now bytes :
  (lookup c q u now).2 = Some bytes <->
  exists request key entry, from_vec q = Some request /\ key_for request u = Some key
    /\ c.(entries) !! key = Some entry /\ expired now entry = false
    /\ to_vec (served request entry.(e_response)
         (as_secs (entry.(e_ttl) - saturating_duration_since now entry.(e_stored_at)) mod 2 ^ 32)%N)
       = Some bytes.
Proof.
  unfold lookup, expired. split.
  - case_match eqn:Ho; [|done]. destruct p as [[request key] entry].
    apply bind_Some in Ho as (? & Hq & (? & Hk & (? & He & [= -> -> ->])%bind_Some)%bind_Some).
    case_match; [done|]. simpl. eauto 10.
  - intros (request & key & entry & Hq & Hk & He & Hx & Hb).
    rewrite Hq; cbn [mbind option_bind]. rewrite Hk; cbn [mbind option_bind].
    rewrite He; cbn [mbind option_bind]. by rewrite Hx.
Qed.

(** The time left is what the TTL minus the time kept leaves, in whole seconds. *)
Lemma remaining_bound ttl elapsed :
  (ttl <= MAX_TTL)%N -> (elapsed < ttl)%N ->
  (from_secs (as_secs (ttl - elapsed) mod 2 ^ 32) + elapsed <= ttl)%N.
Proof.
  intros. rewrite N.mod_small.
  - unfold from_secs, as_secs, NANOS_PER_SEC.
    pose proof (N.Div0.mul_div_le (ttl - elapsed) 1000000000). lia.
  - unfold as_secs, MAX_TTL, from_secs, NANOS_PER_SEC in *.
    apply N.Div0.div_lt_upper_bound. lia.
Qed.

Lemma oldest_spec l ke :
  oldest l = Some ke -> ke ∈ l /\ forall ke', ke' ∈ l -> (ke.2.(e_stored_at) <= ke'.2.(e_stored_at))%N.
Proof.
  revert ke; induction l as [|x l IH]; intros ke; simpl; [done|].
  destruct (oldest l) as [y|] eqn:Hl; intros [= <-].
  - destruct (IH y eq_refl) as [Hin Hle]. case_match; simplify_bools.
    + split; [by left|]. intros ke' [->|Hk]%elem_of_cons; [done|]. specialize (Hle _ Hk). lia.
    + split; [by right|]. intros ke' [->|Hk]%elem_of_cons; [lia|]. auto.
  - destruct l as [|y l]; [|simpl in Hl; by destruct (oldest l)].
    split; [by left|]. by intros ke' ->%list_elem_of_singleton.
Qed.

Lemma oldest_is_Some l : l <> [] -> is_Some (oldest l).
Proof. destruct l as [|x l]; [done|]. simpl. destruct (oldest l); eauto. Qed.

(** A hash map is iterated in some order, each entry once. *)
Hypothesis iter_perm : forall m, iter m ≡ₚ map_to_list m.

Lemma elem_of_iter m key e : (key, e) ∈ iter m <-> m !! key = Some e.
Proof. by rewrite iter_perm, elem_of_map_to_list. Qed.

Lemma victim_spec m now key :
  victim m now = Some key ->
  exists e, m !! key = Some e
    /\ (expired now e = true
        \/ (forall key' e', m !! key' = Some e' ->
              expired now e' = false /\ e.(e_stored_at) <= e'.(e_stored_at))%N).
Proof.
  unfold victim. case_match eqn:Hf.
  - intros [= <-]. apply List.find_some in Hf as [Hin Hx].
    destruct p as [key e]. apply list_elem_of_In, elem_of_iter in Hin. eauto.
  - intros ([key' e] & [Hin Hle]%oldest_spec & ->)%fmap_Some.
    exists e. split; [by apply elem_of_iter|]. right. intros key2 e2 H2%elem_of_iter. split.
    + by apply (List.find_none _ _ Hf (key2, e2)), list_elem_of_In.
    + by apply (Hle (key2, e2)).
Qed.

Lemma victim_is_Some m now : m <> ∅ -> is_Some (victim m now).
Proof.
  intros Hm. unfold victim. case_match; [eauto|].
  apply fmap_is_Some, oldest_is_Some. intros Hnil. apply Hm, map_to_list_empty_iff.
  apply Permutation_nil_r. by rewrite <- Hnil, iter_perm.
Qed.

Lemma size_evict_one m now : m <> ∅ -> size (evict_one m now) = pred (size m).
Proof.
  intros Hm. unfold evict_one. destruct (victim_is_Some m now Hm) as [key Hv].
  rewrite Hv. destruct (victim_spec _ _ _ Hv) as (e & He & _).
  apply map_size_delete_Some. eauto.
Qed.

Definition bounded (c : DnsCache) : Prop := (1 <= c.(capacity))%nat /\ (size c.(entries) <= c.(capacity))%nat.

Lemma store_bounded c q r u now : bounded c -> bounded (store c q r u now).
Proof.
  intros [H1 Hc]. unfold store. destruct (cacheable _ _ _ _) as [[key e]|]; [|done].
  split; [done|]. simpl. case_match eqn:Hfull; simplify_bools.
  - rewrite map_size_insert. rewrite size_evict_one by (intros Heq; rewrite Heq, map_size_empty in *; lia).
    case_match; simpl; lia.
  - rewrite map_size_insert. unfold contains_key in Hfull.
    destruct (entries c !! key) eqn:Hk; [done|].
    destruct (Nat.leb_spec (capacity c) (size (entries c))); [|lia].
    by rewrite bool_decide_eq_false_2 in Hfull by by intros [? [=]].
Qed.

Lemma run_bounded ops c : bounded c -> bounded (run c ops).
Proof.
  revert c; induction ops as [|op ops IH]; intros c Hc; [done|]. apply IH.
  destruct op as [q u now|q r u now]; [|by apply store_bounded].
  destruct Hc as [H1 H2]. split; simpl; rewrite lookup_capacity; [done|].
  etrans; [|done]. apply map_subseteq_size, lookup_entries_subseteq.
Qed.

End Cache.

(** * Properties

    What the response cache promises: a hit is the last answer of that resolver
    to that question, within its TTL; the size is bounded; an eviction spares
    the live entries while there are dead ones. *)


Section Props.
Context {hickory : Hickory}.
Notation Entries := (gmap Key Entry).

Lemma cacheable_inv q r u now key entry :
  cacheable q r u now = Some (key, entry) ->
  from_vec r = Some entry.(e_response) /\ cacheable_ttl entry.(e_response) = Some entry.(e_ttl)
  /\ entry.(e_stored_at) = now
  /\ exists request, from_vec q = Some request /\ key_for request u = Some key.
Proof.
  intros (request & Hq & (parsed & Hr & (key' & Hk & (ttl & Ht & [= -> <-])%bind_Some)
    %bind_Some)%bind_Some)%bind_Some.
  split; [done|]. split; [done|]. split; [done|]. by exists request.
Qed.

(** The same name in any case, the same type and the same class. *)
Definition same_question (a b : Question Name) : Prop :=
  to_ascii_lowercase (to_ascii (q_name a)) = to_ascii_lowercase (to_ascii (q_name b))
  /\ query_type a = query_type b /\ query_class a = query_class b.

Lemma key_for_same request request0 u u0 key :
  key_for request u = Some key -> key_for request0 u0 = Some key ->
  u = u0 /\ exists question question0, queries request = [question] /\ queries request0 = [question0]
    /\ same_question question question0.
Proof.
  unfold key_for. destruct (queries request) as [|question []]; [done| |done].
  destruct (queries request0) as [|question0 []]; [done| |done].
  intros [= <-] [= Hu Hn Ht Hc]. split; [done|]. by exists question, question0.
Qed.

(** C38: whatever calls came before and whatever the hash map evicted, a hit is
    the answer the same resolver gave last to the same question, under the
    caller's transaction.  The TTL it is handed out with and the time it was
    kept fit together in five minutes, in the TTL of every answer record and,
    when the name or its records were denied, in an SOA of the denial. *)
Theorem hit_is_last_answer (iter : Entries -> list (Key * Entry)) n ops q u now bytes :
  (lookup (run iter (new n) ops) q u now).2 = Some bytes ->
  exists request key q0 r0 t0 entry remaining,
    from_vec q = Some request
    /\ (exists request0 question question0, from_vec q0 = Some request0 /\ queries request = [question]
        /\ queries request0 = [question0] /\ same_question question question0)
    /\ OpStore q0 r0 u t0 ∈ ops /\ cacheable q0 r0 u t0 = Some (key, entry)
    /\ spec ops !! key = Some entry
    /\ from_vec r0 = Some entry.(e_response)
    /\ to_vec (served request entry.(e_response) remaining) = Some bytes
    /\ (from_secs remaining + saturating_duration_since now t0 <= MAX_TTL)%N
    /\ (md_response_code (metadata entry.(e_response)) = NoError ->
        forall a, a ∈ answers entry.(e_response) ->
          from_secs remaining + saturating_duration_since now t0 <= from_secs (rr_ttl a))%N
    /\ (md_response_code (metadata entry.(e_response)) = NXDomain
        \/ answers entry.(e_response) = [] ->
        exists soa minimum rest, soa ∈ authorities entry.(e_response)
          /\ rr_data soa = RDataSOA minimum rest
          /\ from_secs remaining + saturating_duration_since now t0
             <= N.min (from_secs (rr_ttl soa)) (from_secs minimum))%N.
Proof.
  intros (request & key & entry & Hq & Hk & He & Hx & Hb)%lookup_Some.
  pose proof (lookup_weaken _ _ _ _ He (run_refines iter n ops)) as Hs.
  destruct (spec_from_store _ _ _ Hs) as (q0 & r0 & u0 & t0 & Hin & Hc).
  destruct (cacheable_inv _ _ _ _ _ _ Hc) as (Hr & Ht & Hst & request0 & Hq0 & Hk0).
  destruct (key_for_same _ _ _ _ _ Hk Hk0) as (<- & question & question0 & Hquestions).
  unfold expired in Hx. apply N.leb_gt in Hx. rewrite Hst in Hx, Hb.
  pose proof (cacheable_ttl_bounds _ _ Ht) as [_ Hmax].
  pose proof (remaining_bound _ _ Hmax Hx) as Hrem.
  do 6 eexists; eexists. split; [eassumption|]. split; [by exists request0, question, question0|].
  do 3 (split; [eassumption|]).
  split; [done|]. split; [exact Hb|]. split; [lia|]. split.
  - intros Hcode a Ha. pose proof (cacheable_ttl_answers _ _ _ Ht Hcode Ha). lia.
  - intros (soa & m & rest & ? & ? & ? & ?)%(cacheable_ttl_negative _ _ Ht).
    exists soa, m, rest. repeat split; [done|done|lia].
Qed.

(** the cache never holds more entries than its capacity, whatever is asked
    and stored, in whatever order the hash map offers its entries to an
    eviction; and a capacity of zero is one. *)
Theorem size_bounded (iter : Entries -> list (Key * Entry)) n ops :
  (forall m, iter m ≡ₚ map_to_list m) ->
  (size (run iter (new n) ops).(entries) <= Nat.max n 1)%nat.
Proof.
  intros Hiter. destruct (run_bounded iter Hiter ops (new n)) as [_ Hsize].
  - split; simpl; [lia|]. rewrite map_size_empty. lia.
  - etrans; [exact Hsize|]. by rewrite run_capacity.
Qed.

(** a store into a full cache takes out one entry: one that has expired, or,
    when every entry is live, one of those kept longest; nothing else changes
    but the stored question, which then holds the new answer. *)
Theorem store_evicts_dead_first (iter : Entries -> list (Key * Entry)) c q r u now key entry :
  (forall m, iter m ≡ₚ map_to_list m) ->
  cacheable q r u now = Some (key, entry) ->
  let c' := store iter c q r u now in
  c'.(entries) !! key = Some entry
  /\ ((forall k, k <> key -> c'.(entries) !! k = c.(entries) !! k)
      \/ exists gone e, (c.(capacity) <= size c.(entries))%nat /\ c.(entries) !! key = None
           /\ c.(entries) !! gone = Some e
           /\ (forall k, k <> key -> k <> gone -> c'.(entries) !! k = c.(entries) !! k)
           /\ (expired now e = true \/
               forall k e', c.(entries) !! k = Some e' ->
                 expired now e' = false /\ (e.(e_stored_at) <= e'.(e_stored_at))%N)).
Proof.
  intros Hiter Hc. unfold store. rewrite Hc. cbn [entries with_entries].
  split; [apply lookup_insert_eq|].
  destruct (_ && negb (contains_key _ _)) eqn:Hfull.
  - simplify_bools. unfold contains_key in *. simplify_bools.
    unfold evict_one. destruct (victim iter (entries c) now) as [gone|] eqn:Hv.
    + right. destruct (victim_spec iter Hiter _ _ _ Hv) as (e & He & Hdead).
      exists gone, e. split_and!; [done|by apply eq_None_not_Some|done| |done].
      intros k Hk Hg. by rewrite lookup_insert_ne, lookup_delete_ne.
    + left. intros k Hk. by rewrite lookup_insert_ne.
  - left. intros k Hk. by rewrite lookup_insert_ne.
Qed.

End Props.

(** ** A run on concrete messages *)

Definition example_question (name : string) : Question string :=
  {| q_name := name; query_type := RecordType_A; query_class := 1%N |}.
Definition example_rr (name : string) (ttl : N) (d : RData unit) : RR string unit :=
  {| rr_name := name; rr_ttl := ttl; rr_data := d |}.

(** Two queries that differ in their transaction and their case, the answer of
    a resolver, and what the second is answered ten seconds later. *)
Definition example_table : list (MessageOf string unit unit unit) :=
  [ toy_message 7 Query NoError [example_question "a.example."] [] [];
    toy_message 7 Response NoError [example_question "a.example."]
      [example_rr "a.example." 60 (RDataA 1)] [example_rr "example." 20 (RDataOther tt)];
    toy_message 9 Query NoError [example_question "A.example."] [] [];
    toy_message 9 Response NoError [example_question "A.example."]
      [example_rr "a.example." 50 (RDataA 1)] [example_rr "example." 50 (RDataOther tt)] ].

Definition example_upstream : SocketAddr := SocketAddr_V4 1 53.
Definition wire (i : N) : list N := i :: replicate 11 0%N.

Definition example_ops : list (@Op) :=
  [OpStore (wire 0) (wire 1) example_upstream 0;
   OpLookup (wire 2) (SocketAddr_V4 2 53) 5].

Notation example_hickory := (toy example_table).

Lemma hit_is_last_answer_witness : exists request question question0,
  @from_vec example_hickory (wire 2) = Some request /\ queries request = [question]
  /\ @same_question example_hickory question question0.
Proof.
  destruct (@hit_is_last_answer example_hickory map_to_list 4 example_ops (wire 2)
    example_upstream (from_secs 10) (wire 3) ltac:(vm_compute; reflexivity))
    as (request & ? & ? & ? & ? & ? & ? & Hq & (? & question & question0 & _ & H1 & _ & H2) & _).
  by exists request, question, question0.
Defined.

Lemma size_bounded_witness :
  (size (@run example_hickory map_to_list (new 0) example_ops).(entries) <= 1)%nat.
Proof. exact (@size_bounded example_hickory map_to_list 0 example_ops (fun m => reflexivity _)). Defined.

Lemma store_evicts_dead_first_witness : exists key entry,
  (@store example_hickory map_to_list (new 1) (wire 0) (wire 1) example_upstream 0).(entries) !! key
  = Some entry.
Proof.
  eexists _, _.
  refine (proj1 (@store_evicts_dead_first example_hickory map_to_list (new 1) (wire 0) (wire 1)
    example_upstream 0 _ _ (fun m => reflexivity _) _)).
  reflexivity.
Defined.

(** Ten seconds after it was stored, an authority record that could be kept for
    twenty seconds is handed out for fifty: the TTL served on an authority
    record is that of the shortest answer, not its own. *)
Definition authority_ttls (bytes : list N) : list N :=
  rr_ttl <$> from_option authorities [] (@from_vec example_hickory bytes).

Lemma authority_ttl_raised :
  authority_ttls (wire 1) = [20%N]
  /\ exists bytes, (@lookup example_hickory
        (@run example_hickory map_to_list (new 4) example_ops) (wire 2) example_upstream
        (from_secs 10)).2 = Some bytes
      /\ authority_ttls bytes = [50%N].
Proof. split; [|exists (wire 3); split]; vm_compute; reflexivity. Qed.
