(* ===== verification/LocalZone.v ===== *)
(** Names of the enrolled bridge answered by the gateway itself
    (src/src/local_zone.rs). *)

From S2P Require Import Prelude RustStr Net StrFacts DnsMessage.

Definition LOCAL_TTL_SECONDS : N := 30.

Definition single_label (name : string) : option string :=
  let trimmed := default name (strip_suffix name ".") in
  if is_empty trimmed || contains_char trimmed "." then None
  else Some (to_ascii_lowercase trimmed).

Section LocalZone.
Context {hickory : Hickory}.

(** The message an owned name is answered with. *)
Definition local_response (request : Message) (question : Question Name) (address : Ipv4Addr)
    : Message :=
  let response := message_response (md_id (metadata request)) (md_op_code (metadata request)) in
  let md := metadata response in
  let response := with_metadata response
    {| md_id := md_id md; md_message_type := md_message_type md; md_op_code := md_op_code md;
       md_authoritative := true; md_truncation := md_truncation md;
       md_recursion_desired := md_recursion_desired (metadata request);
       md_recursion_available := true; md_response_code := NoError |} in
  with_sections response (queries response ++ [question])
    (if (query_type question =? RecordType_A)%N
     then answers response ++ [{| rr_name := q_name question; rr_ttl := LOCAL_TTL_SECONDS;
                                  rr_data := RDataA address |}]
     else answers response)
    (authorities response) (edns response).

Definition answer (query : list N) (names : gmap string Ipv4Addr) : option (list N) :=
  if bool_decide (names = ∅) then None
  else
    request ← from_vec query;
    if negb (bool_decide (md_message_type (metadata request) = Query))
       || negb (length (queries request) =? 1)%nat then None
    else
      question ← head (queries request);
      label ← single_label (to_ascii (q_name question));
      address ← names !! label;
      to_vec (local_response request question address).
End LocalZone.

(** ** Single labels *)

Lemma str_app_inj_dot s t : s +:+ "." = t +:+ "." -> s = t.
Proof.
  intros Hst. apply chars_inj, (app_inj_2 _ _ (chars ".") (chars ".")); [done|].
  by rewrite <- !chars_app, Hst.
Qed.

Lemma contains_char_lacks c s : contains_char s c = negb (lacks c s).
Proof.
  unfold contains_char, lacks, str_existsb, str_forallb.
  induction (chars s) as [|a l IH]; [done|]. simpl. rewrite IH, Ascii.eqb_sym.
  by destruct (Ascii.eqb a c).
Qed.

Lemma single_label_Some name l :
  single_label name = Some l <->
  exists t, (name = t \/ name = t +:+ ".") /\ t <> "" /\ lacks "." t = true
    /\ l = to_ascii_lowercase t.
Proof.
  unfold single_label, strip_suffix, is_empty.
  assert (forall t, (if String.eqb t "" || contains_char t "." then None
                     else Some (to_ascii_lowercase t)) = Some l
                    <-> t <> "" /\ lacks "." t = true /\ l = to_ascii_lowercase t) as Hl.
  { intros t. rewrite contains_char_lacks.
    destruct (String.eqb_spec t ""), (lacks "." t); simpl; naive_solver. }
  destruct (ends_with name ".") eqn:He; simpl.
  - apply ends_with_char in He as (t & ->).
    rewrite str_length_app. replace (_ - _)%nat with (String.length t) by (simpl; lia).
    rewrite str_take_app, Hl. split; [intros; exists t; tauto|].
    intros (t' & [<-|Ht] & Hne & Hd & ->).
    + rewrite lacks_app in Hd. by rewrite andb_false_r in Hd.
    + by rewrite (str_app_inj_dot _ _ Ht).
  - rewrite Hl. split; [intros; exists name; tauto|].
    intros (t' & [->| ->] & ?); [tauto|].
    assert (ends_with (t' +:+ ".") "." = true) by (apply ends_with_char; eauto). congruence.
Qed.

(** ** What is answered *)

Section Answers.
Context {hickory : Hickory} {laws : HickoryLaws}.

(** The query asks for one name, of one label, that a client of the bridge
    has; labels are compared without their case, a final dot does not count. *)
Definition owned (names : gmap string Ipv4Addr) (query : list N)
    (request : Message) (question : Question Name) (address : Ipv4Addr) : Prop :=
  from_vec query = Some request /\ md_message_type (metadata request) = Query
  /\ queries request = [question]
  /\ exists label, (to_ascii (q_name question) = label \/ to_ascii (q_name question) = label +:+ ".")
     /\ label <> "" /\ lacks "." label = true
     /\ names !! to_ascii_lowercase label = Some address.

(** a query is answered by the gateway exactly when it asks for an owned
    name; the answer is the authoritative, error-free response to that
    transaction and question, with the client's address when an A record is
    asked for and without any record otherwise.  A name with a dot inside is
    therefore never answered, and an owned name of any type never forwarded. *)
Theorem answered_iff_owned (names : gmap string Ipv4Addr) query bytes :
  (answer query names = Some bytes <->
   exists request question address, owned names query request question address
     /\ to_vec (local_response request question address) = Some bytes)
  /\ forall request question address, let m := local_response request question address in
     md_id (metadata m) = md_id (metadata request)
     /\ md_op_code (metadata m) = md_op_code (metadata request)
     /\ md_message_type (metadata m) = Response
     /\ md_response_code (metadata m) = NoError
     /\ md_authoritative (metadata m) = true /\ md_truncation (metadata m) = false
     /\ md_recursion_desired (metadata m) = md_recursion_desired (metadata request)
     /\ queries m = [question] /\ authorities m = []
     /\ answers m = if decide (query_type question = RecordType_A)
                    then [{| rr_name := q_name question; rr_ttl := 30;
                             rr_data := RDataA address |}] else [].
Proof.
  split.
  - unfold answer, owned. case_bool_decide as He.
    { subst. split; [done|]. by intros (? & ? & ? & (? & ? & ? & ? & ? & ? & ? & [=]) & ?). }
    split.
    + intros (request & Hq & Hr)%bind_Some. case_match eqn:Hg; [done|].
      simplify_bools.
      destruct (queries request) as [|question []] eqn:Hqs; [done| |done].
      cbn [head mbind option_bind] in Hr.
      apply bind_Some in Hr as (label & (t & ? & ? & ? & ->)%single_label_Some & Hr).
      apply bind_Some in Hr as (address & Ha & Hb).
      exists request, question, address. eauto 12.
    + intros (request & question & address & (Hq & Hty & Hqs & t & Hn & Hne & Hd & Ha) & Hb).
      rewrite Hq; cbn [mbind option_bind]. rewrite Hty, Hqs, bool_decide_eq_true_2 by done.
      cbn -[single_label local_response lookup].
      rewrite (proj2 (single_label_Some _ (to_ascii_lowercase t)))
        by (exists t; auto); cbn -[local_response lookup].
      by rewrite Ha.
  - intros request question address m. subst m. unfold local_response. simpl.
    autorewrite with egressy_rw. split_and!; try done.
    destruct (N.eqb_spec (query_type question) RecordType_A); by case_decide.
Qed.
End Answers.

Definition local_question (name : string) (ty : RecordType) : Question string :=
  {| q_name := name; query_type := ty; query_class := 1%N |}.
Definition local_table : list (MessageOf string unit unit unit) :=
  let request := toy_message 7 Query NoError [local_question "Qbit." RecordType_A] [] [] in
  [ request;
    @local_response (toy []) request (local_question "Qbit." RecordType_A) 42;
    toy_message 8 Query NoError [local_question "qbit.example." RecordType_A] [] [] ].
Definition local_names : gmap string Ipv4Addr := {["qbit" := 42%N]}.

Lemma answered_iff_owned_witness : exists request question,
  @owned (toy local_table) local_names (0%N :: replicate 11 0%N) request question 42.
Proof.
  assert (@answer (toy local_table) (0%N :: replicate 11 0%N) local_names
          = Some (1%N :: replicate 11 0%N)) as Hans by (vm_compute; reflexivity).
  destruct (@answered_iff_owned (toy local_table) (toy_laws _) local_names
    (0%N :: replicate 11 0%N) (1%N :: replicate 11 0%N)) as [[Hto _] _].
  destruct (Hto Hans) as (request & question & address & Ho & _).
  assert (address = 42%N) as ->; [|eauto].
  destruct Ho as (Hq & _ & Hqs & l & _ & _ & _ & Ha).
  unfold local_names in Ha. apply lookup_singleton_Some in Ha. by destruct Ha.
Defined.

Example dotted_name_forwarded :
  @answer (toy local_table) (2%N :: replicate 11 0%N) local_names = None.
Proof. vm_compute. reflexivity. Qed.
