(* ===== verification/DnsAdmission.v ===== *)
(** Admission control of forwarded queries ([QueryPermits], src/src/dns.rs).

    The counters are shared between the table of clients and the slots of the
    queries in flight, so they live in a heap of their own and the table and
    the slots hold references.  A call of [try_acquire] is a sequence of atomic
    actions; the queries in flight give their permits back between any two of
    them.  The gateway admits from one task, so two calls do not overlap. *)

From S2P Require Import Prelude RustStr Net.

Definition MIN_CLIENT_SHARE : N := 64.
Definition CLIENT_IDLE_AFTER : N := from_secs 60.
Definition BORROW_RESERVE_DIVISOR : N := 4.
Definition PRUNE_INTERVAL : N := from_secs 1.
Definition MAX_TRACKED_CLIENTS : nat := 1024.

(** [Arc<AtomicUsize>] *)
Notation Ref := nat (only parsing).

Record ClientLoad : Type := {
  in_flight : Ref;
  last_seen : N;
}.

Record QueryPermits : Type := {
  available_permits : N;             (* the global semaphore *)
  global_limit : N;
  loads : gmap IpAddr ClientLoad;
  pruned_at : N;
  fixed_per_client : option N;
  borrow_reserve : N;
  heap : gmap nat N;                 (* the counters *)
}.

Inductive Refusal : Type := GlobalLimit | ClientLimit.

(** [clamp], for bounds in order *)
Definition clamp (lo hi x : N) : N := N.min hi (N.max lo x).

Definition new (global : N) (per_client : option N) (now : N) : QueryPermits :=
  let global_limit := N.max global 1 in
  {| available_permits := global_limit; global_limit := global_limit;
     loads := ∅; pruned_at := now;
     fixed_per_client := clamp 1 global_limit <$> per_client;
     borrow_reserve := N.max (global_limit / BORROW_RESERVE_DIVISOR) 1;
     heap := ∅ |}.

Definition with_table (p : QueryPermits) (l : gmap IpAddr ClientLoad) (at_ : N) : QueryPermits :=
  {| available_permits := p.(available_permits); global_limit := p.(global_limit);
     loads := l; pruned_at := at_; fixed_per_client := p.(fixed_per_client);
     borrow_reserve := p.(borrow_reserve); heap := p.(heap) |}.

Definition with_heap (p : QueryPermits) (h : gmap nat N) : QueryPermits :=
  {| available_permits := p.(available_permits); global_limit := p.(global_limit);
     loads := p.(loads); pruned_at := p.(pruned_at);
     fixed_per_client := p.(fixed_per_client);
     borrow_reserve := p.(borrow_reserve); heap := h |}.

Definition with_available (p : QueryPermits) (n : N) : QueryPermits :=
  {| available_permits := n; global_limit := p.(global_limit);
     loads := p.(loads); pruned_at := p.(pruned_at);
     fixed_per_client := p.(fixed_per_client);
     borrow_reserve := p.(borrow_reserve); heap := p.(heap) |}.

(** The value of a counter. *)
Definition load (p : QueryPermits) (r : Ref) : N := default 0%N (p.(heap) !! r).

(** The test of [retain]. *)
Definition retained (p : QueryPermits) (over_capacity : bool) (now : N) (l : ClientLoad) : bool :=
  (0 <? load p l.(in_flight))%N
  || (negb over_capacity
      && (saturating_duration_since now l.(last_seen) <? CLIENT_IDLE_AFTER)%N).

Definition prune (p : QueryPermits) (now : N) : QueryPermits :=
  let over_capacity := (MAX_TRACKED_CLIENTS <? size p.(loads))%nat in
  if negb over_capacity && (saturating_duration_since now p.(pruned_at) <? PRUNE_INTERVAL)%N
  then p
  else with_table p (filter (fun kl => retained p over_capacity now kl.2 = true) p.(loads)) now.

(** This client's counter and the number of clients, under the lock. *)
Definition client_share (p : QueryPermits) (client : IpAddr) (now : N)
    : QueryPermits * (Ref * N) :=
  let p := prune p now in
  let '(p, r) :=
    match p.(loads) !! client with
    | Some l => (p, l.(in_flight))
    | None => let r := fresh (dom p.(heap)) in (with_heap p (<[r := 0%N]> p.(heap)), r)
    end in
  let p := with_table p (<[client := {| in_flight := r; last_seen := now |}]> p.(loads)) p.(pruned_at) in
  (p, (r, N.of_nat (size p.(loads)))).

Definition limit_for (p : QueryPermits) (active_clients : N) : N :=
  match p.(fixed_per_client) with
  | Some fixed => fixed
  | None => clamp (N.min MIN_CLIENT_SHARE p.(global_limit)) p.(global_limit)
                  (p.(global_limit) / N.max active_clients 1)
  end.

Definition admission_limit (p : QueryPermits) (active_clients : N) : N :=
  match p.(fixed_per_client) with
  | Some _ => limit_for p active_clients
  | None => if (p.(borrow_reserve) <? p.(available_permits))%N then p.(global_limit)
            else limit_for p active_clients
  end.

(** The compare-and-exchange loop takes effect at its last exchange, or at the
    last value it observed. *)
Definition claim (p : QueryPermits) (r : Ref) (limit : N) : option QueryPermits :=
  let current := load p r in
  if (limit <=? current)%N then None
  else Some (with_heap p (<[r := (current + 1)%N]> p.(heap))).

(** [fetch_sub] *)
Definition drop_slot (p : QueryPermits) (r : Ref) : QueryPermits :=
  with_heap p (<[r := ((load p r + (2 ^ 64 - 1)) mod 2 ^ 64)%N]> p.(heap)).

Definition try_acquire_owned (p : QueryPermits) : option QueryPermits :=
  if (p.(available_permits) =? 0)%N then None
  else Some (with_available p (p.(available_permits) - 1)%N).

Definition drop_global (p : QueryPermits) : QueryPermits :=
  with_available p (p.(available_permits) + 1)%N.

(** The call, when nothing happens in between. *)
Definition try_acquire (p : QueryPermits) (client : IpAddr) (now : N)
    : QueryPermits * Result Ref Refusal :=
  let '(p, (r, active_clients)) := client_share p client now in
  match claim p r (admission_limit p active_clients) with
  | None => (p, Err ClientLimit)
  | Some p =>
      match try_acquire_owned p with
      | None => (drop_slot p r, Err GlobalLimit)
      | Some p => (p, Ok r)
      end
  end.

(** ** The forwarder's life: the call in progress, the slots and the global
    permits of the queries in flight. *)

Inductive Phase : Type :=
| Idle
| Shared (client : IpAddr) (r : Ref) (active_clients : N)
| Limited (client : IpAddr) (r : Ref) (limit : N)
| Claimed (client : IpAddr) (r : Ref).

Record Sys : Type := {
  permits : QueryPermits;
  phase : Phase;
  slots : list (IpAddr * Ref);       (* whose slot, and its counter *)
  globals : N;
}.

Inductive step : Sys -> Sys -> Prop :=
| s_share p sl g client now p' r active :
    client_share p client now = (p', (r, active)) ->
    step {| permits := p; phase := Idle; slots := sl; globals := g |}
         {| permits := p'; phase := Shared client r active; slots := sl; globals := g |}
| s_limit p sl g client r active :
    step {| permits := p; phase := Shared client r active; slots := sl; globals := g |}
         {| permits := p; phase := Limited client r (admission_limit p active);
            slots := sl; globals := g |}
| s_claim p sl g client r limit p' :
    claim p r limit = Some p' ->
    step {| permits := p; phase := Limited client r limit; slots := sl; globals := g |}
         {| permits := p'; phase := Claimed client r; slots := sl; globals := g |}
| s_refuse_client p sl g client r limit :
    claim p r limit = None ->
    step {| permits := p; phase := Limited client r limit; slots := sl; globals := g |}
         {| permits := p; phase := Idle; slots := sl; globals := g |}
| s_admit p sl g client r p' :
    try_acquire_owned p = Some p' ->
    step {| permits := p; phase := Claimed client r; slots := sl; globals := g |}
         {| permits := p'; phase := Idle; slots := (client, r) :: sl; globals := (g + 1)%N |}
| s_refuse_global p sl g client r :
    try_acquire_owned p = None ->
    step {| permits := p; phase := Claimed client r; slots := sl; globals := g |}
         {| permits := drop_slot p r; phase := Idle; slots := sl; globals := g |}
| s_drop_slot p ph sl sl' g client r :
    sl ≡ₚ (client, r) :: sl' ->
    step {| permits := p; phase := ph; slots := sl; globals := g |}
         {| permits := drop_slot p r; phase := ph; slots := sl'; globals := g |}
| s_drop_global p ph sl g :
    step {| permits := p; phase := ph; slots := sl; globals := (g + 1)%N |}
         {| permits := drop_global p; phase := ph; slots := sl; globals := g |}.

Definition start (global : N) (per_client : option N) (now : N) : Sys :=
  {| permits := new global per_client now; phase := Idle; slots := []; globals := 0 |}.

Definition reachable (global : N) (per_client : option N) (now : N) : Sys -> Prop :=
  rtc step (start global per_client now).
