(* ===== verification/DnsAdmissionProps.v ===== *)
(** What admission control promises, under every interleaving of one admitting
    task and the queries in flight: the counters count, the semaphore is never
    overdrawn, no client passes its ceiling, and a refusal has a cause. *)

From S2P Require Import Prelude RustStr Net DnsAdmission.

(** How many slots of a list are counted by [r]. *)
Definition count (r : Ref) (l : list (IpAddr * Ref)) : N :=
  N.of_nat (length (filter (fun x => x.2 = r) l)).

Lemma count_cons_eq c r l : count r ((c, r) :: l) = (count r l + 1)%N.
Proof. unfold count. rewrite filter_cons_True by done. simpl. lia. Qed.
Lemma count_cons_ne c r r' l : r' <> r -> count r ((c, r') :: l) = count r l.
Proof. intros. unfold count. by rewrite filter_cons_False. Qed.
Lemma count_perm r l k : l ≡ₚ k -> count r l = count r k.
Proof. intros Hp. unfold count. by rewrite Hp. Qed.
Lemma count_pos c r l : (c, r) ∈ l -> (0 < count r l)%N.
Proof.
  intros Hin. unfold count. assert ((c, r) ∈ filter (fun x => x.2 = r) l) as Hf
    by (by apply list_elem_of_filter).
  destruct (filter _ l); [by apply not_elem_of_nil in Hf|simpl; lia].
Qed.

Lemma count_0 r l : (forall c, (c, r) ∉ l) -> count r l = 0%N.
Proof.
  induction l as [|[c r'] l IH]; [done|]. intros Hn.
  rewrite count_cons_ne.
  - apply IH. intros c' Hin. apply (Hn c'). by right.
  - intros ->. apply (Hn c). left.
Qed.

(** The most queries one client may have in flight. *)
Definition ceiling (p : QueryPermits) : N := default p.(global_limit) p.(fixed_per_client).

Record wf_config (limit : N) (fixed : option N) : Prop := {
  wf_limit_pos : (1 <= limit)%N;
  wf_limit_bound : (limit <= usize_MAX)%N;
  wf_fixed : forall k, fixed = Some k -> (1 <= k <= limit)%N;
}.
Notation wf_limits p := (wf_config p.(global_limit) p.(fixed_per_client)).

Record inv (p : QueryPermits) (busy : list (IpAddr * Ref)) (hand : option (IpAddr * Ref))
    (g : N) : Prop := {
  inv_limits : wf_limits p;
  inv_global : (p.(available_permits) + g = p.(global_limit))%N;
  inv_count : forall r v, p.(heap) !! r = Some v -> v = count r busy;
  inv_ceiling : forall r, (count r busy <= ceiling p)%N;
  inv_busy : forall c r, (c, r) ∈ busy \/ hand = Some (c, r) ->
    exists l, p.(loads) !! c = Some l /\ l.(in_flight) = r;
  inv_heap : forall c l, p.(loads) !! c = Some l -> is_Some (p.(heap) !! l.(in_flight));
  inv_inj : forall c1 c2 l1 l2, p.(loads) !! c1 = Some l1 -> p.(loads) !! c2 = Some l2 ->
    l1.(in_flight) = l2.(in_flight) -> c1 = c2;
}.

Lemma ceiling_le p : wf_limits p -> (ceiling p <= p.(global_limit))%N.
Proof.
  intros [? ? Hf]. unfold ceiling. destruct (fixed_per_client p); simpl; [|lia].
  by destruct (Hf _ eq_refl).
Qed.

Lemma limit_for_ceiling p n : wf_limits p -> (limit_for p n <= ceiling p)%N.
Proof.
  intros Hwf. unfold limit_for, ceiling. destruct (fixed_per_client p); simpl; [done|].
  unfold clamp. lia.
Qed.

Lemma admission_limit_ceiling p n : wf_limits p -> (admission_limit p n <= ceiling p)%N.
Proof.
  intros Hwf. pose proof (limit_for_ceiling p n Hwf). unfold admission_limit, ceiling in *.
  destruct (fixed_per_client p); [done|]. case_match; simpl in *; lia.
Qed.

Lemma inv_load p busy h g c r :
  inv p busy h g -> (c, r) ∈ busy \/ h = Some (c, r) ->
  p.(heap) !! r = Some (count r busy) /\ load p r = count r busy.
Proof.
  intros Hi Hin. destruct (inv_busy _ _ _ _ Hi c r Hin) as (l & Hl & <-).
  destruct (inv_heap _ _ _ _ Hi _ _ Hl) as [v Hv].
  pose proof (inv_count _ _ _ _ Hi _ _ Hv) as ->. split; [done|].
  unfold load. by rewrite Hv.
Qed.

Lemma inv_perm p busy busy' h g : busy ≡ₚ busy' -> inv p busy h g -> inv p busy' h g.
Proof.
  intros Hp [? ? Hc Hm Hb ? ?]. split; try done.
  - intros r v Hv. rewrite <- (count_perm _ _ _ Hp). auto.
  - intros r. by rewrite <- (count_perm _ _ _ Hp).
  - intros c r. rewrite <- Hp. auto.
Qed.

Lemma inv_forget p busy h g : inv p busy h g -> inv p busy None g.
Proof. intros [? ? ? ? Hb ? ?]. split; try done. intros c r [?|?]; [auto|done]. Qed.

(** ** The table *)

Lemma prune_same p now :
  let p' := prune p now in
  p'.(available_permits) = p.(available_permits) /\ p'.(global_limit) = p.(global_limit)
  /\ p'.(fixed_per_client) = p.(fixed_per_client) /\ p'.(borrow_reserve) = p.(borrow_reserve)
  /\ p'.(heap) = p.(heap).
Proof. unfold prune. by case_match. Qed.

Lemma prune_subseteq p now : (prune p now).(loads) ⊆ p.(loads).
Proof. unfold prune. case_match; [done|]. apply map_filter_subseteq. Qed.

Lemma prune_keeps_busy p now c l :
  p.(loads) !! c = Some l -> (0 < load p l.(in_flight))%N -> (prune p now).(loads) !! c = Some l.
Proof.
  intros Hl Hpos. unfold prune. case_match; [done|]. simpl.
  apply map_lookup_filter_Some. split; [done|]. simpl. unfold retained.
  apply N.ltb_lt in Hpos. by rewrite Hpos.
Qed.

Lemma inv_prune p busy g now : inv p busy None g -> inv (prune p now) busy None g.
Proof.
  intros Hi. destruct (prune_same p now) as (Ha & Hgl & Hf & _ & Hh).
  pose proof (prune_subseteq p now) as Hsub.
  split.
  - rewrite Hgl, Hf. apply Hi.
  - rewrite Ha, Hgl. apply Hi.
  - rewrite Hh. apply Hi.
  - unfold ceiling. rewrite Hgl, Hf. apply Hi.
  - intros c r [Hin|?]; [|done].
    destruct (inv_busy _ _ _ _ Hi c r ltac:(by left)) as (l & Hl & <-).
    exists l. split; [|done]. apply prune_keeps_busy; [done|].
    destruct (inv_load _ _ _ _ _ _ Hi (or_introl Hin)) as [_ ->]. by eapply count_pos.
  - intros c l Hl. rewrite Hh. eapply inv_heap, lookup_weaken; done.
  - intros c1 c2 l1 l2 H1 H2. eapply inv_inj; [done| |]; by eapply lookup_weaken.
Qed.

Lemma inv_client_share p busy g client now p' r active :
  inv p busy None g -> client_share p client now = (p', (r, active)) ->
  inv p' busy (Some (client, r)) g.
Proof.
  intros Hi0. apply (inv_prune _ _ _ now) in Hi0. revert Hi0. unfold client_share.
  generalize (prune p now) as q. intros q Hi.
  destruct (loads q !! client) as [l0|] eqn:Hc; intros [= <- <- _].
  - split; try apply Hi; simpl.
    + intros c r [Hin|[= -> ->]]; [|rewrite lookup_insert_eq; eauto].
      destruct (inv_busy _ _ _ _ Hi c r (or_introl Hin)) as (l & Hl & <-).
      destruct (decide (c = client)) as [->|];
        [rewrite lookup_insert_eq; simplify_eq; eauto | rewrite lookup_insert_ne by done; eauto].
    + intros c l [[-> <-]|[_ Hl]]%lookup_insert_Some; simpl; by eapply (inv_heap _ _ _ _ Hi).
    + intros c1 c2 l1 l2 [[-> <-]|[? H1]]%lookup_insert_Some
        [[-> <-]|[? H2]]%lookup_insert_Some; simpl; intros ?; try done;
        by eapply (inv_inj _ _ _ _ Hi).
  - set (r := fresh (dom (heap q))).
    assert (heap q !! r = None) as Hr by (apply not_elem_of_dom, is_fresh).
    assert (forall c l, loads q !! c = Some l -> in_flight l <> r) as Hne.
    { intros c l Hl ->%eq_sym. destruct (inv_heap _ _ _ _ Hi _ _ Hl). congruence. }
    assert (count r busy = 0)%N as H0.
    { apply count_0. intros c Hin. destruct (inv_busy _ _ _ _ Hi c r (or_introl Hin)) as (l & Hl & ?).
      by eapply Hne. }
    split; try apply Hi; simpl.
    + intros r' v [[<- <-]|[_ Hv]]%lookup_insert_Some; [done|by eapply inv_count].
    + intros c r' [Hin|[= -> <-]]; [|rewrite lookup_insert_eq; eauto].
      destruct (inv_busy _ _ _ _ Hi c r' (or_introl Hin)) as (l & Hl & <-).
      rewrite lookup_insert_ne by (by intros ->; simplify_eq). eauto.
    + intros c l [[-> <-]|[_ Hl]]%lookup_insert_Some; simpl; [rewrite lookup_insert_eq; eauto|].
      rewrite lookup_insert_ne by (by apply not_eq_sym, (Hne c)). by eapply inv_heap.
    + intros c1 c2 l1 l2 [[-> <-]|[? H1]]%lookup_insert_Some
        [[-> <-]|[? H2]]%lookup_insert_Some; simpl; intros Heq; try done;
        [by destruct (Hne _ _ H2) | by destruct (Hne _ _ H1) | by eapply inv_inj].
Qed.

(** ** Slots and global permits *)

Lemma inv_claim p busy g c r limit p' :
  inv p busy (Some (c, r)) g -> (limit <= ceiling p)%N -> claim p r limit = Some p' ->
  inv p' ((c, r) :: busy) (Some (c, r)) g.
Proof.
  intros Hi Hlim. unfold claim.
  destruct (inv_load _ _ _ _ c r Hi (or_intror eq_refl)) as [Hr ->].
  case_match eqn:Hlt; [done|]. intros [= <-]. simplify_bools.
  split; try apply Hi; simpl.
  - intros r' v [[<- <-]|[? Hv]]%lookup_insert_Some; [by rewrite count_cons_eq|].
    rewrite count_cons_ne by done. by eapply inv_count.
  - intros r'. destruct (decide (r' = r)) as [->|].
    + rewrite count_cons_eq. unfold ceiling in *. simpl. lia.
    + rewrite count_cons_ne by done. apply (inv_ceiling _ _ _ _ Hi).
  - intros c' r' [[[= -> ->]|?]%elem_of_cons|?]; eapply (inv_busy _ _ _ _ Hi); auto.
  - intros c' l Hl. destruct (decide (in_flight l = r)) as [->|].
    + rewrite lookup_insert_eq. eauto.
    + rewrite lookup_insert_ne by done. by eapply (inv_heap _ _ _ _ Hi).
Qed.

Lemma inv_drop_slot p busy h g c r :
  inv p ((c, r) :: busy) h g -> inv (drop_slot p r) busy h g.
Proof.
  intros Hi. unfold drop_slot.
  destruct (inv_load _ _ _ _ c r Hi ltac:(left; left)) as [Hr ->].
  rewrite count_cons_eq.
  assert (((count r busy + 1 + (2 ^ 64 - 1)) mod 2 ^ 64)%N = count r busy) as ->.
  { pose proof (inv_ceiling _ _ _ _ Hi r) as Hle. rewrite count_cons_eq in Hle.
    pose proof (ceiling_le _ (inv_limits _ _ _ _ Hi)).
    pose proof (wf_limit_bound _ _ (inv_limits _ _ _ _ Hi)).
    unfold usize_MAX, u64_MAX in *.
    replace (count r busy + 1 + (2 ^ 64 - 1))%N with (count r busy + 1 * 2 ^ 64)%N by lia.
    rewrite N.Div0.mod_add. apply N.mod_small. lia. }
  split; try apply Hi; simpl.
  - intros r' v [[<- <-]|[? Hv]]%lookup_insert_Some; [done|].
    rewrite (inv_count _ _ _ _ Hi _ _ Hv). by apply count_cons_ne.
  - intros r'. etrans; [|apply (inv_ceiling _ _ _ _ Hi)].
    destruct (decide (r' = r)) as [->|]; [rewrite count_cons_eq; lia|by rewrite count_cons_ne].
  - intros c' r' Hin. apply (inv_busy _ _ _ _ Hi). rewrite elem_of_cons. tauto.
  - intros c' l Hl. destruct (decide (in_flight l = r)) as [->|].
    + rewrite lookup_insert_eq. eauto.
    + rewrite lookup_insert_ne by done. by eapply (inv_heap _ _ _ _ Hi).
Qed.

Lemma inv_admit p busy h g p' :
  inv p busy h g -> try_acquire_owned p = Some p' -> inv p' busy h (g + 1).
Proof.
  intros Hi. unfold try_acquire_owned. case_match; [done|]. intros [= <-]. simplify_bools.
  split; try apply Hi. pose proof (inv_global _ _ _ _ Hi). simpl. lia.
Qed.

Lemma inv_drop_global p busy h g : inv p busy h (g + 1) -> inv (drop_global p) busy h g.
Proof.
  intros Hi. split; try apply Hi. pose proof (inv_global _ _ _ _ Hi). simpl. lia.
Qed.

(** ** The steps *)

Definition pending (ph : Phase) : list (IpAddr * Ref) :=
  match ph with Claimed c r => [(c, r)] | _ => [] end.

Definition hand (ph : Phase) : option (IpAddr * Ref) :=
  match ph with
  | Idle => None
  | Shared c r _ | Limited c r _ | Claimed c r => Some (c, r)
  end.

Definition sys_inv (s : Sys) : Prop :=
  inv s.(permits) (pending s.(phase) ++ s.(slots)) (hand s.(phase)) s.(globals)
  /\ match s.(phase) with Limited _ _ limit => (limit <= ceiling s.(permits))%N | _ => True end.

Lemma start_inv global per_client now :
  (global <= usize_MAX)%N -> sys_inv (start global per_client now).
Proof.
  intros Hb. split; [|done]. split; simpl; try done; try lia.
  - split; [lia|unfold usize_MAX, u64_MAX in *; lia|].
    intros k Hk. destruct per_client; simplify_eq/=. unfold clamp. lia.
  - intros r. unfold count. simpl. lia.
  - intros c r [Hin|?]; [by apply not_elem_of_nil in Hin|done].
Qed.

Lemma step_inv s s' : step s s' -> sys_inv s -> sys_inv s'.
Proof.
  unfold sys_inv. destruct 1; simpl; intros [Hi Hlim].
  - split; [by eapply inv_client_share|done].
  - split; [done|]. apply admission_limit_ceiling, Hi.
  - split; [by eapply inv_claim|done].
  - split; [by eapply inv_forget|done].
  - split; [|done]. by eapply inv_forget, inv_admit.
  - split; [|done]. by eapply inv_forget, inv_drop_slot.
  - split.
    + eapply inv_drop_slot, inv_perm, Hi.
      rewrite H. symmetry. apply Permutation_middle.
    + by destruct ph.
  - split; [by apply inv_drop_global|]. by destruct ph.
Qed.

Lemma reachable_inv global per_client now s :
  (global <= usize_MAX)%N -> reachable global per_client now s -> sys_inv s.
Proof.
  intros Hb. revert s. apply rtc_ind_r; [by apply start_inv|].
  intros s s' _ Hs. by apply step_inv.
Qed.

(** The configuration never changes. *)
Definition config (p : QueryPermits) : N * option N * N :=
  (p.(global_limit), p.(fixed_per_client), p.(borrow_reserve)).

Lemma client_share_config p c now p' x :
  client_share p c now = (p', x) -> config p' = config p.
Proof.
  unfold client_share, config. destruct (prune_same p now) as (_ & Hg & Hf & Hb & _).
  revert Hg Hf Hb. generalize (prune p now) as q. intros q <- <- <-.
  destruct (loads q !! c); by intros [= <- _].
Qed.

Lemma step_config s s' : step s s' -> config s'.(permits) = config s.(permits).
Proof.
  destruct 1; simpl; try done.
  - by eapply client_share_config.
  - unfold claim in *. by case_match; simplify_eq.
  - unfold try_acquire_owned in *. by case_match; simplify_eq.
Qed.

Lemma reachable_config global per_client now s :
  reachable global per_client now s -> config s.(permits) = config (new global per_client now).
Proof.
  revert s. apply rtc_ind_r; [done|].
  intros s s' _ Hs. by rewrite (step_config _ _ Hs).
Qed.

(** How many of a client's queries hold a slot. *)
Definition held (c : IpAddr) (l : list (IpAddr * Ref)) : N :=
  N.of_nat (length (filter (fun x => x.1 = c) l)).

(** A client's slots are all counted by its one counter. *)
Lemma inv_held p busy h g c l :
  inv p busy h g -> p.(loads) !! c = Some l -> held c busy = count l.(in_flight) busy.
Proof.
  intros Hi Hl.
  assert (forall x, x ∈ busy -> x.1 = c <-> x.2 = l.(in_flight)) as Hiff.
  { intros [c' r] Hin. simpl. destruct (inv_busy _ _ _ _ Hi c' r (or_introl Hin)) as (l' & Hl' & <-).
    split; [intros ->; congruence|]. intros Heq. by eapply (inv_inj _ _ _ _ Hi). }
  clear Hi. unfold held, count. f_equal. induction busy as [|x busy IH]; [done|].
  rewrite !filter_cons. specialize (Hiff x ltac:(left)) as Hx.
  do 2 case_decide; simpl; try tauto; rewrite IH; auto; intros; apply Hiff; by right.
Qed.

Lemma inv_not_held p busy h g c : inv p busy h g -> p.(loads) !! c = None -> held c busy = 0%N.
Proof.
  intros Hi Hn. assert (forall x, x ∈ busy -> x.1 <> c) as Hne.
  { intros [c' r] Hin <-. destruct (inv_busy _ _ _ _ Hi c' r (or_introl Hin)) as (? & ? & _).
    simpl in *. congruence. }
  clear Hi. unfold held. induction busy as [|x busy IH]; [done|].
  rewrite filter_cons_False by (apply Hne; by left).
  apply IH. intros y Hy. apply Hne. by right.
Qed.

(** however admissions, refusals and the ends of queries interleave, every
    global permit is either free or held by a query in flight, so the budget is
    never exceeded; the counter of a client is the number of its slots, never
    wraps, and never passes the operator's ceiling or else the budget. *)
Theorem permits_conserved global per_client now s :
  (global <= usize_MAX)%N -> reachable global per_client now s ->
  (s.(permits).(available_permits) + s.(globals) = N.max global 1)%N
  /\ forall c, let n := held c (pending s.(phase) ++ s.(slots)) in
       (n <= match per_client with
             | Some k => clamp 1 (N.max global 1) k
             | None => N.max global 1
             end)%N
       /\ n = match s.(permits).(loads) !! c with
              | Some l => load s.(permits) l.(in_flight)
              | None => 0%N
              end.
Proof.
  intros Hb Hr. destruct (reachable_inv _ _ _ _ Hb Hr) as [Hi _].
  pose proof (reachable_config _ _ _ _ Hr) as [= Hg Hf _]. split.
  - rewrite (inv_global _ _ _ _ Hi). exact Hg.
  - intros c n. subst n.
    assert (ceiling (permits s) = match per_client with
             | Some k => clamp 1 (N.max global 1) k | None => N.max global 1 end) as <-.
    { unfold ceiling. rewrite Hf, Hg. by destruct per_client. }
    destruct (loads (permits s) !! c) as [l|] eqn:Hl.
    + rewrite (inv_held _ _ _ _ _ _ Hi Hl). split; [apply (inv_ceiling _ _ _ _ Hi)|].
      destruct (inv_heap _ _ _ _ Hi _ _ Hl) as [v Hv]. unfold load. rewrite Hv.
      symmetry. by apply (inv_count _ _ _ _ Hi).
    + rewrite (inv_not_held _ _ _ _ _ Hi Hl). split; [lia|done].
Qed.

Lemma client_share_table p c now p' r active :
  client_share p c now = (p', (r, active)) ->
  active = N.of_nat (size p'.(loads)) /\ p'.(available_permits) = p.(available_permits)
  /\ exists l, p'.(loads) !! c = Some l /\ l.(in_flight) = r.
Proof.
  unfold client_share. destruct (prune_same p now) as (Ha & _).
  revert Ha. generalize (prune p now) as q. intros q <-.
  destruct (loads q !! c); intros [= <- <- <-]; simpl; rewrite lookup_insert_eq; eauto.
Qed.

(** The call is a run of the steps. *)
Definition after (res : Result Ref Refusal) (p : QueryPermits) (client : IpAddr)
    (sl : list (IpAddr * Ref)) (g : N) : Sys :=
  {| permits := p; phase := Idle;
     slots := match res with Ok r => (client, r) :: sl | Err _ => sl end;
     globals := match res with Ok _ => g + 1 | Err _ => g end |}%N.

Lemma try_acquire_steps p sl g client now p' res :
  try_acquire p client now = (p', res) ->
  rtc step {| permits := p; phase := Idle; slots := sl; globals := g |} (after res p' client sl g).
Proof.
  unfold try_acquire. destruct (client_share p client now) as [p1 [r active]] eqn:Hs.
  pose proof (s_share p sl g client now p1 r active Hs) as Hstep1.
  destruct (claim p1 r (admission_limit p1 active)) as [p2|] eqn:Hc;
    [destruct (try_acquire_owned p2) as [p3|] eqn:Ha|]; intros [= <- <-];
    (eapply rtc_l; [exact Hstep1|]; eapply rtc_l; [apply s_limit|]).
  1, 2: eapply rtc_l; [by apply s_claim|]; apply rtc_once; by constructor.
  apply rtc_once. by apply s_refuse_client.
Qed.

(** a call of [try_acquire] is a run of the steps above.  A query is turned
    away for its client only when the client already has its share in flight
    and, unless the operator fixed the share, no capacity beyond the reserve is
    idle (or its slots are as many as the whole budget, the permits of some
    having been returned first); and for the budget only when the whole budget is in flight, in which
    case the slot it took is given back. *)
Theorem refusals_have_cause global per_client now0 p sl g client now p' res :
  (global <= usize_MAX)%N ->
  reachable global per_client now0 {| permits := p; phase := Idle; slots := sl; globals := g |} ->
  try_acquire p client now = (p', res) ->
  rtc step {| permits := p; phase := Idle; slots := sl; globals := g |} (after res p' client sl g)
  /\ match res with
     | Ok _ => (held client sl < ceiling p /\ 0 < available_permits p)%N
     | Err ClientLimit =>
         (limit_for p (N.of_nat (size p'.(loads))) <= held client sl)%N
         /\ (per_client = None -> (available_permits p <= borrow_reserve p)%N
                                  \/ (N.max global 1 <= held client sl)%N)
     | Err GlobalLimit => available_permits p = 0%N /\ g = N.max global 1
     end.
Proof.
  intros Hb Hr. destruct (reachable_inv _ _ _ _ Hb Hr) as [Hi _].
  pose proof (reachable_config _ _ _ _ Hr) as [= Hg Hf _]. simpl in Hi, Hg, Hf.
  intros Htry. split; [by eapply try_acquire_steps|]. revert Htry.
  unfold try_acquire. destruct (client_share p client now) as [p1 [r active]] eqn:Hs.
  pose proof (inv_client_share _ _ _ _ _ _ _ _ Hi Hs) as Hi1.
  destruct (client_share_table _ _ _ _ _ _ Hs) as (Hact & Hav & l & Hl & Hr1).
  pose proof (client_share_config _ _ _ _ _ Hs) as [= Hg1 Hf1 Hb1].
  assert (limit_for p active = limit_for p1 active) as Heq
    by (unfold limit_for; by rewrite Hg1, Hf1).
  assert (load p1 r = held client sl) as Hload.
  { destruct (inv_load _ _ _ _ client r Hi1 (or_intror eq_refl)) as [_ ->].
    rewrite (inv_held _ _ _ _ _ _ Hi1 Hl). by rewrite Hr1. }
  assert (admission_limit p1 active <= ceiling p)%N as Hlim.
  { etrans; [apply admission_limit_ceiling, Hi1|]. unfold ceiling. by rewrite Hg1, Hf1. }
  destruct (claim p1 r (admission_limit p1 active)) as [p2|] eqn:Hc.
  - assert (held client sl < ceiling p /\ available_permits p2 = available_permits p)%N as [Hlt Hav2].
    { unfold claim in Hc. case_match eqn:Hle; simplify_eq/=. simplify_bools.
      rewrite Hload in Hle. split; [lia|done]. }
    destruct (try_acquire_owned p2) as [p3|] eqn:Ha; intros [= <- <-].
    + split; [done|]. unfold try_acquire_owned in Ha. case_match; simplify_bools; [done|lia].
    + unfold try_acquire_owned in Ha. case_match; simplify_bools; [|done].
      pose proof (inv_global _ _ _ _ Hi). split; [congruence|]. lia.
  - intros [= <- <-]. unfold claim in Hc. case_match eqn:Hle; [|done]. simplify_bools.
    rewrite Hload in Hle. assert (limit_for p1 active <= global_limit p1)%N as Hle2
      by (etrans; [apply limit_for_ceiling | apply ceiling_le]; apply Hi1).
    rewrite <- Hact, Heq. unfold admission_limit in Hle.
    destruct (fixed_per_client p1) eqn:Hfx; [split; [done|]|].
    + intros ->. simpl in Hf. congruence.
    + case_match eqn:Hbr; simplify_bools.
      * split; [by etrans|]. intros _. right. simpl in *. lia.
      * split; [done|]. intros _. left. lia.
Qed.

(** a derived share is never above the budget nor below the floor of
    sixty-four (or the budget, when that is smaller); it shrinks as clients
    come; and while the floor does not bind, the shares of all the clients
    together fit in the budget. *)
Theorem shares_fit_budget p n m :
  (1 <= p.(global_limit))%N -> p.(fixed_per_client) = None -> (n <= m)%N ->
  (N.min 64 p.(global_limit) <= limit_for p n <= p.(global_limit))%N
  /\ (limit_for p m <= limit_for p n)%N
  /\ ((1 <= n)%N -> (n * N.min 64 p.(global_limit) <= p.(global_limit))%N ->
      (n * limit_for p n <= p.(global_limit))%N).
Proof.
  intros Hg Hf Hnm. unfold limit_for. rewrite Hf. unfold clamp, MIN_CLIENT_SHARE.
  set (G := global_limit p) in *.
  assert (G / N.max m 1 <= G / N.max n 1)%N by (apply N.div_le_compat_l; lia).
  split; [lia|]. split; [lia|]. intros Hn Hfit.
  replace (N.max n 1) with n by lia.
  pose proof (N.Div0.mul_div_le G n).
  destruct (N.max_spec (N.min 64 G) (G / n)) as [[_ ->]|[_ ->]];
    (etrans; [apply N.mul_le_mono_l, N.le_min_r|]); lia.
Qed.

(** ** Two clients on a budget of three *)

Definition client_a : IpAddr := IpAddr_V4 1.
Definition client_b : IpAddr := IpAddr_V4 2.

Definition acquire (s : Sys) (client : IpAddr) (now : N) : Sys :=
  let '(p, res) := try_acquire s.(permits) client now in after res p client s.(slots) s.(globals).

Lemma acquire_steps s client now :
  s.(phase) = Idle -> rtc step s (acquire s client now) /\ (acquire s client now).(phase) = Idle.
Proof.
  destruct s as [p ph sl g]. simpl. intros ->. unfold acquire. simpl.
  destruct (try_acquire p client now) as [p' res] eqn:Ht.
  split; [by eapply try_acquire_steps|done].
Qed.

(** A client takes two of the three permits, then another takes the last. *)
Definition busy_sys : Sys :=
  acquire (acquire (acquire (start 3 None 0) client_a 1) client_a 2) client_b 3.

Lemma busy_reachable : reachable 3 None 0 busy_sys.
Proof.
  destruct (acquire_steps (start 3 None 0) client_a 1 eq_refl) as [H1 P1].
  destruct (acquire_steps _ client_a 2 P1) as [H2 P2].
  destruct (acquire_steps _ client_b 3 P2) as [H3 _].
  unfold reachable, busy_sys. etrans; [exact H1|]. etrans; [exact H2|]. exact H3.
Qed.

Lemma permits_conserved_witness :
  held client_a busy_sys.(slots) = 2%N /\ busy_sys.(globals) = 3%N
  /\ (busy_sys.(permits).(available_permits) + busy_sys.(globals) = N.max 3 1)%N.
Proof.
  split; [vm_compute; reflexivity|]. split; [vm_compute; reflexivity|].
  apply (permits_conserved 3 None 0 busy_sys); [vm_compute; discriminate | exact busy_reachable].
Defined.

Lemma refusals_have_cause_witness :
  (try_acquire busy_sys.(permits) client_b 4).2 = Err GlobalLimit
  /\ available_permits busy_sys.(permits) = 0%N.
Proof.
  split; [vm_compute; reflexivity|].
  refine (proj1 (proj2 (refusals_have_cause 3 None 0 busy_sys.(permits) busy_sys.(slots)
    busy_sys.(globals) client_b 4 _ (Err GlobalLimit) _ busy_reachable _))).
  - vm_compute; discriminate.
  - reflexivity.
Defined.

Lemma shares_fit_budget_witness : (4 * limit_for (new 512 None 0) 4 <= 512)%N.
Proof.
  apply (shares_fit_budget (new 512 None 0) 4 4); try done; vm_compute; discriminate.
Defined.
