(* ===== verification/DnsHealth.v ===== *)
(** The debounced verdict on resolution ([DnsHealthState], src/src/dns.rs):
    the fold of one query's outcome, and what each change of the verdict says
    about the outcomes before it. *)

From S2P Require Import Prelude RustStr.

Inductive DebouncedStatus : Type := Unknown | Healthy | Degraded.
Inductive Failure : Type := Upstream | Admission.

#[export] Instance DebouncedStatus_eq_dec : EqDecision DebouncedStatus.
Proof. solve_decision. Defined.
#[export] Instance Failure_eq_dec : EqDecision Failure.
Proof. solve_decision. Defined.

Record Verdict : Type := { v_status : DebouncedStatus; v_cause : option Failure }.

Definition DEGRADED_DWELL : N := from_secs 60.
Definition RECOVERY_WINDOW : N := 128.
Definition RECOVERY_MIN_SAMPLES : N := 32.
Definition RECOVERY_FAILURE_RATIO : N := 8.
Definition HEALTH_REPUBLISH_INTERVAL : N := from_secs 30.

Record DnsHealthState : Type := {
  status : DebouncedStatus;
  consecutive_failures : N;
  consecutive_successes : N;
  failure_threshold : N;
  success_threshold : N;
  recent : N;                        (* a u128 *)
  recent_len : N;
  degraded_cause : option Failure;
  degraded_since : option N;
  published_at : option N;
}.

Definition new (failure_threshold success_threshold : N) : DnsHealthState :=
  {| status := Unknown; consecutive_failures := 0; consecutive_successes := 0;
     failure_threshold := failure_threshold; success_threshold := success_threshold;
     recent := 0; recent_len := 0; degraded_cause := None; degraded_since := None;
     published_at := None |}.

Fixpoint pos_ones (p : positive) : N :=
  match p with xH => 1 | xO p => pos_ones p | xI p => 1 + pos_ones p end.
Definition count_ones (n : N) : N := match n with N0 => 0 | Npos p => pos_ones p end.

Definition bit (b : bool) : N := if b then 1 else 0.

Definition is_failure (f : option Failure) : bool :=
  match f with Some _ => true | None => false end.

Definition trouble_has_passed (s : DnsHealthState) : bool :=
  (RECOVERY_MIN_SAMPLES <=? s.(recent_len))%N
  && (count_ones s.(recent) * RECOVERY_FAILURE_RATIO <=? s.(recent_len))%N.

Definition degraded_for (s : DnsHealthState) (now : N) : N :=
  from_option (saturating_duration_since now) 0%N s.(degraded_since).

Definition enter (s : DnsHealthState) (st : DebouncedStatus) (cause : option Failure) (now : N)
    : DnsHealthState * option Verdict :=
  ({| status := st; consecutive_failures := s.(consecutive_failures);
      consecutive_successes := s.(consecutive_successes);
      failure_threshold := s.(failure_threshold); success_threshold := s.(success_threshold);
      recent := s.(recent); recent_len := s.(recent_len);
      degraded_cause := cause;
      degraded_since := if decide (st = Degraded) then Some now else None;
      published_at := Some now |},
   Some {| v_status := st; v_cause := cause |}).

Definition reaffirm (s : DnsHealthState) (now : N) : DnsHealthState * option Verdict :=
  if decide (s.(status) = Unknown) then (s, None)
  else
    let published :=
      ({| status := s.(status); consecutive_failures := s.(consecutive_failures);
          consecutive_successes := s.(consecutive_successes);
          failure_threshold := s.(failure_threshold); success_threshold := s.(success_threshold);
          recent := s.(recent); recent_len := s.(recent_len);
          degraded_cause := s.(degraded_cause); degraded_since := s.(degraded_since);
          published_at := Some now |},
       Some {| v_status := s.(status); v_cause := s.(degraded_cause) |}) in
    match s.(published_at) with
    | Some at_ =>
        if (saturating_duration_since now at_ <? HEALTH_REPUBLISH_INTERVAL)%N then (s, None)
        else published
    | None => published
    end.

(** The counters, before the verdict is looked at. *)
Definition observe (s : DnsHealthState) (failure : option Failure) : DnsHealthState :=
  {| status := s.(status);
     consecutive_failures :=
       if is_failure failure then saturating_add u32_MAX s.(consecutive_failures) 1 else 0;
     consecutive_successes :=
       if is_failure failure then 0 else saturating_add u32_MAX s.(consecutive_successes) 1;
     failure_threshold := s.(failure_threshold); success_threshold := s.(success_threshold);
     recent := N.lor (N.shiftl s.(recent) 1 mod 2 ^ 128) (bit (is_failure failure));
     recent_len := N.min (saturating_add u32_MAX s.(recent_len) 1) RECOVERY_WINDOW;
     degraded_cause := s.(degraded_cause); degraded_since := s.(degraded_since);
     published_at := s.(published_at) |}%N.

Definition record (s : DnsHealthState) (failure : option Failure) (now : N)
    : DnsHealthState * option Verdict :=
  let s := observe s failure in
  match failure with
  | None =>
      match s.(status) with
      | Unknown => enter s Healthy None now
      | Degraded =>
          if (s.(success_threshold) <=? s.(consecutive_successes))%N
             && trouble_has_passed s && (DEGRADED_DWELL <=? degraded_for s now)%N
          then enter s Healthy None now
          else reaffirm s now
      | Healthy => reaffirm s now
      end
  | Some cause =>
      match s.(status) with
      | Unknown | Healthy =>
          if (s.(failure_threshold) <=? s.(consecutive_failures))%N
          then enter s Degraded (Some cause) now
          else reaffirm s now
      | Degraded => reaffirm s now
      end
  end.

(** ** Histories *)

(** An outcome and when it was recorded; a history is newest first. *)
Notation Event := (option Failure * N)%type (only parsing).

Definition run (ft st : N) (history : list Event) : DnsHealthState :=
  foldr (fun e s => (record s e.1 e.2).1) (new ft st) history.

(** How many of the latest outcomes are failures, or successes. *)
Fixpoint trailing (failing : bool) (history : list Event) : N :=
  match history with
  | [] => 0
  | e :: h => if eqb (is_failure e.1) failing then 1 + trailing failing h else 0
  end%N.

(** The failures among the latest [n] outcomes. *)
Definition failures_in (n : nat) (history : list Event) : N :=
  N.of_nat (length (List.filter (fun e : Event => is_failure e.1) (firstn n history))).

(** The window as a machine word, the newest outcome in the low bit. *)
Fixpoint bits (l : list bool) : N :=
  match l with [] => 0 | b :: l => 2 * bits l + bit b end%N.

(** The verdict in force, and the event that brought the degraded one. *)
Record consistent (ft st : N) (h : list Event) (s : DnsHealthState) : Prop := {
  c_ft : s.(failure_threshold) = ft;
  c_st : s.(success_threshold) = st;
  c_failures : s.(consecutive_failures) = N.min u32_MAX (trailing true h);
  c_successes : s.(consecutive_successes) = N.min u32_MAX (trailing false h);
  c_len : s.(recent_len) = N.min 128 (N.of_nat (length h));
  c_recent : s.(recent) = bits (firstn 128 (map (fun e => is_failure e.1) h));
  c_degraded : s.(status) = Degraded ->
    exists newer cause since older, h = newer ++ (Some cause, since) :: older
      /\ s.(degraded_since) = Some since /\ s.(degraded_cause) = Some cause;
  c_not_degraded : s.(status) <> Degraded -> s.(degraded_cause) = None;
}.

(** ** The window *)

Lemma count_ones_double x b : count_ones (2 * x + bit b) = (count_ones x + bit b)%N.
Proof.
  destruct x as [|p], b; try reflexivity.
  - change (1 + pos_ones p = pos_ones p + 1)%N. lia.
  - change (pos_ones p = pos_ones p + 0)%N. lia.
Qed.

Lemma count_ones_bits l : count_ones (bits l) = N.of_nat (length (List.filter id l)).
Proof.
  induction l as [|b l IH]; [done|].
  cbn [bits]. rewrite count_ones_double, IH. destruct b; simpl; lia.
Qed.

Lemma bits_firstn n l : bits (firstn n l) = (bits l mod 2 ^ N.of_nat n)%N.
Proof.
  revert l; induction n as [|n IH]; intros l; [by rewrite N.mod_1_r|].
  destruct l as [|b l]; [by rewrite N.Div0.mod_0_l|].
  cbn [firstn bits]. rewrite IH, Nat2N.inj_succ, N.pow_succ_r'.
  assert (2 ^ N.of_nat n <> 0)%N by (by apply N.pow_nonzero).
  pose proof (N.Div0.div_mod (bits l) (2 ^ N.of_nat n)) as Hd.
  pose proof (N.mod_lt (bits l) (2 ^ N.of_nat n) ltac:(done)).
  set (M := (2 ^ N.of_nat n)%N) in *. set (q := (bits l / M)%N) in *.
  apply (N.mod_unique _ _ q); destruct b; simpl bit; nia.
Qed.

Lemma lor_bit x b : N.lor (N.shiftl x 1) (bit b) = (2 * x + bit b)%N.
Proof. by destruct x, b. Qed.

(** [recent] is the window of the last 128 outcomes. *)
Lemma shift_window l b :
  N.lor (N.shiftl (bits (firstn 128 l)) 1 mod 2 ^ 128) (bit b) = bits (firstn 128 (b :: l)).
Proof.
  rewrite !bits_firstn. change (N.of_nat 128) with 128%N. cbn [bits].
  rewrite N.shiftl_mul_pow2. change (2 ^ 1)%N with 2%N.
  rewrite N.Div0.mul_mod_idemp_l.
  assert (bits l * 2 mod 2 ^ 128 = 2 * (bits l mod 2 ^ 127))%N as ->.
  { rewrite (N.mul_comm (bits l)). change (2 ^ 128)%N with (2 * 2 ^ 127)%N.
    by rewrite N.Div0.mul_mod_distr_l. }
  replace (2 * (bits l mod 2 ^ 127))%N with (N.shiftl (bits l mod 2 ^ 127) 1)
    by (rewrite N.shiftl_mul_pow2; change (2 ^ 1)%N with 2%N; lia).
  rewrite lor_bit.
  pose proof (N.Div0.div_mod (bits l) (2 ^ 127)) as Hd.
  pose proof (N.mod_lt (bits l) (2 ^ 127) ltac:(done)).
  change (2 ^ 128)%N with (2 * 2 ^ 127)%N.
  apply (N.mod_unique _ _ (bits l / 2 ^ 127)); destruct b; simpl bit; lia.
Qed.

Lemma window_failures h :
  count_ones (bits (firstn 128 (map (fun e : Event => is_failure e.1) h))) = failures_in 128 h.
Proof.
  rewrite count_ones_bits. unfold failures_in. f_equal. rewrite firstn_map.
  induction (firstn 128 h) as [|e l IH]; [done|]. simpl. destruct (is_failure e.1); simpl; lia.
Qed.

(** ** The state follows the history *)

Lemma observe_consistent ft st h s f now :
  consistent ft st h s -> consistent ft st ((f, now) :: h) (observe s f).
Proof.
  intros [Hft Hst Hf Hs Hl Hr Hd Hn]. split; simpl; try done.
  - rewrite Hf. unfold saturating_add. destruct (is_failure f); simpl; lia.
  - rewrite Hs. unfold saturating_add. destruct (is_failure f); simpl; lia.
  - rewrite Hl. unfold saturating_add, u32_MAX, RECOVERY_WINDOW. lia.
  - rewrite Hr. apply (shift_window (map (fun e : Event => is_failure e.1) h)).
  - intros Hdeg. destruct (Hd Hdeg) as (newer & cause & since & older & -> & ? & ?).
    by exists ((f, now) :: newer), cause, since, older.
Qed.

Lemma reaffirm_fields s now :
  let s' := (reaffirm s now).1 in
  s'.(status) = s.(status) /\ s'.(degraded_cause) = s.(degraded_cause)
  /\ s'.(degraded_since) = s.(degraded_since).
Proof. unfold reaffirm. by repeat case_match. Qed.

Lemma reaffirm_consistent ft st h s now :
  consistent ft st h s -> consistent ft st h (reaffirm s now).1.
Proof.
  intros [? ? ? ? ? ? ? ?]. unfold reaffirm. case_decide; [done|].
  case_match; [case_match|]; by split.
Qed.

Lemma record_consistent ft st h s f now :
  consistent ft st h s -> consistent ft st ((f, now) :: h) (record s f now).1.
Proof.
  intros Hc%(observe_consistent _ _ _ _ f now). unfold record.
  destruct f as [cause|], (status (observe s _)) eqn:Hst;
    try case_match; try (by apply reaffirm_consistent); destruct Hc; split; simpl; try done.
  - intros _. by exists [], cause, now, h.
  - intros _. by exists [], cause, now, h.
Qed.

Lemma run_consistent ft st h : consistent ft st h (run ft st h).
Proof.
  induction h as [|[f now] h IH]; [|by apply record_consistent].
  split; simpl; try done. 
Qed.

(** ** What a verdict means *)

Lemma reaffirm_quiet s now s' v :
  reaffirm s now = (s', v) ->
  s'.(status) = s.(status)
  /\ (is_Some v -> s.(status) <> Unknown
      /\ v = Some {| v_status := s.(status); v_cause := s.(degraded_cause) |}
      /\ forall at_, s.(published_at) = Some at_ ->
           (HEALTH_REPUBLISH_INTERVAL <= saturating_duration_since now at_)%N).
Proof.
  unfold reaffirm. case_decide; [intros [= <- <-]; split; [done|by intros [? [=]]]|].
  destruct (published_at s) as [at_|] eqn:Hp; [case_match eqn:Hlt|]; intros [= <- <-];
    (split; [done|]); intros Hv; try (by destruct Hv); (split; [done|]); (split; [done|]);
    intros at' Hat; simplify_eq; simplify_bools; done.
Qed.

(** The branches of [record]. *)
Lemma record_cases s f now s' v :
  record s f now = (s', v) ->
  reaffirm (observe s f) now = (s', v)
  \/ (exists c, f = Some c /\ s.(status) <> Degraded
       /\ (s.(failure_threshold) <= (observe s f).(consecutive_failures))%N
       /\ enter (observe s f) Degraded (Some c) now = (s', v))
  \/ (f = None /\ s.(status) = Unknown /\ enter (observe s f) Healthy None now = (s', v))
  \/ (f = None /\ s.(status) = Degraded
       /\ (s.(success_threshold) <= (observe s f).(consecutive_successes))%N
       /\ trouble_has_passed (observe s f) = true
       /\ (DEGRADED_DWELL <= degraded_for s now)%N
       /\ enter (observe s f) Healthy None now = (s', v)).
Proof.
  unfold record. change (status (observe s f)) with (status s).
  destruct f as [c|], (status s) eqn:Hst; try case_match eqn:Hb; auto; intros He.
  1, 2: right; left; exists c; simplify_bools; by split_and!.
  - right; right; left. done.
  - right; right; right. simplify_bools. by split_and!.
Qed.

(** whatever happened before, the verdict turns degraded only on a failure,
    whose cause it takes, when the latest outcomes are failures as many as the
    threshold asks; it turns healthy on the first answer ever, or on an answer
    that ends a degraded episode of at least sixty seconds, with as many
    successes in a row as asked and at least thirty-two outcomes known, of
    which, among the last hundred and twenty-eight, at most one in eight
    failed.  A verdict that does not change is published with the cause the
    episode began with, thirty seconds or more after the last time. *)
Theorem verdict_meaning ft st h f now s' v :
  record (run ft st h) f now = (s', v) ->
  let h' := (f, now) :: h in
  let s := run ft st h in
  (s'.(status) <> s.(status) ->
   v = Some {| v_status := s'.(status); v_cause := f |}
   /\ match s'.(status) with
      | Degraded => is_Some f /\ (ft <= trailing true h')%N
      | Healthy =>
          f = None /\ (s.(status) = Unknown
          \/ s.(status) = Degraded /\ (st <= trailing false h')%N
             /\ (32 <= N.of_nat (length h'))%N
             /\ (failures_in 128 h' * 8 <= N.min 128 (N.of_nat (length h')))%N
             /\ exists newer cause since older, h = newer ++ (Some cause, since) :: older
                  /\ s.(degraded_since) = Some since /\ (since + from_secs 60 <= now)%N)
      | Unknown => False
      end)
  /\ (s'.(status) = s.(status) -> is_Some v ->
      v = Some {| v_status := s.(status); v_cause := s.(degraded_cause) |}
      /\ forall at_, s.(published_at) = Some at_ -> (at_ + from_secs 30 <= now)%N).
Proof.
  intros Hrec h' s. subst s. pose proof (run_consistent ft st h) as Hc.
  set (s := run ft st h) in *. clearbody s.
  pose proof (observe_consistent ft st h s f now Hc) as [Ho_ft Ho_st Hof Hos Hol Hor _ _].
  fold h' in Hof, Hos, Hol, Hor.
  destruct (record_cases _ _ _ _ _ Hrec) as
    [Hq|[(c & -> & Hnd & Hth & [= <- <-])|[(-> & Hu & [= <- <-])|
        (-> & Hd & Hth & Hpass & Hdw & [= <- <-])]]]; cbn [status].
  - apply reaffirm_quiet in Hq as [Hs Hv]. change (status (observe s f)) with (status s) in *.
    split; [intros Hne; by destruct (Hne Hs)|]. intros _ Hsome.
    destruct (Hv Hsome) as (_ & -> & Hat). split; [done|]. intros at_ Hp. specialize (Hat _ Hp).
    unfold saturating_duration_since, saturating_sub, HEALTH_REPUBLISH_INTERVAL, from_secs,
      NANOS_PER_SEC in *. lia.
  - split; [|intros Heq; by destruct Hnd]. intros _. split; [done|]. split; [eauto|].
    change (failure_threshold (observe s (Some c))) with (failure_threshold s) in Ho_ft. lia.
  - split; [|intros Heq; rewrite Hu in Heq; discriminate]. auto.
  - split; [|intros Heq; rewrite Hd in Heq; discriminate]. intros _. split; [done|]. split; [done|]. right. split; [done|].
    change (success_threshold (observe s None)) with (success_threshold s) in Ho_st.
    destruct (c_degraded _ _ _ _ Hc Hd) as (newer & cause & since & older & Hh & Hsince & _).
    unfold trouble_has_passed in Hpass. rewrite Hor, window_failures, Hol in Hpass.
    unfold degraded_for in Hdw. rewrite Hsince in Hdw. simpl in Hdw.
    unfold RECOVERY_MIN_SAMPLES, RECOVERY_FAILURE_RATIO, DEGRADED_DWELL,
      saturating_duration_since, saturating_sub, from_secs, NANOS_PER_SEC in *.
    simplify_bools. split; [lia|]. split; [lia|]. split; [lia|].
    exists newer, cause, since, older. split_and!; [done|done|lia].
Qed.

Lemma verdict_meaning_witness :
  exists s', record (run 3 2 [(Some Upstream, 2%N); (Some Upstream, 1%N)]) (Some Admission) 3
             = (s', Some {| v_status := Degraded; v_cause := Some Admission |})
  /\ (3 <= trailing true [(Some Admission, 3%N); (Some Upstream, 2%N); (Some Upstream, 1%N)])%N.
Proof.
  eexists. split; [reflexivity|].
  refine (proj2 (proj2 (proj1 (verdict_meaning 3 2 [(Some Upstream, 2%N); (Some Upstream, 1%N)]
    (Some Admission) 3 _ _ (eq_refl _)) _))).
  discriminate.
Defined.

(** ** Recovery *)

Lemma success_outcome s now :
  s.(status) = Healthy -> (record s None now).1.(status) = Healthy.
Proof.
  intros Hs. unfold record. change (status (observe s None)) with (status s). rewrite Hs.
  by destruct (reaffirm_fields (observe s None) now) as (-> & _).
Qed.

Lemma success_degraded s now since :
  s.(status) = Degraded -> s.(degraded_since) = Some since ->
  (record s None now).1.(status) = Healthy
  \/ ((record s None now).1.(status) = Degraded /\ (record s None now).1.(degraded_since) = Some since).
Proof.
  intros Hs Hd. unfold record. change (status (observe s None)) with (status s). rewrite Hs.
  case_match; [by left|right].
  by destruct (reaffirm_fields (observe s None) now) as (-> & _ & ->).
Qed.

Lemma successes_degraded ft st h ok since :
  (run ft st h).(status) = Degraded -> (run ft st h).(degraded_since) = Some since ->
  Forall (fun e : Event => e.1 = None) ok ->
  (run ft st (ok ++ h)).(status) = Healthy
  \/ ((run ft st (ok ++ h)).(status) = Degraded /\ (run ft st (ok ++ h)).(degraded_since) = Some since).
Proof.
  intros Hs Hd. induction 1 as [|[f now] ok Hf _ IH]; [by right|].
  simpl in Hf. subst f. simpl. destruct IH as [IH|[IH1 IH2]].
  - left. by apply success_outcome.
  - by apply success_degraded.
Qed.

Lemma trailing_successes ok h :
  Forall (fun e : Event => e.1 = None) ok -> (N.of_nat (length ok) <= trailing false (ok ++ h))%N.
Proof. induction 1 as [|[f now] ok Hf _ IH]; simpl in *; [lia|]. rewrite Hf. simpl. lia. Qed.

Lemma failures_in_successes ok h :
  Forall (fun e : Event => e.1 = None) ok -> (128 <= length ok)%nat ->
  failures_in 128 (ok ++ h) = 0%N.
Proof.
  intros Hok Hlen. unfold failures_in. rewrite firstn_app.
  replace (128 - length ok)%nat with 0%nat by lia. rewrite firstn_O, app_nil_r.
  assert (Forall (fun e : Event => e.1 = None) (firstn 128 ok)) as Hall by (by apply Forall_take).
  induction Hall as [|[f now] l Hf _ IH]; [done|]. simpl in *. by rewrite Hf.
Qed.

(** a degraded verdict does not outlive the trouble: once a hundred and
    twenty-eight answers in a row (or as many as the threshold asks, if more)
    have come and the latest is sixty seconds or more after the episode began,
    the verdict is healthy. *)
Theorem recovers ft st h since ok now :
  (st <= u32_MAX)%N ->
  (run ft st h).(status) = Degraded -> (run ft st h).(degraded_since) = Some since ->
  Forall (fun e : Event => e.1 = None) ok ->
  (128 <= S (length ok))%nat -> (st <= N.of_nat (S (length ok)))%N ->
  (since + from_secs 60 <= now)%N ->
  (run ft st ((None, now) :: ok ++ h)).(status) = Healthy.
Proof.
  intros Hst Hs Hd Hok Hlen Hthr Hdw.
  change (run ft st ((None, now) :: ok ++ h)) with (record (run ft st (ok ++ h)) None now).1.
  destruct (successes_degraded _ _ _ _ _ Hs Hd Hok) as [Hh|[Hs' Hd']]; [by apply success_outcome|].
  pose proof (observe_consistent _ _ _ _ None now (run_consistent ft st (ok ++ h)))
    as [_ Ho_st _ Hos Hol Hor _ _].
  set (s := run ft st (ok ++ h)) in *. clearbody s. unfold record.
  change (status (observe s None)) with (status s). rewrite Hs'.
  assert (Forall (fun e : Event => e.1 = None) ((None, now) :: ok)) as Hok' by (by constructor).
  assert ((success_threshold (observe s None) <=? consecutive_successes (observe s None))%N = true) as ->.
  { apply N.leb_le. rewrite Ho_st, Hos.
    pose proof (trailing_successes _ h Hok') as Ht. cbn [app length] in Ht. lia. }
  assert (trouble_has_passed (observe s None) = true) as ->.
  { unfold trouble_has_passed. rewrite Hor, window_failures, Hol.
    change ((None, now) :: ok ++ h) with (((None, now) :: ok) ++ h).
    rewrite failures_in_successes by done. rewrite length_app. cbn [length].
    unfold RECOVERY_MIN_SAMPLES. apply andb_true_iff. rewrite !N.leb_le. lia. }
  assert ((DEGRADED_DWELL <=? degraded_for (observe s None) now)%N = true) as ->; [|done].
  unfold degraded_for. cbn [observe degraded_since]. rewrite Hd'. apply N.leb_le. simpl.
  unfold DEGRADED_DWELL, saturating_duration_since, saturating_sub, from_secs, NANOS_PER_SEC in *.
  lia.
Qed.

Lemma recovers_witness :
  let h := [(Some Upstream, 2%N); (Some Upstream, 1%N); (Some Upstream, 0%N)] in
  (run 3 2 ((None, from_secs 61) :: replicate 127 (None, 5%N) ++ h)).(status) = Healthy.
Proof.
  apply (recovers 3 2 _ 2 (replicate 127 (None, 5%N))).
  - discriminate.
  - reflexivity.
  - reflexivity.
  - by apply Forall_replicate.
  - rewrite length_replicate. lia.
  - rewrite length_replicate. discriminate.
  - discriminate.
Defined.
