(* ===== verification/DnsForward.v ===== *)
(** The forwarder (src/src/dns.rs): the retry ladder of one query and what a
    client is answered.

    The network is an oracle that gives the outcome of each upstream exchange;
    an error is its display. *)

From S2P Require Import Prelude RustStr Net DnsMessage.
From S2P Require DnsCache LocalZone DnsAdmission DnsHealth.

Definition MAX_DNS_MESSAGE : N := 65535.
Notation Bytes := (list N) (only parsing).
Notation Error := string (only parsing).

(** ** Checks on the wire *)

Definition validate_dns_message (message : Bytes) : Result unit Error :=
  ensure (negb ((length message <? 12)%nat || (MAX_DNS_MESSAGE <? N.of_nat (length message))%N))
    "malformed DNS message length".

Definition byte_at (l : Bytes) (i : nat) : N := default 0%N (l !! i).

Definition validate_response (query response : Bytes) : Result unit Error :=
  let? _ := validate_dns_message response in
  let? _ := ensure (bool_decide (firstn 2 response = firstn 2 query))
              "DNS response transaction ID mismatch" in
  ensure (negb (N.land (byte_at response 2) 128 =? 0)%N) "DNS response bit is not set".

Definition is_truncated (message : Bytes) : Result bool Error :=
  let? _ := validate_dns_message message in
  Ok (negb (N.land (byte_at message 2) 2 =? 0)%N).

(** ** Upstream exchanges *)

(** What comes back from the wire: the socket, the send or the receive fails
    or times out, or there is a datagram; over TCP, a length and the bytes that
    followed it. *)
Inductive Wire : Type :=
| WireError (error : Error)
| WireReply (message : Bytes).

Record Network : Type := {
  udp_wire : nat -> Wire;            (* by attempt, from one *)
  tcp_wire : Wire;
}.

Definition udp_exchange (net : Network) (query : Bytes) (attempt : nat) : Result Bytes Error :=
  match net.(udp_wire) attempt with
  | WireError e => Err e
  | WireReply message =>
      let response := firstn (N.to_nat MAX_DNS_MESSAGE) message in
      let? _ := validate_response query response in Ok response
  end.

Definition read_tcp_message (wire : Wire) : Result Bytes Error :=
  match wire with
  | WireError e => Err e
  | WireReply message =>
      let? _ := ensure ((12 <=? length message)%nat && (N.of_nat (length message) <=? MAX_DNS_MESSAGE)%N)
                  "invalid DNS TCP message length" in
      Ok message
  end.

Definition tcp_exchange (net : Network) (query : Bytes) : Result Bytes Error :=
  let? _ := validate_dns_message query in
  let? response := read_tcp_message net.(tcp_wire) in
  let? _ := validate_response query response in
  Ok response.

(** ** The retry ladder *)

Record ForwardResult : Type := {
  fr_response : Bytes;
  fr_tcp_used : bool;
  fr_udp_succeeded : bool;
  fr_failed_udp_attempts : nat;
}.

(** The process-wide counters, and how often [leaving_udp] was called. *)
Record Metrics : Type := {
  UDP_ATTEMPTS : nat;
  UDP_TIMEOUTS : nat;
  UDP_EXHAUSTED : nat;
  TCP_FALLBACKS : nat;
  TCP_FALLBACK_SUCCESSES : nat;
  leaving_udp : nat;
}.

Definition no_metrics : Metrics :=
  {| UDP_ATTEMPTS := 0; UDP_TIMEOUTS := 0; UDP_EXHAUSTED := 0; TCP_FALLBACKS := 0;
     TCP_FALLBACK_SUCCESSES := 0; leaving_udp := 0 |}.

Definition attempted (m : Metrics) : Metrics :=
  {| UDP_ATTEMPTS := S m.(UDP_ATTEMPTS); UDP_TIMEOUTS := m.(UDP_TIMEOUTS);
     UDP_EXHAUSTED := m.(UDP_EXHAUSTED); TCP_FALLBACKS := m.(TCP_FALLBACKS);
     TCP_FALLBACK_SUCCESSES := m.(TCP_FALLBACK_SUCCESSES); leaving_udp := m.(leaving_udp) |}.

Definition failed (m : Metrics) (error : Error) : Metrics :=
  {| UDP_ATTEMPTS := m.(UDP_ATTEMPTS);
     UDP_TIMEOUTS := if str_contains error "timed out" then S m.(UDP_TIMEOUTS) else m.(UDP_TIMEOUTS);
     UDP_EXHAUSTED := m.(UDP_EXHAUSTED); TCP_FALLBACKS := m.(TCP_FALLBACKS);
     TCP_FALLBACK_SUCCESSES := m.(TCP_FALLBACK_SUCCESSES); leaving_udp := m.(leaving_udp) |}.

Definition exhausted (m : Metrics) : Metrics :=
  {| UDP_ATTEMPTS := m.(UDP_ATTEMPTS); UDP_TIMEOUTS := m.(UDP_TIMEOUTS);
     UDP_EXHAUSTED := S m.(UDP_EXHAUSTED); TCP_FALLBACKS := m.(TCP_FALLBACKS);
     TCP_FALLBACK_SUCCESSES := m.(TCP_FALLBACK_SUCCESSES); leaving_udp := m.(leaving_udp) |}.

(** [leaving_udp(); TCP_FALLBACKS += 1] *)
Definition leave_udp (m : Metrics) : Metrics :=
  {| UDP_ATTEMPTS := m.(UDP_ATTEMPTS); UDP_TIMEOUTS := m.(UDP_TIMEOUTS);
     UDP_EXHAUSTED := m.(UDP_EXHAUSTED); TCP_FALLBACKS := S m.(TCP_FALLBACKS);
     TCP_FALLBACK_SUCCESSES := m.(TCP_FALLBACK_SUCCESSES); leaving_udp := S m.(leaving_udp) |}.

Definition fallback_succeeded (m : Metrics) : Metrics :=
  {| UDP_ATTEMPTS := m.(UDP_ATTEMPTS); UDP_TIMEOUTS := m.(UDP_TIMEOUTS);
     UDP_EXHAUSTED := m.(UDP_EXHAUSTED); TCP_FALLBACKS := m.(TCP_FALLBACKS);
     TCP_FALLBACK_SUCCESSES := S m.(TCP_FALLBACK_SUCCESSES); leaving_udp := m.(leaving_udp) |}.

(** After the loop: TCP is the last rung. *)
Definition after_udp (net : Network) (query : Bytes) (m : Metrics) (failed_udp_attempts : nat)
    (last_error : option Error) : Metrics * Result ForwardResult Error :=
  let m := leave_udp (exhausted m) in
  match tcp_exchange net query with
  | Ok response =>
      (fallback_succeeded m,
       Ok {| fr_response := response; fr_tcp_used := true; fr_udp_succeeded := false;
             fr_failed_udp_attempts := failed_udp_attempts |})
  | Err _ =>
      (m, Err ("DNS upstream UDP attempts exhausted: "
               +:+ default "unknown UDP failure" last_error))
  end.

(** The loop, with [remaining] attempts to go. *)
Fixpoint ladder (net : Network) (query : Bytes) (remaining attempt : nat) (m : Metrics)
    (failed_udp_attempts : nat) (last_error : option Error)
    : Metrics * Result ForwardResult Error :=
  match remaining with
  | O => after_udp net query m failed_udp_attempts last_error
  | S remaining =>
      let m := attempted m in
      match udp_exchange net query attempt with
      | Ok response =>
          match is_truncated response with
          | Err e => (m, Err e)
          | Ok true =>
              let m := leave_udp m in
              match tcp_exchange net query with
              | Err e => (m, Err e)
              | Ok response =>
                  (fallback_succeeded m,
                   Ok {| fr_response := response; fr_tcp_used := true; fr_udp_succeeded := true;
                         fr_failed_udp_attempts := failed_udp_attempts |})
              end
          | Ok false =>
              (m, Ok {| fr_response := response; fr_tcp_used := false; fr_udp_succeeded := true;
                        fr_failed_udp_attempts := failed_udp_attempts |})
          end
      | Err error =>
          ladder net query remaining (S attempt) (failed m error) (S failed_udp_attempts) (Some error)
      end
  end.

Definition forward_query (net : Network) (query : Bytes) (udp_attempts : nat)
    : Metrics * Result ForwardResult Error :=
  match validate_dns_message query with
  | Err e => (no_metrics, Err e)
  | Ok _ => ladder net query udp_attempts 1 no_metrics 0 None
  end.

(** ** Answering with nothing but a code *)

Section Forwarder.
Context {hickory : Hickory}.

Definition rcode_message (request : Message) (code : ResponseCode) : Message :=
  let response := message_response (md_id (metadata request)) (md_op_code (metadata request)) in
  let md := metadata response in
  let response := with_metadata response
    {| md_id := md_id md; md_message_type := md_message_type md; md_op_code := md_op_code md;
       md_authoritative := md_authoritative md; md_truncation := md_truncation md;
       md_recursion_desired := md_recursion_desired (metadata request);
       md_recursion_available := true; md_response_code := code |} in
  with_sections response (queries request) (answers response) (authorities response)
    (match edns request with Some e => Some e | None => edns response end).

Definition rcode_response (query : Bytes) (code : ResponseCode) : option Bytes :=
  request ← from_vec query;
  if negb (bool_decide (md_message_type (metadata request) = Query)) then None
  else to_vec (rcode_message request code).

(** ** One UDP query *)

Record Settings : Type := {
  udp_attempts : nat;
  local_zones_enabled : bool;
  has_publisher : bool;
}.

(** What the handlers share. *)
Record State : Type := {
  cache : option DnsCache.DnsCache;
  local_names : gmap string Ipv4Addr;
  upstream : option SocketAddr;
  permits : DnsAdmission.QueryPermits;
  health : DnsHealth.DnsHealthState;
}.

Definition with_cache (st : State) (c : option DnsCache.DnsCache) : State :=
  {| cache := c; local_names := st.(local_names); upstream := st.(upstream);
     permits := st.(permits); health := st.(health) |}.
Definition with_permits (st : State) (p : DnsAdmission.QueryPermits) : State :=
  {| cache := st.(cache); local_names := st.(local_names); upstream := st.(upstream);
     permits := p; health := st.(health) |}.

Definition local_answer (settings : Settings) (st : State) (query : Bytes) : option Bytes :=
  if settings.(local_zones_enabled) then LocalZone.answer query st.(local_names) else None.

Definition cached_answer (st : State) (query : Bytes) (now : N) : State * option Bytes :=
  match st.(cache), st.(upstream) with
  | Some c, Some up =>
      let '(c, answer) := DnsCache.lookup c query up now in (with_cache st (Some c), answer)
  | _, _ => (st, None)
  end.

Definition remember_answer (iter : gmap DnsCache.Key DnsCache.Entry -> list (DnsCache.Key * DnsCache.Entry))
    (st : State) (query response : Bytes) (up : SocketAddr) (now : N) : State :=
  match st.(cache) with
  | Some c => with_cache st (Some (DnsCache.store iter c query response up now))
  | None => st
  end.

(** The verdict it leaves to publish. *)
Definition observe_resolution_health (settings : Settings) (st : State)
    (failure : option DnsHealth.Failure) (now : N) : State * option DnsHealth.Verdict :=
  if negb settings.(has_publisher) then (st, None)
  else
    let '(h, verdict) := DnsHealth.record st.(health) failure now in
    ({| cache := st.(cache); local_names := st.(local_names); upstream := st.(upstream);
        permits := st.(permits); health := h |}, verdict).

(** What becomes of a datagram in the receiving task. *)
Inductive Disposition : Type :=
| Answered (reply : Bytes)
| Declined (refusal : DnsAdmission.Refusal) (reply : option Bytes)
| Accepted (slot : DnsAdmission.Ref).

Definition receive_udp (settings : Settings) (st : State) (query : Bytes) (client : IpAddr) (now : N)
    : State * Disposition :=
  match local_answer settings st query with
  | Some reply => (st, Answered reply)
  | None =>
      let '(st, cached) := cached_answer st query now in
      match cached with
      | Some reply => (st, Answered reply)
      | None =>
          let '(p, acquired) := DnsAdmission.try_acquire st.(permits) client now in
          let st := with_permits st p in
          match acquired with
          | Ok slot => (st, Accepted slot)
          | Err refusal =>
              let '(st, _) := observe_resolution_health settings st (Some DnsHealth.Admission) now in
              (st, Declined refusal (rcode_response query Refused))
          end
      end
  end.

(** The worker an admitted query is handed to: the reply it sends. *)
Definition worker iter (settings : Settings) (st : State) (net : Network) (query : Bytes) (now : N)
    : State * option Bytes :=
  match st.(upstream) with
  | None =>
      let '(st, _) := observe_resolution_health settings st (Some DnsHealth.Upstream) now in
      (st, rcode_response query ServFail)
  | Some up =>
      match (forward_query net query settings.(udp_attempts)).2 with
      | Ok result =>
          let '(st, _) := observe_resolution_health settings st
            (if result.(fr_udp_succeeded) then None else Some DnsHealth.Upstream) now in
          (remember_answer iter st query result.(fr_response) up now, Some result.(fr_response))
      | Err _ =>
          let '(st, _) := observe_resolution_health settings st (Some DnsHealth.Upstream) now in
          (st, rcode_response query ServFail)
      end
  end.
End Forwarder.

(** * Properties

    What the forwarder promises: which rung of the ladder an answer came from,
    when a query fails, and that no readable query is left unanswered. *)

From S2P Require DnsCache LocalZone DnsAdmission DnsHealth.

Lemma validate_dns_message_ok message u :
  validate_dns_message message = Ok u <->
  (12 <= length message)%nat /\ (N.of_nat (length message) <= 65535)%N.
Proof.
  unfold validate_dns_message, MAX_DNS_MESSAGE. rewrite ensure_Ok, negb_true_iff, orb_false_iff.
  by rewrite Nat.ltb_ge, N.ltb_ge.
Qed.

(** A response a client may be given: of a legal length, of its transaction,
    and with the response bit. *)
Definition valid_response (query response : list N) : Prop :=
  (12 <= length response)%nat /\ (N.of_nat (length response) <= 65535)%N
  /\ firstn 2 response = firstn 2 query /\ N.testbit (byte_at response 2) 7 = true.

Lemma land_128 b : (N.land b 128 =? 0)%N = negb (N.testbit b 7).
Proof.
  destruct (N.eqb_spec (N.land b 128) 0) as [Hz|Hnz].
  - apply (f_equal (fun x => N.testbit x 7)) in Hz. rewrite N.land_spec in Hz.
    change (N.testbit 128 7) with true in Hz. rewrite andb_true_r in Hz. by rewrite Hz.
  - destruct (N.testbit b 7) eqn:Hb; [done|]. exfalso. apply Hnz. apply N.bits_inj. intros i.
    rewrite N.land_spec, N.bits_0. change 128%N with (2 ^ 7)%N. rewrite N.pow2_bits_eqb.
    destruct (N.eqb_spec 7 i) as [<-|]; [by rewrite Hb|apply andb_false_r].
Qed.

Lemma validate_response_ok query response u :
  validate_response query response = Ok u <-> valid_response query response.
Proof.
  unfold validate_response, valid_response. split.
  - intros ([] & [? ?]%validate_dns_message_ok & Hv)%res_bind_Ok.
    apply res_bind_Ok in Hv as ([] & Hid%ensure_Ok & Hbit%ensure_Ok).
    rewrite land_128, negb_involutive in Hbit. by apply bool_decide_eq_true in Hid.
  - intros (H1 & H2 & Hid & Hbit). apply res_bind_Ok. exists tt.
    split; [by apply validate_dns_message_ok|]. apply res_bind_Ok. exists tt.
    rewrite !ensure_Ok, bool_decide_eq_true, land_128, negb_involutive. done.
Qed.

Lemma udp_exchange_ok net query attempt response :
  udp_exchange net query attempt = Ok response -> valid_response query response.
Proof.
  unfold udp_exchange. case_match; [done|]. rewrite res_bind_Ok.
  intros ([] & Hv & [= <-]). by apply validate_response_ok in Hv.
Qed.

Lemma tcp_exchange_ok net query response :
  tcp_exchange net query = Ok response -> valid_response query response.
Proof.
  unfold tcp_exchange. rewrite res_bind_Ok. intros (_ & _ & Ht).
  apply res_bind_Ok in Ht as (r & _ & Ht). apply res_bind_Ok in Ht as ([] & Hv & [= <-]).
  by apply validate_response_ok in Hv.
Qed.

Lemma is_truncated_valid query response :
  valid_response query response -> exists b, is_truncated response = Ok b.
Proof.
  intros (H1 & H2 & _). unfold is_truncated.
  destruct (validate_dns_message response) eqn:Hv; simpl; [eauto|].
  assert (validate_dns_message response = Ok tt) by (by apply validate_dns_message_ok). congruence.
Qed.

(** The rung an answer came from, the attempts before it having failed. *)
Definition rung (net : Network) (query : list N) (n : nat) (r : ForwardResult) : Prop :=
  (forall k, (1 <= k <= r.(fr_failed_udp_attempts))%nat -> exists e, udp_exchange net query k = Err e)
  /\ if r.(fr_udp_succeeded)
     then (r.(fr_failed_udp_attempts) < n)%nat
          /\ exists reply, udp_exchange net query (S r.(fr_failed_udp_attempts)) = Ok reply
             /\ is_truncated reply = Ok r.(fr_tcp_used)
             /\ if r.(fr_tcp_used) then tcp_exchange net query = Ok r.(fr_response)
                else r.(fr_response) = reply
     else r.(fr_failed_udp_attempts) = n /\ r.(fr_tcp_used) = true
          /\ tcp_exchange net query = Ok r.(fr_response).

Ltac counters := cbn [leaving_udp TCP_FALLBACKS UDP_ATTEMPTS leave_udp exhausted fallback_succeeded
  attempted failed fr_response fr_tcp_used fr_udp_succeeded fr_failed_udp_attempts] in *.

(** The loop from its [done]-th failure on. *)
Lemma ladder_spec net query remaining failures m last_error m' res :
  (forall k, (1 <= k <= failures)%nat -> exists e, udp_exchange net query k = Err e) ->
  ladder net query remaining (S failures) m failures last_error = (m', res) ->
  (m'.(UDP_ATTEMPTS) <= m.(UDP_ATTEMPTS) + remaining)%nat
  /\ (m'.(leaving_udp) - m.(leaving_udp) = m'.(TCP_FALLBACKS) - m.(TCP_FALLBACKS))%nat
  /\ (m.(leaving_udp) <= m'.(leaving_udp) <= S m.(leaving_udp))%nat
  /\ match res with
     | Ok r => rung net query (failures + remaining) r
               /\ (m'.(leaving_udp) - m.(leaving_udp) = if r.(fr_tcp_used) then 1 else 0)%nat
     | Err _ => exists e, tcp_exchange net query = Err e
     end.
Proof.
  revert failures m last_error.
  induction remaining as [|remaining IH]; intros failures m last_error Hbefore; cbn [ladder].
  - unfold after_udp. destruct (tcp_exchange net query) as [response|e] eqn:Ht;
      intros [= <- <-]; counters; do 3 (split; [lia|]); [|eauto].
    split; [|lia]. unfold rung; counters. split; [done|]. split_and!; [lia|done|done].
  - destruct (udp_exchange net query (S failures)) as [reply|e] eqn:Hu.
    + destruct (is_truncated_valid _ _ (udp_exchange_ok _ _ _ _ Hu)) as [tr Htr]. rewrite Htr.
      destruct tr; [destruct (tcp_exchange net query) as [response|e] eqn:Ht|];
        intros [= <- <-]; counters; do 3 (split; [lia|]); [| eauto |];
        (split; [|lia]; unfold rung; counters; split; [done|]; split; [lia|]; eauto).
    + intros Hl. apply IH in Hl.
      * counters. destruct Hl as (? & ? & ? & Hres). do 3 (split; [lia|]).
        by replace (failures + S remaining)%nat with (S failures + remaining)%nat by lia.
      * intros k Hk. destruct (decide (k = S failures)) as [->|]; [eauto|]. apply Hbefore. lia.
Qed.

(** An answer of the ladder is a response to the query. *)
Lemma rung_valid net query n r : rung net query n r -> valid_response query r.(fr_response).
Proof.
  intros [_ Hr]. destruct (fr_udp_succeeded r).
  - destruct Hr as (_ & reply & Hu & _ & Hr). destruct (fr_tcp_used r).
    + by eapply tcp_exchange_ok.
    + rewrite Hr. by eapply udp_exchange_ok.
  - destruct Hr as (_ & _ & Hr). by eapply tcp_exchange_ok.
Qed.

Lemma forward_query_valid net query n m r :
  forward_query net query n = (m, Ok r) -> valid_response query r.(fr_response).
Proof.
  unfold forward_query. destruct (validate_dns_message query); [|done].
  intros (_ & _ & _ & Hr & _)%(ladder_spec _ _ _ 0); [|lia]. by eapply rung_valid.
Qed.

(** a query is sent at most [udp_attempts] times over UDP and once over TCP.
    An answer is a response to that query, from the first UDP attempt that got
    one, or from TCP when that one was truncated or all attempts failed; the
    result says which.  The query fails only if it is malformed or TCP, too,
    failed.  The slot is given up exactly when the query goes to TCP. *)
Theorem forward_query_sound net query n m res :
  forward_query net query n = (m, res) ->
  (m.(UDP_ATTEMPTS) <= n)%nat /\ m.(leaving_udp) = m.(TCP_FALLBACKS) /\ (m.(TCP_FALLBACKS) <= 1)%nat
  /\ match res with
     | Ok r => rung net query n r /\ valid_response query r.(fr_response)
               /\ m.(TCP_FALLBACKS) = (if r.(fr_tcp_used) then 1 else 0)%nat
     | Err _ => (forall u, validate_dns_message query <> Ok u)
                \/ exists e, tcp_exchange net query = Err e
     end.
Proof.
  unfold forward_query. destruct (validate_dns_message query) eqn:Hv.
  - intros Hl. apply (ladder_spec _ _ _ 0) in Hl as (? & ? & ? & Hres); [|lia].
    cbn [no_metrics UDP_ATTEMPTS leaving_udp TCP_FALLBACKS] in *. do 3 (split; [lia|]).
    destruct res as [r|e]; [|by right].
    destruct Hres as [Hr Hlv]. split; [done|]. split; [|destruct (fr_tcp_used r); lia].
    by eapply rung_valid.
  - intros [= <- <-]. simpl. split_and!; try lia. left. by intros u [=].
Qed.

(** A network where the first attempt times out and the second is truncated. *)
Definition example_reply (flags : N) : list N := [1; 2; flags]%N ++ replicate 9 0%N.
Definition example_net : Network := {|
  udp_wire := fun k => if (k =? 1)%nat then WireError "DNS upstream UDP response timed out"
                       else WireReply (example_reply 130);
  tcp_wire := WireReply (example_reply 128) |}.

Lemma forward_query_sound_witness : exists m r,
  forward_query example_net (example_reply 0) 3 = (m, Ok r)
  /\ valid_response (example_reply 0) r.(fr_response) /\ r.(fr_failed_udp_attempts) = 1%nat.
Proof.
  eexists _, _. split; [vm_compute; reflexivity|].
  split; [|reflexivity].
  refine (proj1 (proj2 (proj2 (proj2 (proj2
    (forward_query_sound example_net (example_reply 0) 3 _ (Ok _) _)))))).
  vm_compute. reflexivity.
Defined.

(** ** Every readable query is answered *)

Section Answering.
Context {hickory : Hickory} {laws : HickoryLaws}.

Lemma rcode_response_Some query request code bytes :
  from_vec query = Some request -> md_message_type (metadata request) = Query ->
  to_vec (rcode_message request code) = Some bytes -> rcode_response query code = Some bytes.
Proof.
  intros Hq Ht Hb. unfold rcode_response. rewrite Hq. cbn [mbind option_bind].
  by rewrite bool_decide_eq_true_2.
Qed.

Lemma cached_answer_same st query now st' a :
  cached_answer st query now = (st', a) ->
  st'.(permits) = st.(permits) /\ st'.(health) = st.(health) /\ st'.(upstream) = st.(upstream).
Proof. unfold cached_answer. by repeat case_match; intros; simplify_eq. Qed.

(** a readable UDP query is never met with silence.  An owned name and a
    cached answer cost no permit and do not touch the verdict on resolution; a
    query that is declined is told REFUSED; an admitted one gets a valid
    upstream response, or SERVFAIL.  The coded answers are responses to the
    transaction and its questions that carry no records. *)
Theorem udp_query_answered settings st query client now request :
  from_vec query = Some request -> md_message_type (metadata request) = Query ->
  is_Some (to_vec (rcode_message request Refused)) ->
  is_Some (to_vec (rcode_message request ServFail)) ->
  (let '(st', disposition) := receive_udp settings st query client now in
   match disposition with
   | Answered _ => st'.(permits) = st.(permits) /\ st'.(health) = st.(health)
   | Declined _ reply => is_Some reply /\ reply = to_vec (rcode_message request Refused)
   | Accepted _ =>
       local_answer settings st query = None /\
       forall iter net later, exists bytes,
         (worker iter settings st' net query later).2 = Some bytes
         /\ (valid_response query bytes \/ to_vec (rcode_message request ServFail) = Some bytes)
   end)
  /\ forall code, let m := rcode_message request code in
     md_id (metadata m) = md_id (metadata request) /\ md_message_type (metadata m) = Response
     /\ md_response_code (metadata m) = code /\ queries m = queries request
     /\ answers m = [] /\ authorities m = [].
Proof.
  intros Hq Ht [rf Hrf] [sf Hsf]. split.
  - unfold receive_udp. destruct (local_answer settings st query); [done|].
    destruct (cached_answer st query now) as [st1 [reply|]] eqn:Hc;
      apply cached_answer_same in Hc as (Hp & Hh & _); [done|].
    destruct (DnsAdmission.try_acquire (permits st1) client now) as [p [slot|refusal]].
    + split; [done|]. intros iter net later.
      pose proof (rcode_response_Some _ _ _ _ Hq Ht Hsf) as Hrc.
      unfold worker. destruct (upstream _) as [up|].
      * destruct (forward_query net query (udp_attempts settings)) as [m [r|e]] eqn:Hf;
          cbn [snd]; destruct (observe_resolution_health _ _ _ _); cbn [snd]; [|eauto].
        eexists. split; [done|]. left. by eapply forward_query_valid.
      * destruct (observe_resolution_health _ _ _ _). simpl. eauto.
    + destruct (observe_resolution_health _ _ _ _).
      rewrite (rcode_response_Some _ _ _ _ Hq Ht Hrf), Hrf. eauto.
  - intros code m. subst m. unfold rcode_message. simpl. by autorewrite with egressy_rw.
Qed.
End Answering.

Definition wire (i : N) : list N := i :: replicate 11 0%N.

(** A client asks for one name and gets SERVFAIL when nothing answers. *)
Definition answering_request : MessageOf string unit unit unit :=
  toy_message 7 Query NoError [{| q_name := "a.example."; query_type := 1; query_class := 1 |}] [] [].
Definition answering_table : list (MessageOf string unit unit unit) :=
  answering_request ::
  (@rcode_message (toy []) answering_request <$> [NoError; ServFail; NXDomain; Refused]).
Definition answering_state : @State (toy answering_table) :=
  {| cache := None; local_names := ∅; upstream := Some (SocketAddr_V4 1 53);
     permits := DnsAdmission.new 4 None 0; health := DnsHealth.new 3 2 |}.

Lemma udp_query_answered_witness :
  let settings := {| udp_attempts := 2; local_zones_enabled := true; has_publisher := true |} in
  exists slot st', receive_udp settings answering_state (wire 0) (IpAddr_V4 9) 1 = (st', Accepted slot)
    /\ forall iter net later, exists bytes,
         (worker iter settings st' net (wire 0) later).2 = Some bytes
         /\ (valid_response (wire 0) bytes
             \/ @to_vec (toy answering_table) (@rcode_message (toy answering_table) answering_request ServFail)
                = Some bytes).
Proof.
  intros settings. eexists _, _. split; [vm_compute; reflexivity|].
  exact (proj2 (proj1 (@udp_query_answered (toy answering_table) (toy_laws _) settings answering_state
    (wire 0) (IpAddr_V4 9) 1 answering_request eq_refl eq_refl
    ltac:(eexists; vm_compute; reflexivity) ltac:(eexists; vm_compute; reflexivity)))).
Defined.
