(* ===== verification/DnsServe.v ===== *)
(** The DNS service as a whole (src/src/dns.rs: run, supervise, serve_udp,
    serve_tcp and the workers they spawn).

    [run] is one task that reads the two listeners and spawns a worker for each
    query that is forwarded, and for each connection.  The server is a state
    and [serve_step] what can happen next: a datagram or a connection, the next
    stretch of some worker, a new upstream, the failure of a listener, the
    restart.  The workers interleave; a TCP worker, and the reply of a UDP
    worker with what it publishes, are one step each. *)

From S2P Require Import Prelude RustStr Net DnsMessage DnsHealth Domain Control DnsMetrics DnsForward.
From S2P Require DnsCache LocalZone DnsAdmission.

#[local] Existing Instances DnsCache.Key_eq_dec DnsCache.Key_countable.

(** ** What the service publishes *)

Definition check_observation (id : string) (status : CheckStatus) (reason_code message : string)
    (retry : option (N * N)) : Observation :=
  {| ob_id := id; ob_status := status; ob_impact := Critical; ob_reason_code := reason_code;
     ob_safe_message := message; ob_next_attempt_at_unix_ms := fst <$> retry;
     ob_recovery_attempt := snd <$> retry |}.

(** The status is [Healthy] or not; the reason goes by the cause. *)
Definition resolution_observation (v : DnsHealth.Verdict) : Observation :=
  let '(reason_code, message) :=
    match v.(DnsHealth.v_cause) with
    | None => ("dns.udp_healthy", "The in-tunnel resolver answered over UDP")
    | Some DnsHealth.Upstream =>
        ("dns.upstream_udp_failures", "Consecutive queries exhausted all in-tunnel UDP attempts")
    | Some DnsHealth.Admission =>
        ("dns.queries_refused", "Consecutive queries were refused before reaching the resolver")
    end in
  check_observation "dns.upstream_udp"
    (if decide (v.(DnsHealth.v_status) = DnsHealth.Healthy) then Healthy else Degraded)
    reason_code message None.

Definition tcp_success_observation : Observation :=
  check_observation "dns.upstream_tcp" Healthy "dns.tcp_healthy" "The in-tunnel resolver answered over TCP" None.

Definition MAXIMUM_DELAY : N := 300.

Definition listener_failed_observation (attempt delay now : N) : Observation :=
  check_observation "dns.listener" Failed "dns.listener_failed"
    "The DNS listener stopped and will be restarted" (Some (now + delay * 1000, attempt)%N).

(** ** The counters *)

Definition bumped (x by_ : N) : N := wrapping_add 64 x by_.

Definition received (c : DnsCounters) : DnsCounters :=
  {| UDP_QUERIES := bumped c.(UDP_QUERIES) 1; DnsMetrics.UDP_ATTEMPTS := c.(DnsMetrics.UDP_ATTEMPTS);
     DnsMetrics.UDP_TIMEOUTS := c.(DnsMetrics.UDP_TIMEOUTS); DnsMetrics.UDP_EXHAUSTED := c.(DnsMetrics.UDP_EXHAUSTED);
     DnsMetrics.TCP_FALLBACKS := c.(DnsMetrics.TCP_FALLBACKS);
     DnsMetrics.TCP_FALLBACK_SUCCESSES := c.(DnsMetrics.TCP_FALLBACK_SUCCESSES);
     LOCAL_ANSWERS := c.(LOCAL_ANSWERS); CACHE_HITS := c.(CACHE_HITS); CACHE_MISSES := c.(CACHE_MISSES);
     QUERIES_REFUSED_GLOBAL := c.(QUERIES_REFUSED_GLOBAL);
     QUERIES_REFUSED_PER_CLIENT := c.(QUERIES_REFUSED_PER_CLIENT);
     RESOLUTION_HEALTHY := c.(RESOLUTION_HEALTHY) |}.

(** [local], [hit] and [miss] are what the lookups add. *)
Definition looked_up (local hit miss : N) (c : DnsCounters) : DnsCounters :=
  {| UDP_QUERIES := c.(UDP_QUERIES); DnsMetrics.UDP_ATTEMPTS := c.(DnsMetrics.UDP_ATTEMPTS);
     DnsMetrics.UDP_TIMEOUTS := c.(DnsMetrics.UDP_TIMEOUTS); DnsMetrics.UDP_EXHAUSTED := c.(DnsMetrics.UDP_EXHAUSTED);
     DnsMetrics.TCP_FALLBACKS := c.(DnsMetrics.TCP_FALLBACKS);
     DnsMetrics.TCP_FALLBACK_SUCCESSES := c.(DnsMetrics.TCP_FALLBACK_SUCCESSES);
     LOCAL_ANSWERS := bumped c.(LOCAL_ANSWERS) local; CACHE_HITS := bumped c.(CACHE_HITS) hit;
     CACHE_MISSES := bumped c.(CACHE_MISSES) miss;
     QUERIES_REFUSED_GLOBAL := c.(QUERIES_REFUSED_GLOBAL);
     QUERIES_REFUSED_PER_CLIENT := c.(QUERIES_REFUSED_PER_CLIENT);
     RESOLUTION_HEALTHY := c.(RESOLUTION_HEALTHY) |}.

Definition record_refusal (refusal : DnsAdmission.Refusal) (c : DnsCounters) : DnsCounters :=
  {| UDP_QUERIES := c.(UDP_QUERIES); DnsMetrics.UDP_ATTEMPTS := c.(DnsMetrics.UDP_ATTEMPTS);
     DnsMetrics.UDP_TIMEOUTS := c.(DnsMetrics.UDP_TIMEOUTS); DnsMetrics.UDP_EXHAUSTED := c.(DnsMetrics.UDP_EXHAUSTED);
     DnsMetrics.TCP_FALLBACKS := c.(DnsMetrics.TCP_FALLBACKS);
     DnsMetrics.TCP_FALLBACK_SUCCESSES := c.(DnsMetrics.TCP_FALLBACK_SUCCESSES);
     LOCAL_ANSWERS := c.(LOCAL_ANSWERS); CACHE_HITS := c.(CACHE_HITS); CACHE_MISSES := c.(CACHE_MISSES);
     QUERIES_REFUSED_GLOBAL :=
       match refusal with
       | DnsAdmission.GlobalLimit => bumped c.(QUERIES_REFUSED_GLOBAL) 1
       | DnsAdmission.ClientLimit => c.(QUERIES_REFUSED_GLOBAL)
       end;
     QUERIES_REFUSED_PER_CLIENT :=
       match refusal with
       | DnsAdmission.GlobalLimit => c.(QUERIES_REFUSED_PER_CLIENT)
       | DnsAdmission.ClientLimit => bumped c.(QUERIES_REFUSED_PER_CLIENT) 1
       end;
     RESOLUTION_HEALTHY := c.(RESOLUTION_HEALTHY) |}.

(** What one run of the ladder added. *)
Definition forwarded (m : Metrics) (c : DnsCounters) : DnsCounters :=
  {| UDP_QUERIES := c.(UDP_QUERIES);
     DnsMetrics.UDP_ATTEMPTS := bumped c.(DnsMetrics.UDP_ATTEMPTS) (N.of_nat m.(UDP_ATTEMPTS));
     DnsMetrics.UDP_TIMEOUTS := bumped c.(DnsMetrics.UDP_TIMEOUTS) (N.of_nat m.(UDP_TIMEOUTS));
     DnsMetrics.UDP_EXHAUSTED := bumped c.(DnsMetrics.UDP_EXHAUSTED) (N.of_nat m.(UDP_EXHAUSTED));
     DnsMetrics.TCP_FALLBACKS := bumped c.(DnsMetrics.TCP_FALLBACKS) (N.of_nat m.(TCP_FALLBACKS));
     DnsMetrics.TCP_FALLBACK_SUCCESSES :=
       bumped c.(DnsMetrics.TCP_FALLBACK_SUCCESSES) (N.of_nat m.(TCP_FALLBACK_SUCCESSES));
     LOCAL_ANSWERS := c.(LOCAL_ANSWERS); CACHE_HITS := c.(CACHE_HITS); CACHE_MISSES := c.(CACHE_MISSES);
     QUERIES_REFUSED_GLOBAL := c.(QUERIES_REFUSED_GLOBAL);
     QUERIES_REFUSED_PER_CLIENT := c.(QUERIES_REFUSED_PER_CLIENT);
     RESOLUTION_HEALTHY := c.(RESOLUTION_HEALTHY) |}.

Definition resolution_stored (healthy : bool) (c : DnsCounters) : DnsCounters :=
  {| UDP_QUERIES := c.(UDP_QUERIES); DnsMetrics.UDP_ATTEMPTS := c.(DnsMetrics.UDP_ATTEMPTS);
     DnsMetrics.UDP_TIMEOUTS := c.(DnsMetrics.UDP_TIMEOUTS); DnsMetrics.UDP_EXHAUSTED := c.(DnsMetrics.UDP_EXHAUSTED);
     DnsMetrics.TCP_FALLBACKS := c.(DnsMetrics.TCP_FALLBACKS);
     DnsMetrics.TCP_FALLBACK_SUCCESSES := c.(DnsMetrics.TCP_FALLBACK_SUCCESSES);
     LOCAL_ANSWERS := c.(LOCAL_ANSWERS); CACHE_HITS := c.(CACHE_HITS); CACHE_MISSES := c.(CACHE_MISSES);
     QUERIES_REFUSED_GLOBAL := c.(QUERIES_REFUSED_GLOBAL);
     QUERIES_REFUSED_PER_CLIENT := c.(QUERIES_REFUSED_PER_CLIENT);
     RESOLUTION_HEALTHY := if healthy then 1 else 0 |}.

(** ** What the workers share *)

Section service.
Context {hickory : Hickory}.

Record Shared : Type := {
  sh_state : State;
  sh_counters : DnsCounters;
  sh_publisher : StatePublisher;     (* looked at when [has_publisher] *)
}.

Definition with_state (st : State) (g : Shared) : Shared :=
  {| sh_state := st; sh_counters := g.(sh_counters); sh_publisher := g.(sh_publisher) |}.
Definition count (f : DnsCounters -> DnsCounters) (g : Shared) : Shared :=
  {| sh_state := g.(sh_state); sh_counters := f g.(sh_counters); sh_publisher := g.(sh_publisher) |}.
Definition observe (o : Observation) (unix : N) (g : Shared) : Shared :=
  {| sh_state := g.(sh_state); sh_counters := g.(sh_counters);
     sh_publisher := Control.observe g.(sh_publisher) o unix |}.

(** [Instant::now] and [unix_ms] *)
Record Clock : Type := { instant : N; unix_ms : N }.

Definition observe_resolution (fs : Settings) (failure : option DnsHealth.Failure) (clock : Clock)
    (g : Shared) : Shared :=
  let '(st, verdict) := observe_resolution_health fs g.(sh_state) failure clock.(instant) in
  let g := with_state st g in
  match verdict with
  | None => g
  | Some v =>
      observe (resolution_observation v) clock.(unix_ms)
        (count (resolution_stored (bool_decide (v.(DnsHealth.v_status) = DnsHealth.Healthy))) g)
  end.

Definition observe_tcp_success (fs : Settings) (clock : Clock) (g : Shared) : Shared :=
  if fs.(has_publisher) then observe tcp_success_observation clock.(unix_ms) g else g.

(** ** The handlers *)

Section handlers.
Context (fs : Settings)
  (iter : gmap DnsCache.Key DnsCache.Entry -> list (DnsCache.Key * DnsCache.Entry)).

(** [local_answer(..).or_else(|| cached_answer(..))] *)
Definition answer_here (query : Bytes) (clock : Clock) (g : Shared) : Shared * option Bytes :=
  match local_answer fs g.(sh_state) query with
  | Some response => (count (looked_up 1 0 0) g, Some response)
  | None =>
      let '(st, found) := cached_answer g.(sh_state) query clock.(instant) in
      let c := match found, g.(sh_state).(cache), g.(sh_state).(upstream) with
               | Some _, _, _ => looked_up 0 1 0
               | None, Some _, Some _ => looked_up 0 0 1
               | None, _, _ => looked_up 0 0 0
               end in
      (with_state st (count c g), found)
  end.

Definition try_acquire (client : IpAddr) (clock : Clock) (g : Shared)
    : Shared * Result DnsAdmission.Ref DnsAdmission.Refusal :=
  let '(p, r) := DnsAdmission.try_acquire g.(sh_state).(permits) client clock.(instant) in
  let g := with_state (with_permits g.(sh_state) p) g in
  match r with
  | Ok slot => (g, Ok slot)
  | Err refusal => (count (record_refusal refusal) g, Err refusal)
  end.

(** One datagram in the receiving task. *)
Definition receive_datagram (query : Bytes) (client : IpAddr) (clock : Clock) (g : Shared)
    : Shared * Disposition :=
  let '(g, found) := answer_here query clock (count received g) in
  match found with
  | Some response => (g, Answered response)
  | None =>
      let '(g, r) := try_acquire client clock g in
      match r with
      | Ok slot => (g, Accepted slot)
      | Err refusal =>
          (observe_resolution fs (Some DnsHealth.Admission) clock g,
           Declined refusal (rcode_response query Refused))
      end
  end.

(** The worker without an upstream. *)
Definition no_upstream (query : Bytes) (clock : Clock) (g : Shared) : Shared * option Bytes :=
  (observe_resolution fs (Some DnsHealth.Upstream) clock g, rcode_response query ServFail).

(** The worker once [forward_query] has returned. *)
Definition finish_query (up : SocketAddr) (net : Network) (query : Bytes) (clock : Clock) (g : Shared)
    : Shared * option Bytes :=
  let '(m, result) := forward_query net query fs.(udp_attempts) in
  let g := count (forwarded m) g in
  match result with
  | Ok result =>
      let g := observe_resolution fs
        (if result.(fr_udp_succeeded) then None else Some DnsHealth.Upstream) clock g in
      let g := if result.(fr_tcp_used) then observe_tcp_success fs clock g else g in
      (with_state (remember_answer iter g.(sh_state) query result.(fr_response) up clock.(instant)) g,
       Some result.(fr_response))
  | Err _ =>
      (observe_resolution fs (Some DnsHealth.Upstream) clock g, rcode_response query ServFail)
  end.

(** A TCP stream: what the client sends, and whether the socket takes what is
    written to it. *)
Record TcpStream : Type := {
  tcp_request : Wire;
  tcp_write : Bytes -> Result unit Error;
}.

Definition write_tcp_message (stream : TcpStream) (message : Bytes) : Result unit Error :=
  let? _ := validate_dns_message message in
  let? _ := ensure (N.of_nat (length message) <? 2 ^ 16)%N "DNS message too large" in
  stream.(tcp_write) message.

Definition forward_over_tcp (query : Bytes) (net : Network) (clock : Clock) (g : Shared)
    : Shared * Result Bytes Error :=
  match g.(sh_state).(upstream) with
  | None => (g, Err "DNS upstream is not configured")
  | Some up =>
      match tcp_exchange net query with
      | Err e => (g, Err e)
      | Ok response =>
          let g := observe_tcp_success fs clock g in
          (with_state (remember_answer iter g.(sh_state) query response up clock.(instant)) g, Ok response)
      end
  end.

(** The messages it hands to the socket, and how it ends. *)
Definition handle_tcp_client (stream : TcpStream) (net : Network) (clock : Clock) (g : Shared)
    : Shared * (list Bytes * Result unit Error) :=
  match read_tcp_message stream.(tcp_request) with
  | Err e => (g, ([], Err e))
  | Ok query =>
      let '(g, found) := answer_here query clock g in
      match found with
      | Some response => (g, ([response], write_tcp_message stream response))
      | None =>
          let '(g, r) := forward_over_tcp query net clock g in
          match r with
          | Ok response => (g, ([response], write_tcp_message stream response))
          | Err error => (g, (option_list (rcode_response query ServFail), Err error))
          end
      end
  end.

Definition refuse_tcp_client (stream : TcpStream) : list Bytes * Result unit Error :=
  match read_tcp_message stream.(tcp_request) with
  | Err e => ([], Err e)
  | Ok query =>
      match rcode_response query Refused with
      | None => ([], Err "query could not be refused")
      | Some response => ([response], write_tcp_message stream response)
      end
  end.
End handlers.

(** ** The server *)

(** Before [forward_query]; while it asks the upstream, the network being what
    it will meet, and whether it has left UDP. *)
Inductive Progress : Type :=
| Spawned
| Asking (up : SocketAddr) (net : Network) (left_udp : bool).

Record UdpWorker : Type := {
  uw_id : nat;
  uw_client : IpAddr;
  uw_query : Bytes;
  uw_slot : option DnsAdmission.Ref; (* [client_slot]; the global permit it keeps to the end *)
  uw_progress : Progress;
}.

Record TcpWorker : Type := {
  tw_id : nat;
  tw_client : IpAddr;
  tw_stream : TcpStream;
  tw_permit : option DnsAdmission.Ref; (* [None] for a connection that is being refused *)
}.

(** What became of the query or the connection with a number. *)
Inductive Outcome : Type :=
| UdpReplied (query : Bytes) (reply : option Bytes)
| TcpClosed (stream : TcpStream) (written : list Bytes) (result : Result unit Error)
| Aborted.

Record DnsSettings : Type := {
  ds_forward : Settings;
  max_concurrent_queries : N;
  max_concurrent_queries_per_client : option N;
  ds_failure_threshold : N;
  ds_success_threshold : N;
}.

Record Server : Type := {
  sv_shared : Shared;
  sv_listening : bool;
  sv_attempt : N;                    (* of [supervise], a u32 *)
  sv_udp : list UdpWorker;
  sv_tcp : list TcpWorker;
  sv_next : nat;                     (* the queries and connections so far *)
  sv_done : list (nat * Outcome);
}.

Definition with_progress (slot : option DnsAdmission.Ref) (progress : Progress) (w : UdpWorker) : UdpWorker :=
  {| uw_id := w.(uw_id); uw_client := w.(uw_client); uw_query := w.(uw_query);
     uw_slot := slot; uw_progress := progress |}.

(** The workers left, and the outcome of one that ended. *)
Definition with_workers (g : Shared) (udp : list UdpWorker) (tcp : list TcpWorker)
    (finished : list (nat * Outcome)) (s : Server) : Server :=
  {| sv_shared := g; sv_listening := s.(sv_listening); sv_attempt := s.(sv_attempt);
     sv_udp := udp; sv_tcp := tcp; sv_next := s.(sv_next); sv_done := finished ++ s.(sv_done) |}.

(** A new number. *)
Definition arrived (g : Shared) (udp : list UdpWorker) (tcp : list TcpWorker)
    (finished : list (nat * Outcome)) (s : Server) : Server :=
  {| sv_shared := g; sv_listening := s.(sv_listening); sv_attempt := s.(sv_attempt);
     sv_udp := udp ++ s.(sv_udp); sv_tcp := tcp ++ s.(sv_tcp); sv_next := S s.(sv_next);
     sv_done := finished ++ s.(sv_done) |}.

Definition with_upstream (up : option SocketAddr) (names : gmap string Ipv4Addr) (st : State) : State :=
  {| cache := st.(cache); local_names := names; upstream := up; permits := st.(permits); health := st.(health) |}.

(** Dropping a permit gives back the client's slot, if it is still held. *)
Definition release_slot (slot : option DnsAdmission.Ref) (g : Shared) : Shared :=
  match slot with
  | None => g
  | Some r => with_state (with_permits g.(sh_state) (DnsAdmission.drop_slot g.(sh_state).(permits) r)) g
  end.
Definition release_global (g : Shared) : Shared :=
  with_state (with_permits g.(sh_state) (DnsAdmission.drop_global g.(sh_state).(permits))) g.

Section server.
Context (ds : DnsSettings)
  (iter : gmap DnsCache.Key DnsCache.Entry -> list (DnsCache.Key * DnsCache.Entry)).
Notation fs := ds.(ds_forward).

Definition receive_udp_step (query : Bytes) (client : IpAddr) (clock : Clock) (s : Server) : Server :=
  let '(g, disposition) := receive_datagram fs query client clock s.(sv_shared) in
  match disposition with
  | Answered reply => arrived g [] [] [(s.(sv_next), UdpReplied query (Some reply))] s
  | Declined _ reply => arrived g [] [] [(s.(sv_next), UdpReplied query reply)] s
  | Accepted slot =>
      arrived g [{| uw_id := s.(sv_next); uw_client := client; uw_query := query;
                    uw_slot := Some slot; uw_progress := Spawned |}] [] [] s
  end.

Definition accept_tcp_step (stream : TcpStream) (client : IpAddr) (clock : Clock) (s : Server) : Server :=
  let '(g, r) := try_acquire client clock s.(sv_shared) in
  arrived g [] [{| tw_id := s.(sv_next); tw_client := client; tw_stream := stream;
                   tw_permit := match r with Ok slot => Some slot | Err _ => None end |}] [] s.

(** The reply is sent, then the permits the worker still holds are dropped. *)
Definition udp_worker_end (w : UdpWorker) (finish : Shared -> Shared * option Bytes)
    (udp : list UdpWorker) (s : Server) : Server :=
  let '(g, reply) := finish s.(sv_shared) in
  with_workers (release_global (release_slot w.(uw_slot) g)) udp s.(sv_tcp)
    [(w.(uw_id), UdpReplied w.(uw_query) reply)] s.

Definition tcp_worker_end (w : TcpWorker) (net : Network) (clock : Clock) (tcp : list TcpWorker) (s : Server)
    : Server :=
  match w.(tw_permit) with
  | None =>
      let '(written, result) := refuse_tcp_client w.(tw_stream) in
      with_workers s.(sv_shared) s.(sv_udp) tcp [(w.(tw_id), TcpClosed w.(tw_stream) written result)] s
  | Some slot =>
      let '(g, (written, result)) := handle_tcp_client fs iter w.(tw_stream) net clock s.(sv_shared) in
      with_workers (release_global (release_slot (Some slot) g)) s.(sv_udp) tcp
        [(w.(tw_id), TcpClosed w.(tw_stream) written result)] s
  end.

(** Whether [forward_query] calls [leaving_udp]. *)
Definition leaves_udp (net : Network) (query : Bytes) : bool :=
  (0 <? (forward_query net query fs.(udp_attempts)).1.(leaving_udp))%nat.

(** The next stretch of a worker. *)
Inductive work_step : Server -> Server -> Prop :=
| w_unconfigured s l1 w l2 clock :
    s.(sv_udp) = l1 ++ w :: l2 -> w.(uw_progress) = Spawned ->
    s.(sv_shared).(sh_state).(upstream) = None ->
    work_step s (udp_worker_end w (no_upstream fs w.(uw_query) clock) (l1 ++ l2) s)
| w_ask s l1 w l2 up net :
    s.(sv_udp) = l1 ++ w :: l2 -> w.(uw_progress) = Spawned ->
    s.(sv_shared).(sh_state).(upstream) = Some up ->
    work_step s (with_workers s.(sv_shared)
      (l1 ++ with_progress w.(uw_slot) (Asking up net false) w :: l2) s.(sv_tcp) [] s)
| w_leave s l1 w l2 up net :
    s.(sv_udp) = l1 ++ w :: l2 -> w.(uw_progress) = Asking up net false ->
    leaves_udp net w.(uw_query) = true ->
    work_step s (with_workers (release_slot w.(uw_slot) s.(sv_shared))
      (l1 ++ with_progress None (Asking up net true) w :: l2) s.(sv_tcp) [] s)
| w_finish s l1 w l2 up net clock :
    s.(sv_udp) = l1 ++ w :: l2 ->
    w.(uw_progress) = Asking up net (leaves_udp net w.(uw_query)) ->
    work_step s (udp_worker_end w (finish_query fs iter up net w.(uw_query) clock) (l1 ++ l2) s)
| w_tcp s l1 w l2 net clock :
    s.(sv_tcp) = l1 ++ w :: l2 ->
    work_step s (tcp_worker_end w net clock (l1 ++ l2) s).

(** ** The supervisor *)

(** [run] ended with an error: its workers are aborted with it. *)
Definition listener_failed (jitter unix : N) (s : Server) : Server :=
  let attempt := saturating_add u32_MAX s.(sv_attempt) 1 in
  let delay := retry_delay_seconds attempt MAXIMUM_DELAY jitter in
  {| sv_shared :=
       if fs.(has_publisher)
       then observe (listener_failed_observation attempt delay unix) unix s.(sv_shared)
       else s.(sv_shared);
     sv_listening := false; sv_attempt := attempt; sv_udp := []; sv_tcp := [];
     sv_next := s.(sv_next);
     sv_done := ((fun id => (id, Aborted)) <$> (uw_id <$> s.(sv_udp)) ++ (tw_id <$> s.(sv_tcp)))
                ++ s.(sv_done) |}.

(** [run] has bound both sockets. *)
Definition listeners_bound (now : N) (s : Server) : Server :=
  let st := s.(sv_shared).(sh_state) in
  {| sv_shared := with_state
       {| cache := st.(cache); local_names := st.(local_names); upstream := st.(upstream);
          permits := DnsAdmission.new ds.(max_concurrent_queries) ds.(max_concurrent_queries_per_client) now;
          health := DnsHealth.new ds.(ds_failure_threshold) ds.(ds_success_threshold) |} s.(sv_shared);
     sv_listening := true; sv_attempt := s.(sv_attempt); sv_udp := s.(sv_udp); sv_tcp := s.(sv_tcp);
     sv_next := s.(sv_next); sv_done := s.(sv_done) |}.

Inductive serve_step : Server -> Server -> Prop :=
| d_datagram s query client clock :
    s.(sv_listening) = true -> serve_step s (receive_udp_step query client clock s)
| d_connection s stream client clock :
    s.(sv_listening) = true -> serve_step s (accept_tcp_step stream client clock s)
| d_work s s' : work_step s s' -> serve_step s s'
| d_environment s up names :
    serve_step s (with_workers (with_state (with_upstream up names s.(sv_shared).(sh_state)) s.(sv_shared))
                    s.(sv_udp) s.(sv_tcp) [] s)
| d_error s jitter unix :
    serve_step s (listener_failed jitter unix s)
| d_bound s now :
    s.(sv_listening) = false -> serve_step s (listeners_bound now s).

(** [supervise], before the first [run]. *)
Definition supervise_start (g : Shared) : Server :=
  {| sv_shared := g; sv_listening := false; sv_attempt := 0; sv_udp := []; sv_tcp := []; sv_next := 0;
     sv_done := [] |}.

Definition served (s : Server) : Prop := exists g, rtc serve_step (supervise_start g) s.
End server.
End service.
