(* ===== verification/DnsServeProps.v ===== *)
(** What the DNS service promises over every run: each query and connection is
    in the hands of one worker or has one outcome, the outcome of a readable
    query is an answer, the permits the workers hold are those admission counts,
    and the workers end. *)

From S2P Require Import Prelude RustStr Net DnsMessage DnsHealth Domain Control DnsMetrics DnsForward DnsServe.
From S2P Require DnsCache LocalZone DnsAdmission DnsAdmissionProps DomainProps.

#[local] Existing Instances DnsCache.Key_eq_dec DnsCache.Key_countable.
#[local] Arguments seq : simpl never.

Section service.
Context {hickory : Hickory}.

(** ** What a client may be told *)

(** A query the forwarder can at least answer with a code. *)
Definition answerable (query : list N) : Prop :=
  exists request, from_vec query = Some request /\ md_message_type (metadata request) = Query
    /\ is_Some (to_vec (rcode_message request Refused)) /\ is_Some (to_vec (rcode_message request ServFail)).

(** An owned name, a cached answer, a response of the upstream to this query,
    or one of the two codes. *)
Definition answer_to (fs : Settings) (query bytes : list N) : Prop :=
  (exists st, local_answer fs st query = Some bytes)
  \/ (exists st now, (cached_answer st query now).2 = Some bytes)
  \/ valid_response query bytes
  \/ rcode_response query Refused = Some bytes \/ rcode_response query ServFail = Some bytes.

Lemma answerable_refused fs query :
  answerable query -> exists b, rcode_response query Refused = Some b /\ answer_to fs query b.
Proof.
  intros (request & Hq & Ht & [b Hb] & _). exists b. pose proof (rcode_response_Some _ _ _ _ Hq Ht Hb).
  unfold answer_to. auto 6.
Qed.

Lemma answerable_failed fs query :
  answerable query -> exists b, rcode_response query ServFail = Some b /\ answer_to fs query b.
Proof.
  intros (request & Hq & Ht & _ & [b Hb]). exists b. pose proof (rcode_response_Some _ _ _ _ Hq Ht Hb).
  unfold answer_to. auto 6.
Qed.

Section lookups.
Context (fs : Settings)
  (iter : gmap DnsCache.Key DnsCache.Entry -> list (DnsCache.Key * DnsCache.Entry)).

(** Nothing but admission and the ends of workers moves a permit. *)
Notation permits_of g := (g.(sh_state).(permits)).

Lemma observe_resolution_permits failure clock g :
  permits_of (observe_resolution fs failure clock g) = permits_of g.
Proof.
  unfold observe_resolution, observe_resolution_health. destruct (negb _); [done|].
  destruct (record _ _ _) as [h [v|]]; done.
Qed.

Lemma observe_tcp_success_permits clock g : permits_of (observe_tcp_success fs clock g) = permits_of g.
Proof. unfold observe_tcp_success. by destruct (has_publisher fs). Qed.

Lemma remember_answer_permits st query response up now :
  (remember_answer iter st query response up now).(permits) = st.(permits).
Proof. unfold remember_answer. by destruct (cache st). Qed.

Lemma answer_here_spec query clock g :
  let '(g', found) := answer_here fs query clock g in
  permits_of g' = permits_of g /\ g'.(sh_state).(upstream) = g.(sh_state).(upstream)
  /\ forall b, found = Some b -> answer_to fs query b.
Proof.
  unfold answer_here. destruct (local_answer fs (sh_state g) query) as [b|] eqn:Hl.
  - split_and!; [done..|]. intros b' [= <-]. left. eauto.
  - destruct (cached_answer (sh_state g) query (instant clock)) as [st found] eqn:Hc.
    destruct (cached_answer_same _ _ _ _ _ Hc) as (Hp & _ & Hu). split_and!; [done..|].
    intros b ->. right; left. exists (sh_state g), (instant clock). by rewrite Hc.
Qed.

Lemma finish_query_spec up net query clock g :
  let '(g', reply) := finish_query fs iter up net query clock g in
  permits_of g' = permits_of g
  /\ (answerable query -> exists b, reply = Some b /\ answer_to fs query b).
Proof.
  unfold finish_query. destruct (forward_query net query (udp_attempts fs)) as [m [r|e]] eqn:Hf.
  - split.
    + simpl. rewrite remember_answer_permits. destruct (fr_tcp_used r);
        rewrite ?observe_tcp_success_permits, observe_resolution_permits; done.
    + intros _. eexists. split; [done|]. right; right; left. by eapply forward_query_valid.
  - rewrite observe_resolution_permits. split; [done|]. by apply answerable_failed.
Qed.

Lemma no_upstream_spec query clock g :
  let '(g', reply) := no_upstream fs query clock g in
  permits_of g' = permits_of g
  /\ (answerable query -> exists b, reply = Some b /\ answer_to fs query b).
Proof.
  unfold no_upstream. rewrite observe_resolution_permits. split; [done|]. by apply answerable_failed.
Qed.

(** The receiving task and the worker are those of DnsForward.v with the
    counters and the publication added. *)
Lemma observe_resolution_state failure clock g :
  (observe_resolution fs failure clock g).(sh_state)
  = (observe_resolution_health fs g.(sh_state) failure clock.(instant)).1.
Proof. unfold observe_resolution. by destruct (observe_resolution_health _ _ _ _) as [st []]. Qed.

Lemma receive_datagram_refines query client clock g :
  prod_map sh_state id (receive_datagram fs query client clock g)
  = receive_udp fs g.(sh_state) query client clock.(instant).
Proof.
  unfold receive_datagram, receive_udp, answer_here. simpl.
  destruct (local_answer _ _ _); [done|]. destruct (cached_answer _ _ _) as [st [reply|]] eqn:Hc; [done|].
  unfold try_acquire. simpl. destruct (DnsAdmission.try_acquire _ _ _) as [p [slot|refusal]]; [done|].
  unfold prod_map. simpl. rewrite observe_resolution_state. simpl.
  by destruct (observe_resolution_health _ _ _ _).
Qed.

Lemma finish_query_refines up net query clock g :
  g.(sh_state).(upstream) = Some up ->
  prod_map sh_state id (finish_query fs iter up net query clock g)
  = worker iter fs g.(sh_state) net query clock.(instant).
Proof.
  intros Hup. unfold finish_query, worker. rewrite Hup.
  destruct (forward_query _ _ _) as [m [r|e]]; unfold prod_map; simpl.
  - assert (forall g', sh_state (if fr_tcp_used r then observe_tcp_success fs clock g' else g') = sh_state g') as ->.
    { intros g'. unfold observe_tcp_success. by destruct (fr_tcp_used r), (has_publisher fs). }
    rewrite observe_resolution_state. simpl. by destruct (observe_resolution_health _ _ _ _).
  - rewrite observe_resolution_state. simpl. by destruct (observe_resolution_health _ _ _ _).
Qed.

Lemma no_upstream_refines net query clock g :
  g.(sh_state).(upstream) = None ->
  prod_map sh_state id (no_upstream fs query clock g) = worker iter fs g.(sh_state) net query clock.(instant).
Proof.
  intros Hup. unfold no_upstream, worker, prod_map. rewrite Hup. simpl. rewrite observe_resolution_state.
  by destruct (observe_resolution_health _ _ _ _).
Qed.

Lemma handle_tcp_client_spec stream net clock g :
  let '(g', (written, _)) := handle_tcp_client fs iter stream net clock g in
  permits_of g' = permits_of g
  /\ forall query, read_tcp_message stream.(tcp_request) = Ok query -> answerable query ->
     exists b, written = [b] /\ answer_to fs query b.
Proof.
  unfold handle_tcp_client. destruct (read_tcp_message _) as [query|e] eqn:Hq; [|done].
  pose proof (answer_here_spec query clock g) as Hh.
  destruct (answer_here fs query clock g) as [g1 [b|]]; destruct Hh as (Hp & Hu & Hb).
  - split; [done|]. intros ? [= <-] _. eauto.
  - unfold forward_over_tcp. destruct (upstream (sh_state g1)) as [up|];
      [destruct (tcp_exchange net query) as [response|e] eqn:Ht|].
    + split; [by simpl; rewrite remember_answer_permits, observe_tcp_success_permits|].
      intros ? [= <-] _. eexists. split; [done|]. right; right; left. by eapply tcp_exchange_ok.
    + split; [done|]. intros ? [= <-] (b & -> & Hto)%(answerable_failed fs). eauto.
    + split; [done|]. intros ? [= <-] (b & -> & Hto)%(answerable_failed fs). eauto.
Qed.

Lemma refuse_tcp_client_spec stream query :
  read_tcp_message stream.(tcp_request) = Ok query -> answerable query ->
  exists b, (refuse_tcp_client stream).1 = [b] /\ answer_to fs query b.
Proof.
  intros Hq Ha. unfold refuse_tcp_client. rewrite Hq.
  destruct (answerable_refused fs _ Ha) as (b & -> & Hto). eauto.
Qed.
End lookups.

(** ** The permits the workers hold *)

Section server.
Context (ds : DnsSettings)
  (iter : gmap DnsCache.Key DnsCache.Entry -> list (DnsCache.Key * DnsCache.Entry)).
Notation fs := ds.(ds_forward).
Notation permits_of s := (s.(sv_shared).(sh_state).(permits)).

Definition udp_slot (w : UdpWorker) : option (IpAddr * DnsAdmission.Ref) := pair w.(uw_client) <$> w.(uw_slot).
Definition tcp_slot (w : TcpWorker) : option (IpAddr * DnsAdmission.Ref) := pair w.(tw_client) <$> w.(tw_permit).

(** The slots held, and the global permits. *)
Definition slots_of (udp : list UdpWorker) (tcp : list TcpWorker) : list (IpAddr * DnsAdmission.Ref) :=
  omap udp_slot udp ++ omap tcp_slot tcp.
Definition holding (udp : list UdpWorker) (tcp : list TcpWorker) : N :=
  N.of_nat (length udp + length (omap tcp_slot tcp)).

(** Admission control has reached this state with these queries in flight. *)
Definition budgeted (p : DnsAdmission.QueryPermits) (slots : list (IpAddr * DnsAdmission.Ref)) (g : N) : Prop :=
  exists now sl, sl ≡ₚ slots
  /\ DnsAdmission.reachable ds.(max_concurrent_queries) ds.(max_concurrent_queries_per_client) now
       {| DnsAdmission.permits := p; DnsAdmission.phase := DnsAdmission.Idle; DnsAdmission.slots := sl;
          DnsAdmission.globals := g |}.

Lemma budgeted_perm p slots slots' g : slots ≡ₚ slots' -> budgeted p slots g -> budgeted p slots' g.
Proof. intros Hp (now & sl & Hsl & Hr). exists now, sl. by rewrite <- Hp. Qed.

Lemma budgeted_new now : budgeted (DnsAdmission.new ds.(max_concurrent_queries)
  ds.(max_concurrent_queries_per_client) now) [] 0.
Proof. exists now, []. split; [done|]. apply rtc_refl. Qed.

Lemma budgeted_acquire p slots g client now p' res :
  budgeted p slots g -> DnsAdmission.try_acquire p client now = (p', res) ->
  budgeted p' (match res with Ok r => (client, r) :: slots | Err _ => slots end)
    (match res with Ok _ => g + 1 | Err _ => g end)%N.
Proof.
  intros (start & sl & Hsl & Hr) Ht.
  pose proof (DnsAdmissionProps.try_acquire_steps p sl g client now p' res Ht) as Hs.
  exists start, (match res with Ok r => (client, r) :: sl | Err _ => sl end).
  split; [destruct res; by rewrite Hsl|]. eapply rtc_trans; [exact Hr|]. destruct res; exact Hs.
Qed.

Lemma budgeted_slot p slots g client r :
  budgeted p ((client, r) :: slots) g -> budgeted (DnsAdmission.drop_slot p r) slots g.
Proof.
  intros (now & sl & Hsl & Hr). exists now, slots. split; [done|].
  eapply rtc_r; [exact Hr|]. by eapply DnsAdmission.s_drop_slot.
Qed.

Lemma budgeted_global p slots g : budgeted p slots (g + 1) -> budgeted (DnsAdmission.drop_global p) slots g.
Proof.
  intros (now & sl & Hsl & Hr). exists now, sl. split; [done|].
  eapply rtc_r; [exact Hr|]. apply DnsAdmission.s_drop_global.
Qed.

(** ** The invariant *)

Definition accounted (outcome : Outcome) : Prop :=
  match outcome with
  | UdpReplied query reply => answerable query -> exists b, reply = Some b /\ answer_to fs query b
  | TcpClosed stream written _ =>
      forall query, read_tcp_message stream.(tcp_request) = Ok query -> answerable query ->
      exists b, written = [b] /\ answer_to fs query b
  | Aborted => True
  end.

(** A worker has its client's slot until it leaves UDP. *)
Definition coherent (w : UdpWorker) : Prop :=
  match w.(uw_progress) with
  | Asking _ net true => w.(uw_slot) = None /\ leaves_udp ds net w.(uw_query) = true
  | _ => is_Some w.(uw_slot)
  end.

Definition ids (s : Server) : list nat :=
  (uw_id <$> s.(sv_udp)) ++ (tw_id <$> s.(sv_tcp)) ++ (fst <$> s.(sv_done)).

Record service_ok (s : Server) : Prop := {
  ok_idle : s.(sv_listening) = false -> s.(sv_udp) = [] /\ s.(sv_tcp) = [];
  ok_budget : s.(sv_listening) = true ->
    budgeted (permits_of s) (slots_of s.(sv_udp) s.(sv_tcp)) (holding s.(sv_udp) s.(sv_tcp));
  ok_ids : ids s ≡ₚ seq 0 s.(sv_next);
  ok_done : Forall (fun d => accounted d.2) s.(sv_done);
  ok_coherent : Forall coherent s.(sv_udp);
}.

(** A worker gives back what it holds. *)
Lemma budgeted_release p client slot slots g :
  budgeted p (option_list (pair client <$> slot) ++ slots) g ->
  budgeted (match slot with None => p | Some r => DnsAdmission.drop_slot p r end) slots g.
Proof. destruct slot as [r|]; [|done]. apply budgeted_slot. Qed.

Lemma release_slot_permits slot g :
  (release_slot slot g).(sh_state).(permits)
  = match slot with None => g.(sh_state).(permits)
    | Some r => DnsAdmission.drop_slot g.(sh_state).(permits) r end.
Proof. by destruct slot. Qed.

Lemma budgeted_end client slot slots h (g : Shared) :
  budgeted g.(sh_state).(permits) (option_list (pair client <$> slot) ++ slots) (h + 1) ->
  budgeted (release_global (release_slot slot g)).(sh_state).(permits) slots h.
Proof.
  intros Hb%budgeted_release. unfold release_global. simpl. rewrite release_slot_permits.
  by apply budgeted_global.
Qed.

Lemma omap_middle {A B} (f : A -> option B) l1 a l2 :
  omap f (l1 ++ a :: l2) ≡ₚ option_list (f a) ++ omap f (l1 ++ l2).
Proof.
  rewrite !omap_app. simpl. destruct (f a); simpl; [|done]. by rewrite <- Permutation_middle.
Qed.

Lemma slots_udp l1 w l2 tcp :
  slots_of (l1 ++ w :: l2) tcp ≡ₚ option_list (udp_slot w) ++ slots_of (l1 ++ l2) tcp.
Proof. unfold slots_of. by rewrite omap_middle, <- app_assoc. Qed.

Lemma slots_tcp udp l1 w l2 :
  slots_of udp (l1 ++ w :: l2) ≡ₚ option_list (tcp_slot w) ++ slots_of udp (l1 ++ l2).
Proof.
  unfold slots_of. rewrite omap_middle, !app_assoc. by rewrite (Permutation_app_comm (omap udp_slot udp)).
Qed.

Lemma holding_udp l1 w l2 tcp : holding (l1 ++ w :: l2) tcp = (holding (l1 ++ l2) tcp + 1)%N.
Proof. unfold holding. rewrite !length_app. simpl. lia. Qed.

Lemma holding_tcp udp l1 w l2 :
  holding udp (l1 ++ w :: l2)
  = (holding udp (l1 ++ l2) + (if decide (w.(tw_permit) = None) then 0 else 1))%N.
Proof.
  unfold holding. rewrite (Permutation_length (omap_middle _ l1 w l2)), length_app.
  unfold tcp_slot. destruct (tw_permit w); simpl; lia.
Qed.

Lemma ids_done (udp1 udp2 tcp finished : list nat) w :
  (udp1 ++ udp2) ++ tcp ++ w :: finished ≡ₚ (udp1 ++ w :: udp2) ++ tcp ++ finished.
Proof.
  rewrite <- (Permutation_middle udp1 udp2 w). simpl.
  rewrite (app_assoc (udp1 ++ udp2) tcp (w :: finished)), <- Permutation_middle. by rewrite <- app_assoc.
Qed.

Lemma ids_done_tcp (udp tcp1 tcp2 finished : list nat) w :
  udp ++ (tcp1 ++ tcp2) ++ w :: finished ≡ₚ udp ++ (tcp1 ++ w :: tcp2) ++ finished.
Proof.
  apply Permutation_app_head. rewrite <- (Permutation_middle tcp1 tcp2 w), <- Permutation_middle. done.
Qed.

(** ** Every step keeps it *)

(** A reply that goes with the permits untouched. *)
Definition replies (query : list N) (finish : Shared -> Shared * option (list N)) : Prop :=
  forall g, let '(g', reply) := finish g in
  g'.(sh_state).(permits) = g.(sh_state).(permits)
  /\ (answerable query -> exists b, reply = Some b /\ answer_to fs query b).

Lemma udp_worker_end_ok s l1 w l2 finish :
  s.(sv_udp) = l1 ++ w :: l2 -> replies w.(uw_query) finish -> service_ok s ->
  service_ok (udp_worker_end w finish (l1 ++ l2) s).
Proof.
  intros Hudp Hf [Hidle Hbudget Hids Hdone Hcoh]. unfold udp_worker_end.
  specialize (Hf s.(sv_shared)). destruct (finish (sv_shared s)) as [g reply] eqn:Hfin.
  destruct Hf as [Hp Hreply]. rewrite Hudp in *. unfold ids in Hids. rewrite Hudp in Hids.
  split; simpl.
  - intros Hl. destruct (Hidle Hl) as [Hnil _]. by destruct l1.
  - intros Hl. specialize (Hbudget Hl). rewrite holding_udp in Hbudget.
    apply (budgeted_end w.(uw_client)). rewrite Hp. eapply budgeted_perm; [|exact Hbudget].
    by rewrite slots_udp.
  - unfold ids. simpl. rewrite <- Hids, !fmap_app. simpl. apply ids_done.
  - by constructor.
  - apply list.Forall_app in Hcoh as [? [? ?]%list.Forall_cons]. by apply list.Forall_app.
Qed.

Lemma tcp_worker_end_ok s l1 w l2 net clock :
  s.(sv_tcp) = l1 ++ w :: l2 -> service_ok s -> service_ok (tcp_worker_end ds iter w net clock (l1 ++ l2) s).
Proof.
  intros Htcp [Hidle Hbudget Hids Hdone Hcoh]. unfold tcp_worker_end.
  unfold ids in Hids. rewrite Htcp in *.
  assert (forall g fin, (s.(sv_listening) = true -> budgeted g.(sh_state).(permits)
      (slots_of s.(sv_udp) (l1 ++ l2)) (holding s.(sv_udp) (l1 ++ l2))) ->
    accounted fin -> service_ok (with_workers g s.(sv_udp) (l1 ++ l2) [(w.(tw_id), fin)] s)) as Hend.
  { intros g fin Hg Hfin. split; simpl.
    - intros Hl. destruct (Hidle Hl) as [_ Hnil]. by destruct l1.
    - exact Hg.
    - unfold ids. simpl. rewrite <- Hids, !fmap_app. simpl. apply ids_done_tcp.
    - by constructor.
    - done. }
  destruct (tw_permit w) as [slot|] eqn:Hpermit.
  - pose proof (handle_tcp_client_spec fs iter w.(tw_stream) net clock s.(sv_shared)) as Hh.
    destruct (handle_tcp_client _ _ _ _ _ _) as [g [written result]]. destruct Hh as [Hp Hh].
    apply Hend; [|exact Hh]. intros Hl. specialize (Hbudget Hl).
    rewrite holding_tcp, Hpermit in Hbudget. apply (budgeted_end w.(tw_client)). rewrite Hp.
    eapply budgeted_perm; [|exact Hbudget]. rewrite slots_tcp. unfold tcp_slot at 1. by rewrite Hpermit.
  - destruct (refuse_tcp_client _) as [written result] eqn:Hr. apply Hend.
    + intros Hl. specialize (Hbudget Hl). rewrite holding_tcp, Hpermit in Hbudget. simpl in Hbudget.
      rewrite N.add_0_r in Hbudget. eapply budgeted_perm; [|exact Hbudget]. rewrite slots_tcp.
      unfold tcp_slot at 1. by rewrite Hpermit.
    + intros query Hq Ha. pose proof (refuse_tcp_client_spec fs w.(tw_stream) query Hq Ha) as Hs.
      by rewrite Hr in Hs.
Qed.

Lemma finish_query_replies up net query clock : replies query (finish_query fs iter up net query clock).
Proof. intros g. apply finish_query_spec. Qed.
Lemma no_upstream_replies query clock : replies query (no_upstream fs query clock).
Proof. intros g. apply no_upstream_spec. Qed.

(** A worker that goes on. *)
Lemma progress_ok s l1 w w' l2 g :
  s.(sv_udp) = l1 ++ w :: l2 -> w'.(uw_id) = w.(uw_id) -> coherent w' ->
  (forall slots h, budgeted (permits_of s) (option_list (udp_slot w) ++ slots) h ->
    budgeted g.(sh_state).(permits) (option_list (udp_slot w') ++ slots) h) ->
  service_ok s -> service_ok (with_workers g (l1 ++ w' :: l2) s.(sv_tcp) [] s).
Proof.
  intros Hudp Hid Hw' Hb [Hidle Hbudget Hids Hdone Hcoh]. unfold ids in Hids. rewrite Hudp in *.
  split; simpl.
  - intros Hl. destruct (Hidle Hl) as [Hnil _]. by destruct l1.
  - intros Hl. eapply budgeted_perm; [by rewrite slots_udp|]. apply Hb.
    rewrite holding_udp, <- (holding_udp l1 w l2). eapply budgeted_perm; [|exact (Hbudget Hl)].
    by rewrite slots_udp.
  - unfold ids. simpl. rewrite <- Hids, !fmap_app. simpl. by rewrite Hid.
  - done.
  - apply list.Forall_app in Hcoh as [? [? ?]%list.Forall_cons]. apply list.Forall_app.
    split; [done|]. by constructor.
Qed.

Lemma work_step_ok s s' : work_step ds iter s s' -> service_ok s -> service_ok s'.
Proof.
  intros Hstep Hok. pose proof (ok_coherent _ Hok) as Hcoh.
  destruct Hstep as [s l1 w l2 clock Hu Hw|s l1 w l2 up net Hu Hw|s l1 w l2 up net Hu Hw|s l1 w l2 up net clock Hu|];
    [| | | |by apply tcp_worker_end_ok];
    rewrite Hu in Hcoh; apply list.Forall_app in Hcoh as [_ [Hc _]%list.Forall_cons].
  - apply udp_worker_end_ok; [done|apply no_upstream_replies|done].
  - apply (progress_ok s l1 w); try done. unfold coherent in *. simpl. by rewrite Hw in Hc.
  - apply (progress_ok s l1 w); try done. intros slots h. simpl. rewrite release_slot_permits.
    apply budgeted_release.
  - apply udp_worker_end_ok; [done|apply finish_query_replies|done].
Qed.

Lemma receive_datagram_spec query client clock g :
  let '(g', d) := receive_datagram fs query client clock g in
  exists p r, DnsAdmission.try_acquire g.(sh_state).(permits) client clock.(instant) = (p, r)
  /\ match d with
     | Answered reply => g'.(sh_state).(permits) = g.(sh_state).(permits) /\ answer_to fs query reply
     | Declined refusal reply =>
         r = Err refusal /\ g'.(sh_state).(permits) = p
         /\ (answerable query -> exists b, reply = Some b /\ answer_to fs query b)
     | Accepted slot => r = Ok slot /\ g'.(sh_state).(permits) = p
     end.
Proof.
  unfold receive_datagram. pose proof (answer_here_spec fs query clock (count received g)) as Hh.
  destruct (answer_here _ _ _ _) as [g1 [reply|]]; destruct Hh as (Hp & _ & Hb);
    destruct (DnsAdmission.try_acquire (permits (sh_state g)) client (instant clock)) as [p r] eqn:Ht.
  - exists p, r. split; [done|]. split; [exact Hp|auto].
  - unfold try_acquire. rewrite Hp. cbn [count sh_state] in *. rewrite Ht.
    destruct r as [slot|refusal]; eexists p, _; (split; [done|]); [done|]. simpl.
    split_and!; [done|by rewrite observe_resolution_permits|by apply answerable_refused].
Qed.

Lemma receive_udp_step_ok query client clock s :
  s.(sv_listening) = true -> service_ok s -> service_ok (receive_udp_step ds query client clock s).
Proof.
  intros Hl [Hidle Hbudget Hids Hdone Hcoh]. specialize (Hbudget Hl). unfold receive_udp_step.
  pose proof (receive_datagram_spec query client clock s.(sv_shared)) as Hr. unfold ids in Hids.
  destruct (receive_datagram _ _ _ _ _) as [g [reply|refusal reply|slot]];
    destruct Hr as (p & r & Ht & Hr); pose proof (budgeted_acquire _ _ _ _ _ _ _ Hbudget Ht) as Hb.
  - destruct Hr as [Hp Hto]. split; simpl; try done; [by intros _; rewrite Hp| |].
    + unfold ids. simpl. by rewrite seq_S, <- Hids, app_assoc, <- Permutation_middle, <- app_assoc,
        Permutation_cons_append.
    + constructor; [|done]. simpl. eauto.
  - destruct Hr as (-> & Hp & Hto). split; simpl; try done; [by intros _; rewrite Hp| |].
    + unfold ids. simpl. by rewrite seq_S, <- Hids, app_assoc, <- Permutation_middle, <- app_assoc,
        Permutation_cons_append.
    + by constructor.
  - destruct Hr as (-> & Hp). split; simpl; try done; [congruence| | |].
    + intros _. rewrite Hp. unfold holding at 1. simpl.
      replace (N.of_nat (S _)) with (holding (sv_udp s) (sv_tcp s) + 1)%N by (unfold holding; lia). exact Hb.
    + unfold ids. simpl. by rewrite seq_S, <- Hids, Permutation_cons_append.
    + constructor; [|done]. unfold coherent. simpl. eauto.
Qed.

Lemma accept_tcp_step_ok stream client clock s :
  s.(sv_listening) = true -> service_ok s -> service_ok (accept_tcp_step stream client clock s).
Proof.
  intros Hl [Hidle Hbudget Hids Hdone Hcoh]. specialize (Hbudget Hl). unfold accept_tcp_step, try_acquire.
  destruct (DnsAdmission.try_acquire _ _ _) as [p r] eqn:Ht.
  pose proof (budgeted_acquire _ _ _ _ _ _ _ Hbudget Ht) as Hb. unfold ids in Hids.
  assert (forall g permit, (g.(sh_state).(permits) = p) ->
    permit = match r with Ok slot => Some slot | Err _ => None end ->
    service_ok (arrived g [] [{| tw_id := sv_next s; tw_client := client; tw_stream := stream;
                                 tw_permit := permit |}] [] s)) as Hnew.
  { intros g permit Hg Hpermit. split; simpl; try done; [congruence| |].
    - intros _. rewrite Hg. destruct r as [slot|refusal]; subst permit; [|exact Hb].
      eapply (budgeted_perm _ ((client, slot) :: slots_of (sv_udp s) (sv_tcp s))).
      + unfold slots_of. simpl. by rewrite <- Permutation_middle.
      + pose proof (holding_tcp (sv_udp s) [] {| tw_id := sv_next s; tw_client := client; tw_stream := stream;
                                                  tw_permit := Some slot |} (sv_tcp s)) as Hh.
        simpl in Hh. by rewrite Hh.
    - unfold ids. simpl. rewrite seq_S, <- Hids, <- Permutation_middle. by rewrite Permutation_cons_append. }
  destruct r as [slot|refusal]; by apply Hnew.
Qed.

Lemma listener_failed_ok jitter unix s : service_ok s -> service_ok (listener_failed ds jitter unix s).
Proof.
  intros [Hidle Hbudget Hids Hdone Hcoh]. split; simpl; try done.
  - unfold ids in *. simpl. rewrite <- Hids, fmap_app, <- list_fmap_compose.
    rewrite (list_fmap_ext (fst ∘ (fun id => (id, Aborted))) id) by done.
    by rewrite list_fmap_id, <- app_assoc.
  - apply list.Forall_app. split; [|done]. apply list.Forall_fmap. by apply list.Forall_true.
Qed.

Lemma serve_step_ok s s' : serve_step ds iter s s' -> service_ok s -> service_ok s'.
Proof.
  destruct 1; intros Hok.
  - by apply receive_udp_step_ok.
  - by apply accept_tcp_step_ok.
  - by eapply work_step_ok.
  - destruct Hok. by split.
  - by apply listener_failed_ok.
  - destruct Hok as [Hidle Hb Hids Hdone Hcoh]. split; simpl; try done.
    intros _. destruct (Hidle ltac:(done)) as [-> ->]. apply budgeted_new.
Qed.

Lemma served_ok s : served ds iter s -> service_ok s.
Proof.
  intros [g Hr]. revert s Hr. apply rtc_ind_r; [by split|]. intros s s' _ Hstep. by eapply serve_step_ok.
Qed.

(** ** The workers end *)

Definition stretch (w : UdpWorker) : nat :=
  match w.(uw_progress) with Spawned => 3 | Asking _ _ false => 2 | Asking _ _ true => 1 end.
Definition work_left (s : Server) : nat := sum_list_with stretch s.(sv_udp) + length s.(sv_tcp).

Lemma sum_middle {A} (f : A -> nat) l1 a l2 :
  sum_list_with f (l1 ++ a :: l2) = f a + sum_list_with f (l1 ++ l2).
Proof. rewrite !sum_list_with_app. simpl. lia. Qed.

Lemma stretch_pos w : 0 < stretch w.
Proof. unfold stretch. repeat case_match; lia. Qed.

Lemma work_step_decreases s s' : work_step ds iter s s' -> work_left s' < work_left s.
Proof.
  intros Hstep. unfold work_left.
  destruct Hstep as [s l1 w l2 clock Hu Hw|s l1 w l2 up net Hu Hw|s l1 w l2 up net Hu Hw|s l1 w l2 up net clock Hu|
    s l1 w l2 net clock Ht]; rewrite ?Hu, ?Ht, ?sum_middle; pose proof stretch_pos as Hpos.
  - unfold udp_worker_end. destruct (no_upstream _ _ _ _). simpl. specialize (Hpos w). lia.
  - simpl. rewrite sum_middle. unfold stretch at 1 3. rewrite Hw. simpl. lia.
  - simpl. rewrite sum_middle. unfold stretch at 1 3. rewrite Hw. simpl. lia.
  - unfold udp_worker_end. destruct (finish_query _ _ _ _ _ _ _). simpl. specialize (Hpos w). lia.
  - unfold tcp_worker_end. destruct (tw_permit w);
      [destruct (handle_tcp_client _ _ _ _ _ _) as [? [? ?]]|destruct (refuse_tcp_client _)];
      simpl; rewrite !length_app; simpl; lia.
Qed.

(** A worker can always go on. *)
Lemma work_goes_on s :
  Forall coherent s.(sv_udp) -> s.(sv_udp) <> [] \/ s.(sv_tcp) <> [] -> exists s', work_step ds iter s s'.
Proof.
  intros Hcoh.
  set (clock := {| instant := 0; unix_ms := 0 |}). set (net := {| udp_wire := fun _ => WireError ""; tcp_wire := WireError "" |}).
  intros [Hu|Ht].
  - destruct (sv_udp s) as [|w l] eqn:Hs; [done|]. destruct (uw_progress w) as [|up net' left] eqn:Hw.
    + destruct (upstream (sh_state (sv_shared s))) as [up|] eqn:Hup; eexists.
      * by eapply (w_ask _ _ s [] w l up net).
      * by eapply (w_unconfigured _ _ s [] w l clock).
    + destruct (decide (left = leaves_udp ds net' w.(uw_query))) as [->|Hne].
      * eexists. by eapply (w_finish _ _ s [] w l up net' clock).
      * destruct left, (leaves_udp ds net' (uw_query w)) eqn:Hleaves; try done.
        -- apply list.Forall_cons in Hcoh as [Hc _]. unfold coherent in Hc. rewrite Hw in Hc.
           destruct Hc. congruence.
        -- eexists. by eapply (w_leave _ _ s [] w l up net').
  - destruct (sv_tcp s) as [|w l] eqn:Hs; [done|]. eexists. by eapply (w_tcp _ _ s [] w l net clock).
Qed.

Lemma no_worker_stuck s s' : s.(sv_udp) = [] -> s.(sv_tcp) = [] -> ~ work_step ds iter s s'.
Proof. intros Hu Ht Hstep. destruct Hstep as [? l1 ? ? ? H|? l1 ? ? ? ? H|? l1 ? ? ? ? H|? l1 ? ? ? ? ? H|? l1 ? ? ? ? H]; rewrite H in *; by destruct l1. Qed.

(** ** Theorems *)

Lemma permits_counted s :
  (ds.(max_concurrent_queries) <= usize_MAX)%N -> service_ok s -> s.(sv_listening) = true ->
  ((permits_of s).(DnsAdmission.available_permits) + holding s.(sv_udp) s.(sv_tcp)
    = N.max ds.(max_concurrent_queries) 1)%N
  /\ forall client l, (permits_of s).(DnsAdmission.loads) !! client = Some l ->
     DnsAdmission.load (permits_of s) l.(DnsAdmission.in_flight)
     = DnsAdmissionProps.held client (slots_of s.(sv_udp) s.(sv_tcp)).
Proof.
  intros Hmax Hs Hl. destruct (ok_budget _ Hs Hl) as (now & sl & Hsl & Hr).
  destruct (DnsAdmissionProps.reachable_inv _ _ _ _ Hmax Hr) as [Hi _]. simpl in Hi.
  pose proof (DnsAdmissionProps.reachable_config _ _ _ _ Hr) as [= Hg _ _]. split.
  - rewrite <- Hg. apply Hi.
  - intros client l Hlook. destruct (DnsAdmissionProps.inv_heap _ _ _ _ Hi _ _ Hlook) as [v Hv].
    unfold DnsAdmission.load. rewrite Hv. simpl.
    rewrite (DnsAdmissionProps.inv_count _ _ _ _ Hi _ _ Hv).
    rewrite <- (DnsAdmissionProps.inv_held _ _ _ _ _ _ Hi Hlook). unfold DnsAdmissionProps.held. by rewrite Hsl.
Qed.

(** C18: over every run of the service, through arrivals, stretches of workers,
    failures and restarts of the listeners: each query and each connection that
    came in is in the hands of exactly one worker or has exactly one outcome;
    an outcome that was not cut off by a failure of the listener gives a query
    that can be answered one answer (over TCP, the message read from the
    connection); and while it listens, the permits the workers hold and the free
    ones add up to the configured budget, each client's counter being the number
    of its workers that compete for admission. *)
Theorem service_accounts s :
  (ds.(max_concurrent_queries) <= usize_MAX)%N -> served ds iter s ->
  ids s ≡ₚ seq 0 s.(sv_next) /\ Forall (fun d => accounted d.2) s.(sv_done)
  /\ (s.(sv_listening) = true ->
      ((permits_of s).(DnsAdmission.available_permits) + holding s.(sv_udp) s.(sv_tcp)
        = N.max ds.(max_concurrent_queries) 1)%N
      /\ forall client l, (permits_of s).(DnsAdmission.loads) !! client = Some l ->
         DnsAdmission.load (permits_of s) l.(DnsAdmission.in_flight)
         = DnsAdmissionProps.held client (slots_of s.(sv_udp) s.(sv_tcp))).
Proof.
  intros Hmax Hs%served_ok. split_and!; [apply Hs..|]. by apply permits_counted.
Qed.


(** ** The listener's check *)

Definition snapshot (s : Server) : CanonicalSnapshot := s.(sv_shared).(sh_publisher).(sp_inner).

(** The listener is said to have failed, and so the gateway to be unavailable. *)
Definition listener_down (c : CanonicalSnapshot) : Prop :=
  (exists check, c.(sn_checks) !! "dns.listener" = Some check
     /\ check.(sc_impact) = Critical /\ check.(sc_status) = Domain.Failed)
  /\ c.(sn_availability) = derive_availability c.(sn_recovery) c.(sn_checks).

(** An observation of another check leaves it so. *)
Lemma observe_other o now (g : Shared) :
  o.(ob_id) <> "dns.listener" ->
  listener_down g.(sh_publisher).(sp_inner) -> listener_down (DnsServe.observe o now g).(sh_publisher).(sp_inner).
Proof.
  intros Hid [Hc _]. split; [|apply observe_aggregate]. simpl.
  by rewrite observe_checks, lookup_insert_ne.
Qed.

Notation down g := (listener_down g.(sh_publisher).(sp_inner)).

Lemma observe_resolution_down failure clock g : down g -> down (observe_resolution fs failure clock g).
Proof.
  intros Hd. unfold observe_resolution. destruct (observe_resolution_health _ _ _ _) as [st [v|]]; [|done].
  apply observe_other; [|done]. unfold resolution_observation. by destruct (v_cause v) as [[]|].
Qed.

Lemma observe_tcp_success_down clock g : down g -> down (observe_tcp_success fs clock g).
Proof. unfold observe_tcp_success. case_match; [|done]. by apply observe_other. Qed.

Lemma answer_here_publisher query clock g :
  (answer_here fs query clock g).1.(sh_publisher) = g.(sh_publisher).
Proof. unfold answer_here. case_match; [done|]. by destruct (cached_answer _ _ _). Qed.

Lemma receive_datagram_down query client clock g : down g -> down (receive_datagram fs query client clock g).1.
Proof.
  intros Hd. unfold receive_datagram. pose proof (answer_here_publisher query clock (count received g)) as Hp.
  destruct (answer_here _ _ _ _) as [g1 [reply|]]; simpl in Hp; [simpl; by rewrite Hp|].
  unfold try_acquire. destruct (DnsAdmission.try_acquire _ _ _) as [p [slot|refusal]]; simpl in *; [by rewrite Hp|].
  apply observe_resolution_down. simpl. by rewrite Hp.
Qed.

Lemma finish_query_down up net query clock g : down g -> down (finish_query fs iter up net query clock g).1.
Proof.
  intros Hd. unfold finish_query. destruct (forward_query _ _ _) as [m [r|e]]; [|by apply observe_resolution_down].
  simpl. destruct (fr_tcp_used r); [apply observe_tcp_success_down|]; by apply observe_resolution_down.
Qed.

Lemma handle_tcp_client_down stream net clock g :
  down g -> down (handle_tcp_client fs iter stream net clock g).1.
Proof.
  intros Hd. unfold handle_tcp_client. destruct (read_tcp_message _) as [query|e]; [|done].
  pose proof (answer_here_publisher query clock g) as Hp.
  destruct (answer_here _ _ _ _) as [g1 [reply|]]; simpl in Hp; [simpl; by rewrite Hp|].
  unfold forward_over_tcp. destruct (upstream _); [|simpl; by rewrite Hp].
  destruct (tcp_exchange _ _); simpl; [|by rewrite Hp]. apply observe_tcp_success_down. by rewrite Hp.
Qed.

Lemma release_publisher slot g : (release_slot slot g).(sh_publisher) = g.(sh_publisher).
Proof. by destruct slot. Qed.

Lemma work_step_down s s' : work_step ds iter s s' -> listener_down (snapshot s) -> listener_down (snapshot s').
Proof.
  intros Hstep Hd. destruct Hstep as [s l1 w l2 clock| |s l1 w l2|s l1 w l2 up net clock|s l1 w l2 net clock]; [| done | |..].
  - unfold udp_worker_end, no_upstream, snapshot. simpl. rewrite release_publisher. by apply observe_resolution_down.
  - unfold snapshot. simpl. by rewrite release_publisher.
  - unfold udp_worker_end, snapshot.
    pose proof (finish_query_down up net w.(uw_query) clock _ Hd) as Hf. destruct (finish_query _ _ _ _ _ _ _).
    simpl in *. by rewrite release_publisher.
  - unfold tcp_worker_end, snapshot. destruct (tw_permit w).
    + pose proof (handle_tcp_client_down w.(tw_stream) net clock _ Hd) as Hf.
      destruct (handle_tcp_client _ _ _ _ _ _) as [g [written result]]. exact Hf.
    + by destruct (refuse_tcp_client _).
Qed.

Lemma listener_failed_down jitter unix s :
  fs.(has_publisher) = true -> listener_down (snapshot (listener_failed ds jitter unix s)).
Proof.
  intros Hp. unfold snapshot, listener_failed. rewrite Hp. simpl. split; [|apply observe_aggregate].
  eexists. rewrite observe_checks, lookup_insert_eq. done.
Qed.

Lemma serve_step_down s s' :
  fs.(has_publisher) = true -> serve_step ds iter s s' -> listener_down (snapshot s) -> listener_down (snapshot s').
Proof.
  intros Hp Hstep Hd. destruct Hstep as [s query client clock _|s stream client clock _|s s' Hw|s up names|s jitter unix|s now _];
    try done.
  - unfold receive_udp_step, snapshot. pose proof (receive_datagram_down query client clock _ Hd) as Hr.
    by destruct (receive_datagram _ _ _ _ _) as [g []].
  - unfold accept_tcp_step, try_acquire, snapshot. by destruct (DnsAdmission.try_acquire _ _ _) as [p []].
  - by eapply work_step_down.
  - by apply listener_failed_down.
Qed.

(** C34: a failed listener is reported and its restart is not.  When [run] ends,
    its workers end with it, and the published check says when the next attempt
    is due: at most five minutes later, however often it failed, the attempts
    being counted.  From then on, whatever the service goes on to do (bind the
    sockets again, answer any number of queries), the gateway is published as
    unavailable, or as recovering while a recovery is under way. *)
Theorem listener_failure_reported jitter unix s :
  fs.(has_publisher) = true ->
  let s1 := listener_failed ds jitter unix s in
  s1.(sv_udp) = [] /\ s1.(sv_tcp) = []
  /\ (exists check delay, (snapshot s1).(sn_checks) !! "dns.listener" = Some check
      /\ check.(sc_status) = Domain.Failed /\ check.(sc_observed_at_unix_ms) = unix
      /\ check.(sc_next_attempt_at_unix_ms) = Some (unix + delay * 1000)%N /\ (delay <= 300)%N)
  /\ s1.(sv_attempt) = N.min (s.(sv_attempt) + 1) u32_MAX
  /\ forall s', rtc (serve_step ds iter) s1 s' ->
     (snapshot s').(sn_availability)
     = if (snapshot s').(sn_recovery).(rs_active) then Recovering else Unavailable.
Proof.
  intros Hp s1. split_and!; [done..| | |].
  - subst s1. unfold snapshot, listener_failed. rewrite Hp. simpl. rewrite observe_checks, lookup_insert_eq.
    eexists _, _. split_and!; [done..|]. unfold retry_delay_seconds, MAXIMUM_DELAY. lia.
  - simpl. unfold saturating_add. lia.
  - intros s' Hr.
    assert (listener_down (snapshot s')) as [(check & Hc & Hi & Hf) Ha].
    { revert s' Hr. apply rtc_ind_r; [by apply listener_failed_down|].
      intros s2 s3 _ Hstep. by apply serve_step_down. }
    rewrite Ha. by eapply DomainProps.failed_means_unavailable.
Qed.
End server.
End service.

(** TCP outcomes never reach the verdict on resolution: a connection that is
    refused, or whose query fails, leaves it as it was. *)
Lemma tcp_outcomes_unobserved `{hickory : Hickory} ds iter stream client clock net w tcp s :
  (accept_tcp_step stream client clock s).(sv_shared).(sh_state).(health) = s.(sv_shared).(sh_state).(health)
  /\ (tcp_worker_end ds iter w net clock tcp s).(sv_shared).(sh_state).(health) = s.(sv_shared).(sh_state).(health).
Proof.
  split.
  - unfold accept_tcp_step, try_acquire. by destruct (DnsAdmission.try_acquire _ _ _) as [p []].
  - unfold tcp_worker_end. destruct (tw_permit w) as [slot|]; [|by destruct (refuse_tcp_client _)].
    unfold handle_tcp_client. destruct (read_tcp_message _) as [query|e]; [|done].
    unfold answer_here. destruct (local_answer _ _ _); [done|].
    destruct (cached_answer _ _ _) as [st found] eqn:Hc. apply cached_answer_same in Hc as (_ & Hh & _).
    destruct found; [exact Hh|]. unfold forward_over_tcp. simpl. destruct (upstream st); [|exact Hh].
    destruct (tcp_exchange _ _); [|exact Hh]. simpl. unfold remember_answer, observe_tcp_success.
    destruct (has_publisher _); simpl; destruct (cache st); simpl; exact Hh.
Qed.

(** ** A run *)

(** The crate of [udp_query_answered_witness]; nothing is configured upstream. *)
#[local] Instance demo_hickory : Hickory := toy answering_table.

Definition demo_settings : DnsSettings :=
  {| ds_forward := {| udp_attempts := 2; local_zones_enabled := true; has_publisher := true |};
     max_concurrent_queries := 4; max_concurrent_queries_per_client := None;
     ds_failure_threshold := 3; ds_success_threshold := 2 |}.
Definition demo_iter (m : gmap DnsCache.Key DnsCache.Entry) : list (DnsCache.Key * DnsCache.Entry) := map_to_list m.
Definition demo_shared : Shared :=
  {| sh_state := {| cache := None; local_names := ∅; upstream := None;
                    permits := DnsAdmission.new 1 None 0; health := DnsHealth.new 3 2 |};
     sh_counters := no_counters; sh_publisher := publisher_new snapshot_default |}.
Definition demo_clock : Clock := {| instant := 1; unix_ms := 1000 |}.

Definition demo_bound : Server := listeners_bound demo_settings 0 (supervise_start demo_shared).
Definition demo_asked : Server := receive_udp_step demo_settings (wire 0) (IpAddr_V4 9) demo_clock demo_bound.
Definition demo_worker : UdpWorker :=
  {| uw_id := 0; uw_client := IpAddr_V4 9; uw_query := wire 0; uw_slot := Some 0; uw_progress := Spawned |}.
Definition demo_answered : Server :=
  udp_worker_end demo_worker (no_upstream demo_settings.(ds_forward) (wire 0) demo_clock) [] demo_asked.

Lemma demo_asked_udp : demo_asked.(sv_udp) = [] ++ [demo_worker].
Proof. vm_compute. reflexivity. Qed.

Lemma demo_asked_served : served demo_settings demo_iter demo_asked.
Proof.
  exists demo_shared. eapply rtc_l; [by apply (d_bound _ _ _ 0)|]. apply rtc_once. by apply d_datagram.
Qed.

Lemma demo_answered_served : served demo_settings demo_iter demo_answered.
Proof.
  destruct demo_asked_served as [g Hr]. exists g. eapply rtc_r; [exact Hr|]. apply d_work.
  apply (w_unconfigured _ _ demo_asked [] demo_worker []); [apply demo_asked_udp|done|].
  vm_compute. reflexivity.
Qed.

Lemma service_accounts_witness :
  ids demo_asked = [0] /\ holding demo_asked.(sv_udp) demo_asked.(sv_tcp) = 1%N
  /\ (demo_asked.(sv_shared).(sh_state).(permits).(DnsAdmission.available_permits) + 1 = 4)%N.
Proof.
  split; [vm_compute; reflexivity|]. split; [vm_compute; reflexivity|].
  exact (proj1 (proj2 (proj2 (service_accounts demo_settings demo_iter demo_asked
    ltac:(vm_compute; discriminate) demo_asked_served)) ltac:(vm_compute; reflexivity))).
Defined.


(** The sockets are bound again, and the gateway stays unavailable. *)
Lemma listener_failure_reported_witness :
  let again := listeners_bound demo_settings 5 (listener_failed demo_settings 1 7000 demo_asked) in
  again.(sv_listening) = true /\ (snapshot again).(sn_availability) = Unavailable.
Proof.
  split; [reflexivity|].
  rewrite (proj2 (proj2 (proj2 (proj2 (listener_failure_reported demo_settings demo_iter 1 7000 demo_asked eq_refl))))
    (listeners_bound demo_settings 5 (listener_failed demo_settings 1 7000 demo_asked))
    (rtc_once _ _ (d_bound demo_settings demo_iter (listener_failed demo_settings 1 7000 demo_asked) 5 eq_refl))).
  vm_compute. reflexivity.
Defined.

(** ** Owned names over TCP

    Over UDP an owned name is answered before admission.  A connection is
    admitted before its query is read, so with the budget in use an owned name is
    refused. *)
Definition owned_request : MessageOf string unit unit unit :=
  toy_message 3 Query NoError [{| q_name := "web."; query_type := RecordType_A; query_class := 1 |}] [] [].
Definition owned_table : list (MessageOf string unit unit unit) :=
  [owned_request;
   @LocalZone.local_response (toy []) owned_request
     {| q_name := "web."; query_type := RecordType_A; query_class := 1 |} 7;
   @rcode_message (toy []) owned_request Refused].
Definition busy_state : @State (toy owned_table) :=
  {| cache := None; local_names := {["web" := 7%N]}; upstream := None;
     permits := (DnsAdmission.try_acquire (DnsAdmission.new 1 None 0) (IpAddr_V4 5) 0).1;
     health := DnsHealth.new 3 2 |}.
Definition busy_server : @Server (toy owned_table) :=
  {| sv_shared := {| sh_state := busy_state; sh_counters := no_counters; sh_publisher := publisher_new snapshot_default |};
     sv_listening := true; sv_attempt := 0; sv_udp := []; sv_tcp := []; sv_next := 0; sv_done := [] |}.
Definition taking (message : list N) : TcpStream := {| tcp_request := WireReply message; tcp_write := fun _ => Ok tt |}.

Example owned_names_need_a_permit_over_tcp :
  let udp := @receive_udp_step (toy owned_table) demo_settings (wire 0) (IpAddr_V4 9) demo_clock busy_server in
  let tcp := @accept_tcp_step (toy owned_table) (taking (wire 0)) (IpAddr_V4 9) demo_clock busy_server in
  snd <$> udp.(sv_done) = [UdpReplied (wire 0) (Some (wire 1))]
  /\ tw_permit <$> tcp.(sv_tcp) = [None]
  /\ @refuse_tcp_client (toy owned_table) (taking (wire 0)) = ([wire 2], Ok tt).
Proof. split_and!; vm_compute; reflexivity. Qed.
